(* ===== verification/_CoqProject ===== *)
-Q . S2P
Prelude.v
CString.v
Ulib.v
Riscv.v
Kalloc.v
Param.v
Vm.v
VmTable.v
VmMap.v
VmCopy.v
VmAlloc.v
VmFree.v
VmInst.v
Bio.v
Log.v
LogSys.v
BlockLayer.v
BlockLog.v
FsDisk.v
Fs.v
FsBlocks.v
FsInode.v
FsFile.v
FsDir.v
FsPath.v
FsNamex.v
FsInst.v
FsTrunc.v
FsBoot.v
Mkfs.v
MkfsSpec.v
MkfsKernel.v
MkfsRead.v
Pipe.v
Kernel.v
Printf.v
Proc.v
ProcSpec.v
ProcSpace.v
Console.v
ConsoleSpec.v
Uart.v
Files.v
Life.v
LifeSpec.v
LifeInst.v
Exec.v
ExecSpec.v
Sysfile.v
FdRefs.v
Syscall.v
Trap.v
TrapSpec.v
Spinlock.v
Sleeplock.v
Virtio.v
KernelInst.v
SleepWakeup.v
Grep.v
Sort.v
User.v
Sh.v
ShSpec.v
ShParse.v
ShRun.v
Umalloc.v
UmallocSpec.v
Utils.v
UtilsRun.v
Boot.v
