(* ===== verification/Prelude.v ===== *)
(** * A verification of xv6-riscv

    This library models the kernel of src/xv6-riscv/kernel and several programs of
    src/xv6-riscv/user as Rocq functions, and proves what they are meant to do.

    ** The form of the model

    Kernel code is in the monad [M S A] of this file: a function on a [thread], which
    is the list of locks the hart holds and a state [S]; its [outcome] is a result, a
    panic with its message, or a sleep that nobody ends ([Asleep], also the outcome of
    a loop whose fuel is used up).  [acquire] and [release] change the list of locks and
    panic as spinlock.c does.  Integers are [Z] with the truncation to their width
    written out ([u8], [u32], [u64], [s32]).  Physical memory is a function from
    addresses to bytes ([CString.mem]), a pointer an address; an entry of a kernel table
    is its index.  Where code sleeps, what the rest of the machine does meanwhile is an
    argument (a function on the state, or a list of steps), which a theorem quantifies
    over.  Where the interleaving is the point (locks, sleep and wakeup, log
    reservations, crashes) the model is a step relation or a list of disk writes.
    User programs are trees of system calls ([User.prog]).

    ** Parts of the program, from the bottom

    - CString: string.c.  Ulib: the routines of the same names in user/ulib.c.  Param,
      Riscv: param.h, riscv.h, memlayout.h.
    - Kalloc: kalloc.c, the free list threaded through the free pages.
    - Vm: vm.c on page tables in physical memory.  VmTable, VmMap, VmCopy, VmAlloc, VmFree
      have its theorems on the translation and the user memory a table stands for, and on
      where its pages come from and go; VmInst has instances on a small memory.
    - Bio: bio.c, the list of buffers, over the transfer of one block.  Virtio:
      virtio_disk.c, which implements this transfer over a device that is a parameter.
    - Log: log.c over Bio, with crashes after any prefix of the block writes.  LogSys:
      the reservations of log space by interleaved calls.
    - BlockLayer: the class [BlockOps] of what fs.c calls, with its laws [BlockLaws];
      BlockLog proves the laws for Log over Bio.
    - FsDisk, Fs: fs.h and fs.c, generic in the block layer.  FsBlocks, FsInode, FsFile,
      FsDir, FsPath, FsNamex, FsTrunc have the theorems of its layers, proved from
      [BlockLaws]; FsInst puts them on the real block layer, FsBoot is the mount.
    - Mkfs: mkfs/mkfs.c.  MkfsSpec: what an image holds; MkfsKernel, MkfsRead: the
      kernel's view of it.
    - Pipe: pipe.c, over the interface [PipeEnv], which Kernel implements.
    - Kernel: the states of all components side by side.  Printf: printf.c and the
      output path of console.c and uart.c.  Console: console.c and uart.c, ConsoleSpec its
      theorems.  Uart: the initialisation, over the class [Uart16550] of devices.
    - Proc, Life: proc.c ([fork], [exit], [wait] in Life).  ProcSpec: the table and the
      scheduler; ProcSpace: address spaces of processes; LifeSpec: [fork] and [wait],
      LifeInst their instances.  Spinlock, Sleeplock, SleepWakeup: spinlock.c,
      sleeplock.c and sleep/wakeup of proc.c, as steps of several harts.
    - Files: file.c.  Sysfile, Syscall: sysfile.c, sysproc.c, syscall.c.  Exec, ExecSpec:
      exec.c.  Trap, TrapSpec: trap.c.  FdRefs: the reference counts of open files over
      all of these.  KernelInst: instances on a concrete kernel.
    - Boot: start.c, main.c, plic.c and the control registers of riscv.h; the harts come
      up as a step relation.
    - User: the system calls as seen by a program, user/printf.c, ulib.c.  Grep, Sort:
      grep.c; sort.c, head.c and tail.c.  Utils: the other programs of user/.  UtilsRun:
      what they compute on files and descriptors.  Sh, ShSpec, ShParse, ShRun:
      user/sh.c.  Umalloc, UmallocSpec: user/umalloc.c.

    A definition has the name of the C function; a loop of a function [f] is [f_loop] or
    has a name of its own with a comment that quotes it.

    ** What the theorems show

    - Crash safety: a file system call between [begin_op] and [end_op] is on the disk
      after a crash and recovery completely or not at all, whatever it did to blocks
      (Log, FsInst); recovery can itself be interrupted; the reservations of
      interleaved calls fit into the log (LogSys), but [log_write] stops one short.
    - The file system refines simple objects: the free map a set of blocks (FsBlocks),
      an inode its fields (FsInode), a file a function from offsets to bytes (FsFile), a
      directory a map from names to inode numbers (FsDir), a path a list (FsPath), the
      lookup of a path a walk through directories (FsNamex).  An unlinked file gives its
      blocks back with its last reference (FsTrunc).  What mkfs writes, the mounted
      kernel reads (MkfsRead).
    - Memory: [kalloc] refines a pool of pages; [mappages], [uvmalloc], [uvmcopy] have
      exactly their effect on the translation and undo themselves on failure; [uvmfree]
      returns every page once; the copies between kernel and user are exact and check
      every page.
    - Processes: spin locks exclude, a wakeup is not lost, sleep locks and the scheduler
      make progress; the reference counts of open files are exact whatever the
      processes do with their descriptors.  [fork] makes a true copy or fails cleanly,
      [wait] collects the first zombie, and the two together lose no page (LifeSpec).
      [exec] builds the stack its program expects (ExecSpec).  A killed process does not
      return to user space (TrapSpec).
    - I/O: the driver moves exactly its block whatever the device does within its
      contract; pipes are queues; the console is a line discipline, and what is written
      to it arrives in order (ConsoleSpec); number printing is right where it fits its
      array.
    - Boot: no hart uses what hart 0 has not set up (Boot).
    - User programs: the shell's parser decides a grammar and its commands run with the
      descriptors the line asks for; the allocator keeps its blocks apart; grep decides
      its pattern language; sort sorts; cat, wc, grep, sort, head and tail write the same
      however their input is split into reads.

    ** Fuel

    Loops the source bounds by a table or a length get that bound.  [walk] has three
    levels, and so has [freewalk].  Loops along a linked list take the length of the list
    or the number of nodes there are.  The parser of the shell has [4 * es + 4] nested
    calls for [es] bytes; [parsecmd_correct] includes that this is enough.  [qsort] has a
    call per line ([sort_correct]).  Fuel of [Umalloc] is any number above the number of
    segments of the heap ([malloc_correct], [free_correct]).  [namex] has a step per
    byte of the path ([namex_correct]).  Loops that wait for another party (a pipe's
    reader, the console, a child) take a list of what the others do, and end in [Asleep]
    when it does.

    ** Not modelled

    Assembly (entry.S, kernelvec.S, trampoline.S, swtch.S, initcode.S), which moves
    registers.  The TLB and the memory model below C statements, compiler behaviour, and
    the timing of interrupts inside a function that holds no lock.  The functions that
    only give a lock its name ([initlock] in [trapinit], [fileinit]).  The test
    programs usertests, grind, forktest, stressfs and lseek_test: they keep no state, and
    exercise what is proved here.  defs.h, user.h and syscall.h are prototypes and
    numbers. *)

From Stdlib Require Export ZArith Lia.
From stdpp Require Export base strings numbers gmap list.

#[global] Open Scope Z_scope.

(** ** Machine integers

    A C integer of [w] bits is a [Z]; arithmetic that may leave its range is
    followed by an explicit truncation. *)

Definition u8 (x : Z) : Z := x mod 2 ^ 8.
Definition u16 (x : Z) : Z := x mod 2 ^ 16.
Definition u32 (x : Z) : Z := x mod 2 ^ 32.
Definition u64 (x : Z) : Z := x mod 2 ^ 64.

(** Conversion to a signed type of [w] bits (two's complement). *)
Definition signed (w : Z) (x : Z) : Z :=
  let y := x mod 2 ^ w in if y <? 2 ^ (w - 1) then y else y - 2 ^ w.

Definition s16 (x : Z) : Z := signed 16 x.
Definition s32 (x : Z) : Z := signed 32 x.

(** C truth value of an integer expression. *)
Definition truth (x : Z) : bool := negb (x =? 0).

Definition is_byte (b : Z) : Prop := 0 <= b < 256.

Lemma u32_small x : 0 <= x < 2 ^ 32 → u32 x = x.
Proof. intros. by apply Z.mod_small. Qed.

Lemma u64_small x : 0 <= x < 2 ^ 64 → u64 x = x.
Proof. intros. by apply Z.mod_small. Qed.

Lemma u32_range x : 0 <= u32 x < 2 ^ 32.
Proof. by apply Z.mod_pos_bound. Qed.

Lemma u64_range x : 0 <= u64 x < 2 ^ 64.
Proof. by apply Z.mod_pos_bound. Qed.

Lemma signed_small w x :
  0 < w → - 2 ^ (w - 1) <= x < 2 ^ (w - 1) → signed w x = x.
Proof.
  intros Hw Hx. unfold signed.
  assert (2 ^ w = 2 * 2 ^ (w - 1)) as Hp.
  { rewrite <- Z.pow_succ_r by lia. f_equal; lia. }
  destruct (decide (0 <= x)).
  - rewrite Z.mod_small by lia. by rewrite (proj2 (Z.ltb_lt _ _)) by lia.
  - rewrite <- (Z.mod_add x 1) by lia. rewrite Z.mod_small by lia.
    rewrite (proj2 (Z.ltb_ge _ _)) by lia. lia.
Qed.

Lemma signed_range w x :
  0 < w → - 2 ^ (w - 1) <= signed w x < 2 ^ (w - 1).
Proof.
  intros Hw. unfold signed.
  assert (2 ^ w = 2 * 2 ^ (w - 1)) as Hp.
  { rewrite <- Z.pow_succ_r by lia. f_equal; lia. }
  pose proof (Z.mod_pos_bound x (2 ^ w) ltac:(lia)).
  destruct (Z.ltb_spec (x mod 2 ^ w) (2 ^ (w - 1))); lia.
Qed.

(** ** Little-endian words *)

Fixpoint le_bytes (n : nat) (x : Z) : list Z :=
  match n with
  | O => []
  | S n => x mod 256 :: le_bytes n (x / 256)
  end.

Fixpoint le_val (bs : list Z) : Z :=
  match bs with
  | [] => 0
  | b :: bs => b + 256 * le_val bs
  end.

Lemma length_le_bytes n x : length (le_bytes n x) = n.
Proof. revert x; induction n; intros; simpl; congruence. Qed.

Lemma le_bytes_is_byte n x : Forall is_byte (le_bytes n x).
Proof.
  revert x; induction n; intros; simpl; constructor; auto.
  unfold is_byte. apply Z.mod_pos_bound; lia.
Qed.

Lemma le_val_bytes n x : le_val (le_bytes n x) = x mod 2 ^ (8 * Z.of_nat n).
Proof.
  revert x; induction n as [|n IH]; intros; cbn [le_bytes le_val].
  - by rewrite Z.mod_1_r.
  - rewrite IH. replace (8 * Z.of_nat (S n)) with (8 + 8 * Z.of_nat n) by lia.
    rewrite Z.pow_add_r by lia. change (2 ^ 8) with 256.
    rewrite (Z.rem_mul_r x 256) by lia. lia.
Qed.

Lemma le_val_range bs :
  Forall is_byte bs → 0 <= le_val bs < 2 ^ (8 * Z.of_nat (length bs)).
Proof.
  unfold is_byte. induction 1 as [|b bs Hb Hbs IH]; cbn [le_val length].
  - simpl; lia.
  - replace (8 * Z.of_nat (S (length bs))) with (8 + 8 * Z.of_nat (length bs)) by lia.
    rewrite Z.pow_add_r by lia. change (2 ^ 8) with 256. lia.
Qed.

Lemma le_bytes_val bs : Forall is_byte bs → le_bytes (length bs) (le_val bs) = bs.
Proof.
  unfold is_byte. induction 1 as [|b bs Hb Hbs IH]; cbn [le_val length le_bytes]; auto.
  replace (b + 256 * le_val bs) with (b + le_val bs * 256) by lia.
  rewrite Z.mod_add, Z.div_add, (Z.mod_small b), (Z.div_small b), Z.add_0_l by lia.
  by rewrite IH.
Qed.

(** ** Slices of byte arrays *)

Section slices.
Context {A : Type}.
Implicit Types l k : list A.

(** [n] elements of [l] from index [i]. *)
Definition slice (i n : nat) l : list A := take n (drop i l).

(** [l] with the elements from index [i] on overwritten by [k]. *)
Definition splice (i : nat) k l : list A := take i l ++ k ++ drop (i + length k) l.

Lemma length_slice i n l : (i + n <= length l)%nat → length (slice i n l) = n.
Proof. intros. unfold slice. rewrite length_take, length_drop. lia. Qed.

Lemma length_splice i k l : (i + length k <= length l)%nat → length (splice i k l) = length l.
Proof.
  intros. unfold splice. rewrite !length_app, length_take, length_drop. lia.
Qed.

Lemma slice_splice_same i k l :
  (i + length k <= length l)%nat → slice i (length k) (splice i k l) = k.
Proof.
  intros. unfold slice, splice.
  rewrite drop_app_ge by (rewrite length_take; lia).
  rewrite length_take. replace (i - _)%nat with 0%nat by lia.
  by rewrite drop_0, take_app_length.
Qed.

Lemma lookup_slice i n l j : (j < n)%nat → slice i n l !! j = l !! (i + j)%nat.
Proof. intros. unfold slice. rewrite lookup_take_lt by lia. by rewrite lookup_drop. Qed.

Lemma lookup_splice i k l j :
  (i + length k <= length l)%nat →
  splice i k l !! j =
    if decide (i <= j < i + length k)%nat then k !! (j - i)%nat else l !! j.
Proof.
  intros. unfold splice. case_decide.
  - rewrite lookup_app_r by (rewrite length_take; lia). rewrite length_take.
    rewrite lookup_app_l by lia. f_equal; lia.
  - destruct (decide (j < i)%nat).
    + rewrite lookup_app_l by (rewrite length_take; lia). by rewrite lookup_take_lt by lia.
    + rewrite lookup_app_r by (rewrite length_take; lia). rewrite length_take.
      rewrite lookup_app_r by lia. rewrite lookup_drop. f_equal; lia.
Qed.

Lemma slice_splice_disjoint i k l j n :
  (i + length k <= length l)%nat →
  (j + n <= i ∨ i + length k <= j)%nat →
  slice j n (splice i k l) = slice j n l.
Proof.
  intros Hl Hd. apply list_eq; intros x.
  destruct (decide (x < n)%nat).
  - rewrite !lookup_slice by lia. rewrite lookup_splice by lia.
    by rewrite decide_False by lia.
  - unfold slice. by rewrite !lookup_take_ge by lia.
Qed.

Lemma splice_Forall (P : A → Prop) i k l :
  Forall P k → Forall P l → Forall P (splice i k l).
Proof.
  intros. unfold splice. rewrite !Forall_app. eauto using Forall_take, Forall_drop.
Qed.

Lemma slice_Forall (P : A → Prop) i n l : Forall P l → Forall P (slice i n l).
Proof. intros. unfold slice. eauto using Forall_take, Forall_drop. Qed.
End slices.

Lemma Forall_elem {A} (P : A → Prop) (l : list A) x : Forall P l → x ∈ l → P x.
Proof.
  intros H Hx. apply list_elem_of_lookup in Hx as [i Hi]. by eapply Forall_lookup_1.
Qed.

Lemma Forall_lookup_default {A} (P : A → Prop) (d : A) (l : list A) i :
  P d → Forall P l → P (default d (l !! i)).
Proof.
  intros Hd Hl. destruct (l !! i) as [x|] eqn:E; simpl; auto.
  by eapply Forall_lookup_1.
Qed.

(** ** The longest prefix of a property *)

Fixpoint drop_while (p : Z → bool) (l : list Z) : list Z :=
  match l with
  | [] => []
  | c :: r => if p c then drop_while p r else l
  end.
Fixpoint take_while (p : Z → bool) (l : list Z) : list Z :=
  match l with
  | [] => []
  | c :: r => if p c then c :: take_while p r else []
  end.

Lemma take_drop_while p l : take_while p l ++ drop_while p l = l.
Proof. induction l as [|c l IH]; [done|]. simpl. destruct (p c); simpl; congruence. Qed.

Lemma take_while_Forall p l : Forall (λ c, p c = true) (take_while p l).
Proof. induction l as [|c l IH]; simpl; [done|]. destruct (p c) eqn:E; by constructor. Qed.

Lemma drop_while_head p l : match drop_while p l with [] => True | c :: _ => p c = false end.
Proof. induction l as [|c l IH]; simpl; [done|]. by destruct (p c) eqn:E. Qed.

Lemma length_drop_while p l : (length (drop_while p l) <= length l)%nat.
Proof. induction l as [|c l IH]; simpl; [done|]. destruct (p c); simpl; lia. Qed.

(** ** Functions on addresses *)

Definition fupdz {A} (f : Z → A) (b : Z) (v : A) : Z → A := λ x, if x =? b then v else f x.

Lemma fupdz_eq {A} (f : Z → A) b v : fupdz f b v b = v.
Proof. unfold fupdz. by rewrite Z.eqb_refl. Qed.
Lemma fupdz_ne {A} (f : Z → A) b v x : x ≠ b → fupdz f b v x = f x.
Proof. intros. unfold fupdz. by rewrite (proj2 (Z.eqb_neq x b)). Qed.

(** ** The kernel monad

    A kernel operation runs on one hart, in the context of one thread.  It sees
    the component state [S] it works on and the list of the spin locks its hart
    holds ([held], innermost first).  It finishes with a value, panics (the
    kernel's [panic] never returns) or stops in [sleep] with nobody having
    changed what it waits for ([Asleep], with the state it left behind). *)

(** The spin locks and sleep locks of the kernel. *)
Inductive lockname :=
  | L_kmem | L_bcache | L_log | L_itable | L_ftable
  | L_pid | L_wait | L_proc (i : nat) | L_pipe (pa : Z)
  | L_cons | L_uart | L_ticks | L_vdisk | L_pr
  | SL_buf (i : nat) | SL_inode (i : nat).

#[global] Instance lockname_eq_dec : EqDecision lockname.
Proof. solve_decision. Defined.

Record thread (S : Type) := Thread { held : list lockname; st : S }.
Arguments Thread {S} _ _.
Arguments held {S} _.
Arguments st {S} _.

Inductive outcome (S A : Type) :=
  | Ok (a : A) (t : thread S)
  | Panic (msg : string)
  | Asleep (t : thread S).
Arguments Ok {S A} _ _.
Arguments Panic {S A} _.
Arguments Asleep {S A} _.

Definition M (S A : Type) : Type := thread S → outcome S A.

Definition ret {S A} (a : A) : M S A := fun t => Ok a t.

Definition bind {S A B} (m : M S A) (k : A → M S B) : M S B := fun t =>
  match m t with
  | Ok a t' => k a t'
  | Panic e => Panic e
  | Asleep t' => Asleep t'
  end.

Definition panic {S A} (msg : string) : M S A := fun _ => Panic msg.

Declare Scope kernel_scope.
Delimit Scope kernel_scope with kernel.
Notation "'let!' x ':=' m 'in' k" := (bind m (fun x => k))
  (at level 10, x pattern, m at level 200, k at level 200,
   format "'[v' 'let!'  x  ':='  m  'in' '/' k ']'") : kernel_scope.
Notation "m1 ;;; m2" := (bind m1 (fun _ => m2))
  (at level 199, right associativity, format "'[v' m1  ;;; '/' m2 ']'") : kernel_scope.
#[global] Open Scope kernel_scope.

(** Reading and writing the component state. *)
Definition get {S} : M S S := fun t => Ok (st t) t.
Definition gets {S A} (f : S → A) : M S A := fun t => Ok (f (st t)) t.
Definition modify {S} (f : S → S) : M S unit := fun t => Ok tt (Thread (held t) (f (st t))).

(** [if(c) panic(msg);] *)
Definition panic_if {S} (c : bool) (msg : string) : M S unit :=
  if c then panic msg else ret tt.

(** spinlock.c as the other components see it: [acquire] panics when this hart
    already holds the lock and otherwise returns holding it; [release] panics
    unless this hart holds it.  [Spinlock.v] relates the code to this view. *)
Definition holding {S} (lk : lockname) : M S bool := fun t =>
  Ok (bool_decide (lk ∈ held t)) t.

Definition acquire {S} (lk : lockname) : M S unit := fun t =>
  if decide (lk ∈ held t) then Panic "acquire" else Ok tt (Thread (lk :: held t) (st t)).

Fixpoint remove_lock (lk : lockname) (h : list lockname) : list lockname :=
  match h with
  | [] => []
  | l :: h => if decide (l = lk) then h else l :: remove_lock lk h
  end.

Definition release {S} (lk : lockname) : M S unit := fun t =>
  if decide (lk ∈ held t) then Ok tt (Thread (remove_lock lk (held t)) (st t))
  else Panic "release".

(** sleeplock.c as its callers see it: [acquiresleep] waits while another
    process has the lock, so a thread that already has it sleeps for ever.
    [Sleeplock.v] has the code. *)
Definition acquiresleep {S} (lk : lockname) : M S unit := fun t =>
  if decide (lk ∈ held t) then Asleep t else Ok tt (Thread (lk :: held t) (st t)).

Definition releasesleep {S} (lk : lockname) : M S unit := fun t =>
  Ok tt (Thread (remove_lock lk (held t)) (st t)).

Definition holdingsleep {S} (lk : lockname) : M S bool := fun t =>
  Ok (bool_decide (lk ∈ held t)) t.

(** Run an operation of a component on a larger state that contains it. *)
Definition lift {S T A} (proj : S → T) (inj : T → S → S) (m : M T A) : M S A := fun t =>
  match m (Thread (held t) (proj (st t))) with
  | Ok a t' => Ok a (Thread (held t') (inj (st t') (st t)))
  | Panic e => Panic e
  | Asleep t' => Asleep (Thread (held t') (inj (st t') (st t)))
  end.

(** [for] loops over a list of indices, with an early return: the body returns
    [Some r] to leave the loop with [r]. *)
Fixpoint for_each {S I R} (idx : list I) (body : I → M S (option R)) : M S (option R) :=
  match idx with
  | [] => ret None
  | i :: idx =>
      let! r := body i in
      match r with Some _ => ret r | None => for_each idx body end
  end.

(** [for(i = a; i < a + n; i++) body(i)] without an early exit. *)
Fixpoint for_range {S} (a n : nat) (body : nat → M S unit) : M S unit :=
  match n with
  | O => ret tt
  | S n => body a ;;; for_range (1 + a)%nat n body
  end.

(** The C program has no defined behaviour from here on (an access outside an
    array, a null pointer). *)
Definition undefined {S A} (what : string) : M S A := panic ("undefined behaviour: " +:+ what)%string.

(** [sleep(chan, lk)] as the caller sees it: [lk] is given up, the other
    threads run ([e] is what they did to the state), and [lk] is taken again.  A
    loop around [sleep] takes the list of the [e]s of its rounds and is [Asleep]
    for good when the list is used up. *)
Definition sleep_round {S} (lk : lockname) (e : S → S) : M S unit :=
  release lk ;;; modify e ;;; acquire lk.

Section monad_lemmas.
Context {S : Type}.
Implicit Types t : thread S.

Lemma bind_Ok {A B} (m : M S A) (k : A → M S B) t a t' :
  m t = Ok a t' → bind m k t = k a t'.
Proof. unfold bind. by intros ->. Qed.

Lemma bind_assoc {A B C} (m : M S A) (k : A → M S B) (j : B → M S C) t :
  bind (bind m k) j t = bind m (fun a => bind (k a) j) t.
Proof. unfold bind. by destruct (m t). Qed.

Lemma bind_inv_Ok {A B} (m : M S A) (k : A → M S B) t b t' :
  bind m k t = Ok b t' → ∃ a t1, m t = Ok a t1 ∧ k a t1 = Ok b t'.
Proof. unfold bind. destruct (m t); naive_solver. Qed.

Lemma acquire_Ok lk h (s : S) :
  lk ∉ h → acquire lk (Thread h s) = Ok tt (Thread (lk :: h) s).
Proof. intros. unfold acquire; simpl. by rewrite decide_False. Qed.

Lemma release_Ok lk h (s : S) :
  release lk (Thread (lk :: h) s) = Ok tt (Thread h s).
Proof.
  unfold release; simpl. rewrite decide_True by left. by rewrite decide_True.
Qed.

Lemma for_each_app {I R} (idx js : list I) (body : I → M S (option R)) t :
  for_each (idx ++ js) body t =
    (let! r := for_each idx body in
     match r with Some _ => ret r | None => for_each js body end) t.
Proof.
  revert t; induction idx as [|i idx IH]; intros t; simpl; [done|].
  rewrite bind_assoc. unfold bind. destruct (body i t) as [[r|] t'| |]; [done| |done|done].
  by rewrite IH.
Qed.
End monad_lemmas.

(** *** Total-correctness triples: from every thread satisfying [P] the
    operation returns, in a thread and with a value satisfying [Q]. *)
Definition triple {S A} (P : thread S → Prop) (m : M S A) (Q : A → thread S → Prop) : Prop :=
  ∀ t, P t → ∃ a t', m t = Ok a t' ∧ Q a t'.

Lemma triple_bind {S A B} P (m : M S A) R (k : A → M S B) Q :
  triple P m R → (∀ a, triple (R a) (k a) Q) → triple P (bind m k) Q.
Proof.
  intros Hm Hk t Ht. destruct (Hm t Ht) as (a & t1 & E1 & H1).
  destruct (Hk a t1 H1) as (b & t2 & E2 & H2).
  exists b, t2. split; [|done]. by rewrite (bind_Ok _ _ _ _ _ E1).
Qed.

Lemma triple_ret {S A} (P : thread S → Prop) (a : A) (Q : A → thread S → Prop) :
  (∀ t, P t → Q a t) → triple P (ret a) Q.
Proof. intros H t Ht. exists a, t. auto. Qed.

Lemma triple_conseq {S A} (P P' : thread S → Prop) (m : M S A) (Q Q' : A → thread S → Prop) :
  triple P' m Q' → (∀ t, P t → P' t) → (∀ a t, Q' a t → Q a t) → triple P m Q.
Proof. intros H HP HQ t Ht. destruct (H t (HP t Ht)) as (a & t' & ? & ?). eauto. Qed.

(** ** Automation

    [kstep] runs the first operation of the goal's program. *)
Create HintDb xv6.

Ltac kunfold := unfold get, gets, modify, ret, panic_if in *.

Ltac lock_notin :=
  first [ assumption | done
        | rewrite ?not_elem_of_cons; repeat split; (assumption || done || congruence)
        | apply not_elem_of_nil | set_solver ].

Ltac kstep :=
  cbn [held st];
  match goal with
  | |- context [bind ?m ?k ?t] =>
      lazymatch m with
      | acquire ?lk =>
          lazymatch t with Thread ?h ?s =>
            rewrite (bind_Ok m k _ _ _ (acquire_Ok lk h s ltac:(lock_notin))) end
      | release _ => rewrite (bind_Ok m k _ _ _ (release_Ok _ _ _))
      | bind _ _ => rewrite (bind_assoc _ _ _ t)
      | get => rewrite (bind_Ok m k t _ _ eq_refl)
      | gets _ => rewrite (bind_Ok m k t _ _ eq_refl)
      | modify _ => rewrite (bind_Ok m k t _ _ eq_refl)
      | ret _ => rewrite (bind_Ok m k t _ _ eq_refl)
      | _ => erewrite (bind_Ok m k t); [|solve [reflexivity | eauto with xv6]]
      end
  end.
