(* ===== verification/CString.v ===== *)
(** * string.c: byte and string routines of the kernel

    Memory is a total map from addresses to bytes ([mem]); a C pointer is an
    address.  Each routine is a function on [mem] that follows the loop of the
    source, one byte store per iteration; [char] is unsigned on RISC-V.  The
    theorems give the effect of each routine at every address. *)

From S2P Require Import Prelude.

Definition mem : Type := Z → Z.

(** The bytes of a string literal. *)
Definition str (s : string) : list Z := (λ a, Z.of_nat (Ascii.nat_of_ascii a)) <$> String.list_ascii_of_string s.

Definition store (m : mem) (a v : Z) : mem := fun x => if x =? a then v else m x.

Lemma store_eq m a v : store m a v a = v.
Proof. unfold store. by rewrite Z.eqb_refl. Qed.

Lemma store_ne m a v x : x ≠ a → store m a v x = m x.
Proof. intros. unfold store. by rewrite (proj2 (Z.eqb_neq _ _)). Qed.

(** [memset(dst, c, n)]: [for(i = 0; i < n; i++) cdst[i] = c;] *)
Fixpoint memset_loop (k : nat) (i dst c : Z) (m : mem) : mem :=
  match k with
  | O => m
  | S k => memset_loop k (i + 1) dst c (store m (dst + i) (u8 c))
  end.

Definition memset (dst c n : Z) (m : mem) : mem := memset_loop (Z.to_nat n) 0 dst c m.

(** [memcmp(v1, v2, n)] *)
Fixpoint memcmp_loop (k : nat) (s1 s2 : Z) (m : mem) : Z :=
  match k with
  | O => 0
  | S k => if m s1 =? m s2 then memcmp_loop k (s1 + 1) (s2 + 1) m else m s1 - m s2
  end.

Definition memcmp (v1 v2 n : Z) (m : mem) : Z := memcmp_loop (Z.to_nat n) v1 v2 m.

(** [while(n-- > 0) *d++ = *s++;] *)
Fixpoint copy_up (k : nat) (d s : Z) (m : mem) : mem :=
  match k with
  | O => m
  | S k => copy_up k (d + 1) (s + 1) (store m d (m s))
  end.

(** [while(n-- > 0) *--d = *--s;] *)
Fixpoint copy_down (k : nat) (d s : Z) (m : mem) : mem :=
  match k with
  | O => m
  | S k => copy_down k (d - 1) (s - 1) (store m (d - 1) (m (s - 1)))
  end.

(** [memmove(dst, src, n)]: copies downwards when the source overlaps the
    destination from below. *)
Definition memmove (dst src n : Z) (m : mem) : mem :=
  if n =? 0 then m
  else if (src <? dst) && (src + n >? dst)
  then copy_down (Z.to_nat n) (dst + n) (src + n) m
  else copy_up (Z.to_nat n) dst src m.

Definition memcpy (dst src n : Z) (m : mem) : mem := memmove dst src n m.

(** [strncmp(p, q, n)] *)
Fixpoint strncmp_loop (k : nat) (p q : Z) (m : mem) : Z :=
  match k with
  | O => 0
  | S k =>
      if truth (m p) && (m p =? m q) then strncmp_loop k (p + 1) (q + 1) m
      else u8 (m p) - u8 (m q)
  end.

Definition strncmp (p q n : Z) (m : mem) : Z := strncmp_loop (Z.to_nat n) p q m.

(** [strncpy(s, t, n)]: the first loop copies up to and including the NUL, the
    second one fills what is left of the [n] bytes with NULs. *)
Fixpoint strncpy_pad (k : nat) (s : Z) (m : mem) : mem :=
  match k with
  | O => m
  | S k => strncpy_pad k (s + 1) (store m s 0)
  end.

Fixpoint strncpy_loop (k : nat) (s t : Z) (m : mem) : mem :=
  match k with
  | O => m
  | S k =>
      let c := m t in
      let m := store m s c in
      if truth c then strncpy_loop k (s + 1) (t + 1) m else strncpy_pad k (s + 1) m
  end.

Definition strncpy (s t n : Z) (m : mem) : mem := strncpy_loop (Z.to_nat n) s t m.

(** [safestrcpy(s, t, n)]: copies at most [n-1] bytes, stopping after a NUL, then
    stores a NUL where it stands *)
Fixpoint safestrcpy_loop (k : nat) (s t : Z) (m : mem) : mem :=
  match k with
  | O => store m s 0
  | S k =>
      let c := m t in
      let m := store m s c in
      if truth c then safestrcpy_loop k (s + 1) (t + 1) m else store m (s + 1) 0
  end.

Definition safestrcpy (s t n : Z) (m : mem) : mem :=
  if n <=? 0 then m else safestrcpy_loop (Z.to_nat (n - 1)) s t m.

(** [strlen(s)]: [for(n = 0; s[n]; n++);]; [None] when no NUL is found within
    the fuel. *)
Fixpoint strlen_loop (fuel : nat) (n s : Z) (m : mem) : option Z :=
  match fuel with
  | O => None
  | S fuel => if truth (m (s + n)) then strlen_loop fuel (n + 1) s m else Some n
  end.

Definition strlen (fuel : nat) (s : Z) (m : mem) : option Z := strlen_loop fuel 0 s m.

(** ** Effect of the routines at every address *)

Lemma memset_loop_spec k i dst c m x :
  memset_loop k i dst c m x =
    if decide (dst + i <= x < dst + i + Z.of_nat k) then u8 c else m x.
Proof.
  revert i m; induction k as [|k IH]; intros i m; cbn [memset_loop].
  - by rewrite decide_False by lia.
  - rewrite IH. unfold store.
    repeat case_decide; try lia; destruct (Z.eqb_spec x (dst + i)); try lia; auto.
Qed.

Lemma memset_at dst c n m x :
  memset dst c n m x = if decide (dst <= x < dst + n) then u8 c else m x.
Proof.
  unfold memset. rewrite memset_loop_spec.
  repeat case_decide; try lia; auto.
Qed.

Lemma copy_up_spec k d s m x :
  (d <= s ∨ s + Z.of_nat k <= d) →
  copy_up k d s m x =
    if decide (d <= x < d + Z.of_nat k) then m (s + (x - d)) else m x.
Proof.
  revert d s m; induction k as [|k IH]; intros d s m Hd; cbn [copy_up].
  - by rewrite decide_False by lia.
  - rewrite IH by lia. unfold store. repeat case_decide; try lia.
    + rewrite (proj2 (Z.eqb_neq _ _)) by lia. f_equal; lia.
    + destruct (Z.eqb_spec x d); [f_equal; lia | lia].
    + destruct (Z.eqb_spec x d); [lia | auto].
Qed.

Lemma copy_down_spec k d s m x :
  s <= d →
  copy_down k d s m x =
    if decide (d - Z.of_nat k <= x < d) then m (s - (d - x)) else m x.
Proof.
  revert d s m; induction k as [|k IH]; intros d s m Hd; cbn [copy_down].
  - by rewrite decide_False by lia.
  - rewrite IH by lia. unfold store. repeat case_decide; try lia.
    + rewrite (proj2 (Z.eqb_neq _ _)) by lia. f_equal; lia.
    + destruct (Z.eqb_spec x (d - 1)); [f_equal; lia | lia].
    + destruct (Z.eqb_spec x (d - 1)); [lia | auto].
Qed.

Lemma memmove_at dst src n m x :
  0 <= n →
  memmove dst src n m x =
    if decide (dst <= x < dst + n) then m (src + (x - dst)) else m x.
Proof.
  intros Hn. unfold memmove. destruct (Z.eqb_spec n 0).
  { by rewrite decide_False by lia. }
  destruct (Z.ltb_spec src dst), (Z.gtb_spec (src + n) dst); cbn [andb].
  - rewrite copy_down_spec by lia. rewrite Z2Nat.id by lia.
    repeat case_decide; try lia; auto. f_equal; lia.
  - rewrite copy_up_spec by lia. rewrite Z2Nat.id by lia. done.
  - rewrite copy_up_spec by lia. rewrite Z2Nat.id by lia. done.
  - rewrite copy_up_spec by lia. rewrite Z2Nat.id by lia. done.
Qed.

(** A NUL-terminated string [l] stored at [a]. *)
Definition cstr (m : mem) (a : Z) (l : list Z) : Prop :=
  (∀ i c, l !! i = Some c → m (a + Z.of_nat i) = c ∧ 0 < c < 256) ∧
  m (a + Z.of_nat (length l)) = 0.

Lemma cstr_nil m a : cstr m a [] ↔ m a = 0.
Proof.
  unfold cstr; simpl. rewrite Z.add_0_r. split; [tauto|]. intros; split; [|done].
  intros i c Hc. by rewrite lookup_nil in Hc.
Qed.

Lemma cstr_cons m a c l : cstr m a (c :: l) ↔ m a = c ∧ 0 < c < 256 ∧ cstr m (a + 1) l.
Proof.
  unfold cstr. split.
  - intros [H1 H2]. destruct (H1 0%nat c eq_refl) as [H3 H4]. rewrite Z.add_0_r in H3.
    repeat split; try tauto; try lia.
    + destruct (H1 (S i) c0 H) as [<- _]. f_equal; lia.
    + apply (H1 (S i) c0 H).
    + apply (H1 (S i) c0 H).
    + rewrite <- H2. f_equal. simpl length. lia.
  - intros (H1 & H2 & H3 & H4). split.
    + intros [|i] c' Hc; simpl in Hc.
      * injection Hc as <-. by rewrite Z.add_0_r.
      * destruct (H3 i c' Hc) as [<- ?]. split; [f_equal; lia|done].
    + rewrite <- H4. f_equal. simpl length. lia.
Qed.

(** The bytes compared by [strncmp] on the strings [l1] and [l2] (their NUL
    included): the first place where they differ, or where both end. *)
Fixpoint str_cmp_n (n : nat) (l1 l2 : list Z) : Z :=
  match n, l1, l2 with
  | O, _, _ => 0
  | S n, [], [] => 0
  | S n, [], c :: _ => - c
  | S n, c :: _, [] => c
  | S n, c1 :: l1, c2 :: l2 => if c1 =? c2 then str_cmp_n n l1 l2 else c1 - c2
  end.

Lemma u8_small c : 0 <= c < 256 → u8 c = c.
Proof. intros. by apply Z.mod_small. Qed.

(** The first [k] bytes at [a] agree with the string [l] (NUL included): a
    NUL-terminated string, or a field of [k] bytes that may be full. *)
Definition cpre (m : mem) (a : Z) (k : nat) (l : list Z) : Prop :=
  Forall (λ c, 0 < c < 256) l ∧
  ∀ i, (i < k)%nat → (i <= length l)%nat → m (a + Z.of_nat i) = default 0 (l !! i).

Lemma cstr_cpre m a k l : cstr m a l → cpre m a k l.
Proof.
  intros [H1 H2]. split.
  - apply Forall_lookup. intros i c Hc. by destruct (H1 i c Hc).
  - intros i _ Hi. destruct (l !! i) as [c|] eqn:E; simpl.
    + by destruct (H1 i c E).
    + apply lookup_ge_None in E. by replace i with (length l) by lia.
Qed.

Lemma cpre_head m a k l : cpre m a (S k) l → m a = default 0 (head l).
Proof.
  intros [_ H]. specialize (H 0%nat ltac:(lia) ltac:(lia)). rewrite Z.add_0_r in H.
  by destruct l.
Qed.

Lemma cpre_tail m a k c l : cpre m a (S k) (c :: l) → 0 < c < 256 ∧ cpre m (a + 1) k l.
Proof.
  intros [H1 H2]. inversion_clear H1 as [|?? Hc Hl]. split; [done|]. split; [done|].
  intros i Hi Hi'. specialize (H2 (S i) ltac:(lia) ltac:(simpl; lia)).
  simpl in H2. rewrite <- H2. f_equal; lia.
Qed.

Lemma strncmp_loop_spec k p q m l1 l2 :
  cpre m p k l1 → cpre m q k l2 → strncmp_loop k p q m = str_cmp_n k l1 l2.
Proof.
  revert p q l1 l2; induction k as [|k IH]; intros p q l1 l2 H1 H2; [done|].
  cbn [strncmp_loop]. rewrite (cpre_head _ _ _ _ H1), (cpre_head _ _ _ _ H2). unfold truth.
  destruct l1 as [|c1 l1], l2 as [|c2 l2]; cbn [head default from_option id str_cmp_n];
    try (apply cpre_tail in H1 as [? H1]); try (apply cpre_tail in H2 as [? H2]).
  - done.
  - cbn [Z.eqb negb andb]. rewrite !u8_small by lia. lia.
  - rewrite (proj2 (Z.eqb_neq c1 0)) by lia. cbn [negb andb]. rewrite !u8_small by lia. lia.
  - rewrite (proj2 (Z.eqb_neq c1 0)) by lia. cbn [negb andb].
    destruct (Z.eqb_spec c1 c2); [auto|]. by rewrite !u8_small by lia.
Qed.

Lemma str_cmp_n_zero n l1 l2 :
  Forall (λ c, 0 < c) l1 → Forall (λ c, 0 < c) l2 →
  str_cmp_n n l1 l2 = 0 ↔ take n l1 = take n l2.
Proof.
  revert l1 l2; induction n as [|n IH]; intros l1 l2 H1 H2; [done|].
  destruct H1 as [|c1 l1 Hc1 H1], H2 as [|c2 l2 Hc2 H2]; cbn [str_cmp_n take]; try (split; intros; (done || (exfalso; lia))).
  destruct (Z.eqb_spec c1 c2) as [->|].
  - rewrite IH by done. split; [by intros ->|by injection 1].
  - split; [lia|intros [=]; congruence].
Qed.

Lemma cstr_pos m a l : cstr m a l → Forall (λ c, 0 < c) l.
Proof. intros [H _]. apply Forall_lookup. intros i c Hc. destruct (H i c Hc). lia. Qed.

(** String copies: the destination must not overlap the source string. *)
Lemma strncpy_pad_spec k s m x :
  strncpy_pad k s m x = if decide (s <= x < s + Z.of_nat k) then 0 else m x.
Proof.
  revert s m; induction k as [|k IH]; intros s m; cbn [strncpy_pad].
  - by rewrite decide_False by lia.
  - rewrite IH. unfold store. repeat case_decide; try lia;
      destruct (Z.eqb_spec x s); (lia || auto).
Qed.

Lemma strncpy_loop_spec k s t m l x :
  cstr m t l → (s + Z.of_nat k <= t ∨ t + Z.of_nat (length l) < s) →
  strncpy_loop k s t m x =
    if decide (s <= x < s + Z.of_nat k) then default 0 (l !! Z.to_nat (x - s)) else m x.
Proof.
  revert s t m l; induction k as [|k IH]; intros s t m l Hl Hd; cbn [strncpy_loop].
  { by rewrite decide_False by lia. }
  destruct l as [|c l]; [rewrite cstr_nil in Hl | rewrite cstr_cons in Hl].
  - rewrite Hl; cbn [truth Z.eqb negb]. rewrite strncpy_pad_spec, ?lookup_nil. unfold store.
    repeat case_decide; try lia; destruct (Z.eqb_spec x s); (lia || auto).
  - destruct Hl as (Hc & Hr & Hl). rewrite Hc. unfold truth.
    rewrite (proj2 (Z.eqb_neq c 0)) by lia; cbn [negb].
    simpl length in Hd. rewrite (IH _ _ _ l); [| |lia].
    + unfold store. repeat case_decide; try lia.
      * replace (Z.to_nat (x - s)) with (S (Z.to_nat (x - (s + 1)))) by lia. done.
      * destruct (Z.eqb_spec x s); [|lia]. by replace (Z.to_nat (x - s)) with 0%nat by lia.
      * by rewrite (proj2 (Z.eqb_neq x s)) by lia.
    + destruct Hl as [H1 H2]. split.
      * intros i c' Hi. pose proof (lookup_lt_Some _ _ _ Hi).
        rewrite store_ne by lia. by apply H1.
      * by rewrite store_ne by lia.
Qed.

Lemma safestrcpy_loop_frame k s t m x :
  ¬ (s <= x <= s + Z.of_nat k) → safestrcpy_loop k s t m x = m x.
Proof.
  revert s t m; induction k as [|k IH]; intros s t m Hx; cbn [safestrcpy_loop].
  - by rewrite store_ne by lia.
  - destruct (truth (m t)); [rewrite IH by lia|]; by rewrite ?store_ne by lia.
Qed.

Lemma cstr_store_frame m t l a v :
  cstr m t l → (a < t ∨ t + Z.of_nat (length l) < a) → cstr (store m a v) t l.
Proof.
  intros [H1 H2] Ha. split.
  - intros i c Hi. pose proof (lookup_lt_Some _ _ _ Hi). rewrite store_ne by lia. auto.
  - by rewrite store_ne by lia.
Qed.

Lemma safestrcpy_loop_spec k s t m l :
  cstr m t l → (s + Z.of_nat k < t ∨ t + Z.of_nat (length l) < s) →
  cstr (safestrcpy_loop k s t m) s (take k l).
Proof.
  revert s t m l; induction k as [|k IH]; intros s t m l Hl Hd; cbn [safestrcpy_loop].
  { cbn [take]. rewrite cstr_nil. by rewrite store_eq. }
  destruct l as [|c l]; [rewrite cstr_nil in Hl | rewrite cstr_cons in Hl].
  - rewrite Hl; cbn [truth Z.eqb negb take]. rewrite cstr_nil, store_ne by lia.
    by rewrite store_eq.
  - destruct Hl as (Hc & Hr & Hl). rewrite Hc. unfold truth.
    rewrite (proj2 (Z.eqb_neq c 0)) by lia; cbn [negb take].
    simpl length in Hd. rewrite cstr_cons. split_and!; [| lia | lia |].
    + rewrite safestrcpy_loop_frame by lia. by rewrite store_eq.
    + apply IH; [|lia]. apply cstr_store_frame; [done|lia].
Qed.

Lemma strlen_loop_spec fuel n s m l :
  cstr m (s + n) l → (length l < fuel)%nat →
  strlen_loop fuel n s m = Some (n + Z.of_nat (length l)).
Proof.
  revert n l; induction fuel as [|fuel IH]; intros n l Hl Hf; [lia|]; cbn [strlen_loop].
  destruct l as [|c l]; [rewrite cstr_nil in Hl | rewrite cstr_cons in Hl].
  - rewrite Hl; cbn. f_equal; lia.
  - destruct Hl as (Hc & Hr & Hl). rewrite Hc. unfold truth.
    rewrite (proj2 (Z.eqb_neq c 0)) by lia; cbn [negb].
    rewrite (IH (n + 1) l); simpl length in *; [f_equal; lia | | lia].
    by replace (s + (n + 1)) with (s + n + 1) by lia.
Qed.

Lemma strlen_cstr fuel s m l :
  cstr m s l → (length l < fuel)%nat → strlen fuel s m = Some (Z.of_nat (length l)).
Proof. intros. unfold strlen. by rewrite (strlen_loop_spec _ _ _ _ l) by (rewrite ?Z.add_0_r; done). Qed.

(** The [n] bytes stored at [a]. *)
Definition bytes_at (m : mem) (a : Z) (n : nat) : list Z :=
  (λ i, m (a + Z.of_nat i)) <$> seq 0 n.

Lemma lookup_bytes_at m a n i :
  (i < n)%nat → bytes_at m a n !! i = Some (m (a + Z.of_nat i)).
Proof. intros. unfold bytes_at. by rewrite list_lookup_fmap, lookup_seq_lt by lia. Qed.

Lemma length_bytes_at m a n : length (bytes_at m a n) = n.
Proof. unfold bytes_at. by rewrite length_fmap, length_seq. Qed.

(** ** Properties *)

(** [memmove] copies exactly: for every source and destination,
    overlapping or not, the [n] destination bytes are afterwards the [n] source
    bytes as they were before the call, and no other byte of memory changes. *)
Theorem memmove_correct (dst src n : Z) (m : mem) (Hn : 0 <= n) :
  bytes_at (memmove dst src n m) dst (Z.to_nat n) = bytes_at m src (Z.to_nat n) ∧
  ∀ x, ¬ (dst <= x < dst + n) → memmove dst src n m x = m x.
Proof.
  split.
  - apply list_eq; intros i. destruct (decide (i < Z.to_nat n)%nat).
    + rewrite !lookup_bytes_at, memmove_at, decide_True by lia. do 2 f_equal; lia.
    + by rewrite !lookup_ge_None_2 by (rewrite length_bytes_at; lia).
  - intros x Hx. by rewrite memmove_at, decide_False by lia.
Qed.

Lemma memmove_correct_witness :
  bytes_at (memmove 3 1 4 (λ x, x)) 3 4 = [1; 2; 3; 4] ∧ memmove 3 1 4 (λ x, x) 7 = 7.
Proof.
  destruct (memmove_correct 3 1 4 (λ x, x) ltac:(lia)) as [H1 H2]. split.
  - etransitivity; [exact H1 | reflexivity].
  - apply H2. lia.
Defined.

(** A name stored with [strncpy(d, t, n)] compares equal under
    [strncmp(., q, n)] exactly with the strings whose first [n] bytes are those
    of [t]; the [n] bytes at [d] are the name padded with NULs, and nothing
    outside them changes.  This is how directory entries store ([dirlink]) and
    match ([namecmp]) names. *)
Theorem strncpy_strncmp_match (d t q : Z) (n : nat) (m : mem) (l k : list Z)
    (Ht : cstr m t l) (Hq : cstr m q k)
    (Hdt : d + Z.of_nat n <= t ∨ t + Z.of_nat (length l) < d)
    (Hdq : d + Z.of_nat n <= q ∨ q + Z.of_nat (length k) < d) :
  let m' := strncpy d t (Z.of_nat n) m in
  bytes_at m' d n = take n (l ++ replicate n 0) ∧
  (∀ x, ¬ (d <= x < d + Z.of_nat n) → m' x = m x) ∧
  (strncmp q d (Z.of_nat n) m' = 0 ↔ take n k = take n l).
Proof.
  intros m'.
  assert (∀ x, m' x = if decide (d <= x < d + Z.of_nat n)
                      then default 0 (l !! Z.to_nat (x - d)) else m x) as Hm'.
  { intros x. unfold m', strncpy. rewrite Nat2Z.id. by apply strncpy_loop_spec. }
  assert (∀ a s, cstr m a s → (d + Z.of_nat n <= a ∨ a + Z.of_nat (length s) < d) → cstr m' a s)
    as Hfr.
  { intros a s [H1 H2] Ha. split.
    - intros i c Hi. pose proof (lookup_lt_Some _ _ _ Hi).
      rewrite Hm', decide_False by lia. auto.
    - by rewrite Hm', decide_False by lia. }
  split_and!.
  - apply list_eq; intros i. destruct (decide (i < n)%nat).
    + rewrite lookup_bytes_at, lookup_take_lt, Hm', decide_True by lia.
      replace (Z.to_nat (d + Z.of_nat i - d)) with i by lia.
      destruct (l !! i) as [c|] eqn:E; simpl.
      * by rewrite (lookup_app_l_Some _ _ _ _ E).
      * rewrite lookup_app_r by (by apply lookup_ge_None_1).
        by rewrite lookup_replicate_2 by lia.
    + rewrite !lookup_ge_None_2; rewrite ?length_bytes_at, ?length_take; (done || lia).
  - intros x Hx. by rewrite Hm', decide_False by done.
  - unfold strncmp. rewrite Nat2Z.id.
    rewrite (strncmp_loop_spec _ _ _ _ k l).
    + apply str_cmp_n_zero; by eapply cstr_pos.
    + by apply cstr_cpre, Hfr.
    + split; [by apply (cstr_cpre m t 0 l)|]. intros i Hi _.
      rewrite Hm', decide_True by lia. do 2 f_equal; lia.
Qed.

Lemma strncpy_strncmp_match_witness :
  let m := store (store (store (λ _, 0) 100 97) 101 98) 200 97 in
  strncmp 200 0 14 (strncpy 0 100 14 m) ≠ 0 ∧
  bytes_at (strncpy 0 100 3 m) 0 3 = [97; 98; 0].
Proof.
  intros m.
  assert (cstr m 100 [97; 98]) as H1.
  { rewrite !cstr_cons, cstr_nil. repeat split; (reflexivity || lia). }
  assert (cstr m 200 [97]) as H2.
  { rewrite !cstr_cons, cstr_nil. repeat split; (reflexivity || lia). }
  pose proof (strncpy_strncmp_match 0 100 200 14 m [97; 98] [97] H1 H2
                ltac:(simpl; lia) ltac:(simpl; lia)) as (_ & _ & H).
  split; [|reflexivity].
  intros E. apply H in E. discriminate E.
Defined.

(** [safestrcpy(s, t, n)] with [n > 0] leaves at [s] the NUL-terminated
    prefix of at most [n-1] bytes of the string at [t], writes nothing outside
    the [n] bytes at [s], and [strlen] of the copy is that prefix's length. *)
Theorem safestrcpy_correct (s t n : Z) (m : mem) (l : list Z)
    (Hn : 0 < n) (Ht : cstr m t l)
    (Hd : s + n <= t ∨ t + Z.of_nat (length l) < s) :
  let m' := safestrcpy s t n m in
  cstr m' s (take (Z.to_nat (n - 1)) l) ∧
  (∀ x, ¬ (s <= x < s + n) → m' x = m x) ∧
  strlen (Z.to_nat n) s m' = Some (Z.min (n - 1) (Z.of_nat (length l))).
Proof.
  intros m'. unfold m', safestrcpy. rewrite (proj2 (Z.leb_gt n 0)) by lia.
  assert (cstr (safestrcpy_loop (Z.to_nat (n - 1)) s t m) s (take (Z.to_nat (n - 1)) l)) as Hc.
  { apply safestrcpy_loop_spec; [done|lia]. }
  split_and!; [done| |].
  - intros x Hx. apply safestrcpy_loop_frame. lia.
  - erewrite strlen_cstr by (done || (rewrite length_take; lia)).
    rewrite length_take. f_equal; lia.
Qed.

Lemma safestrcpy_correct_witness :
  let m := store (store (store (λ _, 0) 100 97) 101 98) 102 99 in
  cstr (safestrcpy 0 100 3 m) 0 [97; 98] ∧
  strlen 3 0 (safestrcpy 0 100 3 m) = Some 2.
Proof.
  intros m.
  assert (cstr m 100 [97; 98; 99]) as H1.
  { rewrite !cstr_cons, cstr_nil. repeat split; (reflexivity || lia). }
  destruct (safestrcpy_correct 0 100 3 m [97; 98; 99] ltac:(lia) H1 ltac:(lia)) as (H & _ & E).
  split; [exact H | exact E].
Defined.
