(* ===== verification/Ulib.v ===== *)
(** * ulib.c: the string and memory routines of user programs

    Over byte memory, as CString has it for the kernel's routines of the same names.  The
    loops of [memset], [memcmp] and [strlen] are the kernel's; [memmove] chooses its
    direction by comparing the pointers only, and [memcpy] is [memmove] with its unsigned
    length read as an [int].  [start], [gets] and [stat] are in User, [strchr] in Sh,
    [strcmp] and [atoi] on lists of bytes in Sort. *)

From S2P Require Import Prelude CString.

(** [*s++ = *t++] until the byte copied is the NUL; [None] when no NUL is found within the fuel. *)
Fixpoint strcpy_loop (fuel : nat) (s t : Z) (m : mem) : option mem :=
  match fuel with
  | O => None
  | S fuel =>
      let c := m t in
      let m := store m s c in
      if truth c then strcpy_loop fuel (s + 1) (t + 1) m else Some m
  end.

Definition strcpy (fuel : nat) (s t : Z) (m : mem) : option mem := strcpy_loop fuel s t m.

Definition strlen (fuel : nat) (s : Z) (m : mem) : option Z := strlen_loop fuel 0 s m.

Definition memset (dst c n : Z) (m : mem) : mem := memset_loop (Z.to_nat n) 0 dst c m.

(** [n] is an [int]: a negative one copies nothing. *)
Definition memmove (vdst vsrc n : Z) (m : mem) : mem :=
  if vsrc >? vdst then copy_up (Z.to_nat n) vdst vsrc m
  else copy_down (Z.to_nat n) (vdst + n) (vsrc + n) m.

Definition memcmp (s1 s2 n : Z) (m : mem) : Z := memcmp_loop (Z.to_nat n) s1 s2 m.

Definition memcpy (dst src n : Z) (m : mem) : mem := memmove dst src (s32 n) m.

(** ** What they do *)

(** Whichever of the two regions is first and however they overlap, [memmove] copies. *)
Theorem umemmove_correct dst src n m x :
  memmove dst src n m x = if decide (dst <= x < dst + n) then m (src + (x - dst)) else m x.
Proof.
  unfold memmove. destruct (decide (n <= 0)).
  { replace (Z.to_nat n) with 0%nat by lia. rewrite decide_False by lia. by destruct (_ >? _). }
  destruct (Z.gtb_spec src dst).
  - rewrite copy_up_spec by lia. by rewrite Z2Nat.id by lia.
  - rewrite copy_down_spec by lia. rewrite Z2Nat.id by lia. replace (dst + n - n) with dst by lia.
    case_decide; [f_equal; lia|done].
Qed.

(** For a length that is an [int], the kernel's routine does the same: the direction it
    takes does not matter. *)
Corollary umemmove_kernel dst src n m x : 0 <= n → memmove dst src n m x = CString.memmove dst src n m x.
Proof. intros. by rewrite umemmove_correct, memmove_at. Qed.

Corollary memcpy_at dst src n m x : 0 <= n < 2 ^ 31 →
  memcpy dst src n m x = if decide (dst <= x < dst + n) then m (src + (x - dst)) else m x.
Proof. intros Hn. unfold memcpy. rewrite umemmove_correct. unfold s32. by rewrite signed_small by lia. Qed.

(** ... and one of 2^31 bytes or more copies nothing. *)
Lemma memcpy_negative dst src n m x : 2 ^ 31 <= n < 2 ^ 32 → memcpy dst src n m x = m x.
Proof.
  intros Hn. unfold memcpy. rewrite umemmove_correct, decide_False; [done|].
  assert (s32 n = n - 2 ^ 32) as -> by (unfold s32, signed; rewrite (Z.mod_small n) by lia; destruct (Z.ltb_spec n (2 ^ (32 - 1))); lia). lia.
Qed.

Lemma umemset_at dst c n m x : memset dst c n m x = if decide (dst <= x < dst + n) then u8 c else m x.
Proof. exact (memset_at dst c n m x). Qed.

Lemma strcpy_loop_frame fuel : ∀ s t m m' x, strcpy_loop fuel s t m = Some m' → x < s → m' x = m x.
Proof.
  induction fuel as [|fuel IH]; intros s t m m' x; [done|]. cbn [strcpy_loop]. destruct (truth (m t)).
  - intros E Hx. rewrite (IH _ _ _ _ _ E) by lia. by apply store_ne; lia.
  - intros [= <-] Hx. by apply store_ne; lia.
Qed.

Lemma strcpy_loop_spec l : ∀ fuel s t m, cstr m t l → (length l < fuel)%nat → (s + Z.of_nat (length l) < t ∨ t + Z.of_nat (length l) < s) →
  ∃ m', strcpy_loop fuel s t m = Some m' ∧ cstr m' s l ∧ ∀ x, ¬ (s <= x <= s + Z.of_nat (length l)) → m' x = m x.
Proof.
  induction l as [|c l IH]; intros [|fuel] s t m Hl Hf Hd; try (cbn [length] in Hf; lia); cbn [strcpy_loop length] in *.
  - rewrite cstr_nil in Hl. rewrite Hl. eexists. split; [reflexivity|]. split; [by rewrite cstr_nil, store_eq|].
    intros x Hx. by apply store_ne; lia.
  - apply cstr_cons in Hl as (Hc & Hr & Hl). rewrite Hc. unfold truth. rewrite (proj2 (Z.eqb_neq c 0)) by lia. cbn [negb].
    destruct (IH fuel (s + 1) (t + 1) (store m s c)) as (m' & E & Hm & Hfr); [by apply cstr_store_frame; [done|lia]|lia|lia|].
    exists m'. split; [done|]. split.
    + apply cstr_cons. split; [|done]. rewrite (strcpy_loop_frame _ _ _ _ _ _ E) by lia. apply store_eq.
    + intros x Hx. rewrite Hfr by lia. apply store_ne. lia.
Qed.

(** [strcpy] copies a string, with its NUL and nothing else, between regions that do not
    overlap. *)
Theorem strcpy_correct fuel s t m l : cstr m t l → (length l < fuel)%nat →
  (s + Z.of_nat (length l) < t ∨ t + Z.of_nat (length l) < s) →
  ∃ m', strcpy fuel s t m = Some m' ∧ cstr m' s l ∧ ∀ x, ¬ (s <= x <= s + Z.of_nat (length l)) → m' x = m x.
Proof. apply strcpy_loop_spec. Qed.

Lemma ustrlen_correct fuel s m l : cstr m s l → (length l < fuel)%nat → strlen fuel s m = Some (Z.of_nat (length l)).
Proof. apply strlen_cstr. Qed.

(** [memcmp] is 0 exactly when the regions hold the same bytes. *)
Lemma memcmp_loop_zero k : ∀ a b m, memcmp_loop k a b m = 0 ↔ ∀ i, (i < k)%nat → m (a + Z.of_nat i) = m (b + Z.of_nat i).
Proof.
  induction k as [|k IH]; intros a b m; cbn [memcmp_loop]; [split; [lia|done]|].
  destruct (Z.eqb_spec (m a) (m b)) as [E|Hne].
  - rewrite IH. split.
    + intros H [|i] Hi; [by rewrite !Z.add_0_r|]. specialize (H i ltac:(lia)). by replace (a + Z.of_nat (S i)) with (a + 1 + Z.of_nat i) by lia; replace (b + Z.of_nat (S i)) with (b + 1 + Z.of_nat i) by lia.
    + intros H i Hi. specialize (H (S i) ltac:(lia)). by replace (a + 1 + Z.of_nat i) with (a + Z.of_nat (S i)) by lia; replace (b + 1 + Z.of_nat i) with (b + Z.of_nat (S i)) by lia.
  - split; [lia|]. intros H. specialize (H 0%nat ltac:(lia)). rewrite !Z.add_0_r in H. lia.
Qed.

Lemma umemcmp_zero s1 s2 n m : memcmp s1 s2 n m = 0 ↔ ∀ i, 0 <= i < n → m (s1 + i) = m (s2 + i).
Proof.
  unfold memcmp. rewrite memcmp_loop_zero. split.
  - intros H i Hi. specialize (H (Z.to_nat i) ltac:(lia)). by rewrite Z2Nat.id in H by lia.
  - intros H i Hi. apply H. lia.
Qed.
