(* ===== verification/Kalloc.v ===== *)
(** * kalloc.c: the physical page allocator

    The state is physical memory and the head of the free list; the link of a
    free page is the 64-bit word at its start, as in [struct run].  [end_] is
    the linker symbol [end].  The invariant [kmem_wf] says that the chain in
    memory is a list of distinct aligned pages of the allocator's range. *)

From S2P Require Import Prelude CString Riscv.

(** 64-bit words in memory *)
Definition load64 (m : mem) (a : Z) : Z := le_val (bytes_at m a 8).
Definition store64 (m : mem) (a v : Z) : mem := fun x =>
  if decide (a <= x < a + 8) then default 0 (le_bytes 8 v !! Z.to_nat (x - a)) else m x.

Lemma store64_ne m a v x : ¬ (a <= x < a + 8) → store64 m a v x = m x.
Proof. intros. unfold store64. by rewrite decide_False. Qed.

Lemma load64_ext m m' a : (∀ x, a <= x < a + 8 → m x = m' x) → load64 m a = load64 m' a.
Proof.
  intros H. unfold load64. f_equal. unfold bytes_at. apply list_fmap_ext.
  intros i x Hx. apply lookup_seq in Hx as [-> Hi]. apply H. lia.
Qed.

Lemma load64_store64 m a v : load64 (store64 m a v) a = u64 v.
Proof.
  unfold load64. replace (bytes_at (store64 m a v) a 8) with (le_bytes 8 v).
  - rewrite le_val_bytes. done.
  - symmetry. apply list_eq; intros i. destruct (decide (i < 8)%nat).
    + rewrite lookup_bytes_at by lia. unfold store64. rewrite decide_True by lia.
      replace (Z.to_nat (a + Z.of_nat i - a)) with i by lia.
      destruct (le_bytes 8 v !! i) eqn:E; [done|].
      apply lookup_ge_None in E. rewrite length_le_bytes in E. lia.
    + rewrite !lookup_ge_None_2 by (rewrite ?length_bytes_at, ?length_le_bytes; lia). done.
Qed.

Record kmem := Kmem { kmem_mem : mem; kmem_freelist : Z }.

Section Kalloc.
Context (end_ : Z).

Definition kfree (pa : Z) : M kmem unit :=
  panic_if (negb (pa mod PGSIZE =? 0) || (pa <? end_) || (pa >=? PHYSTOP)) "kfree" ;;;
  modify (λ k, Kmem (memset pa 1 PGSIZE (kmem_mem k)) (kmem_freelist k)) ;;;
  acquire L_kmem ;;;
  modify (λ k, Kmem (store64 (kmem_mem k) pa (kmem_freelist k)) pa) ;;;
  release L_kmem.

Definition kalloc : M kmem Z :=
  acquire L_kmem ;;;
  let! r := gets kmem_freelist in
  (if truth r
   then modify (λ k, Kmem (kmem_mem k) (load64 (kmem_mem k) r))
   else ret tt) ;;;
  release L_kmem ;;;
  (if truth r
   then modify (λ k, Kmem (memset r 5 PGSIZE (kmem_mem k)) (kmem_freelist k))
   else ret tt) ;;;
  ret r.

(** [for(; p + PGSIZE <= pa_end; p += PGSIZE) kfree(p);] *)
Fixpoint freerange_loop (fuel : nat) (p pa_end : Z) : M kmem unit :=
  match fuel with
  | O => ret tt
  | S fuel =>
      if p + PGSIZE <=? pa_end
      then kfree p ;;; freerange_loop fuel (p + PGSIZE) pa_end
      else ret tt
  end.

(** The fuel is the number of pages in the range, so it does not run out. *)
Definition freerange (pa_start pa_end : Z) : M kmem unit :=
  let p := PGROUNDUP pa_start in
  freerange_loop (Z.to_nat ((pa_end - p) / PGSIZE)) p pa_end.

Definition kinit : M kmem unit := freerange end_ PHYSTOP.

(** ** Invariant *)

(** The chain of free pages starting at [p]. *)
Fixpoint chain (m : mem) (p : Z) (l : list Z) : Prop :=
  match l with
  | [] => p = 0
  | q :: l => p = q ∧ chain m (load64 m q) l
  end.

Definition page_ok (p : Z) : Prop := p mod PGSIZE = 0 ∧ end_ <= p < PHYSTOP.

Definition kmem_wf (k : kmem) (l : list Z) : Prop :=
  chain (kmem_mem k) (kmem_freelist k) l ∧ NoDup l ∧ Forall page_ok l.

Hypothesis end_pos : 0 < end_.

Lemma page_disjoint p q x :
  page_ok p → page_ok q → p ≠ q → p <= x < p + PGSIZE → ¬ (q <= x < q + PGSIZE).
Proof.
  intros [Hp _] [Hq _] Hne Hx Hx'. unfold PGSIZE in *.
  apply Z.mod_divide in Hp as [a ->], Hq as [b ->]; lia.
Qed.

Lemma chain_ext m m' p l :
  (∀ q x, q ∈ l → q <= x < q + 8 → m x = m' x) → chain m p l → chain m' p l.
Proof.
  revert p; induction l as [|q l IH]; intros p Hext; simpl; [done|].
  intros [-> Hc]. split; [done|]. rewrite <- (load64_ext m m').
  - apply IH; [|done]. intros q' x Hq' Hx. apply (Hext q'); [by right|done].
  - intros x Hx. apply (Hext q); [by left|done].
Qed.

(** Writing inside a page that is not free leaves the free list alone. *)
Lemma kmem_wf_frame k m' l pa :
  kmem_wf k l → page_ok pa → pa ∉ l →
  (∀ x, ¬ (pa <= x < pa + PGSIZE) → m' x = kmem_mem k x) →
  kmem_wf (Kmem m' (kmem_freelist k)) l.
Proof.
  intros (Hc & Hn & Hf) Hpa Hni Hm. split_and!; [|done|done]. simpl.
  eapply chain_ext; [|done]. intros q x Hq Hx. rewrite Hm; [done|].
  pose proof (Forall_elem _ _ _ Hf Hq) as Hqo.
  eapply page_disjoint; [exact Hqo | exact Hpa | congruence | unfold PGSIZE; lia].
Qed.

Lemma chain_store_ne m p l a v :
  (∀ q x, q ∈ l → q <= x < q + 8 → ¬ (a <= x < a + 8)) →
  chain m p l → chain (store64 m a v) p l.
Proof. intros H. apply chain_ext. intros q x Hq Hx. by rewrite store64_ne by eauto. Qed.

Lemma kfree_guard pa :
  page_ok pa → negb (pa mod PGSIZE =? 0) || (pa <? end_) || (pa >=? PHYSTOP) = false.
Proof.
  intros [-> ?]. simpl. rewrite (proj2 (Z.ltb_ge _ _)) by lia. simpl.
  destruct (Z.geb_spec pa PHYSTOP); [lia|done].
Qed.

Definition kfree_post (pa : Z) (k : kmem) : kmem :=
  Kmem (store64 (memset pa 1 PGSIZE (kmem_mem k)) pa (kmem_freelist k)) pa.

Lemma kfree_run pa h k :
  page_ok pa → L_kmem ∉ h → kfree pa (Thread h k) = Ok tt (Thread h (kfree_post pa k)).
Proof.
  intros Hpa Hh. unfold kfree. rewrite kfree_guard by done. kunfold. do 4 kstep. apply release_Ok.
Qed.

Lemma kfree_wf pa k l :
  kmem_wf k l → page_ok pa → pa ∉ l →
  kmem_wf (kfree_post pa k) (pa :: l) ∧
  ∀ x, ¬ (pa <= x < pa + PGSIZE) → kmem_mem (kfree_post pa k) x = kmem_mem k x.
Proof.
  intros Hwf Hpa Hni. pose proof Hwf as (Hc & Hn & Hf). split.
  - split_and!; simpl; [|by constructor|by constructor].
    split; [done|]. rewrite load64_store64.
    assert (u64 (kmem_freelist k) = kmem_freelist k) as ->.
    { apply u64_small. destruct l as [|q l]; simpl in Hc; [lia|].
      destruct Hc as [-> _]. inversion_clear Hf as [|?? [_ Hq] _]. unfold PHYSTOP, KERNBASE in *. lia. }
    destruct (kmem_wf_frame k (memset pa 1 PGSIZE (kmem_mem k)) l pa) as (Hc' & _); auto.
    { intros x Hx. by rewrite memset_at, decide_False. }
    apply chain_store_ne; [|done]. intros q x Hq Hx.
    pose proof (page_disjoint q pa x (Forall_elem _ _ _ Hf Hq) Hpa ltac:(congruence)).
    unfold PGSIZE in *. lia.
  - intros x Hx. simpl. unfold PGSIZE in *. rewrite store64_ne by lia.
    by rewrite memset_at, decide_False.
Qed.

Definition kalloc_post (k : kmem) : kmem :=
  let r := kmem_freelist k in
  if truth r then Kmem (memset r 5 PGSIZE (kmem_mem k)) (load64 (kmem_mem k) r) else k.

Lemma kalloc_run h k :
  L_kmem ∉ h → kalloc (Thread h k) = Ok (kmem_freelist k) (Thread h (kalloc_post k)).
Proof.
  intros Hh. unfold kalloc, kalloc_post. kunfold. do 2 kstep. simpl.
  destruct (truth (kmem_freelist k)); do 3 kstep; done.
Qed.

Lemma kalloc_wf_nil k : kmem_wf k [] → kmem_freelist k = 0 ∧ kalloc_post k = k.
Proof. intros (Hc & _). simpl in Hc. unfold kalloc_post. by rewrite Hc. Qed.

Lemma kalloc_wf_cons k p l :
  kmem_wf k (p :: l) →
  kmem_freelist k = p ∧ page_ok p ∧ (p ∉ l) ∧ kmem_wf (kalloc_post k) l ∧
  ∀ x, kmem_mem (kalloc_post k) x =
         if decide (p <= x < p + PGSIZE) then 5 else kmem_mem k x.
Proof.
  intros (Hc & Hn & Hf). simpl in Hc. destruct Hc as [Hp Hc].
  apply NoDup_cons in Hn as [Hni Hn]. apply Forall_cons in Hf as [Hpo Hf].
  assert (truth p = true) as Ht.
  { unfold truth. rewrite (proj2 (Z.eqb_neq p 0)); [done|]. destruct Hpo. lia. }
  unfold kalloc_post. rewrite Hp, Ht. split_and!; [done..| |].
  - apply (kmem_wf_frame (Kmem (kmem_mem k) (load64 (kmem_mem k) p)) _ l p); auto.
    + by split_and!.
    + intros x Hx. simpl. by rewrite memset_at, decide_False.
  - intros x. simpl. by rewrite memset_at.
Qed.

(** ** Boot: [freerange] and [kinit] *)

Definition pages (p : Z) (n : nat) : list Z := (λ i, p + PGSIZE * Z.of_nat i) <$> seq 0 n.

Lemma pages_S p n : pages p (S n) = p :: pages (p + PGSIZE) n.
Proof.
  unfold pages. simpl. f_equal; [lia|]. rewrite <- fmap_S_seq, <- list_fmap_compose.
  apply list_fmap_ext. intros i x _. unfold compose. lia.
Qed.

Lemma elem_of_pages p n q :
  q ∈ pages p n ↔ ∃ i, (i < n)%nat ∧ q = p + PGSIZE * Z.of_nat i.
Proof.
  unfold pages. rewrite list_elem_of_fmap. split.
  - intros (i & -> & Hi). apply elem_of_seq in Hi. exists i. split; [lia|done].
  - intros (i & Hi & ->). exists i. split; [done|]. apply elem_of_seq. lia.
Qed.

Lemma freerange_loop_run fuel p pe h k l :
  L_kmem ∉ h → kmem_wf k l →
  p mod PGSIZE = 0 → end_ <= p → pe <= PHYSTOP →
  fuel = Z.to_nat ((pe - p) / PGSIZE) →
  (∀ q, q ∈ l → q < p) →
  ∃ k', freerange_loop fuel p pe (Thread h k) = Ok tt (Thread h k') ∧
        kmem_wf k' (rev (pages p fuel) ++ l).
Proof.
  revert p k l; induction fuel as [|fuel IH]; intros p k l Hh Hwf Hal Hge Hpe Hfuel Hlt.
  { exists k. done. }
  assert (p + PGSIZE <= pe) as Hroom.
  { assert (0 < (pe - p) / PGSIZE) as Hpos by lia. unfold PGSIZE in *.
    pose proof (Z.mul_div_le (pe - p) 4096 ltac:(lia)). lia. }
  assert (page_ok p) as Hpo by (split; [done|unfold PGSIZE in *; lia]).
  assert (p ∉ l) as Hni by (intros Hin; specialize (Hlt p Hin); lia).
  destruct (kfree_wf p k l Hwf Hpo Hni) as [Hwf' _].
  cbn [freerange_loop]. rewrite (proj2 (Z.leb_le _ _)) by done.
  rewrite (bind_Ok _ _ _ _ _ (kfree_run p h k Hpo Hh)).
  destruct (IH (p + PGSIZE) (kfree_post p k) (p :: l)) as (k' & Hrun & Hwf''); auto.
  - unfold PGSIZE in *. rewrite <- (Z.mul_1_l 4096), Z.mod_add by lia. done.
  - unfold PGSIZE in *. lia.
  - unfold PGSIZE in *. replace (pe - (p + 4096)) with (pe - p + (-1) * 4096) by lia.
    rewrite Z.div_add by lia. lia.
  - intros q Hq. unfold PGSIZE in *. apply elem_of_cons in Hq as [->|Hq]; [lia|].
    specialize (Hlt q Hq). lia.
  - exists k'. split; [done|]. rewrite pages_S. simpl. by rewrite <- app_assoc.
Qed.

(** ** Refinement: the allocator as a pool of pages

    [pool] is the specification: the free pages (a stack) and the pages in use. *)
Record pool := Pool { free : list Z; used : list Z }.

Inductive kop := KAlloc | KFree (pa : Z).

Definition run_kop (o : kop) : M kmem Z :=
  match o with
  | KAlloc => kalloc
  | KFree pa => kfree pa ;;; ret 0
  end.

Fixpoint run_kops (os : list kop) : M kmem (list Z) :=
  match os with
  | [] => ret []
  | o :: os => let! r := run_kop o in let! rs := run_kops os in ret (r :: rs)
  end.

(** A client may free a page only while it uses it. *)
Definition pool_step (o : kop) (P : pool) : option (Z * pool) :=
  match o with
  | KAlloc =>
      match free P with
      | [] => Some (0, P)
      | p :: f => Some (p, Pool f (p :: used P))
      end
  | KFree pa =>
      if decide (pa ∈ used P)
      then Some (0, Pool (pa :: free P) (list_difference (used P) [pa]))
      else None
  end.

Fixpoint pool_run (os : list kop) (P : pool) : option (list Z * pool) :=
  match os with
  | [] => Some ([], P)
  | o :: os =>
      match pool_step o P with
      | None => None
      | Some (r, P1) =>
          match pool_run os P1 with
          | None => None
          | Some (rs, P2) => Some (r :: rs, P2)
          end
      end
  end.

Definition pool_rep (k : kmem) (P : pool) : Prop :=
  kmem_wf k (free P) ∧ Forall page_ok (used P) ∧ NoDup (free P ++ used P).

Lemma run_kop_refines o h k P r P' :
  L_kmem ∉ h → pool_rep k P → pool_step o P = Some (r, P') →
  ∃ k', run_kop o (Thread h k) = Ok r (Thread h k') ∧ pool_rep k' P'.
Proof.
  intros Hh (Hwf & Hu & Hn) Hs. destruct P as [f u]; simpl in *.
  apply NoDup_app in Hn as (Hnf & Hd & Hnu). destruct o as [|pa]; simpl in Hs.
  - destruct f as [|p f]; simplify_eq; exists (kalloc_post k);
      unfold run_kop; rewrite kalloc_run by done.
    + destruct (kalloc_wf_nil k Hwf) as [-> ->]. done.
    + destruct (kalloc_wf_cons k _ f Hwf) as (-> & Hpo & Hpf & Hwf' & _).
      split; [done|]. split_and!; simpl; [done|by constructor|].
      apply NoDup_cons in Hnf as [_ Hnf]. apply NoDup_app. split_and!; [done| |].
      * intros x Hx Hx'. apply elem_of_cons in Hx' as [->|Hx']; [done|].
        apply (Hd x); [by right|done].
      * constructor; [|done]. apply Hd. by left.
  - case_decide as Hin; simplify_eq. exists (kfree_post pa k).
    pose proof (Forall_elem _ _ _ Hu Hin) as Hpo.
    assert (pa ∉ f) as Hni by (intros Hf; by apply (Hd pa)).
    destruct (kfree_wf pa k f Hwf Hpo Hni) as [Hwf' _].
    unfold run_kop. rewrite (bind_Ok _ _ _ _ _ (kfree_run pa h k Hpo Hh)).
    split; [done|]. split_and!; simpl; [done| |].
    + rewrite Forall_forall in Hu |- *. intros x Hx. apply Hu.
      by apply list_elem_of_difference in Hx as [? _].
    + apply NoDup_cons. split.
      * rewrite elem_of_app, list_elem_of_difference. intros [?|[_ Hx]]; [done|]. apply Hx. by left.
      * apply NoDup_app. split_and!; [done| |by apply NoDup_list_difference].
        intros x Hx Hx'. apply list_elem_of_difference in Hx' as [? _]. by apply (Hd x).
Qed.

End Kalloc.

(** ** Properties *)

(** C28: the allocator refines a pool of pages: for every sequence of [kalloc]
    and [kfree] calls whose [kfree]s are of pages in use, the calls return (no
    panic, no lock left held) with exactly the pool's results - in particular
    [kalloc] returns 0 only when no page is free, and otherwise an aligned page
    of the range that nobody uses - and the free list stays well formed and
    disjoint from the pages in use. *)
Theorem kalloc_refines_pool (end_ : Z) (os : list kop) (h : list lockname) (k : kmem)
    (P P' : pool) (rs : list Z)
    (Hend : 0 < end_) (Hh : L_kmem ∉ h) (Hrep : pool_rep end_ k P)
    (Hrun : pool_run os P = Some (rs, P')) :
  ∃ k', run_kops end_ os (Thread h k) = Ok rs (Thread h k') ∧ pool_rep end_ k' P'.
Proof.
  revert k P rs Hrep Hrun; induction os as [|o os IH]; intros k P rs Hrep Hrun; simpl in *.
  { simplify_eq. by exists k. }
  destruct (pool_step o P) as [[r P1]|] eqn:E1; [|done].
  destruct (pool_run os P1) as [[rs1 P2]|] eqn:E2; simplify_eq.
  destruct (run_kop_refines end_ Hend o h k P r P1 Hh Hrep E1) as (k1 & R1 & Hrep1).
  destruct (IH k1 P1 rs1 Hrep1 E2) as (k2 & R2 & Hrep2).
  exists k2. split; [|done]. by rewrite (bind_Ok _ _ _ _ _ R1), (bind_Ok _ _ _ _ _ R2).
Qed.

(** A state with one free page, as [kfree] leaves it. *)
Definition one_page : kmem := Kmem (store64 (λ _, 1) 0x80003000 0) 0x80003000.

Lemma one_page_wf : kmem_wf 0x80002000 one_page [0x80003000].
Proof.
  split_and!.
  - cbn [chain]. split; [reflexivity|]. vm_compute. reflexivity.
  - apply NoDup_singleton.
  - constructor; [|constructor]. split; [reflexivity|]. unfold PHYSTOP, KERNBASE. lia.
Qed.

Lemma kalloc_refines_pool_witness :
  ∃ k', run_kops 0x80002000 [KAlloc; KAlloc; KFree 0x80003000; KAlloc] (Thread [] one_page)
        = Ok [0x80003000; 0; 0; 0x80003000] (Thread [] k')
        ∧ pool_rep 0x80002000 k' (Pool [] [0x80003000]).
Proof.
  apply (kalloc_refines_pool 0x80002000 _ [] one_page (Pool [0x80003000] [])).
  - lia.
  - apply not_elem_of_nil.
  - split_and!; [apply one_page_wf | constructor | apply NoDup_singleton].
  - vm_compute. reflexivity.
Defined.

(** At boot [kinit] puts every whole page between the end of the kernel and
    [PHYSTOP] on the free list, each once, and returns. *)
Theorem kinit_frees_all (end_ : Z) (h : list lockname) (m : mem)
    (Hend : 0 < end_ <= PHYSTOP) (Hh : L_kmem ∉ h) :
  ∃ k' l, kinit end_ (Thread h (Kmem m 0)) = Ok tt (Thread h k') ∧ kmem_wf end_ k' l ∧
    ∀ p, p ∈ l ↔ page_ok end_ p.
Proof.
  unfold kinit, freerange.
  destruct (PGROUNDUP_spec end_) as [Ha [Hlo Hhi]].
  { unfold PGSIZE, PHYSTOP, KERNBASE in *. lia. }
  set (p0 := PGROUNDUP end_) in *. set (n := Z.to_nat ((PHYSTOP - p0) / PGSIZE)).
  destruct (freerange_loop_run end_ ltac:(lia) n p0 PHYSTOP h (Kmem m 0) [])
    as (k' & Hrun & Hwf); auto; try done.
  { split_and!; [done|constructor|constructor]. }
  { intros q Hq. by apply not_elem_of_nil in Hq. }
  exists k', (rev (pages p0 n) ++ []). split_and!; [done..|].
  intros p. rewrite app_nil_r.
  split.
  - intros Hp. destruct Hwf as (_ & _ & Hf). rewrite app_nil_r in Hf. by eapply Forall_elem.
  - intros [Hal Hr]. rewrite list_elem_of_In, <- in_rev, <- list_elem_of_In.
    apply elem_of_pages. unfold PGSIZE in *.
    apply Z.mod_divide in Hal as [a Hpa]; [|lia]. apply Z.mod_divide in Ha as [b Hb]; [|lia].
    subst n. rewrite Hb in *.
    assert ((PHYSTOP - b * 4096) / 4096 = PHYSTOP / 4096 - b) as Hdiv.
    { replace (PHYSTOP - b * 4096) with (PHYSTOP + (- b) * 4096) by lia.
      rewrite Z.div_add by lia. lia. }
    rewrite Hdiv. change (PHYSTOP / 4096) with 557056. unfold PHYSTOP, KERNBASE in *.
    exists (Z.to_nat (a - b)). split; lia.
Qed.

Lemma kinit_frees_all_witness :
  ∃ k' l, kinit 0x87ffd123 (Thread [] (Kmem (λ _, 0) 0)) = Ok tt (Thread [] k') ∧
    kmem_wf 0x87ffd123 k' l ∧ ∀ p, p ∈ l ↔ page_ok 0x87ffd123 p.
Proof.
  apply (kinit_frees_all 0x87ffd123 [] (λ _, 0)).
  - unfold PHYSTOP, KERNBASE. lia.
  - apply not_elem_of_nil.
Defined.
