(* ===== verification/Param.v ===== *)
(** * param.h, fs.h: sizes of the kernel's tables and of the on-disk format *)

From S2P Require Import Prelude.

Definition NPROC : Z := 64.
Definition NCPU : Z := 8.
Definition NOFILE : Z := 16.
Definition NFILE : Z := 100.
Definition NINODE : Z := 50.
Definition NDEV : Z := 10.
Definition ROOTDEV : Z := 1.
Definition MAXARG : Z := 32.
Definition MAXOPBLOCKS : Z := 10.
Definition LOGSIZE : Z := MAXOPBLOCKS * 3.
Definition NBUF : Z := MAXOPBLOCKS * 3.
Definition FSSIZE : Z := 2000.
Definition MAXPATH : Z := 128.
Definition USERSTACK : Z := 1.

Definition ROOTINO : Z := 1.
Definition BSIZE : Z := 1024.
Definition FSMAGIC : Z := 0x10203040.
Definition NDIRECT : Z := 10.
Definition NINDIRECT : Z := BSIZE / 4.
Definition MAXFILE : Z := NDIRECT + NINDIRECT.
Definition BPB : Z := BSIZE * 8.
Definition DIRSIZ : Z := 14.

(** A disk block: [BSIZE] bytes. *)
Definition block : Type := list Z.

Definition block_ok (d : block) : Prop := length d = Z.to_nat BSIZE ∧ Forall is_byte d.

Definition zero_block : block := replicate (Z.to_nat BSIZE) 0.

Lemma zero_block_ok : block_ok zero_block.
Proof.
  split; [unfold zero_block; by rewrite length_replicate|]. apply Forall_replicate. unfold is_byte. lia.
Qed.

(** 32-bit words of a block: [((uint * )bp->data)[i]]. *)
Definition get32 (d : block) (i : nat) : Z := le_val (slice (4 * i) 4 d).
Definition set32 (d : block) (i : nat) (v : Z) : block := splice (4 * i) (le_bytes 4 v) d.

Lemma get32_set32 d i v : (4 * i + 4 <= length d)%nat → get32 (set32 d i v) i = u32 v.
Proof.
  intros H. unfold get32, set32.
  pose proof (slice_splice_same (4 * i) (le_bytes 4 v) d) as E.
  rewrite length_le_bytes in E. rewrite E by lia. by rewrite le_val_bytes.
Qed.

Lemma get32_set32_ne d i j v :
  (4 * i + 4 <= length d)%nat → i ≠ j → get32 (set32 d i v) j = get32 d j.
Proof.
  intros H Hij. unfold get32, set32. f_equal.
  apply slice_splice_disjoint; rewrite length_le_bytes; lia.
Qed.

Lemma set32_ok d i v : (4 * i + 4 <= Z.to_nat BSIZE)%nat → block_ok d → block_ok (set32 d i v).
Proof.
  intros H [Hl Hb]. split.
  - unfold set32. rewrite length_splice; [done|]. rewrite length_le_bytes. lia.
  - apply splice_Forall; [apply le_bytes_is_byte|done].
Qed.

Lemma const_block_ok v : is_byte v → block_ok (replicate 1024 v).
Proof. intros Hv. split; [by rewrite length_replicate|]. by apply Forall_replicate. Qed.
