(* ===== verification/Vm.v ===== *)
(** * vm.c: page tables and user memory

    Everything works on physical memory and the page allocator ([kmem]): a
    page-table page is 512 words of physical memory, a PTE pointer is an address,
    and a null pointer is 0.  [end_], [etext] and [trampoline] are the linker's
    symbols. *)

From S2P Require Import Prelude CString Riscv Kalloc.

(** [if(c) panic(msg)] and other tests of flag bits: [x & bit]. *)
Definition has (x bit : Z) : bool := negb (Z.land x bit =? 0).

(** Bytes stored at an address, and bytes fetched. *)
Fixpoint put_bytes (m : mem) (a : Z) (bs : list Z) : mem :=
  match bs with
  | [] => m
  | c :: bs => put_bytes (store m a c) (a + 1) bs
  end.

(** [&pagetable[i]] *)
Definition slot (pt i : Z) : Z := pt + 8 * i.

Definition upd_mem (f : mem → mem) : M kmem unit := modify (λ k, Kmem (f (kmem_mem k)) (kmem_freelist k)).
Definition rd64 (a : Z) : M kmem Z := gets (λ k, load64 (kmem_mem k) a).

Lemma rd64_run a h k : rd64 a (Thread h k) = Ok (load64 (kmem_mem k) a) (Thread h k).
Proof. done. Qed.

Lemma upd_mem_run f h k : upd_mem f (Thread h k) = Ok tt (Thread h (Kmem (f (kmem_mem k)) (kmem_freelist k))).
Proof. done. Qed.

Lemma no_panic {S} msg (t : thread S) : panic_if false msg t = Ok tt t.
Proof. done. Qed.

(** The loop of [walk], [level] levels above the leaves. *)
Fixpoint walk_loop (level : nat) (pagetable va : Z) (alloc : bool) : M kmem Z :=
  match level with
  | O => ret (slot pagetable (PX 0 va))
  | S l =>
      let pte := slot pagetable (PX (Z.of_nat level) va) in
      let! e := rd64 pte in
      if has e PTE_V then walk_loop l (PTE2PA e) va alloc
      else if negb alloc then ret 0
      else
        let! p := kalloc in
        if p =? 0 then ret 0
        else
          upd_mem (memset p 0 PGSIZE) ;;;
          upd_mem (λ m, store64 m pte (Z.lor (PA2PTE p) PTE_V)) ;;;
          walk_loop l p va alloc
  end.

Definition walk (pagetable va : Z) (alloc : bool) : M kmem Z :=
  panic_if (va >=? MAXVA) "walk" ;;;
  walk_loop 2 pagetable va alloc.

Definition walkaddr (pagetable va : Z) : M kmem Z :=
  if va >=? MAXVA then ret 0
  else
    let! pte := walk pagetable va false in
    if pte =? 0 then ret 0
    else
      let! e := rd64 pte in
      if negb (has e PTE_V) then ret 0
      else if negb (has e PTE_U) then ret 0
      else ret (PTE2PA e).

(** The loop of [mappages] from [a] on; [n] is the number of pages that are left. *)
Fixpoint mappages_loop (n : nat) (pagetable a last pa perm : Z) : M kmem Z :=
  match n with
  | O => λ t, Asleep t
  | S n =>
      let! pte := walk pagetable a true in
      if pte =? 0 then ret (-1)
      else
        let! e := rd64 pte in
        panic_if (has e PTE_V) "mappages: remap" ;;;
        upd_mem (λ m, store64 m pte (Z.lor (Z.lor (PA2PTE pa) perm) PTE_V)) ;;;
        if a =? last then ret 0
        else mappages_loop n pagetable (u64 (a + PGSIZE)) last (u64 (pa + PGSIZE)) perm
  end.

Definition mappages (pagetable va size pa perm : Z) : M kmem Z :=
  panic_if (negb (va mod PGSIZE =? 0)) "mappages: va not aligned" ;;;
  panic_if (negb (size mod PGSIZE =? 0)) "mappages: size not aligned" ;;;
  panic_if (size =? 0) "mappages: size" ;;;
  mappages_loop (Z.to_nat (size / PGSIZE)) pagetable va (u64 (va + size - PGSIZE)) pa perm.

Section Vm.
Context (end_ : Z).

Definition kvmmap (kpgtbl va pa sz perm : Z) : M kmem unit :=
  let! r := mappages kpgtbl va sz pa perm in
  panic_if (negb (r =? 0)) "kvmmap".

(** One page of [uvmunmap]. *)
Definition unmap_page (pagetable a : Z) (do_free : bool) : M kmem unit :=
  let! pte := walk pagetable a false in
  panic_if (pte =? 0) "uvmunmap: walk" ;;;
  let! e := rd64 pte in
  panic_if (negb (has e PTE_V)) "uvmunmap: not mapped" ;;;
  panic_if (PTE_FLAGS e =? PTE_V) "uvmunmap: not a leaf" ;;;
  (if do_free then kfree end_ (PTE2PA e) else ret tt) ;;;
  upd_mem (λ m, store64 m pte 0).

(** [for(a = va; a < va + npages*PGSIZE; a += PGSIZE)], [n] times. *)
Fixpoint uvmunmap_loop (n : nat) (pagetable a : Z) (do_free : bool) : M kmem unit :=
  match n with
  | O => ret tt
  | S n => unmap_page pagetable a do_free ;;; uvmunmap_loop n pagetable (a + PGSIZE) do_free
  end.

Definition uvmunmap (pagetable va npages : Z) (do_free : bool) : M kmem unit :=
  panic_if (negb (va mod PGSIZE =? 0)) "uvmunmap: not aligned" ;;;
  uvmunmap_loop (Z.to_nat ((u64 (va + npages * PGSIZE) - va) / PGSIZE)) pagetable va do_free.

Definition uvmcreate : M kmem Z :=
  let! p := kalloc in
  if p =? 0 then ret 0
  else upd_mem (memset p 0 PGSIZE) ;;; ret p.

(** [src] as the bytes it holds. *)
Definition uvmfirst (pagetable : Z) (src : list Z) : M kmem unit :=
  panic_if (Z.of_nat (length src) >=? PGSIZE) "uvmfirst: more than a page" ;;;
  let! p := kalloc in
  upd_mem (memset p 0 PGSIZE) ;;;
  let! _ := mappages pagetable 0 PGSIZE p (Z.lor (Z.lor (Z.lor PTE_W PTE_R) PTE_X) PTE_U) in
  upd_mem (λ m, put_bytes m p src).

(** [npages] is an [int]. *)
Definition uvmdealloc (pagetable oldsz newsz : Z) : M kmem Z :=
  if newsz >=? oldsz then ret oldsz
  else
    (if PGROUNDUP newsz <? PGROUNDUP oldsz
     then uvmunmap pagetable (PGROUNDUP newsz)
            (u64 (s32 ((PGROUNDUP oldsz - PGROUNDUP newsz) / PGSIZE))) true
     else ret tt) ;;;
    ret newsz.

(** The loop of [uvmalloc]; [n] bounds the pages that are left. *)
Fixpoint uvmalloc_loop (n : nat) (pagetable a oldsz newsz xperm : Z) : M kmem Z :=
  match n with
  | O => ret newsz
  | S n =>
      if a <? newsz then
        let! p := kalloc in
        if p =? 0 then
          let! _ := uvmdealloc pagetable a oldsz in
          ret 0
        else
          upd_mem (memset p 0 PGSIZE) ;;;
          let! r := mappages pagetable a PGSIZE p (Z.lor (Z.lor PTE_R PTE_U) xperm) in
          if negb (r =? 0) then
            kfree end_ p ;;;
            let! _ := uvmdealloc pagetable a oldsz in
            ret 0
          else uvmalloc_loop n pagetable (a + PGSIZE) oldsz newsz xperm
      else ret newsz
  end.

Definition uvmalloc (pagetable oldsz newsz xperm : Z) : M kmem Z :=
  if newsz <? oldsz then ret oldsz
  else
    let oldsz := PGROUNDUP oldsz in
    uvmalloc_loop (Z.to_nat ((newsz - oldsz) / PGSIZE + 1)) pagetable oldsz oldsz newsz xperm.

(** [freewalk] recurses into the tables below; a table has three levels, so the
    recursion is [level] deep at most. *)
Fixpoint freewalk_at (level : nat) (pagetable : Z) : M kmem unit :=
  for_range 0 512 (λ i,
    let! pte := rd64 (slot pagetable (Z.of_nat i)) in
    if has pte PTE_V && negb (has pte (Z.lor (Z.lor PTE_R PTE_W) PTE_X)) then
      match level with
      | O => λ t, Asleep t
      | S l => freewalk_at l (PTE2PA pte)
      end ;;;
      upd_mem (λ m, store64 m (slot pagetable (Z.of_nat i)) 0)
    else panic_if (has pte PTE_V) "freewalk: leaf") ;;;
  kfree end_ pagetable.

Definition freewalk (pagetable : Z) : M kmem unit := freewalk_at 3 pagetable.

Definition uvmfree (pagetable sz : Z) : M kmem unit :=
  (if sz >? 0 then uvmunmap pagetable 0 (PGROUNDUP sz / PGSIZE) true else ret tt) ;;;
  freewalk pagetable.

(** The loop of [uvmcopy] from [i] on. *)
Fixpoint uvmcopy_loop (n : nat) (old new i sz : Z) : M kmem Z :=
  match n with
  | O => ret 0
  | S n =>
      if i <? sz then
        let! pte := walk old i false in
        panic_if (pte =? 0) "uvmcopy: pte should exist" ;;;
        let! e := rd64 pte in
        panic_if (negb (has e PTE_V)) "uvmcopy: page not present" ;;;
        let pa := PTE2PA e in
        let flags := PTE_FLAGS e in
        let! p := kalloc in
        if p =? 0 then uvmunmap new 0 (i / PGSIZE) true ;;; ret (-1)
        else
          upd_mem (memmove p pa PGSIZE) ;;;
          let! r := mappages new i PGSIZE p flags in
          if negb (r =? 0) then
            kfree end_ p ;;;
            uvmunmap new 0 (i / PGSIZE) true ;;;
            ret (-1)
          else uvmcopy_loop n old new (i + PGSIZE) sz
      else ret 0
  end.

Definition uvmcopy (old new sz : Z) : M kmem Z :=
  uvmcopy_loop (Z.to_nat (sz / PGSIZE + 1)) old new 0 sz.

Definition uvmclear (pagetable va : Z) : M kmem unit :=
  let! pte := walk pagetable va false in
  panic_if (pte =? 0) "uvmclear" ;;;
  upd_mem (λ m, store64 m pte (Z.land (load64 m pte) (Z.lnot PTE_U))).
End Vm.

(** ** Copying to and from user space

    A kernel buffer is a list of bytes. *)

(** [*pte] allows user writes: the test of [copyout]. *)
Definition copyout_pa (pagetable va0 : Z) : M kmem (option Z) :=
  if va0 >=? MAXVA then ret None
  else
    let! pte := walk pagetable va0 false in
    if pte =? 0 then ret None
    else
      let! e := rd64 pte in
      if negb (has e PTE_V) || negb (has e PTE_U) || negb (has e PTE_W) then ret None
      else ret (Some (PTE2PA e)).

(** Every iteration of the loops below but the first starts on a page boundary,
    so [copy_fuel] iterations are enough. *)
Definition copy_fuel (len : Z) : nat := Z.to_nat (len / PGSIZE + 3).

Fixpoint copyout_loop (fuel : nat) (pagetable dstva : Z) (src : list Z) : M kmem Z :=
  match fuel with
  | O => λ t, Asleep t
  | S fuel =>
      let len := Z.of_nat (length src) in
      if 0 <? len then
        let va0 := PGROUNDDOWN dstva in
        let! pa := copyout_pa pagetable va0 in
        match pa with
        | None => ret (-1)
        | Some pa0 =>
            let n := Z.min (PGSIZE - (dstva - va0)) len in
            upd_mem (λ m, put_bytes m (u64 (pa0 + (dstva - va0))) (take (Z.to_nat n) src)) ;;;
            copyout_loop fuel pagetable (u64 (va0 + PGSIZE)) (drop (Z.to_nat n) src)
        end
      else ret 0
  end.

Definition copyout (pagetable dstva : Z) (src : list Z) : M kmem Z :=
  copyout_loop (copy_fuel (Z.of_nat (length src))) pagetable dstva src.

(** The result and the bytes stored at [dst]. *)
Fixpoint copyin_loop (fuel : nat) (pagetable srcva len : Z) (dst : list Z) : M kmem (Z * list Z) :=
  match fuel with
  | O => λ t, Asleep t
  | S fuel =>
      if 0 <? len then
        let va0 := PGROUNDDOWN srcva in
        let! pa0 := walkaddr pagetable va0 in
        if pa0 =? 0 then ret (-1, dst)
        else
          let n := Z.min (PGSIZE - (srcva - va0)) len in
          let! bs := gets (λ k, bytes_at (kmem_mem k) (u64 (pa0 + (srcva - va0))) (Z.to_nat n)) in
          copyin_loop fuel pagetable (u64 (va0 + PGSIZE)) (len - n) (dst ++ bs)
      else ret (0, dst)
  end.

Definition copyin (pagetable srcva len : Z) : M kmem (Z * list Z) :=
  copyin_loop (copy_fuel len) pagetable srcva len [].

(** The inner loop of [copyinstr] on [n] bytes at [p]: the bytes stored and
    whether a NUL was found. *)
Fixpoint scan_nul (n : nat) (p : Z) (m : mem) : list Z * bool :=
  match n with
  | O => ([], false)
  | S n =>
      if m p =? 0 then ([0], true)
      else let '(bs, nul) := scan_nul n (p + 1) m in (m p :: bs, nul)
  end.

Fixpoint copyinstr_loop (fuel : nat) (pagetable srcva max : Z) (dst : list Z) : M kmem (Z * list Z) :=
  match fuel with
  | O => λ t, Asleep t
  | S fuel =>
      if 0 <? max then
        let va0 := PGROUNDDOWN srcva in
        let! pa0 := walkaddr pagetable va0 in
        if pa0 =? 0 then ret (-1, dst)
        else
          let n := Z.min (PGSIZE - (srcva - va0)) max in
          let! r := gets (λ k, scan_nul (Z.to_nat n) (u64 (pa0 + (srcva - va0))) (kmem_mem k)) in
          let '(bs, got_null) := r in
          if got_null then ret (0, dst ++ bs)
          else copyinstr_loop fuel pagetable (u64 (va0 + PGSIZE)) (max - n) (dst ++ bs)
      else ret (-1, dst)
  end.

Definition copyinstr (pagetable srcva max : Z) : M kmem (Z * list Z) :=
  copyinstr_loop (copy_fuel max) pagetable srcva max [].

(** ** The kernel's own page table *)

Section kvm.
Context (etext trampoline : Z).

(** [for(p = proc; p < &proc[NPROC]; p++)] of proc.c *)
Definition proc_mapstacks (nproc : nat) (kpgtbl : Z) : M kmem unit :=
  for_range 0 nproc (λ i,
    let! pa := kalloc in
    panic_if (pa =? 0) "kalloc" ;;;
    kvmmap kpgtbl (KSTACK (Z.of_nat i)) pa PGSIZE (Z.lor PTE_R PTE_W)).

Definition kvmmake (nproc : nat) : M kmem Z :=
  let! kpgtbl := kalloc in
  upd_mem (memset kpgtbl 0 PGSIZE) ;;;
  kvmmap kpgtbl UART0 UART0 PGSIZE (Z.lor PTE_R PTE_W) ;;;
  kvmmap kpgtbl VIRTIO0 VIRTIO0 PGSIZE (Z.lor PTE_R PTE_W) ;;;
  kvmmap kpgtbl PLIC PLIC 0x4000000 (Z.lor PTE_R PTE_W) ;;;
  kvmmap kpgtbl KERNBASE KERNBASE (etext - KERNBASE) (Z.lor PTE_R PTE_X) ;;;
  kvmmap kpgtbl etext etext (PHYSTOP - etext) (Z.lor PTE_R PTE_W) ;;;
  kvmmap kpgtbl TRAMPOLINE trampoline PGSIZE (Z.lor PTE_R PTE_X) ;;;
  proc_mapstacks nproc kpgtbl ;;;
  ret kpgtbl.
End kvm.
