(* ===== verification/VmTable.v ===== *)
(** * Page tables: what [walk] and [mappages] do

    [pt_rep m root T] says that physical memory [m] holds a three-level page table
    at [root]; [T] has its pages, by the path of indices that leads to them.
    [pte_at] is the translation the table stands for: the leaf PTE of every
    virtual page, 0 where there is no leaf table. *)

From S2P Require Import Prelude CString Riscv Kalloc Vm.

(** ** PTEs *)

Lemma land_low_high x k f : 0 <= f < 2 ^ k → 0 <= k → Z.land (x * 2 ^ k) f = 0.
Proof.
  intros Hf Hk. apply Z.bits_inj'. intros n Hn. rewrite Z.land_spec, Z.bits_0.
  destruct (decide (n < k)).
  - by rewrite Z.mul_pow2_bits_low by lia.
  - apply andb_false_iff. right. destruct (decide (f = 0)) as [->|]; [apply Z.bits_0|].
    apply Z.bits_above_log2; [lia|]. apply Z.lt_le_trans with k; [apply Z.log2_lt_pow2; lia|lia].
Qed.

Lemma lor_low_high x k f : 0 <= f < 2 ^ k → 0 <= k → Z.lor (x * 2 ^ k) f = x * 2 ^ k + f.
Proof. intros Hf Hk. rewrite <- Z.lxor_lor by (by apply land_low_high). symmetry. apply Z.add_nocarry_lxor. by apply land_low_high. Qed.

Definition pa_ok (pa : Z) : Prop := pa mod PGSIZE = 0 ∧ 0 <= pa < 2 ^ 54.

Lemma PA2PTE_mul pa : pa_ok pa → PA2PTE pa = pa / PGSIZE * 2 ^ 10.
Proof.
  intros [Hm Hr]. unfold PA2PTE, PGSIZE in *. rewrite Z.shiftl_mul_pow2, Z.shiftr_div_pow2 by lia.
  change (2 ^ 12) with 4096. apply u64_small. pose proof (Z.div_mod pa 4096 ltac:(lia)). lia.
Qed.

Lemma pte_val pa f : pa_ok pa → 0 <= f < 1024 → Z.lor (PA2PTE pa) f = pa / PGSIZE * 2 ^ 10 + f.
Proof. intros Hp Hf. rewrite PA2PTE_mul by done. by rewrite lor_low_high by lia. Qed.

Lemma pte_range pa f : pa_ok pa → 0 <= f < 1024 → 0 <= Z.lor (PA2PTE pa) f < 2 ^ 64.
Proof.
  intros Hp Hf. rewrite pte_val by done. destruct Hp as [Hm Hr]. unfold PGSIZE in *.
  pose proof (Z.div_mod pa 4096 ltac:(lia)). lia.
Qed.

Lemma PTE2PA_pte pa f : pa_ok pa → 0 <= f < 1024 → PTE2PA (Z.lor (PA2PTE pa) f) = pa.
Proof.
  intros Hp Hf. rewrite pte_val by done. destruct Hp as [Hm Hr]. unfold PTE2PA, PGSIZE in *.
  rewrite Z.shiftl_mul_pow2, Z.shiftr_div_pow2 by lia. rewrite Z.div_add_l by lia.
  rewrite (Z.div_small f) by lia. pose proof (Z.div_mod pa 4096 ltac:(lia)). rewrite u64_small by lia. lia.
Qed.

Lemma PTE_FLAGS_pte pa f : pa_ok pa → 0 <= f < 1024 → PTE_FLAGS (Z.lor (PA2PTE pa) f) = f.
Proof.
  intros Hp Hf. rewrite pte_val by done. unfold PTE_FLAGS. change 0x3FF with (Z.ones 10).
  rewrite Z.land_ones by lia. rewrite Z.add_comm, Z.mod_add by lia. apply Z.mod_small. lia.
Qed.

Lemma has_pte pa f b : pa_ok pa → 0 <= f < 1024 → 0 <= b < 1024 → has (Z.lor (PA2PTE pa) f) b = has f b.
Proof.
  intros Hp Hf Hb. unfold has. rewrite Z.land_lor_distr_l, PA2PTE_mul by done.
  by rewrite land_low_high by lia.
Qed.

Lemma has_lor x y b : has (Z.lor x y) b = has x b || has y b.
Proof.
  unfold has. rewrite Z.land_lor_distr_l. destruct (Z.eqb_spec (Z.land x b) 0) as [->|Hx]; [done|].
  cbn [negb orb]. apply negb_true_iff, Z.eqb_neq. intros E. apply Z.lor_eq_0_iff in E. tauto.
Qed.

(** ** Indices *)

Lemma PX_range l va : 0 <= PX l va < 512.
Proof. unfold PX, PXMASK. change 0x1FF with (Z.ones 9). rewrite Z.land_ones by lia. apply Z.mod_pos_bound. lia. Qed.

Lemma PX_div l va : 0 <= l → PX l va = va / 2 ^ (12 + 9 * l) mod 512.
Proof.
  intros Hl. unfold PX, PXMASK, PXSHIFT, PGSHIFT. change 0x1FF with (Z.ones 9).
  rewrite Z.land_ones, Z.shiftr_div_pow2 by lia. done.
Qed.

(** A virtual page below [MAXVA] is determined by the three indices. *)
Lemma PX_page va : 0 <= va < MAXVA → va / PGSIZE = (PX 2 va * 512 + PX 1 va) * 512 + PX 0 va.
Proof.
  unfold MAXVA, PGSIZE. change (Z.shiftl 1 (9 + 9 + 9 + 12 - 1)) with (2 ^ 38). intros Hva.
  rewrite !PX_div by lia. change (12 + 9 * 2) with 30. change (12 + 9 * 1) with 21. change (12 + 9 * 0) with 12.
  change (2 ^ 12) with 4096. change (2 ^ 21) with (4096 * 512). change (2 ^ 30) with (4096 * 512 * 512).
  rewrite <- !Z.div_div by lia. set (x := va / 4096).
  assert (0 <= x < 2 ^ 26) as Hx. { unfold x. split; [apply Z.div_pos; lia|apply Z.div_lt_upper_bound; lia]. }
  pose proof (Z.div_mod x 512 ltac:(lia)). pose proof (Z.div_mod (x / 512) 512 ltac:(lia)).
  rewrite (Z.mod_small (x / 512 / 512)); [lia|]. split; [apply Z.div_pos; [apply Z.div_pos|]; lia|].
  apply Z.div_lt_upper_bound; [lia|]. apply Z.div_lt_upper_bound; lia.
Qed.

Lemma PX_same va va' : va / PGSIZE = va' / PGSIZE → ∀ l, 0 <= l → PX l va = PX l va'.
Proof.
  unfold PGSIZE. intros E l Hl. rewrite !PX_div by done. f_equal.
  rewrite Z.pow_add_r by lia. change (2 ^ 12) with 4096. pose proof (Z.pow_pos_nonneg 2 (9 * l) ltac:(lia) ltac:(lia)).
  rewrite <- !Z.div_div by lia. by rewrite E.
Qed.

Lemma slot_ne p q k j : p mod PGSIZE = 0 → q mod PGSIZE = 0 → 0 <= k < 512 → 0 <= j < 512 →
  slot p k = slot q j → p = q ∧ k = j.
Proof.
  unfold slot, PGSIZE. intros Hp Hq Hk Hj E. pose proof (Z.div_mod p 4096 ltac:(lia)). pose proof (Z.div_mod q 4096 ltac:(lia)). lia.
Qed.

Lemma load64_store64_ne m a b v : b + 8 <= a ∨ a + 8 <= b → load64 (store64 m a v) b = load64 m b.
Proof. intros Hab. apply load64_ext. intros x Hx. apply store64_ne. lia. Qed.

Lemma load64_zero m a : (∀ x, a <= x < a + 8 → m x = 0) → load64 m a = 0.
Proof.
  intros Hz. rewrite (load64_ext _ (store64 m a 0)); [by rewrite load64_store64|].
  intros x Hx. rewrite Hz by done. unfold store64. rewrite decide_True by lia.
  assert (Forall (λ c, c = 0) (le_bytes 8 0)) as Hall by (vm_compute; repeat constructor).
  symmetry. by apply (Forall_lookup_default (λ c, c = 0)).
Qed.

(** ** The representation *)

Section rep.
Context (end_ : Z) (end_pos : 0 < end_).
Implicit Types (T : gmap (list Z) Z) (m : mem) (k : kmem) (fl : list Z) (h : list lockname).

Record pt_rep m (root : Z) T : Prop := {
  pr_root : T !! [] = Some root;
  pr_dom π p : T !! π = Some p → (length π <= 2)%nat ∧ page_ok end_ p;
  pr_inj π π' p : T !! π = Some p → T !! π' = Some p → π = π';
  pr_link π p i : T !! π = Some p → (length π < 2)%nat → 0 <= i < 512 →
    load64 m (slot p i) = match T !! (π ++ [i]) with Some q => Z.lor (PA2PTE q) PTE_V | None => 0 end;
  pr_parent π i q : T !! (π ++ [i]) = Some q → 0 <= i < 512 ∧ is_Some (T !! π);
  pr_low i π q : T !! (i :: π) = Some q → i < 256 }.

(** The page [p] belongs to the table. *)
Definition is_tab T (p : Z) : Prop := ∃ π, T !! π = Some p.

(** A page table in a memory whose allocator has the free list [fl]. *)
Record vm_ok k fl (root : Z) T : Prop := {
  vo_wf : kmem_wf end_ k fl;
  vo_rep : pt_rep (kmem_mem k) root T;
  vo_sep p : is_tab T p → p ∉ fl }.

(** The address of the leaf PTE of [va], or 0; and its content. *)
Definition pte_addr T (va : Z) : Z :=
  match T !! [PX 2 va; PX 1 va] with Some p => slot p (PX 0 va) | None => 0 end.
Definition pte_at m T (va : Z) : Z :=
  match T !! [PX 2 va; PX 1 va] with Some p => load64 m (slot p (PX 0 va)) | None => 0 end.

(** The indices [walk_loop] still has to follow, [l] levels above the leaves. *)
Fixpoint px_path (l : nat) (va : Z) : list Z :=
  match l with O => [] | S l' => PX (Z.of_nat l) va :: px_path l' va end.

Lemma page_ok_pa p : page_ok end_ p → pa_ok p.
Proof. intros [Hm Hr]. split; [done|]. unfold PHYSTOP, KERNBASE in *. lia. Qed.

Lemma page_ok_pos p : page_ok end_ p → p ≠ 0.
Proof. intros [_ Hr]. lia. Qed.

Lemma slot_in p i : 0 <= i < 512 → p <= slot p i ∧ slot p i + 8 <= p + PGSIZE.
Proof. unfold slot, PGSIZE. lia. Qed.

Lemma px_range l va : Forall (λ i, 0 <= i < 512) (px_path l va).
Proof. induction l; constructor; [apply PX_range|done]. Qed.

Lemma pt_link_V p : page_ok end_ p → has (Z.lor (PA2PTE p) PTE_V) PTE_V = true.
Proof. intros Hp. rewrite has_pte; [done|by apply page_ok_pa|by split..]. Qed.

Lemma pt_link_pa p : page_ok end_ p → PTE2PA (Z.lor (PA2PTE p) PTE_V) = p.
Proof. intros Hp. apply PTE2PA_pte; [by apply page_ok_pa|by split]. Qed.

(** *** [walk] without allocation changes nothing. *)
Lemma walk_loop_find m f root T h : pt_rep m root T →
  ∀ l (π : list Z) p va, T !! π = Some p → (length π + l = 2)%nat →
  walk_loop l p va false (Thread h (Kmem m f)) =
    Ok (match T !! (π ++ px_path l va) with Some q => slot q (PX 0 va) | None => 0 end) (Thread h (Kmem m f)).
Proof.
  intros Hr. induction l as [|l IH]; intros π p va Hp Hl; cbn [walk_loop px_path].
  { by rewrite app_nil_r, Hp. }
  rewrite (bind_Ok _ _ _ _ _ (rd64_run _ _ _)). cbn [kmem_mem].
  rewrite (pr_link _ _ _ Hr π p) by (done || lia || apply PX_range).
  assert (∀ r, T !! (π ++ PX (Z.of_nat (S l)) va :: px_path l va) = Some r → is_Some (T !! (π ++ [PX (Z.of_nat (S l)) va]))) as Hpre.
  { intros r Hrr. clear IH Hl. replace (π ++ _ :: px_path l va) with ((π ++ [PX (Z.of_nat (S l)) va]) ++ px_path l va) in Hrr
      by (by rewrite <- app_assoc). revert Hrr. generalize (π ++ [PX (Z.of_nat (S l)) va]). revert r.
    induction (px_path l va) as [|x xs IHx] using rev_ind; intros r ρ Hρ; [rewrite app_nil_r in Hρ; by eexists|].
    rewrite app_assoc in Hρ. apply (pr_parent _ _ _ Hr) in Hρ as [_ [r' Hr']]. by eapply IHx. }
  destruct (T !! (π ++ [_])) as [q|] eqn:Eq.
  - pose proof (pr_dom _ _ _ Hr _ _ Eq) as [_ Hq].
    rewrite pt_link_V, pt_link_pa by done. rewrite (IH _ _ va Eq) by (rewrite length_app; simpl; lia).
    by rewrite <- app_assoc.
  - change (has 0 PTE_V) with false. cbn [negb]. unfold ret.
    destruct (T !! (π ++ _ :: px_path l va)) eqn:E; [|done]. destruct (Hpre _ eq_refl) as [? ?]. congruence.
Qed.

Lemma walk_find_rep k root T va h : pt_rep (kmem_mem k) root T → 0 <= va < MAXVA →
  walk root va false (Thread h k) = Ok (pte_addr T va) (Thread h k).
Proof.
  intros Hr Hva. unfold walk, panic_if. destruct (Z.geb_spec va MAXVA); [lia|].
  rewrite (bind_Ok _ _ _ _ _ eq_refl). destruct k as [m f].
  by rewrite (walk_loop_find m f root T h Hr 2 [] root va (pr_root _ _ _ Hr)).
Qed.

Lemma walk_find k fl root T va h : vm_ok k fl root T → 0 <= va < MAXVA →
  walk root va false (Thread h k) = Ok (pte_addr T va) (Thread h k).
Proof. intros Hv. apply walk_find_rep, Hv. Qed.

Lemma pte_addr_pos m T root va p :
  pt_rep m root T → T !! [PX 2 va; PX 1 va] = Some p → pte_addr T va = slot p (PX 0 va) ∧ slot p (PX 0 va) ≠ 0.
Proof.
  intros Hr Hp. unfold pte_addr. rewrite Hp. split; [done|].
  pose proof (pr_dom _ _ _ Hr _ _ Hp) as [_ [_ Hq]]. pose proof (PX_range 0 va). unfold slot. lia.
Qed.

(** *** Frames *)

Lemma page_apart p q x : page_ok end_ p → page_ok end_ q → p ≠ q → p <= x < p + PGSIZE → ¬ (q <= x < q + PGSIZE).
Proof. intros Hp Hq. by apply (page_disjoint end_). Qed.

Lemma load_frame m m' T root p i : pt_rep m root T → is_tab T p → 0 <= i < 512 →
  (∀ x, p <= x < p + PGSIZE → m' x = m x) → load64 m' (slot p i) = load64 m (slot p i).
Proof. intros Hr Hp Hi Hm. apply load64_ext. intros x Hx. pose proof (slot_in p i Hi). apply Hm. lia. Qed.

Lemma pt_rep_frame m m' root T :
  pt_rep m root T → (∀ p x, is_tab T p → p <= x < p + PGSIZE → m' x = m x) → pt_rep m' root T.
Proof.
  intros Hr Hm. pose proof Hr as [H1 H2 H3 H4 H5 H6]. split; [done..| |done|done].
  intros π p i Hp Hl Hi. assert (is_tab T p) as Ht by (by eexists).
  rewrite (load_frame m m' T root) by (try done; intros x; by apply Hm). by apply H4.
Qed.

Lemma pte_at_frame m m' root T va :
  pt_rep m root T → (∀ p x, is_tab T p → p <= x < p + PGSIZE → m' x = m x) → pte_at m' T va = pte_at m T va.
Proof.
  intros Hr Hm. unfold pte_at. destruct (T !! _) as [p|] eqn:E; [|done].
  assert (is_tab T p) as Hp by (by eexists). eapply load_frame; [done..|apply PX_range|]. intros x. by apply Hm.
Qed.

(** Writing to a page that is neither free nor part of the table. *)
Lemma vm_ok_frame k fl root T m' pa :
  vm_ok k fl root T → page_ok end_ pa → pa ∉ fl → ¬ is_tab T pa →
  (∀ x, ¬ (pa <= x < pa + PGSIZE) → m' x = kmem_mem k x) →
  vm_ok (Kmem m' (kmem_freelist k)) fl root T ∧ ∀ va, pte_at m' T va = pte_at (kmem_mem k) T va.
Proof.
  intros [Hw Hr Hs] Hpa Hf Ht Hm.
  assert (∀ p x, is_tab T p → p <= x < p + PGSIZE → m' x = kmem_mem k x) as Hx.
  { intros p x Hp Hx. apply Hm. assert (page_ok end_ p) as Hpo.
    { destruct Hp as [π Hp]. by apply (pr_dom _ _ _ Hr _ _ Hp). }
    apply (page_apart p pa x); try done. intros ->. done. }
  split.
  - split; [by eapply kmem_wf_frame|by eapply pt_rep_frame|done].
  - intros va. by eapply pte_at_frame.
Qed.

(** *** Storing a PTE *)

Lemma slot_same m T root π π' p p' i j : pt_rep m root T → T !! π = Some p → T !! π' = Some p' →
  0 <= i < 512 → 0 <= j < 512 → slot p i = slot p' j → π = π' ∧ i = j.
Proof.
  intros Hr Hp Hp' Hi Hj E. pose proof (pr_dom _ _ _ Hr _ _ Hp) as [_ [Hm _]].
  pose proof (pr_dom _ _ _ Hr _ _ Hp') as [_ [Hm' _]].
  destruct (slot_ne p p' i j Hm Hm' Hi Hj E) as [-> ->]. split; [|done]. by eapply (pr_inj _ _ _ Hr).
Qed.

Lemma load_store_slot m m0 T root π π' p p' i j v : pt_rep m0 root T → T !! π = Some p → T !! π' = Some p' →
  0 <= i < 512 → 0 <= j < 512 →
  load64 (store64 m (slot p i) v) (slot p' j) = if decide (π = π' ∧ i = j) then u64 v else load64 m (slot p' j).
Proof.
  intros Hr Hp Hp' Hi Hj. case_decide as Hd.
  - destruct Hd as [<- <-]. assert (p = p') as <- by congruence. apply load64_store64.
  - apply load64_store64_ne. pose proof (slot_same _ _ _ _ _ _ _ i j Hr Hp Hp' Hi Hj) as Hne.
    pose proof (pr_dom _ _ _ Hr _ _ Hp) as [_ [Hm _]]. pose proof (pr_dom _ _ _ Hr _ _ Hp') as [_ [Hm' _]].
    unfold slot, PGSIZE in *. pose proof (Z.div_mod p 4096 ltac:(lia)). pose proof (Z.div_mod p' 4096 ltac:(lia)).
    destruct (decide (p + 8 * i = p' + 8 * j)) as [E|]; [by apply Hne in E|lia].
Qed.

Lemma store_slot_page m m0 T root π p i v x q : pt_rep m0 root T → T !! π = Some p → 0 <= i < 512 →
  page_ok end_ q → p ≠ q → q <= x < q + PGSIZE → store64 m (slot p i) v x = m x.
Proof.
  intros Hr Hp Hi Hq Hne Hx. apply store64_ne. intros Hs. pose proof (slot_in p i Hi).
  pose proof (pr_dom _ _ _ Hr _ _ Hp) as [_ Hpo]. apply (page_apart q p x); (done || congruence || lia).
Qed.

(** The same virtual page: the same three indices. *)
Definition same_page (va va' : Z) : Prop := va / PGSIZE = va' / PGSIZE.

#[export] Instance same_page_dec va va' : Decision (same_page va va').
Proof. unfold same_page. apply _. Defined.

Lemma same_page_px va va' : 0 <= va < MAXVA → 0 <= va' < MAXVA →
  same_page va va' ↔ PX 2 va = PX 2 va' ∧ PX 1 va = PX 1 va' ∧ PX 0 va = PX 0 va'.
Proof.
  intros Hva Hva'. split.
  - intros E. by rewrite !(PX_same va va' E) by lia.
  - intros (E2 & E1 & E0). unfold same_page. rewrite !PX_page by done. congruence.
Qed.

(** Storing a PTE into a leaf table. *)
Lemma set_pte k fl root T va p v : vm_ok k fl root T → 0 <= va < MAXVA →
  T !! [PX 2 va; PX 1 va] = Some p → 0 <= v < 2 ^ 64 →
  let m' := store64 (kmem_mem k) (pte_addr T va) v in
  vm_ok (Kmem m' (kmem_freelist k)) fl root T ∧
  (∀ va', 0 <= va' < MAXVA → pte_at m' T va' = if decide (same_page va' va) then v else pte_at (kmem_mem k) T va') ∧
  (∀ q x, page_ok end_ q → ¬ is_tab T q → q <= x < q + PGSIZE → m' x = kmem_mem k x).
Proof.
  intros [Hw Hr Hs] Hva Hp Hv m'. destruct (pte_addr_pos _ _ _ _ _ Hr Hp) as [Ea _].
  pose proof (PX_range 0 va) as Hi. assert (is_tab T p) as Ht by (by eexists).
  unfold m'. rewrite Ea. split_and!.
  - split; [|split|done].
    + destruct Hw as (Hc & Hn & Hf). split_and!; [|done|done]. cbn [kmem_mem kmem_freelist].
      apply chain_store_ne; [|done]. intros q x Hq Hx Hx'. pose proof (slot_in p _ Hi).
      pose proof (pr_dom _ _ _ Hr _ _ Hp) as [_ Hpo]. pose proof (Forall_elem _ _ _ Hf Hq) as Hqo.
      apply (page_apart p q x); try done; [|unfold PGSIZE in *; lia..]. intros ->. by apply (Hs q).
    + apply Hr. 
    + apply Hr.
    + apply Hr.
    + intros π p' i Hp' Hl Hi'. cbn [kmem_mem]. rewrite (load_store_slot _ _ _ _ _ _ _ _ _ _ _ Hr Hp Hp') by done.
      rewrite decide_False; [by apply Hr|]. intros [<- _]. simpl in Hl. lia.
    + apply Hr.
    + apply Hr.
  - intros va' Hva'. unfold pte_at. destruct (T !! [PX 2 va'; PX 1 va']) as [p'|] eqn:E.
    + rewrite (load_store_slot _ _ _ _ _ _ _ _ _ _ _ Hr Hp E) by (done || apply PX_range).
      rewrite u64_small by done. apply decide_ext. rewrite same_page_px by done.
      split; [intros [E' E0]; by injection E' as -> ->|by intros (-> & -> & ->)].
    + rewrite decide_False; [done|]. rewrite same_page_px by done. intros (E2 & E1 & _). congruence.
  - intros q x Hq Hnt Hx. eapply store_slot_page; try done. intros ->. done.
Qed.

(** *** A new table page *)
Lemma extend k q fl root T π p i : vm_ok k (q :: fl) root T → T !! π = Some p → (length π < 2)%nat →
  0 <= i < 512 → (π = [] → i < 256) → T !! (π ++ [i]) = None →
  let m' := store64 (memset q 0 PGSIZE (kmem_mem (kalloc_post k))) (slot p i) (Z.lor (PA2PTE q) PTE_V) in
  vm_ok (Kmem m' (kmem_freelist (kalloc_post k))) fl root (<[π ++ [i] := q]> T) ∧
  (∀ va, pte_at m' (<[π ++ [i] := q]> T) va = pte_at (kmem_mem k) T va) ∧
  (∀ q' x, page_ok end_ q' → ¬ is_tab (<[π ++ [i] := q]> T) q' → q' <= x < q' + PGSIZE → m' x = kmem_mem k x).
Proof.
  intros [Hw Hr Hs] Hp Hl Hi Hlow Hnone m'.
  destruct (kalloc_wf_cons end_ end_pos _ _ _ Hw) as (Hf & Hq & Hqfl & Hw' & Hm).
  assert (¬ is_tab T q) as Hqt. { intros Ht. apply (Hs q Ht). by left. }
  assert (p ≠ q) as Hpq. { intros ->. apply Hqt. by eexists. }
  pose proof (pr_dom _ _ _ Hr _ _ Hp) as [_ Hpo].
  set (m1 := memset q 0 PGSIZE (kmem_mem (kalloc_post k))) in *.
  assert (∀ x, ¬ (q <= x < q + PGSIZE) → m1 x = kmem_mem k x) as Hm1.
  { intros x Hx. unfold m1. rewrite memset_at, decide_False, Hm, decide_False by done. done. }
  assert (∀ π' p' j, T !! π' = Some p' → 0 <= j < 512 →
    load64 m' (slot p' j) = if decide (π = π' ∧ i = j) then Z.lor (PA2PTE q) PTE_V else load64 (kmem_mem k) (slot p' j)) as Hold.
  { intros π' p' j Hp' Hj. unfold m'. rewrite (load_store_slot _ _ _ _ _ _ _ _ _ _ _ Hr Hp Hp') by done.
    rewrite u64_small by (apply pte_range; [by apply page_ok_pa|by split]).
    case_decide; [done|]. apply (load_frame _ _ T root); [done|by eexists|done|]. intros x Hx. apply Hm1.
    pose proof (pr_dom _ _ _ Hr _ _ Hp') as [_ Hpo']. apply (page_apart p' q x); try done. intros ->. apply Hqt. by eexists. }
  assert (∀ j, 0 <= j < 512 → load64 m' (slot q j) = 0) as Hnew.
  { intros j Hj. apply load64_zero. intros x Hx. pose proof (slot_in q j Hj). unfold m'.
    rewrite (store_slot_page _ _ _ _ _ _ _ _ _ q Hr Hp) by (done || lia). unfold m1.
    rewrite memset_at, decide_True by lia. done. }
  assert (∀ π' p', <[π ++ [i] := q]> T !! π' = Some p' → (π' = π ++ [i] ∧ p' = q) ∨ T !! π' = Some p') as Hins.
  { intros π' p' E. destruct (decide (π' = π ++ [i])) as [->|]; [rewrite lookup_insert_eq in E|rewrite lookup_insert_ne in E by done];
      [left; by injection E|by right]. }
  split_and!.
  - split.
    + destruct Hw' as (Hc & Hn & Hfo). split_and!; [|done|done]. cbn [kmem_mem kmem_freelist].
      eapply chain_ext; [|exact Hc]. intros q' x Hq' Hx. pose proof (Forall_elem _ _ _ Hfo Hq') as Hqo'.
      assert (q ≠ q') as Hqq by (intros ->; done).
      unfold m'. rewrite (store_slot_page _ _ _ _ _ _ _ _ _ q' Hr Hp); [|done..| |unfold PGSIZE; lia].
      * unfold m1. rewrite memset_at, decide_False; [done|]. apply (page_apart q' q x); [done..|congruence|unfold PGSIZE; lia].
      * intros ->. apply (Hs q'); [by eexists|by right].
    + split.
      * rewrite lookup_insert_ne by (by destruct π). apply Hr.
      * intros π' p' E. destruct (Hins _ _ E) as [[-> ->]|E']; [|by apply (pr_dom _ _ _ Hr _ _ E')].
        split; [rewrite length_app; simpl; lia|done].
      * intros π1 π2 p' E1 E2. destruct (Hins _ _ E1) as [[-> ->]|E1'], (Hins _ _ E2) as [[-> F]|E2']; try done.
        -- exfalso. apply Hqt. by eexists.
        -- exfalso. apply Hqt. subst. by eexists.
        -- by eapply (pr_inj _ _ _ Hr).
      * intros π' p' j E Hl' Hj. cbn [kmem_mem]. destruct (Hins _ _ E) as [[-> ->]|E'].
        -- rewrite Hnew by done. rewrite lookup_insert_ne by (intros F; apply (f_equal length) in F; rewrite !length_app in F; simpl in F; lia).
           destruct (T !! ((π ++ [i]) ++ [j])) eqn:F; [|done]. apply (pr_parent _ _ _ Hr) in F as [_ [? F]]. congruence.
        -- rewrite (Hold _ _ _ E' Hj). case_decide as Hd.
           ++ destruct Hd as [-> ->]. by rewrite lookup_insert_eq.
           ++ rewrite lookup_insert_ne by (intros F; apply app_inj_tail in F; naive_solver). by apply Hr.
      * intros π' j q' E. destruct (Hins _ _ E) as [[F ->]|E'].
        -- apply app_inj_tail in F as [-> ->]. split; [done|]. rewrite lookup_insert_ne; [by eexists|].
           intros F. apply (f_equal length) in F. rewrite length_app in F. simpl in F. lia.
        -- apply (pr_parent _ _ _ Hr) in E' as [Hj [p' E']]. split; [done|].
           destruct (decide (π' = π ++ [i])) as [->|]; [rewrite lookup_insert_eq|rewrite lookup_insert_ne by done]; by eexists.
      * intros j π' q' E. destruct (Hins _ _ E) as [[F _]|E']; [|by apply (pr_low _ _ _ Hr) in E'].
        destruct π as [|j' π0]; injection F as -> _; [by apply Hlow|by apply (pr_low _ _ _ Hr) in Hp].
    + intros p' [π' E]. destruct (Hins _ _ E) as [[-> ->]|E']; [done|]. intros Hin. apply (Hs p'); [by eexists|by right].
  - intros va. unfold pte_at. destruct (decide ([PX 2 va; PX 1 va] = π ++ [i])) as [E|E].
    + rewrite E, lookup_insert_eq, Hnone. apply Hnew, PX_range.
    + rewrite lookup_insert_ne by done. destruct (T !! [PX 2 va; PX 1 va]) as [p'|] eqn:F; [|done].
      rewrite (Hold _ _ _ F) by apply PX_range. rewrite decide_False; [done|]. intros [G _]. apply (f_equal length) in G. simpl in G. lia.
  - intros q' x Hq' Hnt Hx. unfold m'. rewrite (store_slot_page _ _ _ _ _ _ _ _ _ q' Hr Hp); [|done..| |done].
    + apply Hm1. apply (page_apart q' q x); try done. intros ->. apply Hnt. exists (π ++ [i]). by rewrite lookup_insert_eq.
    + intros ->. apply Hnt. exists π. rewrite lookup_insert_ne; [done|]. intros F. apply (f_equal length) in F. rewrite length_app in F. simpl in F. lia.
Qed.

(** The table may have grown by pages from the free list, and no page outside the
    table was written. *)
Record growth k fl T k' fl' T' : Prop := {
  gr_sub : T ⊆ T';
  gr_new : ∃ new, fl = new ++ fl' ∧ ∀ p, is_tab T' p ↔ is_tab T p ∨ p ∈ new;
  gr_mem q x : page_ok end_ q → ¬ is_tab T' q → q <= x < q + PGSIZE → kmem_mem k' x = kmem_mem k x }.

(** [f] is what the table translates to afterwards, for every address. *)
Definition maps k T (f : Z → Z) : Prop := ∀ va, 0 <= va < MAXVA → pte_at (kmem_mem k) T va = f va.

Lemma growth_refl k fl T : growth k fl T k fl T.
Proof. split; try done. exists []. split; [done|]. intros p. rewrite elem_of_nil. tauto. Qed.

Lemma growth_tab k fl T k' fl' T' p : growth k fl T k' fl' T' → is_tab T p → is_tab T' p.
Proof. intros [Hs _ _] [π Hp]. exists π. by eapply lookup_weaken. Qed.

Lemma growth_trans k fl T k1 fl1 T1 k2 fl2 T2 :
  growth k fl T k1 fl1 T1 → growth k1 fl1 T1 k2 fl2 T2 → growth k fl T k2 fl2 T2.
Proof.
  intros H1 H2. pose proof (λ p, growth_tab _ _ _ _ _ _ p H2) as Hsub.
  destruct H1 as [S1 (n1 & E1 & N1) M1], H2 as [S2 (n2 & E2 & N2) M2]. split.
  - by etrans.
  - exists (n1 ++ n2). rewrite E1, E2, app_assoc. split; [done|]. intros p. rewrite N2, N1, elem_of_app. tauto.
  - intros q x Hq Hnt Hx. rewrite (M2 q x), (M1 q x); naive_solver.
Qed.

Lemma insert_tab T π q p : T !! π = None → is_tab (<[π := q]> T) p ↔ is_tab T p ∨ p = q.
Proof.
  intros Hn. split.
  - intros [π' E]. destruct (decide (π' = π)) as [->|].
    + rewrite lookup_insert_eq in E. right. by injection E.
    + rewrite lookup_insert_ne in E by done. left. by exists π'.
  - intros [[π' E]| ->]; [exists π'|exists π; by rewrite lookup_insert_eq].
    rewrite lookup_insert_ne; [done|]. intros ->. congruence.
Qed.

Lemma PX_low va : 0 <= va < MAXVA → PX 2 va < 256.
Proof.
  unfold MAXVA. change (Z.shiftl 1 (9 + 9 + 9 + 12 - 1)) with (2 ^ 38). intros Hva. rewrite PX_div by lia. change (2 ^ (12 + 9 * 2)) with (2 ^ 30).
  assert (0 <= va / 2 ^ 30 < 256) by (split; [apply Z.div_pos|apply Z.div_lt_upper_bound]; lia). rewrite Z.mod_small by lia. lia.
Qed.

Lemma walk_loop_alloc h root va : L_kmem ∉ h → 0 <= va < MAXVA → ∀ l (π : list Z) p k fl T,
  vm_ok k fl root T → T !! π = Some p → (length π + l = 2)%nat →
  ∃ r k' fl' T', walk_loop l p va true (Thread h k) = Ok r (Thread h k') ∧
    vm_ok k' fl' root T' ∧ growth k fl T k' fl' T' ∧
    (∀ va', pte_at (kmem_mem k') T' va' = pte_at (kmem_mem k) T va') ∧
    ((r = 0 ∧ fl' = []) ∨ ∃ q, T' !! (π ++ px_path l va) = Some q ∧ r = slot q (PX 0 va)).
Proof.
  intros Hh Hva. induction l as [|l IH]; intros π p k fl T Hv Hp Hl; cbn [walk_loop px_path].
  { exists (slot p (PX 0 va)), k, fl, T. rewrite app_nil_r. split_and!; [done|done|apply growth_refl|done|].
    right. by exists p. }
  set (i := PX (Z.of_nat (S l)) va). pose proof (PX_range (Z.of_nat (S l)) va) as Hi. fold i in Hi.
  rewrite (bind_Ok _ _ _ _ _ (rd64_run _ _ _)).
  rewrite (pr_link _ _ _ (vo_rep _ _ _ _ Hv) π p i) by (done || lia).
  destruct (T !! (π ++ [i])) as [q|] eqn:Eq.
  - pose proof (pr_dom _ _ _ (vo_rep _ _ _ _ Hv) _ _ Eq) as [_ Hq]. rewrite pt_link_V, pt_link_pa by done.
    destruct (IH _ _ _ _ _ Hv Eq) as (r & k' & fl' & T' & E & H'); [rewrite length_app; simpl; lia|].
    exists r, k', fl', T'. by rewrite <- app_assoc in H'.
  - change (has 0 PTE_V) with false. cbn [negb]. rewrite (bind_Ok _ _ _ _ _ (kalloc_run h k Hh)).
    destruct fl as [|q fl].
    + destruct (kalloc_wf_nil end_ _ (vo_wf _ _ _ _ Hv)) as [-> ->]. exists 0, k, [], T.
      split_and!; [done|done|apply growth_refl|done|by left].
    + destruct (kalloc_wf_cons end_ end_pos _ _ _ (vo_wf _ _ _ _ Hv)) as (-> & Hq & _).
      rewrite (proj2 (Z.eqb_neq q 0)) by (by apply page_ok_pos).
      rewrite (bind_Ok _ _ _ _ _ (upd_mem_run _ _ _)), (bind_Ok _ _ _ _ _ (upd_mem_run _ _ _)). cbn [kmem_mem kmem_freelist].
      destruct (extend k q fl root T π p i) as (Hv' & Hpte & Hmem); try done; [lia|intros ->; simpl in Hl; assert (l = 1%nat) as -> by lia; by apply PX_low|].
      destruct (IH (π ++ [i]) q _ fl (<[π ++ [i] := q]> T) Hv') as (r & k' & fl' & T' & E & Hv2 & Hg & Hp2 & Hr);
        [by rewrite lookup_insert_eq|rewrite length_app; simpl; lia|].
      exists r, k', fl', T'. rewrite <- app_assoc in Hr. split_and!; [exact E|done| | |done].
      * eapply growth_trans; [|exact Hg]. split; [by apply insert_subseteq| |exact Hmem].
        exists [q]. split; [done|]. intros p'. rewrite insert_tab by done. by rewrite list_elem_of_singleton.
      * intros va'. by rewrite Hp2, Hpte.
Qed.

Lemma walk_alloc k fl root T va h : vm_ok k fl root T → 0 <= va < MAXVA → L_kmem ∉ h →
  ∃ r k' fl' T', walk root va true (Thread h k) = Ok r (Thread h k') ∧
    vm_ok k' fl' root T' ∧ growth k fl T k' fl' T' ∧
    (∀ va', pte_at (kmem_mem k') T' va' = pte_at (kmem_mem k) T va') ∧
    ((r = 0 ∧ fl' = []) ∨ ∃ q, T' !! [PX 2 va; PX 1 va] = Some q ∧ r = pte_addr T' va ∧ r ≠ 0).
Proof.
  intros Hv Hva Hh. unfold walk, panic_if. destruct (Z.geb_spec va MAXVA); [lia|].
  rewrite (bind_Ok _ _ _ _ _ eq_refl).
  destruct (walk_loop_alloc h root va Hh Hva 2 [] root k fl T Hv) as (r & k' & fl' & T' & E & Hv' & Hg & Hpt & Hr);
    [apply Hv|done|].
  exists r, k', fl', T'. split_and!; [done..|]. destruct Hr as [Hr|(q & Hq & ->)]; [by left|right].
  exists q. cbn [px_path app] in Hq. destruct (pte_addr_pos _ _ _ va _ (vo_rep _ _ _ _ Hv') Hq) as [-> Hne]. done.
Qed.
End rep.
