(* ===== verification/VmMap.v ===== *)
(** * vm.c: [mappages] and [uvmunmap]

    The functional behaviour of the two operations on the translation that a page
    table stands for ([maps], VmTable.v). *)

From S2P Require Import Prelude CString Riscv Kalloc Vm VmTable.

(** The PTE [mappages] stores for a page. *)
Definition mk_pte (pa perm : Z) : Z := Z.lor (Z.lor (PA2PTE pa) perm) PTE_V.

Lemma mk_pte_eq pa perm : mk_pte pa perm = Z.lor (PA2PTE pa) (Z.lor perm PTE_V).
Proof. unfold mk_pte. by rewrite Z.lor_assoc. Qed.

Lemma lor_flags a b : 0 <= a < 1024 → 0 <= b < 1024 → 0 <= Z.lor a b < 1024.
Proof.
  intros Ha Hb. split; [apply Z.lor_nonneg; lia|]. change 1024 with (2 ^ 10).
  destruct (decide (Z.lor a b = 0)) as [->|Hne]; [done|].
  assert (0 <= Z.lor a b) by (apply Z.lor_nonneg; lia).
  apply Z.log2_lt_pow2; [lia|]. rewrite Z.log2_lor by lia.
  apply Z.max_lub_lt; [destruct (decide (a = 0)) as [->|]|destruct (decide (b = 0)) as [->|]];
    try (cbn; lia); apply Z.log2_lt_pow2; lia.
Qed.

Lemma mk_pte_flags perm : 0 <= perm < 1024 → 0 <= Z.lor perm PTE_V < 1024.
Proof. intros Hp. by apply lor_flags. Qed.

Lemma mk_pte_range pa perm : pa_ok pa → 0 <= perm < 1024 → 0 <= mk_pte pa perm < 2 ^ 64.
Proof. intros Hp Hf. rewrite mk_pte_eq. apply pte_range; [done|by apply mk_pte_flags]. Qed.

Lemma mk_pte_V pa perm : pa_ok pa → 0 <= perm < 1024 → has (mk_pte pa perm) PTE_V = true.
Proof. intros Hp Hf. unfold mk_pte. rewrite has_lor. apply orb_true_r. Qed.

Lemma mk_pte_pa pa perm : pa_ok pa → 0 <= perm < 1024 → PTE2PA (mk_pte pa perm) = pa.
Proof. intros Hp Hf. rewrite mk_pte_eq. apply PTE2PA_pte; [done|by apply mk_pte_flags]. Qed.

Lemma mk_pte_has pa perm b : pa_ok pa → 0 <= perm < 1024 → 0 <= b < 1024 → has (mk_pte pa perm) b = has perm b || has PTE_V b.
Proof. intros Hp Hf Hb. rewrite mk_pte_eq, has_pte by (done || by apply mk_pte_flags). apply has_lor. Qed.

(** [n] pages from [a] on: is [va] in one of them, and in which. *)
Definition in_range (a n va : Z) : Prop := a <= va < a + n * PGSIZE.
#[export] Instance in_range_dec a n va : Decision (in_range a n va).
Proof. unfold in_range. apply _. Defined.
Definition page_off (a va : Z) : Z := (va - a) / PGSIZE * PGSIZE.

(** The translation with [n] pages from [a] mapped to the pages from [pa]; and
    with [n] pages unmapped. *)
Definition map_range (f : Z → Z) (a n pa perm : Z) : Z → Z := λ va,
  if decide (in_range a n va) then mk_pte (pa + page_off a va) perm else f va.
Definition unmap_range (f : Z → Z) (a n : Z) : Z → Z := λ va,
  if decide (in_range a n va) then 0 else f va.

Lemma in_range_0 a va : ¬ in_range a 0 va.
Proof. unfold in_range. lia. Qed.

Lemma map_range_0 f a pa perm va : map_range f a 0 pa perm va = f va.
Proof. unfold map_range. by rewrite decide_False by apply in_range_0. Qed.

Lemma map_range_S f a n pa perm va : 0 <= n →
  map_range (map_range f a 1 pa perm) (a + PGSIZE) n (pa + PGSIZE) perm va = map_range f a (1 + n) pa perm va.
Proof.
  intros Hn. unfold map_range, in_range, page_off, PGSIZE.
  repeat case_decide; try lia; try done.
  - f_equal. replace (va - a) with (va - (a + 4096) + 1 * 4096) by lia. rewrite Z.div_add by lia. lia.
Qed.

Lemma unmap_range_S f a n va : 0 <= n →
  unmap_range (unmap_range f a 1) (a + PGSIZE) n va = unmap_range f a (1 + n) va.
Proof. intros Hn. unfold unmap_range, in_range, PGSIZE. repeat case_decide; lia || done. Qed.

Lemma same_page_range a va : a mod PGSIZE = 0 → same_page va a ↔ in_range a 1 va.
Proof.
  unfold same_page, in_range, PGSIZE. intros Ha.
  pose proof (Z.div_mod a 4096 ltac:(lia)). pose proof (Z.div_mod va 4096 ltac:(lia)).
  pose proof (Z.mod_pos_bound va 4096 ltac:(lia)). split; lia.
Qed.

Section map.
Context (end_ : Z) (end_pos : 0 < end_).
Implicit Types (T : gmap (list Z) Z) (m : mem) (k : kmem) (fl : list Z) (h : list lockname).

Lemma maps_ext k T f g : maps k T f → (∀ va, 0 <= va < MAXVA → f va = g va) → maps k T g.
Proof. intros Hm E va Hva. rewrite Hm by done. by apply E. Qed.

(** [*pte = v] for the PTE of the page at [a]. *)
Lemma store_pte k fl root T a p v f : vm_ok end_ k fl root T → 0 <= a < MAXVA → a mod PGSIZE = 0 →
  T !! [PX 2 a; PX 1 a] = Some p → 0 <= v < 2 ^ 64 → maps k T f →
  let k' := Kmem (store64 (kmem_mem k) (pte_addr T a) v) (kmem_freelist k) in
  vm_ok end_ k' fl root T ∧ growth end_ k fl T k' fl T ∧ maps k' T (λ va, if decide (in_range a 1 va) then v else f va).
Proof.
  intros Hv Ha Hal Hp Hr Hm k'. destruct (set_pte end_ end_pos k fl root T a p v Hv Ha Hp Hr) as (Hv' & Hpt & Hmem).
  split_and!; [done| |].
  - split; [done| |exact Hmem]. exists []. split; [done|]. intros q. rewrite elem_of_nil. tauto.
  - intros va Hva. unfold k'. cbn [kmem_mem]. rewrite Hpt by done. rewrite Hm by done.
    apply decide_ext. by apply same_page_range.
Qed.

(** What [mappages] may leave: [j] pages are mapped. *)
Record mapped k fl root T f (a j pa perm : Z) k' fl' T' : Prop := {
  mp_ok : vm_ok end_ k' fl' root T';
  mp_growth : growth end_ k fl T k' fl' T';
  mp_maps : maps k' T' (map_range f a j pa perm) }.

Lemma mappages_page h root perm a pa k fl T f :
  L_kmem ∉ h → 0 <= perm < 1024 → vm_ok end_ k fl root T → maps k T f →
  a mod PGSIZE = 0 → 0 <= a < MAXVA → pa_ok pa → has (f a) PTE_V = false →
  (∃ k' T', mapped k fl root T f a 0 pa perm k' [] T' ∧
     ∀ n last, mappages_loop (S n) root a last pa perm (Thread h k) = Ok (-1) (Thread h k')) ∨
  (∃ k' fl' T', mapped k fl root T f a 1 pa perm k' fl' T' ∧
     ∀ n last, mappages_loop (S n) root a last pa perm (Thread h k) =
       (if a =? last then ret 0 else mappages_loop n root (u64 (a + PGSIZE)) last (u64 (pa + PGSIZE)) perm) (Thread h k')).
Proof.
  intros Hh Hperm Hv Hm Ha Ha0 Hpa Hclr.
  destruct (walk_alloc end_ end_pos k fl root T a h Hv Ha0 Hh) as (r & k1 & fl1 & T1 & E & Hv1 & Hg1 & Hp1 & Hr).
  assert (maps k1 T1 f) as Hm1. { intros va Hva. rewrite Hp1. by apply Hm. }
  destruct Hr as [[-> ->]|(q & Hq & -> & Hne)].
  - left. exists k1, T1. split.
    + split; [done..|]. intros va Hva. rewrite map_range_0. by apply Hm1.
    + intros n last. cbn [mappages_loop]. by rewrite (bind_Ok _ _ _ _ _ E).
  - right. destruct (pte_addr_pos end_ end_pos _ _ _ _ _ (vo_rep _ _ _ _ _ Hv1) Hq) as [Ea _].
    assert (load64 (kmem_mem k1) (pte_addr T1 a) = f a) as El.
    { rewrite <- (Hm1 a Ha0). unfold pte_at. by rewrite Hq, Ea. }
    destruct (store_pte k1 fl1 root T1 a q (mk_pte pa perm) f) as (Hv2 & Hg2 & Hm2); try done; [by apply mk_pte_range|].
    exists (Kmem (store64 (kmem_mem k1) (pte_addr T1 a) (mk_pte pa perm)) (kmem_freelist k1)), fl1, T1. split.
    + split; [done|by eapply growth_trans|]. eapply maps_ext; [exact Hm2|]. intros va Hva. unfold map_range.
      case_decide as Hd; [|done]. unfold page_off, in_range, PGSIZE in *.
      rewrite Z.div_small by lia. by rewrite Z.add_0_r.
    + intros n last. cbn [mappages_loop]. rewrite (bind_Ok _ _ _ _ _ E). rewrite (proj2 (Z.eqb_neq _ _) Hne).
      rewrite (bind_Ok _ _ _ _ _ (rd64_run _ _ _)), El, Hclr. unfold panic_if.
      by rewrite (bind_Ok _ _ _ _ _ eq_refl), (bind_Ok _ _ _ _ _ (upd_mem_run _ _ _)).
Qed.

Lemma mapped_trans k fl root T f a n pa perm k1 fl1 T1 j k2 fl2 T2 :
  mapped k fl root T f a 1 pa perm k1 fl1 T1 → 0 <= j →
  mapped k1 fl1 root T1 (map_range f a 1 pa perm) (a + PGSIZE) j (pa + PGSIZE) perm k2 fl2 T2 →
  n = 1 + j → mapped k fl root T f a n pa perm k2 fl2 T2.
Proof.
  intros [V1 G1 M1] Hj [V2 G2 M2] ->. split; [done|by eapply growth_trans|].
  eapply maps_ext; [exact M2|]. intros va _. by apply map_range_S.
Qed.

Lemma mappages_loop_run h root perm : L_kmem ∉ h → 0 <= perm < 1024 → ∀ n a pa k fl T f last,
  vm_ok end_ k fl root T → maps k T f → a mod PGSIZE = 0 → 0 <= a → last = a + Z.of_nat n * PGSIZE →
  last + PGSIZE <= MAXVA → pa mod PGSIZE = 0 → 0 <= pa → pa + Z.of_nat (S n) * PGSIZE <= 2 ^ 54 →
  (∀ va, in_range a (Z.of_nat (S n)) va → has (f va) PTE_V = false) →
  ∃ r k' fl' T' j, mappages_loop (S n) root a last pa perm (Thread h k) = Ok r (Thread h k') ∧
    mapped k fl root T f a j pa perm k' fl' T' ∧
    ((r = 0 ∧ j = Z.of_nat (S n)) ∨ (r = -1 ∧ 0 <= j < Z.of_nat (S n) ∧ fl' = [])).
Proof.
  assert (MAXVA = 2 ^ 38) as Emax by done.
  intros Hh Hperm. induction n as [|n IH]; intros a pa k fl T f last Hv Hm Ha Ha0 El Hmax Hpa Hpa0 Hpam Hclr;
    (destruct (mappages_page h root perm a pa k fl T f) as [(k' & T' & Hmp & E)|(k' & fl' & T' & Hmp & E)];
      [done..|unfold PGSIZE in *; lia|split; [done|unfold PGSIZE in *; lia]|apply Hclr; unfold in_range, PGSIZE; lia| |]);
    try (exists (-1), k', [], T', 0; split_and!; [apply E|done|right; split_and!; (done || lia)]).
  - exists 0, k', fl', T', 1. split_and!; [|done|by left]. rewrite E. rewrite (proj2 (Z.eqb_eq a last)) by lia. done.
  - destruct (IH (a + PGSIZE) (pa + PGSIZE) k' fl' T' (map_range f a 1 pa perm) last)
      as (r & k2 & fl2 & T2 & j & E2 & Hmp2 & Hr); try (unfold PGSIZE in *; lia).
    + apply Hmp.
    + apply Hmp.
    + rewrite <- Ha. unfold PGSIZE. by rewrite <- (Z.mod_add a 1 4096).
    + rewrite <- Hpa. unfold PGSIZE. by rewrite <- (Z.mod_add pa 1 4096).
    + intros va Hva. unfold map_range, in_range, PGSIZE in *. rewrite decide_False by lia. apply Hclr. lia.
    + exists r, k2, fl2, T2, (1 + j). split_and!.
      * rewrite E. rewrite (proj2 (Z.eqb_neq a last)) by (unfold PGSIZE in *; lia).
        rewrite !u64_small by (unfold PGSIZE in *; lia). done.
      * eapply mapped_trans; [done| |done|done]. lia.
      * destruct Hr as [[-> ->]|(-> & Hj & ->)]; [left|right]; lia || (split_and!; done || lia).
Qed.

(** ** Pages change hands

    [vstep k fl T k' fl' T' ps qs]: the pages [ps] were taken from the free list,
    the pages [qs] were given back, the table grew by pages from the free list, and
    only these pages and the tables were written. *)
Record vstep k fl T k' fl' T' (ps qs : list Z) : Prop := {
  vs_sub : T ⊆ T';
  vs_pages : ∃ newt, fl ++ qs ≡ₚ newt ++ ps ++ fl' ∧ ∀ p, is_tab T' p ↔ is_tab T p ∨ p ∈ newt;
  vs_mem q x : page_ok end_ q → q ∉ fl → q ∉ qs → ¬ is_tab T q → q <= x < q + PGSIZE →
    kmem_mem k' x = kmem_mem k x }.

Lemma growth_vstep k fl T k' fl' T' : growth end_ k fl T k' fl' T' → vstep k fl T k' fl' T' [] [].
Proof.
  intros [Hs (new & E & Hn) Hm]. split; [done| |].
  - exists new. rewrite app_nil_r. cbn [app]. by rewrite E.
  - intros q x Hq Hfl _ Ht Hx. apply (Hm q x); try done. rewrite Hn. intros [?|Hin]; [done|].
    apply Hfl. rewrite E. apply elem_of_app. by left.
Qed.

Lemma vstep_refl k fl T : vstep k fl T k fl T [] [].
Proof. apply growth_vstep, growth_refl. Qed.

Lemma vstep_trans k fl T k1 fl1 T1 ps1 qs1 k2 fl2 T2 ps2 qs2 :
  vstep k fl T k1 fl1 T1 ps1 qs1 → vstep k1 fl1 T1 k2 fl2 T2 ps2 qs2 →
  vstep k fl T k2 fl2 T2 (ps1 ++ ps2) (qs1 ++ qs2).
Proof.
  intros [S1 (n1 & E1 & N1) M1] [S2 (n2 & E2 & N2) M2]. split; [by etrans| |].
  - exists (n1 ++ n2). split; [|intros p; rewrite N2, N1, elem_of_app; tauto].
    rewrite app_assoc, E1. rewrite <- !app_assoc, E2. solve_Permutation.
  - intros q x Hq Hfl Hqs Ht Hx. apply not_elem_of_app in Hqs as [Hq1 Hq2].
    assert (q ∉ n1 ++ ps1 ++ fl1) as Hn. { rewrite <- E1. apply not_elem_of_app. done. }
    rewrite !not_elem_of_app in Hn. rewrite (M2 q x); try tauto; [by apply (M1 q x)|].
    rewrite N1. tauto.
Qed.

(** Pages taken and then given back. *)
Lemma vstep_undo k fl T k1 fl1 T1 ps k2 fl2 T2 :
  vstep k fl T k1 fl1 T1 ps [] → vstep k1 fl1 T1 k2 fl2 T2 [] ps → vstep k fl T k2 fl2 T2 [] [].
Proof.
  intros H1 H2. pose proof (vstep_trans _ _ _ _ _ _ _ _ _ _ _ _ _ H1 H2) as [S (n & E & N) M].
  assert (∀ q, q ∈ ps → q ∈ fl) as Hin.
  { destruct H1 as [_ (n1 & E1 & _) _]. intros q Hq. rewrite app_nil_r in E1. rewrite E1, !elem_of_app. tauto. }
  cbn [app] in E, M. rewrite app_nil_r in E. split; [done| |].
  - exists n. split; [|done]. rewrite app_nil_r. cbn [app]. apply (Permutation_app_inv_r ps). rewrite E. solve_Permutation.
  - intros q x Hq Hfl _ Ht Hx. apply (M q x); try done. intros Hp. by apply Hfl, Hin.
Qed.

(** *** [uvmunmap] *)

(** [e] is the PTE of a page of memory at [pa]. *)
Definition leaf_of (e pa : Z) : Prop :=
  ∃ fg, 0 <= fg < 1024 ∧ e = Z.lor (PA2PTE pa) fg ∧ has fg PTE_V = true ∧ fg ≠ PTE_V.

(** The pages [ps] are mapped from [a] on; they are memory that is neither free nor
    part of the table. *)
Record owned fl T (f : Z → Z) (a : Z) (ps : list Z) : Prop := {
  ow_pte (i : nat) pa : ps !! i = Some pa → leaf_of (f (a + Z.of_nat i * PGSIZE)) pa;
  ow_nodup : NoDup ps;
  ow_page pa : pa ∈ ps → page_ok end_ pa ∧ pa ∉ fl ∧ ¬ is_tab T pa }.

Lemma leaf_of_facts e pa : page_ok end_ pa → leaf_of e pa →
  has e PTE_V = true ∧ PTE_FLAGS e ≠ PTE_V ∧ PTE2PA e = pa.
Proof.
  intros Hp (fg & Hfg & -> & HV & Hne). pose proof (page_ok_pa _ end_pos _ Hp) as Hpa.
  rewrite has_pte, PTE_FLAGS_pte, PTE2PA_pte by (done || by split). done.
Qed.

Lemma has_nonzero e b : has e b = true → e ≠ 0.
Proof. unfold has. intros H ->. by rewrite Z.land_0_l in H. Qed.

(** Where there is a leaf there is a leaf table. *)
Lemma leaf_walk_rep k root T f a : pt_rep end_ (kmem_mem k) root T → maps k T f → 0 <= a < MAXVA → f a ≠ 0 →
  ∃ p, T !! [PX 2 a; PX 1 a] = Some p ∧ pte_addr T a ≠ 0 ∧ load64 (kmem_mem k) (pte_addr T a) = f a.
Proof.
  intros Hr Hm Ha Hne. rewrite <- (Hm a Ha) in *. unfold pte_at in *.
  destruct (T !! [PX 2 a; PX 1 a]) as [p|] eqn:E; [|done]. exists p.
  destruct (pte_addr_pos end_ end_pos _ _ _ _ _ Hr E) as [-> ?]. done.
Qed.

Lemma leaf_walk k fl root T f a : vm_ok end_ k fl root T → maps k T f → 0 <= a < MAXVA → f a ≠ 0 →
  ∃ p, T !! [PX 2 a; PX 1 a] = Some p ∧ pte_addr T a ≠ 0 ∧ load64 (kmem_mem k) (pte_addr T a) = f a.
Proof. intros Hv. apply leaf_walk_rep with root, Hv. Qed.

(** [kfree] of a page that is in use. *)
Lemma kfree_vm k fl root T pa f : vm_ok end_ k fl root T → maps k T f → page_ok end_ pa → pa ∉ fl → ¬ is_tab T pa →
  vm_ok end_ (kfree_post pa k) (pa :: fl) root T ∧ maps (kfree_post pa k) T f ∧
  vstep k fl T (kfree_post pa k) (pa :: fl) T [] [pa].
Proof.
  intros [Hw Hr Hs] Hm Hp Hf Ht. destruct (kfree_wf end_ end_pos pa k fl Hw Hp Hf) as [Hw' Hmem].
  assert (∀ p x, is_tab T p → p <= x < p + PGSIZE → kmem_mem (kfree_post pa k) x = kmem_mem k x) as Hx.
  { intros p x [π Hp'] Hx. apply Hmem. pose proof (pr_dom _ _ _ _ Hr _ _ Hp') as [_ Hpo].
    apply (page_apart end_ p pa x); try done. intros ->. apply Ht. by exists π. }
  split_and!.
  - split; [done|by eapply pt_rep_frame|]. intros p Hpt. rewrite not_elem_of_cons. split; [|by apply Hs]. by intros ->.
  - intros va Hva. rewrite <- Hm by done. by eapply pte_at_frame.
  - split; [done| |].
    + exists []. split; [solve_Permutation|]. intros p. rewrite elem_of_nil. tauto.
    + intros q x Hq Hfl Hqs Htq Hxq. apply Hmem. apply (page_apart end_ q pa x); try done. set_solver.
Qed.

Lemma unmap_page_run h k fl root T f a pa : L_kmem ∉ h → vm_ok end_ k fl root T → maps k T f →
  0 <= a < MAXVA → a mod PGSIZE = 0 → leaf_of (f a) pa → page_ok end_ pa → pa ∉ fl → ¬ is_tab T pa →
  ∃ k', unmap_page end_ root a true (Thread h k) = Ok tt (Thread h k') ∧ vm_ok end_ k' (pa :: fl) root T ∧
    maps k' T (unmap_range f a 1) ∧ vstep k fl T k' (pa :: fl) T [] [pa].
Proof.
  intros Hh Hv Hm Ha Hal Hl Hpa Hfl Ht. destruct (leaf_of_facts _ _ Hpa Hl) as (HV & HF & HP).
  destruct (leaf_walk k fl root T f a Hv Hm Ha (has_nonzero _ _ HV)) as (p & Hp & Hne & El).
  destruct (kfree_vm k fl root T pa f Hv Hm Hpa Hfl Ht) as (Hv1 & Hm1 & Hs1).
  destruct (store_pte _ _ root T a p 0 f Hv1 Ha Hal Hp ltac:(lia) Hm1) as (Hv2 & Hg2 & Hm2).
  eexists. split_and!; [|exact Hv2|exact Hm2|].
  - unfold unmap_page. rewrite (bind_Ok _ _ _ _ _ (walk_find end_ end_pos _ _ _ _ _ _ Hv Ha)).
    rewrite (proj2 (Z.eqb_neq _ _) Hne), (bind_Ok _ _ _ _ _ (no_panic _ _)).
    rewrite (bind_Ok _ _ _ _ _ (rd64_run _ _ _)), El, HV, (proj2 (Z.eqb_neq _ _) HF), HP. cbn [negb].
    rewrite !(bind_Ok _ _ _ _ _ (no_panic _ _)).
    by rewrite (bind_Ok _ _ _ _ _ (kfree_run end_ pa h k Hpa Hh)), upd_mem_run.
  - apply growth_vstep in Hg2. apply (vstep_trans _ _ _ _ _ _ [] [pa] _ _ _ [] [] Hs1 Hg2).
Qed.

Lemma aligned_next a : a mod PGSIZE = 0 → (a + PGSIZE) mod PGSIZE = 0.
Proof. intros <-. unfold PGSIZE. by rewrite <- (Z.mod_add a 1 4096). Qed.

Lemma owned_tail fl T f a pa ps : owned fl T f a (pa :: ps) →
  leaf_of (f a) pa ∧ page_ok end_ pa ∧ pa ∉ fl ∧ ¬ is_tab T pa ∧
  owned (pa :: fl) T (unmap_range f a 1) (a + PGSIZE) ps.
Proof.
  intros [Hpte Hn Hpg]. apply NoDup_cons in Hn as [Hni Hn]. destruct (Hpg pa) as (? & ? & ?); [by left|].
  split_and!; [|done..|].
  - replace a with (a + Z.of_nat 0 * PGSIZE) at 1 by lia. by apply Hpte.
  - split; [|done|].
    + intros i q Hi. unfold unmap_range. rewrite decide_False by (unfold in_range, PGSIZE; lia).
      replace (a + PGSIZE + Z.of_nat i * PGSIZE) with (a + Z.of_nat (S i) * PGSIZE) by lia. by apply Hpte.
    + intros q Hq. destruct (Hpg q) as (? & ? & ?); [by right|]. split_and!; [done| |done].
      rewrite not_elem_of_cons. split; [by intros ->|done].
Qed.

Lemma uvmunmap_loop_run h root T : L_kmem ∉ h → ∀ ps a k fl f,
  vm_ok end_ k fl root T → maps k T f → 0 <= a → a mod PGSIZE = 0 → a + Z.of_nat (length ps) * PGSIZE <= MAXVA →
  owned fl T f a ps →
  ∃ k', uvmunmap_loop end_ (length ps) root a true (Thread h k) = Ok tt (Thread h k') ∧
    vm_ok end_ k' (rev ps ++ fl) root T ∧ maps k' T (unmap_range f a (Z.of_nat (length ps))) ∧
    vstep k fl T k' (rev ps ++ fl) T [] ps.
Proof.
  intros Hh. induction ps as [|pa ps IH]; intros a k fl f Hv Hm Ha Hal Hmax Ho; cbn [length uvmunmap_loop rev].
  - exists k. split_and!; [done|done| |apply vstep_refl]. eapply maps_ext; [exact Hm|]. intros va _.
    unfold unmap_range. by rewrite decide_False by apply in_range_0.
  - destruct (owned_tail _ _ _ _ _ _ Ho) as (Hl & Hpa & Hfl & Ht & Ho'). cbn [length] in Hmax.
    destruct (unmap_page_run h k fl root T f a pa) as (k1 & E1 & Hv1 & Hm1 & Hs1); try done; [unfold PGSIZE in *; lia|].
    destruct (IH (a + PGSIZE) k1 (pa :: fl) _ Hv1 Hm1) as (k2 & E2 & Hv2 & Hm2 & Hs2);
      [unfold PGSIZE; lia|by apply aligned_next|lia|done|].
    exists k2. rewrite (bind_Ok _ _ _ _ _ E1), <- app_assoc. split_and!; [done|done| |].
    + eapply maps_ext; [exact Hm2|]. intros va _. rewrite unmap_range_S by lia. f_equal. lia.
    + apply (vstep_trans _ _ _ _ _ _ [] [pa] _ _ _ [] ps Hs1 Hs2).
Qed.

Lemma uvmunmap_run h root T ps va k fl f : L_kmem ∉ h →
  vm_ok end_ k fl root T → maps k T f → 0 <= va → va mod PGSIZE = 0 → va + Z.of_nat (length ps) * PGSIZE <= MAXVA →
  owned fl T f va ps →
  ∃ k', uvmunmap end_ root va (Z.of_nat (length ps)) true (Thread h k) = Ok tt (Thread h k') ∧
    vm_ok end_ k' (rev ps ++ fl) root T ∧ maps k' T (unmap_range f va (Z.of_nat (length ps))) ∧
    vstep k fl T k' (rev ps ++ fl) T [] ps.
Proof.
  intros Hh Hv Hm Hva Hal Hmax Ho.
  destruct (uvmunmap_loop_run h root T Hh ps va k fl f Hv Hm Hva Hal Hmax Ho) as (k' & E & H').
  exists k'. split; [|done]. unfold uvmunmap. rewrite Hal. cbn [Z.eqb negb].
  rewrite (bind_Ok _ _ _ _ _ (no_panic _ _)).
  replace (Z.to_nat _) with (length ps); [done|].
  assert (MAXVA = 2 ^ 38) as Emax by done.
  rewrite u64_small by (unfold PGSIZE in *; lia). replace (va + _ - va) with (Z.of_nat (length ps) * PGSIZE) by lia.
  rewrite Z.div_mul by done. lia.
Qed.
End map.

(** ** Properties *)

Lemma mappages_run end_ (end_pos : 0 < end_) h k fl root T f va size pa perm :
  L_kmem ∉ h → vm_ok end_ k fl root T → maps k T f →
  0 <= va → va mod PGSIZE = 0 → 0 < size → size mod PGSIZE = 0 → va + size <= MAXVA →
  0 <= pa → pa mod PGSIZE = 0 → pa + size <= 2 ^ 54 → 0 <= perm < 1024 →
  (∀ x, va <= x < va + size → has (f x) PTE_V = false) →
  ∃ r k' fl' T', mappages root va size pa perm (Thread h k) = Ok r (Thread h k') ∧
    vm_ok end_ k' fl' root T' ∧ growth end_ k fl T k' fl' T' ∧
    ((r = 0 ∧ maps k' T' (map_range f va (size / PGSIZE) pa perm)) ∨
     (r = -1 ∧ fl' = [] ∧ ∃ j, 0 <= j < size / PGSIZE ∧ maps k' T' (map_range f va j pa perm))).
Proof.
  intros Hh Hv Hm Hva Hval Hsz Hszal Hmax Hpa Hpal Hpam Hperm Hclr.
  assert (size = size / PGSIZE * PGSIZE) as Es. { unfold PGSIZE in *. pose proof (Z.div_mod size 4096 ltac:(lia)). lia. }
  set (n := size / PGSIZE) in *. assert (0 < n) as Hn by (unfold PGSIZE in *; lia).
  assert (MAXVA = 2 ^ 38) as Emax by done.
  destruct (mappages_loop_run end_ end_pos h root perm Hh Hperm (Z.to_nat (n - 1)) va pa k fl T f (va + size - PGSIZE) Hv Hm)
    as (r & k' & fl' & T' & j & E & [Hv' Hg' Hm'] & Hr); try (unfold PGSIZE in *; lia); try done.
  { intros x Hx. apply Hclr. unfold in_range, PGSIZE in *. lia. }
  exists r, k', fl', T'. split_and!; [|done|done|].
  - unfold mappages. rewrite Hval, Hszal, (proj2 (Z.eqb_neq size 0)) by lia. cbn [Z.eqb negb].
    rewrite !(bind_Ok _ _ _ _ _ (no_panic _ _)). rewrite u64_small by (unfold PGSIZE in *; lia).
    rewrite <- E. f_equal. fold n. lia.
  - destruct Hr as [[-> ->]|(-> & Hj & ->)]; [left|right].
    + split; [done|]. by replace n with (Z.of_nat (S (Z.to_nat (n - 1)))) by lia.
    + split_and!; [done..|]. exists j. split; [lia|done].
Qed.

(** C15: [mappages] on a range that is not mapped yet returns 0 or -1, and nothing
    else.  On 0 exactly the pages of the range have a new translation: page [i] to
    [pa + i * PGSIZE] with the permissions and the valid bit.  On -1 the free list
    is exhausted and a prefix of the range is mapped.  In both cases the table is
    still a well-formed tree, its new pages come from the free list, and no page
    outside it was written. *)
Theorem mappages_maps end_ (end_pos : 0 < end_) h k fl root T f va size pa perm :
  L_kmem ∉ h → vm_ok end_ k fl root T → maps k T f →
  0 <= va → va mod PGSIZE = 0 → 0 < size → size mod PGSIZE = 0 → va + size <= MAXVA →
  0 <= pa → pa mod PGSIZE = 0 → pa + size <= 2 ^ 54 → 0 <= perm < 1024 →
  (∀ x, va <= x < va + size → has (f x) PTE_V = false) →
  ∃ r k' fl' T', mappages root va size pa perm (Thread h k) = Ok r (Thread h k') ∧
    vm_ok end_ k' fl' root T' ∧ growth end_ k fl T k' fl' T' ∧
    ((r = 0 ∧ maps k' T' (map_range f va (size / PGSIZE) pa perm)) ∨
     (r = -1 ∧ fl' = [] ∧ ∃ j, 0 <= j < size / PGSIZE ∧ maps k' T' (map_range f va j pa perm))).
Proof. by apply mappages_run. Qed.
