(* ===== verification/VmCopy.v ===== *)
(** * vm.c: [copyout], [copyin], [copyinstr]

    User memory as a function of the user's virtual addresses ([ubyte]), and what
    the three routines do to it. *)

From S2P Require Import Prelude CString Riscv Kalloc Vm VmTable VmMap.

Lemma put_bytes_at bs : ∀ m a x,
  put_bytes m a bs x = if decide (a <= x < a + Z.of_nat (length bs)) then default 0 (bs !! Z.to_nat (x - a)) else m x.
Proof.
  induction bs as [|c bs IH]; intros m a x; cbn [put_bytes length].
  - by rewrite decide_False by lia.
  - rewrite IH. unfold store. repeat case_decide; try lia.
    + by replace (Z.to_nat (x - a)) with (S (Z.to_nat (x - (a + 1)))) by lia.
    + assert (x = a) as -> by lia. by rewrite Z.eqb_refl, Z.sub_diag.
    + by rewrite (proj2 (Z.eqb_neq x a)) by lia.
Qed.

(** What a user program may read and write under the translation [f]. *)
Definition can_read (f : Z → Z) (va : Z) : Prop := 0 <= va < MAXVA ∧ has (f va) PTE_V = true ∧ has (f va) PTE_U = true.
Definition can_write (f : Z → Z) (va : Z) : Prop := can_read f va ∧ has (f va) PTE_W = true.

#[export] Instance can_read_dec f va : Decision (can_read f va).
Proof. unfold can_read. apply _. Defined.
#[export] Instance can_write_dec f va : Decision (can_write f va).
Proof. unfold can_write. apply _. Defined.

(** The byte of user memory at [va]. *)
Definition ubyte (m : mem) (f : Z → Z) (va : Z) : Z := m (PTE2PA (f va) + va mod PGSIZE).
Definition ubytes (m : mem) (f : Z → Z) (va : Z) (n : nat) : list Z := (λ i, ubyte m f (va + Z.of_nat i)) <$> seq 0 n.

Section copy.
Context (end_ : Z) (end_pos : 0 < end_).
Implicit Types (T : gmap (list Z) Z) (m : mem) (k : kmem) (fl : list Z) (h : list lockname).

(** User pages are memory of their own. *)
Record user_ok fl T (f : Z → Z) : Prop := {
  uo_page va : can_read f va → page_ok end_ (PTE2PA (f va)) ∧ PTE2PA (f va) ∉ fl ∧ ¬ is_tab T (PTE2PA (f va));
  uo_inj va va' : can_read f va → can_read f va' → PTE2PA (f va) = PTE2PA (f va') → same_page va va' }.

Record uspace k fl root T (f : Z → Z) : Prop := {
  us_ok : vm_ok end_ k fl root T;
  us_maps : maps k T f;
  us_user : user_ok fl T f }.

Lemma maps_page k T f va va' : maps k T f → 0 <= va < MAXVA → 0 <= va' < MAXVA → same_page va va' → f va = f va'.
Proof.
  intros Hm Ha Ha' Hs. rewrite <- !Hm by done. unfold pte_at.
  by rewrite !(PX_same va va' Hs) by lia.
Qed.

(** The start of the page of [va]. *)
Lemma down_facts va : 0 <= va < 2 ^ 64 →
  PGROUNDDOWN va = va - va mod PGSIZE ∧ same_page (PGROUNDDOWN va) va ∧ 0 <= va mod PGSIZE < PGSIZE ∧
  PGROUNDDOWN va mod PGSIZE = 0.
Proof.
  intros Hva. pose proof (PGROUNDDOWN_div va Hva) as E. unfold same_page, PGSIZE in *.
  pose proof (Z.div_mod va 4096 ltac:(lia)). pose proof (Z.mod_pos_bound va 4096 ltac:(lia)).
  split_and!; [lia| |lia..|].
  - rewrite E. rewrite Z.mul_comm. by apply Z.div_mul.
  - rewrite E. rewrite Z.mul_comm. by apply Z.mod_mul.
Qed.

Lemma down_nonneg va : 0 <= va < 2 ^ 64 → 0 <= PGROUNDDOWN va.
Proof.
  intros Hva. destruct (down_facts va Hva) as (-> & _). pose proof (Z.mod_le va PGSIZE ltac:(lia) ltac:(done)). lia.
Qed.

Lemma MAXVA_val : MAXVA = 2 ^ 38.
Proof. done. Qed.

(** *** One page *)

Lemma walkaddr_run h k fl root T f va : uspace k fl root T f → 0 <= va →
  walkaddr root va (Thread h k) = Ok (if decide (can_read f va) then PTE2PA (f va) else 0) (Thread h k).
Proof.
  intros [Hv Hm Hu] Hva. unfold walkaddr. destruct (Z.geb_spec va MAXVA).
  { rewrite decide_False; [done|]. intros [? _]. lia. }
  assert (0 <= va < MAXVA) as Hva' by lia.
  rewrite (bind_Ok _ _ _ _ _ (walk_find end_ end_pos _ _ _ _ _ _ Hv Hva')).
  pose proof (Hm va Hva') as Ef. unfold pte_addr, pte_at in *.
  destruct (T !! [PX 2 va; PX 1 va]) as [p|] eqn:E.
  - destruct (pte_addr_pos end_ end_pos _ _ _ _ _ (vo_rep _ _ _ _ _ Hv) E) as [_ Hne].
    rewrite (proj2 (Z.eqb_neq _ _) Hne), (bind_Ok _ _ _ _ _ (rd64_run _ _ _)), Ef.
    destruct (decide (can_read f va)) as [(_ & HV & HU)|Hn]; [by rewrite HV, HU|].
    destruct (has (f va) PTE_V) eqn:HV; [|done]. destruct (has (f va) PTE_U) eqn:HU; [|done]. by destruct Hn.
  - cbn [Z.eqb]. rewrite decide_False; [done|]. unfold can_read; rewrite <- Ef. by intros (_ & HV & _).
Qed.

Lemma copyout_pa_run h k fl root T f va : uspace k fl root T f → 0 <= va →
  copyout_pa root va (Thread h k) = Ok (if decide (can_write f va) then Some (PTE2PA (f va)) else None) (Thread h k).
Proof.
  intros [Hv Hm Hu] Hva. unfold copyout_pa. destruct (Z.geb_spec va MAXVA).
  { rewrite decide_False; [done|]. intros [[? _] _]. lia. }
  assert (0 <= va < MAXVA) as Hva' by lia.
  rewrite (bind_Ok _ _ _ _ _ (walk_find end_ end_pos _ _ _ _ _ _ Hv Hva')).
  pose proof (Hm va Hva') as Ef. unfold pte_addr, pte_at in *.
  destruct (T !! [PX 2 va; PX 1 va]) as [p|] eqn:E.
  - destruct (pte_addr_pos end_ end_pos _ _ _ _ _ (vo_rep _ _ _ _ _ Hv) E) as [_ Hne].
    rewrite (proj2 (Z.eqb_neq _ _) Hne), (bind_Ok _ _ _ _ _ (rd64_run _ _ _)), Ef.
    destruct (decide (can_write f va)) as [[(_ & HV & HU) HW]|Hn]; [by rewrite HV, HU, HW|].
    destruct (has (f va) PTE_V) eqn:HV; [|done]. destruct (has (f va) PTE_U) eqn:HU; [|done].
    destruct (has (f va) PTE_W) eqn:HW; [|done]. by destruct Hn.
  - cbn [Z.eqb]. rewrite decide_False; [done|]. unfold can_write, can_read; rewrite <- Ef. by intros [(_ & HV & _) _].
Qed.

(** Writing [bs] at offset [off] of the user page of [va]. *)
Lemma write_page k fl root T f va bs : uspace k fl root T f → can_read f va →
  va mod PGSIZE + Z.of_nat (length bs) <= PGSIZE →
  let m' := put_bytes (kmem_mem k) (PTE2PA (f va) + va mod PGSIZE) bs in
  uspace (Kmem m' (kmem_freelist k)) fl root T f ∧
  (∀ x, can_read f x → ubyte m' f x =
     if decide (va <= x < va + Z.of_nat (length bs)) then default 0 (bs !! Z.to_nat (x - va)) else ubyte (kmem_mem k) f x) ∧
  (∀ x, ¬ (PTE2PA (f va) <= x < PTE2PA (f va) + PGSIZE) → m' x = kmem_mem k x).
Proof.
  intros [Hv Hm Hu] Hva Hfit m'. destruct (uo_page _ _ _ Hu va Hva) as (Hpo & Hpf & Hpt).
  pose proof (Z.mod_pos_bound va PGSIZE ltac:(done)) as Hoff.
  assert (∀ x, ¬ (PTE2PA (f va) <= x < PTE2PA (f va) + PGSIZE) → m' x = kmem_mem k x) as Hout.
  { intros x Hx. unfold m'. rewrite put_bytes_at, decide_False by lia. done. }
  split_and!; [|intros x Hx|done].
  - destruct (vm_ok_frame end_ k fl root T m' _ Hv Hpo Hpf Hpt Hout) as [Hv' Hpte]. split; [done| |done].
    intros x Hx. cbn [kmem_mem]. rewrite Hpte. by apply Hm.
  - unfold ubyte, m'. rewrite put_bytes_at. pose proof (Z.mod_pos_bound x PGSIZE ltac:(done)) as Hox.
    destruct (decide (same_page x va)) as [Hs|Hs].
    + rewrite (maps_page k T f x va Hm) by (apply Hx || apply Hva || done).
      unfold same_page, PGSIZE in *. pose proof (Z.div_mod x 4096 ltac:(lia)). pose proof (Z.div_mod va 4096 ltac:(lia)).
      repeat case_decide; try lia; do 2 f_equal; lia.
    + destruct (uo_page _ _ _ Hu x Hx) as (Hpo' & _). rewrite decide_False.
      * rewrite decide_False; [done|]. intros Hr. apply Hs. unfold same_page, PGSIZE in *.
        pose proof (Z.div_mod x 4096 ltac:(lia)). pose proof (Z.div_mod va 4096 ltac:(lia)). lia.
      * intros Hr. apply Hs. apply (uo_inj _ _ _ Hu); [done..|].
        destruct (decide (PTE2PA (f x) = PTE2PA (f va))) as [|Hne]; [done|].
        exfalso. apply (page_apart end_ _ _ (PTE2PA (f x) + x mod PGSIZE) Hpo' Hpo Hne); lia.
Qed.

(** *** Loops *)

(** The fuel suffices: the pages that [len] bytes from [va] touch, and one test. *)
Definition enough (fuel : nat) (va len : Z) : Prop :=
  (0 < fuel)%nat ∧ va mod PGSIZE + len <= (Z.of_nat fuel - 1) * PGSIZE ∨ (0 < fuel)%nat ∧ len <= 0.

Lemma copy_fuel_enough va len : 0 <= len → enough (copy_fuel len) va len.
Proof.
  intros Hl. left. unfold copy_fuel, PGSIZE. pose proof (Z.mod_pos_bound va 4096 ltac:(lia)).
  pose proof (Z.div_mod len 4096 ltac:(lia)). pose proof (Z.mod_pos_bound len 4096 ltac:(lia)). lia.
Qed.

(** The part of the buffer that lies in the first page, and what is left. *)
Lemma chunk_facts fuel va len : 0 <= va < 2 ^ 64 → 0 < len → enough (S fuel) va len →
  let n := Z.min (PGSIZE - (va - PGROUNDDOWN va)) len in
  0 < n <= len ∧ va mod PGSIZE + n <= PGSIZE ∧ enough fuel (PGROUNDDOWN va + PGSIZE) (len - n) ∧
  va - PGROUNDDOWN va = va mod PGSIZE ∧ (∀ x, va <= x < va + n → same_page x va) ∧
  (n < len → PGROUNDDOWN va + PGSIZE = va + n).
Proof.
  intros Hva Hl He n. destruct (down_facts va Hva) as (Ed & Hs & Hr & Hm).
  assert (va - PGROUNDDOWN va = va mod PGSIZE) as Eo by lia.
  assert ((PGROUNDDOWN va + PGSIZE) mod PGSIZE = 0) as Hm' by (by apply aligned_next).
  unfold n. rewrite Eo. unfold enough in *. rewrite Hm'. unfold same_page, PGSIZE in *.
  split_and!; try lia. intros x Hx.
  pose proof (Z.div_mod va 4096 ltac:(lia)). pose proof (Z.div_mod x 4096 ltac:(lia)).
  pose proof (Z.mod_pos_bound x 4096 ltac:(lia)). lia.
Qed.

(** The part of user memory outside the user's pages. *)
Definition kernel_same (f : Z → Z) (m m' : mem) : Prop :=
  ∀ x, (∀ v, can_read f v → ¬ (PTE2PA (f v) <= x < PTE2PA (f v) + PGSIZE)) → m' x = m x.

(** User memory after [bs] was stored at [va]. *)
Definition ustored (f : Z → Z) (m m' : mem) (va : Z) (bs : list Z) : Prop :=
  ∀ x, can_read f x → ubyte m' f x =
    if decide (va <= x < va + Z.of_nat (length bs)) then default 0 (bs !! Z.to_nat (x - va)) else ubyte m f x.

Lemma same_page_can k T f va x : maps k T f → same_page x va → 0 <= va < MAXVA → 0 <= x →
  0 <= x < MAXVA ∧ f x = f va.
Proof.
  intros Hm Hs Ha Hx. assert (0 <= x < MAXVA) as Hr.
  { rewrite MAXVA_val in *. unfold same_page, PGSIZE in *. pose proof (Z.div_mod va 4096 ltac:(lia)).
    pose proof (Z.div_mod x 4096 ltac:(lia)). pose proof (Z.mod_pos_bound x 4096 ltac:(lia)).
    pose proof (Z.mod_pos_bound va 4096 ltac:(lia)). lia. }
  split; [done|]. by apply (maps_page k T).
Qed.

Lemma can_write_page k T f va va' : maps k T f → same_page va' va → 0 <= va' → can_write f va → can_write f va'.
Proof.
  intros Hm Hs Hx [(Ha & HV & HU) HW]. destruct (same_page_can k T f va va' Hm Hs Ha Hx) as [Hr E].
  unfold can_write, can_read. by rewrite E.
Qed.

Lemma can_read_page k T f va va' : maps k T f → same_page va' va → 0 <= va' → can_read f va → can_read f va'.
Proof.
  intros Hm Hs Hx (Ha & HV & HU). destruct (same_page_can k T f va va' Hm Hs Ha Hx) as [Hr E].
  unfold can_read. by rewrite E.
Qed.

Lemma user_pa_u64 fl T f va : user_ok fl T f → can_read f va → 0 <= va mod PGSIZE < PGSIZE →
  u64 (PTE2PA (f va) + va mod PGSIZE) = PTE2PA (f va) + va mod PGSIZE.
Proof.
  intros Hu Hc Ho. destruct (uo_page _ _ _ Hu va Hc) as ([_ Hp] & _). apply u64_small.
  unfold PHYSTOP, KERNBASE, PGSIZE in *. lia.
Qed.

Lemma ustored_app f m m1 m2 va bs1 bs2 :
  ustored f m m1 va bs1 → ustored f m1 m2 (va + Z.of_nat (length bs1)) bs2 → ustored f m m2 va (bs1 ++ bs2).
Proof.
  intros H1 H2 x Hx. rewrite (H2 x Hx), length_app. case_decide as D2.
  - rewrite decide_True by lia. rewrite lookup_app_r by lia. do 2 f_equal. lia.
  - rewrite (H1 x Hx). case_decide as D1.
    + rewrite decide_True by lia. by rewrite lookup_app_l by lia.
    + by rewrite decide_False by lia.
Qed.

Lemma copyout_loop_run h fl root T f : ∀ fuel va src k,
  uspace k fl root T f → 0 <= va < 2 ^ 64 → enough fuel va (Z.of_nat (length src)) →
  ∃ r k', copyout_loop fuel root va src (Thread h k) = Ok r (Thread h k') ∧
    uspace k' fl root T f ∧ kernel_same f (kmem_mem k) (kmem_mem k') ∧
    ((r = 0 ∧ (∀ x, va <= x < va + Z.of_nat (length src) → can_write f x) ∧ ustored f (kmem_mem k) (kmem_mem k') va src) ∨
     (r = -1 ∧ ∃ x, va <= x < va + Z.of_nat (length src) ∧ ¬ can_write f x)).
Proof.
  induction fuel as [|fuel IH]; intros va src k Hus Hva He; [unfold enough in He; lia|]. cbn [copyout_loop].
  destruct (Z.ltb_spec 0 (Z.of_nat (length src))) as [Hl|Hl].
  2: { exists 0, k. split_and!; [done|done|done|]. left. split_and!; [done|lia|].
       intros x Hx. by rewrite decide_False by lia. }
  destruct (chunk_facts fuel va _ Hva Hl He) as (Hn & Hfit & He' & Eo & Hpg & Enext).
  set (n := Z.min (PGSIZE - (va - PGROUNDDOWN va)) (Z.of_nat (length src))) in *.
  destruct (down_facts va Hva) as (Ed & Hs & Hr & Hmd). pose proof Hus as [Hv Hm Hu].
  assert (0 <= PGROUNDDOWN va) as Hd0 by (by apply down_nonneg).
  rewrite (bind_Ok _ _ _ _ _ (copyout_pa_run h k fl root T f (PGROUNDDOWN va) Hus Hd0)).
  case_decide as Hcw.
  2: { exists (-1), k. split_and!; [done|done|done|]. right. split; [done|]. exists va. split; [lia|].
       intros Hc. apply Hcw. apply (can_write_page k T f va); done. }
  assert (can_write f va) as Hcv. { apply (can_write_page k T f (PGROUNDDOWN va)); try done; lia. }
  assert (f (PGROUNDDOWN va) = f va) as Ef. { apply (maps_page k T); [done|apply Hcw|apply Hcv|done]. }
  rewrite (bind_Ok _ _ _ _ _ (upd_mem_run _ _ _)), Eo, Ef, (user_pa_u64 fl T) by (done || apply Hcv).
  set (bs := take (Z.to_nat n) src). assert (length bs = Z.to_nat n) as Elen by (unfold bs; rewrite length_take; lia).
  destruct (write_page k fl root T f va bs Hus (proj1 Hcv)) as (Hus' & Hst & Hout); [lia|].
  set (k1 := Kmem (put_bytes _ _ bs) _) in *.
  assert (0 <= PGROUNDDOWN va + PGSIZE < 2 ^ 64) as Hb.
  { destruct Hcv as [[Hb _] _]. rewrite MAXVA_val in Hb. unfold PGSIZE in *. lia. }
  rewrite (u64_small _ Hb).
  destruct (IH (PGROUNDDOWN va + PGSIZE) (drop (Z.to_nat n) src) k1 Hus' Hb) as (r & k2 & E2 & Hus2 & Hk2 & Hr2).
  { rewrite length_drop. by replace (Z.of_nat (length src - Z.to_nat n)) with (Z.of_nat (length src) - n) by lia. }
  exists r, k2. split_and!; [done|done| |].
  - intros x Hx. rewrite (Hk2 x Hx). apply Hout. apply Hx, Hcv.
  - rewrite length_drop in Hr2. destruct Hr2 as [(-> & Hall & Hst2)|(-> & x & Hx & Hnc)].
    + left. split_and!; [done| |].
      * intros x Hx. destruct (decide (x < va + n)).
        -- apply (can_write_page k T f va); try done; [by apply Hpg; lia|lia].
        -- apply Hall. rewrite Enext by lia. lia.
      * rewrite <- (take_drop (Z.to_nat n) src). fold bs. eapply ustored_app; [exact Hst|].
        destruct (decide (n < Z.of_nat (length src))).
        -- by replace (va + Z.of_nat (length bs)) with (PGROUNDDOWN va + PGSIZE) by (rewrite Enext by lia; lia).
        -- intros x Hx. rewrite (Hst2 x Hx). rewrite length_drop. by rewrite !decide_False by lia.
    + right. split; [done|]. exists x. split; [|done]. rewrite Enext in Hx by lia. lia.
Qed.

Lemma length_ubytes m f va n : length (ubytes m f va n) = n.
Proof. unfold ubytes. by rewrite length_fmap, length_seq. Qed.

Lemma ubytes_app m f va a b : ubytes m f va (a + b) = ubytes m f va a ++ ubytes m f (va + Z.of_nat a) b.
Proof.
  unfold ubytes. rewrite seq_app, fmap_app. f_equal. rewrite <- (Nat.add_0_r (0 + a)), <- fmap_add_seq, <- list_fmap_compose.
  apply list_fmap_ext. intros i x _. unfold compose. f_equal. lia.
Qed.

(** The bytes of one page. *)
Lemma page_bytes k T f va n : maps k T f → can_read f va → va mod PGSIZE + Z.of_nat n <= PGSIZE →
  bytes_at (kmem_mem k) (PTE2PA (f va) + va mod PGSIZE) n = ubytes (kmem_mem k) f va n.
Proof.
  intros Hm Hc Hn. apply list_fmap_ext. intros i x Hi. apply lookup_seq in Hi as [-> Hi]. unfold ubyte. cbn [Nat.add].
  assert (same_page (va + Z.of_nat i) va) as Hs.
  { unfold same_page, PGSIZE in *. pose proof (Z.div_mod va 4096 ltac:(lia)). pose proof (Z.mod_pos_bound va 4096 ltac:(lia)).
    pose proof (Z.div_mod (va + Z.of_nat i) 4096 ltac:(lia)). pose proof (Z.mod_pos_bound (va + Z.of_nat i) 4096 ltac:(lia)). lia. }
  pose proof (proj1 Hc) as Hva. destruct (same_page_can k T f va _ Hm Hs Hva ltac:(lia)) as [_ ->].
  f_equal. unfold same_page, PGSIZE in *. pose proof (Z.div_mod va 4096 ltac:(lia)).
  pose proof (Z.div_mod (va + Z.of_nat i) 4096 ltac:(lia)). lia.
Qed.

(** What one iteration of the reading loops finds. *)
Lemma read_page h fl root T f k va : uspace k fl root T f → 0 <= va < 2 ^ 64 →
  (walkaddr root (PGROUNDDOWN va) (Thread h k) = Ok 0 (Thread h k) ∧ ¬ can_read f va) ∨
  (∃ pa, walkaddr root (PGROUNDDOWN va) (Thread h k) = Ok pa (Thread h k) ∧ pa ≠ 0 ∧ can_read f va ∧
     0 <= PGROUNDDOWN va + PGSIZE < 2 ^ 64 ∧ u64 (pa + va mod PGSIZE) = PTE2PA (f va) + va mod PGSIZE).
Proof.
  intros Hus Hva. pose proof Hus as [Hv Hm Hu]. destruct (down_facts va Hva) as (Ed & Hs & Hr & Hmd).
  rewrite (walkaddr_run h k fl root T f (PGROUNDDOWN va) Hus) by (by apply down_nonneg). case_decide as Hc.
  - right. assert (can_read f va) as Hcv. { apply (can_read_page k T f (PGROUNDDOWN va)); done || lia. }
    assert (f (PGROUNDDOWN va) = f va) as Ef. { apply (maps_page k T); [done|apply Hc|apply Hcv|done]. }
    exists (PTE2PA (f va)). rewrite Ef. destruct (uo_page _ _ _ Hu va Hcv) as (Hpo & _).
    split_and!; [done|by eapply page_ok_pos|done|..]; [| |by eapply user_pa_u64].
    + pose proof (down_nonneg va Hva). unfold PGSIZE. lia.
    + destruct Hcv as [Hb _]. rewrite MAXVA_val in Hb. unfold PGSIZE in *. lia.
  - left. split; [done|]. intros Hcv. apply Hc. apply (can_read_page k T f va); try done. by apply down_nonneg.
Qed.

Lemma copyin_loop_run h fl root T f k : uspace k fl root T f → ∀ fuel va len dst,
  0 <= va < 2 ^ 64 → 0 <= len → enough fuel va len →
  (copyin_loop fuel root va len dst (Thread h k) = Ok (0, dst ++ ubytes (kmem_mem k) f va (Z.to_nat len)) (Thread h k) ∧
     ∀ x, va <= x < va + len → can_read f x) ∨
  (∃ bs, copyin_loop fuel root va len dst (Thread h k) = Ok (-1, bs) (Thread h k) ∧
     ∃ x, va <= x < va + len ∧ ¬ can_read f x).
Proof.
  intros Hus. pose proof Hus as [Hv Hm Hu].
  induction fuel as [|fuel IH]; intros va len dst Hva Hlen He; [unfold enough in He; lia|]. cbn [copyin_loop].
  destruct (Z.ltb_spec 0 len) as [Hl|Hl].
  2: { left. assert (len = 0) as -> by lia. rewrite app_nil_r. split; [done|lia]. }
  destruct (chunk_facts fuel va _ Hva Hl He) as (Hn & Hfit & He' & Eo & Hpg & Enext).
  set (n := Z.min (PGSIZE - (va - PGROUNDDOWN va)) len) in *.
  destruct (read_page h fl root T f k va Hus Hva) as [[E Hnc]|(pa & E & Hne & Hc & Hb & Hpa)]; rewrite (bind_Ok _ _ _ _ _ E).
  { right. exists dst. split; [done|]. exists va. split; [lia|done]. }
  rewrite (proj2 (Z.eqb_neq _ _) Hne). kstep. cbn [st kmem_mem].
  rewrite Eo, Hpa, (u64_small _ Hb), (page_bytes k T) by (done || lia).
  assert (∀ x, va <= x < va + n → can_read f x) as Hfirst.
  { intros x Hx. apply (can_read_page k T f va); try done; [by apply Hpg|lia]. }
  destruct (IH (PGROUNDDOWN va + PGSIZE) (len - n) (dst ++ ubytes (kmem_mem k) f va (Z.to_nat n)) Hb ltac:(lia) He')
    as [[E2 Hall]|(bs & E2 & x & Hx & Hnc)].
  - left. rewrite E2. split.
    + f_equal. f_equal. rewrite <- app_assoc. f_equal.
      replace (Z.to_nat len) with (Z.to_nat n + Z.to_nat (len - n))%nat by lia. rewrite ubytes_app. f_equal.
      destruct (decide (n < len)); [rewrite Enext by lia; f_equal; lia|].
      by replace (Z.to_nat (len - n)) with 0%nat by lia.
    + intros x Hx. destruct (decide (x < va + n)); [apply Hfirst; lia|]. apply Hall. rewrite Enext; lia.
  - right. exists bs. split; [done|]. exists x. split; [|done]. rewrite Enext in Hx by lia. lia.
Qed.

(** [s] is the string at [va]. *)
Record ustring (m : mem) (f : Z → Z) (va : Z) (s : list Z) : Prop := {
  ust_nonul : 0 ∉ s;
  ust_read x : va <= x <= va + Z.of_nat (length s) → can_read f x;
  ust_bytes : ubytes m f va (S (length s)) = s ++ [0] }.

Lemma scan_nul_spec n : ∀ p m,
  (∃ s, scan_nul n p m = (s ++ [0], true) ∧ 0 ∉ s ∧ (length s < n)%nat ∧ bytes_at m p (S (length s)) = s ++ [0]) ∨
  (scan_nul n p m = (bytes_at m p n, false) ∧ 0 ∉ bytes_at m p n).
Proof.
  assert (∀ m p n, bytes_at m p (S n) = m p :: bytes_at m (p + 1) n) as Ebs.
  { intros m p k. unfold bytes_at. cbn [seq fmap list_fmap]. rewrite Z.add_0_r. f_equal.
    rewrite <- fmap_S_seq, <- list_fmap_compose. apply list_fmap_ext. intros i x _. unfold compose. f_equal. lia. }
  induction n as [|n IH]; intros p m; cbn [scan_nul].
  - right. split; [done|apply not_elem_of_nil].
  - destruct (Z.eqb_spec (m p) 0) as [E0|Hne].
    + left. exists []. split_and!; [done|apply not_elem_of_nil|simpl; lia|]. cbn [length]. rewrite Ebs, E0. done.
    + destruct (IH (p + 1) m) as [(s & -> & Hs & Hl & Hb)|[-> Hs]].
      * left. exists (m p :: s). split_and!; [done|by apply not_elem_of_cons|simpl; lia|]. cbn [length]. by rewrite Ebs, Hb.
      * right. rewrite Ebs. split; [done|]. by apply not_elem_of_cons.
Qed.

Lemma copyinstr_loop_run h fl root T f k : uspace k fl root T f → ∀ fuel va max dst,
  0 <= va < 2 ^ 64 → 0 <= max → enough fuel va max →
  (∃ s, copyinstr_loop fuel root va max dst (Thread h k) = Ok (0, dst ++ s ++ [0]) (Thread h k) ∧
     ustring (kmem_mem k) f va s ∧ Z.of_nat (length s) < max) ∨
  (∃ bs, copyinstr_loop fuel root va max dst (Thread h k) = Ok (-1, bs) (Thread h k) ∧
     ∀ s, ustring (kmem_mem k) f va s → max <= Z.of_nat (length s)).
Proof.
  intros Hus. pose proof Hus as [Hv Hm Hu].
  induction fuel as [|fuel IH]; intros va max dst Hva Hlen He; [unfold enough in He; lia|]. cbn [copyinstr_loop].
  destruct (Z.ltb_spec 0 max) as [Hl|Hl].
  2: { right. eexists. split; [done|lia]. }
  destruct (chunk_facts fuel va _ Hva Hl He) as (Hn & Hfit & He' & Eo & Hpg & Enext).
  set (n := Z.min (PGSIZE - (va - PGROUNDDOWN va)) max) in *.
  destruct (read_page h fl root T f k va Hus Hva) as [[E Hnc]|(pa & E & Hne & Hc & Hb & Hpa)]; rewrite (bind_Ok _ _ _ _ _ E).
  { right. exists dst. split; [done|]. intros s [_ Hs _]. exfalso. apply Hnc, Hs. lia. }
  rewrite (proj2 (Z.eqb_neq _ _) Hne). kstep. cbn [st kmem_mem].
  rewrite Eo, Hpa, (u64_small _ Hb).
  assert (∀ x, va <= x < va + n → can_read f x) as Hfirst.
  { intros x Hx. apply (can_read_page k T f va); try done; [by apply Hpg|lia]. }
  destruct (scan_nul_spec (Z.to_nat n) (PTE2PA (f va) + va mod PGSIZE) (kmem_mem k)) as [(s & -> & Hs & Hls & Hbs)|[-> Hs]].
  - left. exists s. split; [done|]. split; [|lia]. split; [done|intros x Hx; apply Hfirst; lia|].
    by rewrite <- (page_bytes k T) by (done || lia).
  - rewrite (page_bytes k T) in * by (done || lia). set (b1 := ubytes (kmem_mem k) f va (Z.to_nat n)) in *.
    assert (length b1 = Z.to_nat n) as Elen by apply length_ubytes.
    destruct (IH (PGROUNDDOWN va + PGSIZE) (max - n) (dst ++ b1) Hb ltac:(lia) He') as [(s & E2 & [U1 U2 U3] & Hl2)|(bs & E2 & Hno)].
    + assert (PGROUNDDOWN va + PGSIZE = va + n) as En by (apply Enext; lia). rewrite En in *.
      left. exists (b1 ++ s). rewrite E2, <- !app_assoc. split; [done|]. rewrite length_app, Elen. split; [|lia].
      split; rewrite ?length_app, ?Elen.
      * by apply not_elem_of_app.
      * intros x Hx. destruct (decide (x < va + n)); [apply Hfirst; lia|]. apply U2. lia.
      * replace (S (Z.to_nat n + length s)) with (Z.to_nat n + S (length s))%nat by lia. rewrite ubytes_app, <- app_assoc.
        fold b1. f_equal. rewrite Z2Nat.id by lia. exact U3.
    + right. exists bs. split; [done|]. intros s [U1 U2 U3].
      destruct (decide (max <= Z.of_nat (length s))) as [|Hlt]; [done|exfalso].
      assert (Z.to_nat n <= length s)%nat as Hns.
      { destruct (decide (Z.to_nat n <= length s)%nat) as [|Hlt2]; [done|exfalso]. apply Hs.
        unfold b1. replace (Z.to_nat n) with (S (length s) + (Z.to_nat n - S (length s)))%nat by lia.
        rewrite ubytes_app, U3, !elem_of_app. left. right. by left. }
      assert (PGROUNDDOWN va + PGSIZE = va + n) as En by (apply Enext; lia). rewrite En in *.
      enough (max - n <= Z.of_nat (length (drop (Z.to_nat n) s))) as Hd by (rewrite length_drop in Hd; lia).
      apply Hno. split; rewrite ?length_drop.
      * intros Hd. apply U1. rewrite <- (take_drop (Z.to_nat n) s), elem_of_app. by right.
      * intros x Hx. apply U2. lia.
      * apply (f_equal (drop (Z.to_nat n))) in U3. rewrite drop_app_le in U3 by lia. rewrite <- U3.
        replace (S (length s)) with (Z.to_nat n + S (length s - Z.to_nat n))%nat by lia.
        rewrite ubytes_app, drop_app_length' by (by rewrite length_ubytes). by rewrite Z2Nat.id by lia.
Qed.
End copy.

(** ** Properties *)

(** C25: [copyout] returns 0 exactly when every byte of the destination is user
    memory that may be written, and then those bytes are the source's and every
    other byte of user memory, and all kernel memory, is as before; otherwise it
    returns -1, and kernel memory is as before.  It always returns, whatever the
    address and the length. *)
Theorem copyout_correct end_ (end_pos : 0 < end_) h k fl root T f va src :
  uspace end_ k fl root T f → 0 <= va < 2 ^ 64 →
  ∃ r k', copyout root va src (Thread h k) = Ok r (Thread h k') ∧
    uspace end_ k' fl root T f ∧ kernel_same f (kmem_mem k) (kmem_mem k') ∧
    ((r = 0 ∧ (∀ x, va <= x < va + Z.of_nat (length src) → can_write f x) ∧ ustored f (kmem_mem k) (kmem_mem k') va src) ∨
     (r = -1 ∧ ∃ x, va <= x < va + Z.of_nat (length src) ∧ ¬ can_write f x)).
Proof. intros Hus Hva. apply (copyout_loop_run end_ end_pos); [done..|]. apply copy_fuel_enough. lia. Qed.

(** What a successful [copyout] stored, [copyin] reads back; and [copyin] of
    any range returns -1 exactly when part of it is not user memory. *)
Theorem copyout_copyin end_ (end_pos : 0 < end_) h k fl root T f va src k' :
  uspace end_ k fl root T f → 0 <= va < 2 ^ 64 →
  copyout root va src (Thread h k) = Ok 0 (Thread h k') →
  copyin root va (Z.of_nat (length src)) (Thread h k') = Ok (0, src) (Thread h k') ∧
  ∀ a n, 0 <= a < 2 ^ 64 → 0 <= n →
    (∃ bs, copyin root a n (Thread h k') = Ok (-1, bs) (Thread h k')) ↔ ∃ x, a <= x < a + n ∧ ¬ can_read f x.
Proof.
  intros Hus Hva Hco. unfold copyout in Hco.
  destruct (copyout_loop_run end_ end_pos h fl root T f _ va src k Hus Hva (copy_fuel_enough va (Z.of_nat (length src)) ltac:(lia)))
    as (r & k1 & E & Hus1 & _ & Hr). rewrite E in Hco. injection Hco as -> ->.
  destruct Hr as [(_ & Hall & Hst)|[[=] _]]. split.
  - destruct (copyin_loop_run end_ end_pos h fl root T f k' Hus1 _ va (Z.of_nat (length src)) [] Hva ltac:(lia)
      (copy_fuel_enough va (Z.of_nat (length src)) ltac:(lia))) as [[E2 _]|(bs & _ & x & Hx & Hnc)].
    + unfold copyin. rewrite E2. do 2 f_equal. cbn [app]. rewrite Nat2Z.id. apply list_eq. intros i.
      destruct (decide (i < length src)%nat) as [Hi|Hi].
      * unfold ubytes. rewrite list_lookup_fmap, lookup_seq_lt by done. cbn [fmap option_fmap option_map Nat.add].
        rewrite (Hst _ (proj1 (Hall (va + Z.of_nat i) ltac:(lia)))). rewrite decide_True by lia.
        replace (Z.to_nat (va + Z.of_nat i - va)) with i by lia.
        destruct (src !! i) eqn:Ei; [done|]. apply lookup_ge_None in Ei. lia.
      * rewrite !lookup_ge_None_2; [done|lia|rewrite length_ubytes; lia].
    + destruct Hnc. by apply Hall.
  - intros a n Ha Hn.
    destruct (copyin_loop_run end_ end_pos h fl root T f k' Hus1 _ a n [] Ha Hn (copy_fuel_enough _ _ Hn))
      as [[E2 Hcr]|(bs & E2 & Hx)]; unfold copyin; rewrite E2; split.
    + intros (bs & [=]).
    + intros (x & Hx & Hnc). destruct Hnc. by apply Hcr.
    + done.
    + by eexists.
Qed.

(** [copyinstr] returns 0 exactly when a NUL-terminated string of fewer than
    [max] bytes lies in user memory at the address, and then the buffer gets that
    string and its NUL; otherwise it returns -1. *)
Theorem copyinstr_correct end_ (end_pos : 0 < end_) h k fl root T f va max :
  uspace end_ k fl root T f → 0 <= va < 2 ^ 64 → 0 <= max →
  (∃ s, copyinstr root va max (Thread h k) = Ok (0, s ++ [0]) (Thread h k) ∧
     ustring (kmem_mem k) f va s ∧ Z.of_nat (length s) < max) ∨
  (∃ bs, copyinstr root va max (Thread h k) = Ok (-1, bs) (Thread h k) ∧
     ∀ s, ustring (kmem_mem k) f va s → max <= Z.of_nat (length s)).
Proof.
  intros Hus Hva Hmax. apply (copyinstr_loop_run end_ end_pos h fl root T f k Hus _ va max [] Hva Hmax).
  by apply copy_fuel_enough.
Qed.
