(* ===== verification/VmAlloc.v ===== *)
(** * vm.c: [uvmalloc], [uvmdealloc], [uvmcopy]

    User memory grows, shrinks and is copied; on failure everything that was
    allocated is given back. *)

From S2P Require Import Prelude CString Riscv Kalloc Vm VmTable VmMap VmCopy.

Definition zero_page (m : mem) (p : Z) : Prop := ∀ x, p <= x < p + PGSIZE → m x = 0.

(** [f] with the pages [pp], each with its permissions, mapped from [a] on. *)
Definition ext (f : Z → Z) (a : Z) (pp : list (Z * Z)) : Z → Z := λ va,
  if decide (in_range a (Z.of_nat (length pp)) va)
  then let q := default (0, 0) (pp !! Z.to_nat ((va - a) / PGSIZE)) in mk_pte q.1 q.2 else f va.

Lemma ext_nil f a va : ext f a [] va = f va.
Proof. unfold ext. by rewrite decide_False by apply in_range_0. Qed.

Lemma ext_snoc f a pp p perm va :
  map_range (ext f a pp) (a + Z.of_nat (length pp) * PGSIZE) 1 p perm va = ext f a (pp ++ [(p, perm)]) va.
Proof.
  unfold map_range, ext, in_range, page_off. rewrite length_app. cbn [length].
  assert (0 < PGSIZE) as HP by done. case_decide as D1.
  - rewrite decide_True by lia. rewrite Z.div_small by lia. rewrite Z.add_0_r.
    replace ((va - a) / PGSIZE) with (Z.of_nat (length pp)).
    + rewrite Nat2Z.id, lookup_app_r, Nat.sub_diag by lia. done.
    + apply Z.div_unique with (va - a - Z.of_nat (length pp) * PGSIZE); lia.
  - case_decide as D2.
    + rewrite decide_True by lia. rewrite lookup_app_l; [done|].
      assert ((va - a) / PGSIZE < Z.of_nat (length pp)) by (apply Z.div_lt_upper_bound; lia).
      assert (0 <= (va - a) / PGSIZE) by (apply Z.div_pos; lia). lia.
    + by rewrite decide_False by lia.
Qed.

Lemma unmap_ext f a pp va : (∀ x, in_range a (Z.of_nat (length pp)) x → f x = 0) →
  unmap_range (ext f a pp) a (Z.of_nat (length pp)) va = f va.
Proof. intros Hz. unfold unmap_range, ext. case_decide; [symmetry; by apply Hz|done]. Qed.

Lemma ext_leaf f a pp (i : nat) p perm : pp !! i = Some (p, perm) →
  ext f a pp (a + Z.of_nat i * PGSIZE) = mk_pte p perm.
Proof.
  intros Hi. pose proof (lookup_lt_Some _ _ _ Hi). unfold ext. rewrite decide_True by (unfold in_range, PGSIZE; lia).
  replace (a + Z.of_nat i * PGSIZE - a) with (Z.of_nat i * PGSIZE) by lia. rewrite Z.div_mul by done.
  by rewrite Nat2Z.id, Hi.
Qed.

(** Permissions of a page of memory: readable, writable or executable. *)
Definition leaf_perm (perm : Z) : Prop := 0 <= perm < 1024 ∧ Z.lor perm PTE_V ≠ PTE_V.

Section alloc.
Context (end_ : Z) (end_pos : 0 < end_).
Implicit Types (T : gmap (list Z) Z) (m : mem) (k : kmem) (fl : list Z) (h : list lockname).

Lemma mk_pte_leaf p perm : page_ok end_ p → leaf_perm perm → leaf_of (mk_pte p perm) p.
Proof.
  intros Hp [Hr Hne]. exists (Z.lor perm PTE_V). split; [by apply mk_pte_flags|].
  split; [apply mk_pte_eq|]. split; [|done]. rewrite has_lor. apply orb_true_r.
Qed.

(** [kalloc] and a store of its whole page. *)
Lemma alloc_page k p fl root T f (g : mem → mem) : vm_ok end_ k (p :: fl) root T → maps k T f →
  (∀ m x, ¬ (p <= x < p + PGSIZE) → g m x = m x) →
  let k' := Kmem (g (kmem_mem (kalloc_post k))) (kmem_freelist (kalloc_post k)) in
  kmem_freelist k = p ∧ page_ok end_ p ∧ p ∉ fl ∧ ¬ is_tab T p ∧
  vm_ok end_ k' fl root T ∧ maps k' T f ∧ vstep end_ k (p :: fl) T k' fl T [p] [] ∧
  (∀ x, ¬ (p <= x < p + PGSIZE) → kmem_mem (kalloc_post k) x = kmem_mem k x).
Proof.
  intros [Hw Hr Hs] Hm Hg k'. destruct (kalloc_wf_cons end_ end_pos _ _ _ Hw) as (Hf & Hp & Hn & Hw' & Hm').
  assert (∀ x, ¬ (p <= x < p + PGSIZE) → kmem_mem (kalloc_post k) x = kmem_mem k x) as Ho.
  { intros x Hx. by rewrite Hm', decide_False. }
  assert (¬ is_tab T p) as Ht. { intros Ht. apply (Hs p Ht). by left. }
  assert (∀ x, ¬ (p <= x < p + PGSIZE) → kmem_mem k' x = kmem_mem k x) as Ho'.
  { intros x Hx. unfold k'. cbn [kmem_mem]. rewrite Hg by done. by apply Ho. }
  assert (∀ q x, is_tab T q → q <= x < q + PGSIZE → kmem_mem k' x = kmem_mem k x) as Hx.
  { intros q x [π Hq] Hx. apply Ho'. pose proof (pr_dom _ _ _ _ Hr _ _ Hq) as [_ Hpo].
    apply (page_apart end_ q p x); try done. intros ->. apply Ht. by exists π. }
  split_and!; try done.
  - split; [|by eapply pt_rep_frame|].
    + eapply kmem_wf_frame; [exact Hw'|exact Hp|exact Hn|]. intros x Hxx. unfold k'. by rewrite Hg.
    + intros q Hq Hin. apply (Hs q Hq). by right.
  - intros va Hva. rewrite <- Hm by done. by eapply pte_at_frame.
  - split; [done| |].
    + exists []. rewrite app_nil_r. split; [done|]. intros q. rewrite elem_of_nil. tauto.
    + intros q x Hq Hfl _ Htq Hxq. apply Ho'. apply (page_apart end_ q p x); try done. set_solver.
Qed.

(** Mapping one page of one's own. *)
Lemma map_one_page h k fl root T f a p perm : L_kmem ∉ h → vm_ok end_ k fl root T → maps k T f →
  0 <= a < MAXVA → a mod PGSIZE = 0 → page_ok end_ p → 0 <= perm < 1024 → (∀ x, in_range a 1 x → f x = 0) →
  ∃ r k' fl' T', mappages root a PGSIZE p perm (Thread h k) = Ok r (Thread h k') ∧
    vm_ok end_ k' fl' root T' ∧ growth end_ k fl T k' fl' T' ∧
    ((r = 0 ∧ maps k' T' (map_range f a 1 p perm)) ∨ (r = -1 ∧ maps k' T' f)).
Proof.
  intros Hh Hv Hm Ha Hal Hp Hperm Hz. destruct (page_ok_pa _ end_pos _ Hp) as [Hpal Hpr].
  assert (PHYSTOP <= 2 ^ 54) as HP by done. destruct Hp as [_ Hp].
  assert (a + PGSIZE <= MAXVA) as Hmax.
  { rewrite MAXVA_val in *. unfold PGSIZE in *. pose proof (Z.div_mod a 4096 ltac:(lia)). lia. }
  assert (p + PGSIZE <= 2 ^ 54) as Hp54.
  { assert (PHYSTOP = 2281701376) as EP by done. unfold PGSIZE. lia. }
  destruct (mappages_loop_run end_ end_pos h root perm Hh Hperm 0 a p k fl T f a Hv Hm Hal) as (r & k' & fl' & T' & j & E & [V G M] & Hr);
    try (unfold PGSIZE in *; lia).
  { intros va Hva. by rewrite Hz. }
  exists r, k', fl', T'. split_and!; [|done|done|].
  - unfold mappages. rewrite Hal. change (PGSIZE mod PGSIZE) with 0. change (PGSIZE =? 0) with false. cbn [Z.eqb negb].
    rewrite !(bind_Ok _ _ _ _ _ (no_panic _ _)). change (PGSIZE / PGSIZE) with 1.
    replace (u64 (a + PGSIZE - PGSIZE)) with a; [exact E|]. rewrite u64_small by (rewrite MAXVA_val in *; lia). lia.
  - destruct Hr as [[-> ->]|(-> & Hj & _)]; [by left|right]. split; [done|]. assert (j = 0) as -> by lia.
    eapply maps_ext; [exact M|]. intros va _. apply map_range_0.
Qed.

Lemma growth_keeps k fl T k' fl' T' p : growth end_ k fl T k' fl' T' → page_ok end_ p → p ∉ fl → ¬ is_tab T p →
  p ∉ fl' ∧ ¬ is_tab T' p ∧ ∀ x, p <= x < p + PGSIZE → kmem_mem k' x = kmem_mem k x.
Proof.
  intros [_ (new & E & Hn) Hm] Hp Hf Ht. rewrite E in Hf. apply not_elem_of_app in Hf as [Hf1 Hf2].
  assert (¬ is_tab T' p) as Ht' by (rewrite Hn; tauto). split_and!; [done|done|]. intros x Hx. by apply (Hm p x).
Qed.

(** *** [uvmdealloc] *)
Lemma PGROUNDUP_aligned a : 0 <= a < 2 ^ 63 → a mod PGSIZE = 0 → PGROUNDUP a = a.
Proof.
  intros Ha Hal. rewrite PGROUNDUP_div by (unfold PGSIZE; lia). unfold PGSIZE in *.
  pose proof (Z.div_mod a 4096 ltac:(lia)). replace (a + 4095) with (4095 + a / 4096 * 4096) by lia.
  rewrite Z.div_add by lia. change (4095 / 4096) with 0. lia.
Qed.

Lemma uvmdealloc_run h root T ps a k fl f : L_kmem ∉ h → vm_ok end_ k fl root T → maps k T f →
  0 <= a → a mod PGSIZE = 0 → a + Z.of_nat (length ps) * PGSIZE <= MAXVA → owned end_ fl T f a ps →
  ∃ k' r, uvmdealloc end_ root (a + Z.of_nat (length ps) * PGSIZE) a (Thread h k) = Ok r (Thread h k') ∧
    vm_ok end_ k' (rev ps ++ fl) root T ∧ maps k' T (unmap_range f a (Z.of_nat (length ps))) ∧
    vstep end_ k fl T k' (rev ps ++ fl) T [] ps.
Proof.
  intros Hh Hv Hm Ha Hal Hmax Ho. rewrite MAXVA_val in Hmax.
  assert (0 < PGSIZE) as HP by done. unfold uvmdealloc.
  assert ((a + Z.of_nat (length ps) * PGSIZE) mod PGSIZE = 0) as Hal2 by (by rewrite Z.mod_add).
  assert (length ps = 0%nat ∨ (0 < length ps)%nat) as [E0|Hpos] by lia.
  - apply nil_length_inv in E0 as ->. cbn [length]. destruct (Z.geb_spec a (a + Z.of_nat 0 * PGSIZE)); [|lia].
    exists k. eexists. split_and!; [done|done| |apply vstep_refl].
    eapply maps_ext; [exact Hm|]. intros va _. unfold unmap_range. by rewrite decide_False by apply in_range_0.
  - destruct (Z.geb_spec a (a + Z.of_nat (length ps) * PGSIZE)); [unfold PGSIZE in *; lia|].
    rewrite !PGROUNDUP_aligned by (done || unfold PGSIZE in *; lia).
    rewrite (proj2 (Z.ltb_lt _ _)) by done.
    replace (a + Z.of_nat (length ps) * PGSIZE - a) with (Z.of_nat (length ps) * PGSIZE) by lia. rewrite Z.div_mul by lia.
    assert (u64 (s32 (Z.of_nat (length ps))) = Z.of_nat (length ps)) as ->.
    { unfold s32. rewrite signed_small by (unfold PGSIZE in *; lia). apply u64_small. unfold PGSIZE in *; lia. }
    destruct (uvmunmap_run end_ end_pos h root T ps a k fl f Hh Hv Hm Ha Hal) as (k' & E & H'); [by rewrite MAXVA_val|done|].
    exists k'. eexists. rewrite (bind_Ok _ _ _ _ _ E). split; [done|]. exact H'.
Qed.

(** *** Adding pages one by one

    [grew k0 fl0 T0 f0 ... pp k fl T]: since [k0] the pages [pp] were allocated and
    mapped from [a0] on, page [i] has the contents [C i], and nothing else of
    the memory in use has changed. *)
Record grew k0 fl0 root T0 f0 (a0 : Z) (C : nat → Z → Z) (pp : list (Z * Z)) k fl T : Prop := {
  g_ok : vm_ok end_ k fl root T;
  g_maps : maps k T (ext f0 a0 pp);
  g_owned : owned end_ fl T (ext f0 a0 pp) a0 (pp.*1);
  g_step : vstep end_ k0 fl0 T0 k fl T (pp.*1) [];
  g_cont (i : nat) p j : pp.*1 !! i = Some p → 0 <= j < PGSIZE → kmem_mem k (p + j) = C i j }.

Lemma grew_start k fl root T f a C : vm_ok end_ k fl root T → maps k T f → grew k fl root T f a C [] k fl T.
Proof.
  intros Hv Hm. split; [done| | |apply vstep_refl|].
  - eapply maps_ext; [exact Hm|]. intros va _. symmetry. apply ext_nil.
  - split; [intros i pa Hi; by destruct i|apply NoDup_nil_2|]. intros pa Hpa. by apply elem_of_nil in Hpa.
  - intros i p j Hi. by destruct i.
Qed.

(** A step that does not touch the pages [pp]. *)
Lemma grew_step k0 fl0 root T0 f0 a0 C pp k fl T k' fl' T' qs :
  grew k0 fl0 root T0 f0 a0 C pp k fl T → vm_ok end_ k' fl' root T' → maps k' T' (ext f0 a0 pp) →
  vstep end_ k fl T k' fl' T' [] qs → (∀ q, q ∈ qs → q ∉ pp.*1) → vstep end_ k0 fl0 T0 k' fl' T' (pp.*1) [] →
  grew k0 fl0 root T0 f0 a0 C pp k' fl' T'.
Proof.
  intros [V M O S Cc] Hv Hm Hs Hq H0. split; [done|done| |done|].
  - destruct O as [O1 O2 O3]. split; [done|done|]. intros pa Hpa. destruct (O3 pa Hpa) as (? & Hf & Ht).
    destruct Hs as [_ (n & E & Hn) _]. cbn [app] in E.
    assert (pa ∉ n ++ fl') as Hni. { rewrite <- E. apply not_elem_of_app. split; [done|]. intros Hin. by apply (Hq pa). }
    apply not_elem_of_app in Hni. rewrite Hn. tauto.
  - intros i p j Hi Hj. rewrite <- (Cc i p j Hi Hj). destruct (ow_page _ _ _ _ _ _ O p) as (Hp & Hf & Ht);
      [by eapply list_elem_of_lookup_2|].
    apply (vs_mem _ _ _ _ _ _ _ _ _ Hs p); try done; [|lia]. intros Hin. apply (Hq p Hin). by eapply list_elem_of_lookup_2.
Qed.

Lemma add_page h k0 fl0 root T0 f0 a0 C pp k p fl T g perm :
  L_kmem ∉ h → grew k0 fl0 root T0 f0 a0 C pp k (p :: fl) T → leaf_perm perm →
  0 <= a0 → a0 mod PGSIZE = 0 → a0 + Z.of_nat (length pp) * PGSIZE < MAXVA →
  (∀ x, in_range a0 (Z.of_nat (S (length pp))) x → f0 x = 0) →
  (∀ m x, ¬ (p <= x < p + PGSIZE) → g m x = m x) →
  (∀ j, 0 <= j < PGSIZE → g (kmem_mem (kalloc_post k)) (p + j) = C (length pp) j) →
  ∃ r k2 fl2 T2,
    mappages root (a0 + Z.of_nat (length pp) * PGSIZE) PGSIZE p perm
      (Thread h (Kmem (g (kmem_mem (kalloc_post k))) (kmem_freelist (kalloc_post k)))) = Ok r (Thread h k2) ∧
    ((r = 0 ∧ grew k0 fl0 root T0 f0 a0 C (pp ++ [(p, perm)]) k2 fl2 T2) ∨
     (r = -1 ∧ kfree end_ p (Thread h k2) = Ok tt (Thread h (kfree_post p k2)) ∧
      grew k0 fl0 root T0 f0 a0 C pp (kfree_post p k2) (p :: fl2) T2)).
Proof.
  intros Hh Hg Hperm Ha0 Hal Hmax Hz Hgo Hgc. assert (0 < PGSIZE) as HP by done. pose proof Hg as [V M O S Cc].
  destruct (alloc_page k p fl root T _ g V M Hgo) as (Hkf & Hpo & Hpf & Hpt & V1 & M1 & S1 & _).
  set (k1 := Kmem (g _) _) in *.
  assert (p ∉ pp.*1) as Hpp. { intros Hin. destruct (ow_page _ _ _ _ _ _ O p Hin) as (_ & Hnf & _). apply Hnf. by left. }
  destruct (map_one_page h k1 fl root T (ext f0 a0 pp) (a0 + Z.of_nat (length pp) * PGSIZE) p perm)
    as (r & k2 & fl2 & T2 & E & V2 & G2 & Hr); try done; [lia|by rewrite Z.mod_add|apply Hperm| |].
  { intros x Hx. unfold ext, in_range in *. rewrite decide_False by lia. apply Hz. lia. }
  exists r, k2, fl2, T2. split; [done|].
  destruct (growth_keeps _ _ _ _ _ _ p G2 Hpo Hpf Hpt) as (Hpf2 & Hpt2 & Hpm). pose proof (growth_vstep end_ _ _ _ _ _ _ G2) as S2.
  pose proof (vstep_trans end_ _ _ _ _ _ _ _ _ _ _ _ _ _ S1 S2) as S12. cbn [app] in S12.
  assert (vstep end_ k0 fl0 T0 k2 fl2 T2 (pp.*1 ++ [p]) []) as S02.
  { apply (vstep_trans end_ _ _ _ _ _ _ _ _ _ _ _ _ _ S S12). }
  destruct Hr as [(-> & M2)|(-> & M2)]; [left|right]; (split; [done|]).
  - split; [done| | |by rewrite fmap_app|].
    + eapply maps_ext; [exact M2|]. intros va _. apply ext_snoc.
    + destruct O as [O1 O2 O3]. rewrite fmap_app. cbn [fmap list_fmap fst]. split.
      * intros i q Hi. apply lookup_app_Some in Hi as [Hi|[Hi1 Hi2]].
        -- destruct (O3 q) as (Hqo & _); [by eapply list_elem_of_lookup_2|].
           apply list_lookup_fmap_Some in Hi as ([q' pm] & Eq & Hi). cbn in Eq. subst q'.
           rewrite (ext_leaf _ _ _ i q pm) by (by apply lookup_app_l_Some).
           specialize (O1 i q). rewrite list_lookup_fmap, Hi in O1. rewrite (ext_leaf f0 a0 pp i q pm Hi) in O1. by apply O1.
        -- rewrite length_fmap in *. apply list_lookup_singleton_Some in Hi2 as [Ei <-]. rewrite (ext_leaf _ _ _ i p perm); [by apply mk_pte_leaf|].
           rewrite lookup_app_r by lia. by rewrite Ei.
      * apply NoDup_app. split_and!; [done| |apply NoDup_singleton]. intros q Hq. rewrite list_elem_of_singleton. by intros ->.
      * intros q Hq. apply elem_of_app in Hq as [Hq|Hq%list_elem_of_singleton]; [|by subst].
        destruct (O3 q Hq) as (Hqo & Hqf & Hqt). rewrite not_elem_of_cons in Hqf.
        destruct (growth_keeps _ _ _ _ _ _ q G2 Hqo) as (? & ? & _); [tauto|done|done].
    + intros i q j Hi Hj. rewrite fmap_app in Hi. apply lookup_app_Some in Hi as [Hi|[Hi1 Hi2]].
      * rewrite <- (Cc i q j Hi Hj). destruct (ow_page _ _ _ _ _ _ O q) as (Hqo & Hqf & Hqt); [by eapply list_elem_of_lookup_2|].
        apply (vs_mem _ _ _ _ _ _ _ _ _ S12 q); try done; [apply not_elem_of_nil|lia].
      * rewrite length_fmap in *. cbn [fmap list_fmap fst] in Hi2.
        apply list_lookup_singleton_Some in Hi2 as [Ei <-]. rewrite Hpm by lia. replace i with (length pp) by lia. by apply Hgc.
  - split; [by apply kfree_run|].
    destruct (kfree_vm end_ end_pos k2 fl2 root T2 p _ V2 M2 Hpo Hpf2 Hpt2) as (V3 & M3 & S3).
    assert (vstep end_ k (p :: fl) T (kfree_post p k2) (p :: fl2) T2 [] []) as S13 by (by apply (vstep_undo end_ _ _ _ _ _ _ [p] _ _ _ S12)).
    apply (grew_step _ _ _ _ _ _ _ _ _ _ _ _ _ _ [] Hg); try done.
    + intros q Hq. by apply elem_of_nil in Hq.
    + rewrite <- (app_nil_r (pp.*1)). apply (vstep_trans end_ _ _ _ _ _ _ _ _ _ _ _ _ _ S S13).
Qed.

(** Everything is as before, except that the table may have more pages. *)
Record undone k0 fl0 root T0 f0 k : Prop := {
  un_ex : ∃ fl T, vm_ok end_ k fl root T ∧ maps k T f0 ∧ vstep end_ k0 fl0 T0 k fl T [] [] }.

Lemma grew_undo k0 fl0 root T0 f0 a0 C pp k fl T k' :
  grew k0 fl0 root T0 f0 a0 C pp k fl T → (∀ x, in_range a0 (Z.of_nat (length pp)) x → f0 x = 0) →
  vm_ok end_ k' (rev pp.*1 ++ fl) root T → maps k' T (unmap_range (ext f0 a0 pp) a0 (Z.of_nat (length (pp.*1)))) →
  vstep end_ k fl T k' (rev pp.*1 ++ fl) T [] (pp.*1) → undone k0 fl0 root T0 f0 k'.
Proof.
  intros [V M O S Cc] Hz V' M' S'. split. exists (rev pp.*1 ++ fl), T. split_and!; [done| |by eapply vstep_undo].
  eapply maps_ext; [exact M'|]. intros va _. rewrite length_fmap. by apply unmap_ext.
Qed.

Lemma dealloc_undo h k0 fl0 root T0 f0 a0 C pp k fl T :
  L_kmem ∉ h → grew k0 fl0 root T0 f0 a0 C pp k fl T → 0 <= a0 → a0 mod PGSIZE = 0 →
  a0 + Z.of_nat (length pp) * PGSIZE <= MAXVA → (∀ x, in_range a0 (Z.of_nat (length pp)) x → f0 x = 0) →
  ∃ k' r, uvmdealloc end_ root (a0 + Z.of_nat (length pp) * PGSIZE) a0 (Thread h k) = Ok r (Thread h k') ∧
    undone k0 fl0 root T0 f0 k'.
Proof.
  intros Hh Hg Ha Hal Hmax Hz. pose proof Hg as [V M O S Cc].
  destruct (uvmdealloc_run h root T (pp.*1) a0 k fl _ Hh V M Ha Hal) as (k' & r & E & V' & M' & S'); [by rewrite length_fmap|done|].
  rewrite length_fmap in E. exists k', r. split; [done|]. by eapply grew_undo.
Qed.

(** *** [uvmalloc] *)

(** The pages that lie below [newsz], from [a] on, are not mapped. *)
Definition room (f : Z → Z) (a newsz : Z) : Prop := ∀ va, a <= va → va / PGSIZE * PGSIZE < newsz → f va = 0.

Lemma room_range f a newsz n x : room f a newsz → a mod PGSIZE = 0 → a + (n - 1) * PGSIZE < newsz → in_range a n x → f x = 0.
Proof.
  intros Hr Hal Hn Hx. unfold in_range in Hx. apply Hr; [lia|]. unfold PGSIZE in *.
  pose proof (Z.div_mod x 4096 ltac:(lia)). pose proof (Z.mod_pos_bound x 4096 ltac:(lia)). pose proof (Z.div_mod a 4096 ltac:(lia)). lia.
Qed.

Definition zeros (i : nat) (j : Z) : Z := 0.

Lemma uvmalloc_loop_run h k0 fl0 root T0 f0 old newsz xperm :
  L_kmem ∉ h → leaf_perm (Z.lor (Z.lor PTE_R PTE_U) xperm) → 0 <= old → old mod PGSIZE = 0 → newsz <= MAXVA → room f0 old newsz →
  let perm := Z.lor (Z.lor PTE_R PTE_U) xperm in
  ∀ n ps k fl T, grew k0 fl0 root T0 f0 old zeros ((λ p, (p, perm)) <$> ps) k fl T →
  old + (Z.of_nat (length ps) - 1) * PGSIZE < newsz →
  newsz <= old + Z.of_nat (length ps) * PGSIZE + Z.of_nat n * PGSIZE →
  (∃ k' fl' T' ps', uvmalloc_loop end_ n root (old + Z.of_nat (length ps) * PGSIZE) old newsz xperm (Thread h k) = Ok newsz (Thread h k') ∧
     grew k0 fl0 root T0 f0 old zeros ((λ p, (p, perm)) <$> ps') k' fl' T' ∧
     old + (Z.of_nat (length ps') - 1) * PGSIZE < newsz <= old + Z.of_nat (length ps') * PGSIZE) ∨
  (∃ k', uvmalloc_loop end_ n root (old + Z.of_nat (length ps) * PGSIZE) old newsz xperm (Thread h k) = Ok 0 (Thread h k') ∧
     undone k0 fl0 root T0 f0 k').
Proof.
  intros Hh Hperm Ho Hal Hmax Hroom perm. induction n as [|n IH]; intros ps k fl T Hg Hlo Hhi; cbn [uvmalloc_loop].
  { left. exists k, fl, T, ps. split_and!; done || lia. }
  set (pp := (λ p, (p, perm)) <$> ps) in *. assert (length pp = length ps) as Elen by (unfold pp; apply length_fmap).
  assert (0 < PGSIZE) as HP by done. rewrite MAXVA_val in Hmax.
  destruct (Z.ltb_spec (old + Z.of_nat (length ps) * PGSIZE) newsz) as [Hlt|Hge].
  2: { left. exists k, fl, T, ps. split_and!; done || lia. }
  assert (∀ x, in_range old (Z.of_nat (length pp)) x → f0 x = 0) as Hz.
  { intros x. apply (room_range f0 old newsz); [done|done|lia]. }
  assert (∀ x, in_range old (Z.of_nat (S (length pp))) x → f0 x = 0) as Hz1.
  { intros x. apply (room_range f0 old newsz); [done|done|lia]. }
  assert (old + Z.of_nat (length pp) * PGSIZE < MAXVA) as Hmax1 by (rewrite MAXVA_val; lia).
  rewrite (bind_Ok _ _ _ _ _ (kalloc_run h k Hh)). pose proof Hg as [V M O S Cc].
  destruct fl as [|p fl].
  - destruct (kalloc_wf_nil end_ _ (vo_wf _ _ _ _ _ V)) as [-> ->]. cbn [Z.eqb].
    destruct (dealloc_undo h _ _ _ _ _ _ _ _ _ _ _ Hh Hg Ho Hal ltac:(lia) Hz) as (k' & r & E & Hu).
    rewrite Elen in E. rewrite (bind_Ok _ _ _ _ _ E). right. by exists k'.
  - destruct (add_page h k0 fl0 root T0 f0 old zeros pp k p fl T (memset p 0 PGSIZE) perm Hh Hg Hperm Ho Hal)
      as (r & k2 & fl2 & T2 & E & Hr); [done|done| | |].
    { intros m x Hx. by rewrite memset_at, decide_False. }
    { intros j Hj. rewrite memset_at, decide_True by lia. done. }
    destruct (kalloc_wf_cons end_ end_pos _ _ _ (vo_wf _ _ _ _ _ V)) as (-> & Hpo & _).
    rewrite (proj2 (Z.eqb_neq p 0) (page_ok_pos end_ end_pos p Hpo)). rewrite (bind_Ok _ _ _ _ _ (upd_mem_run _ _ _)).
    rewrite Elen in E. fold perm. rewrite (bind_Ok _ _ _ _ _ E).
    destruct Hr as [(-> & Hg2)|(-> & Ek & Hg2)]; cbn [Z.eqb negb].
    + destruct (IH (ps ++ [p]) k2 fl2 T2) as [(k' & fl' & T' & ps' & E' & H')|(k' & E' & H')].
      * unfold pp in Hg2. by rewrite fmap_app.
      * rewrite length_app. cbn [length]. lia.
      * rewrite length_app. cbn [length]. lia.
      * left. exists k', fl', T', ps'. split; [|done]. rewrite <- E'. f_equal. rewrite length_app. cbn [length]. lia.
      * right. exists k'. split; [|done]. rewrite <- E'. f_equal. rewrite length_app. cbn [length]. lia.
    + rewrite (bind_Ok _ _ _ _ _ Ek).
      destruct (dealloc_undo h _ _ _ _ _ _ _ _ _ _ _ Hh Hg2 Ho Hal ltac:(lia) Hz) as (k' & r & E' & Hu).
      rewrite Elen in E'. rewrite (bind_Ok _ _ _ _ _ E'). right. by exists k'.
Qed.

(** *** [uvmcopy]

    [parent pp fo]: the parent's memory is mapped from address 0 on, to the pages
    [pp] with their flags. *)
Record parent fl To Tn (fo : Z → Z) (pp : list (Z * Z)) : Prop := {
  pa_pte (i : nat) q fg : pp !! i = Some (q, fg) →
    fo (Z.of_nat i * PGSIZE) = Z.lor (PA2PTE q) fg ∧ 0 <= fg < 1024 ∧ has fg PTE_V = true ∧ fg ≠ PTE_V;
  pa_page q : q ∈ pp.*1 → page_ok end_ q ∧ q ∉ fl ∧ ¬ is_tab Tn q;
  pa_tab p : is_tab To p → p ∉ fl ∧ ¬ is_tab Tn p }.

Lemma lor_V fg : has fg PTE_V = true → Z.lor fg PTE_V = fg.
Proof.
  unfold has, PTE_V. change (Z.shiftl 1 0) with 1. intros H. apply negb_true_iff, Z.eqb_neq in H.
  apply Z.bits_inj'. intros n Hn. rewrite Z.lor_spec. destruct (decide (n = 0)) as [->|Hne].
  - rewrite orb_true_r. destruct (Z.testbit fg 0) eqn:E; [done|]. exfalso. apply H. apply Z.bits_inj'. intros i Hi.
    rewrite Z.land_spec, Z.bits_0. destruct (decide (i = 0)) as [->|]; [by rewrite E|].
    rewrite (Z.bits_above_log2 1 i) by (simpl; lia). apply andb_false_r.
  - rewrite (Z.bits_above_log2 1 n) by (simpl; lia). apply orb_false_r.
Qed.

(** The parent's table and pages are not changed by what happens to the child. *)
Lemma parent_same k0 fl0 old To fo new Tn f0 a0 C pp0 pp k fl T :
  pt_rep end_ (kmem_mem k0) old To → maps k0 To fo → parent fl0 To Tn fo pp0 →
  grew k0 fl0 new Tn f0 a0 C pp k fl T →
  pt_rep end_ (kmem_mem k) old To ∧ maps k To fo ∧ ∀ q x, q ∈ pp0.*1 → q <= x < q + PGSIZE → kmem_mem k x = kmem_mem k0 x.
Proof.
  intros Hr Hm [Pp Pq Pt] Hg. pose proof (g_step _ _ _ _ _ _ _ _ _ _ _ Hg) as [_ _ Hs].
  assert (∀ p x, is_tab To p → p <= x < p + PGSIZE → kmem_mem k x = kmem_mem k0 x) as Hx.
  { intros p x Ht Hx. destruct (Pt p Ht) as [Hf Hn]. destruct Ht as [π Hp].
    apply (Hs p); try done; [by apply (pr_dom _ _ _ _ Hr _ _ Hp)|apply not_elem_of_nil]. }
  split_and!; [by eapply pt_rep_frame| |].
  - intros va Hva. rewrite <- Hm by done. by eapply pte_at_frame.
  - intros q x Hq Hxq. destruct (Pq q Hq) as (? & ? & ?). apply (Hs q); try done. apply not_elem_of_nil.
Qed.

Lemma unmap_undo h k0 fl0 root T0 f0 C pp k fl T :
  L_kmem ∉ h → grew k0 fl0 root T0 f0 0 C pp k fl T →
  Z.of_nat (length pp) * PGSIZE <= MAXVA → (∀ x, in_range 0 (Z.of_nat (length pp)) x → f0 x = 0) →
  ∃ k', uvmunmap end_ root 0 (Z.of_nat (length pp) * PGSIZE / PGSIZE) true (Thread h k) = Ok tt (Thread h k') ∧
    undone k0 fl0 root T0 f0 k'.
Proof.
  intros Hh Hg Hmax Hz. pose proof Hg as [V M O S Cc].
  destruct (uvmunmap_run end_ end_pos h root T (pp.*1) 0 k fl _ Hh V M) as (k' & E & V' & M' & S');
    [done|done|by rewrite length_fmap|done|].
  rewrite Z.div_mul by done. rewrite length_fmap in E. exists k'. split; [done|]. by eapply grew_undo.
Qed.

Lemma uvmcopy_loop_run h k0 fl0 old To fo new Tn f0 pp0 sz :
  L_kmem ∉ h → pt_rep end_ (kmem_mem k0) old To → maps k0 To fo → parent fl0 To Tn fo pp0 →
  Z.of_nat (length pp0) * PGSIZE < MAXVA → (∀ x, in_range 0 (Z.of_nat (length pp0)) x → f0 x = 0) →
  (Z.of_nat (length pp0) - 1) * PGSIZE < sz <= Z.of_nat (length pp0) * PGSIZE →
  let C := λ (i : nat) j, kmem_mem k0 (default 0 (pp0.*1 !! i) + j) in
  ∀ n pp k fl T, grew k0 fl0 new Tn f0 0 C pp k fl T → pp.*2 = take (length pp) (pp0.*2) →
  (length pp <= length pp0)%nat → (length pp0 <= length pp + n)%nat →
  (∃ k' fl' T' pp', uvmcopy_loop end_ n old new (Z.of_nat (length pp) * PGSIZE) sz (Thread h k) = Ok 0 (Thread h k') ∧
     grew k0 fl0 new Tn f0 0 C pp' k' fl' T' ∧ pp'.*2 = pp0.*2) ∨
  (∃ k', uvmcopy_loop end_ n old new (Z.of_nat (length pp) * PGSIZE) sz (Thread h k) = Ok (-1) (Thread h k') ∧
     undone k0 fl0 new Tn f0 k').
Proof.
  intros Hh Hro Hmo Hpar Hmax Hz0 Hsz C. induction n as [|n IH]; intros pp k fl T Hg Hfg Hle Hn; cbn [uvmcopy_loop].
  { left. exists k, fl, T, pp. split_and!; [done|done|]. rewrite Hfg. apply take_ge. rewrite length_fmap. lia. }
  assert (0 < PGSIZE) as HP by done. set (i := Z.of_nat (length pp) * PGSIZE) in *.
  destruct (Z.ltb_spec i sz) as [Hlt|Hge].
  2: { left. exists k, fl, T, pp. split_and!; [done|done|]. rewrite Hfg. apply take_ge. rewrite length_fmap. unfold i, PGSIZE in *. lia. }
  assert (length pp < length pp0)%nat as Hlen by (unfold i, PGSIZE in *; lia).
  destruct (lookup_lt_is_Some_2 pp0 _ Hlen) as [[q fg] Hq].
  destruct (pa_pte _ _ _ _ _ Hpar _ _ _ Hq) as (Hpte & Hr & HV & Hne). fold i in Hpte.
  assert (q ∈ pp0.*1) as Hqin. { apply list_elem_of_fmap. exists (q, fg). split; [done|]. by eapply list_elem_of_lookup_2. }
  destruct (pa_page _ _ _ _ _ Hpar q Hqin) as (Hqo & Hqf & Hqt). pose proof (page_ok_pa _ end_pos _ Hqo) as Hqpa.
  destruct (parent_same _ _ _ _ _ _ _ _ _ _ _ _ _ _ _ Hro Hmo Hpar Hg) as (Hro' & Hmo' & Hqs).
  assert (0 <= i < MAXVA) as Hi by (unfold i, PGSIZE in *; lia).
  assert (fo i ≠ 0) as Hfo. { rewrite Hpte. apply has_nonzero with PTE_V. by rewrite has_pte by (done || by split). }
  destruct (leaf_walk_rep end_ end_pos k old To fo i Hro' Hmo' Hi Hfo) as (pt & Hpt & Hpne & El).
  rewrite (bind_Ok _ _ _ _ _ (walk_find_rep end_ end_pos _ _ _ _ _ Hro' Hi)).
  rewrite (proj2 (Z.eqb_neq _ _) Hpne), (bind_Ok _ _ _ _ _ (no_panic _ _)).
  rewrite (bind_Ok _ _ _ _ _ (rd64_run _ _ _)), El, Hpte, has_pte, HV by (done || by split). cbn [negb].
  rewrite (bind_Ok _ _ _ _ _ (no_panic _ _)), PTE2PA_pte, PTE_FLAGS_pte by done.
  assert (∀ x, in_range 0 (Z.of_nat (length pp)) x → f0 x = 0) as Hz.
  { intros x Hx. apply Hz0. unfold in_range, PGSIZE in *. lia. }
  assert (∀ x, in_range 0 (Z.of_nat (S (length pp))) x → f0 x = 0) as Hz1.
  { intros x Hx. apply Hz0. unfold in_range, PGSIZE in *. lia. }
  rewrite (bind_Ok _ _ _ _ _ (kalloc_run h k Hh)). pose proof Hg as [V M O S Cc].
  destruct fl as [|p fl].
  - destruct (kalloc_wf_nil end_ _ (vo_wf _ _ _ _ _ V)) as [-> ->]. cbn [Z.eqb].
    destruct (unmap_undo h _ _ _ _ _ _ _ _ _ _ Hh Hg ltac:(fold i; lia) Hz) as (k' & E & Hu).
    rewrite (bind_Ok _ _ _ _ _ E). right. by exists k'.
  - destruct (kalloc_wf_cons end_ end_pos _ _ _ (vo_wf _ _ _ _ _ V)) as (Ekf & Hpo & _ & _ & Hkm).
    assert (q ≠ p) as Hqp.
    { intros ->. destruct (vs_pages _ _ _ _ _ _ _ _ _ S) as (nt & Ent & _). rewrite app_nil_r in Ent. apply Hqf.
      rewrite Ent, !elem_of_app. right. right. by left. }
    destruct (add_page h k0 fl0 new Tn f0 0 C pp k p fl T (memmove p q PGSIZE) fg Hh Hg)
      as (r & k2 & fl2 & T2 & E & Hres); [|done|done|rewrite Z.add_0_l; fold i; lia|done| | |].
    { split; [done|]. by rewrite lor_V. }
    { intros m x Hx. by rewrite memmove_at, decide_False by done. }
    { intros j Hj. rewrite memmove_at, decide_True by lia. rewrite Hkm, decide_False.
      - unfold C. rewrite list_lookup_fmap, Hq. cbn. rewrite <- Hqs with q (q + j) by (done || lia). f_equal. lia.
      - apply (page_apart end_ q p); try done. lia. }
    rewrite Ekf, (proj2 (Z.eqb_neq p 0) (page_ok_pos end_ end_pos p Hpo)).
    rewrite (bind_Ok _ _ _ _ _ (upd_mem_run _ _ _)). rewrite Z.add_0_l in E. fold i in E. rewrite (bind_Ok _ _ _ _ _ E).
    destruct Hres as [(-> & Hg2)|(-> & Ek & Hg2)]; cbn [Z.eqb negb].
    + destruct (IH (pp ++ [(p, fg)]) k2 fl2 T2 Hg2) as [(k' & fl' & T' & pp' & E' & H')|(k' & E' & H')].
      * rewrite fmap_app, Hfg, length_app. cbn [fmap list_fmap snd length].
        rewrite Nat.add_1_r. symmetry. apply take_S_r. by rewrite list_lookup_fmap, Hq.
      * rewrite length_app. cbn [length]. lia.
      * rewrite length_app. cbn [length]. lia.
      * left. exists k', fl', T', pp'. split; [|done]. rewrite <- E'. f_equal. rewrite length_app. cbn [length]. unfold i. lia.
      * right. exists k'. split; [|done]. rewrite <- E'. f_equal. rewrite length_app. cbn [length]. unfold i. lia.
    + rewrite (bind_Ok _ _ _ _ _ Ek).
      destruct (unmap_undo h _ _ _ _ _ _ _ _ _ _ Hh Hg2 ltac:(fold i; lia) Hz) as (k' & E' & Hu).
      rewrite (bind_Ok _ _ _ _ _ E'). right. by exists k'.
Qed.

Lemma uvmalloc_run h k fl root T f oldsz newsz xperm :
  L_kmem ∉ h → vm_ok end_ k fl root T → maps k T f →
  0 <= oldsz <= newsz → newsz <= MAXVA → 0 <= xperm < 1024 → room f (PGROUNDUP oldsz) newsz →
  let perm := Z.lor (Z.lor PTE_R PTE_U) xperm in
  (∃ k' fl' T' ps, uvmalloc end_ root oldsz newsz xperm (Thread h k) = Ok newsz (Thread h k') ∧
     grew k fl root T f (PGROUNDUP oldsz) zeros ((λ p, (p, perm)) <$> ps) k' fl' T' ∧
     (Z.of_nat (length ps) - 1) * PGSIZE < newsz - PGROUNDUP oldsz <= Z.of_nat (length ps) * PGSIZE) ∨
  (∃ k', uvmalloc end_ root oldsz newsz xperm (Thread h k) = Ok 0 (Thread h k') ∧ undone k fl root T f k').
Proof.
  intros Hh Hv Hm Hsz Hmax Hx Hroom perm. rewrite MAXVA_val in Hmax.
  destruct (PGROUNDUP_spec oldsz ltac:(unfold PGSIZE; lia)) as [Hal Hup]. set (old := PGROUNDUP oldsz) in *.
  assert (0 < PGSIZE) as HP by done.
  assert (leaf_perm perm) as Hperm.
  { assert (0 <= Z.lor PTE_R PTE_U < 1024) as HRU by done. split; [by apply lor_flags|].
    intros E. apply (f_equal (λ x, Z.testbit x 1)) in E. unfold perm in E. rewrite !Z.lor_spec in E. done. }
  destruct (uvmalloc_loop_run h k fl root T f old newsz xperm Hh Hperm ltac:(lia) Hal ltac:(by rewrite MAXVA_val) Hroom
    (Z.to_nat ((newsz - old) / PGSIZE + 1)) [] k fl T (grew_start _ _ _ _ _ _ _ Hv Hm))
    as [(k' & fl' & T' & ps & E & Hg & Hlen)|(k' & E & Hu)]; cbn [length] in *.
  - unfold PGSIZE in *. lia.
  - unfold PGSIZE in *. pose proof (Z.div_mod (newsz - old) 4096 ltac:(lia)). pose proof (Z.mod_pos_bound (newsz - old) 4096 ltac:(lia)). lia.
  - left. exists k', fl', T', ps. unfold uvmalloc. rewrite (proj2 (Z.ltb_ge newsz oldsz)) by lia. fold old.
    split; [by rewrite Z.add_0_r in E|]. split; [done|lia].
  - right. exists k'. split; [|done]. unfold uvmalloc. rewrite (proj2 (Z.ltb_ge newsz oldsz)) by lia. fold old.
    by rewrite Z.add_0_r in E.
Qed.

(** Pages allocated in a space without user memory are the space's user memory. *)
Lemma grew_user k0 fl0 root T0 f0 a0 C pp k fl T : grew k0 fl0 root T0 f0 a0 C pp k fl T → 0 <= a0 → a0 mod PGSIZE = 0 →
  Forall (λ q, 0 <= q.2 < 1024) pp → (∀ va, ¬ can_read f0 va) → uspace end_ k fl root T (ext f0 a0 pp).
Proof.
  intros [V M O S Cc] Ha Hal Hperm Hno. split; [done|done|].
  assert (∀ va, can_read (ext f0 a0 pp) va → ∃ (i : nat) q, pp !! i = Some q ∧ PTE2PA (ext f0 a0 pp va) = q.1 ∧
    i = Z.to_nat ((va - a0) / PGSIZE) ∧ a0 <= va) as Hfind.
  { intros va (Hva & HV & HU). unfold ext in *. case_decide as Hr; [|by destruct (Hno va)].
    unfold in_range in Hr. assert (0 < PGSIZE) as HP by done.
    assert (Z.to_nat ((va - a0) / PGSIZE) < length pp)%nat as Hi.
    { assert ((va - a0) / PGSIZE < Z.of_nat (length pp)) by (apply Z.div_lt_upper_bound; lia).
      assert (0 <= (va - a0) / PGSIZE) by (apply Z.div_pos; lia). lia. }
    destruct (lookup_lt_is_Some_2 pp _ Hi) as [[p pm] Hq]. exists (Z.to_nat ((va - a0) / PGSIZE)), (p, pm).
    rewrite Hq. cbn [from_option id default fst snd]. split_and!; [done| |done|lia]. apply mk_pte_pa.
    - apply (page_ok_pa _ end_pos). apply (ow_page _ _ _ _ _ _ O). apply list_elem_of_fmap. exists (p, pm). split; [done|].
      by eapply list_elem_of_lookup_2.
    - by apply (Forall_lookup_1 _ _ _ _ Hperm Hq). }
  split.
  - intros va Hva. destruct (Hfind va Hva) as (i & q & Hq & -> & _). apply (ow_page _ _ _ _ _ _ O).
    apply list_elem_of_fmap. exists q. split; [done|]. by eapply list_elem_of_lookup_2.
  - intros va va' Hva Hva' E. destruct (Hfind va Hva) as (i & q & Hq & Ei & Hi & Hle).
    destruct (Hfind va' Hva') as (j & q' & Hq' & Ej & Hj & Hle'). rewrite Ei, Ej in E.
    assert (i = j) as Hij.
    { eapply NoDup_lookup; [apply (ow_nodup _ _ _ _ _ _ O)| |]; rewrite list_lookup_fmap; [by rewrite Hq|by rewrite Hq', E]. }
    unfold same_page, PGSIZE in *. pose proof (Z.div_pos (va - a0) 4096 ltac:(lia) ltac:(lia)).
    pose proof (Z.div_pos (va' - a0) 4096 ltac:(lia) ltac:(lia)). assert ((va - a0) / 4096 = (va' - a0) / 4096) as Ed by lia.
    pose proof (Z.div_mod a0 4096 ltac:(lia)). rewrite Hal in *. pose proof (Z.div_mod (va - a0) 4096 ltac:(lia)).
    pose proof (Z.div_mod (va' - a0) 4096 ltac:(lia)). pose proof (Z.mod_pos_bound (va - a0) 4096 ltac:(lia)).
    pose proof (Z.mod_pos_bound (va' - a0) 4096 ltac:(lia)). pose proof (Z.div_mod va 4096 ltac:(lia)).
    pose proof (Z.div_mod va' 4096 ltac:(lia)). pose proof (Z.mod_pos_bound va 4096 ltac:(lia)). pose proof (Z.mod_pos_bound va' 4096 ltac:(lia)). lia.
Qed.

(** What happens to one table leaves the others alone. *)
Lemma vstep_other k0 fl0 T0 k fl T ps root Tn fn :
  vstep end_ k0 fl0 T0 k fl T ps [] → kmem_wf end_ k fl → vm_ok end_ k0 fl0 root Tn → maps k0 Tn fn →
  (∀ p, is_tab Tn p → ¬ is_tab T0 p) →
  vm_ok end_ k fl root Tn ∧ maps k Tn fn ∧ (∀ p, is_tab Tn p → ¬ is_tab T p).
Proof.
  intros [_ (n & E & Hn) Hs] Hw [Hw0 Hr0 Hsep] Hm Hd. rewrite app_nil_r in E.
  assert (∀ p x, is_tab Tn p → p <= x < p + PGSIZE → kmem_mem k x = kmem_mem k0 x) as Hx.
  { intros p x Ht Hx. pose proof (Hsep p Ht). pose proof (Hd p Ht). destruct Ht as [π Hp].
    apply (Hs p); try done; [by apply (pr_dom _ _ _ _ Hr0 _ _ Hp)|apply not_elem_of_nil]. }
  split_and!.
  - split; [done|by eapply pt_rep_frame|]. intros p Ht Hin. apply (Hsep p Ht). rewrite E, !elem_of_app. tauto.
  - intros va Hva. rewrite <- Hm by done. by eapply pte_at_frame.
  - intros p Ht. rewrite Hn. intros [Hp|Hp]; [by apply (Hd p)|]. apply (Hsep p Ht). rewrite E, !elem_of_app. tauto.
Qed.

(** *** [uvmcreate] *)
Lemma uvmcreate_run h k p fl : L_kmem ∉ h → kmem_wf end_ k (p :: fl) →
  ∃ k', uvmcreate (Thread h k) = Ok p (Thread h k') ∧ vm_ok end_ k' fl p {[ [] := p ]} ∧ maps k' {[ [] := p ]} (λ _, 0).
Proof.
  intros Hh Hw. destruct (kalloc_wf_cons end_ end_pos _ _ _ Hw) as (Ef & Hp & Hn & Hw' & _).
  eexists. unfold uvmcreate. rewrite (bind_Ok _ _ _ _ _ (kalloc_run h k Hh)), Ef.
  rewrite (proj2 (Z.eqb_neq p 0) (page_ok_pos end_ end_pos p Hp)), (bind_Ok _ _ _ _ _ (upd_mem_run _ _ _)).
  split; [done|]. set (k' := Kmem _ _). assert (∀ i, 0 <= i < 512 → load64 (kmem_mem k') (slot p i) = 0) as Hz.
  { intros i Hi. apply load64_zero. intros x Hx. pose proof (slot_in p i Hi). unfold k'. cbn [kmem_mem].
    by rewrite memset_at, decide_True by lia. }
  split.
  - split.
    + eapply kmem_wf_frame; [exact Hw'|exact Hp|exact Hn|]. intros x Hx. by rewrite memset_at, decide_False.
    + split.
      * apply lookup_singleton_eq.
      * intros π q [<- <-]%lookup_singleton_Some. split; [simpl; lia|done].
      * intros π π' q [<- _]%lookup_singleton_Some [<- _]%lookup_singleton_Some. done.
      * intros π q i [<- <-]%lookup_singleton_Some _ Hi. rewrite Hz by done. by rewrite lookup_singleton_ne by done.
      * intros π i q [E _]%lookup_singleton_Some. by destruct π.
      * by intros i π q [E _]%lookup_singleton_Some.
    + by intros q [π [_ <-]%lookup_singleton_Some].
  - intros va _. unfold pte_at. by rewrite lookup_singleton_ne by done.
Qed.
End alloc.

(** ** Properties *)

(** C29: growing a process from [oldsz] to [newsz] returns [newsz] or 0.  On
    [newsz] exactly the pages between the two sizes are new: each is a zeroed page
    of its own from the free list, mapped readable for the user with the extra
    permissions.  On 0 no translation has changed and every page that was taken
    is free again, except page-table pages.  Memory in use is never written. *)
Theorem uvmalloc_grows end_ (end_pos : 0 < end_) h k fl root T f oldsz newsz xperm :
  L_kmem ∉ h → vm_ok end_ k fl root T → maps k T f →
  0 <= oldsz <= newsz → newsz <= MAXVA → 0 <= xperm < 1024 → room f (PGROUNDUP oldsz) newsz →
  let perm := Z.lor (Z.lor PTE_R PTE_U) xperm in
  (∃ k' fl' T' ps, uvmalloc end_ root oldsz newsz xperm (Thread h k) = Ok newsz (Thread h k') ∧
     vm_ok end_ k' fl' root T' ∧ maps k' T' (ext f (PGROUNDUP oldsz) ((λ p, (p, perm)) <$> ps)) ∧
     (Z.of_nat (length ps) - 1) * PGSIZE < newsz - PGROUNDUP oldsz <= Z.of_nat (length ps) * PGSIZE ∧
     vstep end_ k fl T k' fl' T' ps [] ∧ NoDup ps ∧ Forall (zero_page (kmem_mem k')) ps) ∨
  (∃ k', uvmalloc end_ root oldsz newsz xperm (Thread h k) = Ok 0 (Thread h k') ∧ undone end_ k fl root T f k').
Proof.
  intros Hh Hv Hm Hsz Hmax Hx Hroom perm.
  destruct (uvmalloc_run end_ end_pos h k fl root T f oldsz newsz xperm Hh Hv Hm Hsz Hmax Hx Hroom)
    as [(k' & fl' & T' & ps & E & [V M O S C] & Hlen)|Hu]; [left|by right].
  assert ((((λ p, (p, perm)) <$> ps).*1) = ps) as Efst.
  { rewrite <- list_fmap_compose. by apply list_fmap_id. }
  fold perm in M, O, S, C. rewrite Efst in S, C. destruct O as [_ O2 _]. rewrite Efst in O2.
  exists k', fl', T', ps. split_and!; [done|done|done|lia|lia|done|done|].
  apply Forall_lookup. intros i p Hi x Hxp. specialize (C i p (x - p) Hi ltac:(lia)).
  by replace (p + (x - p)) with x in C by lia.
Qed.

Lemma uvmcopy_run end_ (end_pos : 0 < end_) h k fl old To fo new Tn fn pp sz :
  L_kmem ∉ h → vm_ok end_ k fl new Tn → maps k Tn fn → pt_rep end_ (kmem_mem k) old To → maps k To fo →
  parent end_ fl To Tn fo pp → Z.of_nat (length pp) * PGSIZE < MAXVA →
  (Z.of_nat (length pp) - 1) * PGSIZE < sz <= Z.of_nat (length pp) * PGSIZE →
  (∀ x, in_range 0 (Z.of_nat (length pp)) x → fn x = 0) →
  (∃ k' fl' T' pp', uvmcopy end_ old new sz (Thread h k) = Ok 0 (Thread h k') ∧
     vm_ok end_ k' fl' new T' ∧ maps k' T' (ext fn 0 pp') ∧ pp'.*2 = pp.*2 ∧ vstep end_ k fl Tn k' fl' T' (pp'.*1) [] ∧
     (∀ (i : nat) p q j, pp'.*1 !! i = Some p → pp.*1 !! i = Some q → 0 <= j < PGSIZE →
        kmem_mem k' (p + j) = kmem_mem k (q + j) ∧ kmem_mem k' (q + j) = kmem_mem k (q + j)) ∧
     pt_rep end_ (kmem_mem k') old To ∧ maps k' To fo) ∨
  (∃ k', uvmcopy end_ old new sz (Thread h k) = Ok (-1) (Thread h k') ∧ undone end_ k fl new Tn fn k').
Proof.
  intros Hh Hv Hm Hro Hmo Hpar Hmax Hsz Hz.
  pose proof (grew_start end_ k fl new Tn fn 0 (λ (i : nat) j, kmem_mem k (default 0 (pp.*1 !! i) + j)) Hv Hm) as Hg.
  destruct (uvmcopy_loop_run end_ end_pos h k fl old To fo new Tn fn pp sz Hh Hro Hmo Hpar Hmax Hz Hsz
    (Z.to_nat (sz / PGSIZE + 1)) [] k fl Tn Hg)
    as [(k' & fl' & T' & pp' & E & Hg' & Hfg)|(k' & E & Hu)]; cbn [length] in *; [done|lia| | |].
  - unfold PGSIZE in *. pose proof (Z.div_mod sz 4096 ltac:(lia)). pose proof (Z.mod_pos_bound sz 4096 ltac:(lia)). lia.
  - left. exists k', fl', T', pp'. destruct (parent_same _ _ _ _ _ _ _ _ _ _ _ _ _ _ _ _ Hro Hmo Hpar Hg') as (Hro' & Hmo' & Hsame).
    pose proof Hg' as [V M O S C]. split_and!; [exact E|done..| |done|done].
    intros i p q j Hp Hq Hj. split.
    + rewrite (C i p j Hp Hj). by rewrite Hq.
    + apply (Hsame q); [by eapply list_elem_of_lookup_2|lia].
  - right. exists k'. split; [exact E|done].
Qed.

(** C14: [uvmcopy] returns 0 or -1.  On 0 the child has, at the parent's addresses
    and with the parent's flags, pages of its own that hold the same bytes as the
    parent's; on -1 the child's translation is as before and all pages that were
    taken for its memory are free again.  The parent's memory and table are not
    changed in either case. *)
Theorem uvmcopy_copies end_ (end_pos : 0 < end_) h k fl old To fo new Tn fn pp sz :
  L_kmem ∉ h → vm_ok end_ k fl new Tn → maps k Tn fn → pt_rep end_ (kmem_mem k) old To → maps k To fo →
  parent end_ fl To Tn fo pp → Z.of_nat (length pp) * PGSIZE < MAXVA →
  (Z.of_nat (length pp) - 1) * PGSIZE < sz <= Z.of_nat (length pp) * PGSIZE →
  (∀ x, in_range 0 (Z.of_nat (length pp)) x → fn x = 0) →
  (∃ k' fl' T' pp', uvmcopy end_ old new sz (Thread h k) = Ok 0 (Thread h k') ∧
     vm_ok end_ k' fl' new T' ∧ maps k' T' (ext fn 0 pp') ∧ pp'.*2 = pp.*2 ∧ vstep end_ k fl Tn k' fl' T' (pp'.*1) [] ∧
     (∀ (i : nat) p q j, pp'.*1 !! i = Some p → pp.*1 !! i = Some q → 0 <= j < PGSIZE →
        kmem_mem k' (p + j) = kmem_mem k (q + j) ∧ kmem_mem k' (q + j) = kmem_mem k (q + j)) ∧
     pt_rep end_ (kmem_mem k') old To ∧ maps k' To fo) ∨
  (∃ k', uvmcopy end_ old new sz (Thread h k) = Ok (-1) (Thread h k') ∧ undone end_ k fl new Tn fn k').
Proof. by apply uvmcopy_run. Qed.
