(* ===== verification/VmFree.v ===== *)
(** * vm.c: giving an address space back

    [uvmfree] and [freewalk]: every page of the process and every page of its table goes
    back to the free list, once. *)

From S2P Require Import Prelude CString Riscv Kalloc Vm VmTable VmMap VmAlloc.

Section free.
Context (end_ : Z) (end_pos : 0 < end_).
Implicit Types (T : gmap (list Z) Z) (m : mem) (k : kmem) (fl : list Z) (h : list lockname) (π ρ : list Z).

(** The tables at [π] and below. *)
Definition below T π (q : Z) : Prop := ∃ ρ, T !! (π ++ ρ) = Some q.

(** The pages of [P] went to the free list, and no other page in use was written. *)
Record handed (P : Z → Prop) k fl k' fl' : Prop := {
  hd_wf : kmem_wf end_ k' fl';
  hd_list : ∃ qs, fl' ≡ₚ qs ++ fl ∧ ∀ q, q ∈ qs ↔ P q;
  hd_mem q x : page_ok end_ q → q ∉ fl → ¬ P q → q <= x < q + PGSIZE → kmem_mem k' x = kmem_mem k x }.

Lemma handed_ext (P Q : Z → Prop) k fl k' fl' : (∀ q, P q ↔ Q q) → handed P k fl k' fl' → handed Q k fl k' fl'.
Proof.
  intros E [W (qs & L & M) F]. split; [done| |].
  - exists qs. split; [done|]. intros q. by rewrite <- E.
  - intros q x Hq Hf HQ. apply F; [done|done|]. by rewrite E.
Qed.

Lemma handed_in P k fl k' fl' q : handed P k fl k' fl' → q ∈ fl' ↔ P q ∨ q ∈ fl.
Proof. intros [_ (qs & L & M) _]. by rewrite L, elem_of_app, M. Qed.

Lemma handed_trans P Q k fl k1 fl1 k2 fl2 : handed P k fl k1 fl1 → handed Q k1 fl1 k2 fl2 → handed (λ q, P q ∨ Q q) k fl k2 fl2.
Proof.
  intros [W1 (q1 & L1 & M1) F1] [W2 (q2 & L2 & M2) F2]. split; [done| |].
  - exists (q2 ++ q1). split; [by rewrite L2, L1, app_assoc|]. intros q. rewrite elem_of_app, M1, M2. tauto.
  - intros q x Hq Hf Hn Hx. rewrite (F2 q x), (F1 q x); try tauto. rewrite L1, elem_of_app, M1. tauto.
Qed.

Lemma kfree_handed h k fl p : kmem_wf end_ k fl → page_ok end_ p → p ∉ fl → L_kmem ∉ h →
  ∃ k', kfree end_ p (Thread h k) = Ok tt (Thread h k') ∧ handed (λ q, q = p) k fl k' (p :: fl).
Proof.
  intros Hw Hp Hf Hh. destruct (kfree_wf end_ end_pos p k fl Hw Hp Hf) as [Hw' Hm]. exists (kfree_post p k). split; [by apply kfree_run|]. split; [done| |].
  - exists [p]. split; [done|]. intros q. apply list_elem_of_singleton.
  - intros q x Hq _ Hne Hx. apply Hm. by apply (page_apart end_ q p x).
Qed.

(** ** The tree *)

Section walk.
Context (m0 : mem) (root : Z) T (Hrep : pt_rep end_ m0 root T).

Lemma prefix_in ρ : ∀ π q, T !! (π ++ ρ) = Some q → is_Some (T !! π).
Proof.
  induction ρ as [|i ρ IH] using rev_ind; intros π q E; [rewrite app_nil_r in E; by eexists|].
  rewrite app_assoc in E. apply (pr_parent _ _ _ _ Hrep) in E as [_ [r E]]. by eapply IH.
Qed.

Lemma index_in π i ρ q : T !! (π ++ i :: ρ) = Some q → 0 <= i < 512 ∧ is_Some (T !! (π ++ [i])).
Proof.
  intros E. assert (is_Some (T !! (π ++ [i]))) as [r Hr] by (apply (prefix_in ρ _ q); by rewrite <- app_assoc).
  split; [by apply (pr_parent _ _ _ _ Hrep) in Hr as [? _]|by eexists].
Qed.

Lemma below_split π q p : T !! π = Some p → below T π q ↔ q = p ∨ ∃ i ρ, T !! (π ++ i :: ρ) = Some q.
Proof.
  intros Hp. split.
  - intros [[|i ρ] E]; [rewrite app_nil_r in E; left; congruence|right; by exists i, ρ].
  - intros [-> | (i & ρ & E)]; [exists []; by rewrite app_nil_r|by exists (i :: ρ)].
Qed.

(** What the walk has freed before the slot [j] of the table [p] at [π]. *)
Definition children π (j q : Z) : Prop := ∃ i ρ, i < j ∧ T !! (π ++ i :: ρ) = Some q.

Lemma children_S π j q : children π (j + 1) q ↔ children π j q ∨ below T (π ++ [j]) q.
Proof.
  split.
  - intros (i & ρ & Hi & E). destruct (decide (i = j)) as [-> | ]; [right; exists ρ; by rewrite <- app_assoc|left; exists i, ρ; split; [lia|done]].
  - intros [(i & ρ & Hi & E)|[ρ E]]; [exists i, ρ; split; [lia|done]|]. rewrite <- app_assoc in E. exists j, ρ. split; [lia|done].
Qed.

Lemma children_self π p j : T !! π = Some p → ¬ children π j p.
Proof. intros Hp (i & ρ & _ & E). pose proof (pr_inj _ _ _ _ Hrep _ _ _ E Hp) as F. apply (f_equal length) in F. rewrite length_app in F. cbn in F. lia. Qed.

Lemma children_below π j q : children π j q → ¬ below T (π ++ [j]) q.
Proof.
  intros (i & ρ & Hi & E) [ρ' E']. rewrite <- app_assoc in E'. pose proof (pr_inj _ _ _ _ Hrep _ _ _ E E') as F. apply app_inv_head in F. injection F. lia.
Qed.

(** The walk is at the slot [j] of [p]: the tables below the slots before are free, the
    other slots are as they were. *)
Record walked (π : list Z) (p : Z) k0 fl0 (j : Z) k fl : Prop := {
  wk_wf : kmem_wf end_ k fl;
  wk_list : ∃ qs, fl ≡ₚ qs ++ fl0 ∧ ∀ q, q ∈ qs ↔ children π j q;
  wk_mem q x : page_ok end_ q → q ∉ fl0 → q ≠ p → ¬ children π j q → q <= x < q + PGSIZE → kmem_mem k x = kmem_mem k0 x;
  wk_slot i : j <= i < 512 → load64 (kmem_mem k) (slot p i) = load64 m0 (slot p i) }.

(** The tables at [π] and below are as they were and not free. *)
Definition intact π k fl : Prop := ∀ q, below T π q → q ∉ fl ∧ ∀ x, q <= x < q + PGSIZE → kmem_mem k x = m0 x.

(** No leaf is mapped any more. *)
Hypothesis Hleaf : ∀ π p i, T !! π = Some p → length π = 2%nat → 0 <= i < 512 → load64 m0 (slot p i) = 0.

Lemma page_in π q : T !! π = Some q → page_ok end_ q.
Proof. intros E. by apply (pr_dom _ _ _ _ Hrep) in E as [_ ?]. Qed.

Lemma walked_skip π p k0 fl0 j k fl : T !! (π ++ [j]) = None → walked π p k0 fl0 j k fl → walked π p k0 fl0 (j + 1) k fl.
Proof.
  intros Hn [W (qs & L & M) F S]. assert (∀ q, children π (j + 1) q ↔ children π j q) as E.
  { intros q. rewrite children_S. split; [|by left]. intros [?|[ρ Hρ]]; [done|]. apply prefix_in in Hρ as [r Hr]. congruence. }
  split; [done| | |].
  - exists qs. split; [done|]. intros q. by rewrite E.
  - intros q x Hq Hf Hne Hc. apply F; [done|done|done|]. by rewrite <- E.
  - intros i Hi. apply S. lia.
Qed.

(** The table of slot [j] goes, and the slot is cleared. *)
Lemma walked_child π p k0 fl0 j k fl k1 fl1 : T !! π = Some p → p ∉ fl0 → 0 <= j < 512 → walked π p k0 fl0 j k fl → handed (below T (π ++ [j])) k fl k1 fl1 →
  walked π p k0 fl0 (j + 1) (Kmem (store64 (kmem_mem k1) (slot p j) 0) (kmem_freelist k1)) fl1.
Proof.
  intros Hp Hpf Hj [W (qs & L & M) F S] [W1 (q1 & L1 & M1) F1]. pose proof (page_in _ _ Hp) as Hpo. pose proof (slot_in p j Hj) as Hsl.
  assert (¬ below T (π ++ [j]) p) as Hpb.
  { intros [ρ E]. pose proof (pr_inj _ _ _ _ Hrep _ _ _ E Hp) as G. apply (f_equal length) in G. rewrite !length_app in G. cbn in G. lia. }
  assert (p ∉ fl1) as Hp1. { rewrite L1, L, !elem_of_app, M1, M. intros [?|[?|?]]; [done|by eapply children_self|done]. }
  split.
  - apply (kmem_wf_frame end_ k1 _ fl1 p W1 Hpo Hp1). intros x Hx. apply store64_ne. lia.
  - exists (q1 ++ qs). split; [by rewrite L1, L, app_assoc|]. intros q. rewrite elem_of_app, M1, M, children_S. tauto.
  - intros q x Hq Hf Hne Hc Hx. rewrite children_S in Hc. cbn [kmem_mem].
    assert (¬ (p <= x < p + PGSIZE)) as Hxp by by apply (page_apart end_ q p x). rewrite store64_ne by lia.
    rewrite (F1 q x), (F q x); try tauto. rewrite L, elem_of_app, M. tauto.
  - intros i Hi. cbn [kmem_mem]. rewrite load64_store64_ne by (unfold slot; lia). rewrite <- (S i) by lia. apply load64_ext. intros x Hx.
    pose proof (slot_in p i ltac:(lia)). apply (F1 p); [done| |done|lia].
    rewrite L, elem_of_app, M. intros [?|?]; [by eapply children_self|done].
Qed.

Definition freewalk_slot (l : nat) (p : Z) (i : nat) : M kmem unit :=
  let! pte := rd64 (slot p (Z.of_nat i)) in
  if has pte PTE_V && negb (has pte (Z.lor (Z.lor PTE_R PTE_W) PTE_X)) then
    freewalk_at end_ l (PTE2PA pte) ;;; upd_mem (λ m, store64 m (slot p (Z.of_nat i)) 0)
  else panic_if (has pte PTE_V) "freewalk: leaf".

Lemma link_flags q : page_ok end_ q → has (Z.lor (PA2PTE q) PTE_V) (Z.lor (Z.lor PTE_R PTE_W) PTE_X) = false.
Proof. intros Hq. rewrite has_pte; [done|by apply (page_ok_pa end_)|by split..]. Qed.

Lemma freewalk_loop_run h l π p k0 fl0 : L_kmem ∉ h → T !! π = Some p → p ∉ fl0 → (length π + l = 2)%nat → intact π k0 fl0 →
  (∀ i q k fl, T !! (π ++ [i]) = Some q → kmem_wf end_ k fl → intact (π ++ [i]) k fl →
     ∃ k' fl', freewalk_at end_ l q (Thread h k) = Ok tt (Thread h k') ∧ handed (below T (π ++ [i])) k fl k' fl') →
  ∀ n j k fl, (j + n = 512)%nat → walked π p k0 fl0 (Z.of_nat j) k fl →
  ∃ k' fl', for_range j n (freewalk_slot l p) (Thread h k) = Ok tt (Thread h k') ∧ walked π p k0 fl0 512 k' fl'.
Proof.
  intros Hh Hp Hpf Hl Hint Hchild. induction n as [|n IH]; intros j k fl Hj Hw; cbn [for_range].
  { replace 512 with (Z.of_nat j) by lia. by exists k, fl. }
  assert (0 <= Z.of_nat j < 512) as Hjr by lia. unfold freewalk_slot at 1. rewrite bind_assoc, (bind_Ok _ _ _ _ _ (rd64_run _ _ _)).
  rewrite (wk_slot _ _ _ _ _ _ _ Hw) by lia.
  destruct (T !! (π ++ [Z.of_nat j])) as [q|] eqn:Eq.
  - assert (length π < 2)%nat as Hl2. { apply (pr_dom _ _ _ _ Hrep) in Eq as [Hlen _]. rewrite length_app in Hlen. cbn in Hlen. lia. }
    pose proof (page_in _ _ Eq) as Hq. rewrite (pr_link _ _ _ _ Hrep π p) by done. rewrite Eq, (pt_link_V end_ end_pos), link_flags, (pt_link_pa end_ end_pos) by done. cbn [andb negb].
    destruct (Hchild (Z.of_nat j) q k fl Eq (wk_wf _ _ _ _ _ _ _ Hw)) as (k1 & fl1 & E1 & H1).
    { intros r Hr. destruct (Hint r) as [Hrf Hrm]; [destruct Hr as [ρ Hr]; rewrite <- app_assoc in Hr; by eexists|].
      assert (¬ children π (Z.of_nat j) r) as Hnc by (intros Hc; by apply children_below in Hc). destruct Hw as [_ (qs & L & M) F _]. split.
      - rewrite L, elem_of_app, M. tauto.
      - intros x Hx. rewrite (F r x); [by apply Hrm| |done|intros ->|done|done].
        + destruct Hr as [ρ Hr]. by apply page_in in Hr.
        + destruct Hr as [ρ Hr]. pose proof (pr_inj _ _ _ _ Hrep _ _ _ Hr Hp) as G. apply (f_equal length) in G. rewrite !length_app in G. cbn in G. lia. }
    rewrite bind_assoc, (bind_Ok _ _ _ _ _ E1), (bind_Ok _ _ _ _ _ (upd_mem_run _ _ _)).
    apply (IH (1 + j)%nat _ fl1); [lia|]. replace (Z.of_nat (1 + j)) with (Z.of_nat j + 1) by lia. by eapply walked_child.
  - assert (load64 m0 (slot p (Z.of_nat j)) = 0) as ->.
    { destruct (decide (length π = 2%nat)) as [E2|]; [by eapply Hleaf|]. pose proof (pr_dom _ _ _ _ Hrep _ _ Hp) as [? _].
      rewrite (pr_link _ _ _ _ Hrep π p) by (done || lia). by rewrite Eq. }
    change (has 0 PTE_V) with false. cbn [andb]. rewrite (bind_Ok _ _ _ _ _ (no_panic _ _)).
    apply (IH (1 + j)%nat k fl); [lia|]. replace (Z.of_nat (1 + j)) with (Z.of_nat j + 1) by lia. by apply walked_skip.
Qed.

Lemma freewalk_at_run h l π p k fl : L_kmem ∉ h → T !! π = Some p → (length π + l = 2)%nat → kmem_wf end_ k fl → intact π k fl →
  (∀ i q k fl, T !! (π ++ [i]) = Some q → kmem_wf end_ k fl → intact (π ++ [i]) k fl →
     ∃ k' fl', freewalk_at end_ l q (Thread h k) = Ok tt (Thread h k') ∧ handed (below T (π ++ [i])) k fl k' fl') →
  ∃ k' fl', freewalk_at end_ (S l) p (Thread h k) = Ok tt (Thread h k') ∧ handed (below T π) k fl k' fl'.
Proof.
  intros Hh Hp Hl Hw Hint Hchild. destruct (Hint p) as [Hpf Hpm]; [exists []; by rewrite app_nil_r|].
  assert (walked π p k fl 0 k fl) as W0.
  { assert (∀ q, ¬ children π 0 q) as Hno by (intros q (i & ρ & Hi & E); apply index_in in E; lia). split; [done| |done|].
    - exists []. split; [done|]. intros q. rewrite elem_of_nil. split; [done|by intros ?%Hno].
    - intros i Hi. apply load64_ext. intros x Hx. pose proof (slot_in p i Hi). apply Hpm. lia. }
  destruct (freewalk_loop_run h l π p k fl Hh Hp Hpf Hl Hint Hchild 512 0 k fl eq_refl W0) as (k1 & fl1 & E1 & [W1 (qs & L1 & M1) F1 _]).
  assert (p ∉ fl1) as Hp1 by (rewrite L1, elem_of_app, M1; intros [?|?]; [by eapply children_self|done]).
  destruct (kfree_handed h k1 fl1 p W1 (page_in _ _ Hp) Hp1 Hh) as (k2 & E2 & [W2 _ F2]).
  assert (∀ q, below T π q ↔ q = p ∨ children π 512 q) as Hb.
  { intros q. rewrite (below_split π q p Hp). unfold children. split; (intros [?|(i & ρ & E)]; [by left|right]).
    - exists i, ρ. split; [|done]. apply index_in in E. lia.
    - exists i, ρ. apply E. }
  exists k2, (p :: fl1). split; [|split; [done| |]].
  - change (freewalk_at end_ (S l) p) with (for_range 0 512 (freewalk_slot l p) ;;; kfree end_ p). by rewrite (bind_Ok _ _ _ _ _ E1).
  - exists (p :: qs). split; [by rewrite L1|]. intros q. rewrite elem_of_cons, M1. symmetry. apply Hb.
  - intros q x Hq Hf Hn Hx. rewrite Hb in Hn. rewrite (F2 q x), (F1 q x); try tauto. rewrite L1, elem_of_app, M1. tauto.
Qed.

Lemma freewalk_run h : L_kmem ∉ h → ∀ l π p k fl, T !! π = Some p → (length π + l = 2)%nat → kmem_wf end_ k fl → intact π k fl →
  ∃ k' fl', freewalk_at end_ (S l) p (Thread h k) = Ok tt (Thread h k') ∧ handed (below T π) k fl k' fl'.
Proof.
  intros Hh. induction l as [|l IH]; intros π p k fl Hp Hl Hw Hint; apply freewalk_at_run; try done; intros i q k1 fl1 Hq Hw1 Hint1.
  - exfalso. apply (pr_dom _ _ _ _ Hrep) in Hq as [Hq _]. rewrite length_app in Hq. cbn in Hq. lia.
  - apply IH; [done|rewrite length_app; cbn; lia|done|done].
Qed.
End walk.

(** ** The whole table *)

(** A table without a mapping has no leaf. *)
Lemma no_leaf m root T π p i : pt_rep end_ m root T → (∀ va, 0 <= va < MAXVA → pte_at m T va = 0) → T !! π = Some p → length π = 2%nat → 0 <= i < 512 → load64 m (slot p i) = 0.
Proof.
  intros Hr Hz Hp Hl Hi. destruct π as [|a [|b [|]]]; try done. pose proof (pr_low _ _ _ _ Hr _ _ _ Hp) as Ha.
  change ([a; b]) with ([a] ++ [b]) in Hp. destruct (pr_parent _ _ _ _ Hr _ _ _ Hp) as [Hb [q Hq]]. destruct (pr_parent _ _ _ _ Hr [] a q Hq) as [Ha0 _].
  set (va := ((a * 512 + b) * 512 + i) * 4096).
  assert (0 <= va < MAXVA) as Hva by (unfold va; change MAXVA with (2 ^ 38); lia).
  assert (PX 2 va = a ∧ PX 1 va = b ∧ PX 0 va = i) as (E2 & E1 & E0).
  { rewrite !PX_div by lia. change (2 ^ (12 + 9 * 2)) with (4096 * (512 * 512)). change (2 ^ (12 + 9 * 1)) with (4096 * 512). change (2 ^ (12 + 9 * 0)) with 4096.
    rewrite <- !Z.div_div by lia. unfold va. rewrite Z.div_mul by lia. rewrite (Z.add_comm _ i), Z.mod_add, Z.div_add, Z.add_comm, (Z.div_small i), Z.add_0_r by lia.
    rewrite (Z.add_comm _ b), Z.mod_add, Z.div_add, Z.add_comm, (Z.div_small b), Z.add_0_r by lia. rewrite !Z.mod_small by lia. done. }
  specialize (Hz va Hva). unfold pte_at in Hz. rewrite E2, E1, E0 in Hz. change ([a; b]) with ([a] ++ [b]) in Hz. by rewrite Hp in Hz.
Qed.

Lemma freewalk_root h k fl root T : L_kmem ∉ h → vm_ok end_ k fl root T → maps k T (λ _, 0) →
  ∃ k' fl', freewalk end_ root (Thread h k) = Ok tt (Thread h k') ∧ handed (is_tab T) k fl k' fl'.
Proof.
  intros Hh [Hw Hr Hs] Hm.
  destruct (freewalk_run (kmem_mem k) root T Hr) with (h := h) (l := 2%nat) (π := @nil Z) (p := root) (k := k) (fl := fl) as (k' & fl' & E & Hd); try done.
  - intros π p i Hp Hl Hi. by eapply no_leaf.
  - apply Hr.
  - intros q Hq. split; [by apply Hs|done].
  - by exists k', fl'.
Qed.

(** ** [uvmunmap] without freeing *)

Lemma uvmunmap_keep h k fl root T f a fg pa : L_kmem ∉ h → vm_ok end_ k fl root T → maps k T f → 0 <= a → a + PGSIZE <= MAXVA → a mod PGSIZE = 0 →
  f a = Z.lor (PA2PTE pa) fg → pa_ok pa → 0 <= fg < 1024 → has fg PTE_V = true → fg ≠ PTE_V →
  ∃ k', uvmunmap end_ root a 1 false (Thread h k) = Ok tt (Thread h k') ∧ vm_ok end_ k' fl root T ∧ maps k' T (unmap_range f a 1) ∧ growth end_ k fl T k' fl T.
Proof.
  intros Hh Hv Hm Ha Hmax Hal Ef Hpa Hfg HV Hne.
  assert (0 <= a < MAXVA) as Hva by (unfold PGSIZE in *; lia).
  assert (has (f a) PTE_V = true ∧ PTE_FLAGS (f a) ≠ PTE_V) as [HfV HF] by (rewrite Ef, has_pte, PTE_FLAGS_pte by (done || by split); done).
  destruct (leaf_walk end_ end_pos k fl root T f a Hv Hm Hva (has_nonzero _ _ HfV)) as (p & Hp & Hpz & El).
  destruct (store_pte end_ end_pos k fl root T a p 0 f Hv Hva Hal Hp ltac:(lia) Hm) as (Hv' & Hg & Hm').
  eexists. split_and!; [|exact Hv'|exact Hm'|exact Hg].
  unfold uvmunmap. rewrite Hal. cbn [Z.eqb negb]. rewrite (bind_Ok _ _ _ _ _ (no_panic _ _)).
  rewrite u64_small by (change MAXVA with (2 ^ 38) in *; unfold PGSIZE in *; lia).
  replace (Z.to_nat _) with 1%nat by (replace (a + 1 * PGSIZE - a) with (1 * PGSIZE) by lia; by rewrite Z.div_mul).
  cbn [uvmunmap_loop]. unfold unmap_page. rewrite bind_assoc, (bind_Ok _ _ _ _ _ (walk_find end_ end_pos _ _ _ _ _ _ Hv Hva)).
  rewrite (proj2 (Z.eqb_neq _ _) Hpz), bind_assoc, (bind_Ok _ _ _ _ _ (no_panic _ _)), bind_assoc, (bind_Ok _ _ _ _ _ (rd64_run _ _ _)), El, HfV, (proj2 (Z.eqb_neq _ _) HF). cbn [negb].
  rewrite !bind_assoc, (bind_Ok _ _ _ _ _ (no_panic _ _)), bind_assoc, (bind_Ok _ _ _ _ _ (no_panic _ _)), bind_assoc. by rewrite (bind_Ok (ret tt) _ _ tt (Thread h k) eq_refl), (bind_Ok _ _ _ _ _ (upd_mem_run _ _ _)).
Qed.

(** ** [uvmfree] *)

Lemma uvmfree_run h k fl root T f sz ps : L_kmem ∉ h → vm_ok end_ k fl root T → maps k T f → owned end_ fl T f 0 ps →
  0 <= sz → PGROUNDUP sz = Z.of_nat (length ps) * PGSIZE → Z.of_nat (length ps) * PGSIZE <= MAXVA →
  (∀ va, 0 <= va < MAXVA → ¬ in_range 0 (Z.of_nat (length ps)) va → f va = 0) →
  ∃ k' fl', uvmfree end_ root sz (Thread h k) = Ok tt (Thread h k') ∧ handed (λ q, q ∈ ps ∨ is_tab T q) k fl k' fl'.
Proof.
  intros Hh Hv Hm Ho Hsz Hps Hmax Hz.
  assert (∃ k1, (if sz >? 0 then uvmunmap end_ root 0 (PGROUNDUP sz / PGSIZE) true else ret tt) (Thread h k) = Ok tt (Thread h k1) ∧
    vm_ok end_ k1 (rev ps ++ fl) root T ∧ maps k1 T (λ _, 0) ∧ vstep end_ k fl T k1 (rev ps ++ fl) T [] ps) as (k1 & E1 & V1 & M1 & S1).
  { rewrite Z.gtb_ltb. destruct (Z.ltb_spec 0 sz).
    - destruct (uvmunmap_run end_ end_pos h root T ps 0 k fl f Hh Hv Hm) as (k1 & E1 & V1 & M1 & S1); [done|done|lia|done|].
      exists k1. split; [by rewrite Hps, Z.div_mul|]. split; [done|]. split; [|done]. eapply maps_ext; [exact M1|]. intros va Hva. unfold unmap_range. case_decide; [done|by apply Hz].
    - assert (sz = 0) as -> by lia. change (PGROUNDUP 0) with 0 in Hps. destruct ps as [|]; [|cbn [length] in Hps; unfold PGSIZE in Hps; lia].
      exists k. split; [done|]. split; [done|]. split; [|apply vstep_refl]. eapply maps_ext; [exact Hm|]. intros va Hva. apply Hz; [done|]. apply in_range_0. }
  destruct (freewalk_root h k1 (rev ps ++ fl) root T Hh V1 M1) as (k2 & fl2 & E2 & [W2 (qs & L2 & M2) F2]).
  exists k2, fl2. split; [unfold uvmfree; by rewrite (bind_Ok _ _ _ _ _ E1)|]. split; [done| |].
  - exists (qs ++ rev ps). split; [by rewrite L2, app_assoc|]. intros q. rewrite elem_of_app, M2, <- (Permutation_rev ps). tauto.
  - intros q x Hq Hf Hn Hx. rewrite (F2 q x); [|done|rewrite elem_of_app, <- (Permutation_rev ps); tauto|tauto|done]. apply (vs_mem _ _ _ _ _ _ _ _ _ S1 q x); tauto.
Qed.

(** Giving an address space back.  [uvmfree] of a page table whose user memory is
    the pages [ps] returns, and the free list then has, besides what it had, exactly these
    pages and every page of the table, each once; no other page in use was written. *)
Theorem uvmfree_returns h k fl root T f sz ps : L_kmem ∉ h → vm_ok end_ k fl root T → maps k T f → owned end_ fl T f 0 ps →
  0 <= sz → PGROUNDUP sz = Z.of_nat (length ps) * PGSIZE → Z.of_nat (length ps) * PGSIZE <= MAXVA →
  (∀ va, 0 <= va < MAXVA → ¬ in_range 0 (Z.of_nat (length ps)) va → f va = 0) →
  ∃ k' fl' qs, uvmfree end_ root sz (Thread h k) = Ok tt (Thread h k') ∧ kmem_wf end_ k' fl' ∧ fl' ≡ₚ qs ++ fl ∧ NoDup fl' ∧
    (∀ q, q ∈ qs ↔ q ∈ ps ∨ is_tab T q) ∧
    (∀ q x, page_ok end_ q → q ∉ fl' → q <= x < q + PGSIZE → kmem_mem k' x = kmem_mem k x).
Proof.
  intros Hh Hv Hm Ho Hsz Hps Hmax Hz. destruct (uvmfree_run h k fl root T f sz ps Hh Hv Hm Ho Hsz Hps Hmax Hz) as (k' & fl' & E & [W (qs & L & M) F]).
  exists k', fl', qs. split_and!; [done|done|done|apply W|done|]. intros q x Hq Hn Hx. rewrite L, elem_of_app, M in Hn. apply (F q x); tauto.
Qed.
End free.
