(* ===== verification/VmInst.v ===== *)
(** * vm.c on a concrete memory

    A memory with a dozen free pages, address spaces built in it with the
    operations themselves, and instances of the theorems about vm.c there. *)

From S2P Require Import Prelude CString Riscv Kalloc Vm VmTable VmMap VmCopy VmAlloc.

Definition END : Z := 0x80002000.

(** A memory with the free pages [ps]. *)
Definition free_mem (ps : list Z) : kmem := foldr kfree_post (Kmem (λ _, 0) 0) ps.

Lemma free_mem_wf ps : NoDup ps → Forall (page_ok END) ps → kmem_wf END (free_mem ps) ps.
Proof.
  induction ps as [|p ps IH]; intros Hn Hf; cbn [free_mem foldr].
  - split_and!; [done|apply NoDup_nil_2|done].
  - apply NoDup_cons in Hn as [Hni Hn]. apply Forall_cons in Hf as [Hp Hf].
    by apply (kfree_wf END ltac:(done) p _ ps (IH Hn Hf)).
Qed.

Definition pg (i : nat) : Z := 0x80003000 + PGSIZE * Z.of_nat i.
Definition pgs (n : nat) : list Z := pg <$> seq 0 n.

Lemma pg_ok i : (i < 1000)%nat → page_ok END (pg i).
Proof.
  intros Hi. unfold pg, page_ok, END, PGSIZE, PHYSTOP, KERNBASE. split; [|lia].
  rewrite Z.mul_comm, Z.mod_add by lia. done.
Qed.

Lemma pgs_wf n : (n <= 1000)%nat → kmem_wf END (free_mem (pgs n)) (pgs n).
Proof.
  intros Hn. apply free_mem_wf.
  - apply NoDup_fmap_2; [|apply NoDup_seq]. intros i j E. unfold pg, PGSIZE in E. lia.
  - apply Forall_fmap, Forall_forall. intros i Hi. apply elem_of_seq in Hi. apply pg_ok. lia.
Qed.

(** An empty user page table in such a memory. *)
Lemma fresh_space n : (n < 1000)%nat →
  ∃ k, uvmcreate (Thread [] (free_mem (pgs (S n)))) = Ok (pg 0) (Thread [] k) ∧
    vm_ok END k (pg <$> seq 1 n) (pg 0) {[ [] := pg 0 ]} ∧ maps k {[ [] := pg 0 ]} (λ _, 0).
Proof.
  intros Hn. apply (uvmcreate_run END ltac:(done)); [apply not_elem_of_nil|]. apply (pgs_wf (S n)). lia.
Qed.

Lemma mappages_maps_witness : ∃ k, 
  (∃ k' T', mappages (pg 0) 0x4000 0x2000 0x90000000 PTE_R (Thread [] k) = Ok 0 (Thread [] k') ∧
     maps k' T' (map_range (λ _, 0) 0x4000 2 0x90000000 PTE_R)) ∨
  (∃ k' fl' T', mappages (pg 0) 0x4000 0x2000 0x90000000 PTE_R (Thread [] k) = Ok (-1) (Thread [] k') ∧
     fl' = [] ∧ vm_ok END k' fl' (pg 0) T').
Proof.
  destruct (fresh_space 8 ltac:(lia)) as (k & _ & Hv & Hm). exists k.
  destruct (mappages_maps END ltac:(done) [] k (pg <$> seq 1 8) (pg 0) {[ [] := pg 0 ]} (λ _, 0) 0x4000 0x2000 0x90000000 PTE_R)
    as (r & k' & fl' & T' & E & Hv' & _ & [[-> Hm']|(-> & Hfl & _)]).
  all: try done.
  - apply not_elem_of_nil.
  - left. exists k', T'. split; [exact E|exact Hm'].
  - right. exists k', fl', T'. split; [exact E|]. split; [exact Hfl|exact Hv'].
Defined.

Lemma uvmalloc_grows_witness : ∃ k,
  (∃ k' T' ps, uvmalloc END (pg 0) 0 5000 PTE_W (Thread [] k) = Ok 5000 (Thread [] k') ∧
     maps k' T' (ext (λ _, 0) 0 ((λ p, (p, Z.lor (Z.lor PTE_R PTE_U) PTE_W)) <$> ps))) ∨
  (∃ k', uvmalloc END (pg 0) 0 5000 PTE_W (Thread [] k) = Ok 0 (Thread [] k') ∧
     undone END k (pg <$> seq 1 8) (pg 0) {[ [] := pg 0 ]} (λ _, 0) k').
Proof.
  destruct (fresh_space 8 ltac:(lia)) as (k & _ & Hv & Hm). exists k.
  destruct (uvmalloc_grows END ltac:(done) [] k (pg <$> seq 1 8) (pg 0) {[ [] := pg 0 ]} (λ _, 0) 0 5000 PTE_W)
    as [(k' & fl' & T' & ps & E & _ & Hm' & _)|(k' & E & Hu)].
  all: try done.
  - apply not_elem_of_nil.
  - left. exists k', T', ps. split; [exact E|exact Hm'].
  - right. exists k'. split; [exact E|exact Hu].
Defined.

(** *** A process of two pages *)

Definition code {S A} (o : outcome S A) : option A := match o with Ok a _ => Some a | _ => None end.
Definition final {S A} (d : S) (o : outcome S A) : S := match o with Ok _ t => st t | _ => d end.

Lemma no_room (a n : Z) : room (λ _, 0) a n.
Proof. by intros va _ _. Qed.

(** Two empty page tables, the second one at [pg 1]; then the first grows. *)
Definition mem20 : kmem := free_mem (pgs 20).
Definition space0 : kmem := final mem20 (uvmcreate (Thread [] mem20)).
Definition space1 : kmem := final mem20 (uvmcreate (Thread [] space0)).

Lemma alloc20 : code (uvmalloc END (pg 0) 0 5000 PTE_W (Thread [] space1)) = Some 5000.
Proof. vm_compute. reflexivity. Qed.

Definition RWU : Z := Z.lor (Z.lor PTE_R PTE_U) PTE_W.
Definition no_map : Z → Z := λ _, 0.
Definition root0 : gmap (list Z) Z := {[ [] := pg 0 ]}.
Definition root1 : gmap (list Z) Z := {[ [] := pg 1 ]}.
Definition fl20 : list Z := pg <$> seq 2 18.

Lemma is_tab_root p q : is_tab {[ [] := p ]} q → q = p.
Proof. intros [π E]. by apply lookup_singleton_Some in E as [_ ->]. Qed.

Lemma space1_ok : vm_ok END space1 fl20 (pg 0) root0 ∧ maps space1 root0 no_map ∧
  vm_ok END space1 fl20 (pg 1) root1 ∧ maps space1 root1 no_map.
Proof.
  destruct (uvmcreate_run END ltac:(done) [] mem20 (pg 0) (pg <$> seq 1 19) (not_elem_of_nil _) (pgs_wf 20 ltac:(lia)))
    as (k0 & E0 & V0 & M0).
  assert (k0 = space0) as Ek0. { unfold space0, final. by rewrite E0. } subst k0.
  assert (kmem_wf END space0 (pg 1 :: fl20)) as Hw by exact (vo_wf _ _ _ _ _ V0).
  destruct (uvmcreate_run END ltac:(done) [] space0 (pg 1) fl20 (not_elem_of_nil _) Hw) as (k1 & E1 & V1 & M1).
  assert (k1 = space1) as Ek1. { unfold space1, final. by rewrite E1. } subst k1.
  destruct (alloc_page END ltac:(done) space0 (pg 1) fl20 (pg 0) root0 no_map (memset (pg 1) 0 PGSIZE) V0 M0) as (Ef & _ & _ & _ & V2 & M2 & _).
  { intros m x Hx. by rewrite memset_at, decide_False. }
  assert (space1 = Kmem (memset (pg 1) 0 PGSIZE (kmem_mem (kalloc_post space0))) (kmem_freelist (kalloc_post space0))) as Es.
  { clear V1 M1 V2 M2. pose proof (bind_Ok kalloc (λ p, if p =? 0 then ret 0 else upd_mem (memset p 0 PGSIZE) ;;; ret p)
      (Thread [] space0) _ _ (kalloc_run [] space0 (not_elem_of_nil _))) as Hb. fold uvmcreate in Hb.
    rewrite E1, Ef in Hb. change (pg 1 =? 0) with false in Hb. cbv iota in Hb.
    rewrite (bind_Ok _ _ _ _ _ (upd_mem_run _ _ _)) in Hb. unfold ret in Hb.
    apply (f_equal (final space0)) in Hb. exact Hb. }
  rewrite <- Es in V2, M2. by split_and!.
Qed.

Lemma grow_two k : vm_ok END k fl20 (pg 0) root0 → maps k root0 no_map →
  code (uvmalloc END (pg 0) 0 5000 PTE_W (Thread [] k)) = Some 5000 →
  ∃ k' fl T ps, grew END k fl20 (pg 0) root0 no_map 0 zeros ((λ p, (p, RWU)) <$> ps) k' fl T ∧ length ps = 2%nat.
Proof.
  intros Hv Hm Hc.
  destruct (uvmalloc_run END ltac:(done) [] k fl20 (pg 0) root0 no_map 0 5000 PTE_W
    (not_elem_of_nil _) Hv Hm ltac:(lia) ltac:(done) ltac:(done) (no_room _ _))
    as [(k' & fl' & T' & ps & _ & Hg & Hl)|(k' & E' & _)].
  - exists k', fl', T', ps. split; [exact Hg|]. change (PGROUNDUP 0) with 0 in Hl. unfold PGSIZE in Hl. lia.
  - rewrite E' in Hc. discriminate Hc.
Qed.

Lemma no_map_user va : ¬ can_read no_map va.
Proof. by intros (_ & HV & _). Qed.

Lemma RWU_flags : 0 <= RWU < 1024 ∧ has RWU PTE_V = false ∧ has RWU PTE_U = true ∧ has RWU PTE_W = true.
Proof. by split_and!. Qed.

(** A parent with two writable pages, and an empty child, in one memory. *)
Lemma family : ∃ k fl Tp Tc ps, length ps = 2%nat ∧
  uspace END k fl (pg 0) Tp (ext no_map 0 ((λ p, (p, RWU)) <$> ps)) ∧
  vm_ok END k fl (pg 1) Tc ∧ maps k Tc no_map ∧
  parent END fl Tp Tc (ext no_map 0 ((λ p, (p, RWU)) <$> ps)) ((λ p, (p, Z.lor RWU PTE_V)) <$> ps).
Proof.
  destruct space1_ok as (Hv & Hm & Hvc & Hmc).
  destruct (grow_two space1 Hv Hm alloc20) as (k & fl & T & ps & Hg & Hlen).
  assert (∀ p, is_tab root1 p → ¬ is_tab root0 p) as Hdis.
  { intros p Hp Hp'. apply is_tab_root in Hp, Hp'. subst. discriminate Hp'. }
  pose proof Hg as [V M O S C]. destruct (vstep_other END _ _ _ _ _ _ _ _ _ _ S (vo_wf _ _ _ _ _ V) Hvc Hmc Hdis) as (V1 & M1 & D1).
  exists k, fl, T, root1, ps. split; [exact Hlen|]. split.
  { eapply (grew_user END ltac:(done)); [exact Hg|lia|done| |apply no_map_user].
    apply Forall_fmap, Forall_true. intros p. apply RWU_flags. }
  split; [exact V1|]. split; [exact M1|]. split.
  - intros i q fg Hi. apply list_lookup_fmap_Some in Hi as (p & Eq & Hi). injection Eq as -> ->.
    rewrite <- (Z.add_0_l (Z.of_nat i * PGSIZE)). rewrite (ext_leaf no_map 0 _ i p RWU) by (by rewrite list_lookup_fmap, Hi).
    rewrite mk_pte_eq. by split_and!.
  - intros q Hq. rewrite <- list_fmap_compose in Hq. destruct (ow_page _ _ _ _ _ _ O q) as (Hqo & Hqf & Hqt).
    { by rewrite <- list_fmap_compose. }
    split; [exact Hqo|]. split; [exact Hqf|]. intros Ht. apply is_tab_root in Ht. subst q.
    destruct (vs_pages _ _ _ _ _ _ _ _ _ S) as (nt & Ent & _). rewrite app_nil_r in Ent.
    apply (vo_sep _ _ _ _ _ Hvc (pg 1)); [by exists []|]. rewrite Ent, !elem_of_app. right. left.
    by rewrite <- list_fmap_compose.
  - intros p Hp. split; [by apply (vo_sep _ _ _ _ _ V)|]. intros Hp'. by apply (D1 p Hp').
Qed.

Lemma can_write_two (f0 : Z → Z) ps va : length ps = 2%nat → Forall (page_ok END) ps → 0 <= va < 8192 →
  can_write (ext f0 0 ((λ p, (p, RWU)) <$> ps)) va.
Proof.
  intros Hl Hp Hva. unfold can_write, can_read, ext. rewrite length_fmap, Hl.
  rewrite decide_True by (unfold in_range, PGSIZE; lia).
  assert (Z.to_nat ((va - 0) / PGSIZE) < length ps)%nat as Hi.
  { rewrite Hl. assert ((va - 0) / PGSIZE < 2) by (apply Z.div_lt_upper_bound; unfold PGSIZE; lia). lia. }
  destruct (lookup_lt_is_Some_2 ps _ Hi) as [p Hip]. rewrite list_lookup_fmap, Hip. cbn [fmap option_fmap option_map from_option id default fst snd].
  assert (pa_ok p) as Hpa by (apply (page_ok_pa END ltac:(done)); by apply (Forall_lookup_1 _ _ _ _ Hp Hip)).
  destruct RWU_flags as (Hr & _ & HU & HW).
  rewrite mk_pte_V, !mk_pte_has, HU, HW by (done || by split). rewrite MAXVA_val. split_and!; (done || lia).
Qed.

(** The parent can write its two pages. *)
Lemma family_write fl Tp Tc f ps : length ps = 2%nat →
  parent END fl Tp Tc f ((λ p, (p, Z.lor RWU PTE_V)) <$> ps) →
  ∀ va, 0 <= va < 8192 → can_write (ext no_map 0 ((λ p, (p, RWU)) <$> ps)) va.
Proof.
  intros Hl Hpar va Hva. apply can_write_two; [exact Hl| |exact Hva].
  apply Forall_lookup. intros i p Hi. apply (pa_page _ _ _ _ _ _ Hpar p).
  apply list_elem_of_fmap. exists (p, Z.lor RWU PTE_V). split; [done|]. apply list_elem_of_fmap. exists p.
  split; [done|]. by eapply list_elem_of_lookup_2.
Qed.

Lemma copyout_correct_witness : ∃ k k' f,
  copyout (pg 0) 4090 [1; 2; 3; 4; 5; 6; 7; 8] (Thread [] k) = Ok 0 (Thread [] k') ∧
  ustored f (kmem_mem k) (kmem_mem k') 4090 [1; 2; 3; 4; 5; 6; 7; 8].
Proof.
  destruct family as (k & fl & Tp & Tc & ps & Hl & Hus & _ & _ & Hpar).
  destruct (copyout_correct END ltac:(done) [] k fl (pg 0) Tp _ 4090 [1; 2; 3; 4; 5; 6; 7; 8] Hus ltac:(lia))
    as (r & k' & E & _ & _ & [(-> & _ & Hst)|(-> & x & Hx & Hnc)]).
  - exists k, k', (ext no_map 0 ((λ p, (p, RWU)) <$> ps)). split; [exact E|exact Hst].
  - destruct Hnc. eapply family_write; [exact Hl|exact Hpar|]. cbn [length] in Hx. lia.
Defined.

Lemma copyout_copyin_witness : ∃ k k',
  copyout (pg 0) 4090 [1; 2; 3; 4; 5; 6; 7; 8] (Thread [] k) = Ok 0 (Thread [] k') ∧
  copyin (pg 0) 4090 8 (Thread [] k') = Ok (0, [1; 2; 3; 4; 5; 6; 7; 8]) (Thread [] k').
Proof.
  destruct family as (k & fl & Tp & Tc & ps & Hl & Hus & _ & _ & Hpar).
  destruct (copyout_loop_run END ltac:(done) [] fl (pg 0) Tp _ (copy_fuel 8) 4090 [1; 2; 3; 4; 5; 6; 7; 8] k Hus ltac:(lia)
    (copy_fuel_enough 4090 8 ltac:(lia))) as (r & k' & E & _ & _ & [(-> & _ & _)|(-> & x & Hx & Hnc)]).
  - exists k, k'. split; [exact E|].
    exact (proj1 (copyout_copyin END ltac:(done) [] k fl (pg 0) Tp _ 4090 [1; 2; 3; 4; 5; 6; 7; 8] k' Hus ltac:(lia) E)).
  - destruct Hnc. eapply family_write; [exact Hl|exact Hpar|]. cbn [length] in Hx. lia.
Defined.

Lemma copyinstr_correct_witness : ∃ k,
  (∃ s, copyinstr (pg 0) 100 128 (Thread [] k) = Ok (0, s ++ [0]) (Thread [] k) ∧ Z.of_nat (length s) < 128) ∨
  (∃ bs, copyinstr (pg 0) 100 128 (Thread [] k) = Ok (-1, bs) (Thread [] k)).
Proof.
  destruct family as (k & fl & Tp & Tc & ps & Hl & Hus & _). exists k.
  destruct (copyinstr_correct END ltac:(done) [] k fl (pg 0) Tp _ 100 128 Hus ltac:(lia) ltac:(lia))
    as [(s & E & _ & Hs)|(bs & E & _)].
  - left. exists s. split; [exact E|exact Hs].
  - right. exists bs. exact E.
Defined.

Lemma uvmcopy_copies_witness : ∃ k,
  (∃ k' T' pp', uvmcopy END (pg 0) (pg 1) 5000 (Thread [] k) = Ok 0 (Thread [] k') ∧
     maps k' T' (ext no_map 0 pp') ∧ length pp' = 2%nat) ∨
  (∃ k', uvmcopy END (pg 0) (pg 1) 5000 (Thread [] k) = Ok (-1) (Thread [] k')).
Proof.
  destruct family as (k & fl & Tp & Tc & ps & Hl & [V M U] & Vc & Mc & Hpar). exists k.
  assert (length ((λ p, (p, Z.lor RWU PTE_V)) <$> ps) = 2%nat) as Hlp by (by rewrite length_fmap).
  destruct (uvmcopy_copies END ltac:(done) [] k fl (pg 0) Tp _ (pg 1) Tc no_map _ 5000
    (not_elem_of_nil _) Vc Mc (vo_rep _ _ _ _ _ V) M Hpar) as [(k' & fl' & T' & pp' & E & _ & Hm & Hfg & _)|(k' & E & _)].
  - rewrite Hlp. by rewrite MAXVA_val.
  - rewrite Hlp. done.
  - done.
  - left. exists k', T', pp'. split; [exact E|]. split; [exact Hm|]. apply (f_equal length) in Hfg. by rewrite !length_fmap, Hl in Hfg.
  - right. exists k'. exact E.
Defined.
