(* ===== verification/Bio.v ===== *)
(** * bio.c: the buffer cache

    The state holds the [NBUF] buffers and the list head (index [NBUF]), linked
    through [prev] and [next] exactly as in the source, and the disk.  The
    driver's [virtio_disk_rw] is the transfer of one whole block; every write
    to the disk is also recorded in [writes], so that a crash can be modelled
    as losing a suffix of the writes. *)

From S2P Require Import Prelude Param.

Record buf := Buf {
  b_valid : bool;
  b_dev : Z;
  b_blockno : Z;
  b_refcnt : Z;
  b_prev : nat;
  b_next : nat;
  b_data : block }.

Record bio := Bio {
  bufs : list buf;                (* bcache.buf, then bcache.head *)
  disk : Z → block;
  writes : list (Z * block) }.

(** Index of [bcache.head]. *)
Definition HEAD : nat := Z.to_nat NBUF.

Definition buf0 : buf := Buf false 0 0 0 0 0 zero_block.

Definition getb (i : nat) (s : bio) : buf := default buf0 (bufs s !! i).
Definition setb (i : nat) (b : buf) (s : bio) : bio :=
  Bio (<[i := b]> (bufs s)) (disk s) (writes s).
Definition updb (i : nat) (f : buf → buf) (s : bio) : bio := setb i (f (getb i s)) s.

Definition with_next (n : nat) (b : buf) : buf :=
  Buf (b_valid b) (b_dev b) (b_blockno b) (b_refcnt b) (b_prev b) n (b_data b).
Definition with_prev (p : nat) (b : buf) : buf :=
  Buf (b_valid b) (b_dev b) (b_blockno b) (b_refcnt b) p (b_next b) (b_data b).
Definition with_refcnt (r : Z) (b : buf) : buf :=
  Buf (b_valid b) (b_dev b) (b_blockno b) r (b_prev b) (b_next b) (b_data b).
Definition with_valid (v : bool) (b : buf) : buf :=
  Buf v (b_dev b) (b_blockno b) (b_refcnt b) (b_prev b) (b_next b) (b_data b).
Definition with_data (d : block) (b : buf) : buf :=
  Buf (b_valid b) (b_dev b) (b_blockno b) (b_refcnt b) (b_prev b) (b_next b) d.
Definition with_block (dev blockno : Z) (b : buf) : buf :=
  Buf false dev blockno 1 (b_prev b) (b_next b) (b_data b).

(** [b->next = bcache.head.next; b->prev = &bcache.head;
     bcache.head.next->prev = b; bcache.head.next = b;] *)
Definition link_front (b : nat) (s : bio) : bio :=
  let s := updb b (with_next (b_next (getb HEAD s))) s in
  let s := updb b (with_prev HEAD) s in
  let s := updb (b_next (getb HEAD s)) (with_prev b) s in
  updb HEAD (with_next b) s.

(** [b->next->prev = b->prev; b->prev->next = b->next;] *)
Definition unlink (b : nat) (s : bio) : bio :=
  let s := updb (b_next (getb b s)) (with_prev (b_prev (getb b s))) s in
  updb (b_prev (getb b s)) (with_next (b_next (getb b s))) s.

Definition binit : M bio unit :=
  modify (updb HEAD (with_prev HEAD)) ;;;
  modify (updb HEAD (with_next HEAD)) ;;;
  modify (λ s, foldl (λ s b, link_front b s) s (seq 0 HEAD)).

(** Walk the list from [b] through [next] (or [prev]) to the head, stopping at
    the first buffer that satisfies [p].  A walk visits at most [NBUF] buffers. *)
Fixpoint scan (step : buf → nat) (p : buf → bool) (fuel : nat) (b : nat) (s : bio) : option nat :=
  match fuel with
  | O => None
  | S fuel =>
      if decide (b = HEAD) then None
      else if p (getb b s) then Some b
      else scan step p fuel (step (getb b s)) s
  end.

Definition bget (dev blockno : Z) : M bio nat :=
  acquire L_bcache ;;;
  let! s := get in
  match scan b_next (λ b, (b_dev b =? dev) && (b_blockno b =? blockno))
          (S HEAD) (b_next (getb HEAD s)) s with
  | Some b =>
      modify (updb b (λ x, with_refcnt (u32 (b_refcnt x + 1)) x)) ;;;
      release L_bcache ;;;
      acquiresleep (SL_buf b) ;;;
      ret b
  | None =>
      match scan b_prev (λ b, b_refcnt b =? 0) (S HEAD) (b_prev (getb HEAD s)) s with
      | Some b =>
          modify (updb b (with_block dev blockno)) ;;;
          release L_bcache ;;;
          acquiresleep (SL_buf b) ;;;
          ret b
      | None => panic "bget: no buffers"
      end
  end.

(** One transfer by the driver: into the buffer, or to the disk. *)
Definition virtio_disk_rw (b : nat) (write : bool) : M bio unit :=
  modify (λ s,
    let x := getb b s in
    if write
    then Bio (bufs s)
             (λ n, if n =? b_blockno x then b_data x else disk s n)
             (writes s ++ [(b_blockno x, b_data x)])
    else setb b (with_data (disk s (b_blockno x)) x) s).

Definition bread (dev blockno : Z) : M bio nat :=
  let! b := bget dev blockno in
  let! v := gets (λ s, b_valid (getb b s)) in
  (if v then ret tt
   else virtio_disk_rw b false ;;; modify (updb b (with_valid true))) ;;;
  ret b.

Definition bwrite (b : nat) : M bio unit :=
  let! h := holdingsleep (SL_buf b) in
  panic_if (negb h) "bwrite" ;;;
  virtio_disk_rw b true.

Definition brelse (b : nat) : M bio unit :=
  let! h := holdingsleep (SL_buf b) in
  panic_if (negb h) "brelse" ;;;
  releasesleep (SL_buf b) ;;;
  acquire L_bcache ;;;
  modify (updb b (λ x, with_refcnt (u32 (b_refcnt x - 1)) x)) ;;;
  let! r := gets (λ s, b_refcnt (getb b s)) in
  (if r =? 0
   then modify (unlink b) ;;; modify (link_front b)
   else ret tt) ;;;
  release L_bcache.

Definition bpin (b : nat) : M bio unit :=
  acquire L_bcache ;;;
  modify (updb b (λ x, with_refcnt (u32 (b_refcnt x + 1)) x)) ;;;
  release L_bcache.

Definition bunpin (b : nat) : M bio unit :=
  acquire L_bcache ;;;
  modify (updb b (λ x, with_refcnt (u32 (b_refcnt x - 1)) x)) ;;;
  release L_bcache.

(** ** The doubly linked list *)

Definition fupd {A} (f : nat → A) (i : nat) (v : A) : nat → A :=
  λ j, if decide (j = i) then v else f j.

(** [a] is followed by the elements of [xs], through both kinds of links. *)
Fixpoint links (nx pv : nat → nat) (a : nat) (xs : list nat) : Prop :=
  match xs with
  | [] => True
  | b :: xs => nx a = b ∧ pv b = a ∧ links nx pv b xs
  end.

Lemma links_app nx pv a xs b ys :
  links nx pv a (xs ++ b :: ys) ↔ links nx pv a (xs ++ [b]) ∧ links nx pv b ys.
Proof.
  revert a; induction xs as [|x xs IH]; intros a; simpl; [tauto|].
  rewrite IH. tauto.
Qed.

Lemma links_frame nx pv nx' pv' a xs z :
  links nx pv a (xs ++ [z]) →
  (∀ x, x ∈ a :: xs → nx' x = nx x) → (∀ x, x ∈ xs ++ [z] → pv' x = pv x) →
  links nx' pv' a (xs ++ [z]).
Proof.
  revert a; induction xs as [|x xs IH]; intros a Hl Hn Hp; simpl in *.
  - destruct Hl as (H1 & H2 & _). rewrite Hn, Hp by (by left). done.
  - destruct Hl as (H1 & H2 & Hl). split_and!.
    + rewrite Hn by (by left). done.
    + rewrite Hp by (by left). done.
    + apply IH; [done| |]; intros y Hy; [apply Hn|apply Hp]; by right.
Qed.

Ltac fupd_simpl :=
  unfold fupd; repeat first [ rewrite decide_True by congruence | rewrite decide_False by congruence ].

Lemma links_unlink nx pv H l1 b l2 :
  links nx pv H (l1 ++ b :: l2 ++ [H]) → NoDup (H :: l1 ++ b :: l2) →
  links (fupd nx (pv b) (nx b)) (fupd pv (nx b) (pv b)) H (l1 ++ l2 ++ [H]).
Proof.
  intros Hl Hnd. apply links_app in Hl as [Hl1 Hl2].
  apply NoDup_cons in Hnd as [HH Hnd]. apply NoDup_app in Hnd as (Hnd1 & Hdis & Hnd2).
  apply NoDup_cons in Hnd2 as [Hb Hnd2].
  assert (∃ n r, l2 ++ [H] = n :: r ∧ (r = [] ∧ n = H ∧ l2 = [] ∨
            ∃ r', l2 = n :: r' ∧ r = r' ++ [H])) as (n & r & Er & Hr).
  { destruct l2 as [|n r']; simpl; eauto 10. }
  rewrite Er in *. simpl in Hl2. destruct Hl2 as (-> & Hpn & Hl2).
  apply links_app.
  assert (n ∉ l1) as Hnl1.
  { destruct Hr as [(-> & -> & ->)|(r' & -> & ->)]; [set_solver|].
    intros Hn. apply (Hdis n Hn). set_solver. }
  destruct l1 as [|p l1' _] using rev_ind.
  - simpl in Hl1. destruct Hl1 as (Hnb & -> & _). split.
    + simpl. split_and!; [by fupd_simpl..|done].
    + destruct Hr as [(-> & -> & ->)|(r' & -> & ->)]; [done|].
      apply (links_frame nx pv); [done| |]; intros x Hx; unfold fupd; rewrite decide_False; try done.
      * intros ->. set_solver.
      * intros ->. apply NoDup_cons in Hnd2 as [Hn _]. set_solver.
  - rewrite <- app_assoc in Hl1. simpl in Hl1. apply links_app in Hl1 as [Hl1 Hpb].
    simpl in Hpb. destruct Hpb as (Hnb & -> & _). split.
    + rewrite <- app_assoc. simpl. apply links_app. split.
      * apply (links_frame nx pv); [done| |]; intros x Hx; unfold fupd; rewrite decide_False; try done.
        -- intros ->. apply NoDup_app in Hnd1 as (_ & Hd & _).
           apply elem_of_cons in Hx as [->|Hx]; [set_solver|]. apply (Hd p Hx). set_solver.
        -- intros ->. set_solver.
      * simpl. split_and!; [by fupd_simpl..|done].
    + destruct Hr as [(-> & -> & ->)|(r' & -> & ->)]; [done|].
      apply (links_frame nx pv); [done| |]; intros x Hx; unfold fupd; rewrite decide_False; try done.
      * intros ->. apply (Hdis p); set_solver.
      * intros ->. apply NoDup_cons in Hnd2 as [Hn _].
        apply elem_of_app in Hx as [Hx|Hx]; [set_solver|].
        apply list_elem_of_singleton in Hx as ->. set_solver.
Qed.

Lemma links_front nx pv H b l :
  links nx pv H (l ++ [H]) → NoDup (b :: H :: l) →
  links (fupd (fupd nx b (nx H)) H b) (fupd (fupd pv b H) (nx H) b) H (b :: l ++ [H]).
Proof.
  intros Hl Hnd. apply NoDup_cons in Hnd as [Hb Hnd]. apply NoDup_cons in Hnd as [HH Hnd].
  assert (b ≠ H) as HbH by set_solver.
  assert (∃ n r, l ++ [H] = n :: r ∧ (r = [] ∧ n = H ∧ l = [] ∨
            ∃ r', l = n :: r' ∧ r = r' ++ [H])) as (n & r & Er & Hr).
  { destruct l as [|n r']; simpl; eauto 10. }
  rewrite Er in *. simpl in Hl. destruct Hl as (-> & Hpn & Hl).
  assert (b ≠ n) as Hbn.
  { destruct Hr as [(-> & -> & ->)|(r' & -> & ->)]; set_solver. }
  simpl. split_and!; [by fupd_simpl..|].
  destruct Hr as [(-> & -> & ->)|(r' & -> & ->)]; [done|].
  apply NoDup_cons in Hnd as [Hn _].
  apply (links_frame nx pv); [done| |]; intros x Hx; unfold fupd; rewrite !decide_False; try done.
  - intros ->. set_solver.
  - intros ->. set_solver.
  - intros ->. apply elem_of_app in Hx as [Hx|Hx]; [set_solver|].
    apply list_elem_of_singleton in Hx as ->. set_solver.
  - intros ->. set_solver.
Qed.

(** ** Reading buffers after an update *)

Definition nxt (s : bio) (i : nat) : nat := b_next (getb i s).
Definition prv (s : bio) (i : nat) : nat := b_prev (getb i s).

(** What a buffer holds, its links apart. *)
Definition payload (s : bio) (i : nat) : bool * Z * Z * Z * block :=
  let x := getb i s in (b_valid x, b_dev x, b_blockno x, b_refcnt x, b_data x).

Lemma getb_updb i j f s :
  (i < length (bufs s))%nat →
  getb j (updb i f s) = if decide (j = i) then f (getb i s) else getb j s.
Proof.
  intros Hi. unfold updb, setb, getb; simpl. case_decide as E.
  - subst. by rewrite list_lookup_insert_eq.
  - by rewrite list_lookup_insert_ne.
Qed.

Lemma length_updb i f s : length (bufs (updb i f s)) = length (bufs s).
Proof. unfold updb, setb; simpl. apply length_insert. Qed.

Lemma links_ext nx pv nx' pv' a xs :
  (∀ x, nx' x = nx x) → (∀ x, pv' x = pv x) → links nx pv a xs → links nx' pv' a xs.
Proof.
  intros Hn Hp. revert a; induction xs as [|x xs IH]; intros a; simpl; [done|].
  intros (? & ? & ?). rewrite Hn, Hp. auto.
Qed.

Lemma links_rev nx pv a xs z :
  links nx pv a (xs ++ [z]) → links pv nx z (rev xs ++ [a]).
Proof.
  revert a; induction xs as [|x xs IH]; intros a; simpl.
  - tauto.
  - intros (H1 & H2 & H). rewrite <- app_assoc. simpl. apply links_app. simpl. auto.
Qed.

Lemma payload_updb i f s j :
  (∀ x, (b_valid (f x), b_dev (f x), b_blockno (f x), b_refcnt (f x), b_data (f x)) =
        (b_valid x, b_dev x, b_blockno x, b_refcnt x, b_data x)) →
  (i < length (bufs s))%nat → payload (updb i f s) j = payload s j.
Proof. intros Hf Hi. unfold payload. rewrite getb_updb by done. case_decide; [subst; apply Hf|done]. Qed.

Lemma unlink_links b s :
  (b < length (bufs s))%nat → (nxt s b < length (bufs s))%nat →
  (prv s b < length (bufs s))%nat → b ≠ nxt s b →
  (∀ i, nxt (unlink b s) i = fupd (nxt s) (prv s b) (nxt s b) i) ∧
  (∀ i, prv (unlink b s) i = fupd (prv s) (nxt s b) (prv s b) i) ∧
  (∀ i, payload (unlink b s) i = payload s i) ∧
  length (bufs (unlink b s)) = length (bufs s) ∧
  disk (unlink b s) = disk s ∧ writes (unlink b s) = writes s.
Proof.
  unfold nxt, prv. intros Hb Hn Hp Hne. unfold unlink.
  set (n := b_next (getb b s)) in *. set (p := b_prev (getb b s)) in *.
  assert (getb b (updb n (with_prev p) s) = getb b s) as ->.
  { rewrite getb_updb by done. by rewrite decide_False. }
  fold n p. split_and!; [| | |by rewrite !length_updb|done|done].
  - intros i. rewrite getb_updb by (by rewrite length_updb). unfold fupd. case_decide; [done|].
    rewrite getb_updb by done. case_decide; [by subst|done].
  - intros i. rewrite getb_updb by (by rewrite length_updb). unfold fupd.
    destruct (decide (i = p)) as [->|]; rewrite getb_updb by done; by case_decide; subst.
  - intros i. by rewrite !payload_updb by (rewrite ?length_updb; done).
Qed.

Lemma link_front_links b s :
  (b < length (bufs s))%nat → (nxt s HEAD < length (bufs s))%nat →
  (HEAD < length (bufs s))%nat → b ≠ HEAD →
  (∀ i, nxt (link_front b s) i = fupd (fupd (nxt s) b (nxt s HEAD)) HEAD b i) ∧
  (∀ i, prv (link_front b s) i = fupd (fupd (prv s) b HEAD) (nxt s HEAD) b i) ∧
  (∀ i, payload (link_front b s) i = payload s i) ∧
  length (bufs (link_front b s)) = length (bufs s) ∧
  disk (link_front b s) = disk s ∧ writes (link_front b s) = writes s.
Proof.
  unfold nxt, prv. intros Hb Hn HH Hne. unfold link_front.
  set (n := b_next (getb HEAD s)) in *.
  set (s2 := updb b (with_prev HEAD) (updb b (with_next n) s)).
  assert (length (bufs s2) = length (bufs s)) as Hl2 by (subst s2; by rewrite !length_updb).
  assert (∀ i, getb i s2 = if decide (i = b) then with_prev HEAD (with_next n (getb b s))
                           else getb i s) as Hs2.
  { intros i. subst s2. rewrite getb_updb by (by rewrite length_updb).
    rewrite !getb_updb by done. repeat case_decide; congruence. }
  replace (b_next (getb HEAD s2)) with n by (rewrite Hs2, decide_False; done).
  split_and!; [| | |by rewrite !length_updb, Hl2|done|done].
  - intros i. rewrite getb_updb by (by rewrite length_updb, Hl2). unfold fupd.
    case_decide; [done|]. rewrite getb_updb by (by rewrite Hl2). rewrite !Hs2.
    repeat case_decide; subst; done.
  - intros i. rewrite getb_updb by (by rewrite length_updb, Hl2). unfold fupd.
    rewrite !getb_updb by (by rewrite Hl2). rewrite !Hs2.
    repeat case_decide; subst; done.
  - intros i. rewrite !payload_updb by (rewrite ?length_updb, ?Hl2; done).
    unfold payload. rewrite Hs2. case_decide; by subst.
Qed.

(** First buffer of [xs] that satisfies [p]. *)
Fixpoint find_buf (p : buf → bool) (s : bio) (xs : list nat) : option nat :=
  match xs with
  | [] => None
  | x :: xs => if p (getb x s) then Some x else find_buf p s xs
  end.

Lemma find_buf_Some p s xs i : find_buf p s xs = Some i → i ∈ xs ∧ p (getb i s) = true.
Proof.
  induction xs as [|x xs IH]; simpl; [done|].
  destruct (p (getb x s)) eqn:E; intros; simplify_eq; [set_solver|]. destruct IH; [done|set_solver].
Qed.

Lemma find_buf_None p s xs i : find_buf p s xs = None → i ∈ xs → p (getb i s) = false.
Proof.
  induction xs as [|x xs IH]; simpl; [set_solver|].
  destruct (p (getb x s)) eqn:E; intros; simplify_eq. set_solver.
Qed.

Lemma scan_find step g p s a xs fuel :
  links (λ i, step (getb i s)) g a (xs ++ [HEAD]) → (HEAD ∉ xs) → (length xs < fuel)%nat →
  scan step p fuel (step (getb a s)) s = find_buf p s xs.
Proof.
  revert a fuel; induction xs as [|x xs IH]; intros a [|fuel] Hl HH Hf; try (simpl in Hf; lia).
  - simpl in *. destruct Hl as (-> & _). by rewrite decide_True.
  - simpl in *. destruct Hl as (-> & _ & Hl). rewrite decide_False by set_solver.
    destruct (p (getb x s)); [done|]. apply IH; [done|set_solver|lia].
Qed.

(** ** Invariant *)

(** [l] is the list of buffers from the most to the least recently used. *)
Definition dll (s : bio) (l : list nat) : Prop :=
  links (nxt s) (prv s) HEAD (l ++ [HEAD]) ∧ l ≡ₚ seq 0 HEAD ∧ length (bufs s) = S HEAD.

Lemma dll_elem s l i : dll s l → i ∈ l ↔ (i < HEAD)%nat.
Proof. intros (_ & Hp & _). rewrite Hp, elem_of_seq. lia. Qed.

Lemma dll_NoDup s l : dll s l → NoDup (HEAD :: l).
Proof.
  intros Hd. constructor.
  - rewrite (dll_elem s l) by done. lia.
  - destruct Hd as (_ & -> & _). apply NoDup_seq.
Qed.

Lemma dll_length s l : dll s l → length l = HEAD.
Proof. intros (_ & Hp & _). apply Permutation_length in Hp. by rewrite length_seq in Hp. Qed.

Lemma dll_link_bound s l i : dll s l → (i <= HEAD)%nat → (nxt s i <= HEAD ∧ prv s i <= HEAD)%nat.
Proof.
  intros Hd Hi.
  assert (∀ f g a xs, links f g a (xs ++ [HEAD]) → (∀ x, x ∈ xs → x < HEAD)%nat →
            ∀ x, x ∈ a :: xs → (f x <= HEAD)%nat) as Hgen.
  { intros f g a xs. revert a. induction xs as [|y xs IH]; intros a Hl Hx x Hin; simpl in Hl.
    - apply list_elem_of_singleton in Hin as ->. destruct Hl as (-> & _). done.
    - destruct Hl as (Ha & _ & Hl). apply elem_of_cons in Hin as [->|Hin].
      + rewrite Ha. specialize (Hx y ltac:(by left)). lia.
      + apply (IH y); [done| |done]. intros z Hz. apply Hx. by right. }
  assert (i ∈ HEAD :: l) as Hin.
  { destruct (decide (i = HEAD)) as [->|]; [by left|]. right. apply (dll_elem s l _ Hd). lia. }
  pose proof (dll_elem s l) as He. destruct (Hd) as (Hl & Hp & _). split.
  - eapply Hgen; [exact Hl| |exact Hin]. intros x Hx. by apply (He x Hd).
  - apply links_rev in Hl. eapply Hgen; [exact Hl| |].
    + intros x Hx. rewrite list_elem_of_In, <- in_rev, <- list_elem_of_In in Hx. by apply (He x Hd).
    + apply elem_of_cons in Hin as [->|Hin]; [by left|]. right.
      by rewrite list_elem_of_In, <- in_rev, <- list_elem_of_In.
Qed.

Lemma dll_front s l1 b l2 :
  dll s (l1 ++ b :: l2) → dll (link_front b (unlink b s)) (b :: l1 ++ l2) ∧
  (∀ i, payload (link_front b (unlink b s)) i = payload s i) ∧
  disk (link_front b (unlink b s)) = disk s ∧ writes (link_front b (unlink b s)) = writes s.
Proof.
  intros Hd. pose proof (dll_NoDup _ _ Hd) as Hnd.
  assert (b < HEAD)%nat as Hb by (apply (dll_elem _ _ b Hd); set_solver).
  pose proof (dll_link_bound _ _ b Hd ltac:(lia)) as [Hn Hp].
  destruct Hd as (Hl & Hperm & Hlen). rewrite <- app_assoc in Hl. simpl in Hl.
  assert (b ≠ nxt s b) as Hne.
  { apply links_app in Hl as [_ Hl]. apply NoDup_cons in Hnd as [HH Hnd].
    apply NoDup_app in Hnd as (_ & _ & Hnd). apply NoDup_cons in Hnd as [Hb2 _].
    destruct l2 as [|y l2]; simpl in Hl; destruct Hl as (-> & _); [lia|]. set_solver. }
  destruct (unlink_links b s) as (Un & Up & Upay & Ulen & Ud & Uw); [lia..|done|].
  pose proof (links_unlink _ _ _ _ _ _ Hl Hnd) as Hl1.
  eapply (links_ext _ _ (nxt (unlink b s)) (prv (unlink b s))) in Hl1; [|done|done].
  assert (nxt (unlink b s) HEAD <= HEAD)%nat as HnH.
  { destruct (l1 ++ l2 ++ [HEAD]) as [|y r] eqn:E; [by destruct l1, l2|].
    simpl in Hl1. destruct Hl1 as (-> & _).
    assert (y ∈ l1 ++ l2 ++ [HEAD]) as Hy by (rewrite E; by left).
    destruct (decide (y = HEAD)); [lia|].
    assert (y ∈ l1 ++ b :: l2) as Hy' by set_solver.
    rewrite Hperm, elem_of_seq in Hy'. lia. }
  rewrite app_assoc in Hl1.
  destruct (link_front_links b (unlink b s)) as (Fn & Fp & Fpay & Flen & Fd & Fw); [lia..|].
  split; [|split_and!; [intros i; by rewrite Fpay, Upay|congruence..]].
  split_and!.
  - eapply links_ext; [exact Fn|exact Fp|]. simpl app. apply links_front; [done|].
      apply NoDup_cons in Hnd as [HH Hnd]. rewrite <- Permutation_middle in Hnd, HH.
      apply NoDup_cons in Hnd as [Hb2 Hnd]. constructor; [|constructor; [set_solver|done]].
      set_solver by lia.
  - rewrite <- Hperm. by rewrite Permutation_middle.
  - by rewrite Flen, Ulen.
Qed.

(** [blockno] of the file system's device is cached in buffer [i]. *)
Definition isbuf (s : bio) (i : nat) (b : Z) : Prop :=
  (i < HEAD)%nat ∧ b_dev (getb i s) = ROOTDEV ∧ b_blockno (getb i s) = b.

Record bio_inv (s : bio) (l : list nat) : Prop := {
  bi_dll : dll s l;
  bi_ref : ∀ i, (i < HEAD)%nat → 0 <= b_refcnt (getb i s) < 2 ^ 32;
  bi_dev : ∀ i, (i < HEAD)%nat → 0 < b_refcnt (getb i s) → b_dev (getb i s) = ROOTDEV;
  bi_valid : ∀ i b, isbuf s i b → b_valid (getb i s) = true;
  bi_uniq : ∀ i j b, isbuf s i b → isbuf s j b → i = j;
  bi_clean : ∀ i b, isbuf s i b → b_refcnt (getb i s) = 0 → b_data (getb i s) = disk s b;
  bi_data : ∀ i b, isbuf s i b → block_ok (b_data (getb i s));
  bi_disk : ∀ b, block_ok (disk s b) }.

(** The buffer a block is cached in; sealed, so that conversion never runs it. *)
Definition cidx_def (s : bio) (b : Z) : option nat :=
  find_buf (λ x, (b_dev x =? ROOTDEV) && (b_blockno x =? b)) s (seq 0 HEAD).
Definition cidx_aux : seal cidx_def.
Proof. by eexists. Qed.
Definition cidx : bio → Z → option nat := unseal cidx_aux.
Lemma cidx_unseal s b :
  cidx s b = find_buf (λ x, (b_dev x =? ROOTDEV) && (b_blockno x =? b)) s (seq 0 HEAD).
Proof. unfold cidx. by rewrite (seal_eq cidx_aux). Qed.

(** What [bread] returns for a block: the cached copy, or the disk's. *)
Definition view (s : bio) (b : Z) : block :=
  match cidx s b with Some i => b_data (getb i s) | None => disk s b end.

(** How many references the cache holds for a block. *)
Definition pins (s : bio) (b : Z) : Z :=
  match cidx s b with Some i => b_refcnt (getb i s) | None => 0 end.

Definition zupd {A} (f : Z → A) (b : Z) (v : A) : Z → A := λ x, if x =? b then v else f x.

Lemma zupd_eq {A} (f : Z → A) b v : zupd f b v b = v.
Proof. unfold zupd. by rewrite Z.eqb_refl. Qed.
Lemma zupd_ne {A} (f : Z → A) b v x : x ≠ b → zupd f b v x = f x.
Proof. intros. unfold zupd. by rewrite (proj2 (Z.eqb_neq x b)). Qed.

Lemma zupd_if {A} (f : Z → A) b v x : zupd f b v x = if x =? b then v else f x.
Proof. done. Qed.

Lemma bufp_true x b : (b_dev x =? ROOTDEV) && (b_blockno x =? b) = true ↔ b_dev x = ROOTDEV ∧ b_blockno x = b.
Proof. by rewrite andb_true_iff, !Z.eqb_eq. Qed.

Lemma cidx_Some s b i : cidx s b = Some i → isbuf s i b.
Proof.
  rewrite cidx_unseal. intros H. apply find_buf_Some in H as [H1 H2]. apply elem_of_seq in H1.
  apply bufp_true in H2 as [? ?]. split_and!; [lia|done|done].
Qed.

Lemma cidx_None s b i : cidx s b = None → ¬ isbuf s i b.
Proof.
  rewrite cidx_unseal. intros H (Hi & Hd & Hb). eapply find_buf_None in H; [|apply elem_of_seq; split; [apply Nat.le_0_l|exact Hi]].
  rewrite <- not_true_iff_false, bufp_true in H. tauto.
Qed.

Lemma cidx_isbuf s l b i : bio_inv s l → isbuf s i b → cidx s b = Some i.
Proof.
  intros Hinv Hi. destruct (cidx s b) as [j|] eqn:E.
  - f_equal. eapply bi_uniq; [exact Hinv|by apply cidx_Some|done].
  - by eapply cidx_None in E.
Qed.

Lemma view_isbuf s l b i : bio_inv s l → isbuf s i b → view s b = b_data (getb i s).
Proof. intros H Hi. unfold view. by rewrite (cidx_isbuf s l b i). Qed.

Lemma pins_isbuf s l b i : bio_inv s l → isbuf s i b → pins s b = b_refcnt (getb i s).
Proof. intros H Hi. unfold pins. by rewrite (cidx_isbuf s l b i). Qed.

Lemma pins_pos_isbuf s b : 0 < pins s b → ∃ i, isbuf s i b.
Proof.
  unfold pins. destruct (cidx s b) eqn:E; [|lia]. intros _. eauto using cidx_Some.
Qed.

Lemma view_ok s l b : bio_inv s l → block_ok (view s b).
Proof.
  intros H. unfold view. destruct (cidx s b) eqn:E; [|by eapply bi_disk].
  eapply bi_data; [done|]. by apply cidx_Some.
Qed.

(** Unpinned blocks are the same in the cache and on the disk. *)
Lemma view_unpinned s l b : bio_inv s l → pins s b = 0 → view s b = disk s b.
Proof.
  intros H. unfold pins, view. destruct (cidx s b) as [i|] eqn:E; [|done].
  intros Hp. eapply bi_clean; [done|by apply cidx_Some|done].
Qed.

Lemma isbuf_payload s s' i b : payload s' i = payload s i → isbuf s' i b ↔ isbuf s i b.
Proof. unfold payload, isbuf. intros [=]. repeat split; try tauto; intuition congruence. Qed.

Lemma find_buf_ext p s s' xs :
  (∀ i, i ∈ xs → p (getb i s') = p (getb i s)) → find_buf p s' xs = find_buf p s xs.
Proof.
  induction xs as [|x xs IH]; intros H; simpl; [done|].
  rewrite H by set_solver. rewrite IH; [done|set_solver].
Qed.

Lemma bio_inv_payload s s' l l' :
  bio_inv s l → dll s' l' → (∀ i, payload s' i = payload s i) → disk s' = disk s →
  bio_inv s' l' ∧ (∀ b, view s' b = view s b) ∧ (∀ b, pins s' b = pins s b) ∧
  (∀ i b, isbuf s' i b ↔ isbuf s i b).
Proof.
  intros Hinv Hd Hp Hdk.
  assert (∀ i b, isbuf s' i b ↔ isbuf s i b) as Hib by (intros; by apply isbuf_payload).
  assert (∀ b, cidx s' b = cidx s b) as Hc.
  { intros b. rewrite !cidx_unseal. apply find_buf_ext. intros i _. specialize (Hp i). unfold payload in Hp. congruence. }
  split_and!; [|intros b|intros b|done].
  - assert (∀ i, b_refcnt (getb i s') = b_refcnt (getb i s) ∧ b_dev (getb i s') = b_dev (getb i s) ∧
      b_valid (getb i s') = b_valid (getb i s) ∧ b_data (getb i s') = b_data (getb i s)) as Hf.
    { intros i. specialize (Hp i). unfold payload in Hp. split_and!; congruence. }
    destruct Hinv. split; [done|..]; intros *; rewrite ?Hib, ?Hdk;
      try (destruct (Hf i) as (E1 & E2 & E3 & E4); rewrite ?E1, ?E2, ?E3, ?E4); eauto.
  - unfold view. rewrite Hc, Hdk. destruct (cidx s b) as [i|]; [|done].
    specialize (Hp i). unfold payload in Hp. congruence.
  - unfold pins. rewrite Hc. destruct (cidx s b) as [i|]; [|done].
    specialize (Hp i). unfold payload in Hp. congruence.
Qed.

(** Changing what one buffer holds. *)
Lemma dll_updb s l i f :
  dll s l → (∀ x, b_next (f x) = b_next x ∧ b_prev (f x) = b_prev x) → (i < HEAD)%nat →
  dll (updb i f s) l.
Proof.
  intros (Hl & Hp & Hlen) Hf Hi. split_and!; [|done|by rewrite length_updb].
  eapply links_ext; [..|exact Hl]; intros x; unfold nxt, prv; rewrite getb_updb by lia;
    case_decide; subst; (apply Hf || done).
Qed.

Lemma isbuf_updb s i f j b :
  (i < length (bufs s))%nat → i ≠ j → isbuf (updb i f s) j b ↔ isbuf s j b.
Proof. intros. unfold isbuf. rewrite getb_updb by done. by rewrite decide_False by done. Qed.

Lemma bio_inv_updb s l i f :
  bio_inv s l → (i < HEAD)%nat →
  (∀ x, b_next (f x) = b_next x ∧ b_prev (f x) = b_prev x) →
  let y := f (getb i s) in
  b_dev y = ROOTDEV → b_valid y = true → 0 <= b_refcnt y < 2 ^ 32 → block_ok (b_data y) →
  (∀ j, j ≠ i → ¬ isbuf s j (b_blockno y)) →
  (b_refcnt y = 0 → b_data y = disk s (b_blockno y)) →
  bio_inv (updb i f s) l ∧ isbuf (updb i f s) i (b_blockno y) ∧
  (∀ j b, j ≠ i → isbuf (updb i f s) j b ↔ isbuf s j b).
Proof.
  intros Hinv Hi Hf y Hdev Hval Hrc Hok Hun Hcl.
  pose proof Hinv as []. destruct (bi_dll0) as (_ & _ & Hlen).
  assert (i < length (bufs s))%nat as Hil by lia.
  assert (getb i (updb i f s) = y) as Hy by (rewrite getb_updb by done; by rewrite decide_True).
  assert (isbuf (updb i f s) i (b_blockno y)) as Hbi by (split_and!; rewrite ?Hy; done).
  assert (∀ j b, j ≠ i → isbuf (updb i f s) j b ↔ isbuf s j b) as Hoth.
  { intros j b Hj. apply isbuf_updb; congruence. }
  assert (∀ b, isbuf (updb i f s) i b → b = b_blockno y) as Hbin.
  { intros b (_ & _ & Hb). by rewrite Hy in Hb. }
  assert (∀ j, j ≠ i → getb j (updb i f s) = getb j s) as Hg.
  { intros j Hj. rewrite getb_updb by done. by rewrite decide_False. }
  split_and!; [|done|done]. split.
  - by apply dll_updb.
  - intros j Hj. destruct (decide (j = i)) as [->|]; [by rewrite Hy|rewrite Hg by done; auto].
  - intros j Hj. destruct (decide (j = i)) as [->|]; [by rewrite Hy|rewrite Hg by done; auto].
  - intros j b. destruct (decide (j = i)) as [->|]; [by rewrite Hy|].
    rewrite Hg, Hoth by done. eauto.
  - intros j k b. destruct (decide (j = i)) as [->|], (decide (k = i)) as [->|]; intros H1 H2; auto.
    + apply Hbin in H1 as ->. apply Hoth in H2; [|done]. exfalso. by eapply Hun.
    + apply Hbin in H2 as ->. apply Hoth in H1; [|done]. exfalso. by eapply Hun.
    + apply Hoth in H1, H2; eauto.
  - intros j b. destruct (decide (j = i)) as [->|].
    + intros H. apply Hbin in H as ->. by rewrite Hy.
    + rewrite Hg, Hoth by done. apply bi_clean0.
  - intros j b. destruct (decide (j = i)) as [->|]; [by rewrite Hy|].
    rewrite Hg, Hoth by done. apply bi_data0.
  - done.
Qed.

Lemma view_pins_upd s s' l l' i b :
  bio_inv s l → bio_inv s' l' → disk s' = disk s → isbuf s' i b →
  (∀ j, j ≠ i → getb j s' = getb j s) → (∀ j x, j ≠ i → isbuf s' j x ↔ isbuf s j x) →
  (∀ x, x ≠ b → isbuf s i x → b_refcnt (getb i s) = 0) →
  ∀ x, view s' x = zupd (view s) b (b_data (getb i s')) x ∧
       pins s' x = zupd (pins s) b (b_refcnt (getb i s')) x.
Proof.
  intros Hinv Hinv' Hdk Hib Hg Hoth Hfree x. destruct (decide (x = b)) as [->|Hx].
  { rewrite !zupd_eq. split; [by eapply view_isbuf|by eapply pins_isbuf]. }
  rewrite !zupd_ne by done. destruct (cidx s' x) as [j|] eqn:E.
  - apply cidx_Some in E. assert (j ≠ i) as Hj.
    { intros ->. destruct E as (_ & _ & <-), Hib as (_ & _ & <-). done. }
    rewrite (view_isbuf s' l' x j), (pins_isbuf s' l' x j), Hg by done.
    apply Hoth in E; [|done]. by rewrite (view_isbuf s l x j), (pins_isbuf s l x j).
  - assert (view s' x = disk s x ∧ pins s' x = 0) as [-> ->].
    { unfold view, pins. rewrite E, Hdk. done. }
    destruct (cidx s x) as [j|] eqn:E2.
    + apply cidx_Some in E2. destruct (decide (j = i)) as [->|Hj].
      * pose proof (Hfree x Hx E2) as Hrc.
        rewrite (pins_isbuf s l x i) by done. rewrite Hrc. split; [|done].
        symmetry. apply (view_unpinned s l); [done|]. by rewrite (pins_isbuf s l x i).
      * exfalso. eapply (cidx_None s' x j); [done|]. by apply Hoth.
    + unfold view, pins. by rewrite E2.
Qed.

Lemma free_exists s l L :
  bio_inv s l → (∀ x, 0 < pins s x → x ∈ L) → (length L < HEAD)%nat →
  ∃ i, (i < HEAD)%nat ∧ b_refcnt (getb i s) = 0.
Proof.
  intros Hinv HL Hlen.
  destruct (find_buf (λ x, b_refcnt x =? 0) s (seq 0 HEAD)) as [i|] eqn:E.
  { apply find_buf_Some in E as [Hi Hr]. apply elem_of_seq in Hi. exists i.
    split; [lia|]. by apply Z.eqb_eq. }
  exfalso.
  assert (∀ i, (i < HEAD)%nat → isbuf s i (b_blockno (getb i s)) ∧ b_blockno (getb i s) ∈ L) as Hall.
  { intros i Hi.
    assert (0 < b_refcnt (getb i s)) as Hr.
    { pose proof (find_buf_None _ _ _ i E ltac:(apply elem_of_seq; lia)) as Hz.
      apply Z.eqb_neq in Hz. pose proof (bi_ref _ _ Hinv i Hi). lia. }
    assert (isbuf s i (b_blockno (getb i s))) as Hb.
    { split_and!; [done| |done]. by eapply bi_dev. }
    split; [done|]. apply HL. by rewrite (pins_isbuf s l _ i). }
  assert (NoDup ((λ i, b_blockno (getb i s)) <$> seq 0 HEAD)) as Hnd.
  { apply NoDup_fmap_2_strong; [|apply NoDup_seq]. intros i j Hi Hj Hb.
    apply elem_of_seq in Hi, Hj.
    eapply (bi_uniq _ _ Hinv i j (b_blockno (getb i s))); [by apply Hall; lia|].
    rewrite Hb. apply Hall. lia. }
  apply NoDup_ListNoDup in Hnd. eapply NoDup_incl_length in Hnd.
  - rewrite length_fmap, length_seq in Hnd. exact (Nat.lt_irrefl _ (Nat.le_lt_trans _ _ _ Hnd Hlen)).
  - intros x Hx. apply list_elem_of_In in Hx. apply list_elem_of_fmap in Hx as (i & -> & Hi).
    apply elem_of_seq in Hi. apply list_elem_of_In, Hall. lia.
Qed.

(** ** The operations *)

Definition keeps (s s' : bio) : Prop := ∀ j x, isbuf s j x → 0 < pins s x → isbuf s' j x.

Lemma updb_updb i f g s :
  (i < length (bufs s))%nat → updb i g (updb i f s) = updb i (λ x, g (f x)) s.
Proof.
  intros. unfold updb, setb, getb. simpl. rewrite list_lookup_insert_eq by done. simpl.
  by rewrite list_insert_insert_eq.
Qed.

Lemma scan_next_find s l p :
  dll s l → scan b_next p (S HEAD) (b_next (getb HEAD s)) s = find_buf p s l.
Proof.
  intros Hd. eapply scan_find; [apply Hd| |].
  - rewrite (dll_elem s l) by done. lia.
  - rewrite (dll_length s l) by done. lia.
Qed.

Lemma scan_prev_find s l p :
  dll s l → scan b_prev p (S HEAD) (b_prev (getb HEAD s)) s = find_buf p s (rev l).
Proof.
  intros Hd. eapply scan_find.
  - apply links_rev, Hd.
  - rewrite list_elem_of_In, <- in_rev, <- list_elem_of_In, (dll_elem s l) by done. lia.
  - rewrite length_rev, (dll_length s l) by done. lia.
Qed.

Lemma bget_scan_hit s l b i :
  bio_inv s l → isbuf s i b →
  find_buf (λ x, (b_dev x =? ROOTDEV) && (b_blockno x =? b)) s l = Some i.
Proof.
  intros Hinv Hi. destruct (find_buf _ s l) as [j|] eqn:E.
  - apply find_buf_Some in E as [Hj Hp]. apply bufp_true in Hp as [? ?].
    apply (dll_elem s l) in Hj; [|apply Hinv]. f_equal. by eapply (bi_uniq s l Hinv).
  - destruct Hi as (Hi & Hd & Hb). apply (dll_elem s l) in Hi; [|apply Hinv].
    eapply find_buf_None in E; [|exact Hi]. rewrite <- not_true_iff_false, bufp_true in E. tauto.
Qed.

Lemma bget_scan_miss s l b :
  bio_inv s l → (∀ i, ¬ isbuf s i b) →
  find_buf (λ x, (b_dev x =? ROOTDEV) && (b_blockno x =? b)) s l = None.
Proof.
  intros Hinv Hi. destruct (find_buf _ s l) as [j|] eqn:E; [|done].
  apply find_buf_Some in E as [Hj Hp]. apply bufp_true in Hp as [? ?].
  apply (dll_elem s l) in Hj; [|apply Hinv]. exfalso. by apply (Hi j).
Qed.

Lemma acquiresleep_Ok {S} lk h (s : S) :
  lk ∉ h → acquiresleep lk (Thread h s) = Ok tt (Thread (lk :: h) s).
Proof. intros. unfold acquiresleep; simpl. by rewrite decide_False. Qed.

(** What [bget] finds, on the abstract list. *)
Lemma bget_find h s l b :
  bio_inv s l → L_bcache ∉ h →
  bget ROOTDEV b (Thread h s) =
    match find_buf (λ x, (b_dev x =? ROOTDEV) && (b_blockno x =? b)) s l with
    | Some i => (acquiresleep (SL_buf i) ;;; ret i)
                  (Thread h (updb i (λ x, with_refcnt (u32 (b_refcnt x + 1)) x) s))
    | None => match find_buf (λ x, b_refcnt x =? 0) s (rev l) with
        | Some i => (acquiresleep (SL_buf i) ;;; ret i) (Thread h (updb i (with_block ROOTDEV b) s))
        | None => Panic "bget: no buffers"
        end
    end.
Proof.
  intros Hinv Hh. pose proof (bi_dll _ _ Hinv) as Hd. unfold bget. kstep.
  rewrite (bind_Ok get _ _ _ _ eq_refl). cbn [st held].
  rewrite (scan_next_find s l), (scan_prev_find s l) by done.
  destruct (find_buf _ s l) as [i|]; [by do 2 kstep|].
  destruct (find_buf _ s (rev l)) as [i|]; [by do 2 kstep|done].
Qed.

(** The postcondition of [bread], on the block level. *)
Definition bread_post (h : list lockname) (s : bio) (l : list nat) (b : Z) (i : nat) (s' : bio) : Prop :=
  bio_inv s' l ∧ isbuf s' i b ∧ SL_buf i ∉ h ∧
  (∀ x, view s' x = view s x) ∧ (∀ x, pins s' x = zupd (pins s) b (pins s b + 1) x) ∧
  disk s' = disk s ∧ writes s' = writes s ∧ keeps s s'.

Lemma bread_hit h s l b i :
  bio_inv s l → L_bcache ∉ h → isbuf s i b → SL_buf i ∉ h → pins s b + 1 < 2 ^ 32 →
  ∃ s', bread ROOTDEV b (Thread h s) = Ok i (Thread (SL_buf i :: h) s') ∧
    bread_post h s l b i s'.
Proof.
  intros Hinv Hh Hi Hfresh Hmax. pose proof (bi_dll _ _ Hinv) as Hd.
  assert (length (bufs s) = S HEAD) as Hbl by apply Hd.
  set (f := λ x, with_refcnt (u32 (b_refcnt x + 1)) x).
  pose proof (pins_isbuf s l b i Hinv Hi) as Hp. pose proof Hi as (Hi1 & Hi2 & Hi3).
  pose proof (bi_ref _ _ Hinv i Hi1) as Hri.
  assert (u32 (b_refcnt (getb i s) + 1) = pins s b + 1) as Hu.
  { rewrite Hp. apply u32_small. lia. }
  destruct (bio_inv_updb s l i f) as (Hinv' & Hib & Hoth); try done.
  { by eapply bi_valid. } { simpl. rewrite Hu. lia. } { by eapply bi_data. }
  { intros j Hj Hjb. simpl in Hjb. rewrite Hi3 in Hjb. apply Hj. by eapply bi_uniq. }
  { simpl. rewrite Hu. lia. }
  assert (getb i (updb i f s) = f (getb i s)) as Hgi
    by (rewrite getb_updb by lia; by rewrite decide_True).
  simpl in Hib. rewrite Hi3 in Hib.
  assert (∀ x, view (updb i f s) x = zupd (view s) b (view s b) x ∧
               pins (updb i f s) x = zupd (pins s) b (pins s b + 1) x) as Hvp.
  { intros x. destruct (view_pins_upd s (updb i f s) l l i b) with (x := x) as [-> ->]; try done.
    { intros j Hj. rewrite getb_updb by lia. by rewrite decide_False. }
    { intros y Hy (_ & _ & Hy'). congruence. }
    rewrite Hgi. simpl. by rewrite Hu, (view_isbuf s l b i). }
  exists (updb i f s). split; [|split_and!; try done].
  - unfold bread. erewrite bind_Ok; [|by rewrite (bget_find h s l b), (bget_scan_hit s l b i) by done;
      rewrite (bind_Ok _ _ _ _ _ (acquiresleep_Ok (SL_buf i) h _ Hfresh))].
    unfold gets, bind, ret; simpl. fold f. rewrite Hgi. simpl. by rewrite (bi_valid s l Hinv i b Hi).
  - intros x. destruct (Hvp x) as [-> _]. unfold zupd. destruct (Z.eqb_spec x b); by subst.
  - intros x. apply Hvp.
  - intros j x Hj _. destruct (decide (j = i)) as [->|]; [|by apply Hoth].
    destruct Hj as (_ & _ & <-). by rewrite Hi3.
Qed.

(** The buffer [bget] recycles: the least recently used of the unused ones. *)
Definition lru (s : bio) (l : list nat) : option nat := find_buf (λ x, b_refcnt x =? 0) s (rev l).

Lemma bread_miss h s l b i :
  bio_inv s l → L_bcache ∉ h → (∀ j, ¬ isbuf s j b) → lru s l = Some i → SL_buf i ∉ h →
  ∃ s', bread ROOTDEV b (Thread h s) = Ok i (Thread (SL_buf i :: h) s') ∧
    bread_post h s l b i s'.
Proof.
  intros Hinv Hh Hno E2 Hsl. pose proof (bi_dll _ _ Hinv) as Hd.
  assert (length (bufs s) = S HEAD) as Hbl by apply Hd.
  pose proof E2 as E3. apply find_buf_Some in E3 as [Hi Hr]. apply Z.eqb_eq in Hr.
  rewrite list_elem_of_In, <- in_rev, <- list_elem_of_In, (dll_elem s l) in Hi by done.
  set (f := λ x : buf, with_valid true (with_data (disk s b) (with_block ROOTDEV b x))).
  destruct (bio_inv_updb s l i f) as (Hinv' & Hib & Hoth); try done; simpl in *.
  { by eapply bi_disk. }
  assert (getb i (updb i f s) = f (getb i s)) as Hgi
    by (rewrite getb_updb by lia; by rewrite decide_True).
  assert (∀ x, view (updb i f s) x = zupd (view s) b (disk s b) x ∧
               pins (updb i f s) x = zupd (pins s) b 1 x) as Hvp.
  { intros x. destruct (view_pins_upd s (updb i f s) l l i b) with (x := x) as [-> ->]; try done.
    { intros j Hj. rewrite getb_updb by lia. by rewrite decide_False. }
    by rewrite Hgi. }
  assert (pins s b = 0 ∧ view s b = disk s b) as [Hp0 Hv0].
  { unfold pins, view. destruct (cidx s b) eqn:E; [|done]. exfalso. eapply Hno. by apply cidx_Some. }
  exists (updb i f s). split; [|split_and!; try done].
  - unfold bread. erewrite bind_Ok; [|by rewrite (bget_find h s l b), (bget_scan_miss s l b) by done;
      unfold lru in E2; rewrite E2; rewrite (bind_Ok _ _ _ _ _ (acquiresleep_Ok (SL_buf i) h _ Hsl))].
    unfold gets, virtio_disk_rw, modify, bind, ret; simpl.
    rewrite getb_updb by lia. rewrite decide_True by done. simpl. do 2 f_equal. subst f. simpl.
    rewrite <- (updb_updb i (with_block ROOTDEV b) (λ x, with_valid true (with_data (disk s b) x)))
      by lia.
    rewrite <- (updb_updb i (with_data (disk s b)) (with_valid true)) by (rewrite length_updb; lia).
    f_equal. unfold updb at 2. f_equal. rewrite getb_updb by lia. by rewrite decide_True.
  - intros x. destruct (Hvp x) as [-> _]. unfold zupd. by destruct (Z.eqb_spec x b) as [->|].
  - intros x. destruct (Hvp x) as [_ ->]. by rewrite Hp0.
  - intros j x Hj Hpx. apply Hoth; [|done]. intros ->.
    rewrite (pins_isbuf s l x i) in Hpx by done. lia.
Qed.

(** [bread] returns a locked buffer with the block's current content; the other
    blocks keep theirs, whatever buffer was recycled. *)
Lemma bread_run h s l b L :
  bio_inv s l → L_bcache ∉ h →
  (∀ i, SL_buf i ∈ h → (i < HEAD)%nat → 0 < b_refcnt (getb i s)) →
  (∀ i, isbuf s i b → SL_buf i ∉ h) →
  pins s b + 1 < 2 ^ 32 → (∀ x, 0 < pins s x → x ∈ L) → (length L < HEAD)%nat →
  ∃ i s', bread ROOTDEV b (Thread h s) = Ok i (Thread (SL_buf i :: h) s') ∧
    bread_post h s l b i s'.
Proof.
  intros Hinv Hh Hheld Hfresh Hmax HL Hlen. pose proof (bi_dll _ _ Hinv) as Hd.
  destruct (cidx s b) as [i|] eqn:E.
  { apply cidx_Some in E. exists i. apply bread_hit; auto. }
  destruct (lru s l) as [i|] eqn:E2.
  - pose proof E2 as E3. apply find_buf_Some in E3 as [Hi Hr]. apply Z.eqb_eq in Hr.
    rewrite list_elem_of_In, <- in_rev, <- list_elem_of_In, (dll_elem s l) in Hi by done.
    exists i. apply bread_miss; [done|done|by intros j; apply cidx_None|done|].
    intros Hin. specialize (Hheld i Hin Hi). lia.
  - destruct (free_exists s l L Hinv HL Hlen) as (i & Hi & Hr).
    apply (dll_elem s l) in Hi; [|done]. eapply find_buf_None in E2;
      [|rewrite list_elem_of_In, <- in_rev, <- list_elem_of_In; exact Hi].
    by apply Z.eqb_neq in E2.
Qed.

(** A change of one cached block: data and reference count, nothing else. *)
Lemma updb_run s l i b f :
  bio_inv s l → isbuf s i b →
  (∀ x, (b_valid (f x), b_dev (f x), b_blockno (f x), b_prev (f x), b_next (f x)) =
        (b_valid x, b_dev x, b_blockno x, b_prev x, b_next x)) →
  let y := f (getb i s) in
  0 <= b_refcnt y < 2 ^ 32 → block_ok (b_data y) → (b_refcnt y = 0 → b_data y = disk s b) →
  bio_inv (updb i f s) l ∧ (∀ j x, isbuf (updb i f s) j x ↔ isbuf s j x) ∧
  (∀ x, view (updb i f s) x = zupd (view s) b (b_data y) x) ∧
  (∀ x, pins (updb i f s) x = zupd (pins s) b (b_refcnt y) x) ∧
  getb i (updb i f s) = y.
Proof.
  intros Hinv Hi Hf y Hr Hok Hcl. pose proof Hi as (Hi1 & Hi2 & Hi3).
  assert (length (bufs s) = S HEAD) as Hbl by apply Hinv.
  assert (getb i (updb i f s) = y) as Hgi by (rewrite getb_updb by lia; by rewrite decide_True).
  assert (b_valid y = b_valid (getb i s) ∧ b_dev y = b_dev (getb i s) ∧
          b_blockno y = b_blockno (getb i s)) as (Hv & Hdv & Hbn).
  { specialize (Hf (getb i s)). subst y. split_and!; congruence. }
  assert (∀ j x, isbuf (updb i f s) j x ↔ isbuf s j x) as Hib.
  { intros j x. destruct (decide (j = i)) as [->|]; [|apply isbuf_updb; lia || congruence].
    unfold isbuf. by rewrite Hgi, Hdv, Hbn. }
  destruct (bio_inv_updb s l i f) as (Hinv' & _ & _); try done.
  { intros x. specialize (Hf x). split; congruence. }
  { fold y. congruence. } { fold y. rewrite Hv. by eapply bi_valid. }
  { fold y. rewrite Hbn, Hi3. intros j Hj Hjb. apply Hj. by eapply bi_uniq. }
  { fold y. by rewrite Hbn, Hi3. }
  assert (∀ x, view (updb i f s) x = zupd (view s) b (b_data y) x ∧
               pins (updb i f s) x = zupd (pins s) b (b_refcnt y) x) as Hvp.
  { rewrite <- Hgi. eapply (view_pins_upd s (updb i f s) l l i b); try done.
    - by apply Hib.
    - intros j Hj. rewrite getb_updb by lia. by rewrite decide_False.
    - intros x Hx (_ & _ & Hx'). congruence. }
  split_and!; [done|done|apply Hvp|apply Hvp|done].
Qed.

Lemma view_zupd_same s b (x : Z) : zupd (view s) b (view s b) x = view s x.
Proof. unfold zupd. by destruct (Z.eqb_spec x b) as [->|]. Qed.

(** Writing into a locked buffer. *)
Lemma setdata_run s l i b d :
  bio_inv s l → isbuf s i b → 0 < pins s b → block_ok d →
  bio_inv (updb i (with_data d) s) l ∧ (∀ j x, isbuf (updb i (with_data d) s) j x ↔ isbuf s j x) ∧
  (∀ x, view (updb i (with_data d) s) x = zupd (view s) b d x) ∧
  (∀ x, pins (updb i (with_data d) s) x = pins s x).
Proof.
  intros Hinv Hi Hp Hd. pose proof (pins_isbuf s l b i Hinv Hi) as Hpi.
  pose proof (bi_ref _ _ Hinv i (proj1 Hi)).
  destruct (updb_run s l i b (with_data d)) as (H1 & H2 & H3 & H4 & _); try done; simpl; try lia.
  split_and!; try done. intros x. rewrite H4. simpl. unfold zupd.
  destruct (Z.eqb_spec x b); by subst.
Qed.

(** A reference more or a reference less. *)
Lemma refcnt_run s l i b r :
  bio_inv s l → isbuf s i b → 0 <= pins s b + r < 2 ^ 32 →
  (pins s b + r = 0 → view s b = disk s b) →
  let s' := updb i (λ x, with_refcnt (u32 (b_refcnt x + r)) x) s in
  bio_inv s' l ∧ (∀ j x, isbuf s' j x ↔ isbuf s j x) ∧ (∀ x, view s' x = view s x) ∧
  (∀ x, pins s' x = zupd (pins s) b (pins s b + r) x) ∧
  b_refcnt (getb i s') = pins s b + r.
Proof.
  intros Hinv Hi Hp Hc s'. pose proof (pins_isbuf s l b i Hinv Hi) as Hpi.
  assert (u32 (b_refcnt (getb i s) + r) = pins s b + r) as Hu by (rewrite Hpi in *; by apply u32_small).
  destruct (updb_run s l i b (λ x, with_refcnt (u32 (b_refcnt x + r)) x)) as (H1 & H2 & H3 & H4 & H5);
    try done; simpl; try rewrite Hu; try done.
  { by eapply bi_data. } { rewrite <- (view_isbuf s l b i) by done. done. }
  simpl in *. rewrite Hu in H4. subst s'. split_and!; try done.
  - intros x. rewrite H3. rewrite <- (view_isbuf s l b i) by done. apply view_zupd_same.
  - rewrite H5. simpl. by rewrite Hu.
Qed.

Lemma bpin_run h s l i b :
  bio_inv s l → isbuf s i b → L_bcache ∉ h → pins s b + 1 < 2 ^ 32 →
  ∃ s', bpin i (Thread h s) = Ok tt (Thread h s') ∧ bio_inv s' l ∧
    (∀ j x, isbuf s' j x ↔ isbuf s j x) ∧ (∀ x, view s' x = view s x) ∧
    (∀ x, pins s' x = zupd (pins s) b (pins s b + 1) x) ∧ disk s' = disk s ∧ writes s' = writes s.
Proof.
  intros Hinv Hi Hh Hm. pose proof (pins_isbuf s l b i Hinv Hi).
  pose proof (bi_ref _ _ Hinv i (proj1 Hi)).
  destruct (refcnt_run s l i b 1) as (H1 & H2 & H3 & H4 & _); try done; try lia.
  eexists. split; [|split_and!; [exact H1|exact H2|exact H3|exact H4|done|done]].
  unfold bpin. do 2 kstep. cbn [st held]. by rewrite release_Ok.
Qed.

Lemma bunpin_run h s l i b :
  bio_inv s l → isbuf s i b → L_bcache ∉ h → 0 < pins s b →
  (pins s b = 1 → view s b = disk s b) →
  ∃ s', bunpin i (Thread h s) = Ok tt (Thread h s') ∧ bio_inv s' l ∧
    (∀ j x, isbuf s' j x ↔ isbuf s j x) ∧ (∀ x, view s' x = view s x) ∧
    (∀ x, pins s' x = zupd (pins s) b (pins s b - 1) x) ∧ disk s' = disk s ∧ writes s' = writes s.
Proof.
  intros Hinv Hi Hh Hm Hc. pose proof (pins_isbuf s l b i Hinv Hi).
  pose proof (bi_ref _ _ Hinv i (proj1 Hi)).
  destruct (refcnt_run s l i b (-1)) as (H1 & H2 & H3 & H4 & _); try done; try lia.
  { intros. apply Hc. lia. }
  eexists. split; [|split_and!; [exact H1|exact H2|exact H3|exact H4|done|done]].
  unfold bunpin. do 2 kstep. cbn [st held]. by rewrite release_Ok.
Qed.

Lemma holdingsleep_Ok {S} lk h (s : S) :
  lk ∈ h → holdingsleep lk (Thread h s) = Ok true (Thread h s).
Proof. intros. unfold holdingsleep; simpl. by rewrite bool_decide_true. Qed.

Lemma remove_lock_notin lk lk' h : lk ∉ h → lk ∉ remove_lock lk' h.
Proof. induction h as [|x h IH]; simpl; [done|]. case_decide; set_solver. Qed.

Lemma remove_lock_elem lk lk' h : lk ≠ lk' → lk ∈ remove_lock lk' h ↔ lk ∈ h.
Proof.
  intros Hne. induction h as [|x h IH]; simpl; [done|].
  case_decide; subst; rewrite ?elem_of_cons, ?IH; tauto.
Qed.

Lemma pins_nonneg s l b : bio_inv s l → 0 <= pins s b.
Proof.
  intros H. unfold pins. destruct (cidx s b) eqn:E; [|lia].
  apply cidx_Some in E. pose proof (bi_ref _ _ H n (proj1 E)). lia.
Qed.

(** The first steps of [brelse], up to the test on the reference count. *)
Lemma brelse_start h s l i b :
  bio_inv s l → isbuf s i b → SL_buf i ∈ h → L_bcache ∉ h →
  let s1 := updb i (λ x, with_refcnt (u32 (b_refcnt x - 1)) x) s in
  brelse i (Thread h s) =
    Ok tt (Thread (remove_lock (SL_buf i) h)
             (if b_refcnt (getb i s1) =? 0 then link_front i (unlink i s1) else s1)).
Proof.
  intros Hinv Hi Hin Hh s1. unfold brelse.
  rewrite (bind_Ok _ _ _ _ _ (holdingsleep_Ok (SL_buf i) h s Hin)). cbn [negb panic_if].
  do 2 kstep. cbn [st held].
  rewrite (bind_Ok _ _ _ _ _ (acquire_Ok _ _ _ (remove_lock_notin _ _ _ Hh))).
  do 2 kstep. cbn [st held]. fold s1. destruct (b_refcnt (getb i s1) =? 0).
  - do 3 kstep. apply release_Ok.
  - kstep. apply release_Ok.
Qed.

Lemma brelse_run h s l i b :
  bio_inv s l → isbuf s i b → SL_buf i ∈ h → L_bcache ∉ h → 0 < pins s b →
  (pins s b = 1 → view s b = disk s b) →
  ∃ s' l', brelse i (Thread h s) = Ok tt (Thread (remove_lock (SL_buf i) h) s') ∧ bio_inv s' l' ∧
    (∀ j x, isbuf s' j x ↔ isbuf s j x) ∧ (∀ x, view s' x = view s x) ∧
    (∀ x, pins s' x = zupd (pins s) b (pins s b - 1) x) ∧ disk s' = disk s ∧ writes s' = writes s ∧
    (pins s b = 1 → ∃ l1 l2, l = l1 ++ i :: l2 ∧ l' = i :: l1 ++ l2).
Proof.
  intros Hinv Hi Hin Hh Hm Hc. pose proof (pins_isbuf s l b i Hinv Hi) as Hpi.
  pose proof (bi_ref _ _ Hinv i (proj1 Hi)) as Hri.
  destruct (refcnt_run s l i b (-1)) as (H1 & H2 & H3 & H4 & H5); try done; try lia.
  { intros. apply Hc. lia. }
  rewrite (brelse_start h s l i b) by done.
  set (s1 := updb i (λ x, with_refcnt (u32 (b_refcnt x - 1)) x) s) in *.
  change (updb i (λ x, with_refcnt (u32 (b_refcnt x + -1)) x) s) with s1 in *.
  rewrite H5. destruct (Z.eqb_spec (pins s b + -1) 0) as [E|E].
  - assert (i ∈ l) as Hil by (apply (dll_elem s l); [apply Hinv|apply Hi]).
    apply list_elem_of_split in Hil as (l1 & l2 & ->).
    destruct (dll_front s1 l1 i l2 (bi_dll _ _ H1)) as (Hd' & Hpay & Hdk & Hw).
    destruct (bio_inv_payload s1 _ _ _ H1 Hd' Hpay Hdk) as (H1' & Hv' & Hp' & Hb').
    exists (link_front i (unlink i s1)), (i :: l1 ++ l2). split_and!; try done.
    + intros j x. by rewrite Hb', H2.
    + intros x. by rewrite Hv', H3.
    + intros x. by rewrite Hp', H4.
    + eauto.
  - exists s1, l. split_and!; try done. intros. lia.
Qed.

Lemma bwrite_run h s l i b :
  bio_inv s l → isbuf s i b → SL_buf i ∈ h →
  ∃ s', bwrite i (Thread h s) = Ok tt (Thread h s') ∧ bio_inv s' l ∧
    (∀ j x, isbuf s' j x ↔ isbuf s j x) ∧ (∀ x, view s' x = view s x) ∧
    (∀ x, pins s' x = pins s x) ∧ (∀ x, disk s' x = zupd (disk s) b (view s b) x) ∧
    writes s' = writes s ++ [(b, view s b)].
Proof.
  intros Hinv Hi Hin. pose proof Hi as (Hi1 & Hi2 & Hi3).
  pose proof (view_isbuf s l b i Hinv Hi) as Hv.
  exists (Bio (bufs s) (zupd (disk s) b (view s b)) (writes s ++ [(b, view s b)])).
  split_and!; try done.
  - unfold bwrite. rewrite (bind_Ok _ _ _ _ _ (holdingsleep_Ok (SL_buf i) h s Hin)). cbn [negb panic_if].
    unfold virtio_disk_rw, bind, modify, ret; simpl. by rewrite Hi3, Hv.
  - pose proof Hinv as []. split; try done; simpl.
    + intros j x Hj Hr. unfold zupd. destruct (Z.eqb_spec x b) as [->|]; [|by apply bi_clean0].
      rewrite Hv. rewrite (bi_uniq0 i j b); [done|done|done].
    + intros x. unfold zupd. destruct (Z.eqb_spec x b); [|done]. by apply (view_ok s l).
  - intros x. unfold view at 1. cbn [disk].
    replace (cidx (Bio _ _ _) x) with (cidx s x) by (rewrite !cidx_unseal; by apply find_buf_ext).
    destruct (cidx s x) as [j|] eqn:E.
    + unfold view. by rewrite E.
    + rewrite zupd_ne; [unfold view; by rewrite E|]. intros ->. by eapply cidx_None in E.
  - intros x. unfold pins.
    by replace (cidx (Bio _ _ _) x) with (cidx s x) by (rewrite !cidx_unseal; by apply find_buf_ext).
Qed.

(** ** Initialisation *)

(** The buffer cache in the kernel's zeroed memory. *)
Definition bio_boot (d : Z → block) : bio := Bio (replicate (S HEAD) buf0) d [].

Lemma binit_run d h :
  (∀ b, block_ok (d b)) →
  ∃ s', binit (Thread h (bio_boot d)) = Ok tt (Thread h s') ∧
    bio_inv s' (rev (seq 0 HEAD)) ∧ disk s' = d ∧ writes s' = [] ∧ (∀ i b, ¬ isbuf s' i b).
Proof.
  intros Hd.
  set (s' := foldl (λ s b, link_front b s)
               (updb HEAD (with_next HEAD) (updb HEAD (with_prev HEAD) (bio_boot d))) (seq 0 HEAD)).
  assert (∀ i, (i < HEAD)%nat → (b_dev (getb i s') = 0 ∧ b_refcnt (getb i s') = 0)) as Hz.
  { intros i Hi. apply (Forall_lookup_1 (λ i, b_dev (getb i s') = 0 ∧ b_refcnt (getb i s') = 0)
      (seq 0 HEAD) i); [|by apply lookup_seq_lt].
    vm_compute. repeat constructor. }
  assert (∀ i b, ¬ isbuf s' i b) as Hno.
  { intros i b (Hi & Hdv & _). rewrite (proj1 (Hz i Hi)) in Hdv. discriminate. }
  assert (disk s' = d) as Hdk by (vm_compute; reflexivity).
  assert (dll s' (rev (seq 0 HEAD))) as Hdll.
  { split; [|split; [apply Permutation_sym, Permutation_rev|vm_compute; reflexivity]].
    vm_compute. repeat (split; [reflexivity|]). exact I. }
  assert (writes s' = []) as Hw by (vm_compute; reflexivity).
  assert (binit (Thread h (bio_boot d)) = Ok tt (Thread h s')) as Hrun by exact eq_refl.
  clearbody s'. exists s'. split; [exact Hrun|]. split; [|split; [exact Hdk|split; [exact Hw|exact Hno]]].
  split; try (intros i; intros; exfalso; by eapply Hno).
  - exact Hdll.
  - intros i Hi. rewrite (proj2 (Hz i Hi)). lia.
  - intros i Hi. rewrite (proj2 (Hz i Hi)). lia.
  - by rewrite Hdk.
Qed.

Lemma remove_lock_head lk h : remove_lock lk (lk :: h) = h.
Proof. simpl. by rewrite decide_True. Qed.

(** With a buffer to spare, [bread] returns a locked buffer that holds the
    block's current content (the cached copy if there is one, else the disk's):
    the one the block is cached in, or the least recently used of the unused
    ones.  No block's content changes, and only [b] gains a reference. *)
Theorem bread_correct h s l b L :
  bio_inv s l → L_bcache ∉ h →
  (∀ i, SL_buf i ∈ h → (i < HEAD)%nat → 0 < b_refcnt (getb i s)) →
  (∀ i, isbuf s i b → SL_buf i ∉ h) →
  pins s b + 1 < 2 ^ 32 → (∀ x, 0 < pins s x → x ∈ L) → (length L < HEAD)%nat →
  ∃ i s', bread ROOTDEV b (Thread h s) = Ok i (Thread (SL_buf i :: h) s') ∧
    b_data (getb i s') = view s b ∧ b_blockno (getb i s') = b ∧
    (isbuf s i b ∨ (∀ j, ¬ isbuf s j b) ∧ lru s l = Some i) ∧
    bio_inv s' l ∧ (∀ x, view s' x = view s x) ∧
    (∀ x, pins s' x = zupd (pins s) b (pins s b + 1) x) ∧ disk s' = disk s ∧ writes s' = writes s.
Proof.
  intros Hinv Hh Hheld Hfresh Hmax HL Hlen.
  destruct (bread_run h s l b L) as (i & s' & E & Hinv' & Hib & Hsl & Hv & Hp & Hd & Hw & _); try done.
  exists i, s'. split_and!; try done.
  - rewrite <- Hv. symmetry. by eapply view_isbuf.
  - apply Hib.
  - destruct (cidx s b) as [j|] eqn:Ec.
    + left. apply cidx_Some in Ec. destruct (bread_hit h s l b j) as (s2 & E2 & _); auto. congruence.
    + right. split; [intros j; by apply cidx_None|].
      destruct (lru s l) as [j|] eqn:El.
      * destruct (decide (SL_buf j ∈ h)) as [Hj|Hj].
        { unfold lru in El. apply find_buf_Some in El as [Hjl Hr]. apply Z.eqb_eq in Hr.
          rewrite list_elem_of_In, <- in_rev, <- list_elem_of_In, (dll_elem s l) in Hjl by apply Hinv.
          specialize (Hheld j Hj Hjl). lia. }
        destruct (bread_miss h s l b j) as (s2 & E2 & _); auto; [by intros; apply cidx_None|congruence].
      * exfalso. unfold bread in E. apply bind_inv_Ok in E as (a & t1 & E & _).
        rewrite (bget_find h s l b) in E by done.
        rewrite (bget_scan_miss s l b) in E by (done || by intros; apply cidx_None).
        unfold lru in El. by rewrite El in E.
Qed.

(** Reading a block, overwriting it, [bwrite] and [brelse] put exactly this
    content on the disk, as one write; every other block keeps its content in
    the cache and on the disk, and no reference is left behind. *)
Theorem bwrite_reaches_disk h s l b L d :
  bio_inv s l → L_bcache ∉ h →
  (∀ i, SL_buf i ∈ h → (i < HEAD)%nat → 0 < b_refcnt (getb i s)) →
  (∀ i, isbuf s i b → SL_buf i ∉ h) →
  pins s b + 1 < 2 ^ 32 → (∀ x, 0 < pins s x → x ∈ L) → (length L < HEAD)%nat → block_ok d →
  ∃ s' l', (let! i := bread ROOTDEV b in
            modify (updb i (with_data d)) ;;; bwrite i ;;; brelse i) (Thread h s) = Ok tt (Thread h s') ∧
    bio_inv s' l' ∧ (∀ x, view s' x = zupd (view s) b d x) ∧ (∀ x, pins s' x = pins s x) ∧
    (∀ x, disk s' x = zupd (disk s) b d x) ∧ writes s' = writes s ++ [(b, d)].
Proof.
  intros Hinv Hh Hheld Hfresh Hmax HL Hlen Hok.
  destruct (bread_run h s l b L) as (i & s1 & E1 & Hinv1 & Hib & Hsl & Hv1 & Hp1 & Hd1 & Hw1 & _); try done.
  assert (0 < pins s1 b) as Hpos.
  { rewrite Hp1, zupd_eq. unfold pins. destruct (cidx s b) eqn:E; [|lia].
    apply cidx_Some in E. pose proof (bi_ref _ _ Hinv n (proj1 E)). lia. }
  destruct (setdata_run s1 l i b d) as (Hinv2 & Hb2 & Hv2 & Hp2); try done.
  destruct (bwrite_run (SL_buf i :: h) (updb i (with_data d) s1) l i b)
    as (s3 & E3 & Hinv3 & Hb3 & Hv3 & Hp3 & Hd3 & Hw3); [done|by apply Hb2|set_solver|].
  rewrite Hv2, zupd_eq in Hd3, Hw3.
  destruct (brelse_run (SL_buf i :: h) s3 l i b)
    as (s4 & l4 & E4 & Hinv4 & Hb4 & Hv4 & Hp4 & Hd4 & Hw4 & _);
    [done|by apply Hb3, Hb2|set_solver|set_solver|by rewrite Hp3, Hp2| |].
  { intros _. by rewrite Hv3, Hv2, Hd3, !zupd_eq. }
  rewrite remove_lock_head in E4.
  exists s4, l4. split_and!; try done.
  - rewrite (bind_Ok _ _ _ _ _ E1). kstep. cbn [st held]. by rewrite (bind_Ok _ _ _ _ _ E3).
  - intros x. rewrite Hv4, Hv3, Hv2. unfold zupd. destruct (x =? b); [done|apply Hv1].
  - intros x. rewrite Hp4. unfold zupd. rewrite !Hp3, !Hp2, !Hp1, zupd_eq. unfold zupd.
    destruct (Z.eqb_spec x b) as [->|]; [lia|done].
  - intros x. rewrite Hd4, Hd3. cbn [disk updb setb]. unfold zupd. cbn [disk updb setb]. by rewrite Hd1.
  - rewrite Hw4, Hw3. simpl. by rewrite Hw1.
Qed.

(** From the kernel's zeroed memory, [binit] links all [NBUF] buffers into
    a well-formed list, with nothing cached and the disk untouched. *)
Theorem binit_correct d h :
  (∀ b, block_ok (d b)) →
  ∃ s', binit (Thread h (bio_boot d)) = Ok tt (Thread h s') ∧
    bio_inv s' (rev (seq 0 HEAD)) ∧ disk s' = d ∧ writes s' = [] ∧
    (∀ b, view s' b = d b) ∧ (∀ b, pins s' b = 0).
Proof.
  intros Hd. destruct (binit_run d h Hd) as (s' & E & Hinv & Hdk & Hw & Hno).
  assert (∀ b, cidx s' b = None) as Hc.
  { intros b. destruct (cidx s' b) eqn:Ec; [|done]. exfalso. eapply Hno. by apply cidx_Some. }
  exists s'. split_and!; try done; intros b; unfold view, pins; rewrite Hc; congruence.
Qed.

(** Block 5 read from a fresh cache over a disk of zeros. *)
Lemma bread_correct_witness :
  ∃ s i s', binit (Thread [] (bio_boot (λ _, zero_block))) = Ok tt (Thread [] s) ∧
    bread ROOTDEV 5 (Thread [] s) = Ok i (Thread [SL_buf i] s') ∧ b_data (getb i s') = zero_block.
Proof.
  destruct (binit_run (λ _, zero_block) [] (λ _, zero_block_ok)) as (s & E & Hinv & Hdk & Hw & Hno).
  assert (∀ b, cidx s b = None) as Hc.
  { intros b. destruct (cidx s b) eqn:Ec; [|done]. exfalso. eapply Hno. by apply cidx_Some. }
  assert (∀ b, pins s b = 0) as Hp by (intros b; unfold pins; by rewrite Hc).
  destruct (bread_correct [] s (rev (seq 0 HEAD)) 5 []) as (i & s' & E' & Hdat & _).
  - exact Hinv.
  - apply not_elem_of_nil.
  - intros i Hi. by apply not_elem_of_nil in Hi.
  - intros i _. apply not_elem_of_nil.
  - rewrite Hp. lia.
  - intros x. rewrite Hp. lia.
  - vm_compute. lia.
  - exists s, i, s'. split; [exact E|]. split; [exact E'|].
    rewrite Hdat. unfold view. by rewrite Hc, Hdk.
Defined.

(** A block of ones written through a fresh cache. *)
Lemma bwrite_reaches_disk_witness :
  ∃ s s', binit (Thread [] (bio_boot (λ _, zero_block))) = Ok tt (Thread [] s) ∧
    (let! i := bread ROOTDEV 5 in
     modify (updb i (with_data (replicate 1024 1))) ;;; bwrite i ;;; brelse i) (Thread [] s)
      = Ok tt (Thread [] s') ∧
    disk s' 5 = replicate 1024 1 ∧ disk s' 6 = zero_block.
Proof.
  destruct (binit_run (λ _, zero_block) [] (λ _, zero_block_ok)) as (s & E & Hinv & Hdk & Hw & Hno).
  assert (∀ b, cidx s b = None) as Hc.
  { intros b. destruct (cidx s b) eqn:Ec; [|done]. exfalso. eapply Hno. by apply cidx_Some. }
  assert (∀ b, pins s b = 0) as Hp by (intros b; unfold pins; by rewrite Hc).
  destruct (bwrite_reaches_disk [] s (rev (seq 0 HEAD)) 5 [] (replicate 1024 1))
    as (s' & l' & E' & _ & _ & _ & Hd & _).
  - exact Hinv.
  - apply not_elem_of_nil.
  - intros i Hi. by apply not_elem_of_nil in Hi.
  - intros i _. apply not_elem_of_nil.
  - rewrite Hp. lia.
  - intros x. rewrite Hp. lia.
  - vm_compute. lia.
  - split; [reflexivity|]. apply Forall_replicate. unfold is_byte. lia.
  - exists s, s'. split; [exact E|]. split; [exact E'|].
    rewrite !Hd, Hdk. unfold zupd. split; reflexivity.
Defined.

Lemma binit_correct_witness :
  ∃ s', binit (Thread [] (bio_boot (λ _, zero_block))) = Ok tt (Thread [] s') ∧ pins s' 5 = 0.
Proof.
  destruct (binit_correct (λ _, zero_block) [] (λ _, zero_block_ok)) as (s' & E & _ & _ & _ & _ & Hp).
  exists s'. split; [exact E|apply Hp].
Defined.

(** The clients reason with the lemmas above. *)
#[global] Opaque HEAD view pins.
