(* ===== verification/Log.v ===== *)
(** * log.c: the write-ahead log

    [lstate] is the buffer cache with [struct log].  A transaction is the list
    of block numbers in the in-memory header; the blocks themselves stay pinned
    in the cache until [commit] has copied them to the log area, written the
    header (the commit point), copied them home and cleared the header. *)

From S2P Require Import Prelude Param Bio.

Record logheader := LogHeader { lh_n : Z; lh_block : list Z }.

Record log := Log {
  lg_start : Z;
  lg_size : Z;
  lg_outstanding : Z;
  lg_committing : bool;
  lg_dev : Z;
  lg_lh : logheader;
  lg_wakeups : nat }.                 (* how often wakeup(&log) was called *)

Record lstate := LState { lbio : bio; llog : log }.

Definition set_bio (b : bio) (s : lstate) : lstate := LState b (llog s).
Definition updl (f : log → log) (s : lstate) : lstate := LState (lbio s) (f (llog s)).
Definition bio_op {A} (m : M bio A) : M lstate A := lift lbio set_bio m.

Definition with_outstanding (n : Z) (g : log) : log :=
  Log (lg_start g) (lg_size g) n (lg_committing g) (lg_dev g) (lg_lh g) (lg_wakeups g).
Definition with_committing (c : bool) (g : log) : log :=
  Log (lg_start g) (lg_size g) (lg_outstanding g) c (lg_dev g) (lg_lh g) (lg_wakeups g).
Definition with_lh (h : logheader) (g : log) : log :=
  Log (lg_start g) (lg_size g) (lg_outstanding g) (lg_committing g) (lg_dev g) h (lg_wakeups g).
Definition with_area (start size dev : Z) (g : log) : log :=
  Log start size (lg_outstanding g) (lg_committing g) dev (lg_lh g) (lg_wakeups g).
Definition set_lh_n (n : Z) (g : log) : log := with_lh (LogHeader n (lh_block (lg_lh g))) g.
Definition set_lh_block (i : nat) (b : Z) (g : log) : log :=
  with_lh (LogHeader (lh_n (lg_lh g)) (<[i := b]> (lh_block (lg_lh g)))) g.

(** [wakeup(&log)]: the sleepers on the log's channel become runnable. *)
Definition wakeup_log : M lstate unit :=
  modify (updl (λ g, Log (lg_start g) (lg_size g) (lg_outstanding g) (lg_committing g)
                       (lg_dev g) (lg_lh g) (S (lg_wakeups g)))).

(** [log.lh.block[i]] and its assignment; the array has [LOGSIZE] entries. *)
Definition get_block (i : nat) : M lstate Z :=
  let! b := gets (λ s, lh_block (lg_lh (llog s)) !! i) in
  match b with Some b => ret b | None => undefined "log.lh.block[i]" end.

Definition put_block (i : nat) (b : Z) : M lstate unit :=
  let! l := gets (λ s, length (lh_block (lg_lh (llog s)))) in
  if decide (i < l)%nat then modify (updl (set_lh_block i b)) else undefined "log.lh.block[i]".

(** [memmove(to->data, from->data, BSIZE)] *)
Definition copy_data (to from : nat) : M bio unit :=
  modify (λ s, updb to (with_data (b_data (getb from s))) s).

(** [n] and [block[]] of a header inside a block of data. *)
Definition hd_n (d : block) : Z := s32 (get32 d 0).
Definition hd_block (d : block) (i : nat) : Z := s32 (get32 d (1 + i)%nat).

(** The body of the loop of [install_trans]. *)
Definition install_trans_step (recovering : bool) (tail : nat) : M lstate unit :=
  let! g := gets llog in
  let! lbuf := bio_op (bread (lg_dev g) (u32 (lg_start g + Z.of_nat tail + 1))) in
  let! dst := get_block tail in
  let! dbuf := bio_op (bread (lg_dev g) (u32 dst)) in
  bio_op (copy_data dbuf lbuf) ;;;
  bio_op (bwrite dbuf) ;;;
  (if recovering then ret tt else bio_op (bunpin dbuf)) ;;;
  bio_op (brelse lbuf) ;;;
  bio_op (brelse dbuf).

Definition install_trans (recovering : bool) : M lstate unit :=
  let! n := gets (λ s, lh_n (lg_lh (llog s))) in
  for_range 0 (Z.to_nat n) (install_trans_step recovering).

Definition read_head : M lstate unit :=
  let! g := gets llog in
  let! b := bio_op (bread (lg_dev g) (u32 (lg_start g))) in
  let! d := gets (λ s, b_data (getb b (lbio s))) in
  modify (updl (set_lh_n (hd_n d))) ;;;
  for_range 0 (Z.to_nat (hd_n d)) (λ i, put_block i (hd_block d i)) ;;;
  bio_op (brelse b).

Definition write_head : M lstate unit :=
  let! g := gets llog in
  let! b := bio_op (bread (lg_dev g) (u32 (lg_start g))) in
  bio_op (modify (updb b (λ x, with_data (set32 (b_data x) 0 (lh_n (lg_lh g))) x))) ;;;
  for_range 0 (Z.to_nat (lh_n (lg_lh g))) (λ i,
    let! v := get_block i in
    bio_op (modify (updb b (λ x, with_data (set32 (b_data x) (1 + i) v) x)))) ;;;
  bio_op (bwrite b) ;;;
  bio_op (brelse b).

Definition recover_from_log : M lstate unit :=
  read_head ;;;
  install_trans true ;;;
  modify (updl (set_lh_n 0)) ;;;
  write_head.

(** The superblock's fields that [initlog] uses; [sizeof(struct logheader)] is
    [4 + 4 * LOGSIZE]. *)
Definition initlog (dev logstart nlog : Z) : M lstate unit :=
  panic_if (BSIZE <=? 4 + 4 * LOGSIZE) "initlog: too big logheader" ;;;
  modify (updl (with_area (s32 logstart) (s32 nlog) dev)) ;;;
  recover_from_log.

(** One element of [env] for every time the loop sleeps. *)
Fixpoint begin_op_loop (env : list (lstate → lstate)) : M lstate unit :=
  let! g := gets llog in
  if lg_committing g || (LOGSIZE <? lh_n (lg_lh g) + (lg_outstanding g + 1) * MAXOPBLOCKS) then
    match env with
    | e :: env => sleep_round L_log e ;;; begin_op_loop env
    | [] => fun t => Asleep t
    end
  else
    modify (updl (with_outstanding (lg_outstanding g + 1))) ;;;
    release L_log.

Definition begin_op (env : list (lstate → lstate)) : M lstate unit :=
  acquire L_log ;;; begin_op_loop env.

(** The body of the loop of [write_log]. *)
Definition write_log_step (tail : nat) : M lstate unit :=
  let! g := gets llog in
  let! to := bio_op (bread (lg_dev g) (u32 (lg_start g + Z.of_nat tail + 1))) in
  let! src := get_block tail in
  let! from := bio_op (bread (lg_dev g) (u32 src)) in
  bio_op (copy_data to from) ;;;
  bio_op (bwrite to) ;;;
  bio_op (brelse from) ;;;
  bio_op (brelse to).

Definition write_log : M lstate unit :=
  let! n := gets (λ s, lh_n (lg_lh (llog s))) in
  for_range 0 (Z.to_nat n) write_log_step.

Definition commit : M lstate unit :=
  let! n := gets (λ s, lh_n (lg_lh (llog s))) in
  if 0 <? n then
    write_log ;;;
    write_head ;;;
    install_trans false ;;;
    modify (updl (set_lh_n 0)) ;;;
    write_head
  else ret tt.

Definition end_op : M lstate unit :=
  acquire L_log ;;;
  modify (updl (λ g, with_outstanding (lg_outstanding g - 1) g)) ;;;
  let! g := gets llog in
  panic_if (lg_committing g) "log.committing" ;;;
  (if lg_outstanding g =? 0
   then modify (updl (with_committing true))
   else wakeup_log) ;;;
  release L_log ;;;
  (if lg_outstanding g =? 0
   then
     commit ;;;
     acquire L_log ;;;
     modify (updl (with_committing false)) ;;;
     wakeup_log ;;;
     release L_log
   else ret tt).

(** The position of [blockno] among the first [n] blocks of the header, or [n]. *)
Fixpoint absorb (bl : list Z) (n : nat) (blockno : Z) : nat :=
  match n, bl with
  | S n, b :: bl => if b =? blockno then O else S (absorb bl n blockno)
  | _, _ => O
  end.

Definition log_write (b : nat) : M lstate unit :=
  acquire L_log ;;;
  let! g := gets llog in
  panic_if ((LOGSIZE <=? lh_n (lg_lh g)) || (lg_size g - 1 <=? lh_n (lg_lh g)))
    "too big a transaction" ;;;
  panic_if (lg_outstanding g <? 1) "log_write outside of trans" ;;;
  let! blockno := gets (λ s, b_blockno (getb b (lbio s))) in
  let i := absorb (lh_block (lg_lh g)) (Z.to_nat (lh_n (lg_lh g))) (s32 blockno) in
  put_block i (s32 blockno) ;;;
  (if Z.of_nat i =? lh_n (lg_lh g)
   then bio_op (bpin b) ;;; modify (updl (λ g, set_lh_n (lh_n (lg_lh g) + 1) g))
   else ret tt) ;;;
  release L_log.

(** ** One round of the copying loops *)

Lemma bio_op_Ok {A} (m : M bio A) h b g a h' b' :
  m (Thread h b) = Ok a (Thread h' b') →
  bio_op m (Thread h (LState b g)) = Ok a (Thread h' (LState b' g)).
Proof. intros E. unfold bio_op, lift; cbn [held st lbio]. by rewrite E. Qed.

Lemma get_block_Ok h s i b :
  lh_block (lg_lh (llog s)) !! i = Some b → get_block i (Thread h s) = Ok b (Thread h s).
Proof. intros E. unfold get_block, gets, bind; cbn [st]. by rewrite E. Qed.

Lemma put_block_Ok h s i b :
  (i < length (lh_block (lg_lh (llog s))))%nat →
  put_block i b (Thread h s) = Ok tt (Thread h (updl (set_lh_block i b) s)).
Proof. intros E. unfold put_block, gets, bind; cbn [st]. by rewrite decide_True. Qed.

(** No buffer is locked and the cache's lock is free. *)
Definition quiet (h : list lockname) : Prop := L_bcache ∉ h ∧ ∀ i, SL_buf i ∉ h.

(** Run [m] by its equation [E], in the buffer cache or in the whole state. *)
Ltac bio_step E := rewrite (bind_Ok _ _ _ _ _ (bio_op_Ok _ _ _ _ _ _ _ E)).

(** Two buffers read one after the other; the second block is in use already
    or there is a buffer for it. *)
Lemma bread2_run h s l a b L :
  bio_inv s l → quiet h → a ≠ b → pins s a + 1 < 2 ^ 32 → pins s b + 1 < 2 ^ 32 →
  (∀ x, 0 < pins s x → x ∈ L) → (length L < HEAD)%nat →
  (0 < pins s b ∨ (S (length L) < HEAD)%nat) →
  ∃ i j s1 s2, bread ROOTDEV a (Thread h s) = Ok i (Thread (SL_buf i :: h) s1) ∧
    bread ROOTDEV b (Thread (SL_buf i :: h) s1) = Ok j (Thread (SL_buf j :: SL_buf i :: h) s2) ∧
    bio_inv s2 l ∧ isbuf s2 i a ∧ isbuf s2 j b ∧ i ≠ j ∧
    (∀ x, view s2 x = view s x) ∧
    (∀ x, pins s2 x = zupd (zupd (pins s) a (pins s a + 1)) b (pins s b + 1) x) ∧
    disk s2 = disk s ∧ writes s2 = writes s.
Proof.
  intros Hinv [Hq1 Hq2] Hab Hma Hmb HL Hlen Hroom.
  pose proof (pins_nonneg s l a Hinv) as Hpa.
  destruct (bread_run h s l a L Hinv Hq1 (λ k Hk, False_ind _ (Hq2 k Hk)) (λ k _, Hq2 k) Hma HL Hlen)
    as (i & s1 & E1 & Hinv1 & Hi & _ & Hv1 & Hp1 & Hd1 & Hw1 & Hk1).
  assert (∃ j s2, bread ROOTDEV b (Thread (SL_buf i :: h) s1) =
            Ok j (Thread (SL_buf j :: SL_buf i :: h) s2) ∧ bread_post (SL_buf i :: h) s1 l b j s2)
    as (j & s2 & E2 & Hinv2 & Hj & Hjh & Hv2 & Hp2 & Hd2 & Hw2 & Hk2).
  { assert (pins s1 b = pins s b) as Hpb by (rewrite Hp1; by apply zupd_ne).
    destruct Hroom as [Hpin|Hroom].
    - destruct (pins_pos_isbuf s b) as [j Hj]; [lia|].
      pose proof (Hk1 j b Hj ltac:(lia)) as Hj1. exists j.
      apply bread_hit; [done|set_solver|done| |lia].
      apply not_elem_of_cons. split; [|apply Hq2]. intros [= ->].
      destruct Hi as (_ & _ & <-), Hj1 as (_ & _ & <-). by apply Hab.
    - apply (bread_run _ s1 l b (a :: L)); [done|set_solver| | |lia| |exact Hroom].
      + intros k Hk Hkh. apply elem_of_cons in Hk as [[= ->]|Hk]; [|by apply Hq2 in Hk].
        rewrite <- (pins_isbuf s1 l a i), Hp1, zupd_eq by done. lia.
      + intros k Hk. apply not_elem_of_cons. split; [|apply Hq2]. intros [= ->].
        destruct Hi as (_ & _ & <-), Hk as (_ & _ & <-). by apply Hab.
      + intros x. rewrite Hp1, zupd_if. destruct (Z.eqb_spec x a); [subst; set_solver|].
        intros Hx. apply HL in Hx. set_solver. }
  exists i, j, s1, s2. split_and!; try done.
  - apply Hk2; [done|]. rewrite Hp1, zupd_eq. lia.
  - set_solver.
  - intros x. by rewrite Hv2, Hv1.
  - intros x. rewrite Hp2, !zupd_if, !Hp1, !zupd_if.
    destruct (Z.eqb_spec x b) as [->|]; [|done]. by rewrite (proj2 (Z.eqb_neq b a)).
  - congruence.
  - congruence.
Qed.

(** [copy_data] and [bwrite]: block [a] becomes a copy of block [b]. *)
Lemma copy_write_run h s l i j a b :
  bio_inv s l → isbuf s i a → isbuf s j b → 0 < pins s a → SL_buf i ∈ h →
  ∃ s1 s2, copy_data i j (Thread h s) = Ok tt (Thread h s1) ∧ bwrite i (Thread h s1) = Ok tt (Thread h s2) ∧
    bio_inv s2 l ∧ (∀ k x, isbuf s2 k x ↔ isbuf s k x) ∧
    (∀ x, view s2 x = zupd (view s) a (view s b) x) ∧ (∀ x, pins s2 x = pins s x) ∧
    (∀ x, disk s2 x = zupd (disk s) a (view s b) x) ∧ writes s2 = writes s ++ [(a, view s b)].
Proof.
  intros Hinv Hi Hj Hp Hin. set (d := view s b).
  assert (b_data (getb j s) = d) as Hd by (symmetry; by apply (view_isbuf s l)).
  destruct (setdata_run s l i a d) as (Hinv1 & Hb1 & Hv1 & Hp1); try done; [by eapply view_ok|].
  set (s1 := updb i (with_data d) s) in *.
  destruct (bwrite_run h s1 l i a) as (s2 & E2 & Hinv2 & Hb2 & Hv2 & Hp2 & Hd2 & Hw2);
    [done|by apply Hb1|done|].
  exists s1, s2. split; [unfold copy_data, modify; cbn [held st]; by rewrite Hd|].
  rewrite Hv1, zupd_eq in Hd2, Hw2. split_and!; try done.
  - intros k x. by rewrite Hb2, Hb1.
  - intros x. by rewrite Hv2, Hv1.
  - intros x. by rewrite Hp2, Hp1.
Qed.

(** The header names the block [b] at [tail], and the log area is in range. *)
Record slot (g : log) (tail : nat) (b : Z) : Prop := {
  sl_dev : lg_dev g = ROOTDEV;
  sl_block : lh_block (lg_lh g) !! tail = Some b;
  sl_b : 0 <= b < 2 ^ 31;
  sl_start : 0 <= lg_start g ∧ lg_start g + Z.of_nat tail + 1 < 2 ^ 31;
  sl_ne : b ≠ lg_start g + Z.of_nat tail + 1 }.

(** The block of the log area that [tail] names. *)
Definition logblk (g : log) (tail : nat) : Z := lg_start g + Z.of_nat tail + 1.

Lemma release2_run h s l i j a b :
  bio_inv s l → isbuf s i a → isbuf s j b → i ≠ j → a ≠ b → L_bcache ∉ h →
  SL_buf i ∈ h → SL_buf j ∈ h → 0 < pins s a → 0 < pins s b →
  (pins s a = 1 → view s a = disk s a) → (pins s b = 1 → view s b = disk s b) →
  ∃ s1 s2 l', brelse i (Thread h s) = Ok tt (Thread (remove_lock (SL_buf i) h) s1) ∧
    brelse j (Thread (remove_lock (SL_buf i) h) s1) =
      Ok tt (Thread (remove_lock (SL_buf j) (remove_lock (SL_buf i) h)) s2) ∧
    bio_inv s2 l' ∧ (∀ x, view s2 x = view s x) ∧
    (∀ x, pins s2 x = zupd (zupd (pins s) a (pins s a - 1)) b (pins s b - 1) x) ∧
    disk s2 = disk s ∧ writes s2 = writes s.
Proof.
  intros Hinv Hi Hj Hij Hab Hh Hih Hjh Hpa Hpb Hva Hvb.
  destruct (brelse_run h s l i a) as (s1 & l1 & E1 & Hinv1 & Hb1 & Hv1 & Hp1 & Hd1 & Hw1 & _); auto.
  assert (pins s1 b = pins s b) as Hpb1 by (rewrite Hp1; apply zupd_ne; congruence).
  destruct (brelse_run (remove_lock (SL_buf i) h) s1 l1 j b)
    as (s2 & l2 & E2 & Hinv2 & Hb2 & Hv2 & Hp2 & Hd2 & Hw2 & _).
  - done.
  - by apply Hb1.
  - apply remove_lock_elem; [congruence|done].
  - by apply remove_lock_notin.
  - lia.
  - rewrite Hpb1, Hv1, Hd1. done.
  - exists s1, s2, l2. split_and!; try done.
    + intros x. by rewrite Hv2, Hv1.
    + intros x. rewrite Hp2, !zupd_if, !Hp1, !zupd_if.
      destruct (Z.eqb_spec x b) as [->|]; [|done]. by rewrite (proj2 (Z.eqb_neq b a)) by congruence.
    + congruence.
    + congruence.
Qed.

Lemma write_log_step_run h s l g tail b L :
  bio_inv s l → quiet h → slot g tail b → pins s (logblk g tail) = 0 → pins s b = 1 →
  (∀ x, 0 < pins s x → x ∈ L) → (length L < HEAD)%nat →
  ∃ s' l', write_log_step tail (Thread h (LState s g)) = Ok tt (Thread h (LState s' g)) ∧
    bio_inv s' l' ∧ (∀ x, view s' x = zupd (view s) (logblk g tail) (view s b) x) ∧
    (∀ x, pins s' x = pins s x) ∧ (∀ x, disk s' x = zupd (disk s) (logblk g tail) (view s b) x) ∧
    writes s' = writes s ++ [(logblk g tail, view s b)].
Proof.
  intros Hinv Hq Hs Hp0 Hp1 HL Hlen. destruct Hs as [Hdev Hblk Hb Hst Hne]. fold (logblk g tail) in *.
  destruct (bread2_run h s l (logblk g tail) b L)
    as (i & j & s1 & s2 & E1 & E2 & Hinv2 & Hi & Hj & Hij & Hv2 & Hp2 & Hd2 & Hw2);
    [done|done|congruence|lia|lia|done|done|left; lia|].
  assert (pins s2 (logblk g tail) = 1 ∧ pins s2 b = 2) as [Hpa2 Hpb2].
  { rewrite !Hp2, zupd_eq, zupd_ne, zupd_eq by congruence. lia. }
  set (h2 := SL_buf j :: SL_buf i :: h) in *.
  destruct (copy_write_run h2 s2 l i j (logblk g tail) b)
    as (s3 & s4 & E3 & E4 & Hinv4 & Hb4 & Hv4 & Hp4 & Hd4 & Hw4); [done..|lia|set_solver|].
  destruct (release2_run h2 s4 l j i b (logblk g tail))
    as (s5 & s6 & l6 & E5 & E6 & Hinv6 & Hv6 & Hp6 & Hd6 & Hw6);
    [done|by apply Hb4|by apply Hb4|congruence|congruence|subst h2; destruct Hq; set_solver
    |set_solver|set_solver|rewrite Hp4; lia|rewrite Hp4; lia|rewrite Hp4; lia| |].
  { intros _. by rewrite Hv4, Hd4, !zupd_eq. }
  exists s6, l6. split_and!; try done.
  - unfold write_log_step. kstep. cbn [llog st]. rewrite Hdev.
    change (lg_start g + Z.of_nat tail + 1) with (logblk g tail).
    rewrite (u32_small (logblk g tail)) by (unfold logblk in *; lia).
    bio_step E1. rewrite (bind_Ok _ _ _ _ _ (get_block_Ok _ (LState s1 g) _ _ Hblk)).
    rewrite u32_small by lia. bio_step E2. bio_step E3. bio_step E4. bio_step E5.
    rewrite (bio_op_Ok _ _ _ _ _ _ _ E6). subst h2. do 3 f_equal. simpl.
    rewrite decide_True by done. simpl. by rewrite decide_True.
  - intros x. rewrite Hv6, Hv4, !zupd_if, !Hv2. done.
  - intros x. rewrite Hp6, !zupd_if, !Hp4, !Hp2, !zupd_if.
    repeat case_match; repeat match goal with H : (_ =? _) = _ |- _ => 
      first [apply Z.eqb_eq in H | apply Z.eqb_neq in H] end; subst; try lia; congruence.
  - intros x. rewrite Hd6, Hd4, !zupd_if, !Hv2, !Hd2. done.
  - rewrite Hw6, Hw4, Hw2, Hv2. done.
Qed.

Ltac zeqb_cases :=
  repeat case_match; repeat match goal with
    | H : (_ =? _) = true |- _ => apply Z.eqb_eq in H
    | H : (_ =? _) = false |- _ => apply Z.eqb_neq in H
    end; subst.

(** The middle of a round of [install_trans]: the block is home; outside of
    recovery its pin is dropped. *)
Lemma maybe_unpin_run (recovering : bool) h s l j b :
  bio_inv s l → isbuf s j b → L_bcache ∉ h → pins s b = (if recovering then 1 else 2) →
  ∃ s', (if recovering then ret tt else bunpin j) (Thread h s) = Ok tt (Thread h s') ∧ bio_inv s' l ∧
    (∀ k x, isbuf s' k x ↔ isbuf s k x) ∧ (∀ x, view s' x = view s x) ∧
    (∀ x, pins s' x = zupd (pins s) b 1 x) ∧ disk s' = disk s ∧ writes s' = writes s.
Proof.
  intros Hinv Hj Hh Hp. destruct recovering.
  - exists s. split_and!; try done. intros x. rewrite zupd_if. by zeqb_cases.
  - destruct (bunpin_run h s l j b) as (s' & E & H1 & H2 & H3 & H4 & H5 & H6); [done..|lia|lia|].
    exists s'. split_and!; try done. intros x. rewrite H4, Hp. done.
Qed.

Lemma install_trans_step_run (recovering : bool) h s l g tail b L :
  bio_inv s l → quiet h → slot g tail b → pins s (logblk g tail) = 0 →
  pins s b = (if recovering then 0 else 1) →
  (∀ x, 0 < pins s x → x ∈ L) → (length L < HEAD)%nat →
  (recovering = true → (S (length L) < HEAD)%nat) →
  ∃ s' l', install_trans_step recovering tail (Thread h (LState s g)) = Ok tt (Thread h (LState s' g)) ∧
    bio_inv s' l' ∧ (∀ x, view s' x = zupd (view s) b (view s (logblk g tail)) x) ∧
    (∀ x, pins s' x = zupd (pins s) b 0 x) ∧
    (∀ x, disk s' x = zupd (disk s) b (disk s (logblk g tail)) x) ∧
    writes s' = writes s ++ [(b, disk s (logblk g tail))].
Proof.
  intros Hinv Hq Hs Hp0 Hp1 HL Hlen Hlen2. destruct Hs as [Hdev Hblk Hb Hst Hne].
  fold (logblk g tail) in *. set (a := logblk g tail) in *.
  assert (view s a = disk s a) as Hva by (by apply (view_unpinned s l)).
  destruct (bread2_run h s l a b L)
    as (i & j & s1 & s2 & E1 & E2 & Hinv2 & Hi & Hj & Hij & Hv2 & Hp2 & Hd2 & Hw2);
    [done|done|congruence|lia|destruct recovering; lia|done|done
    |destruct recovering; [right; auto|left; lia]|].
  assert (pins s2 a = 1 ∧ pins s2 b = if recovering then 1 else 2) as [Hpa2 Hpb2].
  { rewrite !Hp2, zupd_eq, zupd_ne, zupd_eq by congruence. destruct recovering; lia. }
  set (h2 := SL_buf j :: SL_buf i :: h) in *. assert (L_bcache ∉ h2) as Hh2 by (destruct Hq; set_solver).
  destruct (copy_write_run h2 s2 l j i b a)
    as (s3 & s4 & E3 & E4 & Hinv4 & Hb4 & Hv4 & Hp4 & Hd4 & Hw4); [done..|destruct recovering; lia|set_solver|].
  destruct (maybe_unpin_run recovering h2 s4 l j b) as (s5 & E5 & Hinv5 & Hb5 & Hv5 & Hp5 & Hd5 & Hw5);
    [done|by apply Hb4|done|by rewrite Hp4|].
  assert (pins s5 a = 1 ∧ pins s5 b = 1) as [Hpa5 Hpb5].
  { rewrite !Hp5, zupd_eq, zupd_ne, Hp4 by congruence. done. }
  destruct (release2_run h2 s5 l i j a b)
    as (s6 & s7 & l7 & E6 & E7 & Hinv7 & Hv7 & Hp7 & Hd7 & Hw7);
    [done|by apply Hb5, Hb4|by apply Hb5, Hb4|congruence|congruence|done
    |set_solver|set_solver|lia|lia| | |].
  { intros _. by rewrite Hv5, Hd5, Hv4, Hd4, !zupd_ne, Hv2, Hd2 by congruence. }
  { intros _. by rewrite Hv5, Hd5, Hv4, Hd4, !zupd_eq. }
  exists s7, l7. split_and!; try done.
  - unfold install_trans_step. kstep. cbn [llog st]. rewrite Hdev.
    change (lg_start g + Z.of_nat tail + 1) with a.
    rewrite (u32_small a) by (subst a; unfold logblk in *; lia).
    bio_step E1. rewrite (bind_Ok _ _ _ _ _ (get_block_Ok _ (LState s1 g) _ _ Hblk)).
    rewrite u32_small by lia. bio_step E2. bio_step E3. bio_step E4.
    assert ((if recovering then ret tt else bio_op (bunpin j)) (Thread h2 (LState s4 g)) =
      Ok tt (Thread h2 (LState s5 g))) as E5'
      by (destruct recovering; [by injection E5 as -> | by apply bio_op_Ok]).
    rewrite (bind_Ok _ _ _ _ _ E5'). bio_step E6.
    rewrite (bio_op_Ok _ _ _ _ _ _ _ E7). subst h2. do 3 f_equal. simpl.
    rewrite decide_False by congruence. rewrite decide_True by done. simpl. by rewrite decide_True.
  - intros x. rewrite Hv7, Hv5, Hv4, !zupd_if, !Hv2. done.
  - intros x. rewrite Hp7, !zupd_if, !Hp5, !zupd_if, !Hp4, !Hp2, !zupd_if. zeqb_cases; try lia; congruence.
  - intros x. rewrite Hd7, Hd5, Hd4, !zupd_if, !Hv2, !Hd2, Hva. done.
  - rewrite Hw7, Hw5, Hw4, Hw2, Hv2, Hva. done.
Qed.

(** ** The loops *)

(** The disk after a list of writes. *)
Definition apply_writes (d : Z → block) (w : list (Z * block)) : Z → block :=
  foldl (λ d p, zupd d p.1 p.2) d w.

Lemma apply_writes_ext d d' w x : (∀ y, d y = d' y) → apply_writes d w x = apply_writes d' w x.
Proof.
  unfold apply_writes. revert d d'; induction w as [|p w IH]; intros d d' H; simpl; [done|].
  apply IH. intros y. rewrite !zupd_if. by destruct (y =? p.1).
Qed.

Lemma apply_writes_app d w w' x : apply_writes d (w ++ w') x = apply_writes (apply_writes d w) w' x.
Proof. unfold apply_writes. by rewrite foldl_app. Qed.

Lemma apply_writes_notin d w x : x ∉ w.*1 → apply_writes d w x = d x.
Proof.
  unfold apply_writes. revert d; induction w as [|p w IH]; intros d Hx; simpl; [done|].
  rewrite fmap_cons, not_elem_of_cons in Hx. rewrite IH by tauto. apply zupd_ne. tauto.
Qed.

(** What [write_log] and [install_trans] write for the blocks [bl] from slot [k] on. *)
Fixpoint log_writes (g : log) (k : nat) (v : Z → block) (bl : list Z) : list (Z * block) :=
  match bl with
  | [] => []
  | b :: bl => (logblk g k, v b) :: log_writes g (S k) v bl
  end.

Fixpoint home_writes (g : log) (k : nat) (d : Z → block) (bl : list Z) : list (Z * block) :=
  match bl with
  | [] => []
  | b :: bl => (b, d (logblk g k)) :: home_writes g (S k) d bl
  end.

Lemma log_writes_ext g k v v' bl :
  (∀ b, b ∈ bl → v b = v' b) → log_writes g k v bl = log_writes g k v' bl.
Proof.
  revert k; induction bl as [|b bl IH]; intros k H; simpl; [done|].
  rewrite H by set_solver. rewrite IH; [done|set_solver].
Qed.

Lemma home_writes_ext g k d d' bl :
  (∀ j, (k <= j < k + length bl)%nat → d (logblk g j) = d' (logblk g j)) →
  home_writes g k d bl = home_writes g k d' bl.
Proof.
  revert k; induction bl as [|b bl IH]; intros k H; simpl; [done|].
  rewrite H by (simpl; lia). rewrite IH; [done|]. intros j Hj. apply H. simpl; lia.
Qed.

(** The log area of the superblock, and the blocks outside of it. *)
Record log_ok (g : log) : Prop := {
  lo_dev : lg_dev g = ROOTDEV;
  lo_start : 0 <= lg_start g;
  lo_size : 1 <= lg_size g <= LOGSIZE;
  lo_end : lg_start g + lg_size g < 2 ^ 31;
  lo_len : length (lh_block (lg_lh g)) = Z.to_nat LOGSIZE }.

Definition home (g : log) (b : Z) : Prop :=
  0 <= b < 2 ^ 31 ∧ ¬ (lg_start g <= b < lg_start g + lg_size g).

(** The header in memory holds [bl]. *)
Record header (g : log) (bl : list Z) : Prop := {
  hd_len : lh_n (lg_lh g) = Z.of_nat (length bl);
  hd_bl : take (length bl) (lh_block (lg_lh g)) = bl;
  hd_room : Z.of_nat (length bl) <= lg_size g - 1;
  hd_home : Forall (home g) bl;
  hd_nodup : NoDup bl }.

Lemma header_slot g bl k b :
  log_ok g → header g bl → bl !! k = Some b → slot g k b.
Proof.
  intros Hg Hh Hk. pose proof (lookup_lt_Some _ _ _ Hk) as Hlt. destruct Hg, Hh.
  assert (home g b) as [Hb Hnb] by (by eapply Forall_lookup_1).
  split; try done; [|lia|lia]. rewrite <- hd_bl0 in Hk. by rewrite lookup_take_lt in Hk.
Qed.

Lemma home_not_logblk g bl k b :
  header g bl → home g b → (k < length bl)%nat → b ≠ logblk g k.
Proof. intros [] [_ Hb] Hk. unfold logblk. lia. Qed.

Lemma logblk_inj g i j : logblk g i = logblk g j → i = j.
Proof. unfold logblk. lia. Qed.

(** The blocks of the transaction are pinned once, nothing else is in use. *)
Definition pinned (s : bio) (bl : list Z) : Prop :=
  ∀ x, pins s x = if decide (x ∈ bl) then 1 else 0.

Lemma HEAD_eq : HEAD = 30%nat.
Proof. reflexivity. Qed.

Lemma drop_cons_lookup {A} k (l : list A) b l2 : drop k l = b :: l2 → l !! k = Some b ∧ drop (S k) l = l2.
Proof.
  intros Hd. split.
  - replace k with (k + 0)%nat by lia. by rewrite <- lookup_drop, Hd.
  - by rewrite <- (Nat.add_1_r k), <- drop_drop, Hd.
Qed.

Lemma drop_elem {A} k (l : list A) x : x ∈ drop k l → x ∈ l.
Proof. intros H. rewrite <- (take_drop k l). set_solver. Qed.

Lemma write_log_loop h s l g bl k bl2 :
  bio_inv s l → quiet h → log_ok g → header g bl → pinned s bl → drop k bl = bl2 →
  ∃ s' l', for_range k (length bl2) write_log_step (Thread h (LState s g)) =
      Ok tt (Thread h (LState s' g)) ∧
    bio_inv s' l' ∧ pinned s' bl ∧
    (∀ x, view s' x = apply_writes (view s) (log_writes g k (view s) bl2) x) ∧
    (∀ x, disk s' x = apply_writes (disk s) (log_writes g k (view s) bl2) x) ∧
    writes s' = writes s ++ log_writes g k (view s) bl2.
Proof.
  intros Hinv Hq Hg Hh. revert s l k Hinv. induction bl2 as [|b bl2 IH]; intros s l k Hinv Hp Hdrop.
  { exists s, l. simpl. rewrite app_nil_r. done. }
  destruct (drop_cons_lookup k bl b bl2 Hdrop) as [Hk Hdrop'].
  pose proof (lookup_lt_Some _ _ _ Hk) as Hlt.
  assert (∀ x, x ∈ bl → x ≠ logblk g k) as Hne.
  { intros x Hx. apply (home_not_logblk g bl); [done| |done].
    eapply (Forall_elem _ bl); [apply Hh|done]. }
  destruct (write_log_step_run h s l g k b bl) as (s1 & l1 & E1 & Hinv1 & Hv1 & Hp1 & Hd1 & Hw1);
    [done|done|by eapply header_slot| | | | |].
  { rewrite Hp. rewrite decide_False; [done|]. intros Hx. by apply Hne in Hx. }
  { rewrite Hp. rewrite decide_True; [done|]. by apply list_elem_of_lookup_2 in Hk. }
  { intros x. rewrite Hp. case_decide; [done|lia]. }
  { rewrite HEAD_eq. pose proof (hd_room g bl Hh). pose proof (lo_size g Hg).
    unfold LOGSIZE, MAXOPBLOCKS in *. lia. }
  destruct (IH s1 l1 (S k)) as (s2 & l2 & E2 & Hinv2 & Hp2 & Hv2 & Hd2 & Hw2); [done| |done|].
  { intros x. by rewrite Hp1. }
  assert (log_writes g (S k) (view s1) bl2 = log_writes g (S k) (view s) bl2) as Hlw.
  { apply log_writes_ext. intros x Hx. rewrite Hv1. apply zupd_ne, Hne.
    rewrite <- (take_drop k bl), Hdrop. set_solver. }
  rewrite Hlw in *. exists s2, l2. split_and!; try done.
  - simpl. by rewrite (bind_Ok _ _ _ _ _ E1).
  - intros x. rewrite Hv2. simpl. by apply apply_writes_ext.
  - intros x. rewrite Hd2. simpl. by apply apply_writes_ext.
  - rewrite Hw2, Hw1, <- app_assoc. done.
Qed.

Lemma install_trans_loop (recovering : bool) h s l g bl k bl2 :
  bio_inv s l → quiet h → log_ok g → header g bl →
  pinned s (if recovering then [] else bl2) → drop k bl = bl2 →
  ∃ s' l', for_range k (length bl2) (install_trans_step recovering) (Thread h (LState s g)) =
      Ok tt (Thread h (LState s' g)) ∧
    bio_inv s' l' ∧ pinned s' [] ∧
    (∀ x, disk s' x = apply_writes (disk s) (home_writes g k (disk s) bl2) x) ∧
    writes s' = writes s ++ home_writes g k (disk s) bl2.
Proof.
  intros Hinv Hq Hg Hh. revert s l k Hinv. induction bl2 as [|b bl2 IH]; intros s l k Hinv Hp Hdrop.
  { exists s, l. simpl. rewrite app_nil_r. destruct recovering; done. }
  destruct (drop_cons_lookup k bl b bl2 Hdrop) as [Hk Hdrop'].
  pose proof (lookup_lt_Some _ _ _ Hk) as Hlt.
  assert (∀ x, x ∈ bl → x ≠ logblk g k) as Hne.
  { intros x Hx. apply (home_not_logblk g bl); [done| |done].
    eapply (Forall_elem _ bl); [apply Hh|done]. }
  assert (∀ x, x ∈ b :: bl2 → x ∈ bl) as Hsub by (intros x; rewrite <- Hdrop; apply drop_elem).
  assert (length bl < 30)%nat as Hlbl.
  { pose proof (hd_room g bl Hh). pose proof (lo_size g Hg). unfold LOGSIZE, MAXOPBLOCKS in *. lia. }
  assert (length (b :: bl2) <= length bl)%nat as Hl2 by (rewrite <- Hdrop, length_drop; lia).
  destruct (install_trans_step_run recovering h s l g k b (if recovering then [] else b :: bl2))
    as (s1 & l1 & E1 & Hinv1 & _ & Hp1 & Hd1 & Hw1);
    [done|done|by eapply header_slot| | | | | |].
  { rewrite Hp. rewrite decide_False; [done|]. intros Hx. apply (Hne (logblk g k)); [|done].
    destruct recovering; [by apply not_elem_of_nil in Hx|by apply Hsub]. }
  { rewrite Hp. destruct recovering; [done|]. rewrite decide_True by set_solver. done. }
  { intros x. rewrite Hp. destruct recovering; case_decide; set_solver by lia. }
  { rewrite HEAD_eq. destruct recovering; simpl in *; lia. }
  { intros ->. rewrite HEAD_eq. simpl. lia. }
  destruct (IH s1 l1 (S k)) as (s2 & l2 & E2 & Hinv2 & Hp2 & Hd2 & Hw2); [done| |done|].
  { assert (b ∉ bl2) as Hb2.
    { pose proof (hd_nodup g bl Hh) as Hnd. rewrite <- (take_drop k bl), Hdrop in Hnd.
      apply NoDup_app in Hnd as (_ & _ & Hnd). by apply NoDup_cons in Hnd as [? _]. }
    intros x. rewrite Hp1, zupd_if, Hp. destruct recovering.
    - destruct (x =? b); [|done]. by rewrite decide_False by apply not_elem_of_nil.
    - destruct (Z.eqb_spec x b) as [->|Hxb]; [by rewrite decide_False|].
      destruct (decide (x ∈ bl2)); [by rewrite decide_True by (by right)|].
      by rewrite decide_False by (by rewrite not_elem_of_cons). }
  assert (home_writes g (S k) (disk s1) bl2 = home_writes g (S k) (disk s) bl2) as Hlw.
  { apply home_writes_ext. intros j Hj. rewrite Hd1. apply zupd_ne. intros Hj2.
    symmetry in Hj2. revert Hj2. apply (home_not_logblk g bl); [done| |].
    - eapply (Forall_elem _ bl); [apply Hh|by apply Hsub; left].
    - apply (f_equal length) in Hdrop. rewrite length_drop in Hdrop. simpl in *. lia. }
  rewrite Hlw in *. exists s2, l2. split_and!; try done.
  - simpl. by rewrite (bind_Ok _ _ _ _ _ E1).
  - intros x. rewrite Hd2. simpl. by apply apply_writes_ext.
  - rewrite Hw2, Hw1, <- app_assoc. done.
Qed.

(** ** The header block *)

(** [hb->block[i] = log.lh.block[i]] from [i] on. *)
Fixpoint put_words (d : block) (i : nat) (bl : list Z) : block :=
  match bl with
  | [] => d
  | b :: bl => put_words (set32 d (1 + i) b) (S i) bl
  end.

(** The header block that [write_head] writes over the block [d]. *)
Definition hdr_block (d : block) (bl : list Z) : block :=
  put_words (set32 d 0 (Z.of_nat (length bl))) 0 bl.

(** The header in the block [d] names the blocks [bl]. *)
Definition disk_header (d : block) (bl : list Z) : Prop :=
  hd_n d = Z.of_nat (length bl) ∧ ∀ i b, bl !! i = Some b → hd_block d i = b.

Lemma put_words_ok d i bl :
  block_ok d → (i + length bl <= 30)%nat → block_ok (put_words d i bl).
Proof.
  revert d i; induction bl as [|b bl IH]; intros d i Hd Hi; simpl in *; [done|].
  apply IH; [|lia]. apply set32_ok; [|done]. change (Z.to_nat BSIZE) with 1024%nat. lia.
Qed.

Lemma put_words_get d i bl j :
  block_ok d → (i + length bl <= 30)%nat → (j <= i)%nat → get32 (put_words d i bl) j = get32 d j.
Proof.
  revert d i; induction bl as [|b bl IH]; intros d i Hd Hi Hj; simpl in *; [done|].
  assert (length d = 1024)%nat as Hl by apply Hd.
  rewrite IH; [|apply set32_ok; [change (Z.to_nat BSIZE) with 1024%nat; lia|done]|lia|lia].
  apply get32_set32_ne; lia.
Qed.

Lemma put_words_slot d i bl k b :
  block_ok d → (i + length bl <= 30)%nat → bl !! k = Some b →
  get32 (put_words d i bl) (1 + i + k) = u32 b.
Proof.
  revert d i k; induction bl as [|x bl IH]; intros d i k Hd Hi Hk; [done|].
  assert (length d = 1024)%nat as Hl by apply Hd.
  assert (block_ok (set32 d (1 + i) x)) as Hd'.
  { apply set32_ok; [change (Z.to_nat BSIZE) with 1024%nat; simpl in Hi; lia|done]. }
  cbn [put_words]. destruct k as [|k]; simpl in Hk.
  - injection Hk as ->. simpl in Hi. rewrite put_words_get by (done || lia).
    rewrite Nat.add_0_r. apply get32_set32. lia.
  - replace (1 + i + S k)%nat with (1 + S i + k)%nat by lia. apply IH; [done|simpl in Hi; lia|done].
Qed.

Lemma s32_u32 x : - 2 ^ 31 <= x < 2 ^ 31 → s32 (u32 x) = x.
Proof.
  intros Hx. rewrite <- (signed_small 32 x) at 2 by lia. unfold s32, u32, signed.
  by rewrite Z.mod_mod by lia.
Qed.

(** The header that is written is the header that is read back. *)
Lemma hdr_block_header d bl :
  block_ok d → (length bl <= 30)%nat → Forall (λ b, 0 <= b < 2 ^ 31) bl →
  disk_header (hdr_block d bl) bl ∧ block_ok (hdr_block d bl).
Proof.
  intros Hd Hl Hb. assert (block_ok (set32 d 0 (Z.of_nat (length bl)))) as Hd'.
  { apply set32_ok; [change (Z.to_nat BSIZE) with 1024%nat; lia|done]. }
  split; [split|by apply put_words_ok].
  - unfold hd_n, hdr_block. rewrite put_words_get by (done || lia).
    assert (length d = 1024)%nat by apply Hd. rewrite get32_set32 by lia. apply s32_u32. lia.
  - intros i b Hi. unfold hd_block, hdr_block.
    rewrite (put_words_slot _ 0 bl i b) by (done || lia). apply s32_u32.
    pose proof (Forall_lookup_1 _ _ _ _ Hb Hi). simpl in *. lia.
Qed.

Lemma header_lookup g bl k b : header g bl → bl !! k = Some b → lh_block (lg_lh g) !! k = Some b.
Proof.
  intros Hh Hk. pose proof (lookup_lt_Some _ _ _ Hk).
  rewrite <- (hd_bl g bl Hh) in Hk. by rewrite lookup_take_lt in Hk.
Qed.

Lemma write_head_loop h s l g bl i k bl2 :
  bio_inv s l → header g bl → (length bl <= 30)%nat → isbuf s i (lg_start g) →
  0 < pins s (lg_start g) → drop k bl = bl2 →
  ∃ s', for_range k (length bl2) (λ j,
          let! v := get_block j in
          bio_op (modify (updb i (λ x, with_data (set32 (b_data x) (1 + j) v) x))))
        (Thread h (LState s g)) = Ok tt (Thread h (LState s' g)) ∧
    bio_inv s' l ∧ (∀ j x, isbuf s' j x ↔ isbuf s j x) ∧
    (∀ x, view s' x = zupd (view s) (lg_start g) (put_words (view s (lg_start g)) k bl2) x) ∧
    (∀ x, pins s' x = pins s x) ∧ disk s' = disk s ∧ writes s' = writes s.
Proof.
  intros Hinv Hh Hlen. revert s k Hinv. induction bl2 as [|b bl2 IH]; intros s k Hinv Hi Hp Hdrop.
  { exists s. split_and!; try done. intros x. by rewrite view_zupd_same. }
  destruct (drop_cons_lookup k bl b bl2 Hdrop) as [Hk Hdrop'].
  pose proof (lookup_lt_Some _ _ _ Hk) as Hlt. set (st := lg_start g) in *.
  pose proof (view_isbuf s l st i Hinv Hi) as Hv.
  destruct (setdata_run s l i st (set32 (view s st) (1 + k) b)) as (Hinv1 & Hb1 & Hv1 & Hp1); try done.
  { apply set32_ok; [change (Z.to_nat BSIZE) with 1024%nat; lia|by eapply view_ok]. }
  set (s1 := updb i (with_data (set32 (view s st) (1 + k) b)) s) in *.
  destruct (IH s1 (S k)) as (s2 & E2 & Hinv2 & Hb2 & Hv2 & Hp2 & Hd2 & Hw2);
    [done|by apply Hb1|by rewrite Hp1|done|].
  exists s2. split_and!; try done.
  - cbn [for_range length]. rewrite bind_assoc.
    rewrite (bind_Ok _ _ _ _ _ (get_block_Ok h (LState s g) k b (header_lookup g bl k b Hh Hk))).
    rewrite (bind_Ok _ _ _ tt (Thread h (LState s1 g))); [exact E2|].
    apply bio_op_Ok. unfold modify. cbn [held Prelude.st]. unfold updb at 1. by rewrite <- Hv.
  - intros j x. by rewrite Hb2, Hb1.
  - intros x. rewrite Hv2, !zupd_if, !Hv1, !zupd_if, Z.eqb_refl. by destruct (x =? st).
  - intros x. by rewrite Hp2, Hp1.
Qed.

Lemma write_head_run h s l g bl pl :
  bio_inv s l → quiet h → log_ok g → header g bl → pinned s pl → (length pl < 30)%nat →
  lg_start g ∉ pl →
  ∃ s' l', write_head (Thread h (LState s g)) = Ok tt (Thread h (LState s' g)) ∧
    bio_inv s' l' ∧ pinned s' pl ∧
    (∀ x, disk s' x = zupd (disk s) (lg_start g) (hdr_block (disk s (lg_start g)) bl) x) ∧
    writes s' = writes s ++ [(lg_start g, hdr_block (disk s (lg_start g)) bl)].
Proof.
  intros Hinv [Hq1 Hq2] Hg Hh Hp Hlp Hst. set (st := lg_start g) in *.
  assert (pins s st = 0) as Hp0 by (rewrite Hp; by rewrite decide_False).
  assert (length bl <= 30)%nat as Hl.
  { pose proof (hd_room g bl Hh). pose proof (lo_size g Hg). unfold LOGSIZE, MAXOPBLOCKS in *. lia. }
  destruct (bread_run h s l st pl Hinv Hq1 (λ k Hk, False_ind _ (Hq2 k Hk)) (λ k _, Hq2 k))
    as (i & s1 & E1 & Hinv1 & Hi & _ & Hv1 & Hp1 & Hd1 & Hw1 & _); [lia| |by rewrite HEAD_eq|].
  { intros x. rewrite Hp. case_decide; [done|lia]. }
  assert (pins s1 st = 1) as Hp1st by (rewrite Hp1, zupd_eq; lia).
  assert (view s1 st = disk s st) as Hvd by (rewrite Hv1; by apply (view_unpinned s l)).
  destruct (setdata_run s1 l i st (set32 (disk s st) 0 (Z.of_nat (length bl))))
    as (Hinv2 & Hb2 & Hv2 & Hp2); [done|done|lia| |].
  { apply set32_ok; [change (Z.to_nat BSIZE) with 1024%nat; lia|by eapply bi_disk]. }
  set (s2 := updb i (with_data (set32 (disk s st) 0 (Z.of_nat (length bl)))) s1) in *.
  destruct (write_head_loop (SL_buf i :: h) s2 l g bl i 0 bl)
    as (s3 & E3 & Hinv3 & Hb3 & Hv3 & Hp3 & Hd3 & Hw3); [done|done|done|by apply Hb2|fold st; rewrite Hp2; lia|done|].
  fold st in Hv3.
  destruct (bwrite_run (SL_buf i :: h) s3 l i st) as (s4 & E4 & Hinv4 & Hb4 & Hv4 & Hp4 & Hd4 & Hw4);
    [done|by apply Hb3, Hb2|set_solver|].
  assert (view s3 st = hdr_block (disk s st) bl) as Hv3st by (by rewrite Hv3, zupd_eq, Hv2, zupd_eq).
  destruct (brelse_run (SL_buf i :: h) s4 l i st) as (s5 & l5 & E5 & Hinv5 & Hb5 & Hv5 & Hp5 & Hd5 & Hw5 & _);
    [done|by apply Hb4, Hb3, Hb2|set_solver|set_solver|rewrite Hp4, Hp3, Hp2; lia
    |intros _; by rewrite Hd4, Hv4, zupd_eq|].
  rewrite remove_lock_head in E5. pose proof (lo_start g Hg). pose proof (lo_end g Hg). pose proof (lo_size g Hg).
  exists s5, l5. split_and!; try done.
  - unfold write_head. kstep. cbn [llog Prelude.st]. rewrite (lo_dev g Hg), (hd_len g bl Hh).
    fold st. rewrite (u32_small st) by lia. bio_step E1.
    rewrite (bind_Ok _ _ _ tt (Thread (SL_buf i :: h) (LState s2 g))).
    2: { apply bio_op_Ok. unfold modify. cbn [held Prelude.st]. unfold updb at 1.
         rewrite <- (view_isbuf s1 l st i), Hvd by done. done. }
    rewrite Nat2Z.id, (bind_Ok _ _ _ _ _ E3). bio_step E4. by apply bio_op_Ok.
  - intros x. rewrite Hp5, zupd_if, Hp4, Hp3, Hp2, Hp1, zupd_eq. destruct (Z.eqb_spec x st) as [->|].
    + rewrite Hp0. by rewrite decide_False.
    + by rewrite Hp4, Hp3, Hp2, Hp1, zupd_ne.
  - intros x. rewrite Hd5, Hd4, Hd3, Hv3st. change (disk s2) with (disk s1). by rewrite !zupd_if, Hd1.
  - rewrite Hw5, Hw4, Hw3, Hv3st. change (writes s2) with (writes s1). by rewrite Hw1.
Qed.

Lemma header_clear g bl : log_ok g → header g bl → log_ok (set_lh_n 0 g) ∧ header (set_lh_n 0 g) [].
Proof.
  intros [] []. split; [by split|]. split; simpl; try done; [lia|constructor].
Qed.

(** The writes of a whole commit, in order. *)
Definition commit_writes (g : log) (v d : Z → block) (bl : list Z) : list (Z * block) :=
  let w1 := log_writes g 0 v bl in
  let h1 := hdr_block (d (lg_start g)) bl in
  let w2 := home_writes g 0 (apply_writes d w1) bl in
  w1 ++ [(lg_start g, h1)] ++ w2 ++ [(lg_start g, hdr_block h1 [])].

Lemma log_writes_dom g k v bl x :
  x ∈ (log_writes g k v bl).*1 ↔ ∃ i, (k <= i < k + length bl)%nat ∧ x = logblk g i.
Proof.
  revert k; induction bl as [|b bl IH]; intros k; simpl.
  - split; [set_solver|]. intros (i & ? & _). lia.
  - rewrite elem_of_cons, IH. split.
    + intros [->|(i & ? & ->)]; [exists k|exists i]; split; (lia || done).
    + intros (i & Hi & ->). destruct (decide (i = k)) as [->|]; [by left|].
      right. exists i. split; [lia|done].
Qed.

Lemma home_writes_dom g k d bl : (home_writes g k d bl).*1 = bl.
Proof. revert k; induction bl as [|b bl IH]; intros k; simpl; [done|]. by rewrite IH. Qed.

Lemma logblk_not_start g i : logblk g i ≠ lg_start g.
Proof. unfold logblk. lia. Qed.

Lemma home_not_start g b : log_ok g → home g b → b ≠ lg_start g.
Proof. intros Hg [_ Hb]. pose proof (lo_size g Hg). lia. Qed.

Lemma commit_run h s l g bl :
  bio_inv s l → quiet h → log_ok g → header g bl → pinned s bl → bl ≠ [] →
  ∃ s' l', commit (Thread h (LState s g)) = Ok tt (Thread h (LState s' (set_lh_n 0 g))) ∧
    bio_inv s' l' ∧ pinned s' [] ∧
    writes s' = writes s ++ commit_writes g (view s) (disk s) bl ∧
    (∀ x, disk s' x = apply_writes (disk s) (commit_writes g (view s) (disk s) bl) x).
Proof.
  intros Hinv Hq Hg Hh Hp Hne.
  assert (length bl < 30)%nat as Hl.
  { pose proof (hd_room g bl Hh). pose proof (lo_size g Hg). unfold LOGSIZE, MAXOPBLOCKS in *. lia. }
  assert (lg_start g ∉ bl) as Hst.
  { intros Hin. eapply (Forall_elem _ bl) in Hin; [|apply Hh]. by apply home_not_start in Hin. }
  destruct (header_clear g bl Hg Hh) as [Hg' Hh'].
  destruct (write_log_loop h s l g bl 0 bl) as (s1 & l1 & E1 & Hinv1 & Hp1 & Hv1 & Hd1 & Hw1); try done.
  set (w1 := log_writes g 0 (view s) bl) in *.
  assert (disk s1 (lg_start g) = disk s (lg_start g)) as Hds1.
  { rewrite Hd1. apply apply_writes_notin. intros Hin. apply log_writes_dom in Hin as (i & _ & Hi).
    symmetry in Hi. by apply logblk_not_start in Hi. }
  destruct (write_head_run h s1 l1 g bl bl) as (s2 & l2 & E2 & Hinv2 & Hp2 & Hd2 & Hw2); try done.
  rewrite Hds1 in Hd2, Hw2. set (h1 := hdr_block (disk s (lg_start g)) bl) in *.
  destruct (install_trans_loop false h s2 l2 g bl 0 bl) as (s3 & l3 & E3 & Hinv3 & Hp3 & Hd3 & Hw3); try done.
  assert (home_writes g 0 (disk s2) bl = home_writes g 0 (apply_writes (disk s) w1) bl) as Hhw.
  { apply home_writes_ext. intros j _. rewrite Hd2, zupd_ne by apply logblk_not_start. apply Hd1. }
  rewrite Hhw in Hd3, Hw3. set (w2 := home_writes g 0 (apply_writes (disk s) w1) bl) in *.
  assert (disk s3 (lg_start g) = h1) as Hds3.
  { rewrite Hd3, apply_writes_notin; [by rewrite Hd2, zupd_eq|]. subst w2. by rewrite home_writes_dom. }
  destruct (write_head_run h s3 l3 (set_lh_n 0 g) [] []) as (s4 & l4 & E4 & Hinv4 & Hp4 & Hd4 & Hw4);
    [done|done|done|done|done|simpl; lia|apply not_elem_of_nil|].
  cbn [lg_start set_lh_n with_lh] in Hd4, Hw4. rewrite Hds3 in Hd4, Hw4.
  assert (commit_writes g (view s) (disk s) bl =
            w1 ++ [(lg_start g, h1)] ++ w2 ++ [(lg_start g, hdr_block h1 [])]) as Hcw by done.
  exists s4, l4. split_and!; try done.
  - unfold commit. kstep. cbn [llog st]. rewrite (hd_len g bl Hh).
    rewrite (proj2 (Z.ltb_lt 0 _)) by (destruct bl; [done|simpl; lia]).
    rewrite (bind_Ok write_log _ _ tt (Thread h (LState s1 g)))
      by (unfold write_log; kstep; cbn [llog st]; by rewrite (hd_len g bl Hh), Nat2Z.id).
    rewrite (bind_Ok _ _ _ _ _ E2).
    rewrite (bind_Ok (install_trans false) _ _ tt (Thread h (LState s3 g)))
      by (unfold install_trans; kstep; cbn [llog st]; by rewrite (hd_len g bl Hh), Nat2Z.id).
    kstep. exact E4.
  - rewrite Hw4, Hw3, Hw2, Hw1, Hcw, <- !app_assoc. done.
  - intros x. rewrite Hd4, Hcw, !apply_writes_app. unfold apply_writes at 1. simpl.
    rewrite !zupd_if, Hd3. destruct (x =? lg_start g); [done|].
    apply apply_writes_ext. intros y. rewrite Hd2. simpl. rewrite !zupd_if, Hd1. done.
Qed.

(** ** Recovery *)

Lemma splice_nil {A} k (l : list A) : splice k [] l = l.
Proof. unfold splice. rewrite Nat.add_0_r. apply take_drop. Qed.

Lemma splice_insert {A} k (b : A) bl l :
  (k + S (length bl) <= length l)%nat → splice (S k) bl (<[k := b]> l) = splice k (b :: bl) l.
Proof.
  intros H. apply list_eq. intros i.
  rewrite !lookup_splice by (rewrite ?length_insert; simpl; lia). cbn [length].
  destruct (decide (i = k)) as [->|Hi].
  - rewrite decide_False, decide_True by lia. rewrite list_lookup_insert_eq by lia.
    by rewrite Nat.sub_diag.
  - rewrite list_lookup_insert_ne by done. destruct (decide (S k <= i < S k + length bl)%nat).
    + rewrite decide_True by lia. rewrite lookup_cons_ne_0 by lia. f_equal. lia.
    + by rewrite decide_False by lia.
Qed.

Definition set_blocks (k : nat) (bl : list Z) (g : log) : log :=
  with_lh (LogHeader (lh_n (lg_lh g)) (splice k bl (lh_block (lg_lh g)))) g.

Lemma read_head_loop h s g d bl k bl2 :
  disk_header d bl → (length bl <= length (lh_block (lg_lh g)))%nat → drop k bl = bl2 →
  for_range k (length bl2) (λ i, put_block i (hd_block d i)) (Thread h (LState s g)) =
    Ok tt (Thread h (LState s (set_blocks k bl2 g))).
Proof.
  intros Hd. revert g k. induction bl2 as [|b bl2 IH]; intros g k Hl Hdrop.
  { simpl. unfold set_blocks. rewrite splice_nil. destruct g as [? ? ? ? ? [] ?]. done. }
  destruct (drop_cons_lookup k bl b bl2 Hdrop) as [Hk Hdrop'].
  pose proof (lookup_lt_Some _ _ _ Hk) as Hlt. cbn [for_range length].
  rewrite (bind_Ok _ _ _ _ _ (put_block_Ok h (LState s g) k _ ltac:(simpl; lia))).
  unfold updl. cbn [lbio llog]. rewrite IH; [|simpl; by rewrite length_insert|done].
  rewrite (proj2 Hd k b Hk). unfold set_blocks, set_lh_block, with_lh. cbn [lg_lh lh_n lh_block
    lg_start lg_size lg_outstanding lg_committing lg_dev lg_wakeups]. rewrite splice_insert; [done|].
  apply (f_equal length) in Hdrop. rewrite length_drop in Hdrop. simpl in Hdrop. lia.
Qed.

(** The header in memory after [read_head]. *)
Definition loaded (g : log) (bl : list Z) : log := set_blocks 0 bl (set_lh_n (Z.of_nat (length bl)) g).

Lemma loaded_ok g bl :
  log_ok g → Z.of_nat (length bl) <= lg_size g - 1 → Forall (home g) bl → NoDup bl →
  log_ok (loaded g bl) ∧ header (loaded g bl) bl.
Proof.
  intros [] Hl Hb Hnd. assert (0 + length bl <= length (lh_block (lg_lh g)))%nat as Hlen.
  { rewrite lo_len0. unfold LOGSIZE, MAXOPBLOCKS in *. lia. }
  split; split; simpl; try done; try lia.
  - by rewrite length_splice.
  - pose proof (slice_splice_same 0 bl (lh_block (lg_lh g)) Hlen) as E.
    unfold slice in E. by rewrite drop_0 in E.
Qed.

Lemma read_head_run h s l g bl :
  bio_inv s l → quiet h → log_ok g → pinned s [] → disk_header (disk s (lg_start g)) bl →
  Z.of_nat (length bl) <= lg_size g - 1 →
  ∃ s' l', read_head (Thread h (LState s g)) = Ok tt (Thread h (LState s' (loaded g bl))) ∧
    bio_inv s' l' ∧ pinned s' [] ∧ disk s' = disk s ∧ writes s' = writes s.
Proof.
  intros Hinv [Hq1 Hq2] Hg Hp Hd Hlen. set (st := lg_start g) in *.
  assert (∀ x, pins s x = 0) as Hp0 by (intros x; rewrite Hp; by rewrite decide_False by apply not_elem_of_nil).
  destruct (bread_run h s l st [] Hinv Hq1 (λ k Hk, False_ind _ (Hq2 k Hk)) (λ k _, Hq2 k))
    as (i & s1 & E1 & Hinv1 & Hi & _ & Hv1 & Hp1 & Hd1 & Hw1 & _);
    [rewrite Hp0; lia|intros x; rewrite Hp0; lia|rewrite HEAD_eq; simpl; lia|].
  assert (view s1 st = disk s st) as Hvd by (rewrite Hv1; by apply (view_unpinned s l)).
  destruct (brelse_run (SL_buf i :: h) s1 l i st) as (s5 & l5 & E5 & Hinv5 & Hb5 & Hv5 & Hp5 & Hd5 & Hw5 & _);
    [done|done|set_solver|set_solver|rewrite Hp1, zupd_eq, Hp0; lia|intros _; by rewrite Hvd, Hd1|].
  rewrite remove_lock_head in E5. pose proof (lo_start g Hg). pose proof (lo_end g Hg). pose proof (lo_size g Hg).
  exists s5, l5. split_and!; try done.
  - unfold read_head. kstep. cbn [llog Prelude.st]. rewrite (lo_dev g Hg). fold st.
    rewrite (u32_small st) by lia. bio_step E1. do 2 kstep. cbn [lbio].
    rewrite <- (view_isbuf s1 l st i), Hvd by done. rewrite (proj1 Hd), Nat2Z.id.
    rewrite (bind_Ok _ _ _ tt (Thread (SL_buf i :: h) (LState s1 (loaded g bl)))).
    + by apply bio_op_Ok.
    + apply (read_head_loop (SL_buf i :: h) s1 (set_lh_n (Z.of_nat (length bl)) g) (disk s st) bl 0 bl); [done| |done].
      simpl. rewrite (lo_len g Hg). unfold LOGSIZE, MAXOPBLOCKS in *. lia.
  - intros x. rewrite Hp5, zupd_if, Hp1, zupd_eq, !Hp0. rewrite decide_False by apply not_elem_of_nil.
    destruct (Z.eqb_spec x st); [lia|]. by rewrite Hp1, zupd_ne.
  - congruence.
  - congruence.
Qed.

(** The writes of a recovery. *)
Definition recover_writes (g : log) (d : Z → block) (bl : list Z) : list (Z * block) :=
  home_writes g 0 d bl ++ [(lg_start g, hdr_block (d (lg_start g)) [])].

Lemma home_writes_start g g' k d bl :
  lg_start g' = lg_start g → home_writes g' k d bl = home_writes g k d bl.
Proof.
  intros E. revert k; induction bl as [|b bl IH]; intros k; simpl; [done|].
  unfold logblk. by rewrite IH, E.
Qed.

Lemma recover_run h s l g bl :
  bio_inv s l → quiet h → log_ok g → pinned s [] → disk_header (disk s (lg_start g)) bl →
  Z.of_nat (length bl) <= lg_size g - 1 → Forall (home g) bl → NoDup bl →
  ∃ s' l', recover_from_log (Thread h (LState s g)) =
      Ok tt (Thread h (LState s' (set_lh_n 0 (loaded g bl)))) ∧
    bio_inv s' l' ∧ pinned s' [] ∧
    writes s' = writes s ++ recover_writes g (disk s) bl ∧
    (∀ x, disk s' x = apply_writes (disk s) (recover_writes g (disk s) bl) x).
Proof.
  intros Hinv Hq Hg Hp Hd Hlen Hhome Hnd.
  destruct (loaded_ok g bl Hg Hlen Hhome Hnd) as [Hg1 Hh1].
  destruct (header_clear _ _ Hg1 Hh1) as [Hg' Hh'].
  destruct (read_head_run h s l g bl) as (s1 & l1 & E1 & Hinv1 & Hp1 & Hd1 & Hw1); try done.
  destruct (install_trans_loop true h s1 l1 (loaded g bl) bl 0 bl)
    as (s2 & l2 & E2 & Hinv2 & Hp2 & Hd2 & Hw2); try done.
  rewrite (home_writes_start g (loaded g bl)), Hd1 in Hd2, Hw2 by done.
  destruct (write_head_run h s2 l2 (set_lh_n 0 (loaded g bl)) [] []) as (s3 & l3 & E3 & Hinv3 & Hp3 & Hd3 & Hw3);
    [done|done|done|done|done|simpl; lia|apply not_elem_of_nil|].
  change (lg_start (set_lh_n 0 (loaded g bl))) with (lg_start g) in *.
  assert (disk s2 (lg_start g) = disk s (lg_start g)) as Hds.
  { rewrite Hd2. apply apply_writes_notin. rewrite home_writes_dom. intros Hin.
    eapply (Forall_elem _ bl) in Hin; [|done]. by apply home_not_start in Hin. }
  rewrite Hds in *. exists s3, l3. split_and!; try done.
  - unfold recover_from_log. rewrite (bind_Ok _ _ _ _ _ E1).
    rewrite (bind_Ok (install_trans true) _ _ tt (Thread h (LState s2 (loaded g bl))))
      by (unfold install_trans; kstep; cbn [llog st]; by rewrite (hd_len _ bl Hh1), Nat2Z.id).
    kstep. exact E3.
  - rewrite Hw3, Hw2, Hw1, <- app_assoc. done.
  - intros x. rewrite Hd3. unfold recover_writes. rewrite apply_writes_app. unfold apply_writes at 1.
    simpl. rewrite !zupd_if, Hd2. done.
Qed.

(** ** Crashes

    The disk after a crash is the disk with a prefix of the writes applied. *)

(** The kernel's zeroed [struct log], and what happens at boot: [binit], then
    [initlog] with the superblock's numbers. *)
Definition log_boot : log :=
  Log 0 0 0 false 0 (LogHeader 0 (replicate (Z.to_nat LOGSIZE) 0)) 0.

Definition reboot (start size : Z) : M lstate unit :=
  bio_op binit ;;; initlog ROOTDEV start size.

Lemma apply_writes_ok d w : (∀ b, block_ok (d b)) → Forall (λ p, block_ok p.2) w → ∀ b, block_ok (apply_writes d w b).
Proof.
  intros Hd Hw. revert d Hd. induction Hw as [|p w Hp Hw IH]; intros d Hd b; simpl; [done|].
  apply IH. intros x. rewrite zupd_if. by destruct (x =? p.1).
Qed.

Lemma log_writes_ok g k v bl : (∀ b, block_ok (v b)) → Forall (λ p, block_ok p.2) (log_writes g k v bl).
Proof. intros H. revert k; induction bl; intros k; simpl; constructor; simpl; auto. Qed.

Lemma home_writes_ok g k d bl : (∀ b, block_ok (d b)) → Forall (λ p, block_ok p.2) (home_writes g k d bl).
Proof. intros H. revert k; induction bl; intros k; simpl; constructor; simpl; auto. Qed.

Lemma log_writes_apply g k v bl d i b :
  bl !! i = Some b → apply_writes d (log_writes g k v bl) (logblk g (k + i)) = v b.
Proof.
  revert k d i; induction bl as [|c bl IH]; intros k d i Hi; [done|].
  destruct i as [|i]; simpl in Hi.
  - injection Hi as ->. rewrite Nat.add_0_r. unfold apply_writes. simpl.
    change (apply_writes (zupd d (logblk g k) (v b)) (log_writes g (S k) v bl) (logblk g k) = v b).
    rewrite apply_writes_notin; [by rewrite zupd_eq|].
    intros Hin. apply log_writes_dom in Hin as (j & Hj & E). apply logblk_inj in E. lia.
  - simpl. replace (k + S i)%nat with (S k + i)%nat by lia. by apply IH.
Qed.

Lemma home_writes_apply g k d bl d0 i b :
  NoDup bl → bl !! i = Some b → apply_writes d0 (home_writes g k d bl) b = d (logblk g (k + i)).
Proof.
  intros Hnd. revert k d0 i; induction bl as [|c bl IH]; intros k d0 i Hi; [done|].
  apply NoDup_cons in Hnd as [Hc Hnd]. destruct i as [|i]; simpl in Hi.
  - injection Hi as ->. rewrite Nat.add_0_r.
    change (apply_writes (zupd d0 b (d (logblk g k))) (home_writes g (S k) d bl) b = d (logblk g k)).
    rewrite apply_writes_notin; [by rewrite zupd_eq|]. by rewrite home_writes_dom.
  - replace (k + S i)%nat with (S k + i)%nat by lia. by apply IH.
Qed.

(** A prefix of the home writes leaves the log area alone. *)
Lemma home_writes_prefix g d bl d0 m x :
  Forall (home g) bl → ¬ home g x → apply_writes d0 (take m (home_writes g 0 d bl)) x = d0 x.
Proof.
  intros Hh Hx. apply apply_writes_notin. intros Hin.
  rewrite fmap_take, home_writes_dom in Hin. apply Hx. eapply (Forall_elem _ bl); [done|].
  rewrite <- (take_drop m bl). set_solver.
Qed.

Lemma logblk_not_home g bl i : log_ok g → header g bl → (i < length bl)%nat → ¬ home g (logblk g i).
Proof. intros Hg Hh Hi [_ H]. apply H. destruct Hg, Hh. unfold logblk. lia. Qed.

Lemma start_not_home g : log_ok g → ¬ home g (lg_start g).
Proof. intros Hg [_ H]. apply H. destruct Hg. lia. Qed.

Lemma reboot_run d g bl :
  (∀ b, block_ok (d b)) → log_ok g → disk_header (d (lg_start g)) bl →
  Z.of_nat (length bl) <= lg_size g - 1 → Forall (home g) bl → NoDup bl →
  ∃ s', reboot (lg_start g) (lg_size g) (Thread [] (LState (bio_boot d) log_boot)) = Ok tt (Thread [] s') ∧
    (∀ x, disk (lbio s') x = apply_writes d (recover_writes g d bl) x) ∧
    writes (lbio s') = recover_writes g d bl ∧
    (∃ l, bio_inv (lbio s') l) ∧ pinned (lbio s') [] ∧
    llog s' = set_lh_n 0 (loaded (with_area (lg_start g) (lg_size g) ROOTDEV log_boot) bl).
Proof.
  intros Hok Hg Hd Hlen Hhome Hnd.
  destruct (binit_run d [] Hok) as (s1 & E1 & Hinv1 & Hd1 & Hw1 & Hno).
  set (g1 := with_area (lg_start g) (lg_size g) ROOTDEV log_boot).
  assert (log_ok g1) as Hg1 by (destruct Hg; by split).
  destruct (recover_run [] s1 (rev (seq 0 HEAD)) g1 bl) as (s2 & l2 & E2 & Hinv2 & Hp2 & Hw2 & Hd2); try done.
  - split; [apply not_elem_of_nil|intros i; apply not_elem_of_nil].
  - intros x. rewrite decide_False by apply not_elem_of_nil.
    destruct (decide (pins s1 x = 0)); [done|]. exfalso.
    pose proof (pins_nonneg s1 _ x Hinv1). destruct (pins_pos_isbuf s1 x) as [i Hi]; [lia|]. by apply Hno in Hi.
  - by rewrite Hd1.
  - exists (LState s2 (set_lh_n 0 (loaded g1 bl))). split.
    + unfold reboot. bio_step E1. unfold initlog.
      change (BSIZE <=? 4 + 4 * LOGSIZE) with false. cbn [panic_if]. do 2 kstep. unfold updl. cbn [lbio llog].
      destruct Hg. unfold s32. rewrite !signed_small by (unfold LOGSIZE, MAXOPBLOCKS in *; lia).
      exact E2.
    + cbn [lbio]. rewrite Hw1, Hd1 in Hw2. unfold recover_writes in *.
      rewrite (home_writes_start g g1) in Hw2 by done. split; [|split; [exact Hw2|split; [by exists l2|done]]].
      intros x. rewrite Hd2, Hd1. by rewrite (home_writes_start g g1) by done.
Qed.

(** The disk blocks outside of the log area, with the transaction applied. *)
Definition committed (v d : Z → block) (bl : list Z) (x : Z) : block :=
  if decide (x ∈ bl) then v x else d x.

(** Recovering a disk whose header names [bl] and whose log area holds the
    blocks of [v]. *)
Lemma recover_writes_committed g bl v d0 d x :
  log_ok g → header g bl → home g x →
  (∀ i b, bl !! i = Some b → d (logblk g i) = v b) →
  (∀ y, home g y → y ∉ bl → d y = d0 y) →
  apply_writes d (recover_writes g d bl) x = committed v d0 bl x.
Proof.
  intros Hg Hh Hx Hlog Hoth. unfold recover_writes, committed. rewrite apply_writes_app.
  unfold apply_writes at 1. simpl. rewrite zupd_ne by (by apply home_not_start). case_decide as Hin.
  - apply list_elem_of_lookup in Hin as [i Hi].
    rewrite (home_writes_apply g 0 d bl d i x) by (done || apply Hh). by apply Hlog.
  - rewrite apply_writes_notin by (by rewrite home_writes_dom). by apply Hoth.
Qed.

Lemma recover_writes_nil g d x : log_ok g → home g x → apply_writes d (recover_writes g d []) x = d x.
Proof. intros Hg Hx. simpl. apply zupd_ne. by apply home_not_start. Qed.

(** *** The three phases of a commit *)

Lemma length_log_writes g k v bl : length (log_writes g k v bl) = length bl.
Proof. revert k; induction bl; intros k; simpl; auto. Qed.
Lemma length_home_writes g k d bl : length (home_writes g k d bl) = length bl.
Proof. revert k; induction bl; intros k; simpl; auto. Qed.

Lemma log_writes_other g v bl d0 m x :
  log_ok g → header g bl → home g x ∨ x = lg_start g →
  apply_writes d0 (take m (log_writes g 0 v bl)) x = d0 x.
Proof.
  intros Hg Hh Hx. apply apply_writes_notin. intros Hin.
  rewrite fmap_take in Hin.
  assert (x ∈ (log_writes g 0 v bl).*1) as Hin2
    by (rewrite <- (take_drop m (log_writes g 0 v bl).*1); set_solver).
  apply log_writes_dom in Hin2 as (i & Hi & ->). destruct Hx as [Hx|Hx].
  - eapply (logblk_not_home g bl i); [done|done|lia|done].
  - by apply logblk_not_start in Hx.
Qed.

(** After the header is written, and [m] blocks are home. *)
Lemma phase_installing g bl v d0 h1 m :
  log_ok g → header g bl →
  let w1 := log_writes g 0 v bl in
  let w2 := home_writes g 0 (apply_writes d0 w1) bl in
  let d := apply_writes d0 (w1 ++ [(lg_start g, h1)] ++ take m w2) in
  d (lg_start g) = h1 ∧ (∀ i b, bl !! i = Some b → d (logblk g i) = v b) ∧
  (∀ y, home g y → y ∉ bl → d y = d0 y) ∧
  ((length bl <= m)%nat → ∀ y, home g y → d y = committed v d0 bl y).
Proof.
  intros Hg Hh w1 w2 d.
  assert (∀ x, d x = apply_writes (zupd (apply_writes d0 w1) (lg_start g) h1) (take m w2) x) as Hd.
  { intros x. subst d. rewrite !apply_writes_app. done. }
  assert (∀ y, home g y → zupd (apply_writes d0 w1) (lg_start g) h1 y = d0 y) as Hz.
  { intros y Hy. rewrite zupd_ne by (by apply home_not_start).
    pose proof (log_writes_other g v bl d0 (length w1) y Hg Hh (or_introl Hy)) as E.
    rewrite take_ge in E by (subst w1; lia); exact E. }
  assert (∀ i b, bl !! i = Some b → apply_writes d0 w1 (logblk g i) = v b) as Hl
    by (intros i b Hi; by apply (log_writes_apply g 0 v bl d0 i b)).
  split_and!.
  - rewrite Hd. subst w2. rewrite (home_writes_prefix g _ bl); [by rewrite zupd_eq|apply Hh|by apply start_not_home].
  - intros i b Hi. rewrite Hd. subst w2. rewrite (home_writes_prefix g _ bl).
    + rewrite zupd_ne by apply logblk_not_start. by apply Hl.
    + apply Hh.
    + eapply logblk_not_home; [done|done|]. by eapply lookup_lt_Some.
  - intros y Hy Hyb. rewrite Hd, apply_writes_notin; [by apply Hz|].
    rewrite fmap_take. subst w2. rewrite home_writes_dom. intros Hin. apply Hyb.
    rewrite <- (take_drop m bl). set_solver.
  - intros Hm y Hy. rewrite Hd, take_ge by (subst w2; rewrite length_home_writes; lia).
    unfold committed. case_decide as Hin.
    + apply list_elem_of_lookup in Hin as [i Hi]. subst w2.
      rewrite (home_writes_apply g 0 _ bl _ i y) by (done || apply Hh). by apply Hl.
    + rewrite apply_writes_notin; [by apply Hz|]. subst w2. by rewrite home_writes_dom.
Qed.

Lemma commit_writes_ok g v d bl :
  (∀ b, block_ok (v b)) → (∀ b, block_ok (d b)) → log_ok g → header g bl →
  Forall (λ p, block_ok p.2) (commit_writes g v d bl) ∧
  disk_header (hdr_block (d (lg_start g)) bl) bl ∧
  disk_header (hdr_block (hdr_block (d (lg_start g)) bl) []) [].
Proof.
  intros Hv Hd Hg Hh. assert (length bl <= 30)%nat as Hl.
  { pose proof (hd_room g bl Hh). pose proof (lo_size g Hg). unfold LOGSIZE, MAXOPBLOCKS in *. lia. }
  destruct (hdr_block_header (d (lg_start g)) bl) as [H1 H2]; [done|done| |].
  { eapply Forall_impl; [apply Hh|]. by intros x [Hx _]. }
  destruct (hdr_block_header (hdr_block (d (lg_start g)) bl) []) as [H3 H4]; [done|simpl; lia|constructor|].
  split_and!; try done. unfold commit_writes.
  assert (Forall (λ p, block_ok p.2) (log_writes g 0 v bl)) as Hw1 by (by apply log_writes_ok).
  rewrite !Forall_app. split_and!; try done.
  - by apply Forall_singleton.
  - apply home_writes_ok. by apply apply_writes_ok.
  - by apply Forall_singleton.
Qed.


(** The disk after a whole commit. *)
Lemma commit_final g bl v d0 :
  log_ok g → header g bl →
  let d := apply_writes d0 (commit_writes g v d0 bl) in
  d (lg_start g) = hdr_block (hdr_block (d0 (lg_start g)) bl) [] ∧
  ∀ y, home g y → d y = committed v d0 bl y.
Proof.
  intros Hg Hh d. set (h1 := hdr_block (d0 (lg_start g)) bl).
  assert (∀ x, d x = zupd (apply_writes d0 (log_writes g 0 v bl ++ [(lg_start g, h1)] ++
      take (length bl) (home_writes g 0 (apply_writes d0 (log_writes g 0 v bl)) bl))) (lg_start g)
      (hdr_block h1 []) x) as Ed.
  { intros x. subst d. unfold commit_writes. rewrite (take_ge (home_writes _ _ _ _)) by
      (rewrite length_home_writes; lia). unfold apply_writes. rewrite !foldl_app. done. }
  clearbody d. split; [by rewrite Ed, zupd_eq|].
  intros y Hy. rewrite Ed, zupd_ne by (by apply home_not_start).
  destruct (phase_installing g bl v d0 h1 (length bl) Hg Hh) as (_ & _ & _ & P4). by apply P4.
Qed.

(** What the disk of a crash after [k] writes recovers to. *)
Lemma crash_recovers g bl v d0 k :
  (∀ b, block_ok (v b)) → (∀ b, block_ok (d0 b)) → log_ok g → header g bl →
  disk_header (d0 (lg_start g)) [] →
  let d := apply_writes d0 (take k (commit_writes g v d0 bl)) in
  ∃ r, reboot (lg_start g) (lg_size g) (Thread [] (LState (bio_boot d) log_boot)) = Ok tt (Thread [] r) ∧
    ∀ x, home g x →
      disk (lbio r) x = if decide (k <= length bl)%nat then d0 x else committed v d0 bl x.
Proof.
  intros Hv Hd Hg Hh H0 d.
  destruct (commit_writes_ok g v d0 bl) as (Hok & Hh1 & Hh2); try done.
  assert (∀ b, block_ok (d b)) as Hdok by (apply apply_writes_ok; [done|by apply Forall_take]).
  pose proof (hd_room g bl Hh) as Hroom. pose proof (hd_home g bl Hh) as Hhome.
  pose proof (hd_nodup g bl Hh) as Hnd. pose proof (lo_size g Hg) as Hsz.
  set (n := length bl) in *. unfold commit_writes in d.
  set (w1 := log_writes g 0 v bl) in *. set (h1 := hdr_block (d0 (lg_start g)) bl) in *.
  set (w2 := home_writes g 0 (apply_writes d0 w1) bl) in *.
  assert (length w1 = n ∧ length w2 = n) as [Hl1 Hl2]
    by (subst w1 w2; by rewrite length_log_writes, length_home_writes).
  destruct (decide (k <= n)%nat) as [Hk|Hk]; [|destruct (decide (k <= 2 * n + 1)%nat) as [Hk2|Hk2]].
  - assert (d = apply_writes d0 (take k w1)) as Ed by (subst d; by rewrite take_app_le by lia).
    assert (∀ x, home g x ∨ x = lg_start g → d x = d0 x) as Hdx
      by (intros x Hx; rewrite Ed; by apply (log_writes_other g v bl)).
    clearbody d. destruct (reboot_run d g [] Hdok Hg) as (r & E & Hr & _);
      [by rewrite Hdx by auto|simpl; lia|constructor|constructor|].
    exists r. split; [done|]. intros x Hx. rewrite Hr, recover_writes_nil by done. by apply Hdx; left.
  - assert (d = apply_writes d0 (w1 ++ [(lg_start g, h1)] ++ take (k - n - 1) w2)) as Ed.
    { subst d. rewrite take_app_ge by lia. rewrite Hl1. f_equal. f_equal.
      replace (k - n)%nat with (S (k - n - 1)) by lia. simpl. f_equal. by rewrite Nat.sub_0_r, take_app_le by lia. }
    destruct (phase_installing g bl v d0 h1 (k - n - 1) Hg Hh) as (P1 & P2 & P3 & _).
    fold w1 w2 in P1, P2, P3. rewrite <- Ed in P1, P2, P3.
    clearbody d. destruct (reboot_run d g bl Hdok Hg) as (r & E & Hr & _); [by rewrite P1|done..|].
    exists r. split; [done|]. intros x Hx. rewrite Hr. by apply recover_writes_committed.
  - destruct (commit_final g bl v d0 Hg Hh) as [F1 F2]. unfold commit_writes in F1, F2.
    fold w1 h1 w2 in F1, F2.
    assert (d = apply_writes d0 (w1 ++ [(lg_start g, h1)] ++ w2 ++ [(lg_start g, hdr_block h1 [])])) as Ed
      by (subst d; by rewrite take_ge by (rewrite !length_app; simpl; lia)).
    rewrite <- Ed in F1, F2. clearbody d. destruct (reboot_run d g [] Hdok Hg) as (r & E & Hr & _);
      [by rewrite F1|simpl; lia|constructor|constructor|].
    exists r. split; [done|]. intros x Hx. rewrite Hr, recover_writes_nil by done. by apply F2.
Qed.

(** ** Transactions *)

Lemma absorb_in L n bl b :
  take n L = bl → b ∈ bl → L !! absorb L n b = Some b ∧ (absorb L n b < n)%nat.
Proof.
  revert n bl; induction L as [|x L IH]; intros [|n] bl Hl Hb; simpl in *; subst; try set_solver.
  destruct (Z.eqb_spec x b) as [->|]; [split; [done|lia]|].
  destruct (IH n (take n L)) as [H1 H2]; [done|set_solver|]. split; [done|lia].
Qed.

Lemma absorb_notin L n bl b :
  take n L = bl → (n <= length L)%nat → b ∉ bl → absorb L n b = n.
Proof.
  revert n bl; induction L as [|x L IH]; intros [|n] bl Hl Hn Hb; simpl in *; subst; try done; [lia|].
  destruct (Z.eqb_spec x b) as [->|]; [set_solver|].
  f_equal. apply (IH n (take n L)); [done|lia|set_solver].
Qed.

(** The header after [log_write] of block [b]. *)
Definition add_block (bl : list Z) (b : Z) : list Z := if decide (b ∈ bl) then bl else bl ++ [b].

Definition same_area (g g' : log) : Prop :=
  lg_start g' = lg_start g ∧ lg_size g' = lg_size g ∧ lg_outstanding g' = lg_outstanding g ∧
  lg_committing g' = lg_committing g ∧ lg_wakeups g' = lg_wakeups g.

Lemma log_write_run h s l g bl i b :
  bio_inv s l → isbuf s i b → L_log ∉ h → L_bcache ∉ h → pins s b + 1 < 2 ^ 32 →
  log_ok g → header g bl → home g b → 1 <= lg_outstanding g →
  Z.of_nat (length bl) < lg_size g - 1 →
  ∃ s' g', log_write i (Thread h (LState s g)) = Ok tt (Thread h (LState s' g')) ∧
    bio_inv s' l ∧ (∀ j x, isbuf s' j x ↔ isbuf s j x) ∧ (∀ x, view s' x = view s x) ∧
    (∀ x, pins s' x = zupd (pins s) b (pins s b + if decide (b ∈ bl) then 0 else 1) x) ∧
    disk s' = disk s ∧ writes s' = writes s ∧
    log_ok g' ∧ header g' (add_block bl b) ∧ same_area g g'.
Proof.
  intros Hinv Hi Hh1 Hh2 Hpb Hg Hh Hhome Hout Hroom.
  pose proof Hi as (Hi1 & _ & Hi3). pose proof (lo_len g Hg) as HL. pose proof (lo_size g Hg) as Hsz.
  pose proof (hd_bl g bl Hh) as Htake. pose proof (hd_len g bl Hh) as Hn.
  assert (Z.to_nat LOGSIZE = 30%nat) as HLS by reflexivity. rewrite HLS in HL.
  assert (length bl < 29)%nat as Hbl by (unfold LOGSIZE, MAXOPBLOCKS in *; lia).
  assert (s32 b = b) as Hsb by (unfold s32; apply signed_small; [lia|]; destruct Hhome; lia).
  set (j := absorb (lh_block (lg_lh g)) (length bl) b).
  assert (j <= length bl)%nat as Hj.
  { destruct (decide (b ∈ bl)) as [Hb|Hb].
    - destruct (absorb_in _ _ _ _ Htake Hb). subst j. lia.
    - subst j. rewrite (absorb_notin _ _ _ _ Htake); [lia|lia|done]. }
  assert (log_write i (Thread h (LState s g)) =
    ((if Z.of_nat j =? Z.of_nat (length bl)
      then bio_op (bpin i) ;;; modify (updl (λ g, set_lh_n (lh_n (lg_lh g) + 1) g)) else ret tt) ;;;
     release L_log) (Thread (L_log :: h) (LState s (set_lh_block j b g)))) as ->.
  { match goal with |- _ = ?r => set (R := r) end. unfold log_write. do 2 kstep. cbn [llog st]. rewrite Hn.
    rewrite (proj2 (Z.leb_gt LOGSIZE _)) by lia. rewrite (proj2 (Z.leb_gt _ (Z.of_nat _))) by lia.
    rewrite (proj2 (Z.ltb_ge _ 1)) by lia. cbn [orb panic_if]. do 3 kstep. cbn [lbio st].
    rewrite Hi3, Hsb, Nat2Z.id. fold j.
    rewrite (bind_Ok _ _ _ _ _ (put_block_Ok (L_log :: h) (LState s g) j b ltac:(simpl; lia))). done. }
  destruct (Z.eqb_spec (Z.of_nat j) (Z.of_nat (length bl))) as [E|E].
  - assert (b ∉ bl) as Hb.
    { intros Hb. destruct (absorb_in _ _ _ _ Htake Hb). subst j. lia. }
    destruct (bpin_run (L_log :: h) s l i b) as (s1 & E1 & P1 & P2 & P3 & P4 & P5 & P6);
      [done|done|set_solver|done|].
    exists s1, (set_lh_n (lh_n (lg_lh g) + 1) (set_lh_block j b g)).
    unfold add_block. rewrite !decide_False by done.
    split_and!; try done.
    + kstep. bio_step E1. kstep. apply release_Ok.
    + destruct Hg. split; simpl; try done. by rewrite length_insert.
    + apply Nat2Z.inj in E. destruct Hh. split; simpl; try done.
      * rewrite Hn, length_app. simpl. lia.
      * rewrite length_app, E. simpl.
        replace (length bl + 1)%nat with (S (length bl)) by lia.
        rewrite (take_S_r _ _ b) by (apply list_lookup_insert_eq; lia).
        by rewrite take_insert_ge, Htake by lia.
      * rewrite length_app. simpl. lia.
      * apply Forall_app. split; [done|]. by apply Forall_singleton.
      * apply NoDup_app. split_and!; [done|set_solver|apply NoDup_singleton].
  - assert (b ∈ bl) as Hb.
    { destruct (decide (b ∈ bl)) as [|Hb]; [done|]. exfalso. apply E. subst j.
      by rewrite (absorb_notin _ _ _ _ Htake) by (done || lia). }
    destruct (absorb_in _ _ _ _ Htake Hb) as [Hjb _]. fold j in Hjb.
    exists s, (set_lh_block j b g). unfold add_block. rewrite !decide_True by done.
    split_and!; try done.
    + intros x. rewrite Z.add_0_r, zupd_if. by destruct (Z.eqb_spec x b) as [->|].
    + destruct Hg. split; simpl; try done. by rewrite length_insert.
    + destruct Hh. split; simpl; try done. by rewrite list_insert_id.
Qed.

(** *** One update inside a transaction *)

Definition bset (i : nat) (d : block) : M lstate unit :=
  bio_op (modify (updb i (with_data d))).

(** The typical use that log.c documents: [bread], change, [log_write], [brelse]. *)
Definition update (b : Z) (d : block) : M lstate unit :=
  let! i := bio_op (bread ROOTDEV b) in
  bset i d ;;;
  log_write i ;;;
  bio_op (brelse i).

Lemma update_run h s l g bl b d :
  bio_inv s l → quiet h → L_log ∉ h → log_ok g → header g bl → pinned s bl →
  home g b → block_ok d → 1 <= lg_outstanding g → Z.of_nat (length bl) < lg_size g - 1 →
  ∃ s' l' g', update b d (Thread h (LState s g)) = Ok tt (Thread h (LState s' g')) ∧
    bio_inv s' l' ∧ (∀ x, view s' x = zupd (view s) b d x) ∧ pinned s' (add_block bl b) ∧
    disk s' = disk s ∧ writes s' = writes s ∧
    log_ok g' ∧ header g' (add_block bl b) ∧ same_area g g'.
Proof.
  intros Hinv [Hq1 Hq2] Hlk Hg Hh Hp Hhome Hd Hout Hroom.
  pose proof (lo_size g Hg) as Hsz. unfold LOGSIZE, MAXOPBLOCKS in Hsz.
  assert (0 <= pins s b <= 1) as Hpb by (rewrite Hp; case_decide; lia).
  destruct (bread_run h s l b bl Hinv Hq1 (λ k Hk, False_ind _ (Hq2 k Hk)) (λ k _, Hq2 k))
    as (i & s1 & E1 & Hinv1 & Hi & _ & Hv1 & Hp1 & Hd1 & Hw1 & _); [lia| |rewrite HEAD_eq; lia|].
  { intros x. rewrite Hp. case_decide; [done|lia]. }
  assert (pins s1 b = pins s b + 1) as Hp1b by (by rewrite Hp1, zupd_eq).
  destruct (setdata_run s1 l i b d) as (Hinv2 & Hb2 & Hv2 & Hp2); [done|done|lia|done|].
  set (s2 := updb i (with_data d) s1) in *.
  destruct (log_write_run (SL_buf i :: h) s2 l g bl i b)
    as (s3 & g3 & E3 & Hinv3 & Hb3 & Hv3 & Hp3 & Hd3 & Hw3 & Hg3 & Hh3 & Hsa);
    [done|by apply Hb2|set_solver|set_solver|rewrite Hp2; lia|done|done|done|done|done|].
  assert (pins s3 b = 2) as Hp3b.
  { rewrite Hp3, zupd_eq, Hp2, Hp1b, Hp. case_decide; lia. }
  destruct (brelse_run (SL_buf i :: h) s3 l i b) as (s4 & l4 & E4 & Hinv4 & Hb4 & Hv4 & Hp4 & Hd4 & Hw4 & _);
    [done|by apply Hb3, Hb2|set_solver|set_solver|lia|lia|].
  rewrite remove_lock_head in E4. exists s4, l4, g3. split_and!; try done.
  - unfold update. bio_step E1.
    rewrite (bind_Ok (bset i d) _ _ tt (Thread (SL_buf i :: h) (LState s2 g))) by done.
    rewrite (bind_Ok _ _ _ _ _ E3). by apply bio_op_Ok.
  - intros x. rewrite Hv4, Hv3, Hv2, !zupd_if. by rewrite Hv1.
  - intros x. rewrite Hp4, zupd_if, Hp3b. unfold add_block.
    destruct (Z.eqb_spec x b) as [->|Hx].
    + destruct (decide (b ∈ bl)); [by rewrite decide_True|]. by rewrite decide_True by set_solver.
    + rewrite Hp3, zupd_ne, Hp2, Hp1, zupd_ne, Hp by done.
      destruct (decide (b ∈ bl)); [done|]. destruct (decide (x ∈ bl)).
      * by rewrite decide_True by set_solver.
      * by rewrite decide_False by set_solver.
  - rewrite Hd4, Hd3. done.
  - rewrite Hw4, Hw3. done.
Qed.

(** *** [begin_op] and [end_op] when the log is idle *)

Lemma begin_op_idle h s g bl env :
  L_log ∉ h → header g bl → lg_committing g = false →
  Z.of_nat (length bl) + (lg_outstanding g + 1) * MAXOPBLOCKS <= LOGSIZE →
  begin_op env (Thread h (LState s g)) =
    Ok tt (Thread h (LState s (with_outstanding (lg_outstanding g + 1) g))).
Proof.
  intros Hlk Hh Hc Hr. unfold begin_op. kstep.
  assert (∀ env, begin_op_loop env (Thread (L_log :: h) (LState s g)) =
    (modify (updl (with_outstanding (lg_outstanding g + 1))) ;;; release L_log)
      (Thread (L_log :: h) (LState s g))) as ->.
  { intros []; cbn [begin_op_loop]; kstep; cbn [llog st]; rewrite Hc, (hd_len g bl Hh);
      by rewrite (proj2 (Z.ltb_ge _ _)) by lia. }
  kstep. apply release_Ok.
Qed.

Fixpoint updates (ups : list (Z * block)) : M lstate unit :=
  match ups with
  | [] => ret tt
  | p :: ups => update p.1 p.2 ;;; updates ups
  end.

Lemma add_block_spec bl b x : x ∈ add_block bl b ↔ x ∈ bl ∨ x = b.
Proof. unfold add_block. case_decide; set_solver. Qed.

Lemma length_add_block bl b : (length (add_block bl b) <= S (length bl))%nat.
Proof. unfold add_block. case_decide; [lia|]. rewrite length_app. simpl. lia. Qed.

Definition add_blocks (bl : list Z) (ups : list (Z * block)) : list Z :=
  foldl (λ bl p, add_block bl p.1) bl ups.

Lemma add_blocks_spec bl ups x : x ∈ add_blocks bl ups ↔ x ∈ bl ∨ x ∈ ups.*1.
Proof.
  unfold add_blocks. revert bl; induction ups as [|p ups IH]; intros bl; simpl; [set_solver|].
  rewrite IH, add_block_spec. set_solver.
Qed.

Lemma same_area_home g g' b : same_area g g' → home g' b ↔ home g b.
Proof. intros (E1 & E2 & _). unfold home. by rewrite E1, E2. Qed.

Lemma updates_run h s l g bl ups :
  bio_inv s l → quiet h → L_log ∉ h → log_ok g → header g bl → pinned s bl →
  Forall (λ p, home g p.1 ∧ block_ok p.2) ups → 1 <= lg_outstanding g →
  Z.of_nat (length bl + length ups) <= lg_size g - 1 →
  ∃ s' l' g', updates ups (Thread h (LState s g)) = Ok tt (Thread h (LState s' g')) ∧
    bio_inv s' l' ∧ (∀ x, view s' x = apply_writes (view s) ups x) ∧ pinned s' (add_blocks bl ups) ∧
    disk s' = disk s ∧ writes s' = writes s ∧
    log_ok g' ∧ header g' (add_blocks bl ups) ∧ same_area g g'.
Proof.
  intros Hinv Hq Hlk Hg Hh Hp Hups. revert s l g bl Hinv Hg Hh Hp Hups.
  induction ups as [|[b d] ups IH]; intros s l g bl Hinv Hg Hh Hp Hups Hout Hroom.
  { exists s, l, g. split_and!; done. }
  apply Forall_cons in Hups as [[Hb Hd] Hups]. cbn [fst snd length] in *.
  destruct (update_run h s l g bl b d) as (s1 & l1 & g1 & E1 & Hinv1 & Hv1 & Hp1 & Hd1 & Hw1 & Hg1 & Hh1 & Hsa);
    [done..|lia|].
  pose proof (length_add_block bl b). pose proof Hsa as (Es & Ez & Eo & Ec & Ew).
  destruct (IH s1 l1 g1 (add_block bl b)) as (s2 & l2 & g2 & E2 & Hinv2 & Hv2 & Hp2 & Hd2 & Hw2 & Hg2 & Hh2 & Hsb);
    [done|done|done|done| |by rewrite Eo|rewrite Ez; lia|].
  { eapply Forall_impl; [done|]. intros p [? ?]. by rewrite (same_area_home g g1). }
  exists s2, l2, g2. split_and!; try done.
  - cbn [updates fst snd]. by rewrite (bind_Ok _ _ _ _ _ E1).
  - intros x. rewrite Hv2. cbn. by apply apply_writes_ext.
  - congruence.
  - congruence.
  - destruct Hsb as (?&?&?&?&?). repeat split; congruence.
Qed.

Lemma header_outstanding g bl n : header g bl → header (with_outstanding n g) bl.
Proof. by intros []. Qed.
Lemma log_ok_outstanding g n : log_ok g → log_ok (with_outstanding n g).
Proof. by intros []. Qed.

Lemma log_writes_start g g' k v bl :
  lg_start g' = lg_start g → log_writes g' k v bl = log_writes g k v bl.
Proof.
  intros E. revert k; induction bl as [|b bl IH]; intros k; simpl; [done|].
  unfold logblk. by rewrite IH, E.
Qed.

Lemma commit_writes_start g g' v d bl :
  lg_start g' = lg_start g → commit_writes g' v d bl = commit_writes g v d bl.
Proof.
  intros E. unfold commit_writes.
  by rewrite (log_writes_start g g'), (home_writes_start g g'), E by done.
Qed.

(** The last [end_op] commits. *)
Lemma end_op_run h s l g bl :
  bio_inv s l → quiet h → L_log ∉ h → log_ok g → header g bl → pinned s bl →
  lg_outstanding g = 1 → lg_committing g = false →
  ∃ s' l' g', end_op (Thread h (LState s g)) = Ok tt (Thread h (LState s' g')) ∧
    bio_inv s' l' ∧ pinned s' [] ∧ log_ok g' ∧ header g' [] ∧
    lg_outstanding g' = 0 ∧ lg_committing g' = false ∧ lg_wakeups g' = S (lg_wakeups g) ∧
    lg_start g' = lg_start g ∧ lg_size g' = lg_size g ∧
    let w := if decide (bl = []) then [] else commit_writes g (view s) (disk s) bl in
    writes s' = writes s ++ w ∧ (∀ x, disk s' x = apply_writes (disk s) w x).
Proof.
  intros Hinv Hq Hlk Hg Hh Hp Ho Hc.
  set (g1 := with_committing true (with_outstanding (lg_outstanding g - 1) g)).
  assert (log_ok g1 ∧ header g1 bl) as [Hg1 Hh1] by (destruct Hg, Hh; split; by split).
  assert (∃ s' l', commit (Thread h (LState s g1)) = Ok tt (Thread h (LState s' (set_lh_n 0 g1))) ∧
    bio_inv s' l' ∧ pinned s' [] ∧
    let w := if decide (bl = []) then [] else commit_writes g1 (view s) (disk s) bl in
    writes s' = writes s ++ w ∧ (∀ x, disk s' x = apply_writes (disk s) w x))
    as (s1 & l1 & E1 & Hinv1 & Hp1 & Hw1 & Hd1).
  { case_decide as Hbl.
    - subst bl. exists s, l. split; [|split; [done|split; [done|by split; [rewrite app_nil_r|]]]].
      unfold commit. kstep. cbn [llog st]. rewrite (hd_len g1 [] Hh1). simpl.
      rewrite <- (hd_len g1 [] Hh1) at 1. by destruct g1 as [? ? ? ? ? [] ?].
    - destruct (commit_run h s l g1 bl) as (s1 & l1 & E1 & P1 & P2 & P3 & P4); try done.
      exists s1, l1. done. }
  set (g2 := with_committing false (set_lh_n 0 g1)).
  exists s1, l1, (Log (lg_start g2) (lg_size g2) (lg_outstanding g2) (lg_committing g2)
                    (lg_dev g2) (lg_lh g2) (S (lg_wakeups g2))).
  destruct (header_clear g1 bl Hg1 Hh1) as [Hg2 Hh2].
  split_and!; try done.
  - unfold end_op. do 3 kstep. cbn [llog st updl]. change (lg_committing (with_outstanding _ g)) with (lg_committing g).
    rewrite Hc. cbn [panic_if]. kstep.
    change (lg_outstanding (with_outstanding _ g)) with (lg_outstanding g - 1). rewrite Ho.
    change (1 - 1 =? 0) with true. cbn iota. do 2 kstep.
    assert (updl (with_committing true) (updl (λ g, with_outstanding (lg_outstanding g - 1) g) (LState s g)) =
      LState s g1) as -> by done.
    rewrite (bind_Ok _ _ _ _ _ E1). do 2 kstep. unfold wakeup_log. kstep. apply release_Ok.
  - destruct Hg2; by split.
  - destruct Hh2; by split.
  - simpl. lia.
  - cbv zeta in *. by rewrite <- (commit_writes_start g g1).
Qed.

(** ** What the log promises *)

(** A file system call: its updates between [begin_op] and [end_op]. *)
Definition txn (ups : list (Z * block)) : M lstate unit :=
  begin_op [] ;;; updates ups ;;; end_op.

(** The log is idle: no operation is active and nothing waits to be written. *)
Record idle (s : bio) (l : list nat) (g : log) : Prop := {
  id_inv : bio_inv s l;
  id_ok : log_ok g;
  id_header : header g [];
  id_pinned : pinned s [];
  id_out : lg_outstanding g = 0;
  id_committing : lg_committing g = false;
  id_disk : disk_header (disk s (lg_start g)) [] }.

Lemma pinned_nil_view s l x : bio_inv s l → pinned s [] → view s x = disk s x.
Proof.
  intros Hinv Hp. apply (view_unpinned s l); [done|]. rewrite Hp.
  by rewrite decide_False by apply not_elem_of_nil.
Qed.

(** Where a crash after [k] of the writes of a commit leads. *)
Definition crash_disk (start size : Z) (d : Z → block) (P : (Z → block) → Prop) : Prop :=
  ∃ r, reboot start size (Thread [] (LState (bio_boot d) log_boot)) = Ok tt (Thread [] r) ∧ P (disk (lbio r)).

(** C1: a file system call is atomic and durable.  The block updates made between
    [begin_op] and [end_op] reach the disk as a sequence of block writes; if the
    machine stops after any prefix of it, the recovery at the next boot leaves
    either all of the updates or none of them on the disk (all, as soon as the
    header block is written), and every update is home when [end_op] returns. *)
Theorem transaction_atomic s l g ups :
  idle s l g → Forall (λ p, home g p.1 ∧ block_ok p.2) ups →
  Z.of_nat (length ups) <= lg_size g - 1 →
  ∃ s' l' g' w, txn ups (Thread [] (LState s g)) = Ok tt (Thread [] (LState s' g')) ∧
    idle s' l' g' ∧ writes s' = writes s ++ w ∧
    (∀ x, home g x → disk s' x = apply_writes (disk s) ups x) ∧
    ∀ k, crash_disk (lg_start g) (lg_size g) (apply_writes (disk s) (take k w)) (λ d, ∀ x, home g x →
      d x = if decide (k <= length (add_blocks [] ups))%nat then disk s x
            else apply_writes (disk s) ups x).
Proof.
  intros [Hinv Hg Hh Hp Ho Hc Hd0] Hups Hlen.
  assert (quiet []) as Hq by (split; [apply not_elem_of_nil|intros i; apply not_elem_of_nil]).
  set (g1 := with_outstanding 1 g).
  pose proof (begin_op_idle [] s g [] [] ltac:(apply not_elem_of_nil) Hh Hc) as E1.
  rewrite Ho in E1. specialize (E1 ltac:(vm_compute; discriminate)).
  change (with_outstanding (0 + 1) g) with g1 in E1.
  destruct (updates_run [] s l g1 [] ups) as (s2 & l2 & g2 & E2 & Hinv2 & Hv2 & Hp2 & Hd2 & Hw2 & Hg2 & Hh2 & Hsa);
    [done|done|apply not_elem_of_nil|by apply log_ok_outstanding|by apply header_outstanding|done|done
    |simpl; lia|done|].
  destruct Hsa as (Es & Ez & Eo & Ec & _). cbn in Es, Ez, Eo, Ec.
  set (bl := add_blocks [] ups) in *.
  destruct (end_op_run [] s2 l2 g2 bl) as (s3 & l3 & g3 & E3 & Hinv3 & Hp3 & Hg3 & Hh3 & Ho3 & Hc3 & _ & Es3 & Ez3 & Hw3 & Hd3);
    [done|done|apply not_elem_of_nil|done|done|done|rewrite Eo; lia|by rewrite Ec|].
  set (w := if decide (bl = []) then [] else commit_writes g2 (view s2) (disk s2) bl) in *.
  assert (∀ x, view s x = disk s x) as Hv by (intros x; by apply (pinned_nil_view s l)).
  assert (∀ x, x ∈ bl ↔ x ∈ ups.*1) as Hbl by (intros x; subst bl; rewrite add_blocks_spec; set_solver).
  assert (∀ x, committed (view s2) (disk s) bl x = apply_writes (disk s) ups x) as Hcm.
  { intros x. unfold committed. case_decide as Hx.
    - rewrite Hv2. by apply apply_writes_ext.
    - by rewrite apply_writes_notin by (by rewrite <- Hbl). }
  rewrite Hd2 in *. rewrite Hw2 in Hw3.
  exists s3, l3, g3, w. split; [unfold txn; rewrite (bind_Ok _ _ _ _ _ E1);
    by rewrite (bind_Ok _ _ _ _ _ E2)|].
  assert (∀ x, home g2 x ↔ home g x) as Hhm by (intros x; unfold home; by rewrite Es, Ez).
  destruct (decide (bl = [])) as [Hnil|Hnil]; subst w; cbv iota in *; rewrite ?Hd2 in *.
  - rewrite Hnil in *. assert (∀ x, apply_writes (disk s) ups x = disk s x) as Hnoop.
    { intros x. rewrite <- Hcm. unfold committed. by rewrite decide_False by apply not_elem_of_nil. }
    split_and!; try done.
    + split; try done. by rewrite Hd3, Es3, Es.
    + intros x Hx. by rewrite Hd3, Hnoop.
    + intros k. rewrite take_nil. destruct (reboot_run (disk s) g []) as (r & E & Hr & _);
        [apply Hinv|done|done|simpl; lia|constructor|constructor|].
      exists r. split; [exact E|]. intros x Hx. rewrite Hr, recover_writes_nil, Hnoop by done. by case_decide.
  - destruct (commit_final g2 bl (view s2) (disk s) Hg2 Hh2) as [F1 F2].
    destruct (commit_writes_ok g2 (view s2) (disk s) bl) as (_ & _ & F3); [|apply Hinv|done|done|].
    { intros b. by apply (view_ok s2 l2). }
    split_and!; try done.
    + split; try done. rewrite Hd3, Es3. by rewrite F1.
    + intros x Hx. rewrite Hd3, F2 by (by rewrite Hhm). apply Hcm.
    + intros k. destruct (crash_recovers g2 bl (view s2) (disk s) k) as (r & E & Hr);
        [intros b; by apply (view_ok s2 l2)|apply Hinv|done|done|by rewrite Es|].
      rewrite Es, Ez in E. exists r. split; [exact E|].
      intros x Hx. rewrite Hr, Hcm by (by rewrite Hhm). done.
Qed.

(** A prefix of a recovery's writes: the header still names the blocks, or all
    of them are home. *)
Lemma recover_prefix g d bl k :
  (∀ b, block_ok (d b)) → log_ok g → header g bl → disk_header (d (lg_start g)) bl →
  let d' := apply_writes d (take k (recover_writes g d bl)) in
  (∀ b, block_ok (d' b)) ∧
  if decide (k <= length bl)%nat
  then disk_header (d' (lg_start g)) bl ∧ (∀ i, (i < length bl)%nat → d' (logblk g i) = d (logblk g i)) ∧
       (∀ y, home g y → y ∉ bl → d' y = d y)
  else disk_header (d' (lg_start g)) [] ∧ ∀ y, home g y → d' y = apply_writes d (recover_writes g d bl) y.
Proof.
  intros Hd Hg Hh H0 d'.
  destruct (hdr_block_header (d (lg_start g)) []) as [H1 H2]; [done|simpl; lia|constructor|].
  split.
  { apply apply_writes_ok; [done|]. apply Forall_take. unfold recover_writes. apply Forall_app.
    split; [by apply home_writes_ok|by apply Forall_singleton]. }
  case_decide as Hk.
  - assert (d' = apply_writes d (take k (home_writes g 0 d bl))) as Ed.
    { subst d'. unfold recover_writes. by rewrite take_app_le by (rewrite length_home_writes; lia). }
    clearbody d'. rewrite Ed. split_and!.
    + rewrite (home_writes_prefix g d bl d k); [done|apply Hh|by apply start_not_home].
    + intros i Hi. rewrite (home_writes_prefix g d bl d k); [done|apply Hh|by apply (logblk_not_home g bl)].
    + intros y Hy Hn. apply apply_writes_notin. rewrite fmap_take, home_writes_dom. intros Hin.
      apply Hn. rewrite <- (take_drop k bl). set_solver.
  - assert (d' = apply_writes d (recover_writes g d bl)) as Ed.
    { subst d'. unfold recover_writes.
      by rewrite take_ge by (rewrite length_app, length_home_writes; simpl; lia). }
    clearbody d'. rewrite Ed. split; [|done]. unfold recover_writes.
    rewrite apply_writes_app. unfold apply_writes at 1. simpl. by rewrite zupd_eq.
Qed.

(** C3: recovery may itself be interrupted.  If the machine stops after any
    prefix of the writes of a recovery, the next boot's recovery reaches the same
    contents for every block outside of the log; and a finished recovery leaves
    an empty header, so a further one changes nothing. *)
Theorem recovery_idempotent g d bl :
  (∀ b, block_ok (d b)) → log_ok g → header g bl → disk_header (d (lg_start g)) bl →
  ∃ r, reboot (lg_start g) (lg_size g) (Thread [] (LState (bio_boot d) log_boot)) = Ok tt (Thread [] r) ∧
    disk_header (disk (lbio r) (lg_start g)) [] ∧
    (∀ y, home g y → y ∉ bl → disk (lbio r) y = d y) ∧
    ∀ k, crash_disk (lg_start g) (lg_size g) (apply_writes d (take k (writes (lbio r))))
           (λ d', ∀ x, home g x → d' x = disk (lbio r) x).
Proof.
  intros Hd Hg Hh H0. pose proof (hd_room g bl Hh). pose proof (hd_home g bl Hh). pose proof (hd_nodup g bl Hh).
  pose proof (lo_size g Hg).
  destruct (reboot_run d g bl Hd Hg H0) as (r & E & Hr & Hw & _); [done..|].
  assert (∀ x, home g x → disk (lbio r) x = committed (disk (lbio r)) d bl x) as Hcm.
  { intros x Hx. unfold committed. case_decide; [done|]. rewrite Hr. unfold recover_writes.
    rewrite apply_writes_app. unfold apply_writes at 1. simpl. rewrite zupd_ne by (by apply home_not_start).
    by rewrite apply_writes_notin by (by rewrite home_writes_dom). }
  assert (∀ i b, bl !! i = Some b → d (logblk g i) = disk (lbio r) b) as Hlog.
  { intros i b Hi. assert (home g b) by (by eapply Forall_lookup_1).
    rewrite Hr. unfold recover_writes. rewrite apply_writes_app. unfold apply_writes at 1. simpl.
    rewrite zupd_ne by (by apply home_not_start).
    by rewrite (home_writes_apply g 0 d bl d i b) by done. }
  exists r. split; [exact E|]. split; [|split; [|intros k]].
  - destruct (recover_prefix g d bl (S (length bl)) Hd Hg Hh H0) as [_ Hp].
    rewrite decide_False in Hp by lia. rewrite Hr. unfold recover_writes in *.
    rewrite take_ge in Hp by (rewrite length_app, length_home_writes; simpl; lia). apply Hp.
  - intros y Hy Hn. rewrite Hcm by done. unfold committed. by rewrite decide_False.
  - rewrite Hw. destruct (recover_prefix g d bl k Hd Hg Hh H0) as [Hok Hp].
    set (d' := apply_writes d (take k (recover_writes g d bl))) in *. clearbody d'.
    case_decide.
    + destruct Hp as (P1 & P2 & P3).
      destruct (reboot_run d' g bl Hok Hg P1) as (r' & E' & Hr' & _); [done..|].
      exists r'. split; [exact E'|]. intros x Hx. rewrite Hr', Hcm by done.
      apply (recover_writes_committed g bl (disk (lbio r)) d d' x Hg Hh Hx); [|exact P3].
      intros i b Hi. rewrite <- (Hlog i b) by done. apply P2. by eapply lookup_lt_Some.
    + destruct Hp as [P1 P2].
      destruct (reboot_run d' g [] Hok Hg P1) as (r' & E' & Hr' & _); [simpl; lia|constructor|constructor|].
      exists r'. split; [exact E'|]. intros x Hx. rewrite Hr', recover_writes_nil, P2, Hr by done. done.
Qed.

(** ** Instances *)

(** A disk of zeros: no transaction in the log. *)
Definition zdisk (_ : Z) : block := zero_block.

Lemma zdisk_header : disk_header zero_block [].
Proof. split; [vm_compute; reflexivity|done]. Qed.

(** The log of [mkfs]: block 2, [LOGSIZE] blocks. *)
Definition log2 : log := with_area 2 LOGSIZE ROOTDEV log_boot.

Lemma log2_ok : log_ok log2 ∧ header log2 [].
Proof.
  split; split; try done; try constructor; vm_compute; intuition congruence.
Qed.

(** The state after booting from a disk whose log is empty. *)
Lemma boot_from d :
  (∀ b, block_ok (d b)) → disk_header (d 2) [] →
  ∃ s l g,
    reboot 2 LOGSIZE (Thread [] (LState (bio_boot d) log_boot)) = Ok tt (Thread [] (LState s g)) ∧
    idle s l g ∧ lg_start g = 2 ∧ lg_size g = LOGSIZE ∧
    ∀ x, disk s x = zupd d 2 (hdr_block (d 2) []) x.
Proof.
  intros Hd H0. destruct log2_ok as [Hg Hh].
  destruct (reboot_run d log2 []) as (r & E & Hr & Hw & (l & Hinv) & Hp & Hl);
    [done|done|done|vm_compute; discriminate|constructor|constructor|].
  destruct (loaded_ok log2 []) as [Hg1 Hh1]; [done|vm_compute; discriminate|constructor|constructor|].
  destruct (header_clear _ _ Hg1 Hh1) as [Hg2 Hh2].
  destruct r as [s g]. cbn [lbio llog] in *. subst g. eexists s, l, _. split; [exact E|].
  assert (∀ x, disk s x = zupd d 2 (hdr_block (d 2) []) x) as Hds.
  { intros x. rewrite Hr. done. }
  split; [|split; [done|split; [done|exact Hds]]].
  split; [exact Hinv|exact Hg2|exact Hh2|exact Hp|reflexivity|reflexivity|].
  change (lg_start _) with 2. rewrite Hds, zupd_eq.
  apply (hdr_block_header (d 2) []); [done|simpl; lia|constructor].
Qed.

Lemma boot_idle : ∃ s l g,
  reboot 2 LOGSIZE (Thread [] (LState (bio_boot zdisk) log_boot)) = Ok tt (Thread [] (LState s g)) ∧
  idle s l g ∧ lg_start g = 2 ∧ lg_size g = LOGSIZE.
Proof.
  destruct (boot_from zdisk) as (s & l & g & E & Hid & Hs & Hz & _);
    [intros b; apply zero_block_ok|apply zdisk_header|eauto 10].
Qed.

Lemma home2 g b : lg_start g = 2 → lg_size g = LOGSIZE → 32 <= b < 2 ^ 31 → home g b.
Proof. intros Hs Hz Hb. unfold home. rewrite Hs, Hz. unfold LOGSIZE, MAXOPBLOCKS. lia. Qed.

(** Two blocks updated in a transaction, with a crash after 0 and after 3 writes. *)
Lemma transaction_atomic_witness :
  ∃ s g s' g' w, txn [(100, replicate 1024 1); (101, replicate 1024 2)] (Thread [] (LState s g)) =
      Ok tt (Thread [] (LState s' g')) ∧
    crash_disk 2 LOGSIZE (apply_writes (disk s) (take 0 w)) (λ d, d 100 = disk s 100) ∧
    crash_disk 2 LOGSIZE (apply_writes (disk s) (take 3 w)) (λ d, d 100 = replicate 1024 1).
Proof.
  destruct boot_idle as (s & l & g & _ & Hid & Hs & Hz).
  destruct (transaction_atomic s l g [(100, replicate 1024 1); (101, replicate 1024 2)])
    as (s' & g' & w' & w & E & _ & _ & _ & Hk).
  - exact Hid.
  - apply Forall_cons. split; [|apply Forall_singleton]; split;
      (apply home2; [done|done|cbn; lia]) || (apply const_block_ok; unfold is_byte; lia).
  - rewrite Hz. vm_compute. discriminate.
  - exists s, g, s', w', w. rewrite Hs, Hz in Hk. split; [exact E|]. split.
    + destruct (Hk 0%nat) as (r & Er & Hr). exists r. split; [exact Er|].
      rewrite Hr by (apply home2; [done|done|lia]). reflexivity.
    + destruct (Hk 3%nat) as (r & Er & Hr). exists r. split; [exact Er|].
      rewrite Hr by (apply home2; [done|done|lia]). reflexivity.
Defined.

(** Recovering the disk of zeros, interrupted before its only write. *)
Lemma recovery_idempotent_witness :
  ∃ r, reboot 2 LOGSIZE (Thread [] (LState (bio_boot zdisk) log_boot)) = Ok tt (Thread [] r) ∧
    disk (lbio r) 100 = zero_block ∧
    crash_disk 2 LOGSIZE (apply_writes zdisk (take 0 (writes (lbio r)))) (λ d, d 100 = disk (lbio r) 100).
Proof.
  destruct log2_ok as [Hg Hh].
  destruct (recovery_idempotent log2 zdisk []) as (r & E & _ & Ho & Hk).
  - intros b. apply zero_block_ok.
  - exact Hg.
  - exact Hh.
  - apply zdisk_header.
  - exists r. split; [exact E|]. split.
    + apply (Ho 100); [apply home2; [done|done|lia]|apply not_elem_of_nil].
    + destruct (Hk 0%nat) as (r' & E' & Hr). exists r'. split; [exact E'|].
      apply Hr. apply home2; [done|done|lia].
Defined.

