(* ===== verification/LogSys.v ===== *)
(** * log.c: reservations of log space

    Several file system calls run at once.  [begin_op] reserves [MAXOPBLOCKS]
    slots of the log for a call; the call's [log_write]s use them up and the last
    [end_op] empties the log.  A step of the system is one of these operations by
    some process; a process that sleeps in [begin_op] makes its step later, so
    [begin_op] is run with no round of sleeping. *)

From S2P Require Import Prelude Param Bio Log.

(** The log and, for every active call, how many slots it may still use. *)
Record sys := Sys { sys_st : lstate; sys_left : list nat }.

Definition lh_count (s : lstate) : Z := lh_n (lg_lh (llog s)).

Inductive sys_step : sys → sys → Prop :=
  | step_begin h s s' left :
      begin_op [] (Thread h s) = Ok tt (Thread h s') →
      sys_step (Sys s left) (Sys s' (Z.to_nat MAXOPBLOCKS :: left))
  | step_write h b s s' l1 k l2 :
      log_write b (Thread h s) = Ok tt (Thread h s') →
      sys_step (Sys s (l1 ++ S k :: l2)) (Sys s' (l1 ++ k :: l2))
  | step_cache {A} h h' (m : M bio A) a s s' left :
      bio_op m (Thread h s) = Ok a (Thread h' s') →
      sys_step (Sys s left) (Sys s' left)
  | step_end h s s' l1 k l2 :
      end_op (Thread h s) = Ok tt (Thread h s') →
      sys_step (Sys s (l1 ++ k :: l2)) (Sys s' (l1 ++ l2)).

(** The reservations fit into the log. *)
Record reserved (x : sys) : Prop := {
  rs_count : 0 <= lh_count (sys_st x);
  rs_sum : lh_count (sys_st x) + Z.of_nat (sum_list (sys_left x)) <= LOGSIZE;
  rs_max : Forall (λ k, k <= Z.to_nat MAXOPBLOCKS)%nat (sys_left x);
  rs_out : lg_outstanding (llog (sys_st x)) = Z.of_nat (length (sys_left x));
  rs_idle : lg_committing (llog (sys_st x)) = false }.

(** ** Operations that leave the log's variables alone *)

Definition frame_log {A} (m : M lstate A) : Prop :=
  ∀ t a t', m t = Ok a t' → llog (st t') = llog (st t).

Lemma frame_bind {A B} (m : M lstate A) (k : A → M lstate B) :
  frame_log m → (∀ a, frame_log (k a)) → frame_log (bind m k).
Proof.
  intros Hm Hk t b t' E. apply bind_inv_Ok in E as (a & t1 & E1 & E2).
  apply Hm in E1. apply Hk in E2. congruence.
Qed.

Lemma frame_bio_op {A} (m : M bio A) : frame_log (bio_op m).
Proof.
  intros t a t' E. unfold bio_op, lift in E. destruct (m _); simplify_eq. done.
Qed.

Lemma frame_gets {A} (f : lstate → A) : frame_log (gets f).
Proof. intros t a t' [= _ <-]. done. Qed.

Lemma frame_ret {A} (a : A) : frame_log (ret a).
Proof. intros t b t' [= _ <-]. done. Qed.

Lemma frame_get_block i : frame_log (get_block i).
Proof.
  apply frame_bind; [apply frame_gets|]. intros [b|]; [apply frame_ret|]. by intros t a t'.
Qed.

Lemma frame_for_range a n (body : nat → M lstate unit) :
  (∀ i, frame_log (body i)) → frame_log (for_range a n body).
Proof.
  intros Hb. revert a; induction n as [|n IH]; intros a; simpl; [apply frame_ret|].
  by apply frame_bind.
Qed.

Ltac frame :=
  repeat first
    [ apply frame_get_block | apply frame_bio_op | apply frame_gets | apply frame_ret
    | apply frame_bind; intros | apply frame_for_range; intros ].

Lemma frame_write_log : frame_log write_log.
Proof. unfold write_log, write_log_step. frame. Qed.
Lemma frame_write_head : frame_log write_head.
Proof. unfold write_head. frame. Qed.
Lemma frame_install_trans r : frame_log (install_trans r).
Proof. unfold install_trans, install_trans_step. frame. destruct r; frame. Qed.

(** ** What each operation does to the log's variables *)

Lemma commit_log t t' : commit t = Ok tt t' →
  llog (st t') = if 0 <? lh_count (st t) then set_lh_n 0 (llog (st t)) else llog (st t).
Proof.
  unfold commit. intros E. apply bind_inv_Ok in E as (n & t0 & [= <- <-] & E).
  unfold lh_count. destruct (0 <? lh_n (lg_lh (llog (st t)))); [|by injection E as <-].
  apply bind_inv_Ok in E as ([] & t1 & E1 & E). apply frame_write_log in E1.
  apply bind_inv_Ok in E as ([] & t2 & E2 & E). apply frame_write_head in E2.
  apply bind_inv_Ok in E as ([] & t3 & E3 & E). apply frame_install_trans in E3.
  apply bind_inv_Ok in E as ([] & t4 & [= <-] & E). apply frame_write_head in E.
  rewrite E. cbn [st updl llog]. congruence.
Qed.

Lemma begin_op_log t t' : begin_op [] t = Ok tt t' →
  lg_committing (llog (st t)) = false ∧
  lh_count (st t) + (lg_outstanding (llog (st t)) + 1) * MAXOPBLOCKS <= LOGSIZE ∧
  llog (st t') = with_outstanding (lg_outstanding (llog (st t)) + 1) (llog (st t)).
Proof.
  unfold begin_op. intros E. apply bind_inv_Ok in E as ([] & t1 & E1 & E).
  unfold acquire in E1. case_decide; [done|]. injection E1 as <-.
  cbn [begin_op_loop] in E. apply bind_inv_Ok in E as (g & t2 & [= <- <-] & E). cbn [st] in E.
  destruct (lg_committing (llog (st t))) eqn:Ec; [done|]. cbn [orb] in E.
  destruct (Z.ltb_spec LOGSIZE (lh_n (lg_lh (llog (st t))) +
    (lg_outstanding (llog (st t)) + 1) * MAXOPBLOCKS)) as [|Hr]; [done|].
  apply bind_inv_Ok in E as ([] & t3 & [= <-] & E).
  unfold release in E. case_decide; [|done]. injection E as <-. done.
Qed.

Lemma log_write_log b t t' : log_write b t = Ok tt t' →
  lh_count (st t) < LOGSIZE ∧ 1 <= lg_outstanding (llog (st t)) ∧
  lg_outstanding (llog (st t')) = lg_outstanding (llog (st t)) ∧
  lg_committing (llog (st t')) = lg_committing (llog (st t)) ∧
  lh_count (st t) <= lh_count (st t') <= lh_count (st t) + 1.
Proof.
  unfold log_write. intros E. apply bind_inv_Ok in E as ([] & t1 & E1 & E).
  unfold acquire in E1. case_decide; [done|]. injection E1 as <-.
  apply bind_inv_Ok in E as (g & t2 & [= <- <-] & E). cbn [st] in E.
  apply bind_inv_Ok in E as ([] & t3 & E1 & E). unfold lh_count.
  destruct (Z.leb_spec LOGSIZE (lh_n (lg_lh (llog (st t))))) as [|Hn]; [done|].
  destruct (lg_size (llog (st t)) - 1 <=? lh_n (lg_lh (llog (st t)))); [done|]. injection E1 as <-.
  apply bind_inv_Ok in E as ([] & t4 & E1 & E).
  destruct (Z.ltb_spec (lg_outstanding (llog (st t))) 1) as [|Ho]; [done|]. injection E1 as <-.
  apply bind_inv_Ok in E as (bn & t5 & [= <- <-] & E). cbn [st] in E.
  apply bind_inv_Ok in E as ([] & t6 & E1 & E).
  unfold put_block in E1. apply bind_inv_Ok in E1 as (n & t7 & [= <- <-] & E1). cbn [st] in E1.
  case_decide; [|done]. injection E1 as <-.
  apply bind_inv_Ok in E as ([] & t8 & E1 & E).
  unfold release in E. case_decide; [|done]. injection E as <-. cbn [st].
  destruct (_ =? _).
  - apply bind_inv_Ok in E1 as ([] & t9 & E1 & E2). apply frame_bio_op in E1. injection E2 as <-.
    cbn [st updl llog] in *. rewrite E1. cbn [set_lh_n set_lh_block with_lh lg_lh lh_n lg_outstanding lg_committing].
    split_and!; try done; lia.
  - injection E1 as <-. cbn [st updl llog set_lh_block with_lh lg_lh lh_n lg_outstanding lg_committing].
    split_and!; try done; lia.
Qed.

Lemma end_op_log t t' : end_op t = Ok tt t' →
  lg_committing (llog (st t)) = false →
  lg_outstanding (llog (st t')) = lg_outstanding (llog (st t)) - 1 ∧
  lg_committing (llog (st t')) = false ∧
  lh_count (st t') = if lg_outstanding (llog (st t)) - 1 =? 0
                     then (if 0 <? lh_count (st t) then 0 else lh_count (st t))
                     else lh_count (st t).
Proof.
  unfold end_op, wakeup_log, lh_count. intros E Hc. apply bind_inv_Ok in E as ([] & t1 & E1 & E).
  unfold acquire in E1. case_decide; [done|]. injection E1 as <-.
  apply bind_inv_Ok in E as ([] & t2 & [= <-] & E).
  apply bind_inv_Ok in E as (g & t3 & [= <- <-] & E).
  apply bind_inv_Ok in E as ([] & t4 & E1 & E). cbn [st updl llog with_outstanding lg_committing] in E1.
  rewrite Hc in E1. injection E1 as <-.
  cbn [st updl llog with_outstanding lg_outstanding] in E.
  destruct (lg_outstanding (llog (st t)) - 1 =? 0).
  - apply bind_inv_Ok in E as ([] & t5 & [= <-] & E).
    apply bind_inv_Ok in E as ([] & t6 & E1 & E). unfold release in E1. case_decide; [|done]. injection E1 as <-.
    apply bind_inv_Ok in E as ([] & t7 & E1 & E). apply commit_log in E1.
    unfold lh_count in E1. cbn [st updl llog with_outstanding with_committing lg_lh] in E1.
    apply bind_inv_Ok in E as ([] & t8 & E2 & E). unfold acquire in E2. case_decide; [done|]. injection E2 as <-.
    apply bind_inv_Ok in E as ([] & t9 & [= <-] & E).
    apply bind_inv_Ok in E as ([] & t10 & [= <-] & E). unfold release in E. case_decide; [|done]. injection E as <-.
    cbn [st updl llog with_committing lg_outstanding lg_committing lg_lh]. rewrite E1.
    by destruct (0 <? lh_n (lg_lh (llog (st t)))).
  - apply bind_inv_Ok in E as ([] & t5 & [= <-] & E).
    apply bind_inv_Ok in E as ([] & t6 & E1 & E). unfold release in E1. case_decide; [|done]. injection E1 as <-.
    injection E as <-. done.
Qed.

Lemma sum_list_app l1 l2 : sum_list (l1 ++ l2) = (sum_list l1 + sum_list l2)%nat.
Proof. induction l1; simpl; lia. Qed.

Lemma sum_list_max l : Forall (λ k, k <= Z.to_nat MAXOPBLOCKS)%nat l →
  Z.of_nat (sum_list l) <= Z.of_nat (length l) * MAXOPBLOCKS.
Proof. change (Z.to_nat MAXOPBLOCKS) with 10%nat. unfold MAXOPBLOCKS. induction 1; simpl; lia. Qed.

Lemma sys_step_reserved x y : sys_step x y → reserved x → reserved y.
Proof.
  intros Hstep [Hc Hs Hm Ho Hi]. destruct Hstep as [h s s' left E|h b s s' l1 k l2 E|A h h' m a s s' left E|h s s' l1 k l2 E];
    cbn [sys_st sys_left] in *.
  - apply begin_op_log in E as (_ & Hr & E). unfold lh_count in *. cbn [st] in *.
    pose proof (sum_list_max left Hm) as Hsl.
    split; cbn [sys_st sys_left]; unfold lh_count; rewrite ?E; cbn [with_outstanding lg_outstanding lg_committing lg_lh];
      [done| |by constructor|simpl; lia|done].
    cbn [sum_list]. change (Z.to_nat MAXOPBLOCKS) with 10%nat. unfold MAXOPBLOCKS in *. rewrite Ho in Hr. simpl. lia.
  - apply log_write_log in E as (H1 & H2 & H3 & H4 & H5). unfold lh_count in *. cbn [st] in *.
    rewrite sum_list_app in Hs. simpl in Hs. rewrite length_app in Ho. simpl in Ho.
    rewrite Forall_app, Forall_cons in Hm. destruct Hm as (Hm1 & Hk & Hm2).
    split; cbn [sys_st sys_left]; unfold lh_count; rewrite ?sum_list_app, ?length_app; simpl; try lia; try congruence.
    rewrite Forall_app, Forall_cons. split_and!; try done. lia.
  - apply frame_bio_op in E. cbn [st] in E. split; cbn [sys_st sys_left]; unfold lh_count in *; rewrite ?E; done.
  - apply end_op_log in E as (H1 & H2 & H3); [|done]. cbn [st] in *.
    rewrite sum_list_app in Hs. simpl in Hs. rewrite length_app in Ho. simpl in Ho.
    rewrite Forall_app, Forall_cons in Hm. destruct Hm as (Hm1 & Hk & Hm2).
    split; cbn [sys_st sys_left]; rewrite ?sum_list_app, ?length_app; try done; try lia.
    + rewrite H3. destruct (_ =? 0), (Z.ltb_spec 0 (lh_count s)); lia.
    + rewrite H3. destruct (_ =? 0), (Z.ltb_spec 0 (lh_count s)); lia.
    + by rewrite Forall_app.
Qed.

(** C4: whatever the interleaving of the file system calls, the blocks in the
    log and the slots still reserved never exceed [LOGSIZE], [outstanding] is the
    number of active calls, and a call that got through [begin_op] finds a free
    entry in [log.lh.block] for each of its [MAXOPBLOCKS] blocks. *)
Theorem reservations_fit x y :
  rtc sys_step x y → reserved x →
  reserved y ∧
  ∀ l1 k l2, sys_left y = l1 ++ S k :: l2 → 0 <= lh_count (sys_st y) < LOGSIZE.
Proof.
  intros Hst Hx. assert (reserved y) as Hy by (induction Hst; eauto using sys_step_reserved).
  split; [done|]. intros l1 k l2 E. destruct Hy as [Hc Hs _ _ _].
  rewrite E, sum_list_app in Hs. simpl in Hs. lia.
Qed.

(** One call enters after boot. *)
Lemma reservations_fit_witness :
  ∃ s s', rtc sys_step (Sys s []) (Sys s' [10%nat]) ∧ reserved (Sys s' [10%nat]) ∧
    0 <= lh_count s' < LOGSIZE.
Proof.
  destruct boot_idle as (s & l & g & _ & Hid & _ & _). destruct Hid as [_ _ Hh _ Ho Hc _].
  pose proof (hd_len g [] Hh) as Hn. cbn in Hn.
  set (s' := LState s (with_outstanding (lg_outstanding g + 1) g)).
  assert (rtc sys_step (Sys (LState s g) []) (Sys s' [10%nat])) as Hst.
  { apply rtc_once. apply (step_begin [] (LState s g) s' []).
    apply (begin_op_idle [] s g [] []); [apply not_elem_of_nil|exact Hh|exact Hc|].
    rewrite Ho. vm_compute. discriminate. }
  destruct (reservations_fit _ _ Hst) as [Hr Hlt].
  - split; cbn [sys_st sys_left]; unfold lh_count; cbn [llog]; rewrite ?Hn, ?Ho, ?Hc;
      [lia|vm_compute; discriminate|constructor|reflexivity|reflexivity].
  - exists (LState s g), s'. split; [exact Hst|]. split; [exact Hr|].
    apply (Hlt [] 9%nat []). reflexivity.
Defined.
