(* ===== verification/BlockLayer.v ===== *)
(** * What the file system expects of the blocks below it

    fs.c reads a block with [bread], changes the buffer's data, announces the
    change with [log_write] and gives the buffer back with [brelse].  [BlockOps]
    is this interface, [BlockLaws] what it promises inside a transaction, on the
    level of whole blocks; BlockLog.v proves the promise for log.c over bio.c. *)

From S2P Require Import Prelude Param.

Class BlockOps (B : Type) := {
  bread : Z → Z → M B nat;
  log_write : nat → M B unit;
  brelse : nat → M B unit;
  bdata : nat → B → block;                 (* bp->data *)
  bset : nat → block → B → B }.            (* stores into bp->data *)


(** What does not change during a transaction: the blocks that may be logged, how
    many, the place and size of the log, the number of active calls, and the disk
    as the last commit left it, with the writes that led there. *)
Record txinfo := TxInfo {
  tx_home : Z → Prop; tx_cap : Z; tx_start : Z; tx_size : Z; tx_calls : Z;
  tx_disk : Z → block; tx_writes : list (Z * block) }.

(** The transaction: the contents of the blocks, the locked buffers with their
    block numbers, the logged blocks, and the blocks changed but not logged yet. *)
Record txstate := Tx {
  tx_view : Z → block;
  tx_out : list (nat * Z);
  tx_log : list Z;
  tx_dirty : list Z }.

Definition log_add (lg : list Z) (b : Z) : list Z := if decide (b ∈ lg) then lg else lg ++ [b].

(** The locks the block layer cares about. *)
Definition block_lock (lk : lockname) : Prop :=
  match lk with L_bcache | L_log | SL_buf _ => True | _ => False end.

Class BlockLaws (B : Type) `{BlockOps B} := {
  brep : txinfo → list lockname → B → txstate → Prop;
  bread_law tx h s v out lg dirty b :
    brep tx h s (Tx v out lg dirty) → b ∉ out.*2 → (length lg + length out < 29)%nat →
    ∃ i s', bread ROOTDEV b (Thread h s) = Ok i (Thread (SL_buf i :: h) s') ∧
      brep tx (SL_buf i :: h) s' (Tx v ((i, b) :: out) lg dirty) ∧ SL_buf i ∉ h;
  bdata_law tx h s v out lg dirty i b :
    brep tx h s (Tx v out lg dirty) → (i, b) ∈ out → bdata i s = v b;
  bset_law tx h s v out lg dirty i b d :
    brep tx h s (Tx v out lg dirty) → (i, b) ∈ out → block_ok d →
    brep tx h (bset i d s) (Tx (fupdz v b d) out lg (b :: dirty));
  log_write_law tx h s v out lg dirty i b :
    brep tx h s (Tx v out lg dirty) → (i, b) ∈ out → tx_home tx b → Z.of_nat (length lg) < tx_cap tx →
    ∃ s', log_write i (Thread h s) = Ok tt (Thread h s') ∧
      brep tx h s' (Tx v out (log_add lg b) (filter (λ x, x ≠ b) dirty));
  brelse_law tx h s v out lg dirty i b :
    brep tx (SL_buf i :: h) s (Tx v ((i, b) :: out) lg dirty) → SL_buf i ∉ h → b ∉ dirty →
    ∃ s', brelse i (Thread (SL_buf i :: h) s) = Ok tt (Thread h s') ∧ brep tx h s' (Tx v out lg dirty);
  brep_ok tx h s x b : brep tx h s x → block_ok (tx_view x b);
  brep_held tx h h' s x :
    brep tx h s x → (∀ lk, block_lock lk → lk ∈ h' ↔ lk ∈ h) → brep tx h' s x;
  brep_ext tx h s v v' out lg dirty :
    brep tx h s (Tx v out lg dirty) → (∀ b, v' b = v b) → brep tx h s (Tx v' out lg dirty);
  brep_free tx h s x i : brep tx h s x → tx_out x = [] → SL_buf i ∉ h }.

#[global] Hint Mode BlockLaws + - : typeclass_instances.
