(* ===== verification/BlockLog.v ===== *)
(** * log.c over bio.c implements the block layer *)

From S2P Require Import Prelude Param.
From S2P Require Import Bio Log.
From S2P Require Import BlockLayer.

#[export] Instance log_ops : BlockOps lstate := {
  bread dev b := bio_op (Bio.bread dev b);
  log_write := Log.log_write;
  brelse i := bio_op (Bio.brelse i);
  bdata i s := b_data (getb i (lbio s));
  bset i d s := set_bio (updb i (with_data d) (lbio s)) s }.

Definition count (P : Prop) {d : Decision P} : Z := if decide P then 1 else 0.

(** The cache and the log inside a transaction. *)
Record log_rep (tx : txinfo) (h : list lockname) (s : lstate) (x : txstate) : Prop := {
  lr_inv : ∃ l, bio_inv (lbio s) l;
  lr_ok : log_ok (llog s);
  lr_header : header (llog s) (tx_log x);
  lr_out : 1 <= lg_outstanding (llog s);
  lr_home : ∀ b, tx_home tx b → home (llog s) b;
  lr_cap : tx_cap tx = lg_size (llog s) - 1;
  lr_locks : L_bcache ∉ h ∧ L_log ∉ h;
  lr_held : ∀ i, SL_buf i ∈ h ↔ i ∈ (tx_out x).*1;
  lr_buf : ∀ i b, (i, b) ∈ tx_out x → isbuf (lbio s) i b;
  lr_nodup : NoDup (tx_out x).*2;
  lr_pins : ∀ b, pins (lbio s) b = count (b ∈ tx_log x) + count (b ∈ (tx_out x).*2);
  lr_view : ∀ b, view (lbio s) b = tx_view x b;
  lr_clean : ∀ b, b ∉ tx_log x → b ∉ tx_dirty x → tx_view x b = disk (lbio s) b;
  lr_disk : disk (lbio s) = tx_disk tx;
  lr_writes : writes (lbio s) = tx_writes tx;
  lr_log : lg_start (llog s) = tx_start tx ∧ lg_size (llog s) = tx_size tx ∧
    lg_outstanding (llog s) = tx_calls tx ∧ lg_committing (llog s) = false }.

Lemma count_bounds P `{Decision P} : 0 <= count P <= 1.
Proof. unfold count. case_decide; lia. Qed.

Lemma count_iff P Q `{Decision P, Decision Q} : (P ↔ Q) → count P = count Q.
Proof. unfold count. intros. repeat case_decide; tauto || done. Qed.

Lemma count_true P `{Decision P} : P → count P = 1.
Proof. intros. unfold count. by rewrite decide_True. Qed.
Lemma count_false P `{Decision P} : ¬ P → count P = 0.
Proof. intros. unfold count. by rewrite decide_False. Qed.

Lemma out_snd (out : list (nat * Z)) i b : (i, b) ∈ out → b ∈ out.*2.
Proof. intros Hi. apply list_elem_of_fmap. by exists (i, b). Qed.
Lemma out_fst (out : list (nat * Z)) i b : (i, b) ∈ out → i ∈ out.*1.
Proof. intros Hi. apply list_elem_of_fmap. by exists (i, b). Qed.

Lemma log_bread tx h s v out lg dirty b :
  log_rep tx h s (Tx v out lg dirty) → b ∉ out.*2 → (length lg + length out < 29)%nat →
  ∃ i s', bread ROOTDEV b (Thread h s) = Ok i (Thread (SL_buf i :: h) s') ∧
    log_rep tx (SL_buf i :: h) s' (Tx v ((i, b) :: out) lg dirty) ∧ SL_buf i ∉ h.
Proof.
  intros [[l Hinv] Hg Hh Ho Hhm Hcap [Hl1 Hl2] Hheld Hbuf Hnd Hp Hv Hc Hd Hwr Hlg] Hb Hlen. cbn [tx_out tx_log tx_view tx_dirty] in *.
  assert (∀ i, SL_buf i ∈ h → ∃ b, (i, b) ∈ out) as Hex.
  { intros i Hi. apply Hheld, list_elem_of_fmap in Hi as ([j c] & -> & Hi). by exists c. }
  destruct (bread_run h (lbio s) l b (lg ++ out.*2)) as (i & s1 & E & Hinv1 & Hi & Hsl & Hv1 & Hp1 & Hd1 & Hw1 & Hk).
  - done.
  - done.
  - intros i Hi Hlt. destruct (Hex i Hi) as [c Hc'].
    rewrite <- (pins_isbuf _ l c i), Hp by auto. pose proof (count_bounds (c ∈ lg)).
    rewrite (count_true (c ∈ out.*2)) by (by eapply out_snd). lia.
  - intros i Hi Hh'. destruct (Hex i Hh') as [c Hc']. apply Hb.
    apply Hbuf in Hc' as Hic. destruct Hi as (_ & _ & <-), Hic as (_ & _ & Hc2). rewrite Hc2. by eapply out_snd.
  - rewrite Hp. pose proof (count_bounds (b ∈ lg)). pose proof (count_bounds (b ∈ out.*2)). lia.
  - intros x. rewrite Hp. unfold count. intros Hx. repeat case_decide; set_solver by lia.
  - rewrite length_app, length_fmap, HEAD_eq. lia.
  - exists i, (set_bio s1 s). split; [|split; [|done]].
    + destruct s. by apply bio_op_Ok.
    + split; cbn [tx_out tx_log tx_view tx_dirty lbio llog set_bio]; try done.
      * by exists l.
      * set_solver.
      * intros j. rewrite elem_of_cons, Hheld. cbn. rewrite elem_of_cons. split; intros [H1|H1]; auto; left; congruence.
      * intros j c Hj. apply elem_of_cons in Hj as [[= -> ->]|Hj]; [done|]. apply Hk; [by apply Hbuf|].
        rewrite Hp, (count_true (c ∈ out.*2)) by (by eapply out_snd). pose proof (count_bounds (c ∈ lg)). lia.
      * cbn. by apply NoDup_cons.
      * intros c. rewrite Hp1, zupd_if, !Hp. cbn. rewrite (count_false (b ∈ out.*2)) by done.
        destruct (Z.eqb_spec c b) as [->|Hne].
        -- rewrite (count_true (b ∈ b :: _)) by (by left). lia.
        -- rewrite (count_iff (c ∈ b :: out.*2) (c ∈ out.*2)); [done|]. rewrite elem_of_cons. tauto.
      * intros c. by rewrite Hv1.
      * intros c. rewrite Hd1. apply Hc.
      * congruence.
      * congruence.
Qed.

Lemma log_bset tx h s v out lg dirty i b d :
  log_rep tx h s (Tx v out lg dirty) → (i, b) ∈ out → block_ok d →
  log_rep tx h (bset i d s) (Tx (fupdz v b d) out lg (b :: dirty)).
Proof.
  intros [[l Hinv] Hg Hh Ho Hhm Hcap Hl Hheld Hbuf Hnd Hp Hv Hc Hd Hwr Hlg] Hi Hok. cbn [tx_out tx_log tx_view tx_dirty] in *.
  destruct (setdata_run (lbio s) l i b d) as (P1 & P2 & P3 & P4); [done|by apply Hbuf| |done|].
  { rewrite Hp, (count_true (b ∈ out.*2)) by (by eapply out_snd). pose proof (count_bounds (b ∈ lg)). lia. }
  split; cbn [tx_out tx_log tx_view tx_dirty bset log_ops lbio llog set_bio]; try done.
  - by exists l.
  - intros j c Hj. apply P2. by apply Hbuf.
  - intros c. by rewrite P4.
  - intros c. rewrite P3, zupd_if. unfold fupdz. by destruct (c =? b).
  - intros c H1 H2. apply not_elem_of_cons in H2 as [H2 H3]. rewrite fupdz_ne by done. by apply Hc.
Qed.

Lemma log_log_write tx h s v out lg dirty i b :
  log_rep tx h s (Tx v out lg dirty) → (i, b) ∈ out → tx_home tx b → Z.of_nat (length lg) < tx_cap tx →
  ∃ s', log_write i (Thread h s) = Ok tt (Thread h s') ∧
    log_rep tx h s' (Tx v out (log_add lg b) (filter (λ x, x ≠ b) dirty)).
Proof.
  intros [[l Hinv] Hg Hh Ho Hhm Hcap [Hl1 Hl2] Hheld Hbuf Hnd Hp Hv Hc Hd Hwr Hlg] Hi Hhome Hroom. cbn [tx_out tx_log tx_view tx_dirty] in *.
  destruct s as [s g]. cbn [lbio llog] in *.
  destruct (log_write_run h s l g lg i b) as (s1 & g1 & E & P1 & P2 & P3 & P4 & P5 & P6 & P7 & P8 & (A1 & A2 & A3 & A4 & A5)); auto.
  { rewrite Hp. pose proof (count_bounds (b ∈ lg)). pose proof (count_bounds (b ∈ out.*2)). lia. }
  { lia. }
  exists (LState s1 g1). split; [exact E|].
  split; cbn [tx_out tx_log tx_view tx_dirty lbio llog]; try done.
  - by exists l.
  - lia.
  - intros c Hc'. apply Hhm in Hc'. unfold home in *. by rewrite A1, A2.
  - congruence.
  - intros j c Hj. apply P2. by apply Hbuf.
  - intros c. rewrite P4, zupd_if, !Hp. unfold log_add. destruct (Z.eqb_spec c b) as [->|Hne].
    + destruct (decide (b ∈ lg)) as [Hb|Hb].
      * lia.
      * rewrite (count_false (b ∈ lg)), (count_true (b ∈ lg ++ [b])) by (done || set_solver). lia.
    + destruct (decide (b ∈ lg)) as [Hb|Hb]; [done|]. f_equal. apply count_iff. set_solver.
  - intros c. by rewrite P3.
  - intros c H1 H2. rewrite P5. unfold log_add in H1.
    assert (c ≠ b ∧ c ∉ lg) as [Hcb Hcl] by (case_decide; set_solver).
    apply Hc; [done|]. intros Hin. apply H2. by apply list_elem_of_filter.
  - congruence.
  - congruence.
  - destruct Hlg as (?&?&?&?). split_and!; congruence.
Qed.

Lemma log_brelse tx h s v out lg dirty i b :
  log_rep tx (SL_buf i :: h) s (Tx v ((i, b) :: out) lg dirty) → SL_buf i ∉ h → b ∉ dirty →
  ∃ s', brelse i (Thread (SL_buf i :: h) s) = Ok tt (Thread h s') ∧ log_rep tx h s' (Tx v out lg dirty).
Proof.
  intros [[l Hinv] Hg Hh Ho Hhm Hcap [Hl1 Hl2] Hheld Hbuf Hnd Hp Hv Hc Hd Hwr Hlg] Hi Hbd. cbn [tx_out tx_log tx_view tx_dirty] in *.
  cbn in Hnd. apply NoDup_cons in Hnd as [Hnb Hnd]. destruct s as [s g]. cbn [lbio llog] in *.
  assert (pins s b = count (b ∈ lg) + 1) as Hpb.
  { rewrite Hp, (count_true (b ∈ ((i, b) :: out).*2)); [done|]. by left. }
  pose proof (count_bounds (b ∈ lg)) as Hcb.
  destruct (brelse_run (SL_buf i :: h) s l i b) as (s1 & l1 & E & P1 & P2 & P3 & P4 & P5 & P6 & _);
    [done|apply Hbuf; by left|by left|done|lia| |].
  { intros Hp1. rewrite Hv. apply Hc; [|done]. intros Hin. rewrite (count_true (b ∈ lg)) in Hpb by done. lia. }
  rewrite remove_lock_head in E. exists (LState s1 g). split; [by apply bio_op_Ok|].
  split; cbn [tx_out tx_log tx_view tx_dirty lbio llog]; try done.
  - by exists l1.
  - set_solver.
  - intros j. specialize (Hheld j). cbn in Hheld. rewrite !elem_of_cons in Hheld.
    destruct (decide (j = i)) as [->|Hji].
    + split; [done|]. intros Hin. exfalso. apply list_elem_of_fmap in Hin as ([k c] & E' & Hk). cbn in E'. subst k.
      assert (isbuf s i c) as Hc1 by (apply Hbuf; by right). assert (isbuf s i b) as Hc2 by (apply Hbuf; by left).
      destruct Hc1 as (_ & _ & <-), Hc2 as (_ & _ & <-). apply Hnb. by eapply out_snd.
    + split; intros Hj; [destruct (proj1 Hheld (or_intror Hj)); congruence|].
      destruct (proj2 Hheld (or_intror Hj)); congruence.
  - intros j c Hj. apply P2. apply Hbuf. by right.
  - intros c. rewrite P4, zupd_if, Hpb. destruct (Z.eqb_spec c b) as [->|Hne].
    + rewrite (count_false (b ∈ out.*2)) by done. lia.
    + rewrite Hp. f_equal. apply count_iff. cbn. rewrite elem_of_cons. tauto.
  - intros c. by rewrite P3.
  - intros c. rewrite P5. apply Hc.
  - congruence.
  - congruence.
Qed.

#[export] Instance log_laws : BlockLaws lstate.
Proof.
  refine {| brep := log_rep; bread_law := log_bread; bset_law := log_bset;
            log_write_law := log_log_write; brelse_law := log_brelse |}.
  - intros tx h s v out lg dirty i b [[l Hinv] _ _ _ _ _ _ _ Hbuf _ _ Hv _ _ _ _] Hi. cbn in *.
    rewrite <- (view_isbuf (lbio s) l b i) by auto. apply Hv.
  - intros tx h s x b [[l Hinv] _ _ _ _ _ _ _ _ _ _ Hv _ _ _ _]. rewrite <- Hv. by eapply view_ok.
  - intros tx h h' s x [Hinv Hg Hh Ho Hhm Hcap [Hl1 Hl2] Hheld Hbuf Hnd Hp Hv Hc Hd Hwr Hlg] Hlk. split; try done.
    + rewrite (Hlk L_bcache), (Hlk L_log) by done. done.
    + intros i. rewrite (Hlk (SL_buf i)) by done. apply Hheld.
  - intros tx h s v v' out lg dirty [Hinv Hg Hh Ho Hhm Hcap Hl Hheld Hbuf Hnd Hp Hv Hc Hd Hwr Hlg] Hvv. split; try done.
    + intros b. cbn. by rewrite Hvv.
    + intros b. cbn. rewrite Hvv. apply Hc.
  - intros tx h s x i Hr Hnil Hi. apply (lr_held _ _ _ _ Hr) in Hi. rewrite Hnil in Hi.
    by apply not_elem_of_nil in Hi.
Defined.

(** ** A file system call, as the log sees it *)

Definition idle_tx (s : bio) (g : log) : txinfo :=
  TxInfo (home g) (lg_size g - 1) (lg_start g) (lg_size g) 1 (disk s) (writes s).

(** After [begin_op] on an idle log, the transaction is empty. *)
Lemma begin_rep s l g :
  idle s l g →
  begin_op [] (Thread [] (LState s g)) = Ok tt (Thread [] (LState s (with_outstanding 1 g))) ∧
  log_rep (idle_tx s g) [] (LState s (with_outstanding 1 g)) (Tx (disk s) [] [] []).
Proof.
  intros [Hinv Hg Hh Hp Ho Hc Hd0].
  pose proof (begin_op_idle [] s g [] [] ltac:(apply not_elem_of_nil) Hh Hc) as E1.
  rewrite Ho in E1. specialize (E1 ltac:(vm_compute; discriminate)). split; [exact E1|].
  split; cbn [tx_out tx_log tx_view tx_dirty lbio llog idle_tx tx_home tx_cap tx_disk tx_start tx_size tx_calls tx_writes].
  - by exists l.
  - by apply log_ok_outstanding.
  - by apply header_outstanding.
  - done.
  - done.
  - done.
  - split; apply not_elem_of_nil.
  - intros i. cbn. split; intros H; by apply not_elem_of_nil in H.
  - intros i b H. by apply not_elem_of_nil in H.
  - constructor.
  - intros b. rewrite Hp. unfold count. cbn. rewrite !decide_False by apply not_elem_of_nil. done.
  - intros b. by apply (pinned_nil_view s l).
  - done.
  - done.
  - done.
  - done.
Qed.

(** The writes of the commit of the transaction [lg]. *)
Lemma end_rep s0 l0 g0 s v lg :
  idle s0 l0 g0 → log_rep (idle_tx s0 g0) [] s (Tx v [] lg []) →
  ∃ s' l' g' w, end_op (Thread [] s) = Ok tt (Thread [] (LState s' g')) ∧ idle s' l' g' ∧
    writes s' = writes s0 ++ w ∧ (∀ x, home g0 x → disk s' x = v x) ∧
    ∀ k, crash_disk (lg_start g0) (lg_size g0) (apply_writes (disk s0) (take k w)) (λ d,
      (∀ x, home g0 x → d x = disk s0 x) ∨ (∀ x, home g0 x → d x = v x)).
Proof.
  intros Hid [[l Hinv] Hg Hh _ _ _ _ _ _ _ Hp Hv Hc Hd Hw (Es & Ez & Ho & Hcm)]. destruct s as [s g].
  cbn [tx_out tx_log tx_view tx_dirty lbio llog idle_tx tx_home tx_cap tx_disk tx_start tx_size tx_calls tx_writes] in *.
  assert (quiet []) as Hq by (split; [apply not_elem_of_nil|intros i; apply not_elem_of_nil]).
  assert (pinned s lg) as Hpin.
  { intros x. rewrite Hp. cbn. rewrite (count_false (x ∈ [])) by apply not_elem_of_nil.
    rewrite Z.add_0_r. done. }
  destruct (end_op_run [] s l g lg) as (s3 & l3 & g3 & E3 & Hinv3 & Hp3 & Hg3 & Hh3 & Ho3 & Hc3 & _ & Es3 & Ez3 & Hw3 & Hd3);
    [done|done|apply not_elem_of_nil|done|done|done|done|done|].
  set (w := if decide (lg = []) then [] else commit_writes g (view s) (disk s) lg) in *.
  exists s3, l3, g3, w. split; [exact E3|].
  assert (∀ x, home g x ↔ home g0 x) as Hhm by (intros x; unfold home; by rewrite Es, Ez).
  assert (∀ x, committed (view s) (disk s0) lg x = v x) as Hcmv.
  { intros x. unfold committed. case_decide as Hx; [apply Hv|]. rewrite (Hc x Hx) by apply not_elem_of_nil. by rewrite Hd. }
  assert (disk_header (disk s0 (lg_start g0)) []) as H0 by apply Hid.
  destruct (decide (lg = [])) as [Hnil|Hnil]; subst w; cbv iota in *; rewrite ?Hd in *.
  - assert (∀ x, v x = disk s0 x) as Hvd.
    { intros x. rewrite (Hc x); [done|rewrite Hnil; apply not_elem_of_nil|apply not_elem_of_nil]. }
    split_and!; try done.
    + split; try done. rewrite Hd3, Es3, Es. done.
    + congruence.
    + intros x Hx. by rewrite Hd3, Hvd.
    + intros k. rewrite take_nil. destruct (reboot_run (disk s0) g0 []) as (r & E & Hr & _);
        [apply Hid|apply Hid|done|simpl; pose proof (lo_size g0 (id_ok _ _ _ Hid)); lia|constructor|constructor|].
      exists r. split; [exact E|]. left. intros x Hx. rewrite Hr, recover_writes_nil; [done|apply Hid|done].
  - destruct (commit_final g lg (view s) (disk s0) Hg Hh) as [F1 F2].
    destruct (commit_writes_ok g (view s) (disk s0) lg) as (_ & _ & F3); [|apply Hid|done|done|].
    { intros b. by apply (view_ok s l). }
    split_and!; try done.
    + split; try done. rewrite Hd3, Es3. by rewrite F1.
    + congruence.
    + intros x Hx. rewrite Hd3, F2 by (by rewrite Hhm). apply Hcmv.
    + intros k. destruct (crash_recovers g lg (view s) (disk s0) k) as (r & E & Hr);
        [intros b; by apply (view_ok s l)|apply Hid|done|done|by rewrite Es|].
      rewrite Es, Ez in E. exists r. split; [exact E|].
      destruct (decide (k <= length lg)%nat).
      * left. intros x Hx. rewrite Hr by (by rewrite Hhm). done.
      * right. intros x Hx. rewrite Hr by (by rewrite Hhm). apply Hcmv.
Qed.
