(* ===== verification/FsDisk.v ===== *)
(** * fs.h: the on-disk format

    The superblock and the inodes as bytes of a block, 16- and 32-bit fields in
    little-endian order, each at its offset in the C structure. *)

From S2P Require Import Prelude Param.

Record superblock := Superblock {
  sb_magic : Z; sb_size : Z; sb_nblocks : Z; sb_ninodes : Z;
  sb_nlog : Z; sb_logstart : Z; sb_inodestart : Z; sb_bmapstart : Z }.

Definition decode_sb (d : block) : superblock :=
  Superblock (get32 d 0) (get32 d 1) (get32 d 2) (get32 d 3) (get32 d 4) (get32 d 5) (get32 d 6) (get32 d 7).

(** Fields of [n] bytes at a byte offset. *)
Definition getf (n : nat) (d : block) (off : nat) : Z := le_val (slice off n d).
Definition setf (n : nat) (off : nat) (v : Z) (d : block) : block := splice off (le_bytes n v) d.

Record dinode := Dinode {
  d_type : Z; d_major : Z; d_minor : Z; d_nlink : Z;     (* short *)
  d_size : Z;                                            (* uint *)
  d_addrs : list Z }.                                    (* uint[NDIRECT+1] *)

Definition DINODE_SIZE : nat := 64.
Definition IPB : Z := BSIZE / Z.of_nat DINODE_SIZE.
Definition IBLOCK (i : Z) (sb : superblock) : Z := u32 (i / IPB + sb_inodestart sb).
Definition BBLOCK (b : Z) (sb : superblock) : Z := u32 (b / BPB + sb_bmapstart sb).

(** Byte offset of [(struct dinode* )bp->data + inum%IPB]. *)
Definition dinode_off (inum : Z) : nat := (DINODE_SIZE * Z.to_nat (inum mod IPB))%nat.

Definition NADDRS : nat := Z.to_nat (NDIRECT + 1).

(** [memmove(ip->addrs, dip->addrs, sizeof(ip->addrs))], as words. *)
Definition get_addrs (d : block) (off : nat) : list Z :=
  (λ i, getf 4 d (off + 4 * i)) <$> seq 0 NADDRS.

Fixpoint set_addrs (off : nat) (a : list Z) (d : block) : block :=
  match a with
  | [] => d
  | x :: a => set_addrs (off + 4) a (setf 4 off x d)
  end.

Definition get_dinode (d : block) (off : nat) : dinode :=
  Dinode (s16 (getf 2 d off)) (s16 (getf 2 d (off + 2))) (s16 (getf 2 d (off + 4)))
    (s16 (getf 2 d (off + 6))) (getf 4 d (off + 8)) (get_addrs d (off + 12)).

(** The assignments of [iupdate]. *)
Definition set_dinode (off : nat) (x : dinode) (d : block) : block :=
  let d := setf 2 off (d_type x) d in
  let d := setf 2 (off + 2) (d_major x) d in
  let d := setf 2 (off + 4) (d_minor x) d in
  let d := setf 2 (off + 6) (d_nlink x) d in
  let d := setf 4 (off + 8) (d_size x) d in
  set_addrs (off + 12) (d_addrs x) d.

(** ** Fields *)

Lemma length_setf n off v d : (off + n <= length d)%nat → length (setf n off v d) = length d.
Proof. intros. unfold setf. apply length_splice. rewrite length_le_bytes. lia. Qed.

Ltac len := repeat first [ lia | rewrite length_setf ].

Lemma getf_setf n off v d :
  (off + n <= length d)%nat → getf n (setf n off v d) off = v mod 2 ^ (8 * Z.of_nat n).
Proof.
  intros H. unfold getf, setf.
  pose proof (slice_splice_same off (le_bytes n v) d) as E. rewrite length_le_bytes in E.
  rewrite E by done. apply le_val_bytes.
Qed.

Lemma getf_setf_ne n m off off' v d :
  (off + n <= length d)%nat → (off' + m <= off ∨ off + n <= off')%nat →
  getf m (setf n off v d) off' = getf m d off'.
Proof.
  intros H Hd. unfold getf, setf. f_equal. apply slice_splice_disjoint; rewrite length_le_bytes; lia.
Qed.

Lemma setf_ok n off v d : (off + n <= 1024)%nat → block_ok d → block_ok (setf n off v d).
Proof.
  intros H [Hl Hb]. split; [rewrite length_setf; [done|]; rewrite Hl; exact H|].
  apply splice_Forall; [apply le_bytes_is_byte|done].
Qed.

Lemma length_set_addrs off a d : (off + 4 * length a <= length d)%nat → length (set_addrs off a d) = length d.
Proof.
  revert off d; induction a as [|x a IH]; intros off d H; simpl in *; [done|].
  rewrite IH; rewrite length_setf; lia.
Qed.

Lemma set_addrs_ok off a d : (off + 4 * length a <= 1024)%nat → block_ok d → block_ok (set_addrs off a d).
Proof.
  revert off d; induction a as [|x a IH]; intros off d H Hd; simpl in *; [done|].
  apply IH; [lia|]. apply setf_ok; [lia|done].
Qed.

Lemma getf_set_addrs_ne m off a d off' :
  (off + 4 * length a <= length d)%nat → (off' + m <= off ∨ off + 4 * length a <= off')%nat →
  getf m (set_addrs off a d) off' = getf m d off'.
Proof.
  revert off d; induction a as [|x a IH]; intros off d H Hd; simpl in *; [done|].
  rewrite IH; [|rewrite length_setf; lia|lia]. apply getf_setf_ne; lia.
Qed.

Lemma getf_set_addrs off a d i x :
  (off + 4 * length a <= length d)%nat → a !! i = Some x →
  getf 4 (set_addrs off a d) (off + 4 * i) = u32 x.
Proof.
  revert off d i; induction a as [|y a IH]; intros off d i H Hi; [done|].
  cbn [length] in H. cbn [set_addrs]. destruct i as [|i]; simpl in Hi.
  - injection Hi as ->. rewrite Nat.mul_0_r, Nat.add_0_r.
    rewrite getf_set_addrs_ne by (rewrite ?length_setf; lia). by rewrite getf_setf by lia.
  - replace (off + 4 * S i)%nat with (off + 4 + 4 * i)%nat by lia.
    apply IH; [rewrite length_setf; lia|done].
Qed.

(** The values the fields can hold. *)
Record dinode_ok (x : dinode) : Prop := {
  dk_type : - 2 ^ 15 <= d_type x < 2 ^ 15;
  dk_major : - 2 ^ 15 <= d_major x < 2 ^ 15;
  dk_minor : - 2 ^ 15 <= d_minor x < 2 ^ 15;
  dk_nlink : - 2 ^ 15 <= d_nlink x < 2 ^ 15;
  dk_size : 0 <= d_size x < 2 ^ 32;
  dk_addrs : Forall (λ a, 0 <= a < 2 ^ 32) (d_addrs x);
  dk_len : length (d_addrs x) = NADDRS }.

Lemma s16_field n off v d :
  n = 2%nat → (off + n <= length d)%nat → - 2 ^ 15 <= v < 2 ^ 15 → s16 (getf n (setf n off v d) off) = v.
Proof.
  intros -> H Hv. rewrite getf_setf by done. rewrite <- (signed_small 16 v) at 2 by (simpl; lia).
  unfold s16, signed. change (8 * Z.of_nat 2) with 16. by rewrite Z.mod_mod by lia.
Qed.

Lemma length_set_dinode off x d :
  dinode_ok x → (off + 56 <= length d)%nat → length (set_dinode off x d) = length d.
Proof.
  intros Hx H. pose proof (dk_len x Hx) as Hl. change NADDRS with 11%nat in Hl. unfold set_dinode.
  rewrite length_set_addrs; len.
Qed.

Lemma get_addrs_set off a d :
  (off + 4 * length a <= length d)%nat → length a = NADDRS → Forall (λ a, 0 <= a < 2 ^ 32) a →
  get_addrs (set_addrs off a d) off = a.
Proof.
  intros H Hl Ha. apply list_eq. intros i. unfold get_addrs. rewrite list_lookup_fmap.
  destruct (decide (i < NADDRS)%nat) as [Hi|Hi].
  - rewrite lookup_seq_lt by done. cbn [fmap option_fmap option_map Nat.add].
    destruct (lookup_lt_is_Some_2 a i) as [x Hx]; [lia|]. rewrite Hx.
    rewrite (getf_set_addrs off a d i x) by done. f_equal. apply u32_small.
    exact (Forall_lookup_1 _ _ _ _ Ha Hx).
  - rewrite lookup_seq_ge by lia. symmetry. apply lookup_ge_None. lia.
Qed.

(** An inode written into a block is read back unchanged. *)
Lemma get_set_dinode off x d :
  dinode_ok x → (off + 64 <= length d)%nat → get_dinode (set_dinode off x d) off = x.
Proof.
  intros Hx H. pose proof Hx as []. change NADDRS with 11%nat in dk_len0.
  unfold get_dinode, set_dinode. destruct x as [ty ma mi nl sz ad]. cbn [d_type d_major d_minor d_nlink d_size d_addrs] in *.
  assert (∀ m o, (o + m <= off + 12)%nat → ∀ d', length d' = length d →
    getf m (set_addrs (off + 12) ad d') o = getf m d' o) as Ha.
  { intros m o Ho d' Hd'. apply getf_set_addrs_ne; lia. }
  repeat rewrite Ha by len.
  f_equal.
  - repeat (rewrite getf_setf_ne by len).
    apply s16_field; [done|lia|done].
  - do 3 (rewrite getf_setf_ne by len).
    apply s16_field; [done|len|done].
  - do 2 (rewrite getf_setf_ne by len).
    apply s16_field; [done|len|done].
  - rewrite getf_setf_ne by len.
    apply s16_field; [done|len|done].
  - rewrite getf_setf by len. apply Z.mod_small. simpl. lia.
  - apply get_addrs_set; [len|done|done].
Qed.

(** The other inodes of the block keep their bytes. *)
Lemma get_set_dinode_ne off off' x d :
  dinode_ok x → (off + 64 <= length d)%nat → (off' + 64 <= off ∨ off + 64 <= off')%nat →
  get_dinode (set_dinode off x d) off' = get_dinode d off'.
Proof.
  intros Hx H Hd. pose proof (dk_len x Hx) as Hl. change NADDRS with 11%nat in Hl.
  assert (∀ m o, (off' <= o)%nat → (o + m <= off' + 64)%nat → getf m (set_dinode off x d) o = getf m d o) as Hg.
  { intros m o Ho1 Ho2. unfold set_dinode. rewrite getf_set_addrs_ne by len.
    repeat (rewrite getf_setf_ne by len). done. }
  unfold get_dinode. rewrite !Hg by lia. f_equal. unfold get_addrs. apply list_fmap_ext.
  intros i k Hk. apply lookup_seq in Hk as [-> Hk]. change NADDRS with 11%nat in Hk. apply Hg; lia.
Qed.

Lemma set_dinode_ok off x d : dinode_ok x → (off + 64 <= 1024)%nat → block_ok d → block_ok (set_dinode off x d).
Proof.
  intros Hx H Hd. pose proof (dk_len x Hx) as Hl. change NADDRS with 11%nat in Hl. unfold set_dinode.
  apply set_addrs_ok; [lia|]. repeat (apply setf_ok; [lia|]). done.
Qed.

Lemma s16_range x : - 2 ^ 15 <= s16 x < 2 ^ 15.
Proof. apply (signed_range 16 x). lia. Qed.

Lemma getf_range d n off : Forall is_byte d → (off + n <= length d)%nat → 0 <= getf n d off < 2 ^ (8 * Z.of_nat n).
Proof.
  intros Hd H. unfold getf. pose proof (le_val_range (slice off n d) (slice_Forall _ _ _ _ Hd)) as Hr.
  by rewrite length_slice in Hr by done.
Qed.

Lemma get_dinode_ok d off : block_ok d → (off + 64 <= 1024)%nat → dinode_ok (get_dinode d off).
Proof.
  intros [Hl Hd] H. change (Z.to_nat BSIZE) with 1024%nat in Hl.
  split; cbn [get_dinode d_type d_major d_minor d_nlink d_size d_addrs]; try apply s16_range.
  - apply (getf_range d 4); [done|lia].
  - apply Forall_fmap, Forall_forall. intros i Hi%elem_of_seq. change NADDRS with 11%nat in Hi.
    apply (getf_range d 4); [done|lia].
  - unfold get_addrs. by rewrite length_fmap, length_seq.
Qed.
