(* ===== verification/Fs.v ===== *)
(** * fs.c: blocks, inodes, files, directories, names

    Generic in the block layer: the state [fs B] is the block layer's state with
    the superblock, the inode table and what was printed.  An inode pointer is an
    index of the table, a null pointer is [None].  User or kernel memory appears
    as a value that [either_copyout] writes to, or a function that
    [either_copyin] reads from. *)

From S2P Require Import Prelude Param CString FsDisk BlockLayer.

Definition T_DIR : Z := 1.
Definition T_FILE : Z := 2.
Definition T_DEVICE : Z := 3.

(** In-memory copy of an inode. *)
Record inode := Inode {
  i_dev : Z; i_inum : Z; i_ref : Z; i_valid : bool;
  i_type : Z; i_major : Z; i_minor : Z; i_nlink : Z; i_size : Z; i_addrs : list Z }.

Record fs (B : Type) := Fs {
  f_blk : B;
  f_sb : superblock;
  f_itable : list inode;
  f_printed : list string }.
Arguments Fs {B} _ _ _ _.
Arguments f_blk {B} _.
Arguments f_sb {B} _.
Arguments f_itable {B} _.
Arguments f_printed {B} _.

(** The slot as boot leaves it. *)
Definition inode0 : inode := Inode 0 0 0 false 0 0 0 0 0 (replicate NADDRS 0).

Definition with_ref (r : Z) (x : inode) : inode :=
  Inode (i_dev x) (i_inum x) r (i_valid x) (i_type x) (i_major x) (i_minor x) (i_nlink x) (i_size x) (i_addrs x).
Definition with_valid (v : bool) (x : inode) : inode :=
  Inode (i_dev x) (i_inum x) (i_ref x) v (i_type x) (i_major x) (i_minor x) (i_nlink x) (i_size x) (i_addrs x).
Definition with_type (t : Z) (x : inode) : inode :=
  Inode (i_dev x) (i_inum x) (i_ref x) (i_valid x) t (i_major x) (i_minor x) (i_nlink x) (i_size x) (i_addrs x).
Definition with_devno (ma mi : Z) (x : inode) : inode :=
  Inode (i_dev x) (i_inum x) (i_ref x) (i_valid x) (i_type x) ma mi (i_nlink x) (i_size x) (i_addrs x).
Definition with_nlink (n : Z) (x : inode) : inode :=
  Inode (i_dev x) (i_inum x) (i_ref x) (i_valid x) (i_type x) (i_major x) (i_minor x) n (i_size x) (i_addrs x).
Definition with_size (n : Z) (x : inode) : inode :=
  Inode (i_dev x) (i_inum x) (i_ref x) (i_valid x) (i_type x) (i_major x) (i_minor x) (i_nlink x) n (i_addrs x).
Definition with_addr (i : nat) (a : Z) (x : inode) : inode :=
  Inode (i_dev x) (i_inum x) (i_ref x) (i_valid x) (i_type x) (i_major x) (i_minor x) (i_nlink x) (i_size x)
    (<[i := a]> (i_addrs x)).
Definition with_entry (dev inum : Z) (x : inode) : inode :=
  Inode dev inum 1 false (i_type x) (i_major x) (i_minor x) (i_nlink x) (i_size x) (i_addrs x).
Definition with_dinode (d : dinode) (x : inode) : inode :=
  Inode (i_dev x) (i_inum x) (i_ref x) (i_valid x) (d_type d) (d_major d) (d_minor d) (d_nlink d) (d_size d) (d_addrs d).

(** The part of an inode that lives on the disk. *)
Definition to_dinode (x : inode) : dinode :=
  Dinode (i_type x) (i_major x) (i_minor x) (i_nlink x) (i_size x) (i_addrs x).

(** A bit of the free map: [bp->data[bi/8] & (1 << (bi % 8))]. *)
Definition bit_set (d : block) (bi : Z) : bool :=
  negb (Z.land (default 0 (d !! Z.to_nat (bi / 8))) (Z.shiftl 1 (bi mod 8)) =? 0).
Definition mark_bit (bi : Z) (d : block) : block :=
  let i := Z.to_nat (bi / 8) in <[i := u8 (Z.lor (default 0 (d !! i)) (Z.shiftl 1 (bi mod 8)))]> d.
Definition clear_bit (bi : Z) (d : block) : block :=
  let i := Z.to_nat (bi / 8) in <[i := u8 (Z.land (default 0 (d !! i)) (Z.lnot (Z.shiftl 1 (bi mod 8))))]> d.

(** The first free bit from [bi] on, looking at [k] bits. *)
Fixpoint find_free (d : block) (k : nat) (bi : Z) : option Z :=
  match k with
  | O => None
  | S k => if bit_set d bi then find_free d k (bi + 1) else Some bi
  end.

(** Two small strings in memory: [s] at 0 and [t] at 16. *)
Definition two_strings (s t : list Z) : mem := λ a,
  if a <? 16 then default 0 (s !! Z.to_nat a) else default 0 (t !! Z.to_nat (a - 16)).

Definition namecmp (s t : list Z) : Z := strncmp 0 16 DIRSIZ (two_strings s t).

(** [strncpy(de.name, name, DIRSIZ)] *)
Definition copy_name (dst name : list Z) : list Z :=
  bytes_at (strncpy 0 16 DIRSIZ (two_strings dst name)) 0 (Z.to_nat DIRSIZ).

(** [struct dirent]: two bytes of inode number, [DIRSIZ] bytes of name. *)
Definition DIRENT_SIZE : Z := 16.
Definition de_inum (de : list Z) : Z := le_val (slice 0 2 de).
Definition de_name (de : list Z) : list Z := slice 2 (Z.to_nat DIRSIZ) de.
Definition mk_dirent (inum : Z) (name : list Z) : list Z := le_bytes 2 (u16 inum) ++ name.

(** Memory as [either_copyout] and [either_copyin] see it. *)
Definition copyout_fn (A : Type) : Type := A → Z → list Z → A * bool.
Definition copyin_fn : Type := Z → nat → list Z * bool.

(** A local buffer of the kernel, at address 0. *)
Definition local_out : copyout_fn (list Z) := λ buf a bs, (splice (Z.to_nat a) bs buf, true).
Definition local_in (buf : list Z) : copyin_fn := λ a n, (slice (Z.to_nat a) n buf, true).

(** A loop that is never left. *)
Definition diverge {S A} : M S A := λ t, Asleep t.

Definition slash : Z := 47.

(** [path] is the C string without its NUL; [name] is the caller's buffer of
    [DIRSIZ] bytes. *)
Definition skipelem (path name : list Z) : option (list Z * list Z) :=
  let path := drop_while (λ c, c =? slash) path in
  match path with
  | [] => None
  | _ =>
      let s := take_while (λ c, negb (c =? slash)) path in
      let path := drop_while (λ c, negb (c =? slash)) path in
      let len := Z.of_nat (length s) in
      let name :=
        if DIRSIZ <=? len then splice 0 (take (Z.to_nat DIRSIZ) s) name
        else splice 0 (s ++ [0]) name in
      Some (drop_while (λ c, c =? slash) path, name)
  end.

Section fs.
Context {B : Type} `{BlockOps B}.

Definition blk {A} (m : M B A) : M (fs B) A :=
  lift f_blk (λ b s, Fs b (f_sb s) (f_itable s) (f_printed s)) m.

Definition set_itable (t : list inode) (s : fs B) : fs B := Fs (f_blk s) (f_sb s) t (f_printed s).
Definition set_sb (x : superblock) (s : fs B) : fs B := Fs (f_blk s) x (f_itable s) (f_printed s).
Definition geti (i : nat) (s : fs B) : inode := default inode0 (f_itable s !! i).
Definition upd_inode (i : nat) (f : inode → inode) (s : fs B) : fs B :=
  set_itable (<[i := f (geti i s)]> (f_itable s)) s.
Definition printf (msg : string) : M (fs B) unit :=
  modify (λ s, Fs (f_blk s) (f_sb s) (f_itable s) (f_printed s ++ [msg])).

(** [bp->data] and stores into it. *)
Definition data_of (bp : nat) : M (fs B) block := gets (λ s, bdata bp (f_blk s)).
Definition set_data (bp : nat) (f : block → block) : M (fs B) unit :=
  blk (modify (λ b, bset bp (f (bdata bp b)) b)).

(** ** Blocks *)

Definition readsb (dev : Z) : M (fs B) unit :=
  let! bp := blk (bread dev 1) in
  let! d := data_of bp in
  modify (set_sb (decode_sb d)) ;;;
  blk (brelse bp).

(** [initlog] belongs to the block layer. *)
Definition fsinit (initlog : Z → superblock → M B unit) (dev : Z) : M (fs B) unit :=
  readsb dev ;;;
  let! sb := gets f_sb in
  panic_if (negb (sb_magic sb =? FSMAGIC)) "invalid file system" ;;;
  blk (initlog dev sb).

Definition bzero (dev bno : Z) : M (fs B) unit :=
  let! bp := blk (bread dev bno) in
  set_data bp (λ _, zero_block) ;;;
  blk (log_write bp) ;;;
  blk (brelse bp).

(** The outer loop of [balloc] from [b] on. *)
Fixpoint balloc_loop (fuel : nat) (dev b : Z) : M (fs B) Z :=
  match fuel with
  | O => diverge
  | S fuel =>
      let! sb := gets f_sb in
      if b <? sb_size sb then
        let! bp := blk (bread dev (BBLOCK b sb)) in
        let! d := data_of bp in
        match find_free d (Z.to_nat (Z.min BPB (sb_size sb - b))) 0 with
        | Some bi =>
            set_data bp (mark_bit bi) ;;;
            blk (log_write bp) ;;;
            blk (brelse bp) ;;;
            bzero dev (b + bi) ;;;
            ret (b + bi)
        | None =>
            blk (brelse bp) ;;;
            balloc_loop fuel dev (b + BPB)
        end
      else
        printf "balloc: out of blocks" ;;;
        ret 0
  end.

Definition balloc (dev : Z) : M (fs B) Z :=
  let! sb := gets f_sb in
  balloc_loop (S (Z.to_nat (sb_size sb / BPB + 1))) dev 0.

Definition bfree (dev b : Z) : M (fs B) unit :=
  let! sb := gets f_sb in
  let! bp := blk (bread dev (BBLOCK b sb)) in
  let bi := b mod BPB in
  let! d := data_of bp in
  panic_if (negb (bit_set d bi)) "freeing free block" ;;;
  set_data bp (clear_bit bi) ;;;
  blk (log_write bp) ;;;
  blk (brelse bp).

(** ** Inodes *)

(** Initialises the locks only. *)
Definition iinit : M (fs B) unit := ret tt.

(** The loop of [iget] over the table: an entry for the inode, or the first
    unused slot. *)
Fixpoint iget_scan (dev inum : Z) (i : nat) (empty : option nat) (t : list inode) : nat + option nat :=
  match t with
  | [] => inr empty
  | ip :: t =>
      if (0 <? i_ref ip) && (i_dev ip =? dev) && (i_inum ip =? inum) then inl i
      else iget_scan dev inum (S i)
             (match empty with None => if i_ref ip =? 0 then Some i else None | _ => empty end) t
  end.

Definition iget (dev inum : Z) : M (fs B) nat :=
  acquire L_itable ;;;
  let! s := get in
  match iget_scan dev inum 0 None (f_itable s) with
  | inl ip =>
      modify (upd_inode ip (λ x, with_ref (i_ref x + 1) x)) ;;;
      release L_itable ;;;
      ret ip
  | inr None => panic "iget: no inodes"
  | inr (Some ip) =>
      modify (upd_inode ip (with_entry dev inum)) ;;;
      release L_itable ;;;
      ret ip
  end.

(** [memset(dip, 0, sizeof( *dip)); dip->type = type;] *)
Definition init_dinode (off : nat) (type : Z) (d : block) : block :=
  setf 2 off type (splice off (replicate DINODE_SIZE 0) d).

Fixpoint ialloc_loop (fuel : nat) (dev type inum : Z) : M (fs B) (option nat) :=
  match fuel with
  | O => diverge
  | S fuel =>
      let! sb := gets f_sb in
      if inum <? sb_ninodes sb then
        let! bp := blk (bread dev (IBLOCK inum sb)) in
        let! d := data_of bp in
        if d_type (get_dinode d (dinode_off inum)) =? 0 then
          set_data bp (init_dinode (dinode_off inum) type) ;;;
          blk (log_write bp) ;;;
          blk (brelse bp) ;;;
          let! ip := iget dev inum in
          ret (Some ip)
        else
          blk (brelse bp) ;;;
          ialloc_loop fuel dev type (inum + 1)
      else
        printf "ialloc: no inodes" ;;;
        ret None
  end.

Definition ialloc (dev type : Z) : M (fs B) (option nat) :=
  let! sb := gets f_sb in
  ialloc_loop (S (Z.to_nat (sb_ninodes sb))) dev type 1.

Definition iupdate (ip : nat) : M (fs B) unit :=
  let! x := gets (geti ip) in
  let! sb := gets f_sb in
  let! bp := blk (bread (i_dev x) (IBLOCK (i_inum x) sb)) in
  set_data bp (set_dinode (dinode_off (i_inum x)) (to_dinode x)) ;;;
  blk (log_write bp) ;;;
  blk (brelse bp).

Definition idup (ip : nat) : M (fs B) nat :=
  acquire L_itable ;;;
  modify (upd_inode ip (λ x, with_ref (i_ref x + 1) x)) ;;;
  release L_itable ;;;
  ret ip.

Definition ilock (p : option nat) : M (fs B) unit :=
  match p with
  | None => panic "ilock"
  | Some ip =>
      let! r := gets (λ s, i_ref (geti ip s)) in
      panic_if (r <? 1) "ilock" ;;;
      acquiresleep (SL_inode ip) ;;;
      let! x := gets (geti ip) in
      if i_valid x then ret tt
      else
        let! sb := gets f_sb in
        let! bp := blk (bread (i_dev x) (IBLOCK (i_inum x) sb)) in
        let! d := data_of bp in
        modify (upd_inode ip (with_dinode (get_dinode d (dinode_off (i_inum x))))) ;;;
        blk (brelse bp) ;;;
        modify (upd_inode ip (with_valid true)) ;;;
        let! x := gets (geti ip) in
        panic_if (i_type x =? 0) "ilock: no type"
  end.

Definition iunlock (p : option nat) : M (fs B) unit :=
  match p with
  | None => panic "iunlock"
  | Some ip =>
      let! h := holdingsleep (SL_inode ip) in
      let! r := gets (λ s, i_ref (geti ip s)) in
      panic_if (negb h || (r <? 1)) "iunlock" ;;;
      releasesleep (SL_inode ip)
  end.

(** ** Inode content *)

Definition bmap (ip : nat) (bn : Z) : M (fs B) Z :=
  let! x := gets (geti ip) in
  if bn <? NDIRECT then
    let addr := default 0 (i_addrs x !! Z.to_nat bn) in
    if addr =? 0 then
      let! addr := balloc (i_dev x) in
      if addr =? 0 then ret 0
      else modify (upd_inode ip (with_addr (Z.to_nat bn) addr)) ;;; ret addr
    else ret addr
  else
    let bn := u32 (bn - NDIRECT) in
    if bn <? NINDIRECT then
      let ind := default 0 (i_addrs x !! Z.to_nat NDIRECT) in
      let! addr :=
        (if ind =? 0 then
           let! addr := balloc (i_dev x) in
           (if addr =? 0 then ret tt else modify (upd_inode ip (with_addr (Z.to_nat NDIRECT) addr))) ;;;
           ret addr
         else ret ind) in
      if addr =? 0 then ret 0
      else
        let! bp := blk (bread (i_dev x) addr) in
        let! d := data_of bp in
        let addr := get32 d (Z.to_nat bn) in
        let! addr :=
          (if addr =? 0 then
             let! addr := balloc (i_dev x) in
             (if addr =? 0 then ret tt
              else set_data bp (λ d, set32 d (Z.to_nat bn) addr) ;;; blk (log_write bp)) ;;;
             ret addr
           else ret addr) in
        blk (brelse bp) ;;;
        ret addr
    else panic "bmap: out of range".

Definition itrunc (ip : nat) : M (fs B) unit :=
  let! dev := gets (λ s, i_dev (geti ip s)) in
  for_range 0 (Z.to_nat NDIRECT) (λ i,
    let! a := gets (λ s, default 0 (i_addrs (geti ip s) !! i)) in
    if a =? 0 then ret tt
    else bfree dev a ;;; modify (upd_inode ip (with_addr i 0))) ;;;
  let! ind := gets (λ s, default 0 (i_addrs (geti ip s) !! Z.to_nat NDIRECT)) in
  (if ind =? 0 then ret tt
   else
     let! bp := blk (bread dev ind) in
     for_range 0 (Z.to_nat NINDIRECT) (λ j,
       let! d := data_of bp in
       let a := get32 d j in
       if a =? 0 then ret tt else bfree dev a) ;;;
     blk (brelse bp) ;;;
     bfree dev ind ;;;
     modify (upd_inode ip (with_addr (Z.to_nat NDIRECT) 0))) ;;;
  modify (upd_inode ip (with_size 0)) ;;;
  iupdate ip.

Definition iput (ip : nat) : M (fs B) unit :=
  acquire L_itable ;;;
  let! x := gets (geti ip) in
  (if (i_ref x =? 1) && i_valid x && (i_nlink x =? 0) then
     acquiresleep (SL_inode ip) ;;;
     release L_itable ;;;
     itrunc ip ;;;
     modify (upd_inode ip (with_type 0)) ;;;
     iupdate ip ;;;
     modify (upd_inode ip (with_valid false)) ;;;
     releasesleep (SL_inode ip) ;;;
     acquire L_itable
   else ret tt) ;;;
  modify (upd_inode ip (λ x, with_ref (i_ref x - 1) x)) ;;;
  release L_itable.

Definition iunlockput (ip : nat) : M (fs B) unit :=
  iunlock (Some ip) ;;;
  iput ip.

(** [struct stat] without the field [mode], which [stati] does not set. *)
Record stat := Stat { st_dev : Z; st_ino : Z; st_type : Z; st_nlink : Z; st_size : Z }.

Definition stati (ip : nat) : M (fs B) stat :=
  gets (λ s, let x := geti ip s in
             Stat (s32 (i_dev x)) (i_inum x) (i_type x) (i_nlink x) (u64 (i_size x))).

(** The loop of [readi]: [tot] bytes are copied so far; the result is [tot], or
    -1 when a copy failed, with the destination memory. *)
Fixpoint readi_loop {A} (copyout : copyout_fn A) (fuel : nat) (ip : nat) (mem : A)
    (dst off n tot : Z) : M (fs B) (Z * A) :=
  match fuel with
  | O => diverge
  | S fuel =>
      if tot <? n then
        let! addr := bmap ip (off / BSIZE) in
        if addr =? 0 then ret (s32 tot, mem)
        else
          let! dev := gets (λ s, i_dev (geti ip s)) in
          let! bp := blk (bread dev addr) in
          let m := Z.min (n - tot) (BSIZE - off mod BSIZE) in
          let! d := data_of bp in
          let '(mem, ok) := copyout mem dst (slice (Z.to_nat (off mod BSIZE)) (Z.to_nat m) d) in
          blk (brelse bp) ;;;
          if ok then readi_loop copyout fuel ip mem (u64 (dst + m)) (u32 (off + m)) n (u32 (tot + m))
          else ret (-1, mem)
      else ret (s32 tot, mem)
  end.

(** Iterations needed for [n] bytes. *)
Definition io_fuel (n : Z) : nat := S (S (S (Z.to_nat (n / BSIZE)))).

Definition readi {A} (copyout : copyout_fn A) (ip : nat) (mem : A) (dst off n : Z) : M (fs B) (Z * A) :=
  let! size := gets (λ s, i_size (geti ip s)) in
  if (size <? off) || (u32 (off + n) <? off) then ret (0, mem)
  else
    let n := if size <? u32 (off + n) then u32 (size - off) else n in
    readi_loop copyout (io_fuel n) ip mem dst off n 0.

(** The loop of [writei]; it returns [tot] and the offset it stopped at. *)
Fixpoint writei_loop (copyin : copyin_fn) (fuel : nat) (ip : nat) (src off n tot : Z) : M (fs B) (Z * Z) :=
  match fuel with
  | O => diverge
  | S fuel =>
      if tot <? n then
        let! addr := bmap ip (off / BSIZE) in
        if addr =? 0 then ret (tot, off)
        else
          let! dev := gets (λ s, i_dev (geti ip s)) in
          let! bp := blk (bread dev addr) in
          let m := Z.min (n - tot) (BSIZE - off mod BSIZE) in
          let '(bs, ok) := copyin src (Z.to_nat m) in
          set_data bp (splice (Z.to_nat (off mod BSIZE)) bs) ;;;
          if (ok : bool) then
            blk (log_write bp) ;;;
            blk (brelse bp) ;;;
            writei_loop copyin fuel ip (u64 (src + m)) (u32 (off + m)) n (u32 (tot + m))
          else
            blk (brelse bp) ;;;
            ret (tot, off)
      else ret (tot, off)
  end.

Definition writei (copyin : copyin_fn) (ip : nat) (src off n : Z) : M (fs B) Z :=
  let! size := gets (λ s, i_size (geti ip s)) in
  if (size <? off) || (u32 (off + n) <? off) then ret (-1)
  else if MAXFILE * BSIZE <? u32 (off + n) then ret (-1)
  else
    let! r := writei_loop copyin (io_fuel n) ip src off n 0 in
    let '(tot, off) := r in
    let! size := gets (λ s, i_size (geti ip s)) in
    (if size <? off then modify (upd_inode ip (with_size off)) else ret tt) ;;;
    iupdate ip ;;;
    ret (s32 tot).

(** ** Directories *)

(** [readi(dp, 0, &de, off, sizeof(de))] into a local [struct dirent]. *)
Definition read_dirent (dp : nat) (off : Z) : M (fs B) (Z * list Z) :=
  readi local_out dp (replicate (Z.to_nat DIRENT_SIZE) 0) 0 off DIRENT_SIZE.

Definition dir_fuel (size : Z) : nat := S (S (Z.to_nat (size / DIRENT_SIZE))).

Fixpoint dirlookup_loop (fuel : nat) (dp : nat) (name : list Z) (off : Z) : M (fs B) (option (nat * Z)) :=
  match fuel with
  | O => diverge
  | S fuel =>
      let! x := gets (geti dp) in
      if off <? i_size x then
        let! r := read_dirent dp off in
        let '(k, de) := r in
        panic_if (negb (k =? DIRENT_SIZE)) "dirlookup read" ;;;
        if de_inum de =? 0 then dirlookup_loop fuel dp name (u32 (off + DIRENT_SIZE))
        else if namecmp name (de_name de) =? 0 then
          let! dev := gets (λ s, i_dev (geti dp s)) in
          let! ip := iget dev (de_inum de) in
          ret (Some (ip, off))
        else dirlookup_loop fuel dp name (u32 (off + DIRENT_SIZE))
      else ret None
  end.

(** The inode and the offset of the entry ([*poff]). *)
Definition dirlookup (dp : nat) (name : list Z) : M (fs B) (option (nat * Z)) :=
  let! x := gets (geti dp) in
  panic_if (negb (i_type x =? T_DIR)) "dirlookup not DIR" ;;;
  dirlookup_loop (dir_fuel (i_size x)) dp name 0.

(** The offset of an empty entry, or the directory's size. *)
Fixpoint empty_loop (fuel : nat) (dp : nat) (off : Z) : M (fs B) Z :=
  match fuel with
  | O => diverge
  | S fuel =>
      let! x := gets (geti dp) in
      if off <? i_size x then
        let! r := read_dirent dp off in
        let '(k, de) := r in
        panic_if (negb (k =? DIRENT_SIZE)) "dirlink read" ;;;
        if de_inum de =? 0 then ret off else empty_loop fuel dp (off + DIRENT_SIZE)
      else ret off
  end.

Definition dirlink (dp : nat) (name : list Z) (inum : Z) : M (fs B) Z :=
  let! r := dirlookup dp name in
  match r with
  | Some (ip, _) => iput ip ;;; ret (-1)
  | None =>
      let! x := gets (geti dp) in
      let! off := empty_loop (dir_fuel (i_size x)) dp 0 in
      let de := mk_dirent inum (copy_name (replicate (Z.to_nat DIRSIZ) 0) name) in
      let! k := writei (local_in de) dp 0 (u32 off) DIRENT_SIZE in
      ret (if k =? DIRENT_SIZE then 0 else -1)
  end.

(** ** Paths *)

(** Every element takes at least one byte of the path. *)
Fixpoint namex_loop (fuel : nat) (ip : nat) (path : list Z) (parent : bool) (name : list Z) :
    M (fs B) (option (nat * list Z)) :=
  match fuel with
  | O => diverge
  | S fuel =>
      match skipelem path name with
      | None =>
          if parent then iput ip ;;; ret None else ret (Some (ip, name))
      | Some (path, name) =>
          ilock (Some ip) ;;;
          let! x := gets (geti ip) in
          if negb (i_type x =? T_DIR) then iunlockput ip ;;; ret None
          else if parent && (bool_decide (path = [])) then
            iunlock (Some ip) ;;;
            ret (Some (ip, name))
          else
            let! r := dirlookup ip name in
            match r with
            | None => iunlockput ip ;;; ret None
            | Some (next, _) => iunlockput ip ;;; namex_loop fuel next path parent name
            end
      end
  end.

(** [cwd] is [myproc()->cwd]. *)
Definition namex (cwd : nat) (path : list Z) (parent : bool) (name : list Z) :
    M (fs B) (option (nat * list Z)) :=
  let! ip := (if bool_decide (head path = Some slash) then iget ROOTDEV ROOTINO else idup cwd) in
  namex_loop (S (length path)) ip path parent name.

(** The contents of an uninitialised [char name[DIRSIZ]] do not matter; see
    [skipelem_name]. *)
Definition namei (cwd : nat) (path : list Z) : M (fs B) (option nat) :=
  let! r := namex cwd path false (replicate (Z.to_nat DIRSIZ) 0) in
  ret (fst <$> r).

Definition nameiparent (cwd : nat) (path : list Z) : M (fs B) (option (nat * list Z)) :=
  namex cwd path true (replicate (Z.to_nat DIRSIZ) 0).
End fs.
