(* ===== verification/FsBlocks.v ===== *)
(** * fs.c, first layer: the free map

    [balloc] and [bfree] against the free map, on the level of block contents:
    inside a transaction, the state is described by [frep]. *)

From S2P Require Import Prelude Param FsDisk BlockLayer Fs.

Section blocks.
Context {B : Type} `{BlockLaws B}.

(** The block layer below [s] is in the transaction state [x]. *)
Definition frep (tx : txinfo) (h : list lockname) (s : fs B) (x : txstate) : Prop :=
  brep tx h (f_blk s) x.

Definition with_blk (b : B) (s : fs B) : fs B := Fs b (f_sb s) (f_itable s) (f_printed s).

(** Everything but the block layer is the same. *)
Definition same_mem (s s' : fs B) : Prop := ∃ b, s' = with_blk b s.

Lemma same_mem_refl s : same_mem s s.
Proof. exists (f_blk s). by destruct s. Qed.

Lemma same_mem_trans s1 s2 s3 : same_mem s1 s2 → same_mem s2 s3 → same_mem s1 s3.
Proof. intros [b ->] [c ->]. by exists c. Qed.

Lemma same_mem_sb s s' : same_mem s s' → f_sb s' = f_sb s.
Proof. by intros [b ->]. Qed.
Lemma same_mem_itable s s' : same_mem s s' → f_itable s' = f_itable s.
Proof. by intros [b ->]. Qed.
Lemma same_mem_geti s s' i : same_mem s s' → geti i s' = geti i s.
Proof. by intros [b ->]. Qed.
Lemma same_mem_printed s s' : same_mem s s' → f_printed s' = f_printed s.
Proof. by intros [b ->]. Qed.

Lemma blk_Ok {A} (m : M B A) h s a h' b' :
  m (Thread h (f_blk s)) = Ok a (Thread h' b') → blk m (Thread h s) = Ok a (Thread h' (with_blk b' s)).
Proof. intros E. unfold blk, lift. cbn [held st]. by rewrite E. Qed.

(** [bread] of a block that is not locked yet. *)
Lemma blk_bread_run tx h s v out lg b :
  frep tx h s (Tx v out lg []) → b ∉ out.*2 → (length lg + length out < 29)%nat →
  ∃ bp s', blk (bread ROOTDEV b) (Thread h s) = Ok bp (Thread (SL_buf bp :: h) s') ∧
    frep tx (SL_buf bp :: h) s' (Tx v ((bp, b) :: out) lg []) ∧ SL_buf bp ∉ h ∧ same_mem s s' ∧
    data_of bp (Thread (SL_buf bp :: h) s') = Ok (v b) (Thread (SL_buf bp :: h) s').
Proof.
  intros Hr Hb Hl. destruct (bread_law tx h (f_blk s) v out lg [] b Hr Hb Hl) as (i & b' & E & Hr' & Hi).
  exists i, (with_blk b' s). split; [by apply blk_Ok|]. split; [done|]. split; [done|]. split; [by exists b'|].
  unfold data_of, gets. cbn [st with_blk f_blk]. f_equal. eapply bdata_law; [exact Hr'|by left].
Qed.

Lemma set_data_run tx h s v out lg bp b f :
  frep tx h s (Tx v out lg []) → (bp, b) ∈ out → block_ok (f (v b)) →
  ∃ s', set_data bp f (Thread h s) = Ok tt (Thread h s') ∧ same_mem s s' ∧
    frep tx h s' (Tx (fupdz v b (f (v b))) out lg [b]).
Proof.
  intros Hr Hin Hok. pose proof (bdata_law _ _ _ _ _ _ _ _ _ Hr Hin) as Hd.
  pose proof (bset_law _ _ _ _ _ _ _ _ _ (f (v b)) Hr Hin Hok) as Hr'.
  exists (with_blk (bset bp (f (bdata bp (f_blk s))) (f_blk s)) s).
  split; [by apply blk_Ok|]. split; [by eexists|]. unfold frep. cbn [with_blk f_blk]. by rewrite Hd.
Qed.

Lemma filter_only (b : Z) dirty : dirty ⊆ [b] → filter (λ x, x ≠ b) dirty = [].
Proof.
  induction dirty as [|y dirty IH]; intros Hs; [done|]. rewrite filter_cons, decide_False.
  - apply IH. set_solver.
  - assert (y ∈ [b]) as Hy by (apply Hs; by left). apply list_elem_of_singleton in Hy. tauto.
Qed.

Lemma blk_log_write_run tx h s v out lg bp b dirty :
  frep tx h s (Tx v out lg dirty) → (bp, b) ∈ out → dirty ⊆ [b] → tx_home tx b → Z.of_nat (length lg) < tx_cap tx →
  ∃ s', blk (log_write bp) (Thread h s) = Ok tt (Thread h s') ∧ same_mem s s' ∧
    frep tx h s' (Tx v out (log_add lg b) []).
Proof.
  intros Hr Hin Hdir Hh Hroom.
  destruct (log_write_law tx h (f_blk s) v out lg dirty bp b Hr Hin Hh Hroom) as (b' & E & Hr').
  exists (with_blk b' s). split; [by apply blk_Ok|]. split; [by exists b'|].
  by rewrite filter_only in Hr'.
Qed.

Lemma blk_brelse_run tx h s v out lg bp b :
  frep tx (SL_buf bp :: h) s (Tx v ((bp, b) :: out) lg []) → SL_buf bp ∉ h →
  ∃ s', blk (brelse bp) (Thread (SL_buf bp :: h) s) = Ok tt (Thread h s') ∧ same_mem s s' ∧
    frep tx h s' (Tx v out lg []).
Proof.
  intros Hr Hi. destruct (brelse_law tx h (f_blk s) v out lg [] bp b Hr Hi) as (b' & E & Hr');
    [apply not_elem_of_nil|].
  exists (with_blk b' s). split; [by apply blk_Ok|]. split; [by exists b'|done].
Qed.

(** Change a block that was read, log it and release it. *)
Lemma finish_run tx h s v out lg bp b f :
  frep tx (SL_buf bp :: h) s (Tx v ((bp, b) :: out) lg []) → SL_buf bp ∉ h → block_ok (f (v b)) →
  tx_home tx b → Z.of_nat (length lg) < tx_cap tx →
  ∃ s', (∀ A (K : M (fs B) A), (set_data bp f ;;; blk (log_write bp) ;;; blk (brelse bp) ;;; K)
            (Thread (SL_buf bp :: h) s) = K (Thread h s')) ∧ same_mem s s' ∧
    frep tx h s' (Tx (fupdz v b (f (v b))) out (log_add lg b) []).
Proof.
  intros Hr Hi Hok Hh Hroom.
  destruct (set_data_run tx _ s v _ lg bp b f Hr (list_elem_of_here _ _) Hok) as (s1 & E1 & M1 & R1).
  destruct (blk_log_write_run tx _ s1 _ _ lg bp b [b] R1 (list_elem_of_here _ _)) as (s2 & E2 & M2 & R2);
    [done|done|done|].
  destruct (blk_brelse_run tx h s2 _ out _ bp b R2 Hi) as (s3 & E3 & M3 & R3).
  exists s3. split; [|split; [by eapply same_mem_trans; [eapply same_mem_trans|]|done]].
  intros A K. by rewrite (bind_Ok _ _ _ _ _ E1), (bind_Ok _ _ _ _ _ E2), (bind_Ok _ _ _ _ _ E3).
Qed.

Lemma bind_ret_r {S A} (m : M S A) t : bind m ret t = m t.
Proof. unfold bind, ret. by destruct (m t). Qed.

Lemma bind_tail {S} (m : M S unit) (t : thread S) : m t = (m ;;; ret tt) t.
Proof. unfold bind, ret. by destruct (m t) as [[]| |]. Qed.

Lemma finish_tail bp f (t : thread (fs B)) :
  (set_data bp f ;;; blk (log_write bp) ;;; blk (brelse bp)) t =
  (set_data bp f ;;; blk (log_write bp) ;;; blk (brelse bp) ;;; ret tt) t.
Proof. rewrite (bind_tail (bind _ _)). rewrite !bind_assoc. unfold bind. destruct (set_data bp f t); try done.
  destruct (blk (log_write bp) _); try done. Qed.

Lemma bzero_run tx h s v out lg b :
  frep tx h s (Tx v out lg []) → b ∉ out.*2 → (length lg + length out < 29)%nat → tx_home tx b →
  Z.of_nat (length lg) < tx_cap tx →
  ∃ s', bzero ROOTDEV b (Thread h s) = Ok tt (Thread h s') ∧ same_mem s s' ∧
    frep tx h s' (Tx (fupdz v b zero_block) out (log_add lg b) []).
Proof.
  intros Hr Hb Hl Hh Hroom.
  destruct (blk_bread_run tx h s v out lg b Hr Hb Hl) as (bp & s1 & E1 & R1 & Hi & M1 & _).
  destruct (finish_run tx h s1 v out lg bp b (λ _, zero_block) R1 Hi zero_block_ok Hh Hroom)
    as (s2 & E2 & M2 & R2).
  exists s2. split; [|split; [by eapply same_mem_trans|done]].
  unfold bzero. rewrite (bind_Ok _ _ _ _ _ E1), finish_tail. by rewrite E2.
Qed.

(** ** The bits *)

Lemma find_free_spec d k bi :
  match find_free d k bi with
  | Some b => bi <= b < bi + Z.of_nat k ∧ bit_set d b = false ∧ ∀ c, bi <= c < b → bit_set d c = true
  | None => ∀ c, bi <= c < bi + Z.of_nat k → bit_set d c = true
  end.
Proof.
  revert bi; induction k as [|k IH]; intros bi; cbn [find_free]; [intros; lia|].
  destruct (bit_set d bi) eqn:E.
  - specialize (IH (bi + 1)). destruct (find_free d k (bi + 1)) as [b|].
    + destruct IH as (H1 & H2 & H3). split_and!; [lia|lia|done|]. intros c Hc.
      destruct (decide (c = bi)) as [->|]; [done|]. apply H3. lia.
    + intros c Hc. destruct (decide (c = bi)) as [->|]; [done|]. apply IH. lia.
  - split_and!; [lia|lia|done|]. intros c Hc. lia.
Qed.

Lemma shiftl_1_bit i j : 0 <= i → Z.testbit (Z.shiftl 1 i) j = bool_decide (j = i).
Proof.
  intros Hi. rewrite Z.shiftl_1_l by lia. case_bool_decide as E.
  - subst. by apply Z.pow2_bits_true.
  - by apply Z.pow2_bits_false.
Qed.

Lemma land_pow2_zero x i : 0 <= i → (Z.land x (Z.shiftl 1 i) =? 0) = negb (Z.testbit x i).
Proof.
  intros Hi. destruct (Z.testbit x i) eqn:E.
  - apply Z.eqb_neq. intros E2. apply (f_equal (λ z, Z.testbit z i)) in E2.
    rewrite Z.land_spec, shiftl_1_bit, E, Z.bits_0, bool_decide_true in E2 by done. done.
  - apply Z.eqb_eq. apply Z.bits_inj'. intros j Hj. rewrite Z.land_spec, shiftl_1_bit, Z.bits_0 by done.
    case_bool_decide; subst; rewrite ?E; [done|apply andb_false_r].
Qed.

Lemma bit_set_testbit d bi : 0 <= bi →
  bit_set d bi = Z.testbit (default 0 (d !! Z.to_nat (bi / 8))) (bi mod 8).
Proof.
  intros Hbi. unfold bit_set. rewrite land_pow2_zero; [by rewrite negb_involutive|].
  apply Z.mod_pos_bound. lia.
Qed.

Lemma u8_testbit x i : 0 <= i < 8 → Z.testbit (u8 x) i = Z.testbit x i.
Proof. intros Hi. unfold u8. apply Z.mod_pow2_bits_low. lia. Qed.

Lemma byte_split bi c : 0 <= bi → 0 <= c → Z.to_nat (c / 8) = Z.to_nat (bi / 8) → c mod 8 = bi mod 8 → c = bi.
Proof.
  intros H1 H2 H3 H4.
  assert (0 <= c / 8 ∧ 0 <= bi / 8) by (split; apply Z.div_pos; lia).
  apply Z2Nat.inj in H3; [|lia|lia]. rewrite (Z.div_mod c 8), (Z.div_mod bi 8) by lia. lia.
Qed.

(** [mark_bit] and [clear_bit] change one bit. *)
Lemma bit_set_mark d bi c :
  block_ok d → 0 <= bi < BPB → 0 <= c →
  bit_set (mark_bit bi d) c = (if c =? bi then true else bit_set d c).
Proof.
  intros [Hl _] Hbi Hc. rewrite !bit_set_testbit by lia. unfold mark_bit. cbv zeta.
  assert (0 <= c mod 8 < 8 ∧ 0 <= bi mod 8 < 8) as [Hm1 Hm2] by (split; apply Z.mod_pos_bound; lia).
  destruct (decide (Z.to_nat (c / 8) = Z.to_nat (bi / 8))) as [E|E].
  - rewrite E, (list_lookup_insert_eq (d : list Z)).
    + cbn [from_option id]. rewrite u8_testbit, Z.lor_spec, shiftl_1_bit by lia.
      destruct (Z.eqb_spec c bi) as [->|Hne]; [by rewrite bool_decide_true, orb_true_r|].
      rewrite bool_decide_false; [by rewrite orb_false_r|]. intros E2. apply Hne. apply byte_split; [lia|lia|exact E|exact E2].
    + rewrite Hl. change (Z.to_nat BSIZE) with 1024%nat. unfold BPB, BSIZE in Hbi.
      assert (0 <= bi / 8 < 1024) by (split; [apply Z.div_pos|apply Z.div_lt_upper_bound]; lia). lia.
  - rewrite (list_lookup_insert_ne (d : list Z)) by done. destruct (Z.eqb_spec c bi) as [->|]; done.
Qed.

Lemma bit_set_clear d bi c :
  block_ok d → 0 <= bi < BPB → 0 <= c →
  bit_set (clear_bit bi d) c = (if c =? bi then false else bit_set d c).
Proof.
  intros [Hl _] Hbi Hc. rewrite !bit_set_testbit by lia. unfold clear_bit. cbv zeta.
  assert (0 <= c mod 8 < 8 ∧ 0 <= bi mod 8 < 8) as [Hm1 Hm2] by (split; apply Z.mod_pos_bound; lia).
  destruct (decide (Z.to_nat (c / 8) = Z.to_nat (bi / 8))) as [E|E].
  - rewrite E, (list_lookup_insert_eq (d : list Z)).
    + cbn [from_option id]. rewrite u8_testbit, Z.land_spec, Z.lnot_spec, shiftl_1_bit by lia.
      destruct (Z.eqb_spec c bi) as [->|Hne]; [by rewrite bool_decide_true, andb_false_r|].
      rewrite bool_decide_false; [by rewrite andb_true_r|]. intros E2. apply Hne. apply byte_split; [lia|lia|exact E|exact E2].
    + rewrite Hl. change (Z.to_nat BSIZE) with 1024%nat. unfold BPB, BSIZE in Hbi.
      assert (0 <= bi / 8 < 1024) by (split; [apply Z.div_pos|apply Z.div_lt_upper_bound]; lia). lia.
  - rewrite (list_lookup_insert_ne (d : list Z)) by done. destruct (Z.eqb_spec c bi) as [->|]; done.
Qed.

Lemma insert_byte_ok d i v : block_ok d → block_ok (<[i := u8 v]> d).
Proof.
  intros [Hl Hb]. split; [by rewrite (length_insert (d : list Z))|]. apply Forall_insert; [done|].
  unfold is_byte, u8. apply Z.mod_pos_bound. lia.
Qed.

Lemma mark_bit_ok d bi : block_ok d → block_ok (mark_bit bi d).
Proof. apply insert_byte_ok. Qed.
Lemma clear_bit_ok d bi : block_ok d → block_ok (clear_bit bi d).
Proof. apply insert_byte_ok. Qed.

(** ** The free map *)

Definition used (v : Z → block) (sb : superblock) (b : Z) : bool :=
  bit_set (v (b / BPB + sb_bmapstart sb)) (b mod BPB).

(** The free map of a file system whose open buffers are [out]: its blocks may be
    logged and are not locked, and a free block is an ordinary block. *)
Record map_ok (tx : txinfo) (sb : superblock) (v : Z → block) (out : list (nat * Z)) : Prop := {
  mo_size : 0 <= sb_size sb < 2 ^ 31;
  mo_start : 0 <= sb_bmapstart sb ∧ sb_bmapstart sb + sb_size sb / BPB < 2 ^ 32;
  mo_map : ∀ b, 0 <= b < sb_size sb →
    tx_home tx (b / BPB + sb_bmapstart sb) ∧ b / BPB + sb_bmapstart sb ∉ out.*2;
  mo_free : ∀ b, 0 <= b < sb_size sb → used v sb b = false →
    b ≠ 0 ∧ tx_home tx b ∧ b ∉ out.*2 ∧ ∀ c, 0 <= c < sb_size sb → c / BPB + sb_bmapstart sb ≠ b }.

Lemma BBLOCK_eq tx sb v out b :
  map_ok tx sb v out → 0 <= b < sb_size sb → BBLOCK b sb = b / BPB + sb_bmapstart sb.
Proof.
  intros [] Hb. unfold BBLOCK. apply u32_small.
  assert (0 <= b / BPB <= sb_size sb / BPB); [|lia].
  split; [apply Z.div_pos; [lia|done]|]. apply Z.div_le_mono; [done|lia].
Qed.

(** Taking and giving back block [b] in the map. *)
Lemma used_mark v sb b c :
  (∀ x, block_ok (v x)) → 0 <= b → 0 <= c →
  used (fupdz v (b / BPB + sb_bmapstart sb) (mark_bit (b mod BPB) (v (b / BPB + sb_bmapstart sb)))) sb c =
  if c =? b then true else used v sb c.
Proof.
  intros Hok Hb Hc. unfold used, fupdz.
  pose proof (Z.mod_pos_bound b BPB eq_refl) as Hbm. pose proof (Z.mod_pos_bound c BPB eq_refl) as Hcm.
  destruct (Z.eqb_spec (c / BPB + sb_bmapstart sb) (b / BPB + sb_bmapstart sb)) as [E|E].
  - rewrite bit_set_mark by (done || lia). rewrite E.
    destruct (Z.eqb_spec c b) as [->|Hne]; [by rewrite Z.eqb_refl|].
    rewrite (proj2 (Z.eqb_neq _ _)); [done|]. intros E2. apply Hne.
    rewrite (Z.div_mod c BPB), (Z.div_mod b BPB) by done. lia.
  - destruct (Z.eqb_spec c b) as [->|]; done.
Qed.

Lemma used_clear v sb b c :
  (∀ x, block_ok (v x)) → 0 <= b → 0 <= c →
  used (fupdz v (b / BPB + sb_bmapstart sb) (clear_bit (b mod BPB) (v (b / BPB + sb_bmapstart sb)))) sb c =
  if c =? b then false else used v sb c.
Proof.
  intros Hok Hb Hc. unfold used, fupdz.
  pose proof (Z.mod_pos_bound b BPB eq_refl) as Hbm. pose proof (Z.mod_pos_bound c BPB eq_refl) as Hcm.
  destruct (Z.eqb_spec (c / BPB + sb_bmapstart sb) (b / BPB + sb_bmapstart sb)) as [E|E].
  - rewrite bit_set_clear by (done || lia). rewrite E.
    destruct (Z.eqb_spec c b) as [->|Hne]; [by rewrite Z.eqb_refl|].
    rewrite (proj2 (Z.eqb_neq _ _)); [done|]. intros E2. apply Hne.
    rewrite (Z.div_mod c BPB), (Z.div_mod b BPB) by done. lia.
  - destruct (Z.eqb_spec c b) as [->|]; done.
Qed.

(** What [balloc] returns: the first free block. *)
Definition first_free (v : Z → block) (sb : superblock) (b : Z) : Prop :=
  0 <= b < sb_size sb ∧ used v sb b = false ∧ ∀ c, 0 <= c < b → used v sb c = true.

Definition alloc_view (v : Z → block) (sb : superblock) (b : Z) : Z → block :=
  fupdz (fupdz v (b / BPB + sb_bmapstart sb) (mark_bit (b mod BPB) (v (b / BPB + sb_bmapstart sb))))
    b zero_block.

Definition alloc_log (lg : list Z) (sb : superblock) (b : Z) : list Z :=
  log_add (log_add lg (b / BPB + sb_bmapstart sb)) b.

Lemma length_log_add lg b : (length lg <= length (log_add lg b) <= S (length lg))%nat.
Proof. unfold log_add. case_decide; [lia|]. rewrite length_app. simpl. lia. Qed.

(** One round of [balloc]'s outer loop. *)
Lemma find_free_block v sb b0 :
  b0 mod BPB = 0 → 0 <= b0 < sb_size sb →
  match find_free (v (b0 / BPB + sb_bmapstart sb)) (Z.to_nat (Z.min BPB (sb_size sb - b0))) 0 with
  | Some bi => 0 <= bi < BPB ∧ b0 + bi < sb_size sb ∧ used v sb (b0 + bi) = false ∧
               (∀ c, b0 <= c < b0 + bi → used v sb c = true) ∧
               (b0 + bi) / BPB = b0 / BPB ∧ (b0 + bi) mod BPB = bi
  | None => ∀ c, b0 <= c < b0 + BPB → c < sb_size sb → used v sb c = true
  end.
Proof.
  intros Hm Hb.
  assert (∀ i, 0 <= i < BPB → (b0 + i) / BPB = b0 / BPB ∧ (b0 + i) mod BPB = i) as Hdm.
  { intros i Hi. pose proof (Z.div_mod b0 BPB ltac:(done)) as E. rewrite Hm, Z.add_0_r in E.
    replace (b0 + i) with (i + (b0 / BPB) * BPB) by lia.
    rewrite Z.div_add, Z.mod_add, Z.div_small, Z.mod_small by (done || lia). lia. }
  pose proof (find_free_spec (v (b0 / BPB + sb_bmapstart sb)) (Z.to_nat (Z.min BPB (sb_size sb - b0))) 0) as Hf.
  assert (0 < BPB) as HBPB by done. destruct (find_free _ _ _) as [bi|].
  - destruct Hf as (H1 & H2 & H3). destruct (Hdm bi) as [E1 E2]; [lia|].
    split_and!; try lia; unfold used.
    + by rewrite E1, E2.
    + intros c Hc. destruct (Hdm (c - b0)) as [E3 E4]; [lia|].
      replace (b0 + (c - b0)) with c in E3, E4 by lia. rewrite E3, E4. apply H3. lia.
  - intros c Hc Hcs. destruct (Hdm (c - b0)) as [E3 E4]; [lia|].
    replace (b0 + (c - b0)) with c in E3, E4 by lia. unfold used. rewrite E3, E4. apply Hf. lia.
Qed.

Lemma balloc_loop_run tx h s v out lg fuel b0 :
  frep tx h s (Tx v out lg []) → map_ok tx (f_sb s) v out →
  (length lg + length out < 28)%nat → Z.of_nat (length lg) + 2 <= tx_cap tx →
  0 <= b0 → b0 mod BPB = 0 → (1 <= fuel)%nat → sb_size (f_sb s) - b0 <= BPB * (Z.of_nat fuel - 1) →
  (∀ c, 0 <= c < b0 → c < sb_size (f_sb s) → used v (f_sb s) c = true) →
  (∃ b s', balloc_loop fuel ROOTDEV b0 (Thread h s) = Ok b (Thread h s') ∧ first_free v (f_sb s) b ∧
     same_mem s s' ∧ frep tx h s' (Tx (alloc_view v (f_sb s) b) out (alloc_log lg (f_sb s) b) [])) ∨
  (∃ s', balloc_loop fuel ROOTDEV b0 (Thread h s) = Ok 0 (Thread h s') ∧
     (∀ c, 0 <= c < sb_size (f_sb s) → used v (f_sb s) c = true) ∧
     f_sb s' = f_sb s ∧ f_itable s' = f_itable s ∧ f_printed s' = f_printed s ++ ["balloc: out of blocks"%string] ∧
     frep tx h s' (Tx v out lg [])).
Proof.
  intros Hr Hmap Hl Hcap. revert s b0 Hr Hmap.
  induction fuel as [|fuel IH]; intros s b0 Hr Hmap Hb0 Hbm Hf1 Hfuel Hused;
    cbn [balloc_loop]; [lia|kstep; cbn [st]; destruct (Z.ltb_spec b0 (sb_size (f_sb s))) as [Hlt|Hge]].
  - set (sb := f_sb s) in *. pose proof (BBLOCK_eq tx sb v out b0 Hmap ltac:(lia)) as Hbb.
    destruct (mo_map tx sb v out Hmap b0 ltac:(lia)) as [Hh Hno].
    destruct (blk_bread_run tx h s v out lg (BBLOCK b0 sb) Hr) as (bp & s1 & E1 & R1 & Hi & M1 & D1);
      [by rewrite Hbb|lia|].
    rewrite (bind_Ok _ _ _ _ _ E1), (bind_Ok _ _ _ _ _ D1), Hbb.
    pose proof (find_free_block v sb b0 Hbm ltac:(lia)) as Hff.
    destruct (find_free _ _ _) as [bi|].
    + left. destruct Hff as (Hbi & Hlt' & Hun & Hpre & Hdv & Hmd).
      destruct (mo_free tx sb v out Hmap (b0 + bi) ltac:(lia) Hun) as (Hnz & Hh2 & Hno2 & Hnm).
      rewrite Hbb in R1.
      destruct (finish_run tx h s1 v out lg bp _ (mark_bit bi) R1 Hi) as (s2 & E2 & M2 & R2);
        [apply mark_bit_ok; by apply (brep_ok _ _ _ _ _ Hr)|done|lia|].
      pose proof (length_log_add lg (b0 / BPB + sb_bmapstart sb)) as Hll.
      destruct (bzero_run tx h s2 _ out _ (b0 + bi) R2 Hno2) as (s3 & E3 & M3 & R3); [lia|done|lia|].
      exists (b0 + bi), s3. split; [rewrite E2; by rewrite (bind_Ok _ _ _ _ _ E3)|].
      split; [|split; [by eapply same_mem_trans; [eapply same_mem_trans|]|]].
      * split_and!; [lia|lia|done|]. intros c Hc. destruct (decide (c < b0)); [apply Hused; lia|apply Hpre; lia].
      * unfold alloc_view, alloc_log. by rewrite Hdv, Hmd.
    + destruct (blk_brelse_run tx h s1 v out lg bp _ R1 Hi) as (s2 & E2 & M2 & R2).
      rewrite (bind_Ok _ _ _ _ _ E2). assert (same_mem s s2) as M by (by eapply same_mem_trans).
      assert (f_sb s2 = sb) as Esb by (by apply same_mem_sb).
      assert (BPB = 8192) as EB by done.
      destruct (IH s2 (b0 + BPB)) as [(b & s' & E & Hff' & M' & R')|(s' & E & Hall & S1 & S2 & S3 & R')];
        [done|by rewrite Esb|lia|rewrite <- (Z.mul_1_l BPB) at 1; by rewrite Z.mod_add by done
        |lia|rewrite Esb; lia| | |].
      * rewrite Esb. intros c Hc Hcs. destruct (decide (c < b0)); [apply Hused; lia|apply Hff; lia].
      * left. rewrite Esb in *. exists b, s'. split_and!; try done. by eapply same_mem_trans.
      * right. rewrite Esb in *. exists s'. split_and!; try done.
        -- rewrite S2. by apply same_mem_itable.
        -- rewrite S3. by rewrite (same_mem_printed s s2).
  - right. kstep. eexists. split; [reflexivity|]. split; [|done]. intros c Hc. apply Hused; lia.
Qed.

Lemma balloc_run tx h s v out lg :
  frep tx h s (Tx v out lg []) → map_ok tx (f_sb s) v out →
  (length lg + length out < 28)%nat → Z.of_nat (length lg) + 2 <= tx_cap tx →
  (∃ b s', balloc ROOTDEV (Thread h s) = Ok b (Thread h s') ∧ first_free v (f_sb s) b ∧
     same_mem s s' ∧ frep tx h s' (Tx (alloc_view v (f_sb s) b) out (alloc_log lg (f_sb s) b) [])) ∨
  (∃ s', balloc ROOTDEV (Thread h s) = Ok 0 (Thread h s') ∧
     (∀ c, 0 <= c < sb_size (f_sb s) → used v (f_sb s) c = true) ∧
     f_sb s' = f_sb s ∧ f_itable s' = f_itable s ∧ f_printed s' = f_printed s ++ ["balloc: out of blocks"%string] ∧
     frep tx h s' (Tx v out lg [])).
Proof.
  intros Hr Hmap Hl Hcap. unfold balloc. kstep. cbn [st].
  pose proof (mo_size _ _ _ _ Hmap) as Hs.
  apply balloc_loop_run; try done; try lia.
  assert (BPB = 8192) as EB by done. rewrite EB.
  pose proof (Z.div_mod (sb_size (f_sb s)) 8192 ltac:(done)).
  pose proof (Z.mod_pos_bound (sb_size (f_sb s)) 8192 ltac:(done)).
  pose proof (Z.div_pos (sb_size (f_sb s)) 8192 ltac:(lia) ltac:(done)).
  rewrite Nat2Z.inj_succ, Z2Nat.id by lia. lia.
Qed.

(** Blocks of the free map, and the others. *)
Definition map_block (sb : superblock) (x : Z) : Prop :=
  ∃ b, 0 <= b < sb_size sb ∧ x = b / BPB + sb_bmapstart sb.

Lemma alloc_view_used tx v sb out b c :
  map_ok tx sb v out → (∀ x, block_ok (v x)) → first_free v sb b → 0 <= c < sb_size sb →
  used (alloc_view v sb b) sb c = if c =? b then true else used v sb c.
Proof.
  intros Hmap Hok (Hb & Hun & _) Hc.
  destruct (mo_free tx sb v out Hmap b Hb Hun) as (_ & _ & _ & Hnm).
  rewrite <- used_mark by (done || lia). unfold used, alloc_view. by rewrite fupdz_ne by (by apply Hnm).
Qed.

Lemma alloc_view_other v sb b x :
  x ≠ b → x ≠ b / BPB + sb_bmapstart sb → alloc_view v sb b x = v x.
Proof. intros. unfold alloc_view. by rewrite !fupdz_ne. Qed.

Definition free_view (v : Z → block) (sb : superblock) (b : Z) : Z → block :=
  fupdz v (b / BPB + sb_bmapstart sb) (clear_bit (b mod BPB) (v (b / BPB + sb_bmapstart sb))).

Lemma bfree_run tx h s v out lg b :
  frep tx h s (Tx v out lg []) → map_ok tx (f_sb s) v out →
  (length lg + length out < 29)%nat → Z.of_nat (length lg) < tx_cap tx →
  0 <= b < sb_size (f_sb s) → used v (f_sb s) b = true →
  ∃ s', bfree ROOTDEV b (Thread h s) = Ok tt (Thread h s') ∧ same_mem s s' ∧
    frep tx h s' (Tx (free_view v (f_sb s) b) out (log_add lg (b / BPB + sb_bmapstart (f_sb s))) []).
Proof.
  intros Hr Hmap Hl Hcap Hb Hu. set (sb := f_sb s) in *.
  pose proof (BBLOCK_eq tx sb v out b Hmap Hb) as Hbb.
  destruct (mo_map tx sb v out Hmap b Hb) as [Hh Hno].
  destruct (blk_bread_run tx h s v out lg (BBLOCK b sb) Hr) as (bp & s1 & E1 & R1 & Hi & M1 & D1);
    [by rewrite Hbb|lia|]. rewrite Hbb in R1, D1.
  destruct (finish_run tx h s1 v out lg bp _ (clear_bit (b mod BPB)) R1 Hi) as (s2 & E2 & M2 & R2);
    [apply clear_bit_ok; by apply (brep_ok _ _ _ _ _ Hr)|done|lia|].
  exists s2. split; [|split; [by eapply same_mem_trans|done]].
  unfold bfree. kstep. cbn [st]. fold sb. rewrite (bind_Ok _ _ _ _ _ E1), (bind_Ok _ _ _ _ _ D1).
  unfold used in Hu. rewrite Hu. cbn [negb panic_if]. kstep. rewrite finish_tail. by rewrite E2.
Qed.

Lemma bfree_panics tx h s v out lg b :
  frep tx h s (Tx v out lg []) → map_ok tx (f_sb s) v out →
  (length lg + length out < 29)%nat → 0 <= b < sb_size (f_sb s) → used v (f_sb s) b = false →
  bfree ROOTDEV b (Thread h s) = Panic "freeing free block".
Proof.
  intros Hr Hmap Hl Hb Hu. set (sb := f_sb s) in *.
  pose proof (BBLOCK_eq tx sb v out b Hmap Hb) as Hbb.
  destruct (mo_map tx sb v out Hmap b Hb) as [Hh Hno].
  destruct (blk_bread_run tx h s v out lg (BBLOCK b sb) Hr) as (bp & s1 & E1 & R1 & Hi & M1 & D1);
    [by rewrite Hbb|lia|]. rewrite Hbb in D1.
  unfold bfree. kstep. cbn [st]. fold sb. rewrite (bind_Ok _ _ _ _ _ E1), (bind_Ok _ _ _ _ _ D1).
  unfold used in Hu. by rewrite Hu.
Qed.

(** Inside a transaction with two log slots to spare, [balloc] returns the
    first free block, which is now marked in the free map and filled with zeros,
    every other mark and every other block unchanged; if no block is free it
    returns 0, prints a message and changes no block. *)
Theorem balloc_correct tx h s v out lg :
  frep tx h s (Tx v out lg []) → map_ok tx (f_sb s) v out →
  (length lg + length out < 28)%nat → Z.of_nat (length lg) + 2 <= tx_cap tx →
  let sb := f_sb s in
  (∃ b s' v' lg', balloc ROOTDEV (Thread h s) = Ok b (Thread h s') ∧ b ≠ 0 ∧ first_free v sb b ∧
     frep tx h s' (Tx v' out lg' []) ∧ f_sb s' = sb ∧ f_itable s' = f_itable s ∧
     v' b = zero_block ∧
     (∀ c, 0 <= c < sb_size sb → used v' sb c = if c =? b then true else used v sb c) ∧
     (∀ x, x ≠ b → ¬ map_block sb x → v' x = v x) ∧
     (∀ x, x ∈ lg' → x ∈ lg ∨ x = b ∨ map_block sb x) ∧ (length lg' <= length lg + 2)%nat) ∨
  (∃ s', balloc ROOTDEV (Thread h s) = Ok 0 (Thread h s') ∧
     (∀ c, 0 <= c < sb_size sb → used v sb c = true) ∧ frep tx h s' (Tx v out lg []) ∧
     f_itable s' = f_itable s ∧ f_printed s' = f_printed s ++ ["balloc: out of blocks"%string]).
Proof.
  intros Hr Hmap Hl Hcap sb.
  destruct (balloc_run tx h s v out lg Hr Hmap Hl Hcap)
    as [(b & s' & E & Hff & M & R)|(s' & E & Hall & S1 & S2 & S3 & R)]; [left|right].
  - pose proof Hff as (Hb & Hun & _). fold sb in Hff, Hun, Hb, R.
    destruct (mo_free tx sb v out Hmap b Hb Hun) as (Hnz & _).
    assert (map_block sb (b / BPB + sb_bmapstart sb)) as Hmb by (by exists b).
    exists b, s', (alloc_view v sb b), (alloc_log lg sb b). split_and!; try done.
    + by apply same_mem_sb.
    + by apply same_mem_itable.
    + unfold alloc_view. by rewrite fupdz_eq.
    + intros c Hc. apply (alloc_view_used tx v sb out); try done. intros x. apply (brep_ok _ _ _ _ x Hr).
    + intros x Hx Hnm. apply alloc_view_other; [done|]. by intros ->.
    + intros x. unfold alloc_log, log_add. repeat case_decide; set_solver.
    + unfold alloc_log. pose proof (length_log_add lg (b / BPB + sb_bmapstart sb)).
      pose proof (length_log_add (log_add lg (b / BPB + sb_bmapstart sb)) b). lia.
  - exists s'. split_and!; done.
Qed.

(** [bfree] of a block that is marked clears its mark and nothing else; of a
    block that is free already, it panics. *)
Theorem bfree_correct tx h s v out lg b :
  frep tx h s (Tx v out lg []) → map_ok tx (f_sb s) v out →
  (length lg + length out < 29)%nat → Z.of_nat (length lg) < tx_cap tx → 0 <= b < sb_size (f_sb s) →
  let sb := f_sb s in
  if used v sb b then
    ∃ s' v' lg', bfree ROOTDEV b (Thread h s) = Ok tt (Thread h s') ∧ frep tx h s' (Tx v' out lg' []) ∧
      f_sb s' = sb ∧ f_itable s' = f_itable s ∧
      (∀ c, 0 <= c < sb_size sb → used v' sb c = if c =? b then false else used v sb c) ∧
      (∀ x, ¬ map_block sb x → v' x = v x) ∧ (length lg' <= S (length lg))%nat
  else bfree ROOTDEV b (Thread h s) = Panic "freeing free block".
Proof.
  intros Hr Hmap Hl Hcap Hb sb. destruct (used v sb b) eqn:Hu; [|by eapply bfree_panics].
  destruct (bfree_run tx h s v out lg b Hr Hmap Hl Hcap Hb Hu) as (s' & E & M & R). fold sb in R.
  exists s', (free_view v sb b), (log_add lg (b / BPB + sb_bmapstart sb)). split_and!; try done.
  - by apply same_mem_sb.
  - by apply same_mem_itable.
  - intros c Hc. apply used_clear; [intros x; apply (brep_ok _ _ _ _ x Hr)|lia|lia].
  - intros x Hx. unfold free_view. apply fupdz_ne. intros ->. apply Hx. by exists b.
  - apply length_log_add.
Qed.
End blocks.
