(* ===== verification/FsInode.v ===== *)
(** * fs.c, second layer: the inode table and the inodes on the disk *)

From S2P Require Import Prelude Param FsDisk BlockLayer Fs FsBlocks.

(** ** The table *)

(** One entry at most for every inode in use. *)
Record table_ok (t : list inode) : Prop := {
  tb_len : length t = Z.to_nat NINODE;
  tb_ref : ∀ i x, t !! i = Some x → 0 <= i_ref x;
  tb_uniq : ∀ i j x y, t !! i = Some x → t !! j = Some y → 0 < i_ref x → 0 < i_ref y →
    i_dev x = i_dev y → i_inum x = i_inum y → i = j }.

(** The entry of an inode in use. *)
Definition entry_of (t : list inode) (dev inum : Z) (i : nat) : Prop :=
  ∃ x, t !! i = Some x ∧ 0 < i_ref x ∧ i_dev x = dev ∧ i_inum x = inum.

Lemma iget_match x dev inum :
  (0 <? i_ref x) && (i_dev x =? dev) && (i_inum x =? inum) = true ↔
  0 < i_ref x ∧ i_dev x = dev ∧ i_inum x = inum.
Proof. rewrite !andb_true_iff, Z.ltb_lt, !Z.eqb_eq. tauto. Qed.

Lemma iget_scan_spec dev inum k e t :
  match iget_scan dev inum k e t with
  | inl i => ∃ j, i = (k + j)%nat ∧ entry_of t dev inum j
  | inr r => (∀ j, ¬ entry_of t dev inum j) ∧
      match e with
      | Some _ => r = e
      | None => match r with
                | Some i => ∃ j x, i = (k + j)%nat ∧ t !! j = Some x ∧ i_ref x = 0
                | None => ∀ j x, t !! j = Some x → i_ref x ≠ 0
                end
      end
  end.
Proof.
  revert k e; induction t as [|x t IH]; intros k e; cbn [iget_scan].
  { split; [intros j (? & ? & _); done|]. destruct e; [done|]. intros j x Hx. done. }
  destruct ((0 <? i_ref x) && (i_dev x =? dev) && (i_inum x =? inum)) eqn:E.
  { exists 0%nat. split; [lia|]. exists x. split; [done|]. by apply iget_match. }
  assert (∀ j, entry_of (x :: t) dev inum j → ∃ i, j = S i ∧ entry_of t dev inum i) as Htl.
  { intros [|j] (y & Hy & Hm); [|exists j; split; [done|by exists y]]. simpl in Hy. injection Hy as <-.
    apply iget_match in Hm. congruence. }
  specialize (IH (S k) (match e with None => if i_ref x =? 0 then Some k else None | _ => e end)).
  destruct (iget_scan dev inum (S k) _ t) as [i|r].
  - destruct IH as (j & -> & y & Hy & Hm). exists (S j). split; [lia|]. by exists y.
  - destruct IH as [Hno Hr]. split.
    { intros j Hj. apply Htl in Hj as (i & -> & Hi). by apply (Hno i). }
    destruct e as [e|]; [done|]. destruct (Z.eqb_spec (i_ref x) 0) as [E0|E0].
    + subst r. exists 0%nat, x. split; [lia|]. done.
    + destruct r as [i|].
      * destruct Hr as (j & y & -> & Hy & Hy0). exists (S j), y. split; [lia|]. done.
      * intros [|j] y Hy; [by injection Hy as <-|]. by eapply Hr.
Qed.

Section inode.
Context {B : Type} `{BlockLaws B}.
Implicit Types s : fs B.

Lemma geti_lookup i s x : f_itable s !! i = Some x → geti i s = x.
Proof. intros E. unfold geti. by rewrite E. Qed.

Lemma upd_lookup i j f s x :
  f_itable s !! i = Some x →
  f_itable (upd_inode i f s) !! j = if decide (j = i) then Some (f x) else f_itable s !! j.
Proof.
  intros Hi. unfold upd_inode, set_itable. cbn [f_itable]. rewrite (geti_lookup _ _ _ Hi).
  case_decide as E.
  - subst. apply list_lookup_insert_eq. by eapply lookup_lt_Some.
  - by apply list_lookup_insert_ne.
Qed.

(** Replacing the entry [i] by one of the same inode, or a free one by one of a
    new inode. *)
Lemma table_ok_upd i f s x :
  table_ok (f_itable s) → f_itable s !! i = Some x → 0 <= i_ref (f x) →
  (∀ j y, j ≠ i → f_itable s !! j = Some y → 0 < i_ref y → 0 < i_ref (f x) →
     i_dev y = i_dev (f x) → i_inum y = i_inum (f x) → False) →
  table_ok (f_itable (upd_inode i f s)).
Proof.
  intros [Hl Hr Hu] Hi Hf Hn. split.
  - unfold upd_inode, set_itable. cbn [f_itable]. by rewrite length_insert.
  - intros j y. rewrite (upd_lookup i j f s x Hi). case_decide; [by intros [= <-]|]. apply Hr.
  - intros j k y z. rewrite !(upd_lookup i _ f s x Hi).
    destruct (decide (j = i)) as [->|Hj], (decide (k = i)) as [->|Hk]; try done.
    + intros [= <-] Hz H1 H2 H3 H4. exfalso. by apply (Hn k z).
    + intros Hy [= <-] H1 H2 H3 H4. exfalso. by apply (Hn j y).
    + apply Hu.
Qed.

Lemma iget_run h s dev inum :
  L_itable ∉ h → table_ok (f_itable s) →
  (∃ i x s', iget dev inum (Thread h s) = Ok i (Thread h s') ∧ f_itable s !! i = Some x ∧
     s' = upd_inode i (λ x, if bool_decide (0 < i_ref x) then with_ref (i_ref x + 1) x else with_entry dev inum x) s ∧
     (0 < i_ref x → i_dev x = dev ∧ i_inum x = inum) ∧
     entry_of (f_itable s') dev inum i ∧ table_ok (f_itable s')) ∨
  (iget dev inum (Thread h s) = Panic "iget: no inodes" ∧
   (∀ j, ¬ entry_of (f_itable s) dev inum j) ∧ ∀ j x, f_itable s !! j = Some x → 0 < i_ref x).
Proof.
  intros Hh Ht. unfold iget. kstep. rewrite (bind_Ok get _ _ _ _ eq_refl). cbn [st].
  pose proof (iget_scan_spec dev inum 0 None (f_itable s)) as Hs.
  destruct (iget_scan dev inum 0 None (f_itable s)) as [i|[i|]].
  - left. destruct Hs as (j & -> & x & Hx & Hr & Hd & Hi). cbn [Nat.add].
    exists j, x, (upd_inode j (λ x, with_ref (i_ref x + 1) x) s). split; [by do 2 kstep|]. split; [done|].
    assert (geti j s = x) as Hg by (by apply geti_lookup).
    split_and!; try done.
    + unfold upd_inode. rewrite Hg. by rewrite bool_decide_true.
    + exists (with_ref (i_ref x + 1) x). rewrite (upd_lookup j j _ s x Hx), decide_True by done.
      split; [done|]. simpl. split; [lia|done].
    + apply (table_ok_upd j _ s x); [done|done|simpl; lia|].
      intros k y Hk Hy Hy0 _ Hyd Hyi. apply Hk. by eapply (tb_uniq _ Ht k j y x).
  - left. destruct Hs as [Hno (j & x & -> & Hx & Hx0)]. cbn [Nat.add].
    exists j, x, (upd_inode j (with_entry dev inum) s). split; [by do 2 kstep|]. split; [done|].
    assert (geti j s = x) as Hg by (by apply geti_lookup).
    split_and!.
    + unfold upd_inode. rewrite Hg. by rewrite bool_decide_false by lia.
    + lia.
    + exists (with_entry dev inum x). rewrite (upd_lookup j j _ s x Hx), decide_True by done. done.
    + apply (table_ok_upd j _ s x); [done|done|simpl; lia|].
      intros k y Hk Hy Hy0 _ Hyd Hyi. apply (Hno k). by exists y.
  - right. destruct Hs as [Hno Hall]. split_and!; [done|done|]. intros j x Hx.
    specialize (Hall j x Hx). pose proof (tb_ref _ Ht j x Hx). lia.
Qed.

(** [iget] returns the one entry of the inode, taking a free entry if there is
    none; it gains a reference, no other entry changes and the table keeps one
    entry per inode.  It panics exactly when a new entry is needed and all
    [NINODE] are in use. *)
Theorem iget_correct h s dev inum :
  L_itable ∉ h → table_ok (f_itable s) →
  (∃ i x s', iget dev inum (Thread h s) = Ok i (Thread h s') ∧ f_itable s !! i = Some x ∧
     s' = upd_inode i (λ x, if bool_decide (0 < i_ref x) then with_ref (i_ref x + 1) x else with_entry dev inum x) s ∧
     (0 < i_ref x → i_dev x = dev ∧ i_inum x = inum) ∧
     entry_of (f_itable s') dev inum i ∧ table_ok (f_itable s')) ∨
  (iget dev inum (Thread h s) = Panic "iget: no inodes" ∧
   (∀ j, ¬ entry_of (f_itable s) dev inum j) ∧ ∀ j x, f_itable s !! j = Some x → 0 < i_ref x).
Proof. apply iget_run. Qed.

(** [idup] adds a reference to an entry in use and [iput] of an entry with other
    references, or with links on the disk, takes one away: the table stays well
    formed, the blocks are untouched, and an [iput] undoes an [idup]. *)
Theorem idup_iput h s i x :
  L_itable ∉ h → table_ok (f_itable s) → f_itable s !! i = Some x → 0 < i_ref x →
  ∃ s', idup i (Thread h s) = Ok i (Thread h s') ∧ table_ok (f_itable s') ∧
    f_itable s' = <[i := with_ref (i_ref x + 1) x]> (f_itable s) ∧
    iput i (Thread h s') = Ok tt (Thread h s).
Proof.
  intros Hh Ht Hx Hr. assert (geti i s = x) as Hg by (by apply geti_lookup).
  exists (upd_inode i (λ x, with_ref (i_ref x + 1) x) s). split_and!.
  - unfold idup. kstep. by do 2 kstep.
  - apply (table_ok_upd i _ s x); [done|done|simpl; lia|].
    intros k y Hk Hy Hy0 _ Hyd Hyi. apply Hk. by eapply (tb_uniq _ Ht k i y x).
  - unfold upd_inode. by rewrite Hg.
  - unfold iput. kstep. kstep. cbn [st].
    assert (geti i (upd_inode i (λ x, with_ref (i_ref x + 1) x) s) = with_ref (i_ref x + 1) x) as ->.
    { apply geti_lookup. rewrite (upd_lookup i i _ s x Hx). by rewrite decide_True. }
    cbn [i_ref with_ref]. rewrite (proj2 (Z.eqb_neq (i_ref x + 1) 1)) by lia. cbn [andb].
    do 2 kstep. cbn [held st]. rewrite release_Ok. do 2 f_equal. unfold upd_inode, set_itable, geti. destruct s as [bk sb t pr].
    cbn [f_itable f_blk f_sb f_printed] in *. f_equal. rewrite Hx. cbn [from_option id].
    rewrite list_lookup_insert_eq by (by eapply lookup_lt_Some). cbn [from_option id].
    rewrite list_insert_insert_eq. replace (with_ref _ _) with x by (destruct x; unfold with_ref; simpl; f_equal; lia).
    by apply list_insert_id.
Qed.

(** ** Inodes on the disk *)

Definition dinode_at (v : Z → block) (sb : superblock) (inum : Z) : dinode :=
  get_dinode (v (IBLOCK inum sb)) (dinode_off inum).

(** The inode blocks may be logged and are not locked. *)
Record inodes_ok (tx : txinfo) (sb : superblock) (out : list (nat * Z)) : Prop := {
  io_num : 0 <= sb_ninodes sb < 2 ^ 31;
  io_start : 0 <= sb_inodestart sb ∧ sb_inodestart sb + sb_ninodes sb < 2 ^ 32;
  io_home : ∀ i, 0 <= i < sb_ninodes sb → tx_home tx (IBLOCK i sb) ∧ IBLOCK i sb ∉ out.*2 }.

Lemma IBLOCK_eq tx sb out i :
  inodes_ok tx sb out → 0 <= i < sb_ninodes sb → IBLOCK i sb = i / 16 + sb_inodestart sb.
Proof.
  intros [] Hi. unfold IBLOCK. change IPB with 16. apply u32_small.
  assert (0 <= i / 16 <= i); [|lia]. split; [apply Z.div_pos; lia|]. apply Z.div_le_upper_bound; lia.
Qed.

Lemma dinode_off_bound i : (dinode_off i + 64 <= 1024)%nat.
Proof.
  unfold dinode_off, DINODE_SIZE. change IPB with 16. pose proof (Z.mod_pos_bound i 16 ltac:(done)). lia.
Qed.

(** Two inodes of the same block do not overlap. *)
Lemma dinode_disjoint tx sb out i j :
  inodes_ok tx sb out → 0 <= i < sb_ninodes sb → 0 <= j < sb_ninodes sb → i ≠ j →
  IBLOCK j sb = IBLOCK i sb → (dinode_off j + 64 <= dinode_off i ∨ dinode_off i + 64 <= dinode_off j)%nat.
Proof.
  intros Hio Hi Hj Hne. rewrite !(IBLOCK_eq tx sb out) by done. intros E.
  assert (i mod 16 ≠ j mod 16).
  { intros Em. apply Hne. rewrite (Z.div_mod i 16), (Z.div_mod j 16) by done. lia. }
  unfold dinode_off, DINODE_SIZE. change IPB with 16.
  pose proof (Z.mod_pos_bound i 16 ltac:(done)). pose proof (Z.mod_pos_bound j 16 ltac:(done)). lia.
Qed.

Lemma block_len d : block_ok d → length d = 1024%nat.
Proof. by intros [-> _]. Qed.

(** A block update that stays inside one inode's bytes leaves the other inodes. *)
Lemma dinode_at_other tx sb out v i j d :
  inodes_ok tx sb out → 0 <= i < sb_ninodes sb → 0 <= j < sb_ninodes sb → i ≠ j →
  (∀ off, (off + 64 <= 1024)%nat → (off + 64 <= dinode_off i ∨ dinode_off i + 64 <= off)%nat →
     get_dinode d off = get_dinode (v (IBLOCK i sb)) off) →
  dinode_at (fupdz v (IBLOCK i sb) d) sb j = dinode_at v sb j.
Proof.
  intros Hio Hi Hj Hne Hd. unfold dinode_at, fupdz.
  destruct (Z.eqb_spec (IBLOCK j sb) (IBLOCK i sb)) as [E|E]; [|done].
  rewrite Hd, E; [done|apply dinode_off_bound|]. by eapply dinode_disjoint.
Qed.

Lemma iupdate_run tx h s v out lg i x :
  frep tx h s (Tx v out lg []) → inodes_ok tx (f_sb s) out →
  (length lg + length out < 29)%nat → Z.of_nat (length lg) < tx_cap tx →
  f_itable s !! i = Some x → i_dev x = ROOTDEV → 0 <= i_inum x < sb_ninodes (f_sb s) →
  dinode_ok (to_dinode x) →
  ∃ s', iupdate i (Thread h s) = Ok tt (Thread h s') ∧ same_mem s s' ∧
    frep tx h s' (Tx (fupdz v (IBLOCK (i_inum x) (f_sb s))
        (set_dinode (dinode_off (i_inum x)) (to_dinode x) (v (IBLOCK (i_inum x) (f_sb s))))) out
      (log_add lg (IBLOCK (i_inum x) (f_sb s))) []).
Proof.
  intros Hr Hio Hl Hcap Hx Hdev Hn Hok. set (sb := f_sb s) in *.
  destruct (io_home tx sb out Hio (i_inum x) Hn) as [Hh Hno].
  destruct (blk_bread_run tx h s v out lg (IBLOCK (i_inum x) sb) Hr Hno ltac:(lia)) as (bp & s1 & E1 & R1 & Hi & M1 & D1).
  destruct (finish_run tx h s1 v out lg bp _ (set_dinode (dinode_off (i_inum x)) (to_dinode x)) R1 Hi)
    as (s2 & E2 & M2 & R2);
    [apply set_dinode_ok; [done|apply dinode_off_bound|by apply (brep_ok _ _ _ _ _ Hr)]|done|lia|].
  exists s2. split; [|split; [by eapply same_mem_trans|done]].
  unfold iupdate. do 2 kstep. cbn [st]. rewrite (geti_lookup i s x Hx), Hdev. fold sb.
  rewrite (bind_Ok _ _ _ _ _ E1), finish_tail. by rewrite E2.
Qed.

(** [iupdate] makes the inode on the disk equal to the copy in memory, and
    changes no other inode and no block but the inode's. *)
Theorem iupdate_correct tx h s v out lg i x :
  frep tx h s (Tx v out lg []) → inodes_ok tx (f_sb s) out →
  (length lg + length out < 29)%nat → Z.of_nat (length lg) < tx_cap tx →
  f_itable s !! i = Some x → i_dev x = ROOTDEV → 0 <= i_inum x < sb_ninodes (f_sb s) →
  dinode_ok (to_dinode x) →
  ∃ s' v' lg', iupdate i (Thread h s) = Ok tt (Thread h s') ∧ frep tx h s' (Tx v' out lg' []) ∧
    f_sb s' = f_sb s ∧ f_itable s' = f_itable s ∧
    dinode_at v' (f_sb s) (i_inum x) = to_dinode x ∧
    (∀ j, 0 <= j < sb_ninodes (f_sb s) → j ≠ i_inum x → dinode_at v' (f_sb s) j = dinode_at v (f_sb s) j) ∧
    (∀ b, b ≠ IBLOCK (i_inum x) (f_sb s) → v' b = v b).
Proof.
  intros Hr Hio Hl Hcap Hx Hdev Hn Hok.
  destruct (iupdate_run tx h s v out lg i x Hr Hio Hl Hcap Hx Hdev Hn Hok) as (s' & E & M & R).
  assert (∀ b, block_ok (v b)) as Hv by (intros b; apply (brep_ok _ _ _ _ b Hr)).
  pose proof (dinode_off_bound (i_inum x)) as Hob.
  eexists s', _, _. split; [exact E|]. split; [exact R|]. split_and!.
  - by apply same_mem_sb.
  - by apply same_mem_itable.
  - unfold dinode_at. rewrite fupdz_eq. apply get_set_dinode; [done|]. by rewrite block_len.
  - intros j Hj Hne. apply (dinode_at_other tx _ out); try done.
    intros off Ho Hd. apply get_set_dinode_ne; [done|by rewrite block_len|lia].
  - intros b Hb. by apply fupdz_ne.
Qed.

Lemma same_mem_upd s s' i f : same_mem s s' → same_mem (upd_inode i f s) (upd_inode i f s').
Proof. intros [b ->]. exists b. done. Qed.

Lemma frep_upd tx h s x i f : frep tx h s x → frep tx h (upd_inode i f s) x.
Proof. done. Qed.

Lemma upd_upd s i f g x :
  f_itable s !! i = Some x → upd_inode i g (upd_inode i f s) = upd_inode i (λ x, g (f x)) s.
Proof.
  intros Hx. unfold upd_inode at 1. assert (geti i (upd_inode i f s) = f x) as ->.
  { apply geti_lookup. rewrite (upd_lookup i i f s x Hx). by rewrite decide_True. }
  unfold upd_inode, set_itable. cbn [f_itable f_blk f_sb f_printed].
  by rewrite list_insert_insert_eq, (geti_lookup i s x Hx).
Qed.

(** What [ilock] loads into an entry that is not valid. *)
Definition loaded_entry (v : Z → block) (sb : superblock) (x : inode) : inode :=
  Fs.with_valid true (with_dinode (dinode_at v sb (i_inum x)) x).

Lemma ilock_load tx h s v out lg i x :
  frep tx h s (Tx v out lg []) → inodes_ok tx (f_sb s) out → (length lg + length out < 29)%nat →
  f_itable s !! i = Some x → i_dev x = ROOTDEV → 0 <= i_inum x < sb_ninodes (f_sb s) →
  1 <= i_ref x → i_valid x = false → SL_inode i ∉ h →
  ∃ s', ilock (Some i) (Thread h s) =
      (if d_type (dinode_at v (f_sb s) (i_inum x)) =? 0 then Panic "ilock: no type"
       else Ok tt (Thread (SL_inode i :: h) s')) ∧
    frep tx (SL_inode i :: h) s' (Tx v out lg []) ∧
    same_mem (upd_inode i (loaded_entry v (f_sb s)) s) s'.
Proof.
  intros Hr Hio Hl Hx Hdev Hn Hrf Hv Hlk. set (sb := f_sb s) in *.
  destruct (io_home tx sb out Hio (i_inum x) Hn) as [Hh Hno].
  assert (frep tx (SL_inode i :: h) s (Tx v out lg [])) as Hr'.
  { eapply brep_held; [exact Hr|]. intros lk Hb. rewrite elem_of_cons. split; [|auto]. intros [->|]; [done|auto]. }
  destruct (blk_bread_run tx _ s v out lg (IBLOCK (i_inum x) sb) Hr' Hno ltac:(lia)) as (bp & s1 & E1 & R1 & Hi & M1 & D1).
  set (f := with_dinode (dinode_at v sb (i_inum x))).
  destruct (blk_brelse_run tx _ (upd_inode i f s1) v out lg bp _ R1 Hi) as (s2 & E2 & M2 & R2).
  assert (same_mem (upd_inode i (loaded_entry v sb) s) (upd_inode i (Fs.with_valid true) s2)) as M.
  { eapply same_mem_trans; [|apply same_mem_upd; exact M2]. rewrite (upd_upd s1 i f _ x).
    - assert (upd_inode i (loaded_entry v sb) s1 = upd_inode i (λ x, Fs.with_valid true (f x)) s1) as <-.
      { unfold upd_inode. rewrite (same_mem_geti s s1), (geti_lookup i s x Hx) by done. done. }
      by apply same_mem_upd.
    - by rewrite (same_mem_itable s s1). }
  exists (upd_inode i (Fs.with_valid true) s2). split; [|split; [done|done]].
  unfold ilock. kstep. cbn [st]. rewrite (geti_lookup i s x Hx), (proj2 (Z.ltb_ge _ 1)) by lia.
  cbn [panic_if]. kstep.
  rewrite (bind_Ok (acquiresleep _) _ _ tt (Thread (SL_inode i :: h) s))
    by (unfold acquiresleep; cbn [held st]; by rewrite decide_False).
  kstep. cbn [st]. rewrite (geti_lookup i s x Hx), Hv. kstep. cbn [st]. fold sb. rewrite Hdev.
  rewrite (bind_Ok _ _ _ _ _ E1), (bind_Ok _ _ _ _ _ D1).
  change (get_dinode _ _) with (dinode_at v sb (i_inum x)). fold f.
  kstep. cbn [held st]. rewrite (bind_Ok _ _ _ _ _ E2). do 2 kstep. cbn [held st].
  assert (geti i (upd_inode i (Fs.with_valid true) s2) = loaded_entry v sb x) as ->.
  { rewrite (same_mem_geti (upd_inode i (loaded_entry v sb) s)) by done. apply geti_lookup.
    rewrite (upd_lookup i i _ s x Hx). by rewrite decide_True. }
  cbn [loaded_entry Fs.with_valid with_dinode i_type]. by destruct (_ =? 0).
Qed.

(** An inode written by [iupdate] survives its eviction: when a later [ilock]
    finds an entry for it that is not valid, it loads the very fields that
    [iupdate] stored (type, device numbers, links, size and block addresses),
    changing no block; only a type of 0 makes it panic. *)
Theorem iupdate_ilock_roundtrip tx h s v out lg i x j y :
  frep tx h s (Tx v out lg []) → inodes_ok tx (f_sb s) out →
  (length lg + length out < 28)%nat → Z.of_nat (length lg) < tx_cap tx →
  f_itable s !! i = Some x → i_dev x = ROOTDEV → 0 <= i_inum x < sb_ninodes (f_sb s) → dinode_ok (to_dinode x) →
  ∃ s1, iupdate i (Thread h s) = Ok tt (Thread h s1) ∧
    ((j < length (f_itable s))%nat → i_dev y = ROOTDEV → i_inum y = i_inum x → 1 <= i_ref y → i_valid y = false →
     SL_inode j ∉ h →
     let s2 := set_itable (<[j := y]> (f_itable s1)) s1 in
     if i_type x =? 0 then ilock (Some j) (Thread h s2) = Panic "ilock: no type"
     else ∃ s3 z, ilock (Some j) (Thread h s2) = Ok tt (Thread (SL_inode j :: h) s3) ∧
       f_itable s3 !! j = Some z ∧ i_valid z = true ∧ to_dinode z = to_dinode x ∧
       i_ref z = i_ref y ∧ i_inum z = i_inum x).
Proof.
  intros Hr Hio Hl Hcap Hx Hdev Hn Hok.
  destruct (iupdate_run tx h s v out lg i x Hr Hio ltac:(lia) Hcap Hx Hdev Hn Hok) as (s1 & E1 & M1 & R1).
  exists s1. split; [exact E1|]. intros Hj Hyd Hyi Hyr Hyv Hlk s2.
  assert (f_sb s2 = f_sb s) as Esb by (by apply same_mem_sb in M1).
  assert (f_itable s2 !! j = Some y) as Hy.
  { subst s2. cbn [set_itable f_itable]. rewrite (same_mem_itable s s1) by done. by apply list_lookup_insert_eq. }
  set (v' := fupdz _ _ _) in R1.
  pose proof (length_log_add lg (IBLOCK (i_inum x) (f_sb s))).
  destruct (ilock_load tx h s2 v' out (log_add lg (IBLOCK (i_inum x) (f_sb s))) j y) as (s3 & E3 & R3 & M3);
    [exact R1|by rewrite Esb|lia|done|done|by rewrite Esb, Hyi|lia|done|done|].
  assert (dinode_at v' (f_sb s) (i_inum x) = to_dinode x) as Hda.
  { unfold dinode_at. subst v'. rewrite fupdz_eq. apply get_set_dinode; [done|].
    rewrite block_len by (apply (brep_ok _ _ _ _ _ Hr)). apply dinode_off_bound. }
  rewrite Esb, Hyi, Hda in E3. cbn [to_dinode d_type] in E3.
  destruct (i_type x =? 0) eqn:Et; [exact E3|].
  exists s3, (loaded_entry v' (f_sb s) y). split; [exact E3|]. split.
  - rewrite (same_mem_itable _ _ M3), (upd_lookup j j _ s2 y Hy), decide_True by done. by rewrite Esb.
  - split; [done|]. split; [|by split].
    unfold loaded_entry. rewrite Hyi, Hda. by destruct x.
Qed.
End inode.
