(* ===== verification/FsFile.v ===== *)
(** * fs.c, third layer: the contents of files

    [bmap], [readi] and [writei] against the file as a function from offsets to
    bytes.  A block that is not allocated reads as zeros. *)

From S2P Require Import Prelude Param FsDisk BlockLayer Fs FsBlocks FsInode.

(** ** The blocks of a file *)

Definition ind_of (x : inode) : Z := default 0 (i_addrs x !! Z.to_nat NDIRECT).

(** The number of the file's block [bn], 0 if there is none yet. *)
Definition blockno (v : Z → block) (x : inode) (bn : Z) : Z :=
  if bn <? NDIRECT then default 0 (i_addrs x !! Z.to_nat bn)
  else if ind_of x =? 0 then 0 else get32 (v (ind_of x)) (Z.to_nat (bn - NDIRECT)).

(** The byte at an offset. *)
Definition fbyte (v : Z → block) (x : inode) (o : Z) : Z :=
  let b := blockno v x (o / BSIZE) in
  if b =? 0 then 0 else default 0 (v b !! Z.to_nat (o mod BSIZE)).

(** The blocks that belong to the file. *)
Definition owns (v : Z → block) (x : inode) (b : Z) : Prop :=
  b ≠ 0 ∧ (b = ind_of x ∨ ∃ bn, 0 <= bn < MAXFILE ∧ blockno v x bn = b).

Section file.
Context {B : Type} `{BlockLaws B}.
Implicit Types s : fs B.

(** The free map and the inode blocks of a file system, in a transaction whose
    open buffers are [out]. *)
Record fs_ok (tx : txinfo) (sb : superblock) (v : Z → block) (out : list (nat * Z)) : Prop := {
  fk_map : map_ok tx sb v out;
  fk_inodes : inodes_ok tx sb out;
  fk_meta : ∀ j, 0 <= j < sb_ninodes sb →
    0 <= IBLOCK j sb < sb_size sb ∧ used v sb (IBLOCK j sb) = true ∧ ¬ map_block sb (IBLOCK j sb) }.

(** An ordinary block in use. *)
Record data_block (tx : txinfo) (sb : superblock) (v : Z → block) (out : list (nat * Z)) (b : Z) : Prop := {
  db_range : 0 < b < sb_size sb;
  db_used : used v sb b = true;
  db_home : tx_home tx b;
  db_out : b ∉ out.*2;
  db_map : ¬ map_block sb b;
  db_inode : ∀ j, 0 <= j < sb_ninodes sb → IBLOCK j sb ≠ b }.

(** A file: its blocks are data blocks in use, each in one place of the file. *)
Record file_ok (tx : txinfo) (sb : superblock) (v : Z → block) (out : list (nat * Z)) (x : inode) : Prop := {
  fo_len : length (i_addrs x) = NADDRS;
  fo_own : ∀ b, owns v x b → data_block tx sb v out b;
  fo_inj : ∀ k k', 0 <= k < MAXFILE → 0 <= k' < MAXFILE → blockno v x k ≠ 0 →
    blockno v x k = blockno v x k' → k = k';
  fo_ind : ∀ k, 0 <= k < MAXFILE → blockno v x k ≠ 0 → blockno v x k ≠ ind_of x }.

Lemma blockno_owned tx sb v out x k : file_ok tx sb v out x → 0 <= k < MAXFILE → blockno v x k ≠ 0 →
  data_block tx sb v out (blockno v x k).
Proof. intros Hf Hk Hz. apply (fo_own _ _ _ _ _ Hf). split; [exact Hz|]. right. by exists k. Qed.

Lemma ind_owned tx sb v out x : file_ok tx sb v out x → ind_of x ≠ 0 → data_block tx sb v out (ind_of x).
Proof. intros Hf Hz. apply (fo_own _ _ _ _ _ Hf). split; [exact Hz|]. by left. Qed.

Lemma owns_blockno v x k : 0 <= k < MAXFILE → blockno v x k ≠ 0 → owns v x (blockno v x k).
Proof. intros Hk Hz. split; [exact Hz|]. right. by exists k. Qed.

Lemma owns_ind v x : ind_of x ≠ 0 → owns v x (ind_of x).
Proof. intros Hz. split; [exact Hz|]. by left. Qed.

(** Only the indirect block matters for the block numbers. *)
Lemma blockno_ext v v' x k : (ind_of x ≠ 0 → v' (ind_of x) = v (ind_of x)) → blockno v' x k = blockno v x k.
Proof.
  intros Hv. unfold blockno. destruct (k <? NDIRECT); [done|]. destruct (Z.eqb_spec (ind_of x) 0); [done|]. by rewrite Hv.
Qed.

Lemma owns_ext v v' x b : (ind_of x ≠ 0 → v' (ind_of x) = v (ind_of x)) → owns v' x b ↔ owns v x b.
Proof.
  intros Hv. unfold owns. by setoid_rewrite (blockno_ext v v' x _ Hv).
Qed.

(** The file's bytes and structure only depend on its own blocks. *)
Lemma fbyte_ext v v' x o : 0 <= o < MAXFILE * BSIZE → (∀ b, owns v x b → v' b = v b) → fbyte v' x o = fbyte v x o.
Proof.
  intros Ho Hv. unfold fbyte. rewrite (blockno_ext v v') by (intros; apply Hv; by apply owns_ind).
  destruct (Z.eqb_spec (blockno v x (o / BSIZE)) 0) as [E|E]; [done|]. rewrite Hv; [done|]. apply owns_blockno; [|done].
  split; [apply Z.div_pos; [lia|done]|]. apply Z.div_lt_upper_bound; [done|lia].
Qed.

Lemma data_block_mono tx sb v v' out b :
  (∀ c, 0 <= c < sb_size sb → used v sb c = true → used v' sb c = true) →
  data_block tx sb v out b → data_block tx sb v' out b.
Proof. intros Hu [Hr Hus Hh Ho Hm Hi]. split; try done. apply Hu; [lia|done]. Qed.

Lemma file_ok_ext tx sb v v' out x :
  (∀ c, 0 <= c < sb_size sb → used v sb c = true → used v' sb c = true) →
  (ind_of x ≠ 0 → v' (ind_of x) = v (ind_of x)) → file_ok tx sb v out x → file_ok tx sb v' out x.
Proof.
  intros Hu Hv [Hl Ho Hj Hi]. pose proof (blockno_ext v v' x) as Hb. split; [done| | |].
  - intros b Hw. apply (owns_ext v v') in Hw; [|done]. eapply data_block_mono; [exact Hu|by apply Ho].
  - intros k k' Hk Hk'. rewrite !Hb by done. by apply Hj.
  - intros k Hk. rewrite !Hb by done. by apply Hi.
Qed.

(** Changing a block that is not of the free map. *)
(** Only the addresses of an inode matter for the bytes of its file. *)
Lemma blockno_attr v x y k : i_addrs x = i_addrs y → blockno v y k = blockno v x k.
Proof. intros E. unfold blockno, ind_of. by rewrite E. Qed.

Lemma owns_attr v x y b : i_addrs x = i_addrs y → owns v x b → owns v y b.
Proof.
  intros E [Hb [Hi|(k & Hk & Hkb)]]; (split; [done|]); [left; by rewrite Hi; unfold ind_of; rewrite E|right; exists k; by rewrite (blockno_attr v x y) by done].
Qed.

Lemma fbyte_attr v x y o : i_addrs x = i_addrs y → fbyte v y o = fbyte v x o.
Proof. intros E. unfold fbyte. by rewrite (blockno_attr v x y). Qed.

Lemma file_ok_attr tx sb v out x y : i_addrs x = i_addrs y → file_ok tx sb v out x → file_ok tx sb v out y.
Proof.
  intros E [F1 F2 F3 F4]. pose proof (λ k, blockno_attr v x y k E) as Eb. assert (ind_of y = ind_of x) as Ei by (unfold ind_of; by rewrite E). split.
  - congruence.
  - intros b Hb. apply F2. by apply (owns_attr v y x).
  - intros k k'. rewrite !Eb. apply F3.
  - intros k. rewrite Eb, Ei. apply F4.
Qed.

Lemma used_fupdz v sb b d c : ¬ map_block sb b → 0 <= c < sb_size sb → used (fupdz v b d) sb c = used v sb c.
Proof. intros Hm Hc. unfold used. rewrite fupdz_ne; [done|]. intros E. apply Hm. exists c. by split. Qed.

Lemma fs_ok_fupdz tx sb v out b d : ¬ map_block sb b → fs_ok tx sb v out → fs_ok tx sb (fupdz v b d) out.
Proof.
  intros Hm [[M1 M2 M3 M4] Hi Hk]. split; [split| |]; try done.
  - intros c Hc Hu. rewrite used_fupdz in Hu by done. by apply M4.
  - intros j Hj. destruct (Hk j Hj) as (K1 & K2 & K3). split; [done|]. split; [|done]. by rewrite used_fupdz.
Qed.

(** One more open buffer. *)
Lemma fs_ok_open tx sb v out bp b : data_block tx sb v out b → fs_ok tx sb v out → fs_ok tx sb v ((bp, b) :: out).
Proof.
  intros [Hr Hus Hh Ho Hm Hin] [[M1 M2 M3 M4] [I1 I2 I3] Hk].
  assert (∀ c, c ≠ b → c ∉ out.*2 → c ∉ ((bp, b) :: out).*2) as Hc.
  { intros c H1 H2. cbn [fmap list_fmap snd]. by apply not_elem_of_cons. }
  split; [split; [done|done| |]|split; [done|done|]|done].
  - intros c Hcr. destruct (M3 c Hcr) as [H1 H2]. split; [done|]. apply Hc; [|done]. intros E. apply Hm. exists c. by split.
  - intros c Hcr Hu. destruct (M4 c Hcr Hu) as (H1 & H2 & H3 & H4). split_and!; try done. apply Hc; [|done]. congruence.
  - intros j Hj. destruct (I3 j Hj) as [H1 H2]. split; [done|]. apply Hc; [|done]. by apply Hin.
Qed.

(** ** Allocating a block *)

Lemma alloc_view_keeps tx sb v out b c : map_ok tx sb v out → (∀ x, block_ok (v x)) → first_free v sb b →
  0 <= c < sb_size sb → used v sb c = true → ¬ map_block sb c → alloc_view v sb b c = v c.
Proof.
  intros Hm Hok Hff Hc Hu Hmb. pose proof Hff as (Hb & Hbu & _). apply alloc_view_other.
  - intros ->. congruence.
  - intros E. apply Hmb. by exists b.
Qed.

Lemma alloc_view_zero v sb b : alloc_view v sb b b = zero_block.
Proof. unfold alloc_view. apply fupdz_eq. Qed.

Lemma alloc_view_mono tx sb v out b c : map_ok tx sb v out → (∀ x, block_ok (v x)) → first_free v sb b →
  0 <= c < sb_size sb → used v sb c = true → used (alloc_view v sb b) sb c = true.
Proof. intros Hm Hok Hff Hc Hu. rewrite (alloc_view_used tx v sb out) by done. by destruct (c =? b). Qed.

Lemma alloc_fs_ok tx sb v out b : fs_ok tx sb v out → (∀ x, block_ok (v x)) → first_free v sb b →
  fs_ok tx sb (alloc_view v sb b) out.
Proof.
  intros [Hm Hi Hk] Hok Hff. split; [|done|].
  - pose proof Hm as [M1 M2 M3 M4]. split; try done. intros c Hc Hu.
    rewrite (alloc_view_used tx v sb out) in Hu by done. destruct (c =? b); [done|]. by apply M4.
  - intros j Hj. destruct (Hk j Hj) as (K1 & K2 & K3). split; [done|]. split; [|done]. by eapply alloc_view_mono.
Qed.

Lemma alloc_data_block tx sb v out b : fs_ok tx sb v out → (∀ x, block_ok (v x)) → first_free v sb b →
  data_block tx sb (alloc_view v sb b) out b.
Proof.
  intros [Hm Hi Hk] Hok Hff. pose proof Hff as (Hb & Hbu & _). destruct (mo_free _ _ _ _ Hm b Hb Hbu) as (Hnz & Hh & Ho & Hnm).
  split; try done.
  - lia.
  - rewrite (alloc_view_used tx v sb out) by done. by rewrite Z.eqb_refl.
  - intros (c & Hc & E). by apply (Hnm c Hc).
  - intros j Hj E. destruct (Hk j Hj) as (_ & Hu & _). congruence.
Qed.

Lemma owns_used tx sb v out x b : file_ok tx sb v out x → owns v x b → 0 <= b < sb_size sb ∧ used v sb b = true ∧ ¬ map_block sb b.
Proof. intros Hf Ho. destruct (fo_own _ _ _ _ _ Hf b Ho). split; [lia|done]. Qed.

Lemma alloc_file_ok tx sb v out b x : fs_ok tx sb v out → (∀ x, block_ok (v x)) → first_free v sb b →
  file_ok tx sb v out x →
  file_ok tx sb (alloc_view v sb b) out x ∧ (∀ c, owns v x c → alloc_view v sb b c = v c) ∧ ¬ owns v x b.
Proof.
  intros [Hm Hi Hk] Hok Hff Hf.
  assert (∀ c, owns v x c → alloc_view v sb b c = v c) as Hc.
  { intros c Ho. destruct (owns_used _ _ _ _ _ _ Hf Ho) as (H1 & H2 & H3). by eapply alloc_view_keeps. }
  split; [|split; [done|]].
  - eapply file_ok_ext; [|intros Hz; apply Hc; by apply owns_ind|done]. intros c Hcr Hu. by eapply alloc_view_mono.
  - intros Ho. destruct (owns_used _ _ _ _ _ _ Hf Ho) as (H1 & H2 & H3). destruct Hff as (_ & Hbu & _). congruence.
Qed.

Lemma get32_zero j : (j < 256)%nat → get32 zero_block j = 0.
Proof.
  intros Hj. unfold get32, slice, zero_block. change (Z.to_nat BSIZE) with 1024%nat.
  rewrite drop_replicate, take_replicate. replace (4 `min` (1024 - 4 * j))%nat with 4%nat by lia. reflexivity.
Qed.

Lemma zero_block_byte j : default 0 (zero_block !! j) = 0.
Proof.
  change (default 0 ((replicate 1024 0 : list Z) !! j) = 0). destruct (decide (j < 1024)%nat); [by rewrite lookup_replicate_2|].
  by rewrite lookup_ge_None_2 by (rewrite length_replicate; lia).
Qed.

(** ** Setting a block number *)

Lemma addr_lookup x k a j : length (i_addrs x) = NADDRS → (k < NADDRS)%nat →
  default 0 (i_addrs (with_addr k a x) !! j) = if decide (j = k) then a else default 0 (i_addrs x !! j).
Proof.
  intros Hl Hk. cbn [with_addr i_addrs]. case_decide; subst.
  - by rewrite list_lookup_insert_eq by lia.
  - by rewrite list_lookup_insert_ne by done.
Qed.

Lemma ind_of_direct x k a : length (i_addrs x) = NADDRS → 0 <= k < NDIRECT → ind_of (with_addr (Z.to_nat k) a x) = ind_of x.
Proof.
  intros Hl Hk. unfold ind_of. change NDIRECT with 10 in *.
  rewrite addr_lookup by (done || (change NADDRS with 11%nat; lia)). by rewrite decide_False by lia.
Qed.

Lemma ind_of_set x a : length (i_addrs x) = NADDRS → ind_of (with_addr (Z.to_nat NDIRECT) a x) = a.
Proof. intros Hl. unfold ind_of. rewrite addr_lookup by (done || (vm_compute; lia)). by rewrite decide_True. Qed.

Lemma blockno_direct v x k a j : length (i_addrs x) = NADDRS → 0 <= k < NDIRECT → 0 <= j →
  blockno v (with_addr (Z.to_nat k) a x) j = if j =? k then a else blockno v x j.
Proof.
  intros Hl Hk Hj. unfold blockno. rewrite ind_of_direct by done. change NDIRECT with 10 in *.
  destruct (Z.ltb_spec j 10).
  - rewrite addr_lookup by (done || (change NADDRS with 11%nat; lia)).
    destruct (Z.eqb_spec j k); [by rewrite decide_True by lia|by rewrite decide_False by lia].
  - by rewrite (proj2 (Z.eqb_neq j k)) by lia.
Qed.

Lemma blockno_set_ind v x a j : length (i_addrs x) = NADDRS → ind_of x = 0 → v a = zero_block → 0 <= j < MAXFILE →
  blockno v (with_addr (Z.to_nat NDIRECT) a x) j = blockno v x j.
Proof.
  intros Hl Hi Hv Hj. unfold blockno. rewrite ind_of_set, Hi, Z.eqb_refl by done. change MAXFILE with 266 in Hj. change NDIRECT with 10 in *.
  destruct (Z.ltb_spec j 10).
  - rewrite addr_lookup by (done || (vm_compute; lia)). by rewrite decide_False by lia.
  - destruct (a =? 0); [done|]. rewrite Hv. apply get32_zero. lia.
Qed.

Lemma blockno_indirect v x k a j : ind_of x ≠ 0 → block_ok (v (ind_of x)) → NDIRECT <= k < MAXFILE → 0 <= j < MAXFILE → 0 <= a < 2 ^ 32 →
  blockno (fupdz v (ind_of x) (set32 (v (ind_of x)) (Z.to_nat (k - NDIRECT)) a)) x j = if j =? k then a else blockno v x j.
Proof.
  intros Hi Hok Hk Hj Ha. unfold blockno. rewrite fupdz_eq, (proj2 (Z.eqb_neq (ind_of x) 0)) by done.
  change NDIRECT with 10 in *. change MAXFILE with 266 in *. pose proof (block_len _ Hok).
  destruct (Z.ltb_spec j 10); [by rewrite (proj2 (Z.eqb_neq j k)) by lia|].
  destruct (Z.eqb_spec j k) as [->|Hne].
  - rewrite get32_set32 by lia. by apply u32_small.
  - by rewrite get32_set32_ne by lia.
Qed.

(** A fresh block of zeros becomes block [k] of the file. *)
Lemma assign_block tx sb v v' out x x' k b :
  file_ok tx sb v out x → 0 <= k < MAXFILE → blockno v x k = 0 → data_block tx sb v out b → ¬ owns v x b → v b = zero_block →
  length (i_addrs x') = NADDRS → ind_of x' = ind_of x →
  (∀ j, 0 <= j < MAXFILE → blockno v' x' j = if j =? k then b else blockno v x j) →
  (∀ c, 0 <= c < sb_size sb → used v sb c = true → used v' sb c = true) →
  (∀ c, c ≠ ind_of x → v' c = v c) →
  file_ok tx sb v' out x' ∧ (∀ o, 0 <= o < MAXFILE * BSIZE → fbyte v' x' o = fbyte v x o) ∧
  (∀ c, owns v' x' c → owns v x c ∨ c = b).
Proof.
  intros Hf Hk Hk0 Hb Hno Hbz Hl Hi Hbn Hu Hv.
  assert (0 < b < sb_size sb) as Hbr by apply Hb.
  assert (b ≠ ind_of x) as Hbi.
  { intros E. apply Hno. rewrite E. apply owns_ind. lia. }
  assert (∀ c, owns v' x' c → owns v x c ∨ c = b) as Hown.
  { intros c (Hc & [Hci|(j & Hj & Hjc)]).
    - left. split; [done|]. left. congruence.
    - rewrite Hbn in Hjc by done. destruct (j =? k); [by right|]. left. split; [done|]. right. by exists j. }
  split; [split|split]; try done.
  - intros c Hc. destruct (Hown c Hc) as [Ho| ->]; (eapply data_block_mono; [exact Hu|]); [by apply (fo_own _ _ _ _ _ Hf)|done].
  - intros j j' Hj Hj'. rewrite !Hbn by done. destruct (Z.eqb_spec j k) as [->|Hjk], (Z.eqb_spec j' k) as [->|Hjk']; try done.
    + intros _ E. exfalso. apply Hno. rewrite E. apply owns_blockno; [done|lia].
    + intros Hnz E. exfalso. apply Hno. rewrite <- E. by apply owns_blockno.
    + by apply (fo_inj _ _ _ _ _ Hf).
  - intros j Hj. rewrite Hbn, Hi by done. destruct (j =? k); [done|]. by apply (fo_ind _ _ _ _ _ Hf).
  - intros o Ho. unfold fbyte. assert (0 <= o / BSIZE < MAXFILE) as Hor.
    { split; [apply Z.div_pos; [lia|done]|]. apply Z.div_lt_upper_bound; [done|lia]. }
    rewrite Hbn by done. destruct (Z.eqb_spec (o / BSIZE) k) as [->|Hne].
    + rewrite Hk0, Z.eqb_refl, (proj2 (Z.eqb_neq b 0)) by lia. rewrite Hv, Hbz by done. apply zero_block_byte.
    + destruct (Z.eqb_spec (blockno v x (o / BSIZE)) 0) as [E|E]; [done|]. rewrite Hv; [done|]. by apply (fo_ind _ _ _ _ _ Hf).
Qed.

(** A fresh block of zeros becomes the indirect block. *)
Lemma assign_ind tx sb v out x b :
  file_ok tx sb v out x → ind_of x = 0 → data_block tx sb v out b → ¬ owns v x b → v b = zero_block →
  let x' := with_addr (Z.to_nat NDIRECT) b x in
  file_ok tx sb v out x' ∧ (∀ k, 0 <= k < MAXFILE → blockno v x' k = blockno v x k) ∧
  (∀ o, 0 <= o < MAXFILE * BSIZE → fbyte v x' o = fbyte v x o) ∧ (∀ c, owns v x' c → owns v x c ∨ c = b).
Proof.
  intros Hf Hi Hb Hno Hbz x'. pose proof (fo_len _ _ _ _ _ Hf) as Hl.
  assert (∀ k, 0 <= k < MAXFILE → blockno v x' k = blockno v x k) as Hbn by (intros k Hk; by apply blockno_set_ind).
  assert (ind_of x' = b) as Hi' by (by apply ind_of_set).
  assert (∀ c, owns v x' c → owns v x c ∨ c = b) as Hown.
  { intros c (Hc & [Hci|(j & Hj & Hjc)]); [right; congruence|]. left. split; [done|]. right. exists j. by rewrite <- Hbn. }
  split; [split|split; [done|split; [|done]]].
  - cbn [x' with_addr i_addrs]. by rewrite length_insert.
  - intros c Hc. destruct (Hown c Hc) as [Ho| ->]; [by apply (fo_own _ _ _ _ _ Hf)|done].
  - intros j j' Hj Hj'. rewrite !Hbn by done. by apply (fo_inj _ _ _ _ _ Hf).
  - intros j Hj. rewrite Hbn, Hi' by done. intros Hnz E. apply Hno. rewrite <- E. by apply owns_blockno.
  - intros o Ho. unfold fbyte. rewrite Hbn; [done|]. split; [apply Z.div_pos; [lia|done]|]. apply Z.div_lt_upper_bound; [done|lia].
Qed.

(** ** [bmap]

    What may happen to the file system while the file of table entry [i] grows: its
    blocks stay, its bytes become [g], new blocks come from the free ones. *)

Definition same_attr (x x' : inode) : Prop := x' = Inode (i_dev x) (i_inum x) (i_ref x) (i_valid x) (i_type x) (i_major x)
  (i_minor x) (i_nlink x) (i_size x) (i_addrs x').

Record grown (tx : txinfo) (h : list lockname) (out : list (nat * Z)) (i : nat) (g : Z → Z)
    s (lg : list Z) (v : Z → block) (x : inode) s' (lg' : list Z) (v' : Z → block) (x' : inode) : Prop := {
  gr_rep : frep tx h s' (Tx v' out lg' []);
  gr_ok : fs_ok tx (f_sb s) v' out;
  gr_file : file_ok tx (f_sb s) v' out x';
  gr_sb : f_sb s' = f_sb s;
  gr_tab : f_itable s' = <[i := x']> (f_itable s);
  gr_attr : same_attr x x';
  gr_addr : Forall (λ a, 0 <= a < 2 ^ 32) (i_addrs x) → Forall (λ a, 0 <= a < 2 ^ 32) (i_addrs x');
  gr_keep : ∀ k, 0 <= k < MAXFILE → blockno v x k ≠ 0 → blockno v' x' k = blockno v x k;
  gr_byte : ∀ o, 0 <= o < MAXFILE * BSIZE → fbyte v' x' o = g o;
  gr_used : ∀ c, 0 <= c < sb_size (f_sb s) → used v (f_sb s) c = true → used v' (f_sb s) c = true;
  gr_owns : ∀ c, owns v' x' c → owns v x c ∨ used v (f_sb s) c = false;
  gr_frame : ∀ c, 0 <= c < sb_size (f_sb s) → used v (f_sb s) c = true → ¬ owns v x c → ¬ map_block (f_sb s) c → v' c = v c }.

Lemma same_attr_refl x : same_attr x x.
Proof. by destruct x. Qed.

Lemma same_attr_trans x y z : same_attr x y → same_attr y z → same_attr x z.
Proof. unfold same_attr. intros E1 ->. rewrite E1. done. Qed.

Lemma grown_trans tx h out i g1 g2 s1 lg1 v1 x1 s2 lg2 v2 x2 s3 lg3 v3 x3 :
  grown tx h out i g1 s1 lg1 v1 x1 s2 lg2 v2 x2 → grown tx h out i g2 s2 lg2 v2 x2 s3 lg3 v3 x3 →
  grown tx h out i g2 s1 lg1 v1 x1 s3 lg3 v3 x3.
Proof.
  intros [R1 K1 F1 S1 T1 A1 D1 P1 B1 U1 O1 M1] [R2 K2 F2 S2 T2 A2 D2 P2 B2 U2 O2 M2].
  rewrite S1 in *. split; try done.
  - by rewrite T2, T1, list_insert_insert_eq.
  - by eapply same_attr_trans.
  - auto.
  - intros k Hk Hz. rewrite P2; [by apply P1|done|]. by rewrite P1.
  - auto.
  - intros c Hc. destruct (O2 c Hc) as [H1|H1]; [by apply O1|]. right.
    destruct (used v1 (f_sb s1) c) eqn:E; [|done].
    destruct (owns_used _ _ _ _ _ _ F2 Hc) as (_ & _ & _). rewrite U1 in H1; [done| |done].
    destruct (fo_own _ _ _ _ _ F2 c Hc). lia.
  - intros c Hc Hu Ho Hm. rewrite M2; [by apply M1|done|by apply U1| |done].
    intros Ho2. destruct (O1 c Ho2) as [Ho1|Hf]; [done|congruence].
Qed.

Lemma grown_ext tx h out i g g' s lg v x s' lg' v' x' :
  grown tx h out i g s lg v x s' lg' v' x' → (∀ o, 0 <= o < MAXFILE * BSIZE → g' o = g o) →
  grown tx h out i g' s lg v x s' lg' v' x'.
Proof. intros [] Hg. split; try done. intros o Ho. rewrite Hg; auto. Qed.

Lemma grown_same tx h out i s lg v x s' :
  fs_ok tx (f_sb s) v out → file_ok tx (f_sb s) v out x → f_itable s !! i = Some x →
  f_sb s' = f_sb s → f_itable s' = f_itable s → frep tx h s' (Tx v out lg []) → grown tx h out i (fbyte v x) s lg v x s' lg v x.
Proof.
  intros Hk Hf Hx Esb Et Hr. split; auto.
  - by rewrite Et, list_insert_id.
  - apply same_attr_refl.
Qed.

(** [balloc] as the file sees it. *)
Lemma balloc_file tx h s v out lg x :
  frep tx h s (Tx v out lg []) → fs_ok tx (f_sb s) v out → file_ok tx (f_sb s) v out x →
  (length lg + length out < 28)%nat → Z.of_nat (length lg) + 2 <= tx_cap tx →
  (∃ b s' v' lg', balloc ROOTDEV (Thread h s) = Ok b (Thread h s') ∧ b ≠ 0 ∧ same_mem s s' ∧ frep tx h s' (Tx v' out lg' []) ∧
     fs_ok tx (f_sb s) v' out ∧ file_ok tx (f_sb s) v' out x ∧ data_block tx (f_sb s) v' out b ∧
     ¬ owns v' x b ∧ v' b = zero_block ∧ (∀ c, owns v x c → v' c = v c) ∧
     (∀ c, 0 <= c < sb_size (f_sb s) → used v (f_sb s) c = true → used v' (f_sb s) c = true) ∧ used v (f_sb s) b = false ∧
     (∀ c, 0 <= c < sb_size (f_sb s) → used v (f_sb s) c = true → ¬ map_block (f_sb s) c → v' c = v c) ∧
     (length lg <= length lg' <= length lg + 2)%nat) ∨
  (∃ s', balloc ROOTDEV (Thread h s) = Ok 0 (Thread h s') ∧
     (∀ c, 0 <= c < sb_size (f_sb s) → used v (f_sb s) c = true) ∧
     f_sb s' = f_sb s ∧ f_itable s' = f_itable s ∧ frep tx h s' (Tx v out lg [])).
Proof.
  intros Hr Hk Hf Hl Hcap. assert (∀ b, block_ok (v b)) as Hok by (intros b; apply (brep_ok _ _ _ _ b Hr)).
  destruct (balloc_run tx h s v out lg Hr (fk_map _ _ _ _ Hk) Hl Hcap)
    as [(b & s' & E & Hff & M & R)|(s' & E & Hall & S1 & S2 & _ & R)]; [left|right; by exists s'].
  pose proof Hff as (Hb & Hbu & _). destruct (mo_free _ _ _ _ (fk_map _ _ _ _ Hk) b Hb Hbu) as (Hnz & _).
  destruct (alloc_file_ok _ _ _ _ b x Hk Hok Hff Hf) as (F1 & F2 & F3).
  exists b, s', (alloc_view v (f_sb s) b), (alloc_log lg (f_sb s) b). split_and!; try done.
  - by apply alloc_fs_ok.
  - by apply alloc_data_block.
  - rewrite (owns_ext v); [done|]. intros Hz. apply F2. by apply owns_ind.
  - apply alloc_view_zero.
  - intros c Hc Hu. eapply alloc_view_mono; [apply Hk|done..].
  - intros c Hc Hu Hm. eapply alloc_view_keeps; [apply Hk|done..].
  - unfold alloc_log. pose proof (length_log_add lg (b / BPB + sb_bmapstart (f_sb s))).
    pose proof (length_log_add (log_add lg (b / BPB + sb_bmapstart (f_sb s))) b). lia.
  - unfold alloc_log. pose proof (length_log_add lg (b / BPB + sb_bmapstart (f_sb s))).
    pose proof (length_log_add (log_add lg (b / BPB + sb_bmapstart (f_sb s))) b). lia.
Qed.

Lemma blockno_lt v x k : k < NDIRECT → blockno v x k = default 0 (i_addrs x !! Z.to_nat k).
Proof. intros Hk. unfold blockno. by rewrite (proj2 (Z.ltb_lt k NDIRECT)) by done. Qed.

Lemma blockno_ge v x k : NDIRECT <= k → ind_of x ≠ 0 → blockno v x k = get32 (v (ind_of x)) (Z.to_nat (k - NDIRECT)).
Proof.
  intros Hk Hi. unfold blockno. rewrite (proj2 (Z.ltb_ge k NDIRECT)) by done. by rewrite (proj2 (Z.eqb_neq (ind_of x) 0)).
Qed.

(** A block that is there. *)
Lemma bmap_hit tx h s v out lg i x k :
  frep tx h s (Tx v out lg []) → file_ok tx (f_sb s) v out x → f_itable s !! i = Some x → i_dev x = ROOTDEV →
  0 <= k < MAXFILE → blockno v x k ≠ 0 → (length lg + length out < 29)%nat →
  ∃ s', bmap i k (Thread h s) = Ok (blockno v x k) (Thread h s') ∧ same_mem s s' ∧ frep tx h s' (Tx v out lg []).
Proof.
  intros Hr Hf Hx Hd Hk Hz Hl. unfold bmap. kstep. cbn [st]. rewrite (geti_lookup i s x Hx), Hd.
  destruct (Z.ltb_spec k NDIRECT) as [Hlt|Hge].
  - rewrite <- (blockno_lt v x k Hlt), (proj2 (Z.eqb_neq _ 0) Hz). exists s. split; [done|]. split; [apply same_mem_refl|done].
  - change NDIRECT with 10 in *. change MAXFILE with 266 in *.
    assert (ind_of x ≠ 0) as Hi.
    { intros E. unfold blockno in Hz. rewrite E in Hz. change NDIRECT with 10 in Hz. by rewrite (proj2 (Z.ltb_ge k 10) Hge) in Hz. }
    rewrite u32_small by lia. change NINDIRECT with 256. rewrite (proj2 (Z.ltb_lt (k - 10) 256)) by lia.
    change (default 0 (i_addrs x !! Z.to_nat 10)) with (ind_of x). rewrite (proj2 (Z.eqb_neq _ 0) Hi). kstep. rewrite (proj2 (Z.eqb_neq _ 0) Hi).
    destruct (ind_owned _ _ _ _ _ Hf Hi) as [_ _ _ Ho _ _].
    destruct (blk_bread_run tx h s v out lg (ind_of x) Hr Ho Hl) as (bp & s1 & E1 & R1 & Hbp & M1 & D1).
    rewrite (bind_Ok _ _ _ _ _ E1), (bind_Ok _ _ _ _ _ D1).
    pose proof (blockno_ge v x k Hge Hi) as Eb. change NDIRECT with 10 in Eb. rewrite <- Eb.
    rewrite (proj2 (Z.eqb_neq _ 0) Hz). kstep.
    destruct (blk_brelse_run tx h s1 v out lg bp _ R1 Hbp) as (s2 & E2 & M2 & R2).
    exists s2. rewrite (bind_Ok _ _ _ _ _ E2). split; [done|]. split; [by eapply same_mem_trans|done].
Qed.

(** The part of [bmap] behind the indirect block. *)
Definition bmap_indirect (k : Z) (addr : Z) : M (fs B) Z :=
  let! bp := blk (bread ROOTDEV addr) in
  let! d := data_of bp in
  let addr := get32 d (Z.to_nat k) in
  let! addr :=
    (if addr =? 0 then
       let! addr := balloc ROOTDEV in
       (if addr =? 0 then ret tt else set_data bp (λ d, set32 d (Z.to_nat k) addr) ;;; blk (log_write bp)) ;;;
       ret addr
     else ret addr) in
  blk (brelse bp) ;;;
  ret addr.

(** The outcome of a [bmap] of block [k]: the file has grown, by that block unless
    the disk is full. *)
Definition bmapped (tx : txinfo) (h : list lockname) (out : list (nat * Z)) (i : nat) (k : Z) (n : nat)
    s (lg : list Z) (v : Z → block) (x : inode) (r : outcome (fs B) Z) : Prop :=
  ∃ s' lg' v' x', r = Ok (blockno v' x' k) (Thread h s') ∧ grown tx h out i (fbyte v x) s lg v x s' lg' v' x' ∧
    (length lg <= length lg' <= length lg + n)%nat ∧
    (blockno v' x' k = 0 → ∀ c, 0 <= c < sb_size (f_sb s) → used v' (f_sb s) c = true).

Lemma file_ok_open tx sb v out bp b x :
  file_ok tx sb v out x → b = ind_of x → ∀ c, owns v x c → c ≠ b → data_block tx sb v ((bp, b) :: out) c.
Proof.
  intros Hf Hb c Hc Hne. destruct (fo_own _ _ _ _ _ Hf c Hc). split; try done. cbn [fmap list_fmap snd]. by apply not_elem_of_cons.
Qed.

Lemma bmap_indirect_run tx h s v out lg i x k :
  frep tx h s (Tx v out lg []) → fs_ok tx (f_sb s) v out → file_ok tx (f_sb s) v out x → f_itable s !! i = Some x →
  NDIRECT <= k < MAXFILE → ind_of x ≠ 0 → blockno v x k = 0 →
  (length lg + length out < 26)%nat → Z.of_nat (length lg) + 3 <= tx_cap tx →
  bmapped tx h out i k 3 s lg v x (bmap_indirect (k - NDIRECT) (ind_of x) (Thread h s)).
Proof.
  intros Hr Hk Hf Hx Hkr Hi Hz Hl Hcap. set (ib := ind_of x) in *.
  pose proof (ind_owned _ _ _ _ _ Hf Hi) as Hdb. fold ib in Hdb.
  destruct (blk_bread_run tx h s v out lg ib Hr (db_out _ _ _ _ _ Hdb) ltac:(lia)) as (bp & s1 & E1 & R1 & Hbp & M1 & D1).
  unfold bmap_indirect. rewrite (bind_Ok _ _ _ _ _ E1), (bind_Ok _ _ _ _ _ D1).
  pose proof (blockno_ge v x k ltac:(lia) Hi) as Eb. fold ib in Eb. rewrite <- Eb, Hz, Z.eqb_refl.
  pose proof (same_mem_sb _ _ M1) as Sb1. pose proof (same_mem_itable _ _ M1) as St1.
  assert (∀ b, block_ok (v b)) as Hok by (intros b; apply (brep_ok _ _ _ _ b Hr)).
  assert (fs_ok tx (f_sb s1) v ((bp, ib) :: out)) as Hk1 by (rewrite Sb1; by apply fs_ok_open).
  destruct (balloc_run tx _ s1 v _ lg R1 (fk_map _ _ _ _ Hk1)) as [(b & s2 & E2 & Hff & M2 & R2)|(s2 & E2 & Hall & S1 & S2 & _ & R2)];
    [cbn; lia|lia| |].
  - rewrite bind_assoc, (bind_Ok _ _ _ _ _ E2). rewrite Sb1 in *. pose proof Hff as (Hb & Hbu & _).
    destruct (mo_free _ _ _ _ (fk_map _ _ _ _ Hk) b Hb Hbu) as (Hnz & _). rewrite (proj2 (Z.eqb_neq b 0) Hnz).
    destruct (alloc_file_ok _ _ _ _ b x Hk Hok Hff Hf) as (F1 & F2 & F3).
    set (v2 := alloc_view v (f_sb s) b) in *. set (lg2 := alloc_log lg (f_sb s) b) in *.
    assert (length lg <= length lg2 <= length lg + 2)%nat as Hlg2.
    { subst lg2. unfold alloc_log. pose proof (length_log_add lg (b / BPB + sb_bmapstart (f_sb s))).
      pose proof (length_log_add (log_add lg (b / BPB + sb_bmapstart (f_sb s))) b). lia. }
    assert (v2 ib = v ib) as Hib by (apply F2; by apply owns_ind).
    assert (block_ok (set32 (v2 ib) (Z.to_nat (k - NDIRECT)) b)) as Hok2.
    { apply set32_ok; [|by rewrite Hib]. change NDIRECT with 10 in *. change MAXFILE with 266 in *. change (Z.to_nat BSIZE) with 1024%nat. lia. }
    destruct (set_data_run tx _ s2 v2 _ lg2 bp ib (λ d, set32 d (Z.to_nat (k - NDIRECT)) b) R2 (list_elem_of_here _ _) Hok2)
      as (s3 & E3 & M3 & R3).
    destruct (blk_log_write_run tx _ s3 _ _ lg2 bp ib [ib] R3 (list_elem_of_here _ _)) as (s4 & E4 & M4 & R4);
      [done|apply Hdb|lia|].
    rewrite (bind_assoc (bind _ _)), bind_assoc, (bind_Ok _ _ _ _ _ E3), (bind_Ok _ _ _ _ _ E4). kstep.
    set (v4 := fupdz v2 ib (set32 (v2 ib) (Z.to_nat (k - NDIRECT)) b)) in *.
    destruct (blk_brelse_run tx h s4 v4 out _ bp ib R4 Hbp) as (s5 & E5 & M5 & R5). rewrite (bind_Ok _ _ _ _ _ E5).
    assert (same_mem s s5) as M by (eapply same_mem_trans; [exact M1|]; eapply same_mem_trans; [exact M2|];
      eapply same_mem_trans; [exact M3|]; by eapply same_mem_trans).
    assert (0 <= b < 2 ^ 32) as Hb32 by (pose proof (mo_size _ _ _ _ (fk_map _ _ _ _ Hk)); lia).
    assert (∀ j, 0 <= j < MAXFILE → blockno v4 x j = if j =? k then b else blockno v2 x j) as Hbn.
    { intros j Hj. subst v4 ib. apply blockno_indirect; [done| |done..]. by rewrite Hib. }
    assert (¬ map_block (f_sb s) ib) as Hmi by apply Hdb.
    assert (∀ c, 0 <= c < sb_size (f_sb s) → used v2 (f_sb s) c = true → used v4 (f_sb s) c = true) as Hu4.
    { intros c Hc. subst v4. by rewrite used_fupdz. }
    destruct (assign_block tx (f_sb s) v2 v4 out x x k b F1) as (G1 & G2 & G3); try done.
    { change NDIRECT with 10 in *. lia. }
    { rewrite (blockno_ext v v2); [done|]. done. }
    { by apply alloc_data_block. }
    { rewrite (owns_ext v v2); done. }
    { apply alloc_view_zero. }
    { apply (fo_len _ _ _ _ _ Hf). }
    { intros c Hc. subst v4. by apply fupdz_ne. }
    assert (blockno v4 x k = b) as Ek by (rewrite Hbn, Z.eqb_refl; [done|change NDIRECT with 10 in *; lia]).
    exists s5, (log_add lg2 ib), v4, x. rewrite Ek. split; [done|]. split; [|split; [|intros; lia]].
    + split; try done.
      * apply fs_ok_fupdz; [done|]. by apply alloc_fs_ok.
      * by apply same_mem_sb.
      * rewrite list_insert_id by done. by apply same_mem_itable.
      * apply same_attr_refl.
      * intros j Hj Hjz. rewrite Hbn by done. destruct (Z.eqb_spec j k) as [->|]; [congruence|]. by apply blockno_ext.
      * intros o Ho. rewrite G2 by done. by apply fbyte_ext.
      * intros c Hc Hu. apply Hu4; [done|]. eapply alloc_view_mono; [apply Hk|done..].
      * intros c Hc. destruct (G3 c Hc) as [Hc2| ->]; [|by right]. left. by apply (owns_ext v v2).
      * intros c Hc Hu Ho Hm. subst v4. rewrite fupdz_ne.
        -- eapply alloc_view_keeps; [apply Hk|done..].
        -- intros ->. apply Ho. by apply owns_ind.
    + pose proof (length_log_add lg2 ib). lia.
  - rewrite bind_assoc, (bind_Ok _ _ _ _ _ E2), Z.eqb_refl. kstep. kstep. kstep.
    destruct (blk_brelse_run tx h s2 v out lg bp ib R2 Hbp) as (s3 & E3 & M3 & R3). rewrite (bind_Ok _ _ _ _ _ E3).
    exists s3, lg, v, x. rewrite Hz. split; [done|]. split; [|split; [lia|]].
    + apply grown_same; try done.
      * rewrite (same_mem_sb _ _ M3). congruence.
      * rewrite (same_mem_itable _ _ M3). congruence.
    + intros _. by rewrite Sb1 in Hall.
Qed.

Lemma same_attr_addr k a x : same_attr x (with_addr k a x).
Proof. by destruct x. Qed.

Lemma Forall_with_addr k a x : 0 <= a < 2 ^ 32 → Forall (λ a, 0 <= a < 2 ^ 32) (i_addrs x) → Forall (λ a, 0 <= a < 2 ^ 32) (i_addrs (with_addr k a x)).
Proof. intros Ha Hx. cbn [with_addr i_addrs]. by apply Forall_insert. Qed.

Lemma upd_inode_tab i f s s' x : same_mem s s' → f_itable s !! i = Some x → f_itable (upd_inode i f s') = <[i := f x]> (f_itable s).
Proof.
  intros M Hx. unfold upd_inode. cbn [set_itable f_itable]. rewrite (same_mem_geti s s'), (same_mem_itable s s'), (geti_lookup i s x Hx) by done. done.
Qed.

Lemma bmap_direct_run tx h s v out lg i x k :
  frep tx h s (Tx v out lg []) → fs_ok tx (f_sb s) v out → file_ok tx (f_sb s) v out x → f_itable s !! i = Some x → i_dev x = ROOTDEV →
  0 <= k < NDIRECT → blockno v x k = 0 → (length lg + length out < 28)%nat → Z.of_nat (length lg) + 2 <= tx_cap tx →
  bmapped tx h out i k 2 s lg v x (bmap i k (Thread h s)).
Proof.
  intros Hr Hk Hf Hx Hd Hkr Hz Hl Hcap. unfold bmap. kstep. cbn [st]. rewrite (geti_lookup i s x Hx), Hd.
  rewrite (proj2 (Z.ltb_lt k NDIRECT)) by lia. rewrite <- (blockno_lt v x k), Hz, Z.eqb_refl by lia.
  destruct (balloc_file tx h s v out lg x Hr Hk Hf Hl Hcap)
    as [(b & s1 & v1 & lg1 & E & Hnz & M & R & K1 & F1 & D1 & N1 & Z1 & V1 & U1 & B1 & W1 & L1)|(s1 & E & Hall & S1 & S2 & R)];
    rewrite (bind_Ok _ _ _ _ _ E).
  - rewrite (proj2 (Z.eqb_neq b 0) Hnz). kstep. assert (k < MAXFILE) as Hkm by (change NDIRECT with 10 in *; change MAXFILE with 266; lia).
    pose proof (fo_len _ _ _ _ _ Hf) as Hlen.
    assert (∀ j, 0 <= j → blockno v1 x j = blockno v x j) as Ebn.
    { intros j Hj. apply blockno_ext. intros Hi. apply V1. by apply owns_ind. }
    assert (∀ j, 0 <= j < MAXFILE → blockno v1 (with_addr (Z.to_nat k) b x) j = if j =? k then b else blockno v1 x j) as Hbn
      by (intros j Hj; apply blockno_direct; [done|done|lia]).
    destruct (assign_block tx (f_sb s) v1 v1 out x (with_addr (Z.to_nat k) b x) k b F1) as (G1 & G2 & G3); try done.
    { lia. } { rewrite Ebn by lia. done. } { cbn [with_addr i_addrs]. by rewrite length_insert. } { by apply ind_of_direct. }
    assert (blockno v1 (with_addr (Z.to_nat k) b x) k = b) as Ek by (rewrite Hbn, Z.eqb_refl; [done|lia]).
    assert (0 <= b < 2 ^ 32) as Hb32.
    { pose proof (mo_size _ _ _ _ (fk_map _ _ _ _ Hk)). destruct (db_range _ _ _ _ _ D1). lia. }
    eexists _, lg1, v1, (with_addr (Z.to_nat k) b x). rewrite Ek. split; [reflexivity|]. split; [|split; [lia|intros; lia]].
    split; try done.
    + exact (same_mem_sb _ _ M).
    + exact (upd_inode_tab _ _ _ _ _ M Hx).
    + by apply Forall_with_addr.
    + intros j Hj Hjz. rewrite Hbn by done. destruct (Z.eqb_spec j k) as [->|]; [congruence|]. apply Ebn. lia.
    + intros o Ho. rewrite G2 by done. by apply fbyte_ext.
    + intros c Hc. destruct (G3 c Hc) as [Hc2| ->]; [|by right]. left. apply (owns_ext v v1); [|done]. intros Hi. apply V1. by apply owns_ind.
    + intros c Hc Hu _ Hm. by apply W1.
  - rewrite Z.eqb_refl. exists s1, lg, v, x. rewrite Hz. split; [done|]. split; [|split; [lia|done]]. by apply grown_same.
Qed.

Lemma bmap_eq k i x s h : f_itable s !! i = Some x → i_dev x = ROOTDEV → NDIRECT <= k < MAXFILE →
  bmap i k (Thread h s) =
    (let! addr := (if ind_of x =? 0 then
       let! addr := balloc ROOTDEV in
       (if addr =? 0 then ret tt else modify (upd_inode i (with_addr (Z.to_nat NDIRECT) addr))) ;;;
       ret addr else ret (ind_of x)) in
     if addr =? 0 then ret 0 else bmap_indirect (k - NDIRECT) addr) (Thread h s).
Proof.
  intros Hx Hd Hk. unfold bmap. kstep. cbn [st]. rewrite (geti_lookup i s x Hx), Hd, (proj2 (Z.ltb_ge k NDIRECT)) by lia.
  change NDIRECT with 10 in *. change MAXFILE with 266 in *. rewrite u32_small by lia. change NINDIRECT with 256.
  by rewrite (proj2 (Z.ltb_lt (k - 10) 256)) by lia.
Qed.

Lemma bmap_run tx h s v out lg i x k :
  frep tx h s (Tx v out lg []) → fs_ok tx (f_sb s) v out → file_ok tx (f_sb s) v out x → f_itable s !! i = Some x → i_dev x = ROOTDEV →
  0 <= k < MAXFILE → (length lg + length out < 24)%nat → Z.of_nat (length lg) + 5 <= tx_cap tx →
  bmapped tx h out i k 5 s lg v x (bmap i k (Thread h s)).
Proof.
  intros Hr Hk Hf Hx Hd Hkr Hl Hcap. destruct (decide (blockno v x k = 0)) as [Hz|Hnz].
  - destruct (decide (k < NDIRECT)) as [Hlt|Hge].
    + destruct (bmap_direct_run tx h s v out lg i x k) as (s' & lg' & v' & x' & E & G & L & A); try done; [lia|lia|lia|].
      exists s', lg', v', x'. split; [done|]. split; [done|]. split; [lia|done].
    + rewrite (bmap_eq k i x) by (done || lia). destruct (Z.eqb_spec (ind_of x) 0) as [Hi|Hi].
      * destruct (balloc_file tx h s v out lg x Hr Hk Hf ltac:(lia) ltac:(lia))
          as [(b & s1 & v1 & lg1 & E & Hbnz & M & R & K1 & F1 & D1 & N1 & Z1 & V1 & U1 & B1 & W1 & L1)|(s1 & E & Hall & S1 & S2 & R)];
          rewrite bind_assoc, (bind_Ok _ _ _ _ _ E).
        -- rewrite (proj2 (Z.eqb_neq b 0) Hbnz). kstep. kstep. kstep. rewrite (proj2 (Z.eqb_neq b 0) Hbnz).
           destruct (assign_ind tx (f_sb s) v1 out x b F1 Hi D1 N1 Z1) as (G1 & G2 & G3 & G4).
           set (x1 := with_addr (Z.to_nat NDIRECT) b x) in *. set (s2 := upd_inode _ _ s1).
           assert (f_itable s2 = <[i := x1]> (f_itable s)) as Et by exact (upd_inode_tab _ _ _ _ _ M Hx).
           assert (f_sb s2 = f_sb s) as Es by exact (same_mem_sb _ _ M).
           assert (f_itable s2 !! i = Some x1) as Hx1.
           { rewrite Et. apply list_lookup_insert_eq. by eapply lookup_lt_Some. }
           assert (ind_of x1 = b) as Hi1 by (apply ind_of_set; apply (fo_len _ _ _ _ _ Hf)).
           assert (∀ j, 0 <= j → blockno v1 x j = blockno v x j) as Ebn.
           { intros j Hj. by apply blockno_ext. }
           assert (0 <= b < 2 ^ 32) as Hb32.
           { pose proof (mo_size _ _ _ _ (fk_map _ _ _ _ Hk)). destruct (db_range _ _ _ _ _ D1). lia. }
           assert (grown tx h out i (fbyte v x) s lg v x s2 lg1 v1 x1) as Gr1.
           { split; try done.
             - by apply Forall_with_addr.
             - intros j Hj _. rewrite G2 by done. apply Ebn. lia.
             - intros o Ho. rewrite G3 by done. by apply fbyte_ext.
             - intros c Hc. destruct (G4 c Hc) as [Hc2| ->]; [|by right]. left. by apply (owns_ext v v1).
             - intros c Hc Hu _ Hm. by apply W1. }
           destruct (bmap_indirect_run tx h s2 v1 out lg1 i x1 k) as (s' & lg' & v' & x' & E' & G' & L' & A'); try done.
           ++ by rewrite Es.
           ++ by rewrite Es.
           ++ lia.
           ++ by rewrite Hi1.
           ++ rewrite G2, Ebn by lia. done.
           ++ lia.
           ++ lia.
           ++ rewrite Hi1 in E'. exists s', lg', v', x'. split; [exact E'|]. split.
              { eapply grown_ext; [by eapply grown_trans|]. intros o Ho. symmetry. by apply (gr_byte _ _ _ _ _ _ _ _ _ _ _ _ _ Gr1). }
              split; [lia|]. by rewrite Es in A'.
        -- rewrite Z.eqb_refl. kstep. kstep. kstep. exists s1, lg, v, x. rewrite Hz. split; [done|].
           split; [|split; [lia|done]]. by apply grown_same.
      * kstep. rewrite (proj2 (Z.eqb_neq _ 0) Hi).
        destruct (bmap_indirect_run tx h s v out lg i x k) as (s' & lg' & v' & x' & E & G & L & A); try done; [lia|lia|lia|].
        exists s', lg', v', x'. split; [done|]. split; [done|]. split; [lia|done].
  - destruct (bmap_hit tx h s v out lg i x k) as (s' & E & M & R); try done; [lia|].
    exists s', lg, v, x. split; [done|]. split; [|split; [lia|done]]. apply grown_same; try done; [by apply same_mem_sb|by apply same_mem_itable].
Qed.

(** ** [readi] *)

(** [m] bytes of a file from an offset, and the pieces of whole or partial blocks
    that they are transferred in. *)
Definition fbytes (f : Z → Z) (off m : Z) : list Z := f <$> seqZ off m.

Definition piece (off n : Z) : Z := Z.min n (BSIZE - off mod BSIZE).

Fixpoint pieces (fuel : nat) (f : Z → Z) (off n : Z) : list (list Z) :=
  match fuel with
  | O => []
  | S fuel => if 0 <? n then fbytes f off (piece off n) :: pieces fuel f (off + piece off n) (n - piece off n) else []
  end.

(** Copying pieces one after the other. *)
Fixpoint feed {A} (copyout : copyout_fn A) (mem : A) (dst : Z) (ps : list (list Z)) : A * bool :=
  match ps with
  | [] => (mem, true)
  | p :: ps => let '(mem, ok) := copyout mem dst p in
               if ok then feed copyout mem (u64 (dst + Z.of_nat (length p))) ps else (mem, false)
  end.

(** Enough rounds for [n] bytes at [off]. *)
Definition enough (fuel : nat) (off n : Z) : Prop :=
  (1 <= fuel)%nat ∧ (0 < n → n + off mod BSIZE <= BSIZE * (Z.of_nat fuel - 1)).

Lemma enough_io off n : 0 <= n → enough (io_fuel n) off n.
Proof.
  intros Hn. split; [unfold io_fuel; lia|]. intros _. unfold io_fuel. change BSIZE with 1024.
  pose proof (Z.mod_pos_bound off 1024 ltac:(done)). pose proof (Z.div_mod n 1024 ltac:(done)). pose proof (Z.mod_pos_bound n 1024 ltac:(done)).
  rewrite !Nat2Z.inj_succ, Z2Nat.id by (apply Z.div_pos; lia). lia.
Qed.

Lemma piece_range off n : 0 < n → 0 < piece off n <= n ∧ piece off n <= BSIZE - off mod BSIZE.
Proof. intros Hn. unfold piece. pose proof (Z.mod_pos_bound off BSIZE ltac:(done)). lia. Qed.

Lemma enough_next fuel off n : 0 < n → enough (S fuel) off n → enough fuel (off + piece off n) (n - piece off n).
Proof.
  intros Hn [_ He]. specialize (He Hn). unfold enough, piece in *. change BSIZE with 1024 in *.
  pose proof (Z.mod_pos_bound off 1024 ltac:(done)) as Hm.
  destruct (Z.min_spec n (1024 - off mod 1024)) as [[H1 ->]|[H1 ->]].
  - split; [lia|lia].
  - split; [lia|]. intros H2. replace (off + (1024 - off mod 1024)) with ((off / 1024 + 1) * 1024).
    + rewrite Z.mod_mul by done. lia.
    + pose proof (Z.div_mod off 1024 ltac:(done)). lia.
Qed.

Lemma enough_pos fuel off n : enough fuel off n → ∃ k, fuel = S k.
Proof. intros [H1 _]. exists (pred fuel). lia. Qed.

Lemma fbytes_app f off m n : 0 <= m → 0 <= n → fbytes f off (m + n) = fbytes f off m ++ fbytes f (off + m) n.
Proof. intros Hm Hn. unfold fbytes. by rewrite seqZ_app, fmap_app. Qed.

Lemma length_fbytes f off m : length (fbytes f off m) = Z.to_nat m.
Proof. unfold fbytes. by rewrite length_fmap, length_seqZ. Qed.

Lemma pieces_concat fuel f off n : 0 <= n → enough fuel off n → concat (pieces fuel f off n) = fbytes f off n.
Proof.
  revert off n; induction fuel as [|fuel IH]; intros off n Hn He; [by destruct He; lia|]. cbn [pieces].
  destruct (Z.ltb_spec 0 n) as [Hp|Hp].
  - cbn [concat]. pose proof (piece_range off n Hp). rewrite IH by (lia || by apply enough_next).
    rewrite <- fbytes_app by lia. f_equal. lia.
  - replace n with 0 by lia. done.
Qed.

Lemma fbytes_lookup f off m j : (j < Z.to_nat m)%nat → fbytes f off m !! j = Some (f (off + Z.of_nat j)).
Proof. intros Hj. unfold fbytes. rewrite list_lookup_fmap, lookup_seqZ_lt by lia. done. Qed.

Lemma in_block off m j : 0 <= m → m <= BSIZE - off mod BSIZE → 0 <= j < m →
  (off + j) / BSIZE = off / BSIZE ∧ (off + j) mod BSIZE = off mod BSIZE + j.
Proof.
  change BSIZE with 1024. intros Hm Hb Hj. pose proof (Z.div_mod off 1024 ltac:(done)). pose proof (Z.mod_pos_bound off 1024 ltac:(done)).
  assert (off + j = 1024 * (off / 1024) + (off mod 1024 + j)) as E by lia.
  split; [by rewrite (Z.div_unique_pos (off + j) 1024 (off / 1024) (off mod 1024 + j)) by lia|].
  by rewrite (Z.mod_unique_pos (off + j) 1024 (off / 1024) (off mod 1024 + j)) by lia.
Qed.

Lemma slice_fbytes v x off m : blockno v x (off / BSIZE) ≠ 0 → block_ok (v (blockno v x (off / BSIZE))) →
  0 <= off → 0 <= m → m <= BSIZE - off mod BSIZE →
  slice (Z.to_nat (off mod BSIZE)) (Z.to_nat m) (v (blockno v x (off / BSIZE))) = fbytes (fbyte v x) off m.
Proof.
  intros Hz Hok Ho Hm Hb. pose proof (Z.mod_pos_bound off BSIZE ltac:(done)) as Hmod. pose proof (block_len _ Hok) as Hlen.
  apply list_eq. intros j. destruct (decide (j < Z.to_nat m)%nat) as [Hj|Hj].
  - rewrite lookup_slice, fbytes_lookup by done. unfold fbyte. destruct (in_block off m (Z.of_nat j)) as [-> ->]; [lia|lia|lia|].
    rewrite (proj2 (Z.eqb_neq _ 0) Hz). replace (Z.to_nat (off mod BSIZE + Z.of_nat j)) with (Z.to_nat (off mod BSIZE) + j)%nat by lia.
    destruct (lookup_lt_is_Some_2 (v (blockno v x (off / BSIZE)) : list Z) (Z.to_nat (off mod BSIZE) + j)) as [y Hy].
    { change BSIZE with 1024 in *. lia. } change (list Z) with block in Hy. by rewrite Hy.
  - rewrite !lookup_ge_None_2; [done|rewrite length_fbytes; lia|]. unfold slice. rewrite length_take. lia.
Qed.

(** Every block below the size is there. *)
Definition full (v : Z → block) (x : inode) : Prop :=
  0 <= i_size x <= MAXFILE * BSIZE ∧ ∀ k, 0 <= k → k * BSIZE < i_size x → blockno v x k ≠ 0.

Lemma full_attr v x y : i_addrs x = i_addrs y → i_size x = i_size y → full v x → full v y.
Proof. intros Ea Es [H1 H2]. split; [by rewrite <- Es|]. intros k. rewrite <- Es, (blockno_attr v x y) by done. apply H2. Qed.

Lemma full_at v x off : full v x → 0 <= off < i_size x → 0 <= off / BSIZE < MAXFILE ∧ blockno v x (off / BSIZE) ≠ 0.
Proof.
  intros [Hs Hf] Ho. assert (0 <= off / BSIZE) by (by apply Z.div_pos; [lia|]). split; [split; [done|]|].
  - apply Z.div_lt_upper_bound; [done|lia].
  - apply Hf; [done|]. pose proof (Z.mul_div_le off BSIZE ltac:(done)). lia.
Qed.

(** The number of bytes that [readi] transfers. *)
Definition read_len (size off n : Z) : Z := if off <? size then Z.min n (size - off) else 0.

Section read.
Context {A : Type} (copyout : copyout_fn A) (tx : txinfo) (h : list lockname) (v : Z → block) (out : list (nat * Z)) (lg : list Z)
  (i : nat) (x : inode) (sb : superblock).
Hypothesis Hl : (length lg + length out < 29)%nat.
Hypothesis Hf : file_ok tx sb v out x.
Hypothesis Hfull : full v x.
Hypothesis Hdev : i_dev x = ROOTDEV.

Lemma readi_loop_run fuel : ∀ s mem dst off n tot,
  frep tx h s (Tx v out lg []) → f_sb s = sb → f_itable s !! i = Some x →
  0 <= off → 0 <= tot <= n → off + (n - tot) <= i_size x → n < 2 ^ 31 → enough fuel off (n - tot) →
  ∃ s', readi_loop copyout fuel i mem dst off n tot (Thread h s) =
      (let '(mem', ok) := feed copyout mem dst (pieces fuel (fbyte v x) off (n - tot)) in
       Ok (if (ok : bool) then n else -1, mem') (Thread h s')) ∧ same_mem s s' ∧ frep tx h s' (Tx v out lg []).
Proof.
  induction fuel as [|fuel IH]; intros s mem dst off n tot Hr Hsb Hx Ho Ht Hs Hn He; [by destruct He; lia|].
  assert (MAXFILE * BSIZE = 272384) as Emax by done. pose proof Hfull as [Hsz _]. rewrite Emax in Hsz.
  cbn [readi_loop pieces]. destruct (Z.ltb_spec tot n) as [Hlt|Hge].
  - rewrite (proj2 (Z.ltb_lt 0 (n - tot))) by lia. cbn [feed]. pose proof (piece_range off (n - tot) ltac:(lia)) as [Hp1 Hp2].
    destruct (full_at v x off Hfull ltac:(lia)) as [Hk Hz]. rewrite <- Hsb in *.
    destruct (bmap_hit tx h s v out lg i x (off / BSIZE) Hr Hf Hx Hdev Hk Hz Hl) as (s1 & E1 & M1 & R1).
    rewrite (bind_Ok _ _ _ _ _ E1), (proj2 (Z.eqb_neq _ 0) Hz). kstep. cbn [st].
    rewrite (same_mem_geti s s1), (geti_lookup i s x Hx), Hdev by done.
    destruct (blockno_owned _ _ _ _ _ _ Hf Hk Hz) as [_ _ _ Hbo _ _].
    destruct (blk_bread_run tx h s1 v out lg _ R1 Hbo Hl) as (bp & s2 & E2 & R2 & Hbp & M2 & D2).
    rewrite (bind_Ok _ _ _ _ _ E2), (bind_Ok _ _ _ _ _ D2).
    change (Z.min (n - tot) (BSIZE - off mod BSIZE)) with (piece off (n - tot)).
    rewrite slice_fbytes by (done || lia || apply (brep_ok _ _ _ _ _ Hr)).
    destruct (copyout mem dst (fbytes (fbyte v x) off (piece off (n - tot)))) as [mem1 ok].
    destruct (blk_brelse_run tx h s2 v out lg bp _ R2 Hbp) as (s3 & E3 & M3 & R3). rewrite (bind_Ok _ _ _ _ _ E3).
    assert (same_mem s s3) as M by (by eapply same_mem_trans; [eapply same_mem_trans|]).
    destruct ok; [|exists s3; done].
    rewrite (length_fbytes (fbyte v x)), Z2Nat.id by lia. rewrite !u32_small by lia.
    destruct (IH s3 mem1 (u64 (dst + piece off (n - tot))) (off + piece off (n - tot)) n (tot + piece off (n - tot))) as (s4 & E4 & M4 & R4);
      [done|by apply same_mem_sb in M|by rewrite (same_mem_itable s s3)|lia|lia|lia|lia| |].
    { replace (n - (tot + piece off (n - tot))) with (n - tot - piece off (n - tot)) by lia. apply enough_next; [lia|done]. }
    replace (n - (tot + piece off (n - tot))) with (n - tot - piece off (n - tot)) in E4 by lia.
    exists s4. split; [exact E4|]. split; [by eapply same_mem_trans|done].
  - rewrite (proj2 (Z.ltb_ge 0 (n - tot))) by lia. replace tot with n in * by lia. cbn [feed].
    exists s. split; [|split; [apply same_mem_refl|done]]. unfold s32. by rewrite signed_small by (cbn; lia).
Qed.

Lemma readi_run s mem dst off n :
  frep tx h s (Tx v out lg []) → f_sb s = sb → f_itable s !! i = Some x → 0 <= off < 2 ^ 32 → 0 <= n < 2 ^ 32 → off + n < 2 ^ 32 →
  let m := read_len (i_size x) off n in
  ∃ s', readi copyout i mem dst off n (Thread h s) =
      (let '(mem', ok) := feed copyout mem dst (pieces (io_fuel m) (fbyte v x) off m) in
       Ok (if (ok : bool) then m else -1, mem') (Thread h s')) ∧ same_mem s s' ∧ frep tx h s' (Tx v out lg []).
Proof.
  intros Hr Hsb Hx Ho Hn Hon m. assert (MAXFILE * BSIZE = 272384) as Emax by done. pose proof Hfull as [Hsz _]. rewrite Emax in Hsz.
  unfold readi. kstep. cbn [st]. rewrite (geti_lookup i s x Hx). rewrite (u32_small (off + n)) by lia.
  rewrite (proj2 (Z.ltb_ge (off + n) off)), orb_false_r by lia. unfold read_len in m. subst m.
  destruct (Z.ltb_spec (i_size x) off) as [H1|H1].
  - rewrite (proj2 (Z.ltb_ge off (i_size x))) by lia. exists s. split; [done|]. split; [apply same_mem_refl|done].
  - assert ((if i_size x <? off + n then u32 (i_size x - off) else n) = (if off <? i_size x then Z.min n (i_size x - off) else 0)) as ->.
    { destruct (Z.ltb_spec (i_size x) (off + n)), (Z.ltb_spec off (i_size x)); rewrite ?u32_small by lia; lia. }
    set (m := if off <? i_size x then _ else _). assert (0 <= m ∧ off + m <= i_size x ∧ m < 2 ^ 31) as (Hm1 & Hm2 & Hm3).
    { subst m. destruct (Z.ltb_spec off (i_size x)); lia. }
    destruct (readi_loop_run (io_fuel m) s mem dst off m 0) as (s' & E & M & R); [done..|lia|lia|lia|lia| |].
    { rewrite Z.sub_0_r. by apply enough_io. }
    rewrite Z.sub_0_r in E. exists s'. split; [exact E|]. split; done.
Qed.
End read.

(** ** [writei] *)

(** The bytes [f] of a file with [bs] written at [off]. *)
Definition wrote (f : Z → Z) (off : Z) (bs : list Z) : Z → Z := λ o,
  if decide (off <= o < off + Z.of_nat (length bs)) then default 0 (bs !! Z.to_nat (o - off)) else f o.

Lemma wrote_nil f off o : wrote f off [] o = f o.
Proof. unfold wrote. cbn [length]. by rewrite decide_False by lia. Qed.

Lemma wrote_app f off a b o : wrote (wrote f off a) (off + Z.of_nat (length a)) b o = wrote f off (a ++ b) o.
Proof.
  unfold wrote. rewrite length_app. destruct (decide (off + Z.of_nat (length a) <= o < _)).
  - rewrite decide_True, lookup_app_r by lia. do 2 f_equal. lia.
  - destruct (decide (off <= o < off + Z.of_nat (length a))).
    + rewrite decide_True, lookup_app_l by lia. done.
    + by rewrite decide_False by lia.
Qed.

Lemma wrote_ext f g off bs o : f o = g o → wrote f off bs o = wrote g off bs o.
Proof. unfold wrote. by intros ->. Qed.

Lemma block_splice (d : block) i (bs : list Z) j : (i + length bs <= length d)%nat →
  (splice i bs d : block) !! j = (if decide (i <= j < i + length bs)%nat then bs !! (j - i)%nat else d !! j).
Proof. intros Hl. exact (lookup_splice i bs d j Hl). Qed.

(** Bytes stored into a block of the file. *)
Lemma fbyte_write tx sb v out x off bs o :
  file_ok tx sb v out x → (∀ b, block_ok (v b)) →
  let b := blockno v x (off / BSIZE) in
  0 <= off → off / BSIZE < MAXFILE → b ≠ 0 → Z.of_nat (length bs) <= BSIZE - off mod BSIZE → 0 <= o < MAXFILE * BSIZE →
  fbyte (fupdz v b (splice (Z.to_nat (off mod BSIZE)) bs (v b))) x o = wrote (fbyte v x) off bs o.
Proof.
  intros Hf Hok b Ho Hm Hz Hlen Hor. assert (0 <= off / BSIZE < MAXFILE) as Hkr by (split; [by apply Z.div_pos|done]).
  assert (b ≠ ind_of x) as Hbi by (by apply (fo_ind _ _ _ _ _ Hf)).
  set (v' := fupdz _ _ _). assert (ind_of x ≠ 0 → v' (ind_of x) = v (ind_of x)) as Hi by (intros _; subst v'; by apply fupdz_ne).
  unfold fbyte at 1. rewrite (blockno_ext v v' x _ Hi). unfold wrote.
  pose proof (Z.mod_pos_bound off BSIZE ltac:(done)) as Hmod. pose proof (block_len _ (Hok b)) as Hbl. change BSIZE with 1024 in *.
  destruct (decide (off <= o < off + Z.of_nat (length bs))) as [Hin|Hout].
  - destruct (in_block off (Z.of_nat (length bs)) (o - off)) as [E1 E2]; [lia|change BSIZE with 1024; lia|lia|].
    replace (off + (o - off)) with o in E1, E2 by lia. change BSIZE with 1024 in *. rewrite E1, E2. fold b. rewrite (proj2 (Z.eqb_neq b 0) Hz).
    subst v'. rewrite fupdz_eq, block_splice, decide_True by lia. do 2 f_equal. lia.
  - unfold fbyte. change BSIZE with 1024. destruct (Z.eqb_spec (blockno v x (o / 1024)) 0) as [Eo|Eo]; [done|].
    subst v'. unfold fupdz. destruct (Z.eqb_spec (blockno v x (o / 1024)) b) as [Eb|Eb]; [|done].
    assert (o / 1024 = off / 1024) as Ed.
    { apply (fo_inj _ _ _ _ _ Hf); [|done|done|done]. change MAXFILE with 266 in *.
      split; [apply Z.div_pos; lia|apply Z.div_lt_upper_bound; lia]. }
    rewrite block_splice, decide_False, Eb; [done| |lia].
    pose proof (Z.div_mod o 1024 ltac:(done)). pose proof (Z.div_mod off 1024 ltac:(done)). pose proof (Z.mod_pos_bound o 1024 ltac:(done)). lia.
Qed.

Lemma grown_bytes_upd tx h out i s lg v x s' lg' off bs :
  fs_ok tx (f_sb s) v out → file_ok tx (f_sb s) v out x → f_itable s !! i = Some x → (∀ b, block_ok (v b)) →
  let b := blockno v x (off / BSIZE) in
  0 <= off → off / BSIZE < MAXFILE → b ≠ 0 → Z.of_nat (length bs) <= BSIZE - off mod BSIZE →
  let v' := fupdz v b (splice (Z.to_nat (off mod BSIZE)) bs (v b)) in
  same_mem s s' → frep tx h s' (Tx v' out lg' []) →
  grown tx h out i (wrote (fbyte v x) off bs) s lg v x s' lg' v' x.
Proof.
  intros Hk Hf Hx Hok b Ho Hm Hz Hlen v' M R. assert (0 <= off / BSIZE < MAXFILE) as Hkr by (split; [by apply Z.div_pos|done]).
  pose proof (blockno_owned _ _ _ _ _ _ Hf Hkr Hz) as Hb. fold b in Hb.
  assert (b ≠ ind_of x) as Hbi by (by apply (fo_ind _ _ _ _ _ Hf)).
  assert (ind_of x ≠ 0 → v' (ind_of x) = v (ind_of x)) as Hi by (intros _; subst v'; by apply fupdz_ne).
  assert (∀ c, 0 <= c < sb_size (f_sb s) → used v' (f_sb s) c = used v (f_sb s) c) as Hu.
  { intros c Hc. subst v'. apply used_fupdz; [apply Hb|done]. }
  split; try done.
  - subst v'. apply fs_ok_fupdz; [apply Hb|done].
  - eapply file_ok_ext; [|exact Hi|exact Hf]. intros c Hc. by rewrite Hu.
  - by apply same_mem_sb.
  - rewrite list_insert_id by done. by apply same_mem_itable.
  - apply same_attr_refl.
  - intros j Hj _. by apply blockno_ext.
  - intros o Hor. by eapply fbyte_write.
  - intros c Hc. by rewrite Hu.
  - intros c Hc. left. by apply (owns_ext v v').
  - intros c Hc Hus Hno _. subst v'. apply fupdz_ne. intros ->. apply Hno. by apply owns_blockno.
Qed.

(** What the source of a [writei] of [bs] promises. *)
Definition source_of (copyin : copyin_fn) (src : Z) (bs : list Z) : Prop :=
  ∀ j m, 0 <= j → 0 <= m → j + m <= Z.of_nat (length bs) → copyin (u64 (src + j)) (Z.to_nat m) = (slice (Z.to_nat j) (Z.to_nat m) bs, true).

(** One round: the block [b] of the file is read, changed, logged and released. *)
Lemma write_round tx h s v out lg i x off bs {A} (K : M (fs B) A) :
  frep tx h s (Tx v out lg []) → fs_ok tx (f_sb s) v out → file_ok tx (f_sb s) v out x → f_itable s !! i = Some x →
  let b := blockno v x (off / BSIZE) in
  0 <= off → off / BSIZE < MAXFILE → b ≠ 0 → Z.of_nat (length bs) <= BSIZE - off mod BSIZE → Forall is_byte bs →
  (length lg + length out < 29)%nat → Z.of_nat (length lg) < tx_cap tx →
  ∃ s' lg' v' bp s1, blk (bread ROOTDEV b) (Thread h s) = Ok bp (Thread (SL_buf bp :: h) s1) ∧
    (set_data bp (splice (Z.to_nat (off mod BSIZE)) bs) ;;; blk (log_write bp) ;;; blk (brelse bp) ;;; K) (Thread (SL_buf bp :: h) s1) = K (Thread h s') ∧
    grown tx h out i (wrote (fbyte v x) off bs) s lg v x s' lg' v' x ∧ (length lg <= length lg' <= S (length lg))%nat ∧
    blockno v' x (off / BSIZE) = b.
Proof.
  intros Hr Hk Hf Hx b Ho Hm Hz Hlen Hbs Hl Hcap. assert (0 <= off / BSIZE < MAXFILE) as Hkr by (split; [by apply Z.div_pos|done]).
  assert (∀ b, block_ok (v b)) as Hok by (intros c; apply (brep_ok _ _ _ _ c Hr)).
  pose proof (blockno_owned _ _ _ _ _ _ Hf Hkr Hz) as Hb. fold b in Hb.
  pose proof (Z.mod_pos_bound off BSIZE ltac:(done)) as Hmod.
  destruct (blk_bread_run tx h s v out lg b Hr (db_out _ _ _ _ _ Hb) Hl) as (bp & s1 & E1 & R1 & Hbp & M1 & D1).
  destruct (finish_run tx h s1 v out lg bp b (splice (Z.to_nat (off mod BSIZE)) bs) R1 Hbp) as (s2 & E2 & M2 & R2);
    [|apply Hb|done|].
  { destruct (Hok b) as [Hbl Hbb]. split; [|by apply splice_Forall]. rewrite length_splice; [done|]. rewrite Hbl. change BSIZE with 1024 in *. lia. }
  pose proof (length_log_add lg b) as Hll.
  exists s2, (log_add lg b), (fupdz v b (splice (Z.to_nat (off mod BSIZE)) bs (v b))), bp, s1.
  split; [exact E1|]. split; [apply E2|].
  assert (grown tx h out i (wrote (fbyte v x) off bs) s lg v x s2 (log_add lg b) (fupdz v b (splice (Z.to_nat (off mod BSIZE)) bs (v b))) x) as G.
  { apply grown_bytes_upd; try done. by eapply same_mem_trans. }
  split; [exact G|]. split; [done|]. apply (gr_keep _ _ _ _ _ _ _ _ _ _ _ _ _ G); done.
Qed.

Lemma slice_is_byte i n (bs : list Z) : Forall is_byte bs → Forall is_byte (slice i n bs).
Proof. apply slice_Forall. Qed.

(** The blocks from [off] up to [off + k] are there. *)
Definition present (v : Z → block) (x : inode) (off k : Z) : Prop :=
  ∀ j, 0 < k → off / BSIZE <= j → j * BSIZE < off + k → blockno v x j ≠ 0.

Lemma writei_loop_run copyin tx h out i src bs K : source_of copyin src bs → Forall is_byte bs →
  ∀ fuel s lg v x off tot, let n := Z.of_nat (length bs) in
  frep tx h s (Tx v out lg []) → fs_ok tx (f_sb s) v out → file_ok tx (f_sb s) v out x → f_itable s !! i = Some x → i_dev x = ROOTDEV →
  0 <= off → 0 <= tot <= n → off + (n - tot) <= MAXFILE * BSIZE → n < 2 ^ 31 → enough fuel off (n - tot) → enough (S K) off (n - tot) →
  Z.of_nat (length lg + 6 * K) < tx_cap tx → (length lg + length out + 6 * K < 29)%nat →
  ∃ k s' lg' v' x', 0 <= k <= n - tot ∧
    writei_loop copyin fuel i (u64 (src + tot)) off n tot (Thread h s) = Ok (tot + k, off + k) (Thread h s') ∧
    grown tx h out i (wrote (fbyte v x) off (slice (Z.to_nat tot) (Z.to_nat k) bs)) s lg v x s' lg' v' x' ∧
    (length lg <= length lg' <= length lg + 6 * K)%nat ∧ present v' x' off k ∧
    (k < n - tot → ∀ c, 0 <= c < sb_size (f_sb s) → used v' (f_sb s) c = true).
Proof.
  intros Hsrc Hbs fuel. revert K. induction fuel as [|fuel IH]; intros K s lg v x off tot n Hr Hk Hf Hx Hd Ho Ht Hs Hn He HeK Hcap Hl;
    [by destruct He; lia|]. assert (MAXFILE * BSIZE = 272384) as Emax by done.
  assert (∀ x, off + x < 2 ^ 32 → 0 <= x → u32 (off + x) = off + x) as Hu32 by (intros y Hy1 Hy2; apply u32_small; lia).
  cbn [writei_loop]. destruct (Z.ltb_spec tot n) as [Hlt|Hge].
  - pose proof (piece_range off (n - tot) ltac:(lia)) as [Hp1 Hp2]. destruct K as [|K].
    { exfalso. destruct HeK as [_ HeK]. pose proof (Z.mod_pos_bound off BSIZE ltac:(done)). change BSIZE with 1024 in *. lia. }
    assert (0 <= off / BSIZE < MAXFILE) as Hkr.
    { split; [by apply Z.div_pos|]. apply Z.div_lt_upper_bound; [done|lia]. }
    destruct (bmap_run tx h s v out lg i x (off / BSIZE)) as (s1 & lg1 & v1 & x1 & E1 & G1 & L1 & A1); try done; [lia|lia|].
    rewrite (bind_Ok _ _ _ _ _ E1). destruct (Z.eqb_spec (blockno v1 x1 (off / BSIZE)) 0) as [Hz|Hz].
    { exists 0, s1, lg1, v1, x1. rewrite !Z.add_0_r. split; [lia|]. split; [done|]. split; [|split; [lia|split; [|auto]]].
      - eapply grown_ext; [exact G1|]. intros o _. by rewrite wrote_nil.
      - intros j Hj0. lia. }
    pose proof G1 as [R1 K1 F1 Sb1 T1 At1 _ _ B1 U1 _ _].
    assert (f_itable s1 !! i = Some x1) as Hx1 by (rewrite T1; apply list_lookup_insert_eq; by eapply lookup_lt_Some).
    assert (i_dev x1 = ROOTDEV) as Hd1 by (rewrite At1; done).
    kstep. cbn [st]. rewrite (geti_lookup i s1 x1 Hx1), Hd1.
    change (Z.min (n - tot) (BSIZE - off mod BSIZE)) with (piece off (n - tot)). set (m := piece off (n - tot)) in *.
    assert (copyin (u64 (src + tot)) (Z.to_nat m) = (slice (Z.to_nat tot) (Z.to_nat m) bs, true)) as Ec by (apply Hsrc; lia).
    assert (length (slice (Z.to_nat tot) (Z.to_nat m) bs) = Z.to_nat m) as Lc by (apply length_slice; lia).
    rewrite <- Sb1 in K1, F1.
    destruct (write_round tx h s1 v1 out lg1 i x1 off (slice (Z.to_nat tot) (Z.to_nat m) bs)
       (writei_loop copyin fuel i (u64 (u64 (src + tot) + m)) (u32 (off + m)) n (u32 (tot + m))) R1 K1 F1 Hx1)
      as (s2 & lg2 & v2 & bp & s1b & E2 & E3 & G2 & L2 & Ek2); try done; [lia|lia|by apply slice_is_byte|lia|lia|].
    rewrite (bind_Ok _ _ _ _ _ E2). cbv zeta. rewrite Ec. rewrite E3.
    assert (u64 (u64 (src + tot) + m) = u64 (src + (tot + m))) as -> by (unfold u64; rewrite Zplus_mod_idemp_l; f_equal; lia).
    rewrite Hu32, u32_small by lia.
    pose proof G2 as [R2 K2 F2 Sb2 T2 _ _ _ B2 U2 _ _].
    assert (f_itable s2 !! i = Some x1) as Hx2 by (rewrite T2; apply list_lookup_insert_eq; by eapply lookup_lt_Some).
    assert (n - (tot + m) = n - tot - m) as En by lia.
    destruct (IH K s2 lg2 v2 x1 (off + m) (tot + m)) as (k & s3 & lg3 & v3 & x3 & Hk3 & E4 & G3 & L3 & P3 & A3); try done;
      [by rewrite Sb2|by rewrite Sb2|lia|lia|lia|fold n; rewrite En; apply enough_next; [lia|done]|fold n; rewrite En; apply enough_next; [lia|done]|lia|lia|].
    fold n in Hk3, E4, A3. exists (m + k), s3, lg3, v3, x3. split; [lia|]. split; [rewrite E4; do 2 f_equal; lia|].
    split; [|split; [lia|split]].
    + eapply grown_ext; [eapply grown_trans; [exact G1|]; eapply grown_trans; [exact G2|exact G3]|].
      intros o Hor. rewrite (wrote_ext (fbyte v2 x1) (wrote (fbyte v1 x1) off (slice (Z.to_nat tot) (Z.to_nat m) bs))) by (by apply B2).
      assert (off + m = off + Z.of_nat (length (slice (Z.to_nat tot) (Z.to_nat m) bs))) as -> by (rewrite Lc; lia).
      rewrite wrote_app. rewrite (wrote_ext (fbyte v1 x1) (fbyte v x)) by (by apply B1). f_equal.
      unfold slice. replace (Z.to_nat (m + k)) with (Z.to_nat m + Z.to_nat k)%nat by lia. rewrite <- take_take_drop, drop_drop. do 3 f_equal. lia.
    + intros j _ Hj1 Hj2. destruct (decide (j = off / BSIZE)) as [->|Hne].
      * rewrite (gr_keep _ _ _ _ _ _ _ _ _ _ _ _ _ G3) by (rewrite ?Ek2; done). by rewrite Ek2.
      * pose proof (Z.div_mod off BSIZE ltac:(done)). pose proof (Z.mod_pos_bound off BSIZE ltac:(done)). change BSIZE with 1024 in *.
        apply P3; change BSIZE with 1024; [lia| |lia]. apply Z.lt_succ_r, Z.div_lt_upper_bound; lia.
    + intros Hlt3 c Hc. rewrite <- Sb1, <- Sb2. apply A3; [lia|]. by rewrite Sb2, Sb1.
  - replace tot with n in * by lia. exists 0, s, lg, v, x. rewrite !Z.add_0_r. split; [lia|]. split; [done|].
    split; [|split; [lia|split; [|lia]]].
    + eapply grown_ext; [by apply grown_same|]. intros o _. unfold slice. by rewrite wrote_nil.
    + intros j Hj0. lia.
Qed.

(** What a [writei] of [bs] at [off] that transferred [k] bytes has done. *)
Record written (tx : txinfo) (h : list lockname) (out : list (nat * Z)) (i : nat) (off : Z) (bs : list Z) (k : Z)
    s (v : Z → block) (x : inode) s' (v' : Z → block) (x' : inode) : Prop := {
  wn_rep : ∃ lg', frep tx h s' (Tx v' out lg' []) ∧ (length lg' + length out < 29)%nat;
  wn_ok : fs_ok tx (f_sb s) v' out ∧ file_ok tx (f_sb s) v' out x' ∧ full v' x' ∧ f_sb s' = f_sb s;
  wn_tab : f_itable s' = <[i := x']> (f_itable s);
  wn_attr : same_attr (Fs.with_size (Z.max (i_size x) (off + k)) x) x';
  (* the bytes of the file, and its inode on the disk *)
  wn_byte : ∀ o, 0 <= o < MAXFILE * BSIZE → fbyte v' x' o = wrote (fbyte v x) off (take (Z.to_nat k) bs) o;
  wn_inode : dinode_at v' (f_sb s) (i_inum x) = to_dinode x';
  (* the other inodes and files *)
  wn_inodes : ∀ j, 0 <= j < sb_ninodes (f_sb s) → j ≠ i_inum x → dinode_at v' (f_sb s) j = dinode_at v (f_sb s) j;
  wn_files : ∀ y, file_ok tx (f_sb s) v out y → (∀ b, owns v y b → ¬ owns v x b) →
    file_ok tx (f_sb s) v' out y ∧ (∀ b, owns v' y b → ¬ owns v' x' b) ∧ ∀ o, 0 <= o < MAXFILE * BSIZE → fbyte v' y o = fbyte v y o;
  (* a short count means that the disk is full *)
  wn_full : k < Z.of_nat (length bs) → ∀ c, 0 <= c < sb_size (f_sb s) → used v' (f_sb s) c = true }.

Lemma grown_files tx h out i g s lg v x s' lg' v' x' y :
  grown tx h out i g s lg v x s' lg' v' x' → file_ok tx (f_sb s) v out y → (∀ b, owns v y b → ¬ owns v x b) →
  file_ok tx (f_sb s) v' out y ∧ (∀ b, owns v' y b → ¬ owns v' x' b) ∧ (∀ b, owns v y b → v' b = v b).
Proof.
  intros G Hy Hd. assert (∀ b, owns v y b → v' b = v b) as Hv.
  { intros b Hb. destruct (owns_used _ _ _ _ _ _ Hy Hb) as (H1 & H2 & H3). apply (gr_frame _ _ _ _ _ _ _ _ _ _ _ _ _ G); auto. }
  split; [|split; [|done]].
  - eapply file_ok_ext; [apply (gr_used _ _ _ _ _ _ _ _ _ _ _ _ _ G)|intros Hi; apply Hv; by apply owns_ind|done].
  - intros b Hb. apply (owns_ext v v') in Hb; [|intros Hi; apply Hv; by apply owns_ind].
    intros Hx. destruct (gr_owns _ _ _ _ _ _ _ _ _ _ _ _ _ G b Hx) as [Ho|Hf]; [by eapply Hd|].
    destruct (owns_used _ _ _ _ _ _ Hy Hb) as (_ & Hu & _). congruence.
Qed.

Lemma owns_inode tx sb v out y b j : file_ok tx sb v out y → owns v y b → 0 <= j < sb_ninodes sb → b ≠ IBLOCK j sb.
Proof. intros Hy Hb Hj E. by apply (db_inode _ _ _ _ _ (fo_own _ _ _ _ _ Hy b Hb) j Hj). Qed.

(** Nothing of a file changes when an inode block is written. *)
Lemma inode_write_file tx sb v out y j d : fs_ok tx sb v out → file_ok tx sb v out y → 0 <= j < sb_ninodes sb →
  let v' := fupdz v (IBLOCK j sb) d in
  file_ok tx sb v' out y ∧ (∀ b, owns v' y b ↔ owns v y b) ∧ (∀ k, blockno v' y k = blockno v y k) ∧
  ∀ o, 0 <= o < MAXFILE * BSIZE → fbyte v' y o = fbyte v y o.
Proof.
  intros Hk Hy Hj v'. destruct (fk_meta _ _ _ _ Hk j Hj) as (_ & _ & Hm).
  assert (∀ b, owns v y b → v' b = v b) as Hv by (intros b Hb; apply fupdz_ne; by eapply owns_inode).
  assert (ind_of y ≠ 0 → v' (ind_of y) = v (ind_of y)) as Hi by (intros Hi; apply Hv; by apply owns_ind).
  split; [|split; [|split]].
  - eapply file_ok_ext; [|exact Hi|exact Hy]. intros c Hc. subst v'. by rewrite used_fupdz.
  - intros b. by apply owns_ext.
  - intros k. by apply blockno_ext.
  - intros o Ho. by apply fbyte_ext.
Qed.

Lemma with_size_same x : Fs.with_size (i_size x) x = x.
Proof. by destruct x. Qed.

(** The end of [writei]: the size and the inode. *)
Lemma written_run tx h out i s lg v x s1 lg1 v1 x1 off bs k (r : Z) :
  fs_ok tx (f_sb s) v out → file_ok tx (f_sb s) v out x → f_itable s !! i = Some x → i_dev x = ROOTDEV →
  0 <= i_inum x < sb_ninodes (f_sb s) → dinode_ok (to_dinode x) → full v x → 0 <= off <= i_size x → 0 <= k <= Z.of_nat (length bs) → off + k <= MAXFILE * BSIZE →
  grown tx h out i (wrote (fbyte v x) off (take (Z.to_nat k) bs)) s lg v x s1 lg1 v1 x1 → present v1 x1 off k →
  (k < Z.of_nat (length bs) → ∀ c, 0 <= c < sb_size (f_sb s) → used v1 (f_sb s) c = true) →
  (length lg1 + length out < 28)%nat → Z.of_nat (length lg1) < tx_cap tx →
  ∃ s' v' x', (let! size := gets (λ s, i_size (geti i s)) in
      (if size <? off + k then modify (upd_inode i (Fs.with_size (off + k))) else ret tt) ;;; iupdate i ;;; ret r) (Thread h s1) =
      Ok r (Thread h s') ∧ written tx h out i off bs k s v x s' v' x'.
Proof.
  intros Hk Hf Hx Hd Hn Hdi [Hsz Hfull] Ho Hkr Hmax G P A Hl Hcap. pose proof G as [R1 K1 F1 Sb1 T1 At1 Ad1 Kp1 B1 U1 _ _].
  assert (f_itable s1 !! i = Some x1) as Hx1 by (rewrite T1; apply list_lookup_insert_eq; by eapply lookup_lt_Some).
  assert (i_size x1 = i_size x ∧ i_dev x1 = i_dev x ∧ i_inum x1 = i_inum x) as (Es & Ed & En) by (rewrite At1; done).
  set (x2 := Fs.with_size (Z.max (i_size x) (off + k)) x1).
  assert (∃ s2, (∀ (C : M (fs B) Z), ((if i_size x <? off + k then modify (upd_inode i (Fs.with_size (off + k))) else ret tt) ;;; C) (Thread h s1) = C (Thread h s2)) ∧
    f_blk s2 = f_blk s1 ∧ f_sb s2 = f_sb s1 ∧ f_itable s2 = <[i := x2]> (f_itable s)) as (s2 & E2 & Eb2 & Sb2 & T2).
  { destruct (Z.ltb_spec (i_size x) (off + k)) as [Hlt|Hge].
    - exists (upd_inode i (Fs.with_size (off + k)) s1). split; [done|]. split; [done|]. split; [done|].
      unfold upd_inode. cbn [set_itable f_itable]. rewrite (geti_lookup i s1 x1 Hx1), T1, list_insert_insert_eq. subst x2. by rewrite Z.max_r by lia.
    - exists s1. split; [done|]. split; [done|]. split; [done|]. rewrite T1. subst x2. by rewrite Z.max_l, <- Es, with_size_same by lia. }
  kstep. cbn [st]. rewrite (geti_lookup i s1 x1 Hx1), Es, E2.
  assert (f_itable s2 !! i = Some x2) as Hx2 by (rewrite T2; apply list_lookup_insert_eq; by eapply lookup_lt_Some).
  assert (dinode_ok (to_dinode x2)) as Hdi2.
  { destruct Hdi as [D1 D2 D3 D4 D5 D6 D7]. subst x2. rewrite At1. split; try done; cbn [to_dinode d_size d_addrs Fs.with_size i_size i_addrs].
    - change (MAXFILE * BSIZE) with 272384 in *. lia.
    - by apply Ad1.
    - apply (fo_len _ _ _ _ _ F1). }
  assert (frep tx h s2 (Tx v1 out lg1 [])) as R2 by (unfold frep; by rewrite Eb2).
  destruct (iupdate_run tx h s2 v1 out lg1 i x2) as (s3 & E3 & M3 & R3); try done; [rewrite Sb2, Sb1; apply K1|lia|by rewrite <- Hd, <- Ed|by rewrite Sb2, Sb1; subst x2; cbn [Fs.with_size i_inum]; rewrite En|].
  rewrite (bind_Ok _ _ _ _ _ E3). change (i_inum x2) with (i_inum x1) in R3. rewrite Sb2, Sb1, En in R3.
  set (d := set_dinode _ _ _) in R3. set (v3 := fupdz v1 (IBLOCK (i_inum x) (f_sb s)) d) in R3.
  destruct (fk_meta _ _ _ _ K1 _ Hn) as (_ & _ & Hm).
  assert (∀ b, block_ok (v1 b)) as Hok1 by (intros b; apply (brep_ok _ _ _ _ b R1)).
  assert (file_ok tx (f_sb s) v1 out x2) as F2.
  { destruct F1 as [F1a F1b F1c F1d]. split; try done. }
  destruct (inode_write_file tx (f_sb s) v1 out x2 (i_inum x) d K1 F2 Hn) as (F3 & O3 & Bn3 & By3). fold v3 in F3, O3, Bn3, By3.
  exists s3, v3, x2. split; [reflexivity|]. split.
  - eexists. split; [exact R3|]. pose proof (length_log_add lg1 (IBLOCK (i_inum x) (f_sb s))). lia.
  - split; [by apply fs_ok_fupdz|]. split; [done|]. split; [|rewrite (same_mem_sb _ _ M3); congruence]. split.
    + subst x2. cbn [Fs.with_size i_size]. lia.
    + intros j Hj Hjs. subst x2. cbn [Fs.with_size i_size] in Hjs. rewrite Bn3. change (blockno v1 x1 j ≠ 0).
      destruct (decide (j * BSIZE < i_size x)) as [Hin|Hout].
      * rewrite Kp1; [by apply Hfull| |by apply Hfull]. change MAXFILE with 266 in *. change BSIZE with 1024 in *. lia.
      * apply P; [lia| |lia]. apply Z.lt_succ_r, Z.div_lt_upper_bound; [done|]. change BSIZE with 1024 in *. lia.
  - rewrite (same_mem_itable _ _ M3). exact T2.
  - subst x2. rewrite At1. by destruct x.
  - intros o Hor. rewrite By3 by done. by apply B1.
  - unfold dinode_at. subst v3. rewrite fupdz_eq. apply get_set_dinode; [done|]. rewrite block_len by done. apply dinode_off_bound.
  - intros j Hj Hne. etrans; [apply (dinode_at_other tx _ out); try done; [apply K1|]|].
    + intros o Hoff Hdis. apply get_set_dinode_ne; [done|rewrite block_len by done; apply dinode_off_bound|]. lia.
    + unfold dinode_at. f_equal. destruct (fk_meta _ _ _ _ Hk j Hj) as (H1 & H2 & H3).
      apply (gr_frame _ _ _ _ _ _ _ _ _ _ _ _ _ G); try done. intros Hw. exact (owns_inode _ _ _ _ _ _ j Hf Hw Hj eq_refl).
  - intros y Hy Hdis. destruct (grown_files _ _ _ _ _ _ _ _ _ _ _ _ _ y G Hy Hdis) as (Y1 & Y2 & Y3).
    destruct (inode_write_file tx (f_sb s) v1 out y (i_inum x) d K1 Y1 Hn) as (Z1 & Z2 & _ & Z4). fold v3 in Z1, Z2, Z4.
    split; [exact Z1|]. split.
    + intros b Hb Hb2. apply (Y2 b); [by apply Z2|exact (proj1 (O3 b) Hb2)].
    + intros o Hor. rewrite Z4 by done. by apply fbyte_ext.
  - intros Hlt c Hc. subst v3. rewrite used_fupdz by done. by apply A.
Qed.

Lemma writei_run copyin tx h s v lg out i x src off bs K :
  frep tx h s (Tx v out lg []) → fs_ok tx (f_sb s) v out → file_ok tx (f_sb s) v out x → full v x → dinode_ok (to_dinode x) →
  f_itable s !! i = Some x → i_dev x = ROOTDEV → 0 <= i_inum x < sb_ninodes (f_sb s) →
  source_of copyin src bs → Forall is_byte bs → 0 <= src < 2 ^ 64 →
  let n := Z.of_nat (length bs) in
  0 <= off < 2 ^ 32 → n < 2 ^ 31 → n + off mod BSIZE <= BSIZE * Z.of_nat K →
  Z.of_nat (length lg + 6 * K) < tx_cap tx → (length lg + length out + 6 * K < 28)%nat →
  if (i_size x <? off) || (MAXFILE * BSIZE <? off + n) then writei copyin i src off n (Thread h s) = Ok (-1) (Thread h s)
  else ∃ k s' v' x', writei copyin i src off n (Thread h s) = Ok k (Thread h s') ∧ 0 <= k <= n ∧
    written tx h out i off bs k s v x s' v' x'.
Proof.
  intros Hr Hk Hf Hfull Hdi Hx Hd Hn Hsrc Hbs Hs64 n Ho Hn31 HK Hcap Hl. pose proof Hfull as [Hsz _].
  assert (MAXFILE * BSIZE = 272384) as Emax by done. rewrite Emax in *. unfold writei. kstep. cbn [st]. rewrite (geti_lookup i s x Hx).
  destruct (Z.ltb_spec (i_size x) off) as [H1|H1]; [done|]. cbn [orb]. rewrite (u32_small (off + n)) by lia.
  rewrite (proj2 (Z.ltb_ge (off + n) off)) by lia. rewrite Emax. destruct (Z.ltb_spec 272384 (off + n)) as [H2|H2]; [done|].
  destruct (writei_loop_run copyin tx h out i src bs K Hsrc Hbs (io_fuel n) s lg v x off 0)
    as (k & s1 & lg1 & v1 & x1 & Hk1 & E1 & G1 & L1 & P1 & A1); try done; fold n; rewrite ?Z.sub_0_r; try lia.
  { apply enough_io. lia. }
  { split; [lia|]. intros _. rewrite Nat2Z.inj_succ. replace (Z.succ (Z.of_nat K) - 1) with (Z.of_nat K) by lia. done. }
  fold n in Hk1, A1, E1. rewrite Z.sub_0_r in *. rewrite Z.add_0_r, u64_small in E1 by lia. rewrite (bind_Ok _ _ _ _ _ E1).
  change (slice (Z.to_nat 0) (Z.to_nat k) bs) with (take (Z.to_nat k) bs) in G1.
  destruct (written_run tx h out i s lg v x s1 lg1 v1 x1 off bs k (s32 (0 + k))) as (s2 & v2 & x2 & E2 & W); try done; fold n; try lia.
  exists k, s2, v2, x2. split; [|done]. rewrite E2. f_equal. rewrite Z.add_0_l. apply (signed_small 32); [done|]. cbn. lia.
Qed.

(** C5: [writei] past the end of the file, or past the largest size, returns -1 and
    does nothing.  Otherwise, given room in the log, it writes a prefix of the bytes,
    all of them unless the disk is full, and returns its length: the file then
    reads as before with this prefix in place, all blocks below its size are there,
    the inode on the disk is the one in memory, with the size the write reached, and
    no byte of another file and no other inode has changed. *)
Theorem writei_correct copyin tx h s v lg out i x src off bs K :
  frep tx h s (Tx v out lg []) → fs_ok tx (f_sb s) v out → file_ok tx (f_sb s) v out x → full v x → dinode_ok (to_dinode x) →
  f_itable s !! i = Some x → i_dev x = ROOTDEV → 0 <= i_inum x < sb_ninodes (f_sb s) →
  source_of copyin src bs → Forall is_byte bs → 0 <= src < 2 ^ 64 →
  let n := Z.of_nat (length bs) in
  0 <= off < 2 ^ 32 → n < 2 ^ 31 → n + off mod BSIZE <= BSIZE * Z.of_nat K →
  Z.of_nat (length lg + 6 * K) < tx_cap tx → (length lg + length out + 6 * K < 28)%nat →
  if (i_size x <? off) || (MAXFILE * BSIZE <? off + n) then writei copyin i src off n (Thread h s) = Ok (-1) (Thread h s)
  else ∃ k s' v' x', writei copyin i src off n (Thread h s) = Ok k (Thread h s') ∧ 0 <= k <= n ∧
    written tx h out i off bs k s v x s' v' x'.
Proof. apply writei_run. Qed.

Lemma pieces_bound fuel f off n : Forall (λ p, (0 < length p <= 1024)%nat) (pieces fuel f off n).
Proof.
  revert off n; induction fuel as [|fuel IH]; intros off n; cbn [pieces]; [constructor|]. destruct (Z.ltb_spec 0 n); [|constructor].
  constructor; [|apply IH]. rewrite length_fbytes. destruct (piece_range off n ltac:(done)) as [Hp1 Hp2].
  pose proof (Z.mod_pos_bound off BSIZE ltac:(done)). change BSIZE with 1024 in *. lia.
Qed.

Lemma read_len_bound size off n : 0 <= off → 0 <= n → 0 <= size → 0 <= read_len size off n <= n ∧ (off < size → off + read_len size off n <= size).
Proof. unfold read_len. destruct (Z.ltb_spec off size); lia. Qed.

(** C26: [readi] copies the bytes of the file from the offset on, clipped at the end
    of the file, in pieces of at most a block, and returns their number; it stops
    with -1 at the first piece that [either_copyout] refuses, and returns 0 when the
    end of the range overflows 32 bits.  It changes no block and no inode. *)
Theorem readi_correct {A} (copyout : copyout_fn A) tx h s v out lg i x mem dst off n :
  frep tx h s (Tx v out lg []) → file_ok tx (f_sb s) v out x → full v x → (length lg + length out < 29)%nat →
  f_itable s !! i = Some x → i_dev x = ROOTDEV → 0 <= off < 2 ^ 32 → 0 <= n < 2 ^ 32 →
  let m := read_len (i_size x) off n in
  if 2 ^ 32 <=? off + n then readi copyout i mem dst off n (Thread h s) = Ok (0, mem) (Thread h s)
  else ∃ ps s', concat ps = fbytes (fbyte v x) off m ∧ Forall (λ p, (0 < length p <= 1024)%nat) ps ∧
    readi copyout i mem dst off n (Thread h s) =
      (let '(mem', ok) := feed copyout mem dst ps in Ok (if (ok : bool) then m else -1, mem') (Thread h s')) ∧
    f_itable s' = f_itable s ∧ f_sb s' = f_sb s ∧ frep tx h s' (Tx v out lg []).
Proof.
  intros Hr Hf Hfull Hl Hx Hd Ho Hn m. pose proof Hfull as [Hsz _]. destruct (Z.leb_spec (2 ^ 32) (off + n)) as [Hov|Hov].
  - unfold readi. kstep. assert (u32 (off + n) = off + n - 2 ^ 32) as ->.
    { unfold u32. rewrite <- (Z.mod_add _ (-1)) by lia. rewrite Z.mod_small by lia. lia. }
    rewrite (proj2 (Z.ltb_lt (off + n - 2 ^ 32) off)) by lia. by rewrite orb_true_r.
  - destruct (readi_run copyout tx h v out lg i x (f_sb s) Hl Hf Hfull Hd s mem dst off n) as (s' & E & M & R); try done.
    exists (pieces (io_fuel m) (fbyte v x) off m), s'. destruct (read_len_bound (i_size x) off n) as [Hm _]; [lia..|].
    split; [apply pieces_concat; [lia|by apply enough_io; lia]|]. split; [apply pieces_bound|]. split; [exact E|].
    split; [by apply same_mem_itable|]. split; [by apply same_mem_sb|done].
Qed.

(** ** Into a buffer of the kernel *)

Lemma splice_splice {T} i (a b l : list T) : (i + length a + length b <= length l)%nat →
  splice (i + length a) b (splice i a l) = splice i (a ++ b) l.
Proof.
  intros Hl. apply list_eq. intros j. rewrite !lookup_splice by (rewrite ?length_splice, ?length_app; lia). rewrite length_app.
  repeat case_decide; try lia; try done.
  - rewrite lookup_app_r by lia. f_equal. lia.
  - by rewrite lookup_app_l by lia.
Qed.

Lemma feed_local ps : ∀ mem dst, 0 <= dst → dst + Z.of_nat (length (concat ps)) < 2 ^ 64 → (Z.to_nat dst + length (concat ps) <= length mem)%nat →
  feed local_out mem dst ps = (splice (Z.to_nat dst) (concat ps) mem, true).
Proof.
  induction ps as [|p ps IH]; intros mem dst Hd H64 Hl; cbn [feed concat].
  - unfold splice. cbn [length app]. by rewrite Nat.add_0_r, take_drop.
  - cbn [concat] in *. rewrite length_app in *. unfold local_out at 1. rewrite u64_small by lia.
    rewrite IH by (rewrite ?length_splice; lia). replace (Z.to_nat (dst + Z.of_nat (length p))) with (Z.to_nat dst + length p)%nat by lia.
    by rewrite splice_splice by lia.
Qed.

Lemma readi_local tx h s v out lg i x mem off n :
  frep tx h s (Tx v out lg []) → file_ok tx (f_sb s) v out x → full v x → (length lg + length out < 29)%nat →
  f_itable s !! i = Some x → i_dev x = ROOTDEV → 0 <= off → 0 <= n → off + n < 2 ^ 32 ->
  let m := read_len (i_size x) off n in (Z.to_nat m <= length mem)%nat →
  ∃ s', readi local_out i mem 0 off n (Thread h s) = Ok (m, splice 0 (fbytes (fbyte v x) off m) mem) (Thread h s') ∧
    same_mem s s' ∧ frep tx h s' (Tx v out lg []).
Proof.
  intros Hr Hf Hfull Hl Hx Hd Ho Hn Hon m Hm. pose proof Hfull as [Hsz _].
  destruct (readi_run local_out tx h v out lg i x (f_sb s) Hl Hf Hfull Hd s mem 0 off n) as (s' & E & M & R); try done; try lia.
  fold m in E. destruct (read_len_bound (i_size x) off n) as [Hm1 _]; [lia..|]. fold m in Hm1.
  assert (concat (pieces (io_fuel m) (fbyte v x) off m) = fbytes (fbyte v x) off m) as Ec by (apply pieces_concat; [lia|by apply enough_io; lia]).
  rewrite feed_local, Ec in E by (rewrite ?Ec, ?length_fbytes; lia). exists s'. split; [exact E|]. done.
Qed.

Lemma fbytes_wrote f off bs k : 0 <= k <= Z.of_nat (length bs) → fbytes (wrote f off (take (Z.to_nat k) bs)) off k = take (Z.to_nat k) bs.
Proof.
  intros Hk. apply list_eq. intros j. destruct (decide (j < Z.to_nat k)%nat) as [Hj|Hj].
  - rewrite fbytes_lookup by done. unfold wrote. rewrite length_take, decide_True by lia.
    replace (Z.to_nat (off + Z.of_nat j - off)) with j by lia. destruct (lookup_lt_is_Some_2 (take (Z.to_nat k) bs) j) as [y Hy]; [rewrite length_take; lia|].
    by rewrite Hy.
  - rewrite !lookup_ge_None_2; [done|rewrite length_take; lia|rewrite length_fbytes; lia].
Qed.

Lemma fbytes_ext f g off n : (∀ o, off <= o < off + n → f o = g o) → fbytes f off n = fbytes g off n.
Proof. intros Hfg. apply list_fmap_ext. intros j o Ho%lookup_seqZ. apply Hfg. lia. Qed.

(** C27: what is written is read back.  The bytes that a [writei] reports as written,
    and the [m] bytes of the file before them, are what a [readi] of this range
    finds afterwards. *)
Theorem writei_readi copyin tx h s v lg out i x src off bs K m :
  frep tx h s (Tx v out lg []) → fs_ok tx (f_sb s) v out → file_ok tx (f_sb s) v out x → full v x → dinode_ok (to_dinode x) →
  f_itable s !! i = Some x → i_dev x = ROOTDEV → 0 <= i_inum x < sb_ninodes (f_sb s) →
  source_of copyin src bs → Forall is_byte bs → 0 <= src < 2 ^ 64 →
  let n := Z.of_nat (length bs) in
  0 <= off <= i_size x → off + n <= MAXFILE * BSIZE → n + off mod BSIZE <= BSIZE * Z.of_nat K →
  Z.of_nat (length lg + 6 * K) < tx_cap tx → (length lg + length out + 6 * K < 28)%nat → 0 <= m <= off ->
  ∃ k s' s2, writei copyin i src off n (Thread h s) = Ok k (Thread h s') ∧ 0 <= k <= n ∧
    readi local_out i (replicate (Z.to_nat (m + k)) 0) 0 (off - m) (m + k) (Thread h s') =
      Ok (m + k, fbytes (fbyte v x) (off - m) m ++ take (Z.to_nat k) bs) (Thread h s2).
Proof.
  intros Hr Hk Hf Hfull Hdi Hx Hd Hn Hsrc Hbs Hs64 n Ho Hmax HK Hcap Hl Hm.
  assert (MAXFILE * BSIZE = 272384) as Emax by done. pose proof Hfull as [Hsz _]. rewrite Emax in *.
  pose proof (writei_run copyin tx h s v lg out i x src off bs K) as W. fold n in W. cbv zeta in W.
  rewrite (proj2 (Z.ltb_ge (i_size x) off)), Emax, (proj2 (Z.ltb_ge 272384 (off + n))) in W by lia. cbn [orb] in W.
  destruct W as (k & s' & v' & x' & E & Hkr & W); try done; try lia.
  destruct W as [(lg' & R' & L') (K' & F' & Fu' & Sb') T' A' B' _ _ _ _].
  assert (f_itable s' !! i = Some x') as Hx' by (rewrite T'; apply list_lookup_insert_eq; by eapply lookup_lt_Some).
  assert (i_dev x' = ROOTDEV ∧ i_size x' = Z.max (i_size x) (off + k)) as [Hd' Hsz'] by (rewrite A'; done).
  rewrite <- Sb' in F'.
  assert (read_len (i_size x') (off - m) (m + k) = m + k) as Erl.
  { unfold read_len. rewrite Hsz'. destruct (Z.ltb_spec (off - m) (Z.max (i_size x) (off + k))); lia. }
  destruct (readi_local tx h s' v' out lg' i x' (replicate (Z.to_nat (m + k)) 0) (off - m) (m + k)) as (s2 & E2 & _ & _); try done; try lia.
  { rewrite Erl, length_replicate. lia. }
  rewrite Erl in E2. exists k, s', s2. split; [exact E|]. split; [lia|]. rewrite E2. do 2 f_equal.
  assert (fbytes (fbyte v' x') (off - m) (m + k) = fbytes (fbyte v x) (off - m) m ++ take (Z.to_nat k) bs) as ->.
  { rewrite fbytes_app by lia. replace (off - m + m) with off by lia. f_equal.
    - apply fbytes_ext. intros o Hor. rewrite B' by lia. unfold wrote. by rewrite decide_False by lia.
    - rewrite (fbytes_ext (fbyte v' x') (wrote (fbyte v x) off (take (Z.to_nat k) bs))) by (intros o Hor; apply B'; lia).
      by apply fbytes_wrote. }
  set (l := _ ++ _). assert (length l = Z.to_nat (m + k)) as Ell.
  { subst l. rewrite length_app, length_fbytes, length_take. lia. }
  unfold splice. cbn [Nat.add]. rewrite Ell, take_0, drop_replicate, Nat.sub_diag, app_nil_r. done.
Qed.
End file.
