(* ===== verification/FsDir.v ===== *)
(** * fs.c, fourth layer: directories

    A directory is a file of 16-byte entries.  [dirlookup] and [dirlink] against the
    directory as a map from names to inode numbers. *)

From S2P Require Import Prelude Param CString FsDisk BlockLayer Fs FsBlocks FsInode FsFile.

(** ** Names *)

(** The name in a field of [DIRSIZ] bytes, or in a C string: its first [DIRSIZ]
    bytes up to a NUL. *)
Fixpoint until_nul (l : list Z) : list Z :=
  match l with [] => [] | c :: l => if c =? 0 then [] else c :: until_nul l end.

Definition cname (l : list Z) : list Z := take (Z.to_nat DIRSIZ) (until_nul l).

Lemma until_nul_prefix l i : (i < length (until_nul l))%nat → until_nul l !! i = l !! i.
Proof.
  revert i; induction l as [|c l IH]; intros i Hi; cbn [until_nul length] in *; [lia|]. destruct (c =? 0); cbn [length] in *; [lia|].
  destruct i as [|i]; [done|]. cbn. apply IH. lia.
Qed.

Lemma until_nul_stop l c : l !! length (until_nul l) = Some c → c = 0.
Proof. induction l as [|x l IH]; cbn [until_nul]; [done|]. destruct (Z.eqb_spec x 0) as [E|E]; cbn [length]; [|apply IH]. cbn. by intros [= <-]. Qed.

Lemma cname_bytes l : Forall is_byte l → Forall (λ c, 0 < c < 256) (cname l).
Proof.
  intros Hl. unfold cname. apply Forall_take. induction Hl as [|c l Hc Hl IH]; cbn [until_nul]; [constructor|].
  destruct (Z.eqb_spec c 0); [constructor|]. constructor; [unfold is_byte in Hc; lia|done].
Qed.

Lemma cname_cpre m a l : Forall is_byte l → (∀ i, (i < 14)%nat → m (a + Z.of_nat i) = default 0 (l !! i)) → cpre m a 14 (cname l).
Proof.
  intros Hb Hm. split; [by apply cname_bytes|]. intros i Hi Hil. rewrite Hm by done. unfold cname in *. change (Z.to_nat DIRSIZ) with 14%nat in *.
  rewrite length_take in Hil. destruct (decide (i < length (until_nul l))%nat) as [Hlt|Hge].
  - rewrite lookup_take_lt by lia. by rewrite until_nul_prefix.
  - rewrite (lookup_ge_None_2 (take 14 _)) by (rewrite length_take; lia). replace i with (length (until_nul l)) by lia.
    destruct (l !! _) as [c|] eqn:E; [|done]. by apply until_nul_stop in E as ->.
Qed.

Lemma two_strings_fst s t i : (i < 14)%nat → two_strings s t (0 + Z.of_nat i) = default 0 (s !! i).
Proof. intros Hi. unfold two_strings. rewrite (proj2 (Z.ltb_lt _ 16)) by lia. do 2 f_equal. lia. Qed.

Lemma two_strings_snd s t i : two_strings s t (16 + Z.of_nat i) = default 0 (t !! i).
Proof. unfold two_strings. rewrite (proj2 (Z.ltb_ge _ 16)) by lia. do 2 f_equal. lia. Qed.

(** [namecmp] compares names. *)
Lemma namecmp_eq s t : Forall is_byte s → Forall is_byte t → (namecmp s t =? 0) = bool_decide (cname s = cname t).
Proof.
  intros Hs Ht. unfold namecmp, strncmp. change (Z.to_nat DIRSIZ) with 14%nat.
  rewrite (strncmp_loop_spec 14 0 16 _ (cname s) (cname t)).
  - assert (∀ l, Forall is_byte l → Forall (λ c, 0 < c) (cname l)) as Hp.
    { intros l Hl. eapply Forall_impl; [by apply cname_bytes|]. cbn. lia. }
    pose proof (str_cmp_n_zero 14 (cname s) (cname t) (Hp s Hs) (Hp t Ht)) as E.
    assert (∀ l, take 14 (cname l) = cname l) as Et by (intros l; apply take_ge; unfold cname; rewrite length_take; change (Z.to_nat DIRSIZ) with 14%nat; lia).
    rewrite !Et in E. case_bool_decide as Hc; [apply Z.eqb_eq; tauto|apply Z.eqb_neq; tauto].
  - apply cname_cpre; [done|]. apply two_strings_fst.
  - apply cname_cpre; [done|]. intros i _. apply two_strings_snd.
Qed.

Lemma take_while_pos l : Forall is_byte l → Forall (λ c, 0 < c < 256) (until_nul l).
Proof.
  induction 1 as [|c l Hc Hl IH]; cbn [until_nul]; [constructor|]. destruct (Z.eqb_spec c 0); [constructor|].
  constructor; [unfold is_byte in Hc; lia|done].
Qed.

(** The stored name. *)
Lemma copy_name_lookup dst name i : Forall is_byte name → (i < 14)%nat →
  copy_name dst name !! i = Some (default 0 (until_nul name !! i)).
Proof.
  intros Hn Hi. unfold copy_name. change (Z.to_nat DIRSIZ) with 14%nat. rewrite lookup_bytes_at by lia.
  unfold strncpy. change (Z.to_nat DIRSIZ) with 14%nat. rewrite (strncpy_loop_spec 14 0 16 _ (until_nul name)).
  - rewrite decide_True by lia. do 3 f_equal. lia.
  - split.
    + intros j c Hj. pose proof (Forall_lookup_1 _ _ _ _ (take_while_pos name Hn) Hj) as Hc. cbn in Hc. split; [|lia].
      rewrite two_strings_snd. rewrite <- (until_nul_prefix name j) by (by eapply lookup_lt_Some). by rewrite Hj.
    + rewrite two_strings_snd. destruct (name !! _) as [c|] eqn:E; [|done]. by apply until_nul_stop in E as ->.
  - left. lia.
Qed.

Lemma length_copy_name dst name : length (copy_name dst name) = 14%nat.
Proof. unfold copy_name. by rewrite length_bytes_at. Qed.

Lemma copy_name_bytes dst name : Forall is_byte name → Forall is_byte (copy_name dst name).
Proof.
  intros Hn. apply Forall_lookup. intros i c Hi. pose proof (lookup_lt_Some _ _ _ Hi) as Hlt. rewrite length_copy_name in Hlt.
  rewrite copy_name_lookup in Hi by done. injection Hi as <-.
  destruct (until_nul name !! i) as [c|] eqn:E; cbn; [|unfold is_byte; lia].
  pose proof (Forall_lookup_1 _ _ _ _ (take_while_pos name Hn) E). unfold is_byte. cbn in *. lia.
Qed.

Lemma take_while_replicate n (l : list Z) : Forall (λ c, c ≠ 0) l → until_nul (l ++ replicate n 0) = l.
Proof.
  induction 1 as [|c l Hc Hl IH]; cbn [app until_nul]; [destruct n; done|]. by rewrite (proj2 (Z.eqb_neq c 0)), IH.
Qed.

Lemma cname_copy dst name : Forall is_byte name → cname (copy_name dst name) = cname name.
Proof.
  intros Hn. set (l := until_nul name). pose proof (take_while_pos name Hn) as Hp. fold l in Hp.
  assert (copy_name dst name = take 14 l ++ replicate (14 - length l) 0) as E.
  { apply list_eq. intros i. destruct (decide (i < 14)%nat) as [Hi|Hi].
    - rewrite copy_name_lookup by done. fold l. destruct (decide (i < length l)%nat).
      + rewrite lookup_app_l, lookup_take_lt by (rewrite ?length_take; lia). destruct (lookup_lt_is_Some_2 l i) as [c Hc]; [done|]. by rewrite Hc.
      + rewrite lookup_app_r, lookup_replicate_2, (lookup_ge_None_2 l i) by (rewrite ?length_take; lia). done.
    - rewrite !lookup_ge_None_2; [done|rewrite length_app, length_take, length_replicate; lia|rewrite length_copy_name; lia]. }
  rewrite E. unfold cname. change (Z.to_nat DIRSIZ) with 14%nat. rewrite take_while_replicate.
  - rewrite take_take. by rewrite Nat.min_id.
  - apply Forall_take. eapply Forall_impl; [exact Hp|]. cbn. lia.
Qed.

(** ** Entries *)

(** Entry [k] of a directory with the bytes [f], and whether it is one of [name]. *)
Definition dent (f : Z → Z) (k : Z) : list Z := fbytes f (16 * k) 16.
Definition names (de name : list Z) : bool := negb (de_inum de =? 0) && bool_decide (cname name = cname (de_name de)).

(** The first of the entries [k], .., [k + n - 1] that [P] holds of. *)
Fixpoint dir_find (P : list Z → bool) (f : Z → Z) (n : nat) (k : Z) : option Z :=
  match n with
  | O => None
  | S n => if P (dent f k) then Some k else dir_find P f n (k + 1)
  end.

Definition nents (x : inode) : nat := Z.to_nat (i_size x / 16).

(** The directory as a map: the inode number of a name. *)
Definition dir_map (v : Z → block) (x : inode) (name : list Z) : option Z :=
  (λ k, de_inum (dent (fbyte v x) k)) <$> dir_find (λ de, names de name) (fbyte v x) (nents x) 0.

Lemma dir_find_spec P f n k :
  match dir_find P f n k with
  | Some j => k <= j < k + Z.of_nat n ∧ P (dent f j) = true ∧ ∀ i, k <= i < j → P (dent f i) = false
  | None => ∀ i, k <= i < k + Z.of_nat n → P (dent f i) = false
  end.
Proof.
  revert k; induction n as [|n IH]; intros k; cbn [dir_find]; [intros; lia|].
  destruct (P (dent f k)) eqn:E; [split_and!; [lia|lia|done|intros; lia]|].
  specialize (IH (k + 1)). destruct (dir_find P f n (k + 1)) as [j|].
  - destruct IH as (H1 & H2 & H3). split_and!; [lia|lia|done|]. intros i Hi. destruct (decide (i = k)) as [->|]; [done|]. apply H3. lia.
  - intros i Hi. destruct (decide (i = k)) as [->|]; [done|]. apply IH. lia.
Qed.

Lemma dir_find_unique P f n k j : k <= j < k + Z.of_nat n → P (dent f j) = true → (∀ i, k <= i < j → P (dent f i) = false) →
  dir_find P f n k = Some j.
Proof.
  intros Hj Hp Hlt. pose proof (dir_find_spec P f n k) as Hs. destruct (dir_find P f n k) as [j'|].
  - destruct Hs as (H1 & H2 & H3). destruct (Z.lt_trichotomy j j') as [Hc|[->|Hc]]; [|done|].
    + rewrite H3 in Hp by lia. done.
    + rewrite Hlt in H2 by lia. done.
  - rewrite Hs in Hp by lia. done.
Qed.

Lemma dir_find_none P f n k : (∀ i, k <= i < k + Z.of_nat n → P (dent f i) = false) → dir_find P f n k = None.
Proof.
  intros Hall. pose proof (dir_find_spec P f n k) as Hs. destruct (dir_find P f n k) as [j|]; [|done].
  destruct Hs as (H1 & H2 & _). by rewrite Hall in H2 by lia.
Qed.

Section dir.
Context {B : Type} `{BL : BlockLaws B}.
Implicit Types s : fs B.

(** A directory in the table. *)
Record dir_ok (tx : txinfo) (h : list lockname) s (v : Z → block) (out : list (nat * Z)) (lg : list Z) (i : nat) (x : inode) : Prop := {
  do_rep : frep tx h s (Tx v out lg []);
  do_file : file_ok tx (f_sb s) v out x;
  do_full : full v x;
  do_size : i_size x mod 16 = 0;
  do_tab : f_itable s !! i = Some x;
  do_dev : i_dev x = ROOTDEV;
  do_log : (length lg + length out < 29)%nat }.

Lemma dir_ok_mem tx h s s' v out lg i x : dir_ok tx h s v out lg i x → same_mem s s' → frep tx h s' (Tx v out lg []) → dir_ok tx h s' v out lg i x.
Proof.
  intros [D1 D2 D3 D4 D5 D6 D7] M R. split; try done; [by rewrite (same_mem_sb _ _ M)|by rewrite (same_mem_itable _ _ M)].
Qed.

Lemma dir_size tx h s v out lg i x : dir_ok tx h s v out lg i x → i_size x = 16 * Z.of_nat (nents x) ∧ 0 <= i_size x <= 272384.
Proof.
  intros D. destruct (do_full _ _ _ _ _ _ _ _ D) as [Hs _]. change (MAXFILE * BSIZE) with 272384 in Hs. pose proof (do_size _ _ _ _ _ _ _ _ D).
  split; [|done]. unfold nents. rewrite Z2Nat.id by (apply Z.div_pos; lia). pose proof (Z.div_mod (i_size x) 16 ltac:(done)). lia.
Qed.

Lemma read_dirent_run tx h s v out lg i x k : dir_ok tx h s v out lg i x → 0 <= k < Z.of_nat (nents x) →
  ∃ s', read_dirent i (16 * k) (Thread h s) = Ok (16, dent (fbyte v x) k) (Thread h s') ∧ same_mem s s' ∧ dir_ok tx h s' v out lg i x.
Proof.
  intros D Hk. pose proof (dir_size _ _ _ _ _ _ _ _ D) as [Hs Hs2]. pose proof D as [D1 D2 D3 D4 D5 D6 D7].
  assert (read_len (i_size x) (16 * k) 16 = 16) as Er by (unfold read_len; rewrite (proj2 (Z.ltb_lt _ _)) by lia; lia).
  destruct (readi_local tx h s v out lg i x (replicate 16 0) (16 * k) 16) as (s' & E & M & R); try done; try lia.
  { rewrite Er, length_replicate. lia. }
  rewrite Er in E. exists s'. split; [|split; [done|by eapply dir_ok_mem]]. unfold read_dirent. change DIRENT_SIZE with 16. change (Z.to_nat 16) with 16%nat.
  rewrite E. reflexivity.
Qed.

Lemma fbyte_is_byte v x o : (∀ b, block_ok (v b)) → is_byte (fbyte v x o).
Proof.
  intros Hok. unfold fbyte. destruct (_ =? 0); [unfold is_byte; lia|]. apply (Forall_lookup_default is_byte 0 (v _) _); [unfold is_byte; lia|apply Hok].
Qed.

Lemma de_name_bytes v x k : (∀ b, block_ok (v b)) → Forall is_byte (de_name (dent (fbyte v x) k)).
Proof. intros Hok. unfold de_name. apply slice_Forall. unfold dent, fbytes. apply Forall_fmap, Forall_forall. intros o _. by apply fbyte_is_byte. Qed.

Lemma dirlookup_loop_run tx h v out lg i x name : Forall is_byte name →
  ∀ n fuel s k, dir_ok tx h s v out lg i x → 0 <= k → Z.of_nat (nents x) - k = Z.of_nat n → (n < fuel)%nat →
  ∃ s', same_mem s s' ∧ dir_ok tx h s' v out lg i x ∧
    dirlookup_loop fuel i name (16 * k) (Thread h s) =
      match dir_find (λ de, names de name) (fbyte v x) n k with
      | None => Ok None (Thread h s')
      | Some k => (let! ip := iget ROOTDEV (de_inum (dent (fbyte v x) k)) in ret (Some (ip, 16 * k))) (Thread h s')
      end.
Proof.
  intros Hn. induction n as [|n IH]; intros fuel s k D Hk Hnk Hf; (destruct fuel as [|fuel]; [lia|]); cbn [dirlookup_loop dir_find];
    kstep; cbn [st]; rewrite (geti_lookup i s x (do_tab _ _ _ _ _ _ _ _ D)); pose proof (dir_size _ _ _ _ _ _ _ _ D) as [Hs Hs2].
  - rewrite (proj2 (Z.ltb_ge _ _)) by lia. exists s. split; [apply same_mem_refl|done].
  - rewrite (proj2 (Z.ltb_lt _ _)) by lia. destruct (read_dirent_run tx h s v out lg i x k D ltac:(lia)) as (s1 & E1 & M1 & D1).
    rewrite (bind_Ok _ _ _ _ _ E1). change DIRENT_SIZE with 16. rewrite Z.eqb_refl. cbn [negb panic_if]. kstep.
    assert (∀ b, block_ok (v b)) as Hok by (intros b; apply (brep_ok _ _ _ _ b (do_rep _ _ _ _ _ _ _ _ D))).
    set (de := dent (fbyte v x) k). rewrite namecmp_eq by (done || by apply de_name_bytes).
    assert (u32 (16 * k + 16) = 16 * (k + 1)) as Eu by (rewrite u32_small by lia; lia). rewrite Eu.
    destruct (IH fuel s1 (k + 1) D1 ltac:(lia) ltac:(lia) ltac:(lia)) as (s2 & M2 & D2 & E2).
    unfold names at 1. destruct (de_inum de =? 0); cbn [negb andb]; [exists s2; split; [by eapply same_mem_trans|done]|].
    case_bool_decide; [|exists s2; split; [by eapply same_mem_trans|done]].
    exists s1. split; [done|]. split; [done|]. kstep. cbn [st]. by rewrite (geti_lookup i s1 x (do_tab _ _ _ _ _ _ _ _ D1)), (do_dev _ _ _ _ _ _ _ _ D1).
Qed.

Lemma dirlookup_run tx h s v out lg i x name : Forall is_byte name → dir_ok tx h s v out lg i x → i_type x = T_DIR →
  ∃ s', same_mem s s' ∧ dir_ok tx h s' v out lg i x ∧
    dirlookup i name (Thread h s) =
      match dir_find (λ de, names de name) (fbyte v x) (nents x) 0 with
      | None => Ok None (Thread h s')
      | Some k => (let! ip := iget ROOTDEV (de_inum (dent (fbyte v x) k)) in ret (Some (ip, 16 * k))) (Thread h s')
      end.
Proof.
  intros Hn D Ht. pose proof (dir_size _ _ _ _ _ _ _ _ D) as [Hs Hs2].
  destruct (dirlookup_loop_run tx h v out lg i x name Hn (nents x) (dir_fuel (i_size x)) s 0 D) as (s' & M & D' & E); [lia|lia|unfold dir_fuel, nents; change DIRENT_SIZE with 16; lia|].
  exists s'. split; [done|]. split; [done|]. unfold dirlookup. kstep. cbn [st]. rewrite (geti_lookup i s x (do_tab _ _ _ _ _ _ _ _ D)), Ht, Z.eqb_refl.
  cbn [negb panic_if]. kstep. exact E.
Qed.

(** [dirlookup] is the lookup of a name in the directory.  It returns nothing
    exactly when no entry in use has the name, where names are compared up to a NUL
    or their [DIRSIZ] bytes; otherwise it returns the table entry of the inode of the
    first such entry, with a new reference, and the entry's offset, or panics when a
    new table entry is needed and there is none.  It changes no block. *)
Theorem dirlookup_correct tx h s v out lg i x name :
  Forall is_byte name → dir_ok tx h s v out lg i x → i_type x = T_DIR → L_itable ∉ h → table_ok (f_itable s) →
  match dir_map v x name with
  | None => ∃ s', dirlookup i name (Thread h s) = Ok None (Thread h s') ∧ same_mem s s' ∧ dir_ok tx h s' v out lg i x
  | Some inum =>
      (∃ ip off s', dirlookup i name (Thread h s) = Ok (Some (ip, off)) (Thread h s') ∧ entry_of (f_itable s') ROOTDEV inum ip ∧
        table_ok (f_itable s') ∧ frep tx h s' (Tx v out lg []) ∧
        0 <= off < i_size x ∧ off mod 16 = 0 ∧ de_inum (dent (fbyte v x) (off / 16)) = inum) ∨
      (dirlookup i name (Thread h s) = Panic "iget: no inodes" ∧ ∀ j y, f_itable s !! j = Some y → 0 < i_ref y)
  end.
Proof.
  intros Hn D Ht Hl Htab. destruct (dirlookup_run tx h s v out lg i x name Hn D Ht) as (s' & M & D' & E).
  unfold dir_map. pose proof (dir_find_spec (λ de, names de name) (fbyte v x) (nents x) 0) as Hf.
  destruct (dir_find _ _ _ _) as [k|]; cbn [fmap option_fmap option_map]; [|by exists s'].
  pose proof (dir_size _ _ _ _ _ _ _ _ D) as [Hs Hs2]. rewrite E.
  destruct (iget_run h s' ROOTDEV (de_inum (dent (fbyte v x) k))) as [(ip & y & s2 & E2 & _ & -> & _ & En & Tk)|(E2 & _ & Hall)].
  - done.
  - by rewrite (same_mem_itable _ _ M).
  - left. rewrite (bind_Ok _ _ _ _ _ E2). eexists ip, (16 * k), _. split; [reflexivity|]. split; [exact En|]. split; [exact Tk|].
    split; [apply (do_rep _ _ _ _ _ _ _ _ D')|]. split; [lia|]. rewrite Z.mul_comm, Z.div_mul, Z.mod_mul by done. done.
  - right. split; [unfold bind; by rewrite E2|]. by rewrite (same_mem_itable _ _ M) in Hall.
Qed.

(** ** [dirlink] *)

Lemma empty_loop_run tx h v out lg i x :
  ∀ n fuel s k, dir_ok tx h s v out lg i x → 0 <= k → Z.of_nat (nents x) - k = Z.of_nat n → (n < fuel)%nat →
  ∃ s', same_mem s s' ∧ dir_ok tx h s' v out lg i x ∧
    empty_loop fuel i (16 * k) (Thread h s) =
      Ok (16 * default (Z.of_nat (nents x)) (dir_find (λ de, de_inum de =? 0) (fbyte v x) n k)) (Thread h s').
Proof.
  induction n as [|n IH]; intros fuel s k D Hk Hnk Hf; (destruct fuel as [|fuel]; [lia|]); cbn [empty_loop dir_find];
    kstep; cbn [st]; rewrite (geti_lookup i s x (do_tab _ _ _ _ _ _ _ _ D)); pose proof (dir_size _ _ _ _ _ _ _ _ D) as [Hs Hs2].
  - rewrite (proj2 (Z.ltb_ge _ _)) by lia. exists s. split; [apply same_mem_refl|]. split; [done|]. cbn. by replace k with (Z.of_nat (nents x)) by lia.
  - rewrite (proj2 (Z.ltb_lt _ _)) by lia. destruct (read_dirent_run tx h s v out lg i x k D ltac:(lia)) as (s1 & E1 & M1 & D1).
    rewrite (bind_Ok _ _ _ _ _ E1). change DIRENT_SIZE with 16. rewrite Z.eqb_refl. cbn [negb panic_if]. kstep.
    destruct (IH fuel s1 (k + 1) D1 ltac:(lia) ltac:(lia) ltac:(lia)) as (s2 & M2 & D2 & E2).
    destruct (de_inum _ =? 0); [by exists s1|]. exists s2. split; [by eapply same_mem_trans|]. split; [done|].
    replace (16 * k + 16) with (16 * (k + 1)) by lia. exact E2.
Qed.

(** The slot that [dirlink] uses. *)
Definition free_slot (v : Z → block) (x : inode) : Z :=
  default (Z.of_nat (nents x)) (dir_find (λ de, de_inum de =? 0) (fbyte v x) (nents x) 0).

Definition new_dirent (name : list Z) (inum : Z) : list Z := mk_dirent inum (copy_name (replicate (Z.to_nat DIRSIZ) 0) name).

Lemma free_slot_range v x : 0 <= free_slot v x <= Z.of_nat (nents x) ∧ (free_slot v x < Z.of_nat (nents x) → de_inum (dent (fbyte v x) (free_slot v x)) = 0).
Proof.
  unfold free_slot. pose proof (dir_find_spec (λ de, de_inum de =? 0) (fbyte v x) (nents x) 0) as Hf. destruct (dir_find _ _ _ _) as [j|]; cbn.
  - destruct Hf as (H1 & H2 & _). split; [lia|]. intros _. by apply Z.eqb_eq.
  - split; [lia|]. lia.
Qed.

Lemma length_new_dirent name inum : length (new_dirent name inum) = 16%nat.
Proof. unfold new_dirent, mk_dirent. by rewrite length_app, length_le_bytes, length_copy_name. Qed.

Lemma new_dirent_bytes name inum : Forall is_byte name → Forall is_byte (new_dirent name inum).
Proof. intros Hn. unfold new_dirent, mk_dirent. apply Forall_app. split; [apply le_bytes_is_byte|by apply copy_name_bytes]. Qed.

Lemma new_dirent_inum name inum : 0 <= inum < 2 ^ 16 → de_inum (new_dirent name inum) = inum.
Proof.
  intros Hi. unfold de_inum, new_dirent, mk_dirent, slice. rewrite drop_0, take_app_le by (rewrite length_le_bytes; lia).
  rewrite take_ge by (rewrite length_le_bytes; lia). rewrite le_val_bytes. unfold u16. change (8 * Z.of_nat 2) with 16. by rewrite Z.mod_mod, Z.mod_small by lia.
Qed.

Lemma new_dirent_name name inum : de_name (new_dirent name inum) = copy_name (replicate (Z.to_nat DIRSIZ) 0) name.
Proof.
  unfold de_name, new_dirent, mk_dirent, slice. rewrite drop_app_length' by (by rewrite length_le_bytes).
  apply take_ge. by rewrite length_copy_name.
Qed.

Lemma written_mem tx h out i off bs k s s1 v x s' v' x' : same_mem s s1 → written tx h out i off bs k s1 v x s' v' x' →
  written tx h out i off bs k s v x s' v' x'.
Proof. intros [b ->] [W1 W2 W3 W4 W5 W6 W7 W8 W9]. split; done. Qed.

Lemma local_in_source bs : Z.of_nat (length bs) < 2 ^ 64 → source_of (local_in bs) 0 bs.
Proof. intros Hb j m Hj Hm Hs. unfold local_in. by rewrite Z.add_0_l, u64_small by lia. Qed.

Lemma dirlink_new tx h s v out lg i x name inum :
  Forall is_byte name → dir_ok tx h s v out lg i x → i_type x = T_DIR → fs_ok tx (f_sb s) v out → dinode_ok (to_dinode x) →
  0 <= i_inum x < sb_ninodes (f_sb s) → Z.of_nat (length lg + 6) < tx_cap tx → (length lg + length out < 22)%nat →
  i_size x + 16 <= MAXFILE * BSIZE → dir_map v x name = None →
  ∃ k s' v' x', dirlink i name inum (Thread h s) = Ok (if k =? 16 then 0 else -1) (Thread h s') ∧ 0 <= k <= 16 ∧
    written tx h out i (16 * free_slot v x) (new_dirent name inum) k s v x s' v' x'.
Proof.
  intros Hn D Ht Hk Hdi Hin Hcap Hl Hmax Hnone. destruct (dirlookup_run tx h s v out lg i x name Hn D Ht) as (s1 & M1 & D1 & E1).
  pose proof (dir_size _ _ _ _ _ _ _ _ D) as [Hs Hs2]. change (MAXFILE * BSIZE) with 272384 in *. destruct (free_slot_range v x) as [Hfs _].
  unfold dir_map in Hnone. destruct (dir_find (λ de, names de name) _ _ _); [done|].
  unfold dirlink. rewrite (bind_Ok _ _ _ _ _ E1). kstep. cbn [st]. rewrite (geti_lookup i s1 x (do_tab _ _ _ _ _ _ _ _ D1)).
  destruct (empty_loop_run tx h v out lg i x (nents x) (dir_fuel (i_size x)) s1 0 D1) as (s2 & M2 & D2 & E2);
    [lia|lia|unfold dir_fuel, nents; change DIRENT_SIZE with 16; lia|]. rewrite (bind_Ok _ _ _ _ _ E2).
  change (16 * default _ _) with (16 * free_slot v x). rewrite u32_small by lia.
  change (mk_dirent inum _) with (new_dirent name inum). change DIRENT_SIZE with 16.
  assert (same_mem s s2) as M by (by eapply same_mem_trans). pose proof D2 as [P1 P2 P3 P4 P5 P6 P7].
  assert (f_sb s2 = f_sb s) as Es by (by apply same_mem_sb).
  pose proof (writei_run (local_in (new_dirent name inum)) tx h s2 v lg out i x 0 (16 * free_slot v x) (new_dirent name inum) 1) as W.
  cbv zeta in W. rewrite length_new_dirent, Es in W. change (Z.of_nat 16) with 16 in W. change (MAXFILE * BSIZE) with 272384 in W.
  rewrite (proj2 (Z.ltb_ge (i_size x) _)), (proj2 (Z.ltb_ge 272384 _)) in W by lia. cbn [orb] in W.
  destruct W as (k & s3 & v3 & x3 & E3 & Hk3 & W); try done; try lia.
  - by rewrite Es in P2.
  - apply local_in_source. rewrite length_new_dirent. lia.
  - by apply new_dirent_bytes.
  - change BSIZE with 1024. pose proof (Z.div_mod (16 * free_slot v x) 1024 ltac:(done)). pose proof (Z.mod_pos_bound (16 * free_slot v x) 1024 ltac:(done)). lia.
  - exists k, s3, v3, x3. rewrite (bind_Ok _ _ _ _ _ E3). split; [done|]. split; [lia|]. by eapply written_mem.
Qed.

Lemma dent_ext f g j : (∀ o, 16 * j <= o < 16 * j + 16 → f o = g o) → dent f j = dent g j.
Proof. apply fbytes_ext. Qed.

Lemma dent_wrote f slot de j : length de = 16%nat → dent (wrote f (16 * slot) de) j = if decide (j = slot) then de else dent f j.
Proof.
  intros Hl. case_decide as E.
  - subst. unfold dent. pose proof (fbytes_wrote f (16 * slot) de 16) as W. change (Z.to_nat 16) with 16%nat in W.
    rewrite take_ge in W by lia. apply W. lia.
  - apply dent_ext. intros o Ho. unfold wrote. rewrite Hl. by rewrite decide_False by lia.
Qed.

(** The directory with one more entry, as a map. *)
Lemma dir_map_insert v x v' x' slot de name inum :
  length de = 16%nat → (0 <= slot <= Z.of_nat (nents x)) → (slot < Z.of_nat (nents x) → de_inum (dent (fbyte v x) slot) = 0) →
  Z.of_nat (nents x') = Z.max (Z.of_nat (nents x)) (slot + 1) →
  (∀ j, 0 <= j < Z.of_nat (nents x') → dent (fbyte v' x') j = if decide (j = slot) then de else dent (fbyte v x) j) →
  de_inum de = inum → inum ≠ 0 → cname (de_name de) = cname name → dir_map v x name = None →
  ∀ nm, dir_map v' x' nm = if bool_decide (cname nm = cname name) then Some inum else dir_map v x nm.
Proof.
  intros Hl Hs Hfree Hn Hd Hi Hnz Hc Hnone nm. unfold dir_map in *. set (P := λ de, names de nm).
  assert (∀ j, 0 <= j < Z.of_nat (nents x) → j ≠ slot → P (dent (fbyte v' x') j) = P (dent (fbyte v x) j)) as Hsame.
  { intros j Hj Hne. rewrite Hd, decide_False by (done || lia). done. }
  case_bool_decide as E.
  - pose proof (dir_find_spec (λ de, names de name) (fbyte v x) (nents x) 0) as Hf.
    destruct (dir_find (λ de, names de name) _ _ _); [done|].
    assert (∀ de, P de = names de name) as Hp by (intros d; unfold P, names; by rewrite E).
    rewrite (dir_find_unique P _ _ _ slot).
    + cbn. rewrite Hd, decide_True by (done || lia). by rewrite Hi.
    + lia.
    + rewrite Hd, decide_True by (done || lia). unfold P, names. rewrite Hi, (proj2 (Z.eqb_neq inum 0) Hnz), E. by rewrite bool_decide_true.
    + intros j Hj. rewrite Hsame, Hp by lia. apply Hf. lia.
  - assert (P de = false) as Hpd.
    { unfold P, names. rewrite Hc. rewrite bool_decide_false by done. apply andb_false_r. }
    assert (slot < Z.of_nat (nents x) → P (dent (fbyte v x) slot) = false) as Hps.
    { intros Hlt. unfold P, names. by rewrite Hfree. }
    pose proof (dir_find_spec P (fbyte v x) (nents x) 0) as Hf. destruct (dir_find P (fbyte v x) (nents x) 0) as [j|].
    + destruct Hf as (Hj & Hpj & Hlt). assert (j ≠ slot) as Hjs by (intros ->; rewrite Hps in Hpj by lia; done).
      rewrite (dir_find_unique P _ _ _ j).
      * cbn. rewrite Hd, decide_False by (done || lia). done.
      * lia.
      * rewrite Hsame by lia. done.
      * intros k Hk. destruct (decide (k = slot)) as [->|]; [rewrite Hd, decide_True by (done || lia); done|]. rewrite Hsame by lia. apply Hlt. lia.
    + rewrite dir_find_none; [done|]. intros k Hk. destruct (decide (k = slot)) as [->|]; [rewrite Hd, decide_True by (done || lia); done|].
      rewrite Hsame by lia. apply Hf. lia.
Qed.

Lemma iput_plain h s i x : L_itable ∉ h → f_itable s !! i = Some x → (i_ref x =? 1) && i_valid x && (i_nlink x =? 0) = false →
  iput i (Thread h s) = Ok tt (Thread h (upd_inode i (λ x, with_ref (i_ref x - 1) x) s)).
Proof.
  intros Hl Hx Hc. unfold iput. kstep. kstep. cbn [st held]. rewrite (geti_lookup i s x Hx), Hc. kstep. kstep. cbn [st held]. apply release_Ok.
Qed.

(** C6: [dirlink] inserts a name into the directory.  Under the map from names to
    inode numbers that [dirlookup] computes: a name that is there makes it return
    -1 and change no block (unless the table has no entry for the inode, when it
    panics).  For a new name it returns 0, and the directory maps the name to [inum]
    and every other name to what it was; or it returns -1 because the disk is full.
    Other files and inodes are not changed ([written]). *)
Theorem dirlink_inserts tx h s v out lg i x name inum :
  Forall is_byte name → dir_ok tx h s v out lg i x → i_type x = T_DIR → fs_ok tx (f_sb s) v out → dinode_ok (to_dinode x) →
  0 <= i_inum x < sb_ninodes (f_sb s) → Z.of_nat (length lg + 6) < tx_cap tx → (length lg + length out < 22)%nat →
  i_size x + 16 <= MAXFILE * BSIZE → L_itable ∉ h → table_ok (f_itable s) → 0 < inum < 2 ^ 16 →
  match dir_map v x name with
  | Some _ => (∃ s', dirlink i name inum (Thread h s) = Ok (-1) (Thread h s') ∧ frep tx h s' (Tx v out lg [])) ∨
      dirlink i name inum (Thread h s) = Panic "iget: no inodes"
  | None => ∃ k s' v' x', written tx h out i (16 * free_slot v x) (new_dirent name inum) k s v x s' v' x' ∧
      if k =? 16 then
        dirlink i name inum (Thread h s) = Ok 0 (Thread h s') ∧ i_size x' mod 16 = 0 ∧
        ∀ nm, dir_map v' x' nm = if bool_decide (cname nm = cname name) then Some inum else dir_map v x nm
      else dirlink i name inum (Thread h s) = Ok (-1) (Thread h s') ∧ ∀ c, 0 <= c < sb_size (f_sb s) → used v' (f_sb s) c = true
  end.
Proof.
  intros Hn D Ht Hk Hdi Hin Hcap Hl Hmax Hlk Htab Hnum. destruct (dir_map v x name) as [inum0|] eqn:Em.
  - destruct (dirlookup_run tx h s v out lg i x name Hn D Ht) as (s1 & M & D1 & E). unfold dir_map in Em.
    destruct (dir_find _ _ _ _) as [k|]; [|done]. unfold dirlink.
    destruct (iget_run h s1 ROOTDEV (de_inum (dent (fbyte v x) k))) as [(ip & y & s2 & E2 & Hy & -> & _ & _ & _)|(E2 & _ & _)];
      [done|by rewrite (same_mem_itable _ _ M)| |].
    + left. rewrite (bind_Ok (bind _ _) _ _ _ _ E2) in E. rewrite (bind_Ok _ _ _ _ _ E).
      set (f := λ x, if bool_decide (0 < i_ref x) then _ else _) in *.
      assert (f_itable (upd_inode ip f s1) !! ip = Some (f y)) as Hy2 by (rewrite (upd_lookup ip ip f s1 y Hy); by rewrite decide_True).
      assert ((i_ref (f y) =? 1) && i_valid (f y) && (i_nlink (f y) =? 0) = false) as Hc.
      { subst f. cbv beta. case_bool_decide as Hy0; cbn [with_ref with_entry i_ref i_valid]; [|done]. by rewrite (proj2 (Z.eqb_neq _ 1)) by lia. }
      rewrite (bind_Ok _ _ _ _ _ (iput_plain h _ ip (f y) Hlk Hy2 Hc)). eexists. split; [reflexivity|].
      exact (do_rep _ _ _ _ _ _ _ _ D1).
    + right. unfold bind at 1. rewrite E. unfold bind at 1. by rewrite E2.
  - destruct (dirlink_new tx h s v out lg i x name inum) as (k & s' & v' & x' & E & Hkr & W); try done.
    exists k, s', v', x'. split; [exact W|]. pose proof (dir_size _ _ _ _ _ _ _ _ D) as [Hs Hs2]. change (MAXFILE * BSIZE) with 272384 in *.
    destruct (free_slot_range v x) as [Hfs Hfree]. pose proof (length_new_dirent name inum) as Hlen.
    destruct W as [_ _ _ Ha Hb _ _ _ Hfu]. rewrite Hlen in Hfu. destruct (Z.eqb_spec k 16) as [->|Hne].
    + assert (i_size x' = Z.max (i_size x) (16 * free_slot v x + 16)) as Hsz by (rewrite Ha; done).
      assert (Z.of_nat (nents x') = Z.max (Z.of_nat (nents x)) (free_slot v x + 1)) as Hnx.
      { unfold nents at 1. rewrite Hsz, Hs. rewrite Z2Nat.id by (apply Z.div_pos; lia).
        replace (Z.max (16 * Z.of_nat (nents x)) (16 * free_slot v x + 16)) with (Z.max (Z.of_nat (nents x)) (free_slot v x + 1) * 16) by lia.
        by rewrite Z.div_mul. }
      split; [done|]. split.
      { rewrite Hsz, Hs. replace (Z.max (16 * Z.of_nat (nents x)) (16 * free_slot v x + 16)) with (Z.max (Z.of_nat (nents x)) (free_slot v x + 1) * 16) by lia.
        by rewrite Z.mod_mul. }
      apply (dir_map_insert v x v' x' (free_slot v x) (new_dirent name inum)); try done; try lia.
      * intros j Hj. change (Z.to_nat 16) with 16%nat in Hb. rewrite <- dent_wrote by done. apply dent_ext.
        intros o Ho. rewrite Hb by (change (MAXFILE * BSIZE) with 272384; lia). by rewrite (take_ge (new_dirent name inum)) by lia.
      * apply new_dirent_inum. lia.
      * rewrite new_dirent_name. by apply cname_copy.
    + split; [done|]. apply Hfu. lia.
Qed.
End dir.
