(* ===== verification/FsPath.v ===== *)
(** * fs.c: path names

    [skipelem] against the list of the non-empty components of a path, and the
    comparison of names in directory entries. *)

From S2P Require Import Prelude Param CString FsDisk BlockLayer Fs.

(** The parts of a path between slashes, and its elements: the parts that are
    not empty. *)
Fixpoint parts (l : list Z) : list (list Z) :=
  match l with
  | [] => [[]]
  | c :: r =>
      if c =? slash then [] :: parts r
      else match parts r with p :: ps => (c :: p) :: ps | [] => [[c]] end
  end.

Definition elems (l : list Z) : list (list Z) := filter (λ p, p ≠ []) (parts l).

(** The first [DIRSIZ] bytes of an element, as a C string in the buffer [name]. *)
Definition name_holds (name e : list Z) : Prop :=
  length name = Z.to_nat DIRSIZ ∧ take (length e) name = take (Z.to_nat DIRSIZ) e ∧
  ((length e < Z.to_nat DIRSIZ)%nat → name !! length e = Some 0).

Lemma parts_cons l : ∃ p ps, parts l = p :: ps.
Proof.
  induction l as [|c l (p & ps & IH)]; simpl; [eauto|]. destruct (c =? slash); [eauto|]. rewrite IH. eauto.
Qed.

Lemma elems_slash l : elems (slash :: l) = elems l.
Proof. done. Qed.

Lemma elems_drop l : elems (drop_while (λ c, c =? slash) l) = elems l.
Proof.
  induction l as [|c l IH]; [done|]. cbn [drop_while]. destruct (Z.eqb_spec c slash) as [->|]; [|done].
  by rewrite IH.
Qed.

Lemma parts_app_noslash e l :
  Forall (λ c, c ≠ slash) e →
  parts (e ++ l) = match parts l with p :: ps => (e ++ p) :: ps | [] => [e] end.
Proof.
  destruct (parts_cons l) as (p & ps & Hp). rewrite Hp.
  induction 1 as [|c e Hc He IH]; simpl; [by rewrite Hp|].
  rewrite (proj2 (Z.eqb_neq c slash)) by done. by rewrite IH.
Qed.

(** The rest of the path after an element is empty or starts with a slash. *)
Lemma elems_app e l :
  Forall (λ c, c ≠ slash) e → e ≠ [] → (l = [] ∨ ∃ l', l = slash :: l') → elems (e ++ l) = e :: elems l.
Proof.
  intros He Hne Hl. unfold elems. rewrite parts_app_noslash by done.
  destruct Hl as [->|(l' & ->)].
  - simpl. rewrite app_nil_r, filter_cons, decide_True by done. done.
  - cbn [parts]. rewrite (Z.eqb_refl slash). rewrite filter_cons, app_nil_r, decide_True by done.
    by rewrite filter_cons, decide_False by tauto.
Qed.

(** [skipelem] splits off the first element of a path.  It returns null exactly
    when the path has no element; otherwise [name] holds the element cut to
    [DIRSIZ] bytes, whatever the buffer held before, and the result is the rest of
    the path: shorter, without leading slashes, with the other elements, and empty
    exactly when the element was the last one. *)
Theorem skipelem_correct path name :
  length name = Z.to_nat DIRSIZ →
  match skipelem path name with
  | None => elems path = []
  | Some (rest, name') => ∃ e, elems path = e :: elems rest ∧ name_holds name' e ∧
      (length rest < length path)%nat ∧ head rest ≠ Some slash ∧ (rest = [] ↔ elems rest = [])
  end.
Proof.
  intros Hn. change (Z.to_nat DIRSIZ) with 14%nat in Hn. unfold skipelem. set (isl := λ c, c =? slash). set (nsl := λ c, negb (c =? slash)).
  pose proof (elems_drop path) as He. fold isl in He.
  pose proof (drop_while_head isl path) as Hhd. pose proof (length_drop_while isl path) as Hlen.
  destruct (drop_while isl path) as [|c0 p0] eqn:Ep; [done|]. rewrite <- Ep in *.
  set (p := drop_while isl path) in *. clearbody p. subst p.
  assert (nsl c0 = true) as Hc0 by (unfold nsl; unfold isl in Hhd; by rewrite Hhd).
  set (e := take_while nsl (c0 :: p0)). set (l := drop_while nsl (c0 :: p0)).
  assert (e ≠ []) as Hne by (subst e; simpl; by rewrite Hc0).
  assert (e ++ l = c0 :: p0) as Hel by apply take_drop_while.
  assert (Forall (λ c, c ≠ slash) e) as Hens.
  { eapply Forall_impl; [apply take_while_Forall|]. intros c Hc. unfold nsl in Hc.
    apply negb_true_iff, Z.eqb_neq in Hc. done. }
  assert (l = [] ∨ ∃ l', l = slash :: l') as Hl.
  { pose proof (drop_while_head nsl (c0 :: p0)) as Hd. fold l in Hd. destruct l as [|c l']; [by left|right].
    unfold nsl in Hd. apply negb_false_iff, Z.eqb_eq in Hd. exists l'. congruence. }
  exists e. split_and!.
  - rewrite <- He, <- Hel, elems_app by done. f_equal. subst isl. by rewrite elems_drop.
  - unfold name_holds. change (Z.to_nat DIRSIZ) with 14%nat. unfold DIRSIZ.
    destruct (Z.leb_spec 14 (Z.of_nat (length e))) as [Hlong|Hshort].
    + rewrite length_splice by (rewrite length_take; lia). split_and!; [done| |lia].
      unfold splice. rewrite take_0, app_nil_l, length_take. replace (14 `min` length e)%nat with 14%nat by lia.
      rewrite Nat.add_0_l, drop_ge, app_nil_r by lia. rewrite take_take. f_equal. lia.
    + rewrite length_splice by (rewrite length_app; simpl; lia). split_and!; [done| |].
      * unfold splice. rewrite take_0, app_nil_l. change (Z.to_nat 14) with 14%nat.
        rewrite <- app_assoc, take_app_length. by rewrite take_ge by lia.
      * intros _. rewrite lookup_splice by (rewrite length_app; simpl; lia).
        rewrite length_app, decide_True by (simpl; lia). rewrite Nat.sub_0_r.
        by rewrite lookup_app_r, Nat.sub_diag by lia.
  - rewrite <- Hel, length_app in Hlen. pose proof (length_drop_while isl l).
    destruct e; [done|]. simpl in *. lia.
  - pose proof (drop_while_head isl l) as Hd. destruct (drop_while isl l) as [|c r]; [done|].
    unfold isl in Hd. apply Z.eqb_neq in Hd. simpl. congruence.
  - split; [intros E; by rewrite E|]. intros E. destruct (drop_while isl l) as [|c r] eqn:Er; [done|]. exfalso.
    pose proof (drop_while_head isl l) as Hd. rewrite Er in Hd. unfold isl in Hd.
    revert E. unfold elems. cbn [parts]. rewrite Hd. destruct (parts_cons r) as (q & qs & ->).
    rewrite filter_cons, decide_True by done. done.
Qed.


(** The examples in the source. *)
Lemma skipelem_correct_witness :
  skipelem (str "a/bb/c") (replicate 14 7) = Some (str "bb/c", str "a" ++ 0 :: replicate 12 7) ∧
  skipelem (str "///a//bb") (replicate 14 7) = Some (str "bb", str "a" ++ 0 :: replicate 12 7) ∧
  skipelem (str "a") (replicate 14 7) = Some ([], str "a" ++ 0 :: replicate 12 7) ∧
  skipelem (str "////") (replicate 14 7) = None ∧ elems (str "////") = [].
Proof.
  do 4 (split; [vm_compute; reflexivity|]).
  exact (skipelem_correct (str "////") (replicate 14 7) eq_refl).
Defined.

(** The bytes of elements and of the name buffer come from the path. *)
Lemma elems_Forall (P : Z → Prop) path : Forall P path → Forall (Forall P) (elems path).
Proof.
  intros Hp. apply Forall_forall. intros e He. apply list_elem_of_filter in He as [_ He]. revert e He. apply Forall_forall. induction Hp as [|c l Hc Hl IH]; cbn [parts]; [by repeat constructor|].
  destruct (c =? slash); [by constructor|]. destruct (parts l) as [|p ps]; [by repeat constructor|]. apply Forall_cons in IH as [H1 H2]. by repeat constructor.
Qed.

Lemma drop_while_bytes (P : Z → Prop) p l : Forall P l → Forall P (drop_while p l).
Proof. induction 1 as [|c l Hc Hl IH]; cbn [drop_while]; [done|]. destruct (p c); [done|by constructor]. Qed.

Lemma take_while_bytes (P : Z → Prop) p l : Forall P l → Forall P (take_while p l).
Proof. induction 1 as [|c l Hc Hl IH]; cbn [take_while]; [done|]. destruct (p c); [by constructor|done]. Qed.

Lemma skipelem_bytes (P : Z → Prop) path name rest name' : Forall P path → Forall is_byte path → Forall is_byte name →
  skipelem path name = Some (rest, name') → Forall P rest ∧ Forall is_byte name'.
Proof.
  intros Hq Hp Hn. unfold skipelem. pose proof (drop_while_bytes P (λ c, c =? slash) path Hq) as Hq'.
  pose proof (drop_while_bytes is_byte (λ c, c =? slash) path Hp) as Hd.
  destruct (drop_while _ path) as [|c p]; [done|]. set (q := c :: p) in *. intros Hsk. apply (inj Some) in Hsk. apply pair_equal_spec in Hsk as [<- <-].
  split; [by do 2 apply drop_while_bytes|].
  assert (Forall is_byte (take_while (λ c, negb (c =? slash)) q)) as Ht by (by apply take_while_bytes).
  destruct (_ <=? _); apply splice_Forall; try done; [by apply Forall_take|]. apply Forall_app. split; [done|]. repeat constructor; unfold is_byte; lia.
Qed.
