(* ===== verification/FsNamex.v ===== *)
(** * fs.c: path lookup

    [namex] against the walk through the directories of the disk: which inode a path
    leads to, what it does to the reference counts of the inode table, and that it needs
    no more than two free entries. *)

From S2P Require Import Prelude Param CString FsDisk BlockLayer Fs FsBlocks FsInode FsFile FsDir FsPath.

(** ** The directories on the disk *)

Definition disk_inode (v : Z → block) (sb : superblock) (j : Z) : inode :=
  with_dinode (dinode_at v sb j) (Inode ROOTDEV j 0 false 0 0 0 0 0 []).
Definition type_of (v : Z → block) (sb : superblock) (j : Z) : Z := d_type (dinode_at v sb j).

(** The inode that the name [e] has in the directory [j]. *)
Definition child (v : Z → block) (sb : superblock) (j : Z) (e : list Z) : option Z :=
  if type_of v sb j =? T_DIR then dir_map v (disk_inode v sb j) e else None.

Fixpoint resolve (v : Z → block) (sb : superblock) (j : Z) (es : list (list Z)) : option Z :=
  match es with
  | [] => Some j
  | e :: es => match child v sb j e with Some j' => resolve v sb j' es | None => None end
  end.

(** What [namex] is to find: the inode of the path, or the directory that has, or will
    have, its last element. *)
Definition path_inode (v : Z → block) (sb : superblock) (parent : bool) (j : Z) (es : list (list Z)) : option Z :=
  if parent then
    match es with
    | [] => None
    | _ => match resolve v sb j (removelast es) with
           | Some d => if type_of v sb d =? T_DIR then Some d else None
           | None => None
           end
    end
  else resolve v sb j es.

(** The directories can be read, their entries are inodes in use, and an inode in use has
    a link. *)
Record tree (tx : txinfo) (sb : superblock) (v : Z → block) (out : list (nat * Z)) : Prop := {
  tr_root : type_of v sb ROOTINO ≠ 0 ∧ 0 <= ROOTINO < sb_ninodes sb;
  tr_link : ∀ j, 0 <= j < sb_ninodes sb → type_of v sb j ≠ 0 → d_nlink (dinode_at v sb j) ≠ 0;
  tr_dir : ∀ j, 0 <= j < sb_ninodes sb → type_of v sb j = T_DIR → let x := disk_inode v sb j in
    file_ok tx sb v out x ∧ full v x ∧ i_size x mod 16 = 0 ∧
    ∀ k, 0 <= k < Z.of_nat (nents x) → let i := de_inum (dent (fbyte v x) k) in
      i ≠ 0 → 0 <= i < sb_ninodes sb ∧ type_of v sb i ≠ 0 }.

(** ** References *)

Definition weight (j : Z) (x : inode) : Z := if i_inum x =? j then i_ref x else 0.

(** The references that the table counts for inode [j]. *)
Definition refs (j : Z) (t : list inode) : Z := foldr (λ x n, weight j x + n) 0 t.

(** The walk's own reference. *)
Definition one (j k : Z) : Z := if j =? k then 1 else 0.

Lemma refs_insert t i x y j : t !! i = Some x → refs j (<[i := y]> t) = refs j t - weight j x + weight j y.
Proof.
  revert i; induction t as [|z t IH]; intros i Hi; [done|]. destruct i as [|i]; cbn [insert list_insert] in *.
  - injection Hi as ->. unfold refs. cbn [foldr]. lia.
  - unfold refs in *. cbn [foldr]. change (list_insert i y t) with (<[i := y]> t). rewrite IH by done. lia.
Qed.

Lemma refs_nonneg t j : (∀ i x, t !! i = Some x → 0 <= i_ref x) → 0 <= refs j t.
Proof.
  induction t as [|z t IH]; intros Hp; [done|]. unfold refs. cbn [foldr]. pose proof (Hp 0%nat z eq_refl).
  pose proof (IH (λ i x Hx, Hp (S i) x Hx)) as Hr. unfold refs in Hr. unfold weight at 1. destruct (_ =? _); lia.
Qed.

Lemma refs_entry t i x : (∀ i x, t !! i = Some x → 0 <= i_ref x) → t !! i = Some x → i_ref x <= refs (i_inum x) t.
Proof.
  revert i; induction t as [|z t IH]; intros i Hp Hx; [done|]. unfold refs. cbn [foldr].
  assert (∀ i x, t !! i = Some x → 0 <= i_ref x) as Hp' by exact (λ i x Hx, Hp (S i) x Hx).
  destruct i as [|i]; cbn in Hx.
  - injection Hx as ->. pose proof (refs_nonneg t (i_inum x) Hp') as Hr. unfold refs in Hr. unfold weight at 1. rewrite Z.eqb_refl. lia.
  - pose proof (IH i Hp' Hx) as Hr. unfold refs in Hr. pose proof (Hp 0%nat z eq_refl). unfold weight at 1. destruct (_ =? _); lia.
Qed.

(** The entries in use. *)
Definition in_use (t : list inode) : list inode := filter (λ x, 0 < i_ref x) t.

(** A table whose references are to few inodes has a free entry. *)
Lemma free_entry t U : table_ok t → (∀ i x, t !! i = Some x → 0 < i_ref x → i_dev x = ROOTDEV) →
  (∀ j, 0 < refs j t → j ∈ U) → (length U < 50)%nat → ¬ ∀ i x, t !! i = Some x → 0 < i_ref x.
Proof.
  intros [Hl Hr Hu] Hd HU Hlen Hall. change (Z.to_nat NINODE) with 50%nat in Hl.
  assert (NoDup (i_inum <$> t)) as Hnd.
  { apply NoDup_alt. intros i j n Hi Hj. rewrite list_lookup_fmap in Hi, Hj. destruct (t !! i) as [x|] eqn:Ei; [|done]. destruct (t !! j) as [y|] eqn:Ej; [|done].
    injection Hi as <-. injection Hj as Hxy. pose proof (Hall i x Ei). pose proof (Hall j y Ej). apply (Hu i j x y); try done. by rewrite (Hd i x), (Hd j y). }
  assert (length (i_inum <$> t) <= length U)%nat as Hle; [|rewrite length_fmap in Hle; lia].
  apply NoDup_incl_length; [by apply NoDup_ListNoDup|]. intros n Hn. apply list_elem_of_In. apply list_elem_of_In, list_elem_of_fmap in Hn as (x & -> & Hx).
  apply list_elem_of_lookup in Hx as (i & Hi). apply HU. pose proof (Hall i x Hi). pose proof (refs_entry t i x Hr Hi). lia.
Qed.

(** ** Steps of the walk *)

Section walk.
Context {B : Type} `{BL : BlockLaws B}.
Context (tx : txinfo) (sb : superblock) (v : Z → block) (lg : list Z).
Implicit Types s : fs B.
Hypothesis Hio : inodes_ok tx sb [].
Hypothesis Htree : tree tx sb v [].
Hypothesis Hlg : (length lg < 29)%nat.

(** An entry in use is for an inode in use, and agrees with the disk once it is loaded. *)
Record entry_ok (x : inode) : Prop := {
  eo_dev : i_dev x = ROOTDEV;
  eo_num : 0 <= i_inum x < sb_ninodes sb;
  eo_type : type_of v sb (i_inum x) ≠ 0;
  eo_load : i_valid x = true → to_dinode x = dinode_at v sb (i_inum x) }.

Record settled (h : list lockname) s : Prop := {
  sd_rep : frep tx h s (Tx v [] lg []);
  sd_sb : f_sb s = sb;
  sd_tab : table_ok (f_itable s);
  sd_ent : ∀ i x, f_itable s !! i = Some x → 0 < i_ref x → entry_ok x }.

Lemma settled_mem h s s' : settled h s → same_mem s s' → frep tx h s' (Tx v [] lg []) → settled h s'.
Proof.
  intros [H1 H2 H3 H4] M R. split; [done|by rewrite (same_mem_sb _ _ M)| |]; by rewrite (same_mem_itable _ _ M).
Qed.

Lemma settled_held h h' s : settled h s → (∀ lk, block_lock lk → lk ∈ h' ↔ lk ∈ h) → settled h' s.
Proof. intros [H1 H2 H3 H4] Hh. split; try done. by eapply brep_held. Qed.

Lemma inode_lock_held i h s : settled h s → settled (SL_inode i :: h) s.
Proof. intros Hs. eapply settled_held; [exact Hs|]. intros lk Hb. rewrite elem_of_cons. split; [intros [->|]; [done|auto]|auto]. Qed.

Lemma inode_lock_left i h s : settled (SL_inode i :: h) s → settled h s.
Proof. intros Hs. eapply settled_held; [exact Hs|]. intros lk Hb. rewrite elem_of_cons. split; [auto|intros [->|]; [done|auto]]. Qed.

(** Replacing an entry by one for the same inode. *)
Lemma settled_upd h s i x y : settled h s → f_itable s !! i = Some x → 0 < i_ref x →
  i_dev y = i_dev x → i_inum y = i_inum x → 0 <= i_ref y → (0 < i_ref y → entry_ok y) →
  let s' := set_itable (<[i := y]> (f_itable s)) s in
  settled h s' ∧ ∀ j, refs j (f_itable s') = refs j (f_itable s) + one j (i_inum x) * (i_ref y - i_ref x).
Proof.
  intros [H1 H2 H3 H4] Hx Hrx Ed Ei Hry Hy s'. split; [split; try done|].
  - subst s'. change (set_itable _ s) with (upd_inode i (λ _, y) s). apply (table_ok_upd i _ s x); try done.
    intros j z Hne Hz Hrz _ Edz Eiz. apply Hne. apply (tb_uniq _ H3 j i z x); try done; congruence.
  - intros j z Hz Hrz. subst s'. cbn [set_itable f_itable] in Hz. destruct (decide (j = i)) as [->|Hne].
    + rewrite list_lookup_insert_eq in Hz by (by eapply lookup_lt_Some). injection Hz as <-. by apply Hy.
    + rewrite list_lookup_insert_ne in Hz by done. by apply (H4 j).
  - intros j. subst s'. cbn [set_itable f_itable]. rewrite (refs_insert _ i x y j Hx). unfold weight, one. rewrite Ei.
    destruct (Z.eqb_spec (i_inum x) j), (Z.eqb_spec j (i_inum x)); lia.
Qed.

Lemma entry_loaded x : entry_ok x → entry_ok (loaded_entry v sb x).
Proof.
  intros [H1 H2 H3 H4]. split; try done.
Qed.

Lemma ilock_step h s i x : settled h s → f_itable s !! i = Some x → 0 < i_ref x → SL_inode i ∉ h →
  ∃ s' x', ilock (Some i) (Thread h s) = Ok tt (Thread (SL_inode i :: h) s') ∧ settled (SL_inode i :: h) s' ∧
    f_itable s' !! i = Some x' ∧ i_valid x' = true ∧ i_ref x' = i_ref x ∧ i_inum x' = i_inum x ∧
    ∀ j, refs j (f_itable s') = refs j (f_itable s).
Proof.
  intros Hs Hx Hr Hn. pose proof Hs as [S1 S2 S3 S4]. pose proof (S4 i x Hx Hr) as He. destruct (i_valid x) eqn:Hv.
  - exists s, x. split; [|split; [by apply inode_lock_held|done]]. unfold ilock. kstep. cbn [st]. rewrite (geti_lookup i s x Hx), (proj2 (Z.ltb_ge _ 1)) by lia.
    cbn [panic_if]. kstep. rewrite (bind_Ok (acquiresleep _) _ _ tt (Thread (SL_inode i :: h) s)) by (unfold acquiresleep; cbn [held st]; by rewrite decide_False).
    kstep. cbn [st]. by rewrite (geti_lookup i s x Hx), Hv.
  - rewrite <- S2 in Hio. destruct (ilock_load tx h s v [] lg i x S1 Hio ltac:(cbn; lia) Hx (eo_dev _ He)) as (s1 & E1 & R1 & M1);
      [rewrite S2; apply He|lia|done|done|]. rewrite S2 in E1, M1. change (d_type (dinode_at v sb (i_inum x))) with (type_of v sb (i_inum x)) in E1.
    rewrite (proj2 (Z.eqb_neq _ 0) (eo_type _ He)) in E1.
    destruct (settled_upd h s i x (loaded_entry v sb x) Hs Hx Hr eq_refl eq_refl) as [T1 T2]; [cbn; lia|intros _; by apply entry_loaded|].
    assert (upd_inode i (loaded_entry v sb) s = set_itable (<[i := loaded_entry v sb x]> (f_itable s)) s) as Eu by (unfold upd_inode; by rewrite (geti_lookup i s x Hx)).
    rewrite Eu in M1. exists s1, (loaded_entry v sb x). split; [exact E1|]. split; [|split; [|split; [done|split; [done|split; [done|]]]]].
    + apply (settled_mem _ _ _ (inode_lock_held i _ _ T1) M1 R1).
    + rewrite (same_mem_itable _ _ M1). cbn [set_itable f_itable]. apply list_lookup_insert_eq. by eapply lookup_lt_Some.
    + intros j. rewrite (same_mem_itable _ _ M1), T2. cbn. lia.
Qed.

(** Giving back a reference to an inode that has links. *)
Lemma iput_step h s i x : settled h s → f_itable s !! i = Some x → 0 < i_ref x → L_itable ∉ h →
  ∃ s', iput i (Thread h s) = Ok tt (Thread h s') ∧ settled h s' ∧ f_itable s' = <[i := with_ref (i_ref x - 1) x]> (f_itable s) ∧
    ∀ j, refs j (f_itable s') = refs j (f_itable s) - one j (i_inum x).
Proof.
  intros Hs Hx Hr Hn. pose proof (sd_ent _ _ Hs i x Hx Hr) as He.
  destruct (settled_upd h s i x (with_ref (i_ref x - 1) x) Hs Hx Hr eq_refl eq_refl) as [T1 T2]; [cbn; lia|intros _; by destruct He|].
  eexists. split; [|split; [exact T1|split; [done|intros j; rewrite T2; cbn [with_ref i_ref]; lia]]].
  unfold iput. do 2 kstep. cbn [st]. rewrite (geti_lookup i s x Hx).
  assert ((i_ref x =? 1) && i_valid x && (i_nlink x =? 0) = false) as ->.
  { destruct (i_valid x) eqn:Hv; [|by rewrite andb_false_r]. rewrite (proj2 (Z.eqb_neq (i_nlink x) 0)); [by rewrite andb_false_r|].
    pose proof (f_equal d_nlink (eo_load _ He Hv)) as En. cbn [to_dinode d_nlink] in En. rewrite En. apply (tr_link _ _ _ _ Htree); apply He. }
  do 2 kstep. cbn [held st]. rewrite release_Ok. unfold upd_inode. by rewrite (geti_lookup i s x Hx).
Qed.

Lemma iunlock_step h s i x : f_itable s !! i = Some x → 0 < i_ref x →
  iunlock (Some i) (Thread (SL_inode i :: h) s) = Ok tt (Thread h s).
Proof.
  intros Hx Hr. unfold iunlock. rewrite (bind_Ok (holdingsleep _) _ _ true (Thread (SL_inode i :: h) s))
    by (unfold holdingsleep; cbn [held]; by rewrite bool_decide_true by (apply elem_of_cons; by left)).
  kstep. cbn [st]. rewrite (geti_lookup i s x Hx), (proj2 (Z.ltb_ge _ 1)) by lia. cbn [negb orb panic_if]. kstep.
  unfold releasesleep. cbn [held st remove_lock]. by rewrite decide_True.
Qed.

Lemma iunlockput_step h s i x : settled (SL_inode i :: h) s → f_itable s !! i = Some x → 0 < i_ref x → L_itable ∉ h →
  ∃ s', iunlockput i (Thread (SL_inode i :: h) s) = Ok tt (Thread h s') ∧ settled h s' ∧ f_itable s' = <[i := with_ref (i_ref x - 1) x]> (f_itable s) ∧
    ∀ j, refs j (f_itable s') = refs j (f_itable s) - one j (i_inum x).
Proof.
  intros Hs Hx Hr Hn. destruct (iput_step h s i x (inode_lock_left _ _ _ Hs) Hx Hr Hn) as (s' & E & H1 & H2).
  exists s'. split; [|done]. unfold iunlockput. by rewrite (bind_Ok _ _ _ _ _ (iunlock_step h s i x Hx Hr)).
Qed.

(** Entries in use stay the entries of their inodes. *)
Definition kept (t t' : list inode) : Prop :=
  ∀ k y, t !! k = Some y → 0 < i_ref y → ∃ y', t' !! k = Some y' ∧ 0 < i_ref y' ∧ i_inum y' = i_inum y.

Lemma iget_step h s j : settled h s → L_itable ∉ h → 0 <= j < sb_ninodes sb → type_of v sb j ≠ 0 →
  ¬ (∀ i x, f_itable s !! i = Some x → 0 < i_ref x) →
  ∃ i s', iget ROOTDEV j (Thread h s) = Ok i (Thread h s') ∧ settled h s' ∧ entry_of (f_itable s') ROOTDEV j i ∧
    kept (f_itable s) (f_itable s') ∧ ∀ k, refs k (f_itable s') = refs k (f_itable s) + one k j.
Proof.
  intros Hs Hn Hj Ht Hfree. destruct (iget_run h s ROOTDEV j Hn (sd_tab _ _ Hs)) as [(i & x & s' & E & Hx & Es & Hin & He & Htab)|(_ & _ & Hall)]; [|done].
  exists i, s'. split; [done|]. pose proof (tb_ref _ (sd_tab _ _ Hs) i x Hx) as Hr0. unfold upd_inode in Es. rewrite (geti_lookup i s x Hx) in Es.
  destruct (bool_decide_reflect (0 < i_ref x)) as [Hr|Hr].
  - destruct (Hin Hr) as [Ed Ei]. pose proof (sd_ent _ _ Hs i x Hx Hr) as Hok.
    destruct (settled_upd h s i x (with_ref (i_ref x + 1) x) Hs Hx Hr eq_refl eq_refl) as [T1 T2]; [cbn; lia|intros _; by destruct Hok|].
    rewrite <- Es in T1, T2. split; [done|]. split; [done|]. split.
    + intros k y Hy Hry. subst s'. cbn [set_itable f_itable]. destruct (decide (k = i)) as [->|Hne].
      * exists (with_ref (i_ref x + 1) x). rewrite list_lookup_insert_eq by (by eapply lookup_lt_Some). cbn. split; [done|]. split; [lia|congruence].
      * exists y. by rewrite list_lookup_insert_ne.
    + intros k. rewrite T2, Ei. cbn [with_ref i_ref]. lia.
  - split; [|split; [done|split]].
    + destruct Hs as [H1 H2 H3 H4]. subst s'. split; try done. intros k z Hz Hrz. cbn [set_itable f_itable] in Hz. destruct (decide (k = i)) as [->|Hne].
      * rewrite list_lookup_insert_eq in Hz by (by eapply lookup_lt_Some). injection Hz as <-. by split.
      * rewrite list_lookup_insert_ne in Hz by done. by apply (H4 k).
    + intros k y Hy Hry. subst s'. cbn [set_itable f_itable]. destruct (decide (k = i)) as [->|Hne]; [congruence|]. exists y. by rewrite list_lookup_insert_ne.
    + intros k. subst s'. cbn [set_itable f_itable]. rewrite (refs_insert _ i x _ k Hx). unfold weight, one. cbn [with_entry i_inum i_ref].
      replace (i_ref x) with 0 by lia. destruct (Z.eqb_spec j k), (Z.eqb_spec k j), (i_inum x =? k); lia.
Qed.

(** An entry that agrees with the disk. *)
Lemma loaded_attr x : entry_ok x → i_valid x = true →
  i_type x = type_of v sb (i_inum x) ∧ i_size x = i_size (disk_inode v sb (i_inum x)) ∧ i_addrs x = i_addrs (disk_inode v sb (i_inum x)).
Proof.
  intros He Hv. pose proof (eo_load _ He Hv) as E. split; [exact (f_equal d_type E)|]. split; [exact (f_equal d_size E)|exact (f_equal d_addrs E)].
Qed.

Lemma dir_find_ext P f g n : ∀ k, (∀ i, dent f i = dent g i) → dir_find P f n k = dir_find P g n k.
Proof. induction n as [|n IH]; intros k Hd; [done|]. cbn [dir_find]. rewrite Hd, IH by done. done. Qed.

Lemma dir_map_attr x y name : i_addrs x = i_addrs y → i_size x = i_size y → dir_map v y name = dir_map v x name.
Proof.
  intros Ea Es. assert (∀ i, dent (fbyte v y) i = dent (fbyte v x) i) as Hd.
  { intros i. unfold dent, fbytes. apply list_fmap_ext. intros _ o _. by apply fbyte_attr. }
  unfold dir_map, nents. rewrite Es, (dir_find_ext _ (fbyte v y) (fbyte v x)) by done. destruct (dir_find _ _ _ _) as [k|]; [|done]. cbn. by rewrite Hd.
Qed.

Lemma dir_map_range j name i : 0 <= j < sb_ninodes sb → type_of v sb j = T_DIR → dir_map v (disk_inode v sb j) name = Some i →
  0 <= i < sb_ninodes sb ∧ type_of v sb i ≠ 0.
Proof.
  intros Hj Ht Hm. destruct (tr_dir _ _ _ _ Htree j Hj Ht) as (_ & _ & _ & He). unfold dir_map in Hm.
  pose proof (dir_find_spec (λ de, names de name) (fbyte v (disk_inode v sb j)) (nents (disk_inode v sb j)) 0) as Hf. destruct (dir_find _ _ _ _) as [k|]; [|done].
  injection Hm as <-. destruct Hf as (Hk & Hp & _). apply He; [lia|]. unfold names in Hp. apply andb_true_iff in Hp as [Hp _]. by apply negb_true_iff, Z.eqb_neq in Hp.
Qed.

Lemma dirlookup_step h s i x name : settled h s → f_itable s !! i = Some x → 0 < i_ref x → i_valid x = true → i_type x = T_DIR →
  Forall is_byte name → L_itable ∉ h → ¬ (∀ i x, f_itable s !! i = Some x → 0 < i_ref x) →
  match dir_map v (disk_inode v sb (i_inum x)) name with
  | None => ∃ s', dirlookup i name (Thread h s) = Ok None (Thread h s') ∧ settled h s' ∧ f_itable s' = f_itable s
  | Some j => ∃ ip off s', dirlookup i name (Thread h s) = Ok (Some (ip, off)) (Thread h s') ∧ settled h s' ∧
      entry_of (f_itable s') ROOTDEV j ip ∧ kept (f_itable s) (f_itable s') ∧
      ∀ k, refs k (f_itable s') = refs k (f_itable s) + one k j
  end.
Proof.
  intros Hs Hx Hr Hv Ht Hn Hlk Hfree. pose proof (sd_ent _ _ Hs i x Hx Hr) as He. destruct (loaded_attr x He Hv) as (At & As & Aa).
  destruct (tr_dir _ _ _ _ Htree (i_inum x) (eo_num _ He) ltac:(congruence)) as (Df & Du & Dm & _).
  assert (dir_ok tx h s v [] lg i x) as D.
  { split; try done; [apply Hs|rewrite (sd_sb _ _ Hs)| | |apply He|cbn; lia].
    - by eapply file_ok_attr.
    - by eapply full_attr.
    - by rewrite As. }
  destruct (dirlookup_run tx h s v [] lg i x name Hn D Ht) as (s1 & M1 & D1 & E1).
  assert (settled h s1) as Hs1 by (apply (settled_mem h s); [done|done|apply D1]).
  pose proof (dir_map_range (i_inum x) name) as Hrange. rewrite <- (dir_map_attr (disk_inode v sb (i_inum x)) x) in Hrange |- * by done. unfold dir_map in *.
  destruct (dir_find _ _ _ _) as [k|]; cbn [fmap option_fmap option_map] in *.
  - destruct (Hrange _ (eo_num _ He) ltac:(congruence) eq_refl) as [Hj Hjt].
    destruct (iget_step h s1 _ Hs1 Hlk Hj Hjt) as (ip & s2 & E2 & Hs2 & Hen & Hkp & Hrf); [by rewrite (same_mem_itable _ _ M1)|].
    rewrite (same_mem_itable _ _ M1) in Hkp, Hrf. exists ip, (16 * k), s2. by rewrite E1, (bind_Ok _ _ _ _ _ E2).
  - exists s1. split; [done|]. split; [done|]. by apply same_mem_itable.
Qed.

Lemma refs_pos t j : (∀ i x, t !! i = Some x → 0 <= i_ref x) → 0 < refs j t → ∃ k x, t !! k = Some x ∧ i_inum x = j ∧ 0 < i_ref x.
Proof.
  induction t as [|z t IH]; intros Hp Hr; [done|]. unfold refs in Hr. cbn [foldr] in Hr. unfold weight at 1 in Hr.
  destruct (decide (i_inum z = j ∧ 0 < i_ref z)) as [[Hj Hz]|Hne]; [by exists 0%nat, z|].
  destruct IH as (k & x & Hk & Hx); [exact (λ i x Hx, Hp (S i) x Hx)| |by exists (S k), x].
  unfold refs. pose proof (Hp 0%nat z eq_refl). destruct (Z.eqb_spec (i_inum z) j); [destruct (decide (0 < i_ref z)); [tauto|lia]|lia].
Qed.

(** The entry of an inode that still has references after a reference to some inode is
    given back. *)
Lemma entry_kept h s s' i x j k : settled h s → settled h s' → f_itable s !! i = Some x → 0 < i_ref x →
  f_itable s' = <[i := with_ref (i_ref x - 1) x]> (f_itable s) → entry_of (f_itable s) ROOTDEV j k → 0 < refs j (f_itable s') →
  entry_of (f_itable s') ROOTDEV j k.
Proof.
  intros Hs Hs' Hx Hr Et (y & Hy & Hry & Hdy & Hjy) Hpos. destruct (refs_pos _ j (tb_ref _ (sd_tab _ _ Hs')) Hpos) as (e & z & Hz & Hjz & Hrz).
  assert (i_dev z = ROOTDEV) as Hdz by (apply (sd_ent _ _ Hs' e z Hz Hrz)). rewrite Et in Hz |- *.
  destruct (decide (e = i)) as [->|Hne].
  - rewrite list_lookup_insert_eq in Hz by (by eapply lookup_lt_Some). injection Hz as <-. cbn [with_ref i_inum i_ref i_dev] in *.
    assert (k = i) as -> by (apply (tb_uniq _ (sd_tab _ _ Hs) k i y x); try done; congruence). exists (with_ref (i_ref x - 1) x).
    rewrite list_lookup_insert_eq by (by eapply lookup_lt_Some). done.
  - rewrite list_lookup_insert_ne in Hz by done. assert (k = e) as -> by (apply (tb_uniq _ (sd_tab _ _ Hs) k e y z); try done; congruence).
    exists z. by rewrite list_lookup_insert_ne.
Qed.

Section loop.
Context (h : list lockname) (R0 : Z → Z) (U : list Z) (parent : bool).
Hypothesis Hlk : L_itable ∉ h.
Hypothesis Hsl : ∀ i, SL_inode i ∉ h.
Hypothesis HR0 : ∀ j, 0 <= R0 j ∧ (0 < R0 j → j ∈ U).
Hypothesis HU : (length U + 2 <= 50)%nat.

(** The table has the references [R0] and the walk's own, to [cur]. *)
Definition at_inode s (cur : Z) (ip : nat) : Prop :=
  settled h s ∧ entry_of (f_itable s) ROOTDEV cur ip ∧ ∀ j, refs j (f_itable s) = R0 j + one j cur.

Lemma at_free h' s cur : settled h' s → (∀ j, refs j (f_itable s) = R0 j + one j cur) → ¬ (∀ i x, f_itable s !! i = Some x → 0 < i_ref x).
Proof.
  intros Hs Hr. apply (free_entry _ (cur :: U)); [apply Hs|intros i x Hx Hp; apply (eo_dev _ (sd_ent _ _ Hs i x Hx Hp))| |cbn [length]; lia].
  intros j Hj. rewrite Hr in Hj. unfold one in Hj. apply elem_of_cons. destruct (Z.eqb_spec j cur) as [E|E]; [by left|right]. apply HR0. lia.
Qed.

(** The result of the loop for the inode [d]. *)
Definition arrived (es : list (list Z)) (d : option Z) (r : outcome (fs B) (option (nat * list Z))) : Prop :=
  match d with
  | Some d => ∃ ip name s, r = Ok (Some (ip, name)) (Thread h s) ∧ at_inode s d ip ∧ (parent = true → ∃ e, last es = Some e ∧ name_holds name e)
  | None => ∃ s, r = Ok None (Thread h s) ∧ settled h s ∧ ∀ j, refs j (f_itable s) = R0 j
  end.

Lemma until_nul_app e l : Forall (λ c, 0 < c < 256) e → until_nul (e ++ 0 :: l) = e.
Proof. induction 1 as [|c e Hc He IH]; cbn [app until_nul]; [done|]. by rewrite (proj2 (Z.eqb_neq c 0)), IH by lia. Qed.

Lemma name_holds_cname name e : Forall (λ c, 0 < c < 256) e → name_holds name e → cname name = cname e.
Proof.
  intros He (Hl & Ht & Hn). unfold cname. change (Z.to_nat DIRSIZ) with 14%nat in *.
  assert (until_nul e = e) as -> by (rewrite <- (app_nil_r e) at 1; apply (take_while_replicate 0); eapply Forall_impl; [exact He|cbn; lia]).
  destruct (decide (length e < 14)%nat) as [Hs|Hb].
  - rewrite (take_ge e) in * by lia. assert (until_nul name = e) as ->; [|by apply take_ge; lia].
    assert (name = e ++ 0 :: drop (S (length e)) name) as ->; [|by apply until_nul_app].
    rewrite <- (drop_S name 0 (length e)) by (by apply Hn). by rewrite <- Ht at 1; rewrite take_drop.
  - rewrite take_ge in Ht by lia. rewrite Ht. assert (until_nul (take 14 e) = take 14 e) as ->; [|by rewrite take_take].
    rewrite <- (app_nil_r (take 14 e)) at 1. apply (take_while_replicate 0). apply Forall_take. eapply Forall_impl; [exact He|cbn; lia].
Qed.

Lemma child_cname j name e : cname name = cname e → child v sb j name = child v sb j e.
Proof.
  intros Hc. unfold child. destruct (_ =? _); [|done]. unfold dir_map. f_equal. unfold names. by rewrite Hc.
Qed.

Lemma path_inode_step cur e es next : child v sb cur e = Some next → (parent = true → es ≠ []) →
  path_inode v sb parent cur (e :: es) = path_inode v sb parent next es.
Proof.
  intros Hc Hp. unfold path_inode. destruct parent; [|cbn [resolve]; by rewrite Hc].
  destruct es as [|e' es]; [by destruct Hp|]. change (removelast (e :: e' :: es)) with (e :: removelast (e' :: es)). cbn [resolve]. by rewrite Hc.
Qed.

Lemma path_inode_stuck cur e es : child v sb cur e = None → (parent = true → es ≠ [] ∨ type_of v sb cur ≠ T_DIR) →
  path_inode v sb parent cur (e :: es) = None.
Proof.
  intros Hc Hp. unfold path_inode. destruct parent; [|cbn [resolve]; by rewrite Hc]. destruct es as [|e' es].
  - cbn [removelast resolve]. destruct Hp as [?|Ht]; [done|done|]. by rewrite (proj2 (Z.eqb_neq _ _) Ht).
  - change (removelast (e :: e' :: es)) with (e :: removelast (e' :: es)). cbn [resolve]. by rewrite Hc.
Qed.

Lemma namex_loop_run : ∀ fuel path name ip s cur,
  (length path < fuel)%nat → length name = 14%nat → Forall is_byte name → Forall (λ c, 0 < c < 256) path → at_inode s cur ip →
  ∃ es, elems path = es ∧ arrived es (path_inode v sb parent cur es) (namex_loop fuel ip path parent name (Thread h s)).
Proof.
  induction fuel as [|fuel IH]; intros path name ip s cur Hf Hl Hnb Hp (Hs & Hen & Hrf); [lia|]. exists (elems path). split; [done|].
  cbn [namex_loop]. pose proof (skipelem_correct path name Hl) as Hk.
  assert (Forall is_byte path) as Hpb by (eapply Forall_impl; [exact Hp|unfold is_byte; cbn; lia]).
  pose proof Hen as (x & Hx & Hrx & Hdx & Hix). destruct (skipelem path name) as [[rest name']|] eqn:Esk.
  - destruct Hk as (e & Eel & Hh & Hlen & _ & Hnil). rewrite Eel. pose proof (elems_Forall _ path Hp) as Hel. rewrite Eel in Hel.
    apply Forall_cons in Hel as [He Hel]. destruct (skipelem_bytes _ path name rest name' Hp Hpb Hnb Esk) as [Hrest Hnb'].
    destruct (ilock_step h s ip x Hs Hx Hrx (Hsl ip)) as (s1 & x1 & E1 & S1 & X1 & V1 & R1 & I1 & F1). rewrite (bind_Ok _ _ _ _ _ E1). kstep. cbn [st].
    rewrite (geti_lookup ip s1 x1 X1). rewrite Hix in I1. assert (0 < i_ref x1) as Hr1 by lia.
    destruct (loaded_attr x1 (sd_ent _ _ S1 ip x1 X1 Hr1) V1) as (At & _ & _). rewrite I1 in At.
    assert (∀ j, refs j (f_itable s1) = R0 j + one j cur) as Rf1 by (intros j; by rewrite F1).
    assert (∀ d', ∃ s2, (iunlockput ip ;;; ret d') (Thread (SL_inode ip :: h) s1) = Ok (d' : option (nat * list Z)) (Thread h s2) ∧ settled h s2 ∧ ∀ j, refs j (f_itable s2) = R0 j) as Hput.
    { intros d'. destruct (iunlockput_step h s1 ip x1 S1 X1 Hr1 Hlk) as (s2 & E2 & S2 & _ & F2). exists s2. rewrite (bind_Ok _ _ _ _ _ E2). split; [done|]. split; [done|].
      intros j. rewrite F2, Rf1, I1. lia. }
    destruct (Z.eqb_spec (i_type x1) T_DIR) as [Ht|Ht]; cbn [negb].
    2: { rewrite path_inode_stuck; [by apply Hput|unfold child; by rewrite (proj2 (Z.eqb_neq _ _)) by congruence|intros _; right; congruence]. }
    destruct (decide (parent = true ∧ rest = [])) as [[Hpar ->]|Hgo].
    { rewrite Hpar, bool_decide_true by done. cbn [andb]. rewrite (bind_Ok _ _ _ _ _ (iunlock_step h s1 ip x1 X1 Hr1)).
      unfold path_inode. change (elems []) with (@nil (list Z)). cbn [removelast resolve]. rewrite <- At, Ht, Z.eqb_refl. exists ip, name', s1. split; [done|]. split.
      - split; [by apply (inode_lock_left ip)|]. split; [|done]. exists x1. split; [done|]. split; [done|]. split; [apply (sd_ent _ _ S1 ip x1 X1 Hr1)|done].
      - intros _. exists e. by split. }
    assert (parent && bool_decide (rest = []) = false) as ->.
    { destruct parent; [|done]. cbn [andb]. apply bool_decide_eq_false. tauto. }
    assert (parent = true → elems rest ≠ []) as Hgo' by (intros Hpar E; apply Hgo; split; [done|by apply Hnil]).
    assert (L_itable ∉ SL_inode ip :: h) as Hlk' by (apply not_elem_of_cons; by split).
    pose proof (dirlookup_step (SL_inode ip :: h) s1 ip x1 name' S1 X1 Hr1 V1 Ht Hnb' Hlk' (at_free _ s1 cur S1 Rf1)) as Hd. rewrite I1 in Hd.
    assert (child v sb cur e = dir_map v (disk_inode v sb cur) name') as Ec.
    { rewrite <- (child_cname cur name' e) by (by apply name_holds_cname). unfold child. by rewrite <- At, Ht, Z.eqb_refl. }
    destruct (dir_map v (disk_inode v sb cur) name') as [next|].
    + destruct Hd as (ip2 & off & s2 & E2 & S2 & Hen2 & Hkp & F2). rewrite (bind_Ok _ _ _ _ _ E2), (path_inode_step cur e _ next) by done.
      destruct (Hkp ip x1 X1 Hr1) as (x2 & X2 & Hr2 & I2). rewrite I1 in I2.
      destruct (iunlockput_step h s2 ip x2 S2 X2 Hr2 Hlk) as (s3 & E3 & S3 & T3 & F3). rewrite (bind_Ok _ _ _ _ _ E3).
      assert (∀ j, refs j (f_itable s3) = R0 j + one j next) as Rf3 by (intros j; rewrite F3, F2, Rf1, I2; lia).
      destruct (IH rest name' ip2 s3 next ltac:(lia) (proj1 Hh) Hnb' Hrest) as (es & <- & Ha).
      { split; [done|]. split; [|done]. apply (entry_kept _ s2 s3 ip x2 next ip2 (inode_lock_left _ _ _ S2) S3 X2 Hr2 T3 Hen2).
        rewrite Rf3. pose proof (proj1 (HR0 next)). unfold one. rewrite Z.eqb_refl. lia. }
      unfold arrived in Ha |- *. destruct (path_inode _ _ _ next _) as [d|]; [|exact Ha]. destruct Ha as (ip3 & n3 & s4 & E4 & A4 & N4).
      exists ip3, n3, s4. split; [exact E4|]. split; [exact A4|]. intros Hpar. destruct (N4 Hpar) as (e' & He' & Hh'). exists e'. split; [|done].
      destruct (elems rest); [done|exact He'].
    + destruct Hd as (s2 & E2 & S2 & T2). rewrite (bind_Ok _ _ _ _ _ E2), path_inode_stuck by (done || (intros Hpar; left; auto)).
      rewrite <- T2 in X1. destruct (iunlockput_step h s2 ip x1 S2 X1 Hr1 Hlk) as (s3 & E3 & S3 & _ & F3). exists s3. rewrite (bind_Ok _ _ _ _ _ E3).
      split; [done|]. split; [done|]. intros j. rewrite F3, T2, Rf1, I1. lia.
  - rewrite Hk. unfold path_inode. destruct parent eqn:Epar.
    + destruct (iput_step h s ip x Hs Hx Hrx Hlk) as (s1 & E1 & S1 & _ & F1). exists s1. rewrite (bind_Ok _ _ _ _ _ E1). split; [done|]. split; [done|].
      intros j. rewrite F1, Hrf, Hix. lia.
    + cbn [resolve]. exists ip, name, s. split; [done|]. split; [by split|congruence].
Qed.
End loop.


Lemma idup_step h s i x : settled h s → f_itable s !! i = Some x → 0 < i_ref x → L_itable ∉ h →
  ∃ s', idup i (Thread h s) = Ok i (Thread h s') ∧ settled h s' ∧ entry_of (f_itable s') ROOTDEV (i_inum x) i ∧
    ∀ j, refs j (f_itable s') = refs j (f_itable s) + one j (i_inum x).
Proof.
  intros Hs Hx Hr Hn. pose proof (sd_ent _ _ Hs i x Hx Hr) as He.
  destruct (settled_upd h s i x (with_ref (i_ref x + 1) x) Hs Hx Hr eq_refl eq_refl) as [T1 T2]; [cbn; lia|intros _; by destruct He|].
  eexists. split; [|split; [exact T1|split]].
  - unfold idup. do 3 kstep. unfold ret, upd_inode. by rewrite (geti_lookup i s x Hx).
  - cbn [set_itable f_itable]. exists (with_ref (i_ref x + 1) x). rewrite list_lookup_insert_eq by (by eapply lookup_lt_Some). split; [done|]. cbn. split; [lia|]. split; [apply He|done].
  - intros j. rewrite T2. cbn [with_ref i_ref]. lia.
Qed.

Lemma namex_run h s cwd y path parent name : settled h s →
  L_itable ∉ h → (∀ i, SL_inode i ∉ h) → (length (in_use (f_itable s)) + 2 <= 50)%nat →
  f_itable s !! cwd = Some y → 0 < i_ref y →
  Forall (λ c, 0 < c < 256) path → length name = 14%nat → Forall is_byte name →
  let start := if bool_decide (head path = Some slash) then ROOTINO else i_inum y in
  match path_inode v sb parent start (elems path) with
  | Some d => ∃ ip name' s', namex cwd path parent name (Thread h s) = Ok (Some (ip, name')) (Thread h s') ∧ settled h s' ∧
      entry_of (f_itable s') ROOTDEV d ip ∧ (∀ j, refs j (f_itable s') = refs j (f_itable s) + one j d) ∧
      (parent = true → ∃ e, last (elems path) = Some e ∧ name_holds name' e)
  | None => ∃ s', namex cwd path parent name (Thread h s) = Ok None (Thread h s') ∧ settled h s' ∧
      ∀ j, refs j (f_itable s') = refs j (f_itable s)
  end.
Proof.
  intros Hs Hlk Hsl Huse Hy Hry Hp Hl Hnb start. pose proof (sd_tab _ _ Hs) as Ht.
  set (U := i_inum <$> in_use (f_itable s)). set (R0 := λ j, refs j (f_itable s)).
  assert (∀ j, 0 <= R0 j ∧ (0 < R0 j → j ∈ U)) as HR0.
  { intros j. split; [apply refs_nonneg; apply Ht|]. intros Hj. destruct (refs_pos _ j (tb_ref _ Ht) Hj) as (k & x & Hk & Hi & Hx).
    apply list_elem_of_fmap. exists x. split; [done|]. apply list_elem_of_filter. split; [done|]. by eapply list_elem_of_lookup_2. }
  assert (length U + 2 <= 50)%nat as HU by (subst U; by rewrite length_fmap).
  assert (∃ ip s1, (if bool_decide (head path = Some slash) then iget ROOTDEV ROOTINO else idup cwd) (Thread h s) = Ok ip (Thread h s1) ∧
    at_inode h R0 s1 start ip) as (ip & s1 & E1 & A1).
  { subst start. case_bool_decide.
    - destruct (tr_root _ _ _ _ Htree) as [Hr1 Hr2]. destruct (iget_step h s ROOTINO Hs Hlk Hr2 Hr1) as (ip & s1 & E & S & En & _ & Rf).
      + apply (free_entry _ U Ht); [intros i x Hx Hr; apply (eo_dev _ (sd_ent _ _ Hs i x Hx Hr))|apply HR0|lia].
      + exists ip, s1. split; [exact E|]. split; [done|]. by split.
    - destruct (idup_step h s cwd y Hs Hy Hry Hlk) as (s1 & E & S & En & Rf). exists cwd, s1. split; [exact E|]. split; [done|]. by split. }
  unfold namex. rewrite (bind_Ok _ _ _ _ _ E1).
  destruct (namex_loop_run h R0 U parent Hlk Hsl HR0 HU (S (length path)) path name ip s1 start ltac:(lia) Hl Hnb Hp A1) as (es & <- & Ha).
  unfold arrived in Ha. destruct (path_inode _ _ _ _ _) as [d|]; [|exact Ha].
  destruct Ha as (ip' & name' & s' & E & (S & En & Rf) & Hn). exists ip', name', s'. by split.
Qed.

End walk.

(** C9: [namex] finds the inode of a path.  In a table whose entries agree with the disk,
    with two entries free, and on directories whose entries are inodes in use: the path is
    resolved by looking up its elements one after the other, from the root for a leading
    slash and else from the current directory.  [namex] returns a table entry of this
    inode (with [parent], of the directory of the last element, and the element itself in
    [name]), or nothing exactly when some element is missing or not in a directory.  The
    entry gains one reference; no other reference is gained or lost, no lock stays held
    and no block changes. *)
Theorem namex_correct {B} `{BL : BlockLaws B} tx sb v lg h (s : fs B) cwd y path parent name :
  inodes_ok tx sb [] → tree tx sb v [] → (length lg < 29)%nat → settled tx sb v lg h s →
  L_itable ∉ h → (∀ i, SL_inode i ∉ h) → (length (in_use (f_itable s)) + 2 <= 50)%nat →
  f_itable s !! cwd = Some y → 0 < i_ref y →
  Forall (λ c, 0 < c < 256) path → length name = 14%nat → Forall is_byte name →
  let start := if bool_decide (head path = Some slash) then ROOTINO else i_inum y in
  match path_inode v sb parent start (elems path) with
  | Some d => ∃ ip name' s', namex cwd path parent name (Thread h s) = Ok (Some (ip, name')) (Thread h s') ∧ settled tx sb v lg h s' ∧
      entry_of (f_itable s') ROOTDEV d ip ∧ (∀ j, refs j (f_itable s') = refs j (f_itable s) + one j d) ∧
      (parent = true → ∃ e, last (elems path) = Some e ∧ name_holds name' e)
  | None => ∃ s', namex cwd path parent name (Thread h s) = Ok None (Thread h s') ∧ settled tx sb v lg h s' ∧
      ∀ j, refs j (f_itable s') = refs j (f_itable s)
  end.
Proof. intros. by eapply namex_run. Qed.
