(* ===== verification/FsInst.v ===== *)
(** * fs.c over log.c over bio.c

    The file system on the real block layer: a call between [begin_op] and
    [end_op] is atomic, and concrete instances of the theorems about fs.c. *)

From S2P Require Import Prelude Param FsDisk Bio Log.
From S2P Require Import BlockLayer BlockLog Fs FsBlocks FsInode FsFile FsDir.
From S2P Require Import CString.

(** A file system call with the body [m]. *)
Definition fs_call {A} (m : M (fs lstate) A) : M (fs lstate) A :=
  blk (begin_op []) ;;;
  let! a := m in
  blk end_op ;;;
  ret a.

Lemma fs_call_run {A} (m : M (fs lstate) A) s0 l0 g0 sb it pr a s1 v lg :
  idle s0 l0 g0 →
  m (Thread [] (Fs (LState s0 (with_outstanding 1 g0)) sb it pr)) = Ok a (Thread [] s1) →
  frep (idle_tx s0 g0) [] s1 (Tx v [] lg []) →
  ∃ s' l' g' w, fs_call m (Thread [] (Fs (LState s0 g0) sb it pr)) =
      Ok a (Thread [] (Fs (LState s' g') (f_sb s1) (f_itable s1) (f_printed s1))) ∧
    idle s' l' g' ∧ writes s' = writes s0 ++ w ∧ (∀ x, home g0 x → disk s' x = v x) ∧
    ∀ k, crash_disk (lg_start g0) (lg_size g0) (apply_writes (disk s0) (take k w)) (λ d,
      (∀ x, home g0 x → d x = disk s0 x) ∨ (∀ x, home g0 x → d x = v x)).
Proof.
  intros Hid Em Hr. destruct (begin_rep s0 l0 g0 Hid) as [Eb _].
  destruct (end_rep s0 l0 g0 (f_blk s1) v lg Hid Hr) as (s' & l' & g' & w & Ee & Hid' & Hw & Hd & Hk).
  exists s', l', g', w. split; [|done].
  unfold fs_call.
  rewrite (bind_Ok (blk (begin_op [])) _ _ tt (Thread [] (Fs (LState s0 (with_outstanding 1 g0)) sb it pr)))
    by (unfold blk, lift; cbn [held st f_blk]; by rewrite Eb).
  rewrite (bind_Ok _ _ _ _ _ Em).
  rewrite (bind_Ok (blk end_op) _ _ tt (Thread [] (Fs (LState s' g') (f_sb s1) (f_itable s1) (f_printed s1))))
    by (unfold blk, lift; cbn [held st f_blk]; by rewrite Ee).
  done.
Qed.

(** C2: whatever a file system call does to blocks through [bread], [log_write]
    and [brelse], it does atomically.  If the body, run inside the transaction,
    ends with no buffer locked and the blocks' contents [v], then after [end_op]
    the disk holds [v]; and if the machine stops after any prefix of the disk
    writes, recovery yields the old contents of all the blocks, or [v] for all. *)
Theorem fs_call_atomic {A} (m : M (fs lstate) A) s0 l0 g0 sb it pr a s1 v lg :
  idle s0 l0 g0 →
  m (Thread [] (Fs (LState s0 (with_outstanding 1 g0)) sb it pr)) = Ok a (Thread [] s1) →
  frep (idle_tx s0 g0) [] s1 (Tx v [] lg []) →
  ∃ s' l' g' w, fs_call m (Thread [] (Fs (LState s0 g0) sb it pr)) =
      Ok a (Thread [] (Fs (LState s' g') (f_sb s1) (f_itable s1) (f_printed s1))) ∧
    idle s' l' g' ∧ writes s' = writes s0 ++ w ∧ (∀ x, home g0 x → disk s' x = v x) ∧
    ∀ k, crash_disk (lg_start g0) (lg_size g0) (apply_writes (disk s0) (take k w)) (λ d,
      (∀ x, home g0 x → d x = disk s0 x) ∨ (∀ x, home g0 x → d x = v x)).
Proof. apply fs_call_run. Qed.

(** ** A small disk

    Log at 2, inodes from 32, free map at 45 with the first 80 of 200 blocks in
    use, as [mkfs] lays them out; block 60 starts with an entry that names inode 7 "ab". *)

Definition sb200 : superblock := Superblock FSMAGIC 200 154 200 30 2 32 45.

Definition disk200 (b : Z) : block :=
  if b =? 45 then replicate 10 255 ++ replicate 1014 0
  else if b =? 60 then [7; 0; 97; 98] ++ replicate 1020 0 else zero_block.

Lemma disk200_ok b : block_ok (disk200 b).
Proof.
  unfold disk200. destruct (b =? 45); [|destruct (b =? 60); [|apply zero_block_ok]];
    (split; [by rewrite length_app, !length_replicate|]); apply Forall_app; (split; [|apply Forall_replicate; unfold is_byte; lia]).
  - apply Forall_replicate. unfold is_byte. lia.
  - unfold is_byte. repeat (apply Forall_cons; split; [lia|]). by apply Forall_nil.
Qed.

Lemma disk200_used b : 0 <= b < 200 → used disk200 sb200 b = (b <? 80).
Proof.
  intros Hb.
  assert (forallb (λ i, Bool.eqb (used disk200 sb200 (Z.of_nat i)) (Z.of_nat i <? 80)) (seq 0 200) = true) as Hall
    by (vm_compute; reflexivity).
  rewrite forallb_forall in Hall. specialize (Hall (Z.to_nat b)).
  rewrite Z2Nat.id in Hall by lia. apply eqb_prop, Hall, in_seq. lia.
Qed.

(** Inside a transaction right after boot. *)
Definition fs_boot (s : bio) (g : log) (sb : superblock) : fs lstate :=
  Fs (LState s (with_outstanding 1 g)) sb (replicate (Z.to_nat NINODE) inode0) [].

Lemma disk200_eq x : zupd disk200 2 (hdr_block (disk200 2) []) x = disk200 x.
Proof.
  assert (hdr_block zero_block [] = zero_block) as E by (vm_compute; reflexivity).
  rewrite zupd_if. destruct (Z.eqb_spec x 2) as [->|]; [exact E|done].
Qed.

Lemma boot200 : ∃ s l g, idle s l g ∧ lg_start g = 2 ∧ lg_size g = LOGSIZE ∧
  frep (idle_tx s g) [] (fs_boot s g sb200) (Tx disk200 [] [] []) ∧
  map_ok (idle_tx s g) sb200 disk200 [] ∧ inodes_ok (idle_tx s g) sb200 [].
Proof.
  assert (disk_header (disk200 2) []) as H0 by exact zdisk_header.
  destruct (boot_from disk200 disk200_ok H0) as (s & l & g & _ & Hid & Hs & Hz & Hd).
  exists s, l, g. split; [done|]. split; [done|]. split; [done|].
  destruct (begin_rep s l g Hid) as [_ Hr].
  assert (∀ b, 32 <= b < 2 ^ 31 → tx_home (idle_tx s g) b) as Hh by (intros b Hb; by apply home2).
  split; [|split].
  - unfold frep. cbn [fs_boot f_blk]. eapply brep_ext; [exact Hr|]. intros b. by rewrite Hd, disk200_eq.
  - split; cbn [sb_size sb_bmapstart sb200]; [lia|vm_compute; split; congruence| |].
    + intros b Hb. rewrite Z.div_small by (unfold BPB, BSIZE; lia). split; [apply Hh; lia|apply not_elem_of_nil].
    + intros b Hb Hu. rewrite disk200_used in Hu by done. apply Z.ltb_ge in Hu.
      split_and!; [lia|apply Hh; lia|apply not_elem_of_nil|].
      intros c Hc. rewrite Z.div_small by (unfold BPB, BSIZE; lia). lia.
  - split; cbn [sb_ninodes sb_inodestart sb200]; [lia|lia|].
    intros i Hi. unfold IBLOCK. change IPB with 16. cbn [sb_inodestart sb200].
    assert (0 <= i / 16 < 13) by (split; [apply Z.div_pos; lia|apply Z.div_lt_upper_bound; lia]).
    rewrite u32_small by lia. split; [apply Hh; lia|apply not_elem_of_nil].
Qed.

Lemma cap200 s g : lg_size g = LOGSIZE → tx_cap (idle_tx s g) = 29.
Proof. intros E. cbn [idle_tx tx_cap]. rewrite E. done. Qed.

(** [balloc] on the small disk returns block 80. *)
Lemma balloc_correct_witness :
  ∃ s g s' v', balloc ROOTDEV (Thread [] (fs_boot s g sb200)) = Ok 80 (Thread [] s') ∧
    v' 80 = zero_block ∧ used v' sb200 80 = true ∧ used v' sb200 81 = false.
Proof.
  destruct boot200 as (s & l & g & _ & _ & Hz & Hr & Hm & _).
  destruct (balloc_correct (idle_tx s g) [] (fs_boot s g sb200) disk200 [] [])
    as [(b & s' & v' & lg' & E & _ & (Hb & Hu & Hlow) & _ & _ & _ & H0 & Hus & _)|(s' & _ & Hall & _)].
  - exact Hr.
  - exact Hm.
  - simpl. lia.
  - rewrite cap200 by done. simpl. lia.
  - cbn [f_sb fs_boot sb_size sb200] in *.
    assert (b = 80) as ->.
    { destruct (Z.lt_trichotomy b 80) as [Hlt|[->|Hgt]]; [|done|].
      - rewrite disk200_used in Hu by lia. apply Z.ltb_ge in Hu. lia.
      - specialize (Hlow 80 ltac:(lia)). rewrite disk200_used in Hlow by lia. discriminate. }
    exists s, g, s', v'. split; [exact E|]. split; [exact H0|].
    rewrite !Hus by lia. split; [done|]. cbn. by rewrite disk200_used by lia.
  - exfalso. specialize (Hall 100 ltac:(cbn; lia)). cbn in Hall. rewrite disk200_used in Hall by lia. discriminate.
Defined.

(** [bfree] of a block in use, and of a free one. *)
Lemma bfree_correct_witness :
  ∃ s g, (∃ s', bfree ROOTDEV 79 (Thread [] (fs_boot s g sb200)) = Ok tt (Thread [] s')) ∧
    bfree ROOTDEV 80 (Thread [] (fs_boot s g sb200)) = Panic "freeing free block".
Proof.
  destruct boot200 as (s & l & g & _ & _ & Hz & Hr & Hm & _). exists s, g.
  assert (∀ b, 0 <= b < 200 → used disk200 sb200 b = (b <? 80)) as Hu by apply disk200_used.
  split.
  - pose proof (bfree_correct (idle_tx s g) [] (fs_boot s g sb200) disk200 [] [] 79 Hr Hm ltac:(simpl; lia)
      ltac:(rewrite cap200 by done; simpl; lia) ltac:(cbn; lia)) as Hc.
    cbn [f_sb fs_boot] in Hc. cbv zeta in Hc. rewrite Hu in Hc by lia. cbn in Hc.
    destruct Hc as (s' & _ & _ & E & _). by exists s'.
  - pose proof (bfree_correct (idle_tx s g) [] (fs_boot s g sb200) disk200 [] [] 80 Hr Hm ltac:(simpl; lia)
      ltac:(rewrite cap200 by done; simpl; lia) ltac:(cbn; lia)) as Hc.
    cbn [f_sb fs_boot] in Hc. cbv zeta in Hc. rewrite Hu in Hc by lia. exact Hc.
Defined.

(** The table with inode 5, a file, in its first entry. *)
Definition ino5 (ref : Z) (valid : bool) : inode :=
  Inode ROOTDEV 5 ref valid T_FILE 0 0 1 100 (replicate NADDRS 0).
Definition table5 (x : inode) : list inode := x :: replicate (Z.to_nat NINODE - 1) inode0.
Definition fs_boot5 (s : bio) (g : log) (x : inode) : fs lstate :=
  Fs (LState s (with_outstanding 1 g)) sb200 (table5 x) [].

Lemma table5_lookup x i y : table5 x !! i = Some y → i = 0%nat ∧ y = x ∨ y = inode0.
Proof.
  destruct i as [|i]; intros Hy; [injection Hy as <-; by left|right].
  change (replicate (Z.to_nat NINODE - 1) inode0 !! i = Some y) in Hy.
  by apply lookup_replicate in Hy as [-> _].
Qed.

Lemma table5_ok x : 0 < i_ref x → table_ok (table5 x).
Proof.
  intros Hx. split; [done| |].
  - intros i y Hy. apply table5_lookup in Hy as [[_ ->]| ->]; [lia|done].
  - intros i j y z Hy Hz H1 H2 _ _.
    apply table5_lookup in Hy as [[-> _]| ->]; [|done]. by apply table5_lookup in Hz as [[-> _]| ->].
Qed.

Lemma ino5_ok ref valid : dinode_ok (to_dinode (ino5 ref valid)).
Proof.
  split; cbn; try lia; try done. repeat constructor; lia.
Qed.

Lemma iget_correct_witness :
  ∃ s g i s', iget ROOTDEV 5 (Thread [] (fs_boot5 s g (ino5 1 true))) = Ok i (Thread [] s') ∧
    entry_of (f_itable s') ROOTDEV 5 i.
Proof.
  destruct boot200 as (s & l & g & _). exists s, g.
  destruct (iget_correct [] (fs_boot5 s g (ino5 1 true)) ROOTDEV 5)
    as [(i & x & s' & E & _ & _ & _ & Hent & _)|(_ & Hno & _)].
  - apply not_elem_of_nil.
  - apply table5_ok. done.
  - exists i, s'. split; [exact E|exact Hent].
  - exfalso. apply (Hno 0%nat). exists (ino5 1 true). done.
Defined.

Lemma idup_iput_witness :
  ∃ s g s', idup 0 (Thread [] (fs_boot5 s g (ino5 1 true))) = Ok 0%nat (Thread [] s') ∧
    iput 0 (Thread [] s') = Ok tt (Thread [] (fs_boot5 s g (ino5 1 true))).
Proof.
  destruct boot200 as (s & l & g & _).
  destruct (idup_iput [] (fs_boot5 s g (ino5 1 true)) 0 (ino5 1 true)) as (s' & E & _ & _ & E').
  - apply not_elem_of_nil.
  - apply table5_ok. done.
  - done.
  - done.
  - exists s, g, s'. split; [exact E|exact E'].
Defined.

Lemma iupdate_correct_witness :
  ∃ s g s' v', iupdate 0 (Thread [] (fs_boot5 s g (ino5 1 true))) = Ok tt (Thread [] s') ∧
    d_size (dinode_at v' sb200 5) = 100.
Proof.
  destruct boot200 as (s & l & g & _ & _ & Hz & Hr & _ & Hio).
  destruct (iupdate_correct (idle_tx s g) [] (fs_boot5 s g (ino5 1 true)) disk200 [] [] 0 (ino5 1 true))
    as (s' & v' & lg' & E & _ & _ & _ & Hd & _).
  - exact Hr.
  - exact Hio.
  - simpl. lia.
  - rewrite cap200 by done. simpl. lia.
  - done.
  - done.
  - cbn. lia.
  - apply ino5_ok.
  - exists s, g, s', v'. split; [exact E|]. change (f_sb _) with sb200 in Hd. cbn [ino5 i_inum] in Hd.
    by rewrite Hd.
Defined.

(** Inode 5 written, evicted and loaded again into entry 1. *)
Lemma iupdate_ilock_roundtrip_witness :
  ∃ s g s1 s3 z, iupdate 0 (Thread [] (fs_boot5 s g (ino5 1 true))) = Ok tt (Thread [] s1) ∧
    ilock (Some 1%nat) (Thread [] (set_itable (<[1%nat := ino5 1 false]> (f_itable s1)) s1)) =
      Ok tt (Thread [SL_inode 1] s3) ∧
    f_itable s3 !! 1%nat = Some z ∧ i_size z = 100.
Proof.
  destruct boot200 as (s & l & g & _ & _ & Hz & Hr & _ & Hio).
  destruct (iupdate_ilock_roundtrip (idle_tx s g) [] (fs_boot5 s g (ino5 1 true)) disk200 [] [] 0
    (ino5 1 true) 1 (ino5 1 false)) as (s1 & E & Hk).
  - exact Hr.
  - exact Hio.
  - simpl. lia.
  - rewrite cap200 by done. simpl. lia.
  - done.
  - done.
  - cbn. lia.
  - apply ino5_ok.
  - cbv zeta in Hk. change (i_type (ino5 1 true) =? 0) with false in Hk. cbv iota in Hk.
    destruct Hk as (s3 & z & E3 & Hz3 & _ & Hd & _);
      [vm_compute; lia|done|done|done|done|apply not_elem_of_nil|].
    exists s, g, s1, s3, z. split; [exact E|]. split; [exact E3|]. split; [exact Hz3|].
    by injection Hd.
Defined.

(** A call that allocates a block, with a crash before the first write. *)
Lemma fs_call_atomic_witness :
  ∃ s g s' w, fs_call (balloc ROOTDEV) (Thread [] (Fs (LState s g) sb200 (replicate (Z.to_nat NINODE) inode0) [])) =
      Ok 80 (Thread [] s') ∧
    crash_disk 2 LOGSIZE (apply_writes (disk s) (take 0 w)) (λ d, d 80 = disk s 80 ∨ d 80 = zero_block).
Proof.
  destruct boot200 as (s & l & g & Hid & Hs & Hz & Hr & Hm & _).
  destruct (balloc_run (idle_tx s g) [] (fs_boot s g sb200) disk200 [] [])
    as [(b & s1 & E & (Hb & Hu & Hlow) & _ & R)|(s1 & _ & Hall & _)].
  - exact Hr.
  - exact Hm.
  - simpl. lia.
  - rewrite cap200 by done. simpl. lia.
  - cbn [f_sb fs_boot sb_size sb200] in *.
    assert (b = 80) as ->.
    { destruct (Z.lt_trichotomy b 80) as [Hlt|[->|Hgt]]; [|done|].
      - rewrite disk200_used in Hu by lia. apply Z.ltb_ge in Hu. lia.
      - specialize (Hlow 80 ltac:(lia)). rewrite disk200_used in Hlow by lia. discriminate. }
    destruct (fs_call_atomic (balloc ROOTDEV) s l g sb200 (replicate (Z.to_nat NINODE) inode0) [] 80 s1
      (alloc_view disk200 sb200 80) (alloc_log [] sb200 80)) as (s' & l' & g' & w & E' & _ & _ & _ & Hk).
    + exact Hid.
    + exact E.
    + exact R.
    + exists s, g. eexists _, w. split; [exact E'|]. rewrite <- Hs, <- Hz.
      destruct (Hk 0%nat) as (r & Er & Hor). exists r. split; [exact Er|].
      assert (home g 80) as Hh by (apply home2; [done|done|lia]).
      destruct Hor as [Ho|Ho]; [left; by apply Ho|right].
      rewrite (Ho 80 Hh). unfold alloc_view. by rewrite fupdz_eq.
  - exfalso. specialize (Hall 100 ltac:(cbn; lia)). cbn in Hall. rewrite disk200_used in Hall by lia. discriminate.
Defined.

(** ** A file on the small disk

    Inode 5 with 100 bytes in block 60. *)

Definition file5 : inode := Inode ROOTDEV 5 1 true T_FILE 0 0 1 100 (60 :: replicate 10 0).

Lemma fs_ok200 tx : map_ok tx sb200 disk200 [] → inodes_ok tx sb200 [] → fs_ok tx sb200 disk200 [].
Proof.
  intros Hm Hi. split; [exact Hm|exact Hi|]. cbn [sb_ninodes sb200]. intros j Hj.
  assert (IBLOCK j sb200 = j / 16 + 32 ∧ 0 <= j / 16 < 13) as [E Hr].
  { rewrite (IBLOCK_eq tx sb200 []) by done. split; [done|]. split; [apply Z.div_pos; lia|apply Z.div_lt_upper_bound; lia]. }
  rewrite E. split; [cbn; lia|]. split; [rewrite disk200_used by lia; apply Z.ltb_lt; lia|].
  intros (b & Hb & Eb). cbn [sb_size sb_bmapstart sb200] in *. rewrite (Z.div_small b) in Eb by (unfold BPB, BSIZE; lia). lia.
Qed.

Lemma file5_blockno k : 0 <= k < MAXFILE → blockno disk200 file5 k = if k =? 0 then 60 else 0.
Proof.
  intros Hk. unfold blockno. change (ind_of file5) with 0. change NDIRECT with 10. destruct (Z.ltb_spec k 10) as [Hlt|Hge].
  - assert (Forall (λ j, default 0 (i_addrs file5 !! Z.to_nat j) = if j =? 0 then 60 else 0) (seqZ 0 10)) as Hall by (repeat constructor).
    rewrite Forall_forall in Hall. apply Hall. apply elem_of_seqZ. lia.
  - cbn. by rewrite (proj2 (Z.eqb_neq k 0)) by lia.
Qed.

Lemma file5_ok s g : idle_tx s g = idle_tx s g → map_ok (idle_tx s g) sb200 disk200 [] → (∀ b, 32 <= b < 2 ^ 31 → tx_home (idle_tx s g) b) →
  file_ok (idle_tx s g) sb200 disk200 [] file5.
Proof.
  intros _ Hm Hh. split; [done| | |].
  - intros b (Hb & [Hi|(k & Hk & E)]); [done|]. rewrite file5_blockno in E by done. destruct (k =? 0); [|done]. subst b.
    split; cbn [sb_size sb_ninodes sb200]; [lia|by rewrite disk200_used by lia|apply Hh; lia|apply not_elem_of_nil| |].
    + intros (c & Hc & Ec). cbn [sb_size sb_bmapstart sb200] in *. rewrite Z.div_small in Ec by (unfold BPB, BSIZE; lia). lia.
    + intros j Hj. unfold IBLOCK. change IPB with 16. cbn [sb_inodestart sb200].
      assert (0 <= j / 16 < 13) by (split; [apply Z.div_pos; lia|apply Z.div_lt_upper_bound; lia]). rewrite u32_small by lia. lia.
  - intros k k' Hk Hk'. rewrite !file5_blockno by done. destruct (Z.eqb_spec k 0), (Z.eqb_spec k' 0); try done. lia.
  - intros k Hk. done.
Qed.

Lemma file5_full : full disk200 file5.
Proof.
  split; [change (MAXFILE * BSIZE) with 272384; cbn; lia|]. intros k Hk Hs. cbn [file5 i_size] in Hs. change BSIZE with 1024 in Hs.
  rewrite file5_blockno by (change MAXFILE with 266; lia). replace k with 0 by lia. done.
Qed.

Lemma file5_dinode : dinode_ok (to_dinode file5).
Proof. split; cbn; try lia; try done. repeat constructor; lia. Qed.

Lemma local_source bs : Z.of_nat (length bs) < 2 ^ 64 → source_of (local_in bs) 0 bs.
Proof. intros Hb j m Hj Hm Hs. unfold local_in. rewrite Z.add_0_l, u64_small by lia. done. Qed.

Lemma boot_file : ∃ s g, lg_size g = LOGSIZE ∧
  frep (idle_tx s g) [] (fs_boot5 s g file5) (Tx disk200 [] [] []) ∧ fs_ok (idle_tx s g) sb200 disk200 [] ∧
  file_ok (idle_tx s g) sb200 disk200 [] file5.
Proof.
  destruct boot200 as (s & l & g & Hid & Hs & Hz & Hr & Hm & Hi). exists s, g. split; [done|]. split; [exact Hr|].
  split; [by apply fs_ok200|]. apply file5_ok; [done|done|]. intros b Hb. by apply home2.
Qed.

(** Four bytes written at the end of the file. *)
Lemma writei_correct_witness :
  ∃ s g k s' v' x', writei (local_in [1; 2; 3; 4]) 0 0 100 4 (Thread [] (fs_boot5 s g file5)) = Ok k (Thread [] s') ∧
    written (idle_tx s g) [] [] 0 100 [1; 2; 3; 4] k (fs_boot5 s g file5) disk200 file5 s' v' x' ∧
    writei (local_in [1]) 0 0 200 1 (Thread [] (fs_boot5 s g file5)) = Ok (-1) (Thread [] (fs_boot5 s g file5)).
Proof.
  destruct boot_file as (s & g & Hz & Hr & Hk & Hf). exists s, g.
  pose proof (writei_correct (local_in [1; 2; 3; 4]) (idle_tx s g) [] (fs_boot5 s g file5) disk200 [] [] 0 file5 0 100 [1; 2; 3; 4] 1
    Hr Hk Hf file5_full file5_dinode eq_refl eq_refl ltac:(cbn; lia) (local_source [1; 2; 3; 4] ltac:(reflexivity)) ltac:(repeat constructor; lia)
    ltac:(lia) ltac:(lia) ltac:(cbn; lia) ltac:(vm_compute; congruence) ltac:(rewrite cap200 by done; reflexivity) ltac:(apply Nat.ltb_lt; reflexivity)) as (k & s' & v' & x' & E & _ & W).
  exists k, s', v', x'. split; [exact E|]. split; [exact W|].
  exact (writei_correct (local_in [1]) (idle_tx s g) [] (fs_boot5 s g file5) disk200 [] [] 0 file5 0 200 [1] 1
    Hr Hk Hf file5_full file5_dinode eq_refl eq_refl ltac:(cbn; lia) (local_source [1] ltac:(reflexivity)) ltac:(repeat constructor; lia)
    ltac:(lia) ltac:(lia) ltac:(cbn; lia) ltac:(vm_compute; congruence) ltac:(rewrite cap200 by done; reflexivity) ltac:(apply Nat.ltb_lt; reflexivity)).
Defined.

(** The last ten bytes of the file, which a read of fifty bytes finds. *)
Lemma readi_correct_witness :
  ∃ s g ps s', concat ps = fbytes (fbyte disk200 file5) 90 10 ∧
    readi local_out 0 (replicate 50 7) 0 90 50 (Thread [] (fs_boot5 s g file5)) =
      (let '(mem', ok) := feed local_out (replicate 50 7) 0 ps in Ok (if (ok : bool) then 10 else -1, mem') (Thread [] s')).
Proof.
  destruct boot_file as (s & g & Hz & Hr & Hk & Hf). exists s, g.
  destruct (readi_correct local_out (idle_tx s g) [] (fs_boot5 s g file5) disk200 [] [] 0 file5 (replicate 50 7) 0 90 50
    Hr Hf file5_full ltac:(cbn; lia) eq_refl eq_refl ltac:(lia) ltac:(lia)) as (ps & s' & Ec & _ & E & _).
  exists ps, s'. split; [exact Ec|exact E].
Defined.

(** Eight bytes before the four written ones. *)
Lemma writei_readi_witness :
  ∃ s g k s' s2, writei (local_in [1; 2; 3; 4]) 0 0 100 4 (Thread [] (fs_boot5 s g file5)) = Ok k (Thread [] s') ∧
    readi local_out 0 (replicate (Z.to_nat (8 + k)) 0) 0 92 (8 + k) (Thread [] s') =
      Ok (8 + k, replicate 8 0 ++ take (Z.to_nat k) [1; 2; 3; 4]) (Thread [] s2).
Proof.
  destruct boot_file as (s & g & Hz & Hr & Hk & Hf). exists s, g.
  destruct (writei_readi (local_in [1; 2; 3; 4]) (idle_tx s g) [] (fs_boot5 s g file5) disk200 [] [] 0 file5 0 100 [1; 2; 3; 4] 1 8
    Hr Hk Hf file5_full file5_dinode eq_refl eq_refl ltac:(cbn; lia) (local_source [1; 2; 3; 4] ltac:(reflexivity)) ltac:(repeat constructor; lia)
    ltac:(lia) ltac:(cbn; lia) ltac:(vm_compute; congruence) ltac:(vm_compute; congruence) ltac:(rewrite cap200 by done; reflexivity) ltac:(apply Nat.ltb_lt; reflexivity) ltac:(lia))
    as (k & s' & s2 & E & _ & E2).
  exists k, s', s2. split; [exact E|exact E2].
Defined.

(** ** A directory on the small disk

    Inode 5 with two entries in block 60, the second one free. *)

Definition dir5 : inode := Inode ROOTDEV 5 1 true T_DIR 0 0 1 32 (60 :: replicate 10 0).

Lemma dir5_ok s g : frep (idle_tx s g) [] (fs_boot5 s g file5) (Tx disk200 [] [] []) → file_ok (idle_tx s g) sb200 disk200 [] file5 →
  dir_ok (idle_tx s g) [] (fs_boot5 s g dir5) disk200 [] [] 0 dir5.
Proof.
  intros Hr Hf. split; try done.
  - destruct Hf as [F1 F2 F3 F4]. split; [done|exact F2|exact F3|exact F4].
  - split; [change (MAXFILE * BSIZE) with 272384; cbn; lia|]. intros k Hk Hs. apply file5_full; [done|]. cbn [dir5 file5 i_size] in *. lia.
  - cbn. lia.
Qed.

Lemma dir5_dinode : dinode_ok (to_dinode dir5).
Proof. split; cbn; try lia; try done. repeat constructor; lia. Qed.

Lemma dir5_map : dir_map disk200 dir5 (str "ab") = Some 7 ∧ dir_map disk200 dir5 (str "cd") = None.
Proof. split; vm_compute; reflexivity. Qed.

Lemma str_bytes s : Forall is_byte (str s).
Proof.
  unfold str. apply Forall_fmap, Forall_forall. intros a _. unfold is_byte. pose proof (Ascii.nat_ascii_bounded a). cbn. lia.
Qed.

Lemma dirlookup_correct_witness :
  ∃ s g s', dirlookup 0 (str "cd") (Thread [] (fs_boot5 s g dir5)) = Ok None (Thread [] s') ∧
    ((∃ ip off s', dirlookup 0 (str "ab") (Thread [] (fs_boot5 s g dir5)) = Ok (Some (ip, off)) (Thread [] s') ∧ entry_of (f_itable s') ROOTDEV 7 ip) ∨
     dirlookup 0 (str "ab") (Thread [] (fs_boot5 s g dir5)) = Panic "iget: no inodes").
Proof.
  destruct boot_file as (s & g & Hz & Hr & Hk & Hf). pose proof (dir5_ok s g Hr Hf) as D. destruct dir5_map as [M1 M2].
  pose proof (dirlookup_correct (idle_tx s g) [] (fs_boot5 s g dir5) disk200 [] [] 0 dir5 (str "cd") (str_bytes _) D eq_refl
    (not_elem_of_nil _) (table5_ok dir5 eq_refl)) as H1.
  pose proof (dirlookup_correct (idle_tx s g) [] (fs_boot5 s g dir5) disk200 [] [] 0 dir5 (str "ab") (str_bytes _) D eq_refl
    (not_elem_of_nil _) (table5_ok dir5 eq_refl)) as H2.
  rewrite M2 in H1. rewrite M1 in H2. destruct H1 as (s' & E1 & _). exists s, g, s'. split; [exact E1|].
  destruct H2 as [(ip & off & s2 & E2 & En & _)|(E2 & _)]; [left; exists ip, off, s2; split; [exact E2|exact En]|right; exact E2].
Defined.

Lemma dirlink_inserts_witness :
  ∃ s g k s' v' x', written (idle_tx s g) [] [] 0 16 (new_dirent (str "cd") 9) k (fs_boot5 s g dir5) disk200 dir5 s' v' x' ∧
    (k = 16 → dir_map v' x' (str "cd") = Some 9 ∧ dir_map v' x' (str "ab") = Some 7).
Proof.
  destruct boot_file as (s & g & Hz & Hr & Hk & Hf). pose proof (dir5_ok s g Hr Hf) as D. destruct dir5_map as [M1 M2].
  pose proof (dirlink_inserts (idle_tx s g) [] (fs_boot5 s g dir5) disk200 [] [] 0 dir5 (str "cd") 9 (str_bytes _) D eq_refl Hk dir5_dinode
    ltac:(cbn; lia) ltac:(rewrite cap200 by done; reflexivity) ltac:(apply Nat.ltb_lt; reflexivity) ltac:(vm_compute; congruence)
    (not_elem_of_nil _) (table5_ok dir5 eq_refl) ltac:(lia)) as W.
  rewrite M2 in W. destruct W as (k & s' & v' & x' & W & Hk2). exists s, g, k, s', v', x'.
  assert (free_slot disk200 dir5 = 1) as E1 by (vm_compute; reflexivity). rewrite E1 in W. split; [exact W|].
  intros ->. destruct Hk2 as (_ & _ & Hmap). split; rewrite Hmap; [by vm_compute|rewrite <- M1; by vm_compute].
Defined.
