(* ===== verification/FsTrunc.v ===== *)
(** * fs.c: giving the blocks of a file back

    [itrunc] frees every block of a file, once, and no other; then the inode has no
    blocks, in memory and on the disk.  The free map is one block, as it is for every file
    system of at most [BPB] blocks (mkfs makes one of [FSSIZE] = 2000). *)

From S2P Require Import Prelude CString Param FsDisk Bio Log BlockLayer BlockLog Fs FsBlocks FsInode FsFile FsInst.

Section trunc.
Context {B : Type} `{BlockLaws B}.
Implicit Types s : fs B.

(** The blocks number 0 to [k - 1] of the file. *)
Definition freed (v : Z → block) (x : inode) (k c : Z) : Prop := c ≠ 0 ∧ ∃ j, 0 <= j < k ∧ blockno v x j = c.

(** The file system when the blocks of [P] are given back: nothing but the free map has
    changed. *)
Record given (tx : txinfo) (h : list lockname) (out : list (nat * Z)) (sb : superblock) (v : Z → block) (lg : list Z) (P : Z → Prop)
    s' (v' : Z → block) (lg' : list Z) : Prop := {
  ts_rep : frep tx h s' (Tx v' out lg' []);
  ts_sb : f_sb s' = sb;
  ts_map : map_ok tx sb v' out;
  ts_freed c : P c → used v' sb c = false;
  ts_kept c : 0 <= c < sb_size sb → ¬ P c → used v' sb c = used v sb c;
  ts_blocks c : ¬ map_block sb c → v' c = v c;
  ts_log : lg' = lg ∨ lg' = log_add lg (sb_bmapstart sb) }.

(** The first [k] blocks of the file. *)
Definition tstate tx h out sb v x lg k := given tx h out sb v lg (freed v x k).

Lemma given_ext tx h out sb v lg (P Q : Z → Prop) s' v' lg' : (∀ c, P c ↔ Q c) → given tx h out sb v lg P s' v' lg' → given tx h out sb v lg Q s' v' lg'.
Proof. intros E [R1 S1 M1 F1 K1 B1 L1]. split; try done; intros c; rewrite <- E; [apply F1|apply K1]. Qed.

Lemma log_add_twice lg b : log_add (log_add lg b) b = log_add lg b.
Proof. unfold log_add. repeat case_decide; set_solver. Qed.

Lemma length_ts_log lg lg' b : lg' = lg ∨ lg' = log_add lg b → (length lg <= length lg' <= S (length lg))%nat.
Proof. intros [->| ->]; [lia|]. apply length_log_add. Qed.

Lemma free_map_ok tx sb v v' out b : map_ok tx sb v' out → (∀ c, block_ok (v' c)) → data_block tx sb v out b → map_ok tx sb (free_view v' sb b) out.
Proof.
  intros [M1 M2 M3 M4] Hok [D1 D2 D3 D4 D5 D6]. split; [done|done|done|]. intros c Hc Hu. unfold free_view in Hu. rewrite used_clear in Hu by (done || lia).
  destruct (Z.eqb_spec c b) as [->|]; [|by apply M4]. split; [lia|]. split; [done|]. split; [done|]. intros d Hd E. apply D5. exists d. by split.
Qed.

Lemma freed_S v x k c : 0 <= k → blockno v x k ≠ 0 → freed v x (k + 1) c ↔ freed v x k c ∨ c = blockno v x k.
Proof.
  intros Hk Hnz. split.
  - intros (Hc & j & Hj & E). destruct (decide (j = k)) as [->|]; [by right|]. left. split; [done|]. exists j. split; [lia|done].
  - intros [(Hc & j & Hj & E)| ->]; (split; [done|]); [exists j; split; [lia|done]|]. exists k. split; [lia|done].
Qed.

Lemma freed_skip v x k c : blockno v x k = 0 → freed v x (k + 1) c ↔ freed v x k c.
Proof.
  intros Hz. split; intros (Hc & j & Hj & E); (split; [done|]); exists j; (split; [|done]); [|lia].
  destruct (decide (j = k)) as [->|]; [congruence|lia].
Qed.

Lemma tstate_skip tx h out sb v x lg k s1 v1 lg1 : blockno v x k = 0 → tstate tx h out sb v x lg k s1 v1 lg1 → tstate tx h out sb v x lg (k + 1) s1 v1 lg1.
Proof. intros Hz. apply given_ext. intros c. symmetry. by apply freed_skip. Qed.

(** One more block. *)
Lemma give_one tx h out out0 sb v lg (P : Z → Prop) s1 v1 lg1 a : given tx h out sb v lg P s1 v1 lg1 → data_block tx sb v out0 a →
  sb_size sb <= BPB → (length lg + length out < 28)%nat → Z.of_nat (length lg) + 2 <= tx_cap tx →
  ¬ P a → (∀ c, P c → 0 < c) → a ∉ out.*2 →
  ∃ s2 v2 lg2, bfree ROOTDEV a (Thread h s1) = Ok tt (Thread h s2) ∧ same_mem s1 s2 ∧ given tx h out sb v lg (λ c, P c ∨ c = a) s2 v2 lg2.
Proof.
  intros [R1 S1 M1 F1 K1 B1 L1] Hd Hsz Hl Hcap Hnf Hpos Hno.
  assert (data_block tx sb v out a) as Hda by (destruct Hd; by split).
  assert (∀ c, block_ok (v1 c)) as Hok by (intros c; apply (brep_ok _ _ _ _ c R1)).
  pose proof (db_range _ _ _ _ _ Hda) as Har. pose proof (length_ts_log _ _ _ L1) as Hlg1.
  destruct (bfree_run tx h s1 v1 out lg1 a R1) as (s2 & E2 & Me2 & R2); rewrite ?S1; [done|lia|lia|lia| |].
  { rewrite K1 by (done || lia). apply Hda. }
  rewrite S1 in R2. assert (a / BPB = 0) as Ea by (apply Z.div_small; lia). rewrite Ea, Z.add_0_l in R2.
  exists s2, (free_view v1 sb a), (log_add lg1 (sb_bmapstart sb)). split; [done|]. split; [done|]. split.
  - done.
  - by rewrite (same_mem_sb _ _ Me2).
  - by eapply free_map_ok.
  - intros c [Hc| ->]; unfold free_view; rewrite used_clear by (done || lia || (specialize (Hpos c Hc); lia)); [|by rewrite Z.eqb_refl].
    destruct (c =? a); [done|]. by apply F1.
  - intros c Hc Hn. unfold free_view. rewrite used_clear by (done || lia). rewrite (proj2 (Z.eqb_neq c a)) by tauto. apply K1; [done|tauto].
  - intros c Hc. unfold free_view. rewrite fupdz_ne; [by apply B1|]. intros ->. apply Hc. exists a. split; [lia|done].
  - right. destruct L1 as [->| ->]; [done|]. apply log_add_twice.
Qed.

Lemma freed_pos tx sb v out x k c : file_ok tx sb v out x → k <= MAXFILE → freed v x k c → 0 < c.
Proof. intros Hf Hk (Hc & j & Hj & E). pose proof (db_range _ _ _ _ _ (blockno_owned _ _ _ _ _ j Hf ltac:(lia) ltac:(congruence))). lia. Qed.

Lemma free_step tx h out out0 sb v x lg k s1 v1 lg1 : tstate tx h out sb v x lg k s1 v1 lg1 → file_ok tx sb v out0 x →
  sb_size sb <= BPB → (length lg + length out < 28)%nat → Z.of_nat (length lg) + 2 <= tx_cap tx →
  0 <= k < MAXFILE → blockno v x k ≠ 0 → blockno v x k ∉ out.*2 →
  ∃ s2 v2 lg2, bfree ROOTDEV (blockno v x k) (Thread h s1) = Ok tt (Thread h s2) ∧ same_mem s1 s2 ∧ tstate tx h out sb v x lg (k + 1) s2 v2 lg2.
Proof.
  intros Ht Hf Hsz Hl Hcap Hk Hnz Hno.
  destruct (give_one tx h out out0 sb v lg _ s1 v1 lg1 (blockno v x k) Ht (blockno_owned _ _ _ _ _ k Hf Hk Hnz) Hsz Hl Hcap) as (s2 & v2 & lg2 & E2 & M2 & G2).
  - intros (_ & j & Hj & E). pose proof (fo_inj _ _ _ _ _ Hf k j Hk ltac:(lia) Hnz (eq_sym E)). lia.
  - intros c. apply (freed_pos _ _ _ _ _ _ _ Hf). lia.
  - done.
  - exists s2, v2, lg2. split; [done|]. split; [done|]. revert G2. apply given_ext. intros c. rewrite freed_S; [done|lia|done].
Qed.

(** ** The direct blocks *)

(** The inode without its first [k] block numbers. *)
Definition zeroed (k : nat) (x : inode) : inode :=
  Inode (i_dev x) (i_inum x) (i_ref x) (i_valid x) (i_type x) (i_major x) (i_minor x) (i_nlink x) (i_size x) (replicate k 0 ++ drop k (i_addrs x)).

Lemma zeroed_0 x : zeroed 0 x = x.
Proof. by destruct x. Qed.

Lemma zeroed_with k x : (k < length (i_addrs x))%nat → with_addr k 0 (zeroed k x) = zeroed (S k) x.
Proof.
  intros Hk. unfold with_addr, zeroed. cbn [i_dev i_inum i_ref i_valid i_type i_major i_minor i_nlink i_size i_addrs]. f_equal.
  destruct (lookup_lt_is_Some_2 _ _ Hk) as [a Ha]. rewrite (drop_S _ a k Ha), insert_app_r_alt by (rewrite length_replicate; lia).
  rewrite length_replicate, Nat.sub_diag. cbn [list_insert insert]. by rewrite replicate_S_end, <- app_assoc.
Qed.

Lemma zeroed_skip k x : (k < length (i_addrs x))%nat → default 0 (i_addrs x !! k) = 0 → zeroed k x = zeroed (S k) x.
Proof.
  intros Hk Hz. rewrite <- zeroed_with by done. unfold with_addr, zeroed. cbn [i_dev i_inum i_ref i_valid i_type i_major i_minor i_nlink i_size i_addrs]. f_equal.
  symmetry. apply list_insert_id. destruct (lookup_lt_is_Some_2 _ _ Hk) as [a Ha]. rewrite Ha in Hz. cbn in Hz. subst a.
  rewrite (drop_S _ 0 k Ha), lookup_app_r by (rewrite length_replicate; lia). by rewrite length_replicate, Nat.sub_diag.
Qed.

Lemma zeroed_lookup k x j : (k <= j)%nat → default 0 (i_addrs (zeroed k x) !! j) = default 0 (i_addrs x !! j).
Proof. intros Hj. cbn [zeroed i_addrs]. rewrite lookup_app_r by (rewrite length_replicate; lia). rewrite length_replicate, lookup_drop. do 2 f_equal. lia. Qed.

Definition direct_body (dev : Z) (ip i : nat) : M (fs B) unit :=
  let! a := gets (λ s, default 0 (i_addrs (geti ip s) !! i)) in
  if a =? 0 then ret tt
  else bfree dev a ;;; modify (upd_inode ip (with_addr i 0)).

Lemma direct_loop_run tx h out sb v x lg ip t0 : file_ok tx sb v out x → sb_size sb <= BPB →
  (length lg + length out < 28)%nat → Z.of_nat (length lg) + 2 <= tx_cap tx → (ip < length t0)%nat →
  ∀ n k s1 v1 lg1, (k + n = Z.to_nat NDIRECT)%nat → tstate tx h out sb v x lg (Z.of_nat k) s1 v1 lg1 → f_itable s1 = <[ip := zeroed k x]> t0 →
  ∃ s2 v2 lg2, for_range k n (direct_body ROOTDEV ip) (Thread h s1) = Ok tt (Thread h s2) ∧
    tstate tx h out sb v x lg NDIRECT s2 v2 lg2 ∧ f_itable s2 = <[ip := zeroed (Z.to_nat NDIRECT) x]> t0.
Proof.
  intros Hf Hsz Hl Hcap Hip. pose proof (fo_len _ _ _ _ _ Hf) as Hlen. change NADDRS with 11%nat in Hlen. change (Z.to_nat NDIRECT) with 10%nat.
  induction n as [|n IH]; intros k s1 v1 lg1 Hkn Ht Htab; cbn [for_range].
  { assert (k = 10%nat) as -> by lia. exists s1, v1, lg1. done. }
  assert (f_itable s1 !! ip = Some (zeroed k x)) as Hx by (rewrite Htab; by apply list_lookup_insert_eq).
  assert (blockno v x (Z.of_nat k) = default 0 (i_addrs x !! k)) as Eb by (rewrite blockno_lt by (change NDIRECT with 10; lia); by rewrite Nat2Z.id).
  unfold direct_body at 1. rewrite bind_assoc. kstep. cbn [held st]. rewrite (geti_lookup _ _ _ Hx), zeroed_lookup by done. rewrite <- Eb.
  destruct (Z.eqb_spec (blockno v x (Z.of_nat k)) 0) as [Ez|Hnz].
  - kstep. destruct (IH (1 + k)%nat s1 v1 lg1) as (s2 & v2 & lg2 & E2 & T2 & I2); [lia| | |by exists s2, v2, lg2].
    + replace (Z.of_nat (1 + k)) with (Z.of_nat k + 1) by lia. by apply tstate_skip.
    + rewrite Htab. by rewrite (zeroed_skip k x) by (lia || congruence).
  - destruct (free_step tx h out out sb v x lg (Z.of_nat k) s1 v1 lg1 Ht Hf Hsz Hl Hcap) as (s2 & v2 & lg2 & E2 & M2 & T2); [change MAXFILE with 266; lia|done| |].
    { apply (db_out _ _ _ _ _ (blockno_owned _ _ _ _ _ (Z.of_nat k) Hf ltac:(change MAXFILE with 266; lia) Hnz)). }
    rewrite bind_assoc, (bind_Ok _ _ _ _ _ E2). kstep.
    assert (f_itable s2 !! ip = Some (zeroed k x)) as Hx2 by (by rewrite (same_mem_itable _ _ M2)).
    destruct (IH (1 + k)%nat (upd_inode ip (with_addr k 0) s2) v2 lg2) as (s3 & v3 & lg3 & E3 & T3 & I3); [lia| | |by exists s3, v3, lg3].
    + replace (Z.of_nat (1 + k)) with (Z.of_nat k + 1) by lia. destruct T2. by split.
    + unfold upd_inode, set_itable. cbn [f_itable]. rewrite (geti_lookup _ _ _ Hx2), zeroed_with by lia.
      by rewrite (same_mem_itable _ _ M2), Htab, list_insert_insert_eq.
Qed.

(** ** The indirect block *)

Definition indirect_body (dev : Z) (bp j : nat) : M (fs B) unit :=
  let! d := data_of bp in
  let a := get32 d j in
  if a =? 0 then ret tt else bfree dev a.

Lemma map_ok_out tx sb v out bp b : used v sb b = true → ¬ map_block sb b → map_ok tx sb v out → map_ok tx sb v ((bp, b) :: out).
Proof.
  intros Hu Hm [M1 M2 M3 M4].
  split; [done|done| |]; intros c Hc.
  - destruct (M3 c Hc) as [H1 H2]. split; [done|]. cbn [fmap list_fmap snd]. apply not_elem_of_cons. split; [|done]. intros E. apply Hm. by exists c.
  - intros Hf. destruct (M4 c Hc Hf) as (H1 & H2 & H3 & H4). split; [done|]. split; [done|]. split; [|done].
    cbn [fmap list_fmap snd]. apply not_elem_of_cons. split; [congruence|done].
Qed.

Lemma map_ok_close tx sb v out bp b : map_ok tx sb v ((bp, b) :: out) → map_ok tx sb v out.
Proof.
  intros [M1 M2 M3 M4]. split; [done|done| |]; intros c Hc.
  - destruct (M3 c Hc) as [H1 H2]. split; [done|]. cbn [fmap list_fmap snd] in H2. by apply not_elem_of_cons in H2 as [_ H2].
  - intros Hf. destruct (M4 c Hc Hf) as (H1 & H2 & H3 & H4). split; [done|]. split; [done|]. split; [|done].
    cbn [fmap list_fmap snd] in H3. by apply not_elem_of_cons in H3 as [_ H3].
Qed.

Lemma indirect_loop_run tx h out out0 bp sb v x lg t0 : file_ok tx sb v out0 x → ind_of x ≠ 0 → (bp, ind_of x) ∈ out → out.*2 ⊆ ind_of x :: out0.*2 →
  sb_size sb <= BPB → (length lg + length out < 28)%nat → Z.of_nat (length lg) + 2 <= tx_cap tx →
  ∀ n k s1 v1 lg1, (k + n = Z.to_nat NINDIRECT)%nat → tstate tx h out sb v x lg (NDIRECT + Z.of_nat k) s1 v1 lg1 → f_itable s1 = t0 →
  ∃ s2 v2 lg2, for_range k n (indirect_body ROOTDEV bp) (Thread h s1) = Ok tt (Thread h s2) ∧
    tstate tx h out sb v x lg MAXFILE s2 v2 lg2 ∧ f_itable s2 = t0.
Proof.
  intros Hf Hind Hbp Hsub Hsz Hl Hcap. pose proof (db_map _ _ _ _ _ (ind_owned _ _ _ _ _ Hf Hind)) as Hnm.
  induction n as [|n IH]; intros k s1 v1 lg1 Hkn Ht Htab; cbn [for_range].
  { exists s1, v1, lg1. split; [done|]. split; [|done]. replace MAXFILE with (NDIRECT + Z.of_nat k); [done|]. change NDIRECT with 10. change MAXFILE with 266. change (Z.to_nat NINDIRECT) with 256%nat in Hkn. lia. }
  change (Z.to_nat NINDIRECT) with 256%nat in Hkn.
  assert (data_of bp (Thread h s1) = Ok (v1 (ind_of x)) (Thread h s1)) as Ed.
  { unfold data_of, gets. cbn [st]. f_equal. eapply bdata_law; [exact (ts_rep _ _ _ _ _ _ _ _ _ _ Ht)|done]. }
  rewrite (ts_blocks _ _ _ _ _ _ _ _ _ _ Ht) in Ed by done.
  assert (0 <= NDIRECT + Z.of_nat k < MAXFILE) as Hkr by (change NDIRECT with 10; change MAXFILE with 266; lia).
  assert (blockno v x (NDIRECT + Z.of_nat k) = get32 (v (ind_of x)) k) as Eb.
  { unfold blockno. rewrite (proj2 (Z.ltb_ge _ _)) by lia. rewrite (proj2 (Z.eqb_neq _ _) Hind). f_equal. lia. }
  unfold indirect_body at 1. rewrite bind_assoc, (bind_Ok _ _ _ _ _ Ed). cbv zeta. rewrite <- Eb.
  destruct (Z.eqb_spec (blockno v x (NDIRECT + Z.of_nat k)) 0) as [Ez|Hnz].
  - kstep. apply (IH (1 + k)%nat s1 v1 lg1); [change (Z.to_nat NINDIRECT) with 256%nat; lia| |done].
    replace (NDIRECT + Z.of_nat (1 + k)) with (NDIRECT + Z.of_nat k + 1) by lia. by apply tstate_skip.
  - destruct (free_step tx h out out0 sb v x lg (NDIRECT + Z.of_nat k) s1 v1 lg1 Ht Hf Hsz Hl Hcap Hkr Hnz) as (s2 & v2 & lg2 & E2 & M2 & T2).
    { intros Hin. apply Hsub in Hin. apply list_elem_of_In in Hin. destruct Hin as [Hin|Hin]; [by apply (fo_ind _ _ _ _ _ Hf _ Hkr Hnz)|].
      apply list_elem_of_In in Hin. by apply (db_out _ _ _ _ _ (blockno_owned _ _ _ _ _ _ Hf Hkr Hnz)). }
    rewrite (bind_Ok _ _ _ _ _ E2). apply (IH (1 + k)%nat s2 v2 lg2); [change (Z.to_nat NINDIRECT) with 256%nat; lia| |by rewrite (same_mem_itable _ _ M2)].
    by replace (NDIRECT + Z.of_nat (1 + k)) with (NDIRECT + Z.of_nat k + 1) by lia.
Qed.

(** ** All blocks *)

Lemma freed_owns tx sb v out x c : file_ok tx sb v out x → (freed v x MAXFILE c ∨ c ≠ 0 ∧ c = ind_of x) ↔ owns v x c.
Proof.
  intros Hf. unfold freed, owns. split.
  - intros [(Hc & j & Hj & E)|[Hc E]]; (split; [done|]); [right; by exists j|by left].
  - intros [Hc [E|(j & Hj & E)]]; [by right|left; split; [done|]; by exists j].
Qed.

Definition drop_indirect (dev : Z) (ip : nat) (ind : Z) : M (fs B) unit :=
  if ind =? 0 then ret tt
  else
    let! bp := blk (bread dev ind) in
    for_range 0 (Z.to_nat NINDIRECT) (indirect_body dev bp) ;;;
    blk (brelse bp) ;;;
    bfree dev ind ;;;
    modify (upd_inode ip (with_addr (Z.to_nat NDIRECT) 0)).

Lemma freed_noind v x c : ind_of x = 0 → freed v x MAXFILE c ↔ freed v x NDIRECT c.
Proof.
  intros Hi. split; intros (Hc & j & Hj & E); (split; [done|]); exists j; (split; [|done]); [|change NDIRECT with 10 in Hj; change MAXFILE with 266; lia].
  destruct (decide (j < NDIRECT)); [lia|]. exfalso. apply Hc. rewrite <- E. unfold blockno. rewrite (proj2 (Z.ltb_ge _ _)) by lia. by rewrite Hi.
Qed.

Lemma drop_indirect_run tx h out sb v x lg ip t0 s1 v1 lg1 : file_ok tx sb v out x → sb_size sb <= BPB →
  (length lg + length out < 27)%nat → Z.of_nat (length lg) + 2 <= tx_cap tx → (ip < length t0)%nat →
  tstate tx h out sb v x lg NDIRECT s1 v1 lg1 → f_itable s1 = <[ip := zeroed 10 x]> t0 →
  ∃ s2 v2 lg2, drop_indirect ROOTDEV ip (ind_of x) (Thread h s1) = Ok tt (Thread h s2) ∧
    given tx h out sb v lg (owns v x) s2 v2 lg2 ∧ f_itable s2 = <[ip := zeroed 11 x]> t0.
Proof.
  intros Hf Hsz Hl Hcap Hip Ht Htab. pose proof (fo_len _ _ _ _ _ Hf) as Hlen. change NADDRS with 11%nat in Hlen. unfold drop_indirect.
  destruct (Z.eqb_spec (ind_of x) 0) as [Hz|Hind].
  - exists s1, v1, lg1. split; [done|]. split.
    + revert Ht. apply given_ext. intros c. rewrite <- (freed_owns _ _ _ _ _ _ Hf), Hz. rewrite freed_noind by done. tauto.
    + rewrite Htab. f_equal. by rewrite (zeroed_skip 10 x) by (lia || done).
  - pose proof (ind_owned _ _ _ _ _ Hf Hind) as Hdi. pose proof (length_ts_log _ _ _ (ts_log _ _ _ _ _ _ _ _ _ _ Ht)) as Hlg1.
    assert (∀ k, k <= MAXFILE → ¬ freed v x k (ind_of x)) as Hni.
    { intros k Hk (_ & j & Hj & E). apply (fo_ind _ _ _ _ _ Hf j); [lia|by rewrite E|done]. }
    destruct (blk_bread_run tx h s1 v1 out lg1 (ind_of x) (ts_rep _ _ _ _ _ _ _ _ _ _ Ht) (db_out _ _ _ _ _ Hdi) ltac:(lia))
      as (bp & s2 & E2 & R2 & Hbp & M2 & _).
    rewrite (bind_Ok _ _ _ _ _ E2).
    assert (tstate tx (SL_buf bp :: h) ((bp, ind_of x) :: out) sb v x lg NDIRECT s2 v1 lg1) as T2.
    { destruct Ht as [Q1 Q2 Q3 Q4 Q5 Q6 Q7]. split; try done; [by rewrite (same_mem_sb _ _ M2)|].
      apply map_ok_out; [|apply Hdi|done]. rewrite Q5; [apply Hdi|pose proof (db_range _ _ _ _ _ Hdi); lia|apply Hni; done]. }
    destruct (indirect_loop_run tx (SL_buf bp :: h) ((bp, ind_of x) :: out) out bp sb v x lg (<[ip := zeroed 10 x]> t0) Hf Hind) with (n := Z.to_nat NINDIRECT) (k := 0%nat) (s1 := s2) (v1 := v1) (lg1 := lg1)
      as (s3 & v3 & lg3 & E3 & T3 & I3); [by left|done|done|cbn [length]; lia|done|done|by rewrite Z.add_0_r|by rewrite (same_mem_itable _ _ M2)|].
    rewrite (bind_Ok _ _ _ _ _ E3).
    destruct (blk_brelse_run tx h s3 v3 out lg3 bp (ind_of x) (ts_rep _ _ _ _ _ _ _ _ _ _ T3) Hbp) as (s4 & E4 & M4 & R4).
    rewrite (bind_Ok _ _ _ _ _ E4).
    assert (given tx h out sb v lg (freed v x MAXFILE) s4 v3 lg3) as T4.
    { destruct T3 as [Q1 Q2 Q3 Q4 Q5 Q6 Q7]. split; try done; [by rewrite (same_mem_sb _ _ M4)|by eapply map_ok_close]. }
    destruct (give_one tx h out out sb v lg _ s4 v3 lg3 (ind_of x) T4 Hdi Hsz ltac:(lia) Hcap) as (s5 & v5 & lg5 & E5 & M5 & T5);
      [by apply Hni|intros c; by apply (freed_pos _ _ _ _ _ _ _ Hf)|apply Hdi|].
    rewrite (bind_Ok _ _ _ _ _ E5). unfold modify. eexists _, v5, lg5. split; [reflexivity|]. split.
    + apply (given_ext _ _ _ _ _ _ (λ c, freed v x MAXFILE c ∨ c = ind_of x)).
      * intros c. rewrite <- (freed_owns _ _ _ _ _ _ Hf). split; (intros [?|?]; [by left|right]); [split; congruence|tauto].
      * destruct T5 as [Q1 Q2 Q3 Q4 Q5 Q6 Q7]. by split.
    + assert (f_itable s5 = <[ip := zeroed 10 x]> t0) as I5 by (by rewrite (same_mem_itable _ _ M5), (same_mem_itable _ _ M4)).
      assert (f_itable s5 !! ip = Some (zeroed 10 x)) as Hx5 by (rewrite I5; by apply list_lookup_insert_eq).
      cbn [held st]. unfold upd_inode, set_itable. cbn [f_itable]. rewrite (geti_lookup _ _ _ Hx5).
      change (Z.to_nat NDIRECT) with 10%nat. by rewrite zeroed_with, I5, list_insert_insert_eq by lia.
Qed.

(** ** [itrunc] *)

(** The inode in memory afterwards. *)
Definition emptied (x : inode) : inode := with_size 0 (zeroed 11 x).

Lemma dinode_ok_emptied x : dinode_ok (to_dinode x) → dinode_ok (to_dinode (emptied x)).
Proof.
  intros [D1 D2 D3 D4 D5 D6 D7]. split; try done; cbn [to_dinode emptied with_size zeroed d_size d_addrs i_size i_addrs].
  - apply Forall_app. split; [by apply Forall_replicate|by apply Forall_drop].
  - cbn [to_dinode d_addrs] in D7. by rewrite length_app, length_replicate, length_drop, D7.
Qed.

Lemma itrunc_run tx h s v out lg ip x : frep tx h s (Tx v out lg []) → fs_ok tx (f_sb s) v out → file_ok tx (f_sb s) v out x →
  sb_size (f_sb s) <= BPB → (length lg + length out < 27)%nat → Z.of_nat (length lg) + 2 <= tx_cap tx →
  f_itable s !! ip = Some x → i_dev x = ROOTDEV → 0 <= i_inum x < sb_ninodes (f_sb s) → dinode_ok (to_dinode x) →
  ∃ s' v1 lg1 s1, itrunc ip (Thread h s) = Ok tt (Thread h s') ∧ given tx h out (f_sb s) v lg (owns v x) s1 v1 lg1 ∧
    f_sb s' = f_sb s ∧ f_itable s' = <[ip := emptied x]> (f_itable s) ∧
    frep tx h s' (Tx (fupdz v1 (IBLOCK (i_inum x) (f_sb s)) (set_dinode (dinode_off (i_inum x)) (to_dinode (emptied x)) (v1 (IBLOCK (i_inum x) (f_sb s))))) out
      (log_add lg1 (IBLOCK (i_inum x) (f_sb s))) []).
Proof.
  intros Hr Hfs Hf Hsz Hl Hcap Hx Hdev Hn Hok. pose proof (lookup_lt_Some _ _ _ Hx) as Hip.
  pose proof (fo_len _ _ _ _ _ Hf) as Hlen. change NADDRS with 11%nat in Hlen.
  assert (tstate tx h out (f_sb s) v x lg 0 s v lg) as T0.
  { split; try done; [apply Hfs|intros c (_ & j & Hj & _); lia|by left]. }
  destruct (direct_loop_run tx h out (f_sb s) v x lg ip (f_itable s) Hf Hsz ltac:(lia) Hcap Hip (Z.to_nat NDIRECT) 0 s v lg) as (s1 & v1 & lg1 & E1 & T1 & I1);
    [done|done|by rewrite zeroed_0, list_insert_id|].
  destruct (drop_indirect_run tx h out (f_sb s) v x lg ip (f_itable s) s1 v1 lg1 Hf Hsz Hl Hcap Hip T1 I1) as (s2 & v2 & lg2 & E2 & T2 & I2).
  pose proof (length_ts_log _ _ _ (ts_log _ _ _ _ _ _ _ _ _ _ T2)) as Hlg2.
  set (s3 := upd_inode ip (with_size 0) s2).
  assert (f_itable s2 !! ip = Some (zeroed 11 x)) as Hx2 by (rewrite I2; by apply list_lookup_insert_eq).
  assert (f_itable s3 = <[ip := emptied x]> (f_itable s)) as I3.
  { unfold s3, upd_inode, set_itable. cbn [f_itable]. by rewrite (geti_lookup _ _ _ Hx2), I2, list_insert_insert_eq. }
  assert (f_sb s3 = f_sb s) as S3 by exact (ts_sb _ _ _ _ _ _ _ _ _ _ T2).
  destruct (iupdate_run tx h s3 v2 out lg2 ip (emptied x)) as (s4 & E4 & M4 & R4).
  - exact (ts_rep _ _ _ _ _ _ _ _ _ _ T2).
  - rewrite S3. apply Hfs.
  - lia.
  - lia.
  - rewrite I3. by apply list_lookup_insert_eq.
  - done.
  - by rewrite S3.
  - by apply dinode_ok_emptied.
  - rewrite S3 in R4. exists s4, v2, lg2, s2. split; [|split; [done|]].
    + assert (f_itable s1 !! ip = Some (zeroed 10 x)) as Hx1 by (rewrite I1; by apply list_lookup_insert_eq).
      unfold itrunc. kstep. cbn [st]. rewrite (geti_lookup _ _ _ Hx), Hdev.
      change (Z.to_nat NDIRECT) with 10%nat in E1. unfold direct_body in E1. rewrite (bind_Ok _ _ _ _ _ E1).
      kstep. cbn [held st]. rewrite (geti_lookup _ _ _ Hx1), zeroed_lookup by done.
      unfold drop_indirect, indirect_body, ind_of in E2. rewrite (bind_Ok _ _ _ _ _ E2). kstep. exact E4.
    + split; [by rewrite (same_mem_sb _ _ M4)|]. split; [by rewrite (same_mem_itable _ _ M4)|exact R4].
Qed.

(** ** The file system without the file *)

(** A file whose blocks are as they were. *)
Lemma file_ok_transfer tx sb v v' out y : (∀ c, owns v y c → used v' sb c = true ∧ v' c = v c) → file_ok tx sb v out y →
  file_ok tx sb v' out y ∧ ∀ o, 0 <= o < MAXFILE * BSIZE → fbyte v' y o = fbyte v y o.
Proof.
  intros Hv Hf. assert (ind_of y ≠ 0 → v' (ind_of y) = v (ind_of y)) as Hi by (intros Hz; by apply Hv, owns_ind).
  pose proof (blockno_ext v v' y) as Hb. pose proof Hf as [F1 F2 F3 F4]. split.
  - split; [done| | |].
    + intros c Hc. apply (owns_ext v v') in Hc; [|done]. destruct (F2 c Hc). split; try done. by apply Hv.
    + intros k k' Hk Hk'. rewrite !Hb by done. by apply F3.
    + intros k Hk. rewrite !Hb by done. by apply F4.
  - intros o Ho. apply fbyte_ext; [done|]. intros c Hc. by apply Hv.
Qed.

(** [v'] is [v] with the blocks of [x] given back and another inode in its place. *)
Record reclaimed (tx : txinfo) (sb : superblock) (v : Z → block) (out : list (nat * Z)) (x : inode) (v' : Z → block) : Prop := {
  rc_used c : 0 <= c < sb_size sb → used v' sb c = true ↔ used v sb c = true ∧ ¬ owns v x c;
  rc_same c : ¬ map_block sb c → c ≠ IBLOCK (i_inum x) sb → v' c = v c;
  rc_inodes j : 0 <= j < sb_ninodes sb → j ≠ i_inum x → dinode_at v' sb j = dinode_at v sb j;
  rc_ok : fs_ok tx sb v' out;
  rc_files y : file_ok tx sb v out y → (∀ c, owns v y c → ¬ owns v x c) →
    file_ok tx sb v' out y ∧ ∀ o, 0 <= o < MAXFILE * BSIZE → fbyte v' y o = fbyte v y o }.

Lemma given_reclaimed tx h s out sb v lg x v' lg' : fs_ok tx sb v out → file_ok tx sb v out x →
  given tx h out sb v lg (owns v x) s v' lg' → reclaimed tx sb v out x v'.
Proof.
  intros [K1 K2 K3] Hf [R1 S1 M1 F1 G1 B1 L1].
  assert (∀ c, 0 <= c < sb_size sb → used v' sb c = true ↔ used v sb c = true ∧ ¬ owns v x c) as Hu.
  { intros c Hc. split; [|by intros [Hu Hn]; rewrite G1].
    intros Hu. assert (¬ owns v x c) as Hn by (intros Ho; rewrite F1 in Hu by done; done). by rewrite <- G1. }
  split; [done|by intros; apply B1| | |].
  - intros j Hj _. unfold dinode_at. by rewrite B1 by (apply K3; done).
  - split; [done|done|]. intros j Hj. destruct (K3 j Hj) as (H1 & H2 & H3). split; [done|]. split; [|done].
    apply Hu; [done|]. split; [done|]. intros Ho. by apply (db_inode _ _ _ _ _ (fo_own _ _ _ _ _ Hf _ Ho) j Hj).
  - intros y Hy Hd. apply file_ok_transfer; [|done]. intros c Hc. pose proof (fo_own _ _ _ _ _ Hy c Hc) as [D1 D2 D3 D4 D5 D6].
    split; [|by apply B1]. apply Hu; [lia|]. split; [done|by apply Hd].
Qed.

Lemma reclaimed_inode tx sb v out x v' d : 0 <= i_inum x < sb_ninodes sb → (∀ c, block_ok (v' c)) → dinode_ok d → fs_ok tx sb v out →
  reclaimed tx sb v out x v' →
  let v2 := fupdz v' (IBLOCK (i_inum x) sb) (set_dinode (dinode_off (i_inum x)) d (v' (IBLOCK (i_inum x) sb))) in
  reclaimed tx sb v out x v2 ∧ dinode_at v2 sb (i_inum x) = d.
Proof.
  intros Hn Hok Hd Hfs [R1 R2 R3 R4 R5] v2. destruct (fk_meta _ _ _ _ Hfs _ Hn) as (H1 & H2 & H3). pose proof (dinode_off_bound (i_inum x)) as Hob.
  split; [|unfold dinode_at, v2; rewrite fupdz_eq; apply get_set_dinode; [done|by rewrite block_len]]. split.
  - intros c Hc. unfold v2. rewrite used_fupdz by done. by apply R1.
  - intros c Hc Hne. unfold v2. rewrite fupdz_ne by done. by apply R2.
  - intros j Hj Hne. unfold v2. rewrite (dinode_at_other tx _ out); [by apply R3|apply R4|done|done|done|].
    intros off Ho Ho2. apply get_set_dinode_ne; [done|by rewrite block_len|lia].
  - by apply fs_ok_fupdz.
  - intros y Hy Hdj. destruct (R5 y Hy Hdj) as [Hf Hb].
    destruct (file_ok_transfer tx sb v' v2 out y) as [Hf2 Hb2]; [|done|].
    + intros c Hc. destruct (fo_own _ _ _ _ _ Hf c Hc) as [D1 D2 D3 D4 D5 D6]. specialize (D6 _ Hn). unfold v2.
      rewrite used_fupdz by (done || lia). by rewrite fupdz_ne by congruence.
    + split; [done|]. intros o Ho. by rewrite Hb2, Hb.
Qed.

(** [itrunc] empties the file: afterwards no block is the file's, its blocks are free,
    and nothing else is. *)
Theorem itrunc_correct tx h s v out lg ip x : frep tx h s (Tx v out lg []) → fs_ok tx (f_sb s) v out → file_ok tx (f_sb s) v out x →
  sb_size (f_sb s) <= BPB → (length lg + length out < 27)%nat → Z.of_nat (length lg) + 2 <= tx_cap tx →
  f_itable s !! ip = Some x → i_dev x = ROOTDEV → 0 <= i_inum x < sb_ninodes (f_sb s) → dinode_ok (to_dinode x) →
  ∃ s' v' lg', itrunc ip (Thread h s) = Ok tt (Thread h s') ∧ frep tx h s' (Tx v' out lg' []) ∧
    (length lg <= length lg' <= length lg + 2)%nat ∧ f_sb s' = f_sb s ∧ f_itable s' = <[ip := emptied x]> (f_itable s) ∧
    reclaimed tx (f_sb s) v out x v' ∧ dinode_at v' (f_sb s) (i_inum x) = to_dinode (emptied x).
Proof.
  intros Hr Hfs Hf Hsz Hl Hcap Hx Hdev Hn Hok.
  destruct (itrunc_run tx h s v out lg ip x Hr Hfs Hf Hsz Hl Hcap Hx Hdev Hn Hok) as (s' & v1 & lg1 & s1 & E & G & Es & Ei & R).
  pose proof (length_ts_log _ _ _ (ts_log _ _ _ _ _ _ _ _ _ _ G)) as H1. pose proof (length_log_add lg1 (IBLOCK (i_inum x) (f_sb s))) as H2.
  destruct (reclaimed_inode tx (f_sb s) v out x v1 (to_dinode (emptied x)) Hn) as [Hrc Hd].
  - intros c. apply (brep_ok _ _ _ _ c (ts_rep _ _ _ _ _ _ _ _ _ _ G)).
  - by apply dinode_ok_emptied.
  - done.
  - by eapply given_reclaimed.
  - eexists s', _, _. split; [exact E|]. split; [exact R|]. split; [lia|]. done.
Qed.

(** ** [iput] *)

(** The entry of an inode that is gone. *)
Definition gone (x : inode) : inode := with_ref 0 (Fs.with_valid false (with_type 0 (emptied x))).

(** [iput] of the last reference to an inode without links, from what [itrunc] and [iupdate]
    do. *)
Lemma iput_last_step h s ip x s1 s3 : f_itable s !! ip = Some x → i_ref x = 1 → i_valid x = true → i_nlink x = 0 → L_itable ∉ h → SL_inode ip ∉ h →
  itrunc ip (Thread (SL_inode ip :: h) s) = Ok tt (Thread (SL_inode ip :: h) s1) →
  iupdate ip (Thread (SL_inode ip :: h) (upd_inode ip (with_type 0) s1)) = Ok tt (Thread (SL_inode ip :: h) s3) →
  iput ip (Thread h s) = Ok tt (Thread h (upd_inode ip (λ y, with_ref (i_ref y - 1) y) (upd_inode ip (Fs.with_valid false) s3))).
Proof.
  intros Hx Href Hval Hnl Hlk Hsl E1 E3. unfold iput. do 2 kstep. cbn [st]. rewrite (geti_lookup _ _ _ Hx), Href, Hval, Hnl. cbn [andb Z.eqb Pos.eqb].
  kstep. rewrite (bind_Ok (acquiresleep _) _ _ tt (Thread (SL_inode ip :: L_itable :: h) s)).
  2: { unfold acquiresleep. cbn [held st]. rewrite decide_False; [done|]. apply not_elem_of_cons. by split. }
  kstep. rewrite (bind_Ok (release L_itable) _ _ tt (Thread (SL_inode ip :: h) s)).
  2: { unfold release. cbn [held st remove_lock]. rewrite decide_True by (right; left). rewrite decide_False, decide_True by done. done. }
  kstep. rewrite (bind_Ok _ _ _ _ _ E1). do 3 kstep. cbn [held st]. rewrite (bind_Ok _ _ _ _ _ E3). do 2 kstep. cbn [held st].
  kstep. rewrite (bind_Ok (releasesleep _) _ _ tt (Thread h (upd_inode ip (Fs.with_valid false) s3))).
  2: { unfold releasesleep. cbn [held st remove_lock]. by rewrite decide_True. }
  rewrite (bind_Ok (acquire L_itable) _ _ tt (Thread (L_itable :: h) (upd_inode ip (Fs.with_valid false) s3))) by by apply acquire_Ok.
  kstep. cbn [held st]. apply release_Ok.
Qed.

(** [type = 0] and the second [iupdate]. *)
Lemma retype_run tx h s v out lg ip x t0 : frep tx h s (Tx v out lg []) → inodes_ok tx (f_sb s) out →
  (length lg + length out < 29)%nat → Z.of_nat (length lg) < tx_cap tx → (ip < length t0)%nat → f_itable s = <[ip := x]> t0 →
  i_dev x = ROOTDEV → 0 <= i_inum x < sb_ninodes (f_sb s) → dinode_ok (to_dinode x) →
  dinode_ok (to_dinode (with_type 0 x)) ∧
  ∃ s', iupdate ip (Thread h (upd_inode ip (with_type 0) s)) = Ok tt (Thread h s') ∧ f_sb s' = f_sb s ∧ f_itable s' = <[ip := with_type 0 x]> t0 ∧
    frep tx h s' (Tx (fupdz v (IBLOCK (i_inum x) (f_sb s))
        (set_dinode (dinode_off (i_inum x)) (to_dinode (with_type 0 x)) (v (IBLOCK (i_inum x) (f_sb s))))) out
      (log_add lg (IBLOCK (i_inum x) (f_sb s))) []).
Proof.
  intros Hr Hio Hl Hcap Hip Hx Hdev Hn Hok.
  assert (dinode_ok (to_dinode (with_type 0 x))) as Hok2 by (destruct Hok; split; try done; cbn; lia). split; [done|].
  assert (f_itable s !! ip = Some x) as Hx1 by (rewrite Hx; by apply list_lookup_insert_eq).
  assert (f_itable (upd_inode ip (with_type 0) s) = <[ip := with_type 0 x]> t0) as I2.
  { unfold upd_inode, set_itable. cbn [f_itable]. by rewrite (geti_lookup _ _ _ Hx1), Hx, list_insert_insert_eq. }
  destruct (iupdate_run tx h (upd_inode ip (with_type 0) s) v out lg ip (with_type 0 x)) as (s' & E & M & R); try done.
  - rewrite I2. by apply list_lookup_insert_eq.
  - exists s'. split; [done|]. split; [by rewrite (same_mem_sb _ _ M)|]. split; [by rewrite (same_mem_itable _ _ M)|exact R].
Qed.

(** C7: an unlinked file goes when its last reference does.  [iput] of a loaded inode
    with no links, held once, returns; every block the file had (direct, indirect and the
    block of indirect numbers) is free and no other block changed its mark; the inode on
    the disk has type 0 and no blocks, so [ialloc] may take it, and so does the entry of
    the table; the blocks of data keep their contents, the other inodes are as they
    were, and every file that shares no block with this one has all its bytes.  The whole
    of it takes at most two blocks of the log. *)
Theorem iput_frees tx h s v out lg ip x : frep tx h s (Tx v out lg []) → fs_ok tx (f_sb s) v out → file_ok tx (f_sb s) v out x →
  sb_size (f_sb s) <= BPB → (length lg + length out < 27)%nat → Z.of_nat (length lg) + 3 <= tx_cap tx →
  f_itable s !! ip = Some x → i_dev x = ROOTDEV → 0 <= i_inum x < sb_ninodes (f_sb s) → dinode_ok (to_dinode x) →
  i_ref x = 1 → i_valid x = true → i_nlink x = 0 → L_itable ∉ h → SL_inode ip ∉ h →
  ∃ s' v' lg', iput ip (Thread h s) = Ok tt (Thread h s') ∧ frep tx h s' (Tx v' out lg' []) ∧
    (length lg' <= length lg + 2)%nat ∧ f_sb s' = f_sb s ∧ f_itable s' = <[ip := gone x]> (f_itable s) ∧
    dinode_at v' (f_sb s) (i_inum x) = Dinode 0 (i_major x) (i_minor x) 0 0 (replicate NADDRS 0) ∧
    (∀ c, 0 <= c < sb_size (f_sb s) → used v' (f_sb s) c = true ↔ used v (f_sb s) c = true ∧ ¬ owns v x c) ∧
    (∀ c, ¬ map_block (f_sb s) c → c ≠ IBLOCK (i_inum x) (f_sb s) → v' c = v c) ∧
    (∀ j, 0 <= j < sb_ninodes (f_sb s) → j ≠ i_inum x → dinode_at v' (f_sb s) j = dinode_at v (f_sb s) j) ∧
    fs_ok tx (f_sb s) v' out ∧
    (∀ y, file_ok tx (f_sb s) v out y → (∀ c, owns v y c → ¬ owns v x c) →
       file_ok tx (f_sb s) v' out y ∧ ∀ o, 0 <= o < MAXFILE * BSIZE → fbyte v' y o = fbyte v y o).
Proof.
  intros Hr Hfs Hf Hsz Hl Hcap Hx Hdev Hn Hok Href Hval Hnl Hlk Hsl. set (sb := f_sb s) in *. pose proof (lookup_lt_Some _ _ _ Hx) as Hip.
  assert (frep tx (SL_inode ip :: h) s (Tx v out lg [])) as Hr'.
  { eapply brep_held; [exact Hr|]. intros lk Hb. rewrite elem_of_cons. split; [|auto]. intros [->|]; [done|auto]. }
  destruct (itrunc_run tx (SL_inode ip :: h) s v out lg ip x Hr' Hfs Hf Hsz Hl ltac:(lia) Hx Hdev Hn Hok) as (s1 & v1 & lg1 & s0 & E1 & G1 & B1 & I1 & R1).
  fold sb in B1, G1, R1. set (v2 := fupdz v1 _ _) in R1. pose proof (length_ts_log _ _ _ (ts_log _ _ _ _ _ _ _ _ _ _ G1)) as L1.
  assert (∀ c, block_ok (v1 c)) as Hok1 by (intros c; apply (brep_ok _ _ _ _ c (ts_rep _ _ _ _ _ _ _ _ _ _ G1))).
  assert (∀ c, block_ok (v2 c)) as Hok2 by (intros c; apply (brep_ok _ _ _ _ c R1)).
  destruct (reclaimed_inode tx sb v out x v1 (to_dinode (emptied x)) Hn Hok1 (dinode_ok_emptied _ Hok) Hfs (given_reclaimed _ _ _ _ _ _ _ _ _ _ Hfs Hf G1)) as [Hrc2 _].
  pose proof (length_log_add lg1 (IBLOCK (i_inum x) sb)) as L2.
  destruct (retype_run tx (SL_inode ip :: h) s1 v2 out (log_add lg1 (IBLOCK (i_inum x) sb)) ip (emptied x) (f_itable s) R1) as (Hok3 & s3 & E3 & B3 & I3 & R3);
    [rewrite B1; apply Hfs|lia|lia|done|done|done|by rewrite B1|by apply dinode_ok_emptied|].
  rewrite B1, log_add_twice in R3. change (i_inum (emptied x)) with (i_inum x) in R3.
  destruct (reclaimed_inode tx sb v out x v2 _ Hn Hok2 Hok3 Hfs Hrc2) as [[C1 C2 C3 C4 C5] Hd].
  eexists _, _, (log_add lg1 (IBLOCK (i_inum x) sb)). split; [exact (iput_last_step h s ip x s1 s3 Hx Href Hval Hnl Hlk Hsl E1 E3)|]. split; [|split; [lia|split; [by rewrite <- B1, <- B3|split; [|split; [|done]]]]].
  - apply frep_upd, frep_upd. eapply brep_held; [exact R3|]. intros lk Hb. rewrite elem_of_cons. split; [auto|]. intros [->|]; [done|auto].
  - assert (f_itable s3 !! ip = Some (with_type 0 (emptied x))) as Hx3 by (rewrite I3; by apply list_lookup_insert_eq).
    rewrite (upd_upd _ _ _ _ _ Hx3). unfold upd_inode, set_itable. cbn [f_itable]. rewrite (geti_lookup _ _ _ Hx3), I3, list_insert_insert_eq.
    f_equal. unfold gone, with_ref, Fs.with_valid. cbn. by rewrite Href.
  - rewrite Hd. unfold to_dinode. cbn. rewrite Hnl. f_equal. rewrite drop_ge; [done|]. rewrite (fo_len _ _ _ _ _ Hf). done.
Qed.
End trunc.

(** Inode 5 of the small disk, unlinked: its block 60 is free afterwards, and the next
    one is not. *)
Definition unlinked5 : inode := Inode ROOTDEV 5 1 true T_FILE 0 0 0 100 (60 :: replicate 10 0).

Lemma unlinked5_owns c : 0 <= c < 200 → owns disk200 unlinked5 c ↔ c = 60.
Proof.
  intros Hc. split.
  - intros (Hz & [Hi|(k & Hk & E)]); [done|]. rewrite <- (blockno_attr disk200 unlinked5 file5) in E by done. rewrite file5_blockno in E by done. by destruct (k =? 0).
  - intros ->. split; [done|]. right. by exists 0.
Qed.

Lemma iput_frees_witness :
  ∃ s g s' v', iput 0 (Thread [] (fs_boot5 s g unlinked5)) = Ok tt (Thread [] s') ∧
    used disk200 sb200 60 = true ∧ used v' sb200 60 = false ∧ used v' sb200 61 = true ∧ d_type (dinode_at v' sb200 5) = 0.
Proof.
  destruct boot200 as (s & l & g & Hid & Hs & Hz & Hr & Hm & Hio).
  assert (∀ b, 32 <= b < 2 ^ 31 → tx_home (idle_tx s g) b) as Hh by (intros b Hb; by apply home2).
  destruct (iput_frees (idle_tx s g) [] (fs_boot5 s g unlinked5) disk200 [] [] 0 unlinked5)
    as (s' & v' & lg' & E & _ & _ & _ & _ & Hd & Hu & _).
  - exact Hr.
  - by apply fs_ok200.
  - apply (file_ok_attr _ _ _ _ file5); [done|]. by apply file5_ok.
  - done.
  - simpl. lia.
  - rewrite cap200 by done. simpl. lia.
  - done.
  - done.
  - cbn. lia.
  - split; cbn; try lia; try done. repeat constructor; lia.
  - done.
  - done.
  - done.
  - apply not_elem_of_nil.
  - apply not_elem_of_nil.
  - exists s, g, s', v'. split; [exact E|]. change (f_sb _) with sb200 in *. change (i_inum unlinked5) with 5 in Hd. rewrite Hd.
    split; [done|]. split; [|split; [|done]].
    + destruct (used v' sb200 60) eqn:Eu; [|done]. apply Hu in Eu as [_ Hn]; [|cbn; lia]. exfalso. apply Hn. by apply unlinked5_owns.
    + apply Hu; [cbn; lia|]. split; [done|]. rewrite unlinked5_owns by lia. done.
Defined.
