(* ===== verification/FsBoot.v ===== *)
(** * Mounting the file system

    From power on to the first process: the buffer cache of [binit], then [fsinit], which
    reads the superblock and recovers the log. *)

From S2P Require Import Prelude Param CString FsDisk Bio Log BlockLayer BlockLog Fs.

(** [initlog(dev, &sb)] with the fields it takes from the superblock. *)
Definition initlog_sb (dev : Z) (sb : superblock) : M lstate unit := Log.initlog dev (sb_logstart sb) (sb_nlog sb).

(** What [main], [userinit] and [forkret] do about files: the buffer cache, the current
    directory of the first process, which takes an entry of the inode table and no block,
    and then the mount. *)
Definition boot : M (fs lstate) (option nat) :=
  blk (bio_op binit) ;;;
  let! cwd := namei 0 (str "/") in
  fsinit initlog_sb ROOTDEV ;;;
  ret cwd.

(** The kernel's memory at power on, over the disk [d]: the globals are zero. *)
Definition sb0 : superblock := Superblock 0 0 0 0 0 0 0 0.
Definition power_on (d : Z → block) : fs lstate :=
  Fs (LState (bio_boot d) log_boot) sb0 (replicate (Z.to_nat NINODE) inode0) [].

(** The inode table with the reference of the first process. *)
Definition root_table : list inode :=
  with_entry ROOTDEV ROOTINO inode0 :: replicate (Z.to_nat NINODE - 1) inode0.

Lemma blk_lift {A} (m : M lstate A) h h' b b' sb it pr a :
  m (Thread h b) = Ok a (Thread h' b') → blk m (Thread h (Fs b sb it pr)) = Ok a (Thread h' (Fs b' sb it pr)).
Proof. intros E. unfold blk, lift. cbn [held st f_blk]. by rewrite E. Qed.

Lemma bind_panic {S A C} (m : M S A) (k : A → M S C) t e : m t = Panic e → bind m k t = Panic e.
Proof. intros E. unfold bind. by rewrite E. Qed.

Lemma binit_pinned d : (∀ b, block_ok (d b)) →
  ∃ s, binit (Thread [] (bio_boot d)) = Ok tt (Thread [] s) ∧ bio_inv s (rev (seq 0 HEAD)) ∧ disk s = d ∧ pinned s [].
Proof.
  intros Hok. destruct (binit_run d [] Hok) as (s & E & Hinv & Hd & _ & Hno). exists s. split; [done|]. split; [done|]. split; [done|].
  intros x. rewrite decide_False by apply not_elem_of_nil. destruct (decide (pins s x = 0)); [done|]. exfalso.
  pose proof (pins_nonneg s _ x Hinv). destruct (pins_pos_isbuf s x) as [i Hi]; [lia|]. by apply Hno in Hi.
Qed.

(** The superblock comes from block 1, before the log is looked at. *)
Lemma readsb_run s l g sb it pr : bio_inv s l → pinned s [] →
  ∃ s' l', readsb ROOTDEV (Thread [] (Fs (LState s g) sb it pr)) = Ok tt (Thread [] (Fs (LState s' g) (decode_sb (disk s 1)) it pr)) ∧
    bio_inv s' l' ∧ pinned s' [] ∧ disk s' = disk s ∧ writes s' = writes s.
Proof.
  intros Hinv Hp. assert (∀ x, pins s x = 0) as Hp0 by (intros x; rewrite Hp; by rewrite decide_False by apply not_elem_of_nil).
  destruct (bread_run [] s l 1 []) as (i & s1 & E1 & Hinv1 & Hi & _ & Hv1 & Hp1 & Hd1 & Hw1 & _);
    [done|apply not_elem_of_nil|intros i Hi; by apply not_elem_of_nil in Hi|intros i _; apply not_elem_of_nil|rewrite Hp0; lia| |rewrite HEAD_eq; cbn; lia|].
  { intros x Hx. rewrite Hp0 in Hx. lia. }
  assert (pins s1 1 = 1) as Hp11 by (rewrite Hp1, zupd_eq, Hp0; done).
  assert (∀ x, view s1 x = disk s x) as Hv by (intros x; rewrite Hv1; by eapply pinned_nil_view).
  destruct (brelse_run (SL_buf i :: []) s1 l i 1) as (s2 & l2 & E2 & Hinv2 & _ & _ & Hp2 & Hd2 & Hw2 & _); try done.
  - apply elem_of_cons. by left.
  - apply not_elem_of_cons. split; [done|apply not_elem_of_nil].
  - lia.
  - intros _. by rewrite Hv, Hd1.
  - exists s2, l2. split; [|split; [done|split; [|split; [congruence|congruence]]]].
    + unfold readsb. cbn [bread log_ops]. rewrite (bind_Ok _ _ _ _ _ (blk_lift _ _ _ _ _ _ _ _ _ (bio_op_Ok _ _ _ _ _ _ _ E1))).
      do 2 kstep. cbn [set_sb f_blk f_itable f_printed st bdata log_ops lbio brelse held]. cbn [remove_lock] in E2. rewrite decide_True in E2 by done.
      unfold set_sb. cbn [f_blk f_itable f_printed]. rewrite (blk_lift _ _ _ _ _ _ _ _ _ (bio_op_Ok _ _ _ _ _ _ _ E2)). by rewrite <- (view_isbuf s1 l 1 i Hinv1 Hi), Hv.
    + intros x. rewrite Hp2, zupd_if, Hp11, Hp1, zupd_if, !Hp0, decide_False by apply not_elem_of_nil. by destruct (x =? 1).
Qed.

Section boot.
Context (d : Z → block).
Let sb := decode_sb (d 1).
Let g := with_area (sb_logstart sb) (sb_nlog sb) ROOTDEV log_boot.
Hypothesis Hok : ∀ b, block_ok (d b).

Lemma boot_start : ∃ s l, bio_inv s l ∧ pinned s [] ∧ disk s = d ∧
  boot (Thread [] (power_on d)) = (fsinit initlog_sb ROOTDEV ;;; ret (Some 0%nat)) (Thread [] (Fs (LState s log_boot) sb0 root_table [])).
Proof.
  destruct (binit_pinned d Hok) as (s1 & E1 & Hinv1 & Hd1 & Hp1). exists s1. eexists. split; [exact Hinv1|]. split; [done|]. split; [done|].
  unfold boot, power_on. rewrite (bind_Ok _ _ _ _ _ (blk_lift _ _ _ _ _ _ _ _ _ (bio_op_Ok _ _ _ _ _ _ _ E1))).
  by rewrite (bind_Ok (namei _ _) _ _ (Some 0%nat) (Thread [] (Fs (LState s1 log_boot) sb0 root_table []))) by reflexivity.
Qed.

(** The kernel comes up on a disk with the superblock in block 1 and a log with the
    blocks [bl], which it puts in place. *)
Lemma boot_run bl : sb_magic sb = FSMAGIC → log_ok g → disk_header (d (sb_logstart sb)) bl →
  Z.of_nat (length bl) <= lg_size g - 1 → Forall (home g) bl → NoDup bl →
  ∃ s l g', boot (Thread [] (power_on d)) = Ok (Some 0%nat) (Thread [] (Fs (LState s g') sb root_table [])) ∧
    idle s l g' ∧ lg_start g' = sb_logstart sb ∧ lg_size g' = sb_nlog sb ∧
    ∀ x, disk s x = apply_writes d (recover_writes g d bl) x.
Proof.
  intros Hmg Hg Hd Hlen Hhome Hnd. destruct boot_start as (s1 & l1 & Hinv1 & Hp1 & Hd1 & E1).
  destruct (readsb_run s1 l1 log_boot sb0 root_table [] Hinv1 Hp1) as (s2 & l2 & E2 & Hinv2 & Hp2 & Hd2 & _). rewrite Hd1 in E2, Hd2. fold sb in E2.
  assert (quiet []) as Hq by (split; [apply not_elem_of_nil|intros i; apply not_elem_of_nil]). rewrite <- Hd2 in Hd.
  destruct (recover_run [] s2 l2 g bl Hinv2 Hq Hg Hp2 Hd Hlen Hhome Hnd) as (s3 & l3 & E3 & Hinv3 & Hp3 & _ & Hd3).
  destruct (loaded_ok g bl Hg Hlen Hhome Hnd) as [Hg1 Hh1]. destruct (header_clear _ _ Hg1 Hh1) as [Hg2 Hh2].
  exists s3, l3, (set_lh_n 0 (loaded g bl)). split; [|split; [|split; [done|split; [done|by rewrite Hd2 in Hd3]]]].
  - rewrite E1. rewrite (bind_Ok (fsinit _ _) _ _ tt (Thread [] (Fs (LState s3 (set_lh_n 0 (loaded g bl))) sb root_table []))); [done|].
    unfold fsinit. rewrite (bind_Ok _ _ _ _ _ E2). kstep. cbn [st f_sb]. rewrite Hmg. change (negb (FSMAGIC =? FSMAGIC)) with false. cbn [panic_if]. kstep.
    apply blk_lift. unfold initlog_sb, Log.initlog. change (BSIZE <=? 4 + 4 * LOGSIZE) with false. cbn [panic_if]. do 2 kstep. unfold updl. cbn [lbio llog st held].
    destruct Hg as [_ G2 G3 G4 _]. cbn [g with_area lg_start lg_size] in G2, G3, G4. unfold s32. rewrite !signed_small by (unfold LOGSIZE, MAXOPBLOCKS in *; lia). exact E3.
  - split; [done|done|done|done|done|done|].
    change (lg_start (set_lh_n 0 (loaded g bl))) with (sb_logstart sb). rewrite Hd3. unfold recover_writes. rewrite apply_writes_app. unfold apply_writes at 1. cbn [foldl].
    rewrite Hd2. change (lg_start g) with (sb_logstart sb). cbn [fst snd]. rewrite zupd_eq. apply (hdr_block_header (d (sb_logstart sb)) []); [apply Hok|cbn; lia|constructor].
Qed.

(** A disk without this file system. *)
Lemma boot_invalid : sb_magic sb ≠ FSMAGIC → boot (Thread [] (power_on d)) = Panic "invalid file system".
Proof.
  intros Hmg. destruct boot_start as (s1 & l1 & Hinv1 & Hp1 & Hd1 & E1). rewrite E1.
  destruct (readsb_run s1 l1 log_boot sb0 root_table [] Hinv1 Hp1) as (s2 & l2 & E2 & _). rewrite Hd1 in E2. fold sb in E2.
  apply bind_panic. unfold fsinit. rewrite (bind_Ok _ _ _ _ _ E2). kstep. cbn [st f_sb]. by rewrite (proj2 (Z.eqb_neq _ _) Hmg).
Qed.
End boot.
