(* ===== verification/Mkfs.v ===== *)
(** * mkfs/mkfs.c: the file system image

    The image file is a list of blocks.  mkfs runs on the machine that builds the
    system: its files are what [open] and [read] give, and that machine is taken to be
    little-endian, like the image.  [assert], [die] and [exit(1)] end in [Panic]; the
    messages on the standard output are left out. *)

From S2P Require Import Prelude Param CString FsDisk Fs.

Definition NINODES : Z := 200.
Definition nbitmap : Z := FSSIZE / BPB + 1.
Definition ninodeblocks : Z := NINODES / IPB + 1.
Definition nlog : Z := LOGSIZE.
Definition nmeta : Z := 2 + nlog + ninodeblocks + nbitmap.
Definition nblocks : Z := FSSIZE - nmeta.

(** The bytes of a number in the order of the image, read back as a number. *)
Definition xshort (x : Z) : Z := le_val [u8 x; u8 (Z.shiftr x 8)].
Definition xint (x : Z) : Z := le_val [u8 x; u8 (Z.shiftr x 8); u8 (Z.shiftr x 16); u8 (Z.shiftr x 24)].

(** The global [sb], which [main] sets first. *)
Definition sb : superblock :=
  Superblock FSMAGIC (xint FSSIZE) (xint nblocks) (xint NINODES) (xint nlog) (xint 2) (xint (2 + nlog)) (xint (2 + nlog + ninodeblocks)).
Definition sb_bytes (x : superblock) : list Z :=
  concat (le_bytes 4 <$> [sb_magic x; sb_size x; sb_nblocks x; sb_ninodes x; sb_nlog x; sb_logstart x; sb_inodestart x; sb_bmapstart x]).

Record mkfs := Mk { img : list block; freeinode : Z; freeblock : Z }.
Definition set_img (l : list block) (m : mkfs) : mkfs := Mk l (freeinode m) (freeblock m).

(** The block at the byte offset [sec * BSIZE], a [uint]. *)
Definition sector (sec : Z) : nat := Z.to_nat (u32 (sec * BSIZE) / BSIZE).

(** A write past the end fills the gap with zeros. *)
Definition put_block (i : nat) (d : block) (l : list block) : list block :=
  if (i <? length l)%nat then <[i := d]> l else l ++ replicate (i - length l) zero_block ++ [d].

Definition wsect (sec : Z) (buf : block) : M mkfs unit :=
  modify (λ m, set_img (put_block (sector sec) buf (img m)) m).

Definition rsect (sec : Z) : M mkfs block :=
  let! m := get in
  match img m !! sector sec with
  | Some d => ret d
  | None => panic "read"
  end.

(** [struct dinode] as its 64 bytes: [size] is at 8, [addrs] at 12. *)
Definition winode (inum : Z) (ip : list Z) : M mkfs unit :=
  let bn := IBLOCK inum sb in
  let! buf := rsect bn in
  wsect bn (splice (dinode_off inum) ip buf).

Definition rinode (inum : Z) : M mkfs (list Z) :=
  let bn := IBLOCK inum sb in
  let! buf := rsect bn in
  ret (slice (dinode_off inum) DINODE_SIZE buf).

Definition ialloc (type : Z) : M mkfs Z :=
  let! inum := gets freeinode in
  modify (λ m, Mk (img m) (u32 (freeinode m + 1)) (freeblock m)) ;;;
  let din := replicate DINODE_SIZE 0 in
  let din := setf 2 0 (xshort type) din in
  let din := setf 2 6 (xshort 1) din in
  let din := setf 4 8 (xint 0) din in
  winode inum din ;;;
  ret inum.

Fixpoint mark_loop (k : nat) (i : Z) (buf : block) : block :=
  match k with
  | O => buf
  | S k => mark_loop k (i + 1) (mark_bit i buf)
  end.

Definition balloc (used : Z) : M mkfs unit :=
  panic_if (BPB <=? used) "assert: used < BPB" ;;;
  wsect (sb_bmapstart sb) (mark_loop (Z.to_nat used) 0 zero_block).

(** [freeblock++] *)
Definition next_block : M mkfs Z :=
  let! b := gets freeblock in
  modify (λ m, Mk (img m) (freeinode m) (u32 (freeblock m + 1))) ;;;
  ret b.

Definition din_size (din : list Z) : Z := xint (getf 4 din 8).
Definition set_din_size (off : Z) (din : list Z) : list Z := setf 4 8 (xint off) din.
Definition din_addr (i : nat) (din : list Z) : Z := getf 4 din (12 + 4 * i).
Definition set_din_addr (i : nat) (b : Z) (din : list Z) : list Z := setf 4 (12 + 4 * i) b din.

(** The block for [fbn], which is made when there is none. *)
Definition fbn_block (fbn : Z) (din : list Z) : M mkfs (Z * list Z) :=
  if fbn <? NDIRECT then
    let i := Z.to_nat fbn in
    let! din := (if xint (din_addr i din) =? 0 then let! b := next_block in ret (set_din_addr i (xint b) din) else ret din) in
    ret (xint (din_addr i din), din)
  else
    let i := Z.to_nat NDIRECT in
    let! din := (if xint (din_addr i din) =? 0 then let! b := next_block in ret (set_din_addr i (xint b) din) else ret din) in
    let! indirect := rsect (xint (din_addr i din)) in
    let j := Z.to_nat (fbn - NDIRECT) in
    let! indirect :=
      (if get32 indirect j =? 0 then
         let! b := next_block in
         let indirect := set32 indirect j (xint b) in
         wsect (xint (din_addr i din)) indirect ;;;
         ret indirect
       else ret indirect) in
    ret (xint (get32 indirect j), din).

Fixpoint iappend_loop (fuel : nat) (p : list Z) (off : Z) (din : list Z) : M mkfs (Z * list Z) :=
  match fuel with
  | O => diverge
  | S fuel =>
      let n := Z.of_nat (length p) in
      if 0 <? n then
        let fbn := off / BSIZE in
        panic_if (MAXFILE <=? fbn) "assert: fbn < MAXFILE" ;;;
        let! r := fbn_block fbn din in
        let '(x, din) := r in
        let n1 := Z.to_nat (Z.min n (u32 ((fbn + 1) * BSIZE - off))) in
        let! buf := rsect x in
        wsect x (splice (Z.to_nat (off - fbn * BSIZE)) (take n1 p) buf) ;;;
        iappend_loop fuel (drop n1 p) (u32 (off + Z.of_nat n1)) din
      else ret (off, din)
  end.

Definition iappend (inum : Z) (p : list Z) : M mkfs unit :=
  let! din := rinode inum in
  let off := din_size din in
  let! r := iappend_loop (S (length p)) p off din in
  let '(off, din) := r in
  winode inum (set_din_size off din).

(** [bzero(&de, sizeof(de)); de.inum = xshort(inum); strncpy(de.name, name, DIRSIZ);]
    where the name is not longer than [DIRSIZ]. *)
Definition dirent (inum : Z) (name : list Z) : list Z :=
  mk_dirent (xshort inum) (copy_name (replicate (Z.to_nat DIRSIZ) 0) name).

(** The name in the image: without the leading ["user/"], which the assertion needs to be
    the only slash, and without a leading underscore. *)
Definition shortname (path : list Z) : option (list Z) :=
  let s := if bool_decide (take 5 path = str "user/") then drop 5 path else path in
  if bool_decide (slash ∈ s) then None
  else Some (if bool_decide (head s = Some 95) then tail s else s).

(** [while((cc = read(fd, buf, sizeof(buf))) > 0) iappend(inum, buf, cc);] on the results
    of the [read]s. *)
Fixpoint copy_file (inum : Z) (reads : list (list Z)) : M mkfs unit :=
  match reads with
  | [] => ret tt
  | cc :: reads =>
      if (0 <? length cc)%nat then
        iappend inum cc ;;;
        copy_file inum reads
      else ret tt
  end.

(** One round of the loop over the arguments; [None] is a file that does not open. *)
Definition add_file (rootino : Z) (arg : list Z * option (list (list Z))) : M mkfs unit :=
  let '(path, fd) := arg in
  match shortname path with
  | None => panic "assert: index(shortname, '/') == 0"
  | Some name =>
      match fd with
      | None => panic "die: open"
      | Some reads =>
          panic_if (DIRSIZ <? Z.of_nat (length name)) "Error: Filename is too long" ;;;
          let! inum := ialloc T_FILE in
          iappend rootino (dirent inum name) ;;;
          copy_file inum reads
      end
  end.

Fixpoint add_files (rootino : Z) (args : list (list Z * option (list (list Z)))) : M mkfs unit :=
  match args with
  | [] => ret tt
  | a :: args => add_file rootino a ;;; add_files rootino args
  end.

(** [for(i = 0; i < FSSIZE; i++) wsect(i, zeroes);] *)
Fixpoint zero_loop (k : nat) (i : Z) : M mkfs unit :=
  match k with
  | O => ret tt
  | S k => wsect i zero_block ;;; zero_loop k (i + 1)
  end.

Definition fix_root (rootino : Z) : M mkfs unit :=
  let! din := rinode rootino in
  let off := din_size din in
  let off := u32 ((off / BSIZE + 1) * BSIZE) in
  winode rootino (set_din_size off din).

Definition main (args : list (list Z * option (list (list Z)))) : M mkfs unit :=
  modify (λ m, Mk (img m) (freeinode m) nmeta) ;;;
  zero_loop (Z.to_nat FSSIZE) 0 ;;;
  wsect 1 (splice 0 (sb_bytes sb) zero_block) ;;;
  let! rootino := ialloc T_DIR in
  panic_if (negb (rootino =? ROOTINO)) "assert: rootino == ROOTINO" ;;;
  iappend rootino (dirent rootino (str ".")) ;;;
  iappend rootino (dirent rootino (str "..")) ;;;
  add_files rootino args ;;;
  fix_root rootino ;;;
  let! used := gets freeblock in
  balloc used.

(** The image that [mkfs] builds from its arguments. *)
Definition mkfs_image (args : list (list Z * option (list (list Z)))) : outcome mkfs unit :=
  main args (Thread [] (Mk [] 1 0)).
