(* ===== verification/MkfsSpec.v ===== *)
(** * mkfs builds a file system

    The image in the making holds one file per inode handed out: its type and its bytes.
    Each operation of mkfs.c is an operation on this list of files; at the end the image
    is one that the theorems about fs.c apply to. *)

From S2P Require Import Prelude Param CString FsDisk BlockLayer Fs FsBlocks FsInode FsFile FsDir Mkfs.

(** ** Sectors *)

Definition view (m : mkfs) (b : Z) : block := if b <? 0 then zero_block else default zero_block (img m !! Z.to_nat b).

(** Every bit of the free map set: what the free map is taken to be until [balloc]
    writes it at the end.  Nothing reads it before. *)
Definition map_full : block := replicate 1024 255.
Definition BMAP : Z := 45.

Lemma sb_eq : sb = Superblock FSMAGIC 2000 1954 200 30 2 32 45.
Proof. reflexivity. Qed.

(** The image [m] holds the blocks [v]. *)
Record holds (m : mkfs) (v : Z → block) : Prop := {
  hd_len : length (img m) = 2000%nat;
  hd_view : ∀ b, b ≠ BMAP → view m b = v b;
  hd_map : v BMAP = map_full;
  hd_ok : ∀ b, block_ok (v b) }.

Lemma sector_eq b : 0 <= b < 2000 → sector b = Z.to_nat b.
Proof.
  intros Hb. unfold sector. change BSIZE with 1024. rewrite u32_small by lia. by rewrite Z.div_mul.
Qed.

Lemma rsect_run m v h b : holds m v → 0 <= b < 2000 → b ≠ BMAP → rsect b (Thread h m) = Ok (v b) (Thread h m).
Proof.
  intros [Hl Hv _ _] Hb Hm. unfold rsect. kstep. cbn [st]. rewrite sector_eq by done. pose proof (Hv b Hm) as E. unfold view in E.
  rewrite (proj2 (Z.ltb_ge b 0)) in E by lia. destruct (lookup_lt_is_Some_2 (img m) (Z.to_nat b)) as [d Hd]; [lia|]. rewrite Hd in *. by rewrite <- E.
Qed.

Lemma view_put m b d c : length (img m) = 2000%nat → 0 <= b < 2000 →
  view (set_img (put_block (sector b) d (img m)) m) c = fupdz (view m) b d c.
Proof.
  intros Hl Hb. unfold view, put_block, fupdz. rewrite sector_eq by done. cbn [img set_img].
  rewrite (proj2 (Nat.ltb_lt _ _)) by lia. destruct (Z.ltb_spec c 0); [by rewrite (proj2 (Z.eqb_neq c b)) by lia|].
  destruct (Z.eqb_spec c b) as [->|Hne]; [by rewrite list_lookup_insert_eq by lia|by rewrite list_lookup_insert_ne by lia].
Qed.

Lemma length_put i d l : (i < length l)%nat → length (put_block i d l) = length l.
Proof. intros Hi. unfold put_block. rewrite (proj2 (Nat.ltb_lt _ _)) by done. by rewrite length_insert. Qed.

Lemma wsect_run m v h b d : holds m v → 0 <= b < 2000 → b ≠ BMAP → block_ok d →
  ∃ l, wsect b d (Thread h m) = Ok tt (Thread h (set_img l m)) ∧ holds (set_img l m) (fupdz v b d).
Proof.
  intros [Hl Hv Hm Hok] Hb Hbm Hd. eexists. split; [reflexivity|]. cbn [st held]. split.
  - cbn [img set_img]. rewrite length_put; [done|]. rewrite sector_eq by done. lia.
  - intros c Hc. rewrite view_put by done. unfold fupdz. destruct (c =? b); [done|]. by apply Hv.
  - by rewrite fupdz_ne.
  - intros c. unfold fupdz. destruct (c =? b); [done|apply Hok].
Qed.

(** ** Inodes as 64 bytes *)

Lemma xint_id x : 0 <= x < 2 ^ 32 → xint x = x.
Proof.
  intros Hx. assert (xint x = le_val (le_bytes 4 x)) as ->.
  { unfold xint, le_bytes, u8. rewrite !Z.shiftr_div_pow2, !Z.div_div by lia. reflexivity. }
  rewrite le_val_bytes. by apply Z.mod_small.
Qed.

Lemma xshort_id x : 0 <= x < 2 ^ 16 → xshort x = x.
Proof.
  intros Hx. assert (xshort x = le_val (le_bytes 2 x)) as -> by (unfold xshort; by rewrite Z.shiftr_div_pow2 by lia).
  rewrite le_val_bytes. by apply Z.mod_small.
Qed.

(** [din] is the inode [x] on the disk. *)
Record din_rep (din : list Z) (x : inode) : Prop := {
  dr_len : length din = 64%nat;
  dr_byte : Forall is_byte din;
  dr_ino : get_dinode din 0 = to_dinode x }.

Lemma getf_slice n d off o : (o + n <= 64)%nat → getf n (slice off 64 d) o = getf n d (off + o).
Proof.
  intros Ho. unfold getf, slice. rewrite skipn_firstn_comm, take_take, drop_drop. by replace (n `min` (64 - o))%nat with n by lia.
Qed.

Lemma get_dinode_ext d d' off off' : (∀ n o, (o + n <= 64)%nat → getf n d (off + o) = getf n d' (off' + o)) →
  get_dinode d off = get_dinode d' off'.
Proof.
  intros H. pose proof (H 2%nat 0%nat ltac:(lia)) as H0. rewrite !Nat.add_0_r in H0.
  unfold get_dinode. rewrite H0, !H by lia. f_equal. unfold get_addrs. apply list_fmap_ext.
  intros i k Hk. apply lookup_seq in Hk as [-> Hk]. change NADDRS with 11%nat in Hk. rewrite <- !Nat.add_assoc. apply H. lia.
Qed.

Lemma get_dinode_slice d off : get_dinode (slice off 64 d) 0 = get_dinode d off.
Proof. apply get_dinode_ext. intros n o Ho. by rewrite getf_slice. Qed.

Lemma setf_len n off w (din : list Z) : length din = 64%nat → (off + n <= 64)%nat → length (setf n off w din) = 64%nat.
Proof. intros Hl Ho. by rewrite length_setf by lia. Qed.

Lemma setf_bytes n off w (din : list Z) : Forall is_byte din → Forall is_byte (setf n off w din).
Proof. intros Hb. apply splice_Forall; [apply le_bytes_is_byte|done]. Qed.

Lemma din_addr_eq din x i : din_rep din x → (i < 11)%nat → din_addr i din = default 0 (i_addrs x !! i) ∧ 0 <= din_addr i din < 2 ^ 32.
Proof.
  intros [Hl Hb E] Hi. split; [|apply (getf_range din 4); [done|lia]]. pose proof (f_equal d_addrs E) as Ea. cbn [get_dinode to_dinode d_addrs] in Ea.
  rewrite <- Ea. unfold get_addrs. rewrite list_lookup_fmap, lookup_seq_lt by (change NADDRS with 11%nat; lia). done.
Qed.

Lemma din_size_eq din x : din_rep din x → din_size din = i_size x ∧ 0 <= i_size x < 2 ^ 32.
Proof.
  intros [Hl Hb E]. pose proof (f_equal d_size E) as Es. cbn [get_dinode to_dinode d_size Nat.add] in Es.
  pose proof (getf_range din 4 8 Hb ltac:(lia)) as Hr. unfold din_size. rewrite xint_id by done. rewrite <- Es. done.
Qed.

Lemma set_addr_rep din x i b : din_rep din x → (i < 11)%nat → 0 <= b < 2 ^ 32 → din_rep (set_din_addr i b din) (with_addr i b x).
Proof.
  intros D Hi Hb. pose proof D as [Hl Hby E]. unfold set_din_addr. split; [by apply setf_len; [|lia]|by apply setf_bytes|].
  unfold to_dinode in *. cbn [with_addr i_type i_major i_minor i_nlink i_size i_addrs]. injection E as E1 E2 E3 E4 E5 E6. cbn [Nat.add] in *.
  unfold get_dinode. cbn [Nat.add]. rewrite !getf_setf_ne by lia. f_equal; try assumption.
  rewrite <- E6. unfold get_addrs. cbn [Nat.add]. apply list_eq. intros j. rewrite list_lookup_fmap. destruct (decide (j < 11)%nat) as [Hj|Hj].
  - rewrite lookup_seq_lt by (change NADDRS with 11%nat; lia). cbn [fmap option_fmap option_map Nat.add]. destruct (decide (j = i)) as [->|Hne].
    + rewrite list_lookup_insert_eq by (rewrite length_fmap, length_seq; change NADDRS with 11%nat; lia).
      rewrite getf_setf by lia. f_equal. by apply Z.mod_small.
    + rewrite list_lookup_insert_ne, list_lookup_fmap, lookup_seq_lt by (done || (change NADDRS with 11%nat; lia)).
      cbn [fmap option_fmap option_map Nat.add]. rewrite getf_setf_ne by lia. done.
  - rewrite lookup_seq_ge, lookup_ge_None_2; [done| |]; rewrite ?length_insert, ?length_fmap, ?length_seq; change NADDRS with 11%nat; lia.
Qed.

Lemma set_size_rep din x n : din_rep din x → 0 <= n < 2 ^ 32 → din_rep (set_din_size n din) (Fs.with_size n x).
Proof.
  intros D Hn. pose proof D as [Hl Hby E]. unfold set_din_size. rewrite xint_id by done. split; [by apply setf_len; [|lia]|by apply setf_bytes|].
  unfold to_dinode in *. cbn [Fs.with_size i_type i_major i_minor i_nlink i_size i_addrs]. injection E as E1 E2 E3 E4 E5 E6. cbn [Nat.add] in *.
  unfold get_dinode. cbn [Nat.add]. rewrite !getf_setf_ne by lia. rewrite getf_setf by lia. f_equal; try assumption; [by apply Z.mod_small|].
  rewrite <- E6. unfold get_addrs. apply list_fmap_ext. intros j k Hk. apply lookup_seq in Hk as [-> Hk]. change NADDRS with 11%nat in Hk.
  cbn [Nat.add]. apply getf_setf_ne; lia.
Qed.

(** ** Files in the making *)

Definition tx_any : txinfo := TxInfo (λ _, True) 29 2 30 0 (λ _, zero_block) [].

Lemma map_block_eq b : map_block sb b ↔ b = BMAP.
Proof.
  unfold map_block. rewrite sb_eq. cbn [sb_size sb_bmapstart]. change BPB with 8192. unfold BMAP. split.
  - intros (c & Hc & ->). rewrite Z.div_small; lia.
  - intros ->. exists 0. split; [lia|done].
Qed.

Lemma IBLOCK_sb j : 0 <= j < 2 ^ 31 → IBLOCK j sb = j / 16 + 32.
Proof.
  intros Hj. unfold IBLOCK. rewrite sb_eq. cbn [sb_inodestart]. change IPB with 16. apply u32_small.
  assert (0 <= j / 16 <= j) by (split; [apply Z.div_pos; lia|apply Z.div_le_upper_bound; lia]). lia.
Qed.

Lemma IBLOCK_range j : 0 <= j < 200 → 32 <= IBLOCK j sb < 45.
Proof.
  intros Hj. rewrite IBLOCK_sb by lia. assert (0 <= j / 16 < 13); [|lia]. split; [apply Z.div_pos; lia|apply Z.div_lt_upper_bound; lia].
Qed.

Lemma map_full_used v b : v BMAP = map_full → 0 <= b < 2000 → used v sb b = true.
Proof.
  intros Hv Hb. unfold used. rewrite sb_eq. cbn [sb_bmapstart]. change BPB with 8192. rewrite Z.div_small, Z.mod_small by lia.
  change (0 + 45) with BMAP. rewrite Hv, bit_set_testbit by lia. assert (b / 8 < 250) by (apply Z.div_lt_upper_bound; lia).
  assert (default 0 (map_full !! Z.to_nat (b / 8)) = 255) as ->.
  { change (default 0 ((replicate 1024 255 : list Z) !! Z.to_nat (b / 8)) = 255). by rewrite lookup_replicate_2 by lia. }
  pose proof (Z.mod_pos_bound b 8 ltac:(done)). change 255 with (Z.ones 8). apply Z.ones_spec_low. lia.
Qed.

Lemma data_block_any v b : v BMAP = map_full → 46 <= b < 2000 → data_block tx_any sb v [] b.
Proof.
  intros Hv Hb. split.
  - rewrite sb_eq. cbn [sb_size]. lia.
  - apply map_full_used; [done|lia].
  - done.
  - apply not_elem_of_nil.
  - rewrite map_block_eq. unfold BMAP. lia.
  - rewrite sb_eq. cbn [sb_ninodes]. intros j Hj. pose proof (IBLOCK_range j Hj) as Hr. rewrite sb_eq in Hr. lia.
Qed.

(** The file [x] has the bytes [c], and zeros after them, in blocks below [top]. *)
Record file_at (v : Z → block) (top : Z) (x : inode) (c : list Z) : Prop := {
  fa_ok : file_ok tx_any sb v [] x;
  fa_own : ∀ b, owns v x b → 46 <= b < top;
  fa_max : Z.of_nat (length c) <= MAXFILE * BSIZE;
  fa_full : ∀ k, 0 <= k < MAXFILE → blockno v x k ≠ 0 ↔ k * BSIZE < Z.of_nat (length c);
  fa_ind : ind_of x ≠ 0 ↔ NDIRECT * BSIZE < Z.of_nat (length c);
  fa_byte : ∀ o, 0 <= o < MAXFILE * BSIZE → fbyte v x o = default 0 (c !! Z.to_nat o) }.

(** The blocks a file of [n] bytes has. *)
Definition blocks (n : Z) : Z := (n + 1023) / 1024 + (if NDIRECT * BSIZE <? n then 1 else 0).

(** [fbn_block] has made the block of byte [off]. *)
Record fbn_done (fb : Z) (off : Z) (m : mkfs) (v : Z → block) (x : inode) (m' : mkfs) (v' : Z → block) (din' : list Z) (x' : inode) : Prop := {
  fd_holds : holds m' v';
  fd_ino : freeinode m' = freeinode m;
  fd_free : freeblock m' = fb + blocks (off + 1) - blocks off;
  fd_din : din_rep din' x';
  fd_attr : same_attr x x';
  fd_ok : file_ok tx_any sb v' [] x';
  fd_blk : ∀ j, 0 <= j < MAXFILE → blockno v' x' j ≠ 0 ↔ blockno v x j ≠ 0 ∨ j = off / BSIZE;
  fd_ind : ind_of x' ≠ 0 ↔ ind_of x ≠ 0 ∨ NDIRECT <= off / BSIZE;
  fd_own : ∀ c, owns v' x' c → owns v x c ∨ fb <= c < freeblock m';
  fd_byte : ∀ o, 0 <= o < MAXFILE * BSIZE → fbyte v' x' o = fbyte v x o;
  fd_keep : ∀ b, ¬ owns v x b → b < fb → v' b = v b;
  fd_zero : ∀ b, freeblock m' <= b → v' b = zero_block }.

Lemma holds_img m m' v : img m' = img m → holds m v → holds m' v.
Proof. intros E [Hl Hv Hm Hok]. split; [by rewrite E| |done|done]. intros b Hb. unfold view. rewrite E. by apply Hv. Qed.

Lemma next_block_run m h : 0 <= freeblock m < 2000 →
  next_block (Thread h m) = Ok (freeblock m) (Thread h (Mk (img m) (freeinode m) (freeblock m + 1))).
Proof. intros Hb. unfold next_block. repeat kstep. cbn [st held]. by rewrite u32_small by lia. Qed.

Lemma blocks_next off : 0 <= off →
  blocks (off + 1) - blocks off = (if off mod 1024 =? 0 then 1 else 0) + (if off =? NDIRECT * BSIZE then 1 else 0).
Proof.
  intros Ho. unfold blocks. change (NDIRECT * BSIZE) with 10240. pose proof (Z.div_mod off 1024 ltac:(done)). pose proof (Z.mod_pos_bound off 1024 ltac:(done)).
  assert ((off + 1023) / 1024 = off / 1024 + (if off mod 1024 =? 0 then 0 else 1)) as ->.
  { symmetry. destruct (Z.eqb_spec (off mod 1024) 0).
    - apply (Z.div_unique _ _ _ 1023); lia.
    - apply (Z.div_unique _ _ _ (off mod 1024 - 1)); lia. }
  assert ((off + 1 + 1023) / 1024 = off / 1024 + 1) as -> by (symmetry; apply (Z.div_unique _ _ _ (off mod 1024)); lia).
  destruct (Z.eqb_spec (off mod 1024) 0), (Z.eqb_spec off 10240), (Z.ltb_spec 10240 (off + 1)), (Z.ltb_spec 10240 off); lia.
Qed.

(** [fbn_block] once there is an indirect block. *)
Definition entry_block (fbn : Z) (din : list Z) : M mkfs (Z * list Z) :=
  let i := Z.to_nat NDIRECT in
  let! indirect := rsect (xint (din_addr i din)) in
  let j := Z.to_nat (fbn - NDIRECT) in
  let! indirect :=
    (if get32 indirect j =? 0 then
       let! b := next_block in
       let indirect := set32 indirect j (xint b) in
       wsect (xint (din_addr i din)) indirect ;;;
       ret indirect
     else ret indirect) in
  ret (xint (get32 indirect j), din).

Lemma entry_run m v h x din k :
  holds m v → file_ok tx_any sb v [] x → din_rep din x → 46 <= ind_of x < 2000 → NDIRECT <= k < MAXFILE → blockno v x k = 0 →
  46 <= freeblock m < 2000 → v (freeblock m) = zero_block → ¬ owns v x (freeblock m) →
  let v' := fupdz v (ind_of x) (set32 (v (ind_of x)) (Z.to_nat (k - NDIRECT)) (freeblock m)) in
  ∃ m', entry_block k din (Thread h m) = Ok (freeblock m, din) (Thread h m') ∧ holds m' v' ∧
    freeinode m' = freeinode m ∧ freeblock m' = freeblock m + 1 ∧ file_ok tx_any sb v' [] x ∧
    (∀ j, 0 <= j < MAXFILE → blockno v' x j = if j =? k then freeblock m else blockno v x j) ∧
    (∀ o, 0 <= o < MAXFILE * BSIZE → fbyte v' x o = fbyte v x o) ∧ (∀ c, owns v' x c → owns v x c ∨ c = freeblock m).
Proof.
  intros Hh Hf Hd Hi Hk Hk0 Hb Hbz Hno v'. assert (ind_of x ≠ 0) as Hi0 by lia. assert (ind_of x ≠ BMAP) as Hib by (unfold BMAP; lia).
  assert (xint (din_addr (Z.to_nat NDIRECT) din) = ind_of x) as Ei.
  { destruct (din_addr_eq din x 10 Hd ltac:(lia)) as [E Hr]. change (Z.to_nat NDIRECT) with 10%nat. by rewrite xint_id. }
  assert (4 * Z.to_nat (k - NDIRECT) + 4 <= Z.to_nat BSIZE)%nat as Hj.
  { change (Z.to_nat BSIZE) with 1024%nat. change MAXFILE with 266 in *. change NDIRECT with 10 in *. lia. }
  pose proof (blockno_ge v x k (proj1 Hk) Hi0) as E0. rewrite Hk0 in E0.
  assert (block_ok (set32 (v (ind_of x)) (Z.to_nat (k - NDIRECT)) (freeblock m))) as Hbo by (apply set32_ok; [done|apply Hh]).
  destruct (wsect_run (Mk (img m) (freeinode m) (freeblock m + 1)) v h (ind_of x) _ (holds_img m (Mk (img m) (freeinode m) (freeblock m + 1)) v eq_refl Hh) ltac:(lia) Hib Hbo) as (l & Ew & Hh').
  assert (∀ j, 0 <= j < MAXFILE → blockno v' x j = if j =? k then freeblock m else blockno v x j) as Hbn.
  { intros j Hjr. apply blockno_indirect; [done|apply Hh|done|done|lia]. }
  destruct (assign_block tx_any sb v v' [] x x k (freeblock m) Hf) as (F1 & F2 & F3); try done.
  { change MAXFILE with 266 in *. change NDIRECT with 10 in *. lia. }
  { apply data_block_any; [apply Hh|lia]. }
  { by destruct Hf. }
  { intros c Hc _. apply map_full_used; [apply Hh'|done]. }
  { intros c Hc. by apply fupdz_ne. }
  eexists. split; [|split; [exact Hh'|done]]. unfold entry_block.
  rewrite Ei, (bind_Ok _ _ _ _ _ (rsect_run m v h (ind_of x) Hh ltac:(lia) Hib)), <- E0, Z.eqb_refl. kstep.
  rewrite (bind_Ok _ _ _ _ _ (next_block_run m h ltac:(lia))), xint_id by lia. kstep. rewrite (bind_Ok _ _ _ _ _ Ew). kstep.
  rewrite get32_set32 by (destruct (hd_ok _ _ Hh (ind_of x)) as [Hl _]; rewrite Hl; exact Hj).
  unfold ret. by rewrite u32_small, xint_id by (rewrite ?u32_small; lia).
Qed.

Section round.
Context (m : mkfs) (v : Z → block) (h : list lockname) (x : inode) (c : list Z) (din : list Z).
Hypothesis Hh : holds m v.
Hypothesis Hfb : 46 <= freeblock m.
Hypothesis Hz : ∀ b, freeblock m <= b → v b = zero_block.
Hypothesis Hx : file_at v (freeblock m) x c.
Hypothesis Hd : din_rep din x.
Abbreviation off := (Z.of_nat (length c)).
Abbreviation k := (off / BSIZE).
Hypothesis Hoff : off < MAXFILE * BSIZE.
Hypothesis Hroom : freeblock m + blocks (off + 1) - blocks off <= 2000.

Lemma k_range : 0 <= k < MAXFILE.
Proof. split; [apply Z.div_pos; [lia|done]|]. apply Z.div_lt_upper_bound; [done|lia]. Qed.

Lemma k_fresh : blockno v x k = 0 ↔ off mod 1024 = 0.
Proof.
  pose proof (fa_full _ _ _ _ Hx k k_range) as Hf. change BSIZE with 1024 in *.
  pose proof (Z.div_mod off 1024 ltac:(done)). pose proof (Z.mod_pos_bound off 1024 ltac:(done)).
  destruct (decide (blockno v x (off / 1024) = 0)) as [E|E]; [|pose proof (proj1 Hf E); split; intros; lia].
  split; [|done]. intros _. destruct (decide (off mod 1024 = 0)); [done|]. exfalso. apply (proj2 Hf); [lia|done].
Qed.

Lemma ind_sector : ind_of x ≠ 0 → 46 <= ind_of x < freeblock m.
Proof. intros Hi. apply (fa_own _ _ _ _ Hx). by apply owns_ind. Qed.

Lemma not_owned b : freeblock m <= b → ¬ owns v x b.
Proof. intros Hb Ho. pose proof (fa_own _ _ _ _ Hx b Ho). lia. Qed.

Lemma addr_x i : (i < 11)%nat → xint (din_addr i din) = default 0 (i_addrs x !! i).
Proof. intros Hi. destruct (din_addr_eq din x i Hd Hi) as [E Hr]. by rewrite xint_id by done. Qed.

Lemma ind_x : xint (din_addr (Z.to_nat NDIRECT) din) = ind_of x.
Proof. apply addr_x. vm_compute. lia. Qed.

Lemma room : freeblock m + (if off mod 1024 =? 0 then 1 else 0) + (if off =? 10240 then 1 else 0) <= 2000.
Proof. pose proof (blocks_next off ltac:(lia)) as Hb. change (NDIRECT * BSIZE) with 10240 in Hb. lia. Qed.

Lemma read_ind : ind_of x ≠ 0 → rsect (ind_of x) (Thread h m) = Ok (v (ind_of x)) (Thread h m).
Proof.
  intros Hi. pose proof (ind_sector Hi). pose proof room. apply rsect_run; [done| |unfold BMAP; lia].
  destruct (_ mod _ =? 0), (off =? _); lia.
Qed.

(** The block is there. *)
Lemma fbn_hit : blockno v x k ≠ 0 →
  fbn_block k din (Thread h m) = Ok (blockno v x k, din) (Thread h m) ∧ fbn_done (freeblock m) off m v x m v din x.
Proof.
  intros Hk. pose proof k_range as Hkr. split.
  - unfold fbn_block. destruct (Z.ltb_spec k NDIRECT) as [Hlt|Hge].
    + rewrite addr_x by (change NDIRECT with 10 in Hlt; lia). rewrite <- (blockno_lt v x k Hlt), (proj2 (Z.eqb_neq _ 0) Hk). kstep.
      rewrite addr_x by (change NDIRECT with 10 in Hlt; lia). by rewrite <- (blockno_lt v x k Hlt).
    + assert (ind_of x ≠ 0) as Hi by (intros E; apply Hk; unfold blockno; by rewrite (proj2 (Z.ltb_ge k NDIRECT)), E by done).
      rewrite (blockno_ge v x k Hge Hi) in *. rewrite ind_x, (proj2 (Z.eqb_neq _ 0) Hi). kstep.
      rewrite ind_x, (bind_Ok _ _ _ _ _ (read_ind Hi)), (proj2 (Z.eqb_neq _ 0) Hk). kstep.
      rewrite xint_id; [done|]. destruct (hd_ok _ _ Hh (ind_of x)) as [Hl Hby]. apply (getf_range _ 4); [done|].
      rewrite Hl. change (Z.to_nat BSIZE) with 1024%nat. change MAXFILE with 266 in *. change NDIRECT with 10 in *. lia.
  - pose proof (blocks_next off ltac:(lia)) as Hb. pose proof (fa_full _ _ _ _ Hx k Hkr) as Hf. pose proof (fa_ind _ _ _ _ Hx) as Hi.
    assert (off mod 1024 ≠ 0) as Hmod by (rewrite <- k_fresh; done). rewrite (proj2 (Z.eqb_neq _ 0) Hmod) in Hb.
    assert (off ≠ 10240) as Hne by (intros E; apply Hmod; by rewrite E). change (NDIRECT * BSIZE) with 10240 in *. rewrite (proj2 (Z.eqb_neq _ _) Hne) in Hb.
    split; try done; try lia.
    + apply same_attr_refl.
    + apply Hx.
    + intros j Hj. split; [by left|]. intros [?| ->]; done.
    + split; [by left|]. intros [?|Hge]; [done|]. apply Hi. pose proof (Z.mul_div_le off BSIZE ltac:(done)). change BSIZE with 1024 in *. change NDIRECT with 10 in *. lia.
    + intros b Hb'. by left.
Qed.

Lemma fresh_data : freeblock m < 2000 → data_block tx_any sb v [] (freeblock m).
Proof. intros Hb. apply data_block_any; [apply Hh|lia]. Qed.

(** The block is a new one, behind an address of the inode. *)
Lemma fbn_direct : blockno v x k = 0 → k < NDIRECT →
  let fb := freeblock m in
  let m' := Mk (img m) (freeinode m) (fb + 1) in
  let x' := with_addr (Z.to_nat k) fb x in
  let din' := set_din_addr (Z.to_nat k) (xint fb) din in
  fbn_block k din (Thread h m) = Ok (blockno v x' k, din') (Thread h m') ∧ fbn_done fb off m v x m' v din' x'.
Proof.
  intros Hk Hlt fb m' x' din'. pose proof k_range as Hkr. pose proof (proj1 k_fresh Hk) as Hmod. pose proof room as Hr.
  rewrite Hmod, Z.eqb_refl in Hr. fold fb in Hr.
  assert (off ≠ 10240) as Hne by (intros E; rewrite E in Hlt; done). rewrite (proj2 (Z.eqb_neq _ _) Hne) in Hr.
  pose proof (fo_len _ _ _ _ _ (fa_ok _ _ _ _ Hx)) as Hl. assert (Z.to_nat k < 11)%nat as H11 by (change NDIRECT with 10 in Hlt; lia).
  assert (din_rep din' x') as Hd' by (subst din' x'; rewrite xint_id by lia; apply set_addr_rep; [done|done|lia]).
  destruct (assign_block tx_any sb v v [] x x' k fb (fa_ok _ _ _ _ Hx) Hkr Hk) as (F1 & F2 & F3); try done.
  { apply fresh_data. lia. }
  { apply not_owned. lia. }
  { apply Hz. lia. }
  { subst x'. cbn [with_addr i_addrs]. by rewrite length_insert. }
  { apply ind_of_direct; [done|lia]. }
  { intros j Hj. apply blockno_direct; [done|lia|lia]. }
  assert (∀ j, 0 <= j → blockno v x' j = if j =? k then fb else blockno v x j) as Hb by (intros j Hj; apply blockno_direct; [done|lia|lia]).
  split.
  - unfold fbn_block. rewrite (proj2 (Z.ltb_lt k NDIRECT)), addr_x by done. rewrite <- (blockno_lt v x k Hlt), Hk, Z.eqb_refl.
    rewrite bind_assoc, (bind_Ok _ _ _ _ _ (next_block_run m h ltac:(lia))). kstep. unfold ret. fold fb din' m'. do 2 f_equal.
    destruct (din_addr_eq din' x' _ Hd' H11) as [E Hrange]. rewrite xint_id, E by done. by rewrite (blockno_lt v x' k Hlt).
  - pose proof (blocks_next off ltac:(lia)) as Hbl. change (NDIRECT * BSIZE) with 10240 in Hbl. rewrite Hmod, Z.eqb_refl, (proj2 (Z.eqb_neq _ _) Hne) in Hbl.
    split; try done; cbn [m' freeblock]; try lia.
    + by apply (holds_img m).
    + intros j Hj. rewrite Hb by lia. destruct (Z.eqb_spec j k) as [->|Hjk]; [|split; [by left|by intros [?|?]]]. split; [by right|intros _; lia].
    + assert (ind_of x' = ind_of x) as -> by (apply ind_of_direct; [done|lia]). split; [by left|]. intros [?|?]; [done|lia].
    + intros b Hb'. destruct (F3 b Hb') as [?| ->]; [by left|right; lia].
    + intros b Hb'. apply Hz. lia.
Qed.

(** The block is a new one, behind the indirect block, which may be new too. *)
Lemma fbn_indirect : blockno v x k = 0 → NDIRECT <= k →
  ∃ m' v' x' din', fbn_block k din (Thread h m) = Ok (blockno v' x' k, din') (Thread h m') ∧ fbn_done (freeblock m) off m v x m' v' din' x'.
Proof.
  intros Hk Hge. pose proof k_range as Hkr. pose proof (proj1 k_fresh Hk) as Hmod. pose proof room as Hr.
  rewrite Hmod, Z.eqb_refl in Hr. pose proof (blocks_next off ltac:(lia)) as Hbl. change (NDIRECT * BSIZE) with 10240 in Hbl. rewrite Hmod, Z.eqb_refl in Hbl.
  pose proof (fo_len _ _ _ _ _ (fa_ok _ _ _ _ Hx)) as Hl. pose proof (fa_ind _ _ _ _ Hx) as Hi. change (NDIRECT * BSIZE) with 10240 in Hi.
  pose proof (Z.div_mod off 1024 ltac:(done)) as Hdm. unfold fbn_block. rewrite (proj2 (Z.ltb_ge k NDIRECT)), ind_x by done.
  destruct (Z.eqb_spec (ind_of x) 0) as [Hi0|Hi0].
  - assert (off = 10240) as Eoff by (change NDIRECT with 10 in *; change BSIZE with 1024 in *; lia). rewrite Eoff, Z.eqb_refl in Hr, Hbl.
    assert (freeblock m < 2000) as Hlt by lia.
    rewrite bind_assoc, (bind_Ok _ _ _ _ _ (next_block_run m h ltac:(lia))). rewrite xint_id by lia. kstep.
    set (x1 := with_addr (Z.to_nat NDIRECT) (freeblock m) x). set (din1 := set_din_addr _ _ _). set (m1 := Mk _ _ _).
    assert (din_rep din1 x1) as Hd1 by (apply set_addr_rep; [done|vm_compute; lia|lia]).
    destruct (assign_ind tx_any sb v [] x (freeblock m) (fa_ok _ _ _ _ Hx) Hi0 (fresh_data Hlt) (not_owned _ (Z.le_refl _)) (Hz _ (Z.le_refl _))) as (F1 & F2 & F3 & F4).
    fold x1 in F1, F2, F3, F4. assert (ind_of x1 = freeblock m) as Ei by (by apply ind_of_set).
    destruct (entry_run m1 v h x1 din1 k (holds_img m m1 v eq_refl Hh) F1 Hd1) as (m2 & E2 & H2 & I2 & B2 & O2 & K2 & Y2 & W2);
      [rewrite Ei; lia|split; [done|apply Hkr]|by rewrite F2|cbn [m1 freeblock]; lia|apply Hz; cbn [m1 freeblock]; lia| |].
    { intros Ho. destruct (F4 _ Ho) as [Ho'|E]; [|cbn [m1 freeblock] in E; lia]. revert Ho'. apply not_owned. cbn [m1 freeblock]. lia. }
    unfold entry_block in E2. exists m2, (fupdz v (ind_of x1) (set32 (v (ind_of x1)) (Z.to_nat (k - NDIRECT)) (freeblock m1))), x1, din1.
    rewrite E2, K2, Z.eqb_refl by done. split; [done|]. cbn [m1 freeblock freeinode] in *. split; try done; try lia.
    + rewrite Eoff. lia.
    + intros j Hj. rewrite K2, F2 by done. destruct (Z.eqb_spec j k) as [->|Hjk]; [|split; [by left|by intros [?|?]]]. split; [by right|intros _; lia].
    + intros b Hb. destruct (W2 b Hb) as [Hb1| ->]; [|right; lia]. destruct (F4 b Hb1) as [?| ->]; [by left|right; lia].
    + intros o Ho. by rewrite Y2, F3.
    + intros b Hb Hb2. apply fupdz_ne. lia.
    + intros b Hb. rewrite fupdz_ne by lia. apply Hz. lia.
  - pose proof (ind_sector Hi0) as His. assert (off ≠ 10240) as Hne by (intros E; lia). rewrite (proj2 (Z.eqb_neq _ _) Hne) in Hr, Hbl.
    destruct (entry_run m v h x din k Hh (fa_ok _ _ _ _ Hx) Hd) as (m2 & E2 & H2 & I2 & B2 & O2 & K2 & Y2 & W2);
      [lia|split; [done|apply Hkr]|done|lia|apply Hz; lia|apply not_owned; lia|].
    kstep. unfold entry_block in E2. rewrite ind_x in E2 |- *.
    exists m2, (fupdz v (ind_of x) (set32 (v (ind_of x)) (Z.to_nat (k - NDIRECT)) (freeblock m))), x, din.
    rewrite E2, K2, Z.eqb_refl by done. split; [done|]. split; try done; try lia.
    + apply same_attr_refl.
    + intros j Hj. rewrite K2 by done. destruct (Z.eqb_spec j k) as [->|Hjk]; [|split; [by left|by intros [?|?]]]. split; [by right|intros _; lia].
    + intros b Hb. destruct (W2 b Hb) as [?| ->]; [by left|right; lia].
    + intros b Hb Hb2. apply fupdz_ne. intros ->. apply Hb. by apply owns_ind.
    + intros b Hb. rewrite fupdz_ne by lia. apply Hz. lia.
Qed.

Lemma fbn_run :
  ∃ m' v' x' din', fbn_block k din (Thread h m) = Ok (blockno v' x' k, din') (Thread h m') ∧ fbn_done (freeblock m) off m v x m' v' din' x'.
Proof.
  destruct (decide (blockno v x k = 0)) as [Hk|Hk]; [|do 4 eexists; by apply fbn_hit].
  destruct (Z.lt_ge_cases k NDIRECT) as [Hlt|Hge]; [|by apply fbn_indirect]. do 4 eexists. by apply fbn_direct.
Qed.
End round.

(** ** Appending *)

Lemma blocks_mono a b : 0 <= a <= b → blocks a <= blocks b.
Proof.
  intros Hab. unfold blocks. pose proof (Z.div_le_mono (a + 1023) (b + 1023) 1024 ltac:(done) ltac:(lia)).
  destruct (Z.ltb_spec (NDIRECT * BSIZE) a), (Z.ltb_spec (NDIRECT * BSIZE) b); lia.
Qed.

Lemma blocks_piece off n : 0 <= off → 0 < n → off mod 1024 + n <= 1024 → blocks (off + n) = blocks (off + 1).
Proof.
  intros Ho Hn Hm. unfold blocks. change (NDIRECT * BSIZE) with 10240. pose proof (Z.div_mod off 1024 ltac:(done)). pose proof (Z.mod_pos_bound off 1024 ltac:(done)).
  assert ((off + n + 1023) / 1024 = off / 1024 + 1) as -> by (symmetry; apply (Z.div_unique _ _ _ (off mod 1024 + n - 1)); lia).
  assert ((off + 1 + 1023) / 1024 = off / 1024 + 1) as -> by (symmetry; apply (Z.div_unique _ _ _ (off mod 1024)); lia).
  f_equal. destruct (Z.ltb_spec 10240 (off + n)), (Z.ltb_spec 10240 (off + 1)); lia.
Qed.

(** What appending [p] to the file [x] of [c] does. *)
Record appended (m : mkfs) (v : Z → block) (x : inode) (c p : list Z) (m' : mkfs) (v' : Z → block) (x' : inode) (din' : list Z) : Prop := {
  ap_holds : holds m' v';
  ap_ino : freeinode m' = freeinode m;
  ap_free : freeblock m' = freeblock m + blocks (Z.of_nat (length (c ++ p))) - blocks (Z.of_nat (length c));
  ap_din : din_rep din' x';
  ap_attr : same_attr x x';
  ap_file : file_at v' (freeblock m') x' (c ++ p);
  ap_own : ∀ b, owns v' x' b → owns v x b ∨ freeblock m <= b;
  ap_keep : ∀ b, ¬ owns v x b → b < freeblock m → v' b = v b;
  ap_zero : ∀ b, freeblock m' <= b → v' b = zero_block }.

Lemma appended_nil m v x c din : holds m v → file_at v (freeblock m) x c → din_rep din x → (∀ b, freeblock m <= b → v b = zero_block) →
  appended m v x c [] m v x din.
Proof.
  intros Hh Hx Hd Hz. split; try done.
  - rewrite app_nil_r. lia.
  - apply same_attr_refl.
  - by rewrite app_nil_r.
  - by left.
Qed.

Lemma appended_trans m1 v1 x1 c p1 m2 v2 x2 d2 p2 m3 v3 x3 d3 : freeblock m1 <= freeblock m2 →
  appended m1 v1 x1 c p1 m2 v2 x2 d2 → appended m2 v2 x2 (c ++ p1) p2 m3 v3 x3 d3 → appended m1 v1 x1 c (p1 ++ p2) m3 v3 x3 d3.
Proof.
  intros Hle [H1 I1 B1 D1 A1 F1 O1 K1 Z1] [H2 I2 B2 D2 A2 F2 O2 K2 Z2]. rewrite <- app_assoc in *. split; try done.
  - congruence.
  - lia.
  - by eapply same_attr_trans.
  - intros b Hb. destruct (O2 b Hb) as [Ho|Hge]; [by apply O1|right; lia].
  - intros b Hn Hlt. rewrite K2; [by apply K1| |lia]. intros Ho. destruct (O1 b Ho); [done|lia].
Qed.

(** Storing the piece into its block. *)
Lemma round_write m v h x c p fb m' v' din' x' :
  holds m v → file_at v fb x c → fb = freeblock m → fbn_done fb (Z.of_nat (length c)) m v x m' v' din' x' →
  46 <= freeblock m → Forall is_byte p → (0 < length p)%nat → freeblock m' <= 2000 →
  let off := Z.of_nat (length c) in
  off mod BSIZE + Z.of_nat (length p) <= BSIZE → off < MAXFILE * BSIZE →
  let b := blockno v' x' (off / BSIZE) in
  ∃ l v'', rsect b (Thread h m') = Ok (v' b) (Thread h m') ∧
    wsect b (splice (Z.to_nat (off mod BSIZE)) p (v' b)) (Thread h m') = Ok tt (Thread h (set_img l m')) ∧
    appended m v x c p (set_img l m') v'' x' din'.
Proof.
  intros Hh Hx -> [H1 I1 B1 D1 A1 F1 K1 N1 O1 Y1 P1 Z1] Hfb Hp Hlp Hmax off Hpiece Hoff b.
  assert (0 <= off / BSIZE < MAXFILE) as Hkr by (split; [apply Z.div_pos; [lia|done]|apply Z.div_lt_upper_bound; [done|lia]]).
  pose proof (Z.mod_pos_bound off 1024 ltac:(done)) as Hmod. pose proof (Z.div_mod off 1024 ltac:(done)) as Hdm.
  assert (b ≠ 0) as Hb0 by (apply K1; [done|by right]).
  assert (46 <= b < 2000 ∧ b < freeblock m') as [Hbr Hbf].
  { destruct (O1 b (owns_blockno _ _ _ Hkr Hb0)) as [Ho|?]; [|lia]. pose proof (fa_own _ _ _ _ Hx b Ho).
    pose proof (blocks_mono off (off + 1) ltac:(lia)). fold off in B1. lia. }
  pose proof (hd_ok _ _ H1 b) as [Hbl Hbb]. change (Z.to_nat BSIZE) with 1024%nat in Hbl.
  assert (block_ok (splice (Z.to_nat (off mod BSIZE)) p (v' b))) as Hsp.
  { split; [|by apply splice_Forall]. rewrite length_splice; [exact Hbl|]. change BSIZE with 1024 in *. lia. }
  assert (b ≠ BMAP) as Hbm by (unfold BMAP; lia).
  destruct (wsect_run m' v' h b _ H1 ltac:(lia) Hbm Hsp) as (l & Ew & H2).
  exists l, (fupdz v' b (splice (Z.to_nat (off mod BSIZE)) p (v' b))).
  split; [by apply rsect_run; [|lia|]|]. split; [exact Ew|]. set (v'' := fupdz _ _ _) in *.
  assert (b ≠ ind_of x') as Hbi by (by apply (fo_ind _ _ _ _ _ F1)).
  assert (ind_of x' ≠ 0 → v'' (ind_of x') = v' (ind_of x')) as Hi by (intros _; by apply fupdz_ne).
  assert (Z.of_nat (length (c ++ p)) = off + Z.of_nat (length p)) as Hlen by (rewrite length_app; lia).
  split; try done; cbn [set_img freeblock freeinode].
  - rewrite Hlen, (blocks_piece off) by (done || lia). exact B1.
  - split.
    + eapply file_ok_ext; [|exact Hi|exact F1]. intros d Hd _. apply map_full_used; [apply H2|done].
    + intros d Hd. apply (owns_ext v' v'') in Hd; [|done]. destruct (O1 d Hd) as [Ho|?]; [|lia]. pose proof (fa_own _ _ _ _ Hx d Ho).
      pose proof (blocks_mono off (off + 1) ltac:(lia)). fold off in B1. lia.
    + rewrite Hlen. change (MAXFILE * BSIZE) with 272384 in *. change BSIZE with 1024 in *.
      assert (off / 1024 < 266) by apply Hkr. lia.
    + intros j Hj. rewrite (blockno_ext v' v'' x' j Hi), K1, (fa_full _ _ _ _ Hx) by done. rewrite Hlen. change BSIZE with 1024 in *. fold off. lia.
    + rewrite N1, (fa_ind _ _ _ _ Hx), Hlen. change NDIRECT with 10. change BSIZE with 1024 in *. fold off. lia.
    + intros o Ho. pose proof (fbyte_write _ _ _ _ _ off p o F1 (hd_ok _ _ H1) ltac:(lia) (proj2 Hkr) Hb0 ltac:(lia) Ho) as Ew'.
      cbv zeta in Ew'. fold b in Ew'. fold v'' in Ew'. rewrite Ew'.
      unfold wrote. destruct (decide _) as [Hin|Hout].
      * rewrite lookup_app_r by lia. f_equal. f_equal. lia.
      * rewrite Y1, (fa_byte _ _ _ _ Hx) by done. destruct (decide (o < off)).
        -- by rewrite lookup_app_l by lia.
        -- rewrite !lookup_ge_None_2; [done|rewrite length_app; lia|lia].
  - intros d Hd. apply (owns_ext v' v'') in Hd; [|done]. destruct (O1 d Hd) as [Ho|?]; [by left|right; lia].
  - intros d Hd Hlt. unfold v''. rewrite fupdz_ne; [by apply P1|]. intros ->. destruct (O1 b (owns_blockno _ _ _ Hkr Hb0)); [done|lia].
  - intros d Hd. unfold v''. rewrite fupdz_ne by lia. by apply Z1.
Qed.

Lemma file_bytes_lt (c : list Z) n : Z.of_nat (length c) + n <= MAXFILE * BSIZE → 0 < n → Z.of_nat (length c) / BSIZE < MAXFILE.
Proof. intros Hc Hn. apply Z.div_lt_upper_bound; [done|]. lia. Qed.

Lemma iappend_loop_run h fuel : ∀ m v x c din p,
  (length p < fuel)%nat → holds m v → 46 <= freeblock m → (∀ b, freeblock m <= b → v b = zero_block) →
  file_at v (freeblock m) x c → din_rep din x → Forall is_byte p → Z.of_nat (length (c ++ p)) <= MAXFILE * BSIZE →
  freeblock m + blocks (Z.of_nat (length (c ++ p))) - blocks (Z.of_nat (length c)) <= 2000 →
  ∃ m' v' x' din', iappend_loop fuel p (Z.of_nat (length c)) din (Thread h m) = Ok (Z.of_nat (length (c ++ p)), din') (Thread h m') ∧
    appended m v x c p m' v' x' din'.
Proof.
  assert (MAXFILE * BSIZE = 272384) as Emax by done.
  induction fuel as [|fuel IH]; intros m v x c din p Hfuel Hh Hfb Hz Hx Hd Hp Hmax Hroom; [lia|]. cbn [iappend_loop].
  destruct (decide (p = [])) as [->|Hne].
  { do 4 eexists. split; [by rewrite app_nil_r|]. by apply appended_nil. }
  assert (0 < length p)%nat as Hlp by (destruct p; [done|cbn; lia]). rewrite (proj2 (Z.ltb_lt 0 _)) by lia.
  set (off := Z.of_nat (length c)) in *. rewrite length_app, Nat2Z.inj_add in Hmax, Hroom. fold off in Hmax, Hroom.
  assert (off / BSIZE < MAXFILE) as Hk by (apply (file_bytes_lt c (Z.of_nat (length p))); fold off; lia).
  rewrite (proj2 (Z.leb_gt MAXFILE (off / BSIZE))) by done. cbn [panic_if]. kstep.
  pose proof (Z.mod_pos_bound off 1024 ltac:(done)) as Hmod. pose proof (Z.div_mod off 1024 ltac:(done)) as Hdm.
  pose proof (blocks_mono (off + 1) (off + Z.of_nat (length p)) ltac:(lia)) as Hbm.
  destruct (fbn_run m v h x c din Hh Hfb Hz Hx Hd ltac:(fold off; lia) ltac:(fold off; lia)) as (m1 & v1 & x1 & d1 & E1 & D1). fold off in E1, D1.
  rewrite (bind_Ok _ _ _ _ _ E1).
  change ((off / BSIZE + 1) * BSIZE - off) with ((off / 1024 + 1) * 1024 - off). rewrite (u32_small ((off / 1024 + 1) * 1024 - off)) by lia.
  set (n1 := Z.to_nat (Z.min (Z.of_nat (length p)) ((off / 1024 + 1) * 1024 - off))).
  assert (Z.of_nat n1 = Z.min (Z.of_nat (length p)) (1024 - off mod 1024)) as En1 by lia.
  assert (length (take n1 p) = n1) as Lt by (rewrite length_take; lia).
  replace (Z.to_nat (off - off / BSIZE * BSIZE)) with (Z.to_nat (off mod BSIZE)) by (change BSIZE with 1024; lia).
  destruct (round_write m v h x c (take n1 p) (freeblock m) m1 v1 d1 x1) as (l & v2 & Er & Ew & A1); try done.
  { by apply Forall_take. }
  { lia. }
  { pose proof (fd_free _ _ _ _ _ _ _ _ _ D1). lia. }
  { fold off. rewrite Lt. change BSIZE with 1024. lia. }
  { fold off. lia. }
  fold off in Er, Ew. rewrite (bind_Ok _ _ _ _ _ Er), (bind_Ok _ _ _ _ _ Ew). set (m2 := set_img l m1) in *. rewrite u32_small by lia.
  assert (off + Z.of_nat n1 = Z.of_nat (length (c ++ take n1 p))) as Eoff by (rewrite length_app; lia). rewrite Eoff.
  pose proof A1 as [H2 _ B2 D2 _ F2 _ _ Z2]. fold off in B2. rewrite <- Eoff in B2.
  assert (freeblock m <= freeblock m2) as Hle by (pose proof (blocks_mono off (off + Z.of_nat n1) ltac:(lia)); lia).
  assert (Z.of_nat (length ((c ++ take n1 p) ++ drop n1 p)) = off + Z.of_nat (length p)) as El.
  { rewrite <- app_assoc, take_drop, length_app. lia. }
  destruct (IH m2 v2 x1 (c ++ take n1 p) d1 (drop n1 p)) as (m3 & v3 & x3 & d3 & E3 & A3); try done; try lia.
  { rewrite length_drop. lia. }
  { by apply Forall_drop. }
  { rewrite El, <- Eoff. lia. }
  exists m3, v3, x3, d3. rewrite E3, <- app_assoc, take_drop. split; [done|].
  rewrite <- (take_drop n1 p). by eapply appended_trans.
Qed.

(** ** The inode blocks *)

Lemma inodes_any : inodes_ok tx_any sb [].
Proof. rewrite sb_eq. split; cbn [sb_ninodes sb_inodestart]; [lia|lia|]. intros i Hi. split; [done|apply not_elem_of_nil]. Qed.

(** The inode [j] of the image, as the kernel would load it. *)
Definition ino_at (v : Z → block) (j : Z) : inode := with_dinode (dinode_at v sb j) (Inode ROOTDEV j 0 false 0 0 0 0 0 []).

Definition wino (v : Z → block) (j : Z) (din : list Z) : Z → block :=
  fupdz v (IBLOCK j sb) (splice (dinode_off j) din (v (IBLOCK j sb))).

Lemma winode_run m v h j din : holds m v → 0 <= j < 200 → length din = 64%nat → Forall is_byte din →
  ∃ l, winode j din (Thread h m) = Ok tt (Thread h (set_img l m)) ∧ holds (set_img l m) (wino v j din).
Proof.
  intros Hh Hj Hl Hb. pose proof (IBLOCK_range j Hj) as Hr. assert (IBLOCK j sb ≠ BMAP) as Hm by (unfold BMAP; lia).
  pose proof (hd_ok _ _ Hh (IBLOCK j sb)) as [Hbl Hbb]. change (Z.to_nat BSIZE) with 1024%nat in Hbl. pose proof (dinode_off_bound j) as Ho.
  destruct (wsect_run m v h (IBLOCK j sb) (splice (dinode_off j) din (v (IBLOCK j sb))) Hh ltac:(lia) Hm) as (l & E & Hh').
  { split; [|by apply splice_Forall]. rewrite length_splice; [exact Hbl|]. lia. }
  exists l. split; [|exact Hh']. unfold winode. by rewrite (bind_Ok _ _ _ _ _ (rsect_run m v h (IBLOCK j sb) Hh ltac:(lia) Hm)).
Qed.

Lemma rinode_run m v h j : holds m v → 0 <= j < 200 →
  ∃ din, rinode j (Thread h m) = Ok din (Thread h m) ∧ din_rep din (ino_at v j).
Proof.
  intros Hh Hj. pose proof (IBLOCK_range j Hj) as Hr. assert (IBLOCK j sb ≠ BMAP) as Hm by (unfold BMAP; lia).
  pose proof (hd_ok _ _ Hh (IBLOCK j sb)) as [Hbl Hbb]. change (Z.to_nat BSIZE) with 1024%nat in Hbl. pose proof (dinode_off_bound j) as Ho.
  eexists. split; [unfold rinode; by rewrite (bind_Ok _ _ _ _ _ (rsect_run m v h (IBLOCK j sb) Hh ltac:(lia) Hm))|]. change DINODE_SIZE with 64%nat. split.
  - apply length_slice. lia.
  - by apply slice_Forall.
  - rewrite get_dinode_slice. unfold ino_at, dinode_at. by destruct (get_dinode _ _).
Qed.

Lemma wino_same v j din : block_ok (v (IBLOCK j sb)) → length din = 64%nat → dinode_at (wino v j din) sb j = get_dinode din 0.
Proof.
  intros [Hl Hb] Hd. change (Z.to_nat BSIZE) with 1024%nat in Hl. pose proof (dinode_off_bound j) as Ho.
  unfold dinode_at, wino. rewrite fupdz_eq, <- get_dinode_slice. rewrite <- Hd at 1. f_equal. apply slice_splice_same. lia.
Qed.

Lemma wino_other v j j' din : block_ok (v (IBLOCK j sb)) → length din = 64%nat → 0 <= j < 200 → 0 <= j' < 200 → j ≠ j' →
  dinode_at (wino v j din) sb j' = dinode_at v sb j'.
Proof.
  intros [Hl Hb] Hd Hj Hj' Hne. change (Z.to_nat BSIZE) with 1024%nat in Hl. pose proof (dinode_off_bound j) as Ho.
  apply (dinode_at_other tx_any sb [] v j j'); [apply inodes_any|done|done|done|].
  intros off Hoff Hdis. rewrite <- (get_dinode_slice (splice _ _ _)), <- (get_dinode_slice (v _) off). f_equal. apply slice_splice_disjoint; lia.
Qed.

(** ** The image as a list of files *)

Definition sb_block : block := splice 0 (sb_bytes sb) zero_block.

Record image (m : mkfs) (v : Z → block) (fl : list (Z * list Z)) : Prop := {
  im_holds : holds m v;
  im_free : 46 <= freeblock m;
  im_zero : ∀ b, freeblock m <= b → v b = zero_block;
  im_ino : freeinode m = Z.of_nat (length fl) + 1;
  im_cnt : (length fl < 200)%nat;
  im_file : ∀ i t c, fl !! i = Some (t, c) →
    let x := ino_at v (Z.of_nat i + 1) in
    file_at v (freeblock m) x c ∧ to_dinode x = Dinode t 0 0 1 (Z.of_nat (length c)) (i_addrs x);
  im_disj : ∀ i j b, (i < length fl)%nat → (j < length fl)%nat → i ≠ j →
    owns v (ino_at v (Z.of_nat i + 1)) b → ¬ owns v (ino_at v (Z.of_nat j + 1)) b;
  im_sb : v 1 = sb_block;
  im_log : ∀ b, 2 <= b < 32 → v b = zero_block;
  im_rest : ∀ j, j = 0 ∨ Z.of_nat (length fl) < j < 200 → d_type (dinode_at v sb j) = 0 }.

Lemma file_at_ext v v' top top' x c : v' BMAP = map_full → (∀ b, owns v x b → v' b = v b) → top <= top' →
  file_at v top x c → file_at v' top' x c.
Proof.
  intros Hm Hv Ht [F O M Fu I B]. assert (ind_of x ≠ 0 → v' (ind_of x) = v (ind_of x)) as Hi by (intros Hz; apply Hv; by apply owns_ind).
  split; try done.
  - eapply file_ok_ext; [|exact Hi|exact F]. intros d Hd _. by apply map_full_used.
  - intros b Hb. apply (owns_ext v v') in Hb; [|done]. pose proof (O b Hb). lia.
  - intros k Hk. rewrite (blockno_ext v v' x k Hi). by apply Fu.
  - intros o Ho. rewrite (fbyte_ext v v') by done. by apply B.
Qed.

Lemma file_at_attr v top x y c : i_addrs x = i_addrs y → file_at v top x c → file_at v top y c.
Proof.
  intros E [F O M Fu I B]. assert (ind_of y = ind_of x) as Ei by (unfold ind_of; by rewrite E). split; rewrite ?Ei; try done.
  - by apply (file_ok_attr _ _ _ _ x).
  - intros b Hb. apply O. by apply (owns_attr v y x).
  - intros k. rewrite (blockno_attr v x y) by done. apply Fu.
  - intros o. rewrite (fbyte_attr v x y) by done. apply B.
Qed.

Lemma ino_dinode v j : to_dinode (ino_at v j) = dinode_at v sb j.
Proof. unfold ino_at. by destruct (dinode_at v sb j). Qed.

Lemma ino_ext v v' j : dinode_at v' sb j = dinode_at v sb j → ino_at v' j = ino_at v j.
Proof. unfold ino_at. by intros ->. Qed.

Lemma dinode_at_ext v v' j : v' (IBLOCK j sb) = v (IBLOCK j sb) → dinode_at v' sb j = dinode_at v sb j.
Proof. unfold dinode_at. by intros ->. Qed.

(** [fl] with file [i] replaced: what has to be shown of the new image. *)
Lemma image_update m v fl m' v' i t c c' :
  image m v fl → fl !! i = Some (t, c) → holds m' v' → freeinode m' = freeinode m → freeblock m <= freeblock m' →
  (∀ b, freeblock m' <= b → v' b = zero_block) →
  let x := ino_at v (Z.of_nat i + 1) in
  let x' := ino_at v' (Z.of_nat i + 1) in
  file_at v' (freeblock m') x' c' → to_dinode x' = Dinode t 0 0 1 (Z.of_nat (length c')) (i_addrs x') →
  (∀ b, owns v' x' b → owns v x b ∨ freeblock m <= b) →
  (∀ b, ¬ owns v x b → b < freeblock m → v' b = v b ∨ 32 <= b < 45) →
  (∀ j, 0 <= j < 200 → j ≠ Z.of_nat i + 1 → dinode_at v' sb j = dinode_at v sb j) →
  image m' v' (<[i := (t, c')]> fl).
Proof.
  intros [Hh Hf Hz Hn Hc Hfl Hdis Hsb Hlog Hrest] Hi Hh' Hn' Hle Hz' x x' Hx' Ha' Hown Hkeep Hdi.
  pose proof (lookup_lt_Some _ _ _ Hi) as Hlt. destruct (Hfl i t c Hi) as [Hx _]. fold x in Hx.
  assert (∀ b, b < 46 → ¬ owns v x b) as Hlow by (intros b Hb Ho; pose proof (fa_own _ _ _ _ Hx b Ho); lia).
  assert (∀ j, (j < length fl)%nat → j ≠ i → ino_at v' (Z.of_nat j + 1) = ino_at v (Z.of_nat j + 1)) as Eino.
  { intros j Hj Hne. apply ino_ext, Hdi; lia. }
  assert (∀ j b, (j < length fl)%nat → j ≠ i → owns v (ino_at v (Z.of_nat j + 1)) b → v' b = v b ∧ b < freeblock m) as Hv.
  { intros j b Hj Hne Ho. destruct (lookup_lt_is_Some_2 fl j Hj) as [[tj cj] Hfj]. destruct (Hfl j tj cj Hfj) as [Hxj _].
    pose proof (fa_own _ _ _ _ Hxj b Ho). destruct (Hkeep b) as [?|?]; [|lia|by split; [|lia]|lia]. by apply (Hdis j i b Hj Hlt Hne). }
  assert (∀ j b, (j < length fl)%nat → j ≠ i → owns v' (ino_at v (Z.of_nat j + 1)) b ↔ owns v (ino_at v (Z.of_nat j + 1)) b) as Ho.
  { intros j b Hj Hne. apply owns_ext. intros Hnz. apply (Hv j); [done|done|]. by apply owns_ind. }
  split; rewrite ?length_insert; try done.
  - lia.
  - lia.
  - intros j tj cj Hj. destruct (decide (j = i)) as [->|Hne].
    + rewrite list_lookup_insert_eq in Hj by done. injection Hj as <- <-. by split.
    + rewrite list_lookup_insert_ne in Hj by done. pose proof (lookup_lt_Some _ _ _ Hj) as Hjl. cbv zeta. rewrite Eino by done.
      destruct (Hfl j tj cj Hj) as [Hxj Haj]. split; [|exact Haj]. eapply file_at_ext; [apply Hh'| |exact Hle|exact Hxj].
      intros b Hb. by apply (Hv j).
  - intros j k b Hj Hk Hne. destruct (decide (j = i)) as [->|Hji], (decide (k = i)) as [->|Hki]; try done.
    + rewrite (Eino k) by done. rewrite Ho by done. intros H1 H2. destruct (Hown b H1) as [H3|H3].
      * by apply (Hdis i k b Hlt Hk Hne).
      * pose proof (Hv k b Hk Hki H2). lia.
    + rewrite (Eino j) by done. rewrite Ho by done. intros H1 H2. destruct (Hown b H2) as [H3|H3].
      * by apply (Hdis j i b Hj Hlt Hne).
      * pose proof (Hv j b Hj Hji H1). lia.
    + rewrite (Eino j), (Eino k), !Ho by done. by apply Hdis.
  - destruct (Hkeep 1) as [->|?]; [by apply Hlow|lia|done|lia].
  - intros b Hb. destruct (Hkeep b) as [->|?]; [apply Hlow; lia|lia|by apply Hlog|lia].
  - intros j Hj. rewrite Hdi by lia. by apply Hrest.
Qed.

Lemma iappend_run m v h fl i t c p : image m v fl → fl !! i = Some (t, c) → Forall is_byte p →
  Z.of_nat (length (c ++ p)) <= MAXFILE * BSIZE →
  freeblock m + blocks (Z.of_nat (length (c ++ p))) - blocks (Z.of_nat (length c)) <= 2000 →
  ∃ m' v', iappend (Z.of_nat i + 1) p (Thread h m) = Ok tt (Thread h m') ∧ image m' v' (<[i := (t, c ++ p)]> fl) ∧
    freeblock m' = freeblock m + blocks (Z.of_nat (length (c ++ p))) - blocks (Z.of_nat (length c)).
Proof.
  intros Him Hi Hp Hmax Hroom. pose proof (lookup_lt_Some _ _ _ Hi) as Hlt. pose proof (im_cnt _ _ _ Him) as Hcnt.
  set (j := Z.of_nat i + 1). assert (0 <= j < 200) as Hj by lia. pose proof (IBLOCK_range j Hj) as Hjr.
  destruct (im_file _ _ _ Him i t c Hi) as [Hx Ha]. fold j in Hx, Ha. set (x := ino_at v j) in *.
  destruct (rinode_run m v h j (im_holds _ _ _ Him) Hj) as (din & Er & Hd). fold x in Hd.
  assert (MAXFILE * BSIZE = 272384) as Emax by done.
  destruct (iappend_loop_run h (S (length p)) m v x c din p) as (m1 & v1 & x1 & d1 & El & Hap); try done; try apply Him; [lia|].
  pose proof Hap as [H1 I1 B1 D1 A1 F1 O1 K1 Z1].
  assert (freeblock m <= freeblock m1) as Hle.
  { pose proof (blocks_mono (Z.of_nat (length c)) (Z.of_nat (length (c ++ p))) ltac:(rewrite length_app; lia)). lia. }
  pose proof (set_size_rep d1 x1 (Z.of_nat (length (c ++ p))) D1 ltac:(lia)) as [L2 Y2 G2]. set (d2 := set_din_size _ d1) in *.
  destruct (winode_run m1 v1 h j d2 H1 Hj L2 Y2) as (l & Ew & H2).
  assert (block_ok (v1 (IBLOCK j sb))) as Hbo by apply H1.
  assert (∀ b, b < 46 → ¬ owns v x b) as Hlow by (intros b Hb Ho; pose proof (fa_own _ _ _ _ Hx b Ho); lia).
  assert (∀ b, b ≠ IBLOCK j sb → wino v1 j d2 b = v1 b) as Hw by (intros b Hb; by apply fupdz_ne).
  pose proof (wino_same v1 j d2 Hbo L2) as Es. rewrite G2, <- ino_dinode in Es.
  assert (i_addrs (ino_at (wino v1 j d2) j) = i_addrs x1) as Ead.
  { apply (f_equal d_addrs) in Es. exact Es. }
  assert (∀ b, owns (wino v1 j d2) (ino_at (wino v1 j d2) j) b → owns v1 x1 b) as Hown.
  { intros b Hb. apply (owns_attr _ _ x1) in Hb; [|done]. apply (owns_ext v1) in Hb; [done|]. intros Hz. apply Hw.
    pose proof (fa_own _ _ _ _ F1 (ind_of x1) (owns_ind v1 x1 Hz)). lia. }
  exists (set_img l m1), (wino v1 j d2). split; [|split; [|exact B1]].
  - unfold iappend. rewrite (bind_Ok _ _ _ _ _ Er). destruct (din_size_eq din x Hd) as [Esz _]. rewrite Esz.
    pose proof (f_equal d_size Ha) as Hs. cbn [to_dinode d_size] in Hs. rewrite Hs, (bind_Ok _ _ _ _ _ El). exact Ew.
  - pose proof (im_free _ _ _ Him) as Hf46. pose proof (im_zero _ _ _ Him) as Hz.
    apply (image_update m v fl _ _ i t c); try done; cbn [set_img freeblock freeinode]; fold j.
    + intros b Hb. rewrite Hw by lia. by apply Z1.
    + apply (file_at_attr _ _ x1); [done|]. eapply file_at_ext; [apply H2| |reflexivity|exact F1].
      intros b Hb. apply Hw. pose proof (fa_own _ _ _ _ F1 b Hb). lia.
    + rewrite Es, Ead. rewrite A1. unfold to_dinode. cbn [Fs.with_size i_type i_major i_minor i_nlink i_size i_addrs].
      pose proof (f_equal d_type Ha) as T1. pose proof (f_equal d_major Ha) as T2. pose proof (f_equal d_minor Ha) as T3. pose proof (f_equal d_nlink Ha) as T4.
      cbn [to_dinode d_type d_major d_minor d_nlink] in T1, T2, T3, T4. by rewrite T1, T2, T3, T4.
    + intros b Hb. apply O1. by apply Hown.
    + intros b Hb Hbl. destruct (decide (b = IBLOCK j sb)) as [->|Hne]; [by right|left]. rewrite Hw by done. by apply K1.
    + intros k Hk Hne. rewrite wino_other by (done || congruence). apply dinode_at_ext. pose proof (IBLOCK_range k Hk). apply K1; [apply Hlow|]; lia.
Qed.

(** ** Making inodes and files *)

Definition empty_din (t : Z) : list Z := setf 4 8 (xint 0) (setf 2 6 (xshort 1) (setf 2 0 (xshort t) (replicate DINODE_SIZE 0))).

Lemma empty_din_eq t : t = T_DIR ∨ t = T_FILE →
  get_dinode (empty_din t) 0 = Dinode t 0 0 1 0 (replicate 11 0) ∧ length (empty_din t) = 64%nat ∧ Forall is_byte (empty_din t).
Proof.
  intros [-> | ->]; (split; [vm_compute; reflexivity|split; [vm_compute; reflexivity|]]);
    (repeat apply setf_bytes; apply Forall_replicate; unfold is_byte; lia).
Qed.

Lemma zero_file v top x : v BMAP = map_full → i_addrs x = replicate 11 0 → (∀ b, ¬ owns v x b) ∧ file_at v top x [].
Proof.
  intros Hm E. assert (ind_of x = 0) as Ei by (unfold ind_of; by rewrite E).
  assert (∀ k, blockno v x k = 0) as Eb.
  { intros k. unfold blockno. rewrite Ei, E. destruct (k <? NDIRECT); [|done]. destruct (replicate 11 0 !! _) as [y|] eqn:Hy; [|done]. by apply lookup_replicate in Hy as [-> _]. }
  assert (∀ b, ¬ owns v x b) as Ho by (intros b [Hb [Hi|(k & _ & Hk)]]; [congruence|rewrite Eb in Hk; congruence]).
  split; [done|]. split.
  - split; [by rewrite E| | |].
    + intros b Hb. by destruct (Ho b).
    + intros k k' _ _ Hk. by rewrite Eb in Hk.
    + intros k _ Hk. by rewrite Eb in Hk.
  - intros b Hb. by destruct (Ho b).
  - done.
  - intros k Hk. rewrite Eb. change BSIZE with 1024. cbn [length]. split; [done|lia].
  - rewrite Ei. change (NDIRECT * BSIZE) with 10240. cbn [length]. split; [done|lia].
  - intros o Ho'. unfold fbyte. by rewrite Eb, Z.eqb_refl.
Qed.

Lemma ialloc_run m v h fl t : image m v fl → (S (length fl) < 200)%nat → t = T_DIR ∨ t = T_FILE →
  ∃ m' v', ialloc t (Thread h m) = Ok (Z.of_nat (length fl) + 1) (Thread h m') ∧ image m' v' (fl ++ [(t, [])]) ∧ freeblock m' = freeblock m.
Proof.
  intros Him Hc Ht. pose proof Him as [Hh Hf Hz Hn _ Hfl Hdis Hsb Hlog Hrest].
  set (j := Z.of_nat (length fl) + 1). assert (0 <= j < 200) as Hj by lia. pose proof (IBLOCK_range j Hj) as Hjr.
  destruct (empty_din_eq t Ht) as (Ed & Ld & Bd). set (din := empty_din t) in *.
  set (m1 := Mk (img m) (freeinode m + 1) (freeblock m)).
  destruct (winode_run m1 v h j din (holds_img m m1 v eq_refl Hh) Hj Ld Bd) as (l & Ew & H2).
  assert (∀ b, b ≠ IBLOCK j sb → wino v j din b = v b) as Hw by (intros b Hb; by apply fupdz_ne).
  assert (∀ k, 0 <= k < 200 → k ≠ j → dinode_at (wino v j din) sb k = dinode_at v sb k) as Hdi.
  { intros k Hk Hne. apply wino_other; try done; try apply Hh; congruence. }
  pose proof (wino_same v j din (hd_ok _ _ Hh _) Ld) as Es. rewrite Ed in Es.
  assert (i_addrs (ino_at (wino v j din) j) = replicate 11 0) as Ead by (unfold ino_at; by rewrite Es).
  assert (∀ i, (i < length fl)%nat → ino_at (wino v j din) (Z.of_nat i + 1) = ino_at v (Z.of_nat i + 1)) as Eino by (intros i Hi; apply ino_ext, Hdi; lia).
  assert (∀ i b, (i < length fl)%nat → owns v (ino_at v (Z.of_nat i + 1)) b → wino v j din b = v b) as Hv.
  { intros i b Hi Ho. destruct (lookup_lt_is_Some_2 fl i Hi) as [[ti ci] Hfi]. destruct (Hfl i ti ci Hfi) as [Hx _].
    pose proof (fa_own _ _ _ _ Hx b Ho). apply Hw. lia. }
  destruct (zero_file (wino v j din) (freeblock m) (ino_at (wino v j din) j) (hd_map _ _ H2) Ead) as [Hno Hzf].
  exists (set_img l m1), (wino v j din). split; [|split; [|done]].
  - unfold ialloc. kstep. cbn [st]. rewrite Hn. kstep. cbn [st held]. rewrite u32_small by lia. rewrite Hn.
    change (setf 4 8 (xint 0) _) with din. fold j. unfold m1 in Ew. rewrite Hn in Ew. fold j in Ew. rewrite (bind_Ok _ _ _ _ _ Ew). unfold ret, m1. by rewrite Hn.
  - split; rewrite ?length_app; cbn [length set_img freeblock freeinode m1]; try done; try lia.
    + intros b Hb. rewrite Hw by lia. by apply Hz.
    + intros i ti ci Hi. destruct (decide (i < length fl)%nat) as [Hlt|Hge].
      * rewrite lookup_app_l in Hi by done. cbv zeta. rewrite Eino by done. destruct (Hfl i ti ci Hi) as [Hx Ha]. split; [|exact Ha].
        eapply file_at_ext; [apply H2| |reflexivity|exact Hx]. intros b. by apply Hv.
      * rewrite lookup_app_r in Hi by lia. apply list_lookup_singleton_Some in Hi as [Ei [= <- <-]]. replace (Z.of_nat i + 1) with j by lia.
        split; [exact Hzf|]. rewrite ino_dinode, Ead. exact Es.
    + intros i k b Hi Hk Hne. destruct (decide (i = length fl)) as [->|Hil].
      { intros Ho. by apply Hno in Ho. }
      destruct (decide (k = length fl)) as [->|Hkl]; [intros _; apply Hno|].
      assert (∀ e, (e < length fl)%nat → owns (wino v j din) (ino_at v (Z.of_nat e + 1)) b ↔ owns v (ino_at v (Z.of_nat e + 1)) b) as Ho.
      { intros e He. apply owns_ext. intros Hnz. apply (Hv e); [done|by apply owns_ind]. }
      rewrite (Eino i), (Eino k), !Ho by lia. apply Hdis; lia.
    + rewrite Hw by lia. done.
    + intros b Hb. rewrite Hw by lia. by apply Hlog.
    + intros k Hk. rewrite Hdi by lia. apply Hrest. lia.
Qed.

Lemma copy_file_run h t reads : ∀ m v fl i c, image m v fl → fl !! i = Some (t, c) →
  Forall (λ r, r ≠ [] ∧ Forall is_byte r) reads → Z.of_nat (length (c ++ concat reads)) <= MAXFILE * BSIZE →
  freeblock m + blocks (Z.of_nat (length (c ++ concat reads))) - blocks (Z.of_nat (length c)) <= 2000 →
  ∃ m' v', copy_file (Z.of_nat i + 1) reads (Thread h m) = Ok tt (Thread h m') ∧ image m' v' (<[i := (t, c ++ concat reads)]> fl) ∧
    freeblock m' = freeblock m + blocks (Z.of_nat (length (c ++ concat reads))) - blocks (Z.of_nat (length c)).
Proof.
  induction reads as [|r reads IH]; intros m v fl i c Him Hi Hr Hmax Hroom; cbn [copy_file concat] in *.
  - exists m, v. rewrite app_nil_r, list_insert_id by done. split; [done|]. split; [done|lia].
  - apply Forall_cons in Hr as [[Hne Hb] Hr]. rewrite (proj2 (Nat.ltb_lt 0 _)) by (destruct r; [done|cbn; lia]).
    rewrite app_assoc in *. assert (length (c ++ r) <= length ((c ++ r) ++ concat reads))%nat as Hle by (rewrite (length_app (c ++ r)); lia).
    pose proof (blocks_mono (Z.of_nat (length (c ++ r))) (Z.of_nat (length ((c ++ r) ++ concat reads))) ltac:(lia)) as Hm.
    destruct (iappend_run m v h fl i t c r Him Hi Hb ltac:(lia) ltac:(lia)) as (m1 & v1 & E1 & I1 & B1).
    rewrite (bind_Ok _ _ _ _ _ E1). destruct (IH m1 v1 (<[i:=(t, c ++ r)]> fl) i (c ++ r) I1) as (m2 & v2 & E2 & I2 & B2); try done; try lia.
    { apply list_lookup_insert_eq. by eapply lookup_lt_Some. }
    exists m2, v2. rewrite list_insert_insert_eq in I2. split; [done|]. split; [done|lia].
Qed.

(** The file that an argument of mkfs stands for: its name in the image and its bytes. *)
Definition arg_of (a : list Z * option (list (list Z))) (f : list Z * list Z) : Prop :=
  ∃ reads, a.2 = Some reads ∧ shortname a.1 = Some f.1 ∧ f.2 = concat reads ∧ Forall (λ r, r ≠ [] ∧ Forall is_byte r) reads ∧
    (length f.1 <= 14)%nat ∧ Forall (λ c, 0 < c < 256) f.1 ∧ Z.of_nat (length f.2) <= MAXFILE * BSIZE.

(** The root directory, and the files of the image, by inode. *)
Definition root_bytes (l : list (list Z * list Z)) : list Z :=
  dirent 1 (str ".") ++ dirent 1 (str "..") ++ concat (imap (λ k f, dirent (Z.of_nat k + 2) f.1) l).
Definition files_of (l : list (list Z * list Z)) : list (Z * list Z) := (T_DIR, root_bytes l) :: ((λ f, (T_FILE, f.2)) <$> l).

(** The number of the first block mkfs does not use. *)
Definition used_blocks (l : list (list Z * list Z)) : Z :=
  nmeta + blocks (16 * (Z.of_nat (length l) + 2)) + foldr (λ f n, blocks (Z.of_nat (length f.2)) + n) 0 l.

Lemma length_dirent i n : length (dirent i n) = 16%nat.
Proof. apply length_new_dirent. Qed.

Lemma length_root l : length (root_bytes l) = (16 * (length l + 2))%nat.
Proof.
  unfold root_bytes. rewrite !length_app, !length_dirent. assert (∀ k, length (concat (imap (λ i (f : list Z * list Z), dirent (Z.of_nat (k + i) + 2) f.1) l)) = (16 * length l)%nat) as H; [|pose proof (H 0%nat) as H0; cbn [Nat.add] in H0; rewrite H0; lia].
  induction l as [|f l IH]; intros k; [done|]. rewrite imap_cons. cbn [concat]. rewrite length_app, length_dirent.
  unfold compose. rewrite (imap_ext _ (λ i (f : list Z * list Z), dirent (Z.of_nat (S k + i) + 2) f.1)).
  - rewrite IH. cbn [length]. lia.
  - intros i g _. do 2 f_equal. lia.
Qed.

Lemma root_snoc l f : root_bytes (l ++ [f]) = root_bytes l ++ dirent (Z.of_nat (length l) + 2) f.1.
Proof.
  unfold root_bytes. rewrite imap_app, concat_app, <- !app_assoc. cbn [imap concat]. unfold compose. rewrite app_nil_r, Nat.add_0_r. done.
Qed.

Lemma blocks_nonneg n : 0 <= n → 0 <= blocks n.
Proof. intros Hn. unfold blocks. pose proof (Z.div_pos (n + 1023) 1024 ltac:(lia) ltac:(lia)). destruct (_ <? _); lia. Qed.

Lemma blocks_0 : blocks 0 = 0.
Proof. reflexivity. Qed.

Lemma used_snoc l f : used_blocks (l ++ [f]) =
  used_blocks l + (blocks (16 * (Z.of_nat (length l) + 3)) - blocks (16 * (Z.of_nat (length l) + 2))) + blocks (Z.of_nat (length f.2)).
Proof.
  unfold used_blocks. rewrite length_app. cbn [length].
  assert (foldr (λ (f : list Z * list Z) n, blocks (Z.of_nat (length f.2)) + n) 0 (l ++ [f]) =
    foldr (λ (f : list Z * list Z) n, blocks (Z.of_nat (length f.2)) + n) 0 l + blocks (Z.of_nat (length f.2))) as ->.
  { induction l as [|g l IH]; cbn [app foldr]; lia. }
  replace (16 * (Z.of_nat (length l + 1) + 2)) with (16 * (Z.of_nat (length l) + 3)) by lia. lia.
Qed.

Lemma name_bytes (n : list Z) : Forall (λ c, 0 < c < 256) n → Forall is_byte n.
Proof. intros Hn. eapply Forall_impl; [exact Hn|]. unfold is_byte. cbn. lia. Qed.

Lemma add_file_run m v h l a f : image m v (files_of l) → arg_of a f → freeblock m = used_blocks l → used_blocks (l ++ [f]) <= 2000 →
  (length l < 198)%nat →
  ∃ m' v', add_file 1 a (Thread h m) = Ok tt (Thread h m') ∧ image m' v' (files_of (l ++ [f])) ∧ freeblock m' = used_blocks (l ++ [f]).
Proof.
  intros Him (reads & Ha & Hn & Hf & Hr & Hl14 & Hnb & Hmax) Hfb Hroom Hcnt. destruct a as [path fd]. cbn [fst snd] in *. subst fd.
  assert (length (files_of l) = S (length l)) as Lf by (unfold files_of; cbn [length]; by rewrite length_fmap).
  assert (MAXFILE * BSIZE = 272384) as Emax by done.
  unfold add_file. rewrite Hn, (proj2 (Z.ltb_ge DIRSIZ _)) by (change DIRSIZ with 14; lia). cbn [panic_if]. kstep.
  destruct (ialloc_run m v h (files_of l) T_FILE Him ltac:(lia) ltac:(by right)) as (m1 & v1 & E1 & I1 & B1). rewrite (bind_Ok _ _ _ _ _ E1).
  set (inum := Z.of_nat (length (files_of l)) + 1) in *. assert (inum = Z.of_nat (length l) + 2) as Ein by lia.
  pose proof (blocks_mono (16 * (Z.of_nat (length l) + 2)) (16 * (Z.of_nat (length l) + 3)) ltac:(lia)) as Hm.
  pose proof (blocks_nonneg (Z.of_nat (length f.2)) ltac:(lia)) as Hnn. rewrite used_snoc in Hroom.
  assert (Z.of_nat (length (root_bytes l ++ dirent inum f.1)) = 16 * (Z.of_nat (length l) + 3)) as Lr by (rewrite length_app, length_root, length_dirent; lia).
  assert (Z.of_nat (length (root_bytes l)) = 16 * (Z.of_nat (length l) + 2)) as Lr0 by (rewrite length_root; lia).
  destruct (iappend_run m1 v1 h (files_of l ++ [(T_FILE, [])]) 0 T_DIR (root_bytes l) (dirent inum f.1) I1) as (m2 & v2 & E2 & I2 & B2);
    [done|apply new_dirent_bytes; by apply name_bytes|lia|rewrite Lr, Lr0; lia|]. rewrite Lr, Lr0 in B2.
  change (Z.of_nat 0 + 1) with 1 in E2. rewrite (bind_Ok _ _ _ _ _ E2). cbn [app insert list_insert files_of] in I2.
  destruct (copy_file_run h T_FILE reads m2 v2 _ (S (length l)) [] I2) as (m3 & v3 & E3 & I3 & B3); try done; rewrite ?app_nil_l, <- ?Hf in *.
  { change ((((λ f0 : list Z * list Z, (T_FILE, f0.2)) <$> l) ++ [(T_FILE, [])]) !! length l = Some (T_FILE, [])).
    by rewrite lookup_app_r, length_fmap, Nat.sub_diag by (rewrite length_fmap; lia). }
  { lia. }
  { cbn [length]. change (Z.of_nat 0) with 0. rewrite blocks_0. lia. }
  exists m3, v3. rewrite used_snoc. cbn [length] in B3. change (Z.of_nat 0) with 0 in B3. rewrite blocks_0 in B3. split; [|split; [|lia]].
  - rewrite <- E3. f_equal. lia.
  - revert I3. match goal with |- image _ _ ?X → _ => assert (X = files_of (l ++ [f])) as -> end; [|done].
    etrans; [exact (eq_refl (_ :: <[length l := (T_FILE, f.2)]> (((λ g : list Z * list Z, (T_FILE, g.2)) <$> l) ++ [(T_FILE, [])])))|].
    unfold files_of. rewrite root_snoc, fmap_app, <- Ein.
    rewrite (insert_app_r_alt ((λ g : list Z * list Z, (T_FILE, g.2)) <$> l) [(T_FILE, [])] (length l) (T_FILE, f.2)) by (rewrite length_fmap; lia).
    by rewrite length_fmap, Nat.sub_diag.
Qed.

Lemma add_files_run h : ∀ args l fs m v, image m v (files_of l) → Forall2 arg_of args fs → freeblock m = used_blocks l →
  used_blocks (l ++ fs) <= 2000 → (length (l ++ fs) <= 198)%nat →
  ∃ m' v', add_files 1 args (Thread h m) = Ok tt (Thread h m') ∧ image m' v' (files_of (l ++ fs)) ∧ freeblock m' = used_blocks (l ++ fs).
Proof.
  induction args as [|a args IH]; intros l fs m v Him Hfs Hfb Hroom Hcnt.
  - apply Forall2_nil_inv_l in Hfs as ->. rewrite app_nil_r in *. by exists m, v.
  - apply Forall2_cons_inv_l in Hfs as (f & fs' & Hf & Hfs & ->). rewrite cons_middle, app_assoc in *.
    assert (used_blocks (l ++ [f]) <= used_blocks ((l ++ [f]) ++ fs')) as Hle.
    { clear. set (l0 := l ++ [f]). clearbody l0. clear. revert l0; induction fs' as [|g fs IH]; intros l0; [by rewrite app_nil_r|].
      rewrite cons_middle, app_assoc. etrans; [|apply IH]. rewrite used_snoc.
      pose proof (blocks_mono (16 * (Z.of_nat (length l0) + 2)) (16 * (Z.of_nat (length l0) + 3)) ltac:(lia)).
      pose proof (blocks_nonneg (Z.of_nat (length g.2)) ltac:(lia)). lia. }
    destruct (add_file_run m v h l a f Him Hf Hfb ltac:(lia)) as (m1 & v1 & E1 & I1 & B1).
    { rewrite !length_app in Hcnt. cbn [length] in Hcnt. lia. }
    destruct (IH (l ++ [f]) fs' m1 v1 I1 Hfs B1 Hroom Hcnt) as (m2 & v2 & E2 & I2 & B2). exists m2, v2. split; [|by split].
    cbn [add_files]. by rewrite (bind_Ok _ _ _ _ _ E1).
Qed.

(** ** The beginning *)

Lemma zero_loop_run h k : ∀ m, (length (img m) + k <= 2000)%nat →
  zero_loop k (Z.of_nat (length (img m))) (Thread h m) = Ok tt (Thread h (set_img (img m ++ replicate k zero_block) m)).
Proof.
  induction k as [|k IH]; intros m Hm; cbn [zero_loop].
  - cbn [replicate]. rewrite app_nil_r. by destruct m.
  - unfold wsect at 1. kstep. cbn [st held]. rewrite sector_eq, Nat2Z.id by lia. unfold put_block. rewrite (proj2 (Nat.ltb_ge _ _)), Nat.sub_diag by lia.
    cbn [replicate app]. set (m1 := set_img _ m). assert (length (img m1) = S (length (img m))) as Hl by (cbn [m1 img set_img]; rewrite length_app; cbn; lia).
    replace (Z.of_nat (length (img m)) + 1) with (Z.of_nat (length (img m1))) by lia. rewrite IH by lia.
    unfold set_img at 1. cbn [m1 img set_img freeinode freeblock]. by rewrite <- app_assoc.
Qed.

Definition view0 : Z → block := λ b, if b =? BMAP then map_full else zero_block.

Lemma holds0 fi fb : holds (Mk (replicate 2000 zero_block) fi fb) view0.
Proof.
  assert (∀ b, block_ok (view0 b)) as Hok by (intros b; unfold view0; destruct (b =? BMAP); [apply const_block_ok; unfold is_byte; lia|apply zero_block_ok]).
  split; [cbn [img]; by rewrite length_replicate| | |done].
  - intros b Hb. unfold view, view0. rewrite (proj2 (Z.eqb_neq b BMAP)) by done. destruct (b <? 0); [done|]. cbn [img].
    destruct (replicate 2000 zero_block !! Z.to_nat b) as [d|] eqn:E; [|done]. by apply lookup_replicate in E as [-> _].
  - unfold view0. by rewrite Z.eqb_refl.
Qed.

Lemma zero_dinode v j : v (IBLOCK j sb) = zero_block → d_type (dinode_at v sb j) = 0.
Proof.
  intros Hv. unfold dinode_at. rewrite Hv, <- get_dinode_slice. pose proof (dinode_off_bound j) as Ho.
  assert (slice (dinode_off j) 64 zero_block = replicate 64 0) as ->; [|vm_compute; reflexivity].
  unfold slice, zero_block. change (Z.to_nat BSIZE) with 1024%nat. rewrite drop_replicate, take_replicate. f_equal. lia.
Qed.

Lemma sb_block_ok : block_ok sb_block ∧ decode_sb sb_block = sb.
Proof.
  assert (Forall is_byte (sb_bytes sb)) as Hb by (apply Forall_concat; repeat (constructor; [apply le_bytes_is_byte|]); constructor).
  split; [|vm_compute; reflexivity]. split; [vm_compute; reflexivity|]. apply splice_Forall; [done|apply zero_block_ok].
Qed.

(** The image after the super block is written. *)
Lemma image0 h : ∃ m v,
  (∀ K : M mkfs unit, (modify (λ m, Mk (img m) (freeinode m) nmeta) ;;; zero_loop (Z.to_nat FSSIZE) 0 ;;; wsect 1 sb_block ;;; K) (Thread h (Mk [] 1 0)) = K (Thread h m)) ∧
  image m v [] ∧ freeblock m = 46.
Proof.
  set (m1 := Mk (replicate 2000 zero_block) 1 46). assert (1 ≠ BMAP) as H1 by done.
  destruct (wsect_run m1 view0 h 1 sb_block (holds0 _ _) ltac:(lia) H1 (proj1 sb_block_ok)) as (l & Ew & Hh).
  assert (∀ b, b ≠ 1 → b ≠ BMAP → fupdz view0 1 sb_block b = zero_block) as Hz.
  { intros b Hb Hm. rewrite fupdz_ne by done. unfold view0. by rewrite (proj2 (Z.eqb_neq b BMAP)). }
  exists (set_img l m1), (fupdz view0 1 sb_block). split; [|split; [|done]].
  - intros K. kstep. cbn [st held img freeinode]. rewrite (bind_Ok _ _ _ _ _ (zero_loop_run h 2000 (Mk [] 1 nmeta) ltac:(cbn; lia))).
    by rewrite (bind_Ok _ _ _ _ _ Ew).
  - split; try done; try (cbn; lia).
    + intros b Hb. cbn [set_img freeblock m1] in Hb. apply Hz; unfold BMAP; lia.
    + intros b Hb. apply Hz; unfold BMAP; lia.
    + cbn [length]. intros j Hj. pose proof (IBLOCK_range j ltac:(lia)). apply zero_dinode, Hz; unfold BMAP; lia.
Qed.
