(* ===== verification/MkfsKernel.v ===== *)
(** * The kernel reads what mkfs wrote

    The finished image as the theorems about fs.c see it: free map, inodes, files and the
    root directory; and the path from a name in the root directory to the bytes of the
    file, through [ilock], [dirlookup] and [readi]. *)

From S2P Require Import Prelude Param CString FsDisk BlockLayer Fs FsBlocks FsInode FsFile FsDir Mkfs MkfsSpec.

(** ** The free map *)

Lemma mark_loop_spec k : ∀ i d, block_ok d → 0 <= i → i + Z.of_nat k <= BPB →
  block_ok (mark_loop k i d) ∧ ∀ b, 0 <= b → bit_set (mark_loop k i d) b = (if decide (i <= b < i + Z.of_nat k) then true else bit_set d b).
Proof.
  induction k as [|k IH]; intros i d Hd Hi Hk; cbn [mark_loop].
  - split; [done|]. intros b Hb. by rewrite decide_False by lia.
  - destruct (IH (i + 1) (mark_bit i d) (mark_bit_ok _ _ Hd) ltac:(lia) ltac:(lia)) as [H1 H2]. split; [done|].
    intros b Hb. rewrite H2, bit_set_mark by (done || lia). destruct (Z.eqb_spec b i) as [->|Hne].
    + rewrite decide_False, decide_True by lia. done.
    + destruct (decide (i + 1 <= b < _)); [by rewrite decide_True by lia|by rewrite decide_False by lia].
Qed.

Lemma zero_bit b : bit_set zero_block b = false.
Proof. unfold bit_set. rewrite zero_block_byte. by rewrite Z.land_0_l. Qed.

(** ** The finished image *)

(** A transaction in which the blocks behind the log can be logged. *)
Definition reaches (tx : txinfo) : Prop := ∀ b, 32 <= b < 2000 → tx_home tx b.

Definition root_size (l : list (list Z * list Z)) : Z := (16 * (Z.of_nat (length l) + 2) / BSIZE + 1) * BSIZE.

(** The blocks [v] are a file system with the files [l] in its root directory. *)
Record built (v : Z → block) (l : list (list Z * list Z)) : Prop := {
  bt_blk : ∀ b, block_ok (v b);
  bt_sb : decode_sb (v 1) = sb;
  bt_log : ∀ b, 2 <= b < 32 → v b = zero_block;
  bt_used : ∀ b, 0 <= b < 2000 → used v sb b = (b <? used_blocks l);
  bt_fs : ∀ tx, reaches tx → fs_ok tx sb v [];
  bt_file : ∀ tx k f, reaches tx → l !! k = Some f →
    let x := ino_at v (Z.of_nat k + 2) in
    file_ok tx sb v [] x ∧ full v x ∧ to_dinode x = Dinode T_FILE 0 0 1 (Z.of_nat (length f.2)) (i_addrs x) ∧
    ∀ o, 0 <= o < MAXFILE * BSIZE → fbyte v x o = default 0 (f.2 !! Z.to_nat o);
  bt_root : ∀ tx, reaches tx →
    let x := ino_at v ROOTINO in
    file_ok tx sb v [] x ∧ (full v x ↔ 16 * (Z.of_nat (length l) + 2) mod BSIZE ≠ 0) ∧
    to_dinode x = Dinode T_DIR 0 0 1 (root_size l) (i_addrs x) ∧
    ∀ o, 0 <= o < MAXFILE * BSIZE → fbyte v x o = default 0 (root_bytes l !! Z.to_nat o);
  bt_disj : ∀ i j b, (i <= length l)%nat → (j <= length l)%nat → i ≠ j →
    owns v (ino_at v (Z.of_nat i + 1)) b → ¬ owns v (ino_at v (Z.of_nat j + 1)) b;
  bt_rest : ∀ j, j = 0 ∨ Z.of_nat (length l) + 1 < j < 200 → d_type (dinode_at v sb j) = 0 }.

Section finish.
Context (v v' : Z → block) (top : Z).
Hypothesis Hv : ∀ b, b ≠ BMAP → v' b = v b.
Hypothesis Hused : ∀ b, 0 <= b < 2000 → used v' sb b = (b <? top).
Hypothesis Htop : 46 <= top <= 2000.

Lemma data_block_final tx b : reaches tx → 46 <= b < top → data_block tx sb v' [] b.
Proof.
  intros Htx Hb. destruct (data_block_any (λ _, map_full) b eq_refl ltac:(lia)) as [D1 D2 D3 D4 D5 D6]. split; try done.
  - rewrite Hused by lia. apply Z.ltb_lt. lia.
  - apply Htx. lia.
Qed.

Lemma file_final tx x c : reaches tx → file_at v top x c →
  file_ok tx sb v' [] x ∧ (∀ b, owns v' x b ↔ owns v x b) ∧ (∀ k, blockno v' x k = blockno v x k) ∧
  ∀ o, 0 <= o < MAXFILE * BSIZE → fbyte v' x o = default 0 (c !! Z.to_nat o).
Proof.
  intros Htx [[F1 F2 F3 F4] O M Fu I B].
  assert (∀ b, owns v x b → v' b = v b) as Hown by (intros b Hb; apply Hv; pose proof (O b Hb); unfold BMAP; lia).
  assert (ind_of x ≠ 0 → v' (ind_of x) = v (ind_of x)) as Hi by (intros Hz; apply Hown; by apply owns_ind).
  assert (∀ k, blockno v' x k = blockno v x k) as Hb by (intros k; by apply blockno_ext).
  assert (∀ b, owns v' x b ↔ owns v x b) as Ho by (intros b; by apply owns_ext).
  split; [split|split; [done|split; [done|]]].
  - done.
  - intros b H. apply data_block_final; [done|]. apply O. by apply Ho.
  - intros k k'. rewrite !Hb. apply F3.
  - intros k. rewrite Hb. apply F4.
  - intros o Hor. rewrite (fbyte_ext v v') by done. by apply B.
Qed.

Lemma fs_final tx : reaches tx → fs_ok tx sb v' [].
Proof.
  intros Htx. split.
  - split; rewrite sb_eq; cbn [sb_size sb_bmapstart]; [lia|done| |].
    + intros b Hb. change BPB with 8192. rewrite Z.div_small by lia. split; [apply Htx; lia|apply not_elem_of_nil].
    + intros b Hb Hu. pose proof (Hused b Hb) as E. rewrite sb_eq, Hu in E. symmetry in E. apply Z.ltb_ge in E.
      split; [lia|]. split; [apply Htx; lia|]. split; [apply not_elem_of_nil|]. intros c Hc. change BPB with 8192. rewrite Z.div_small by lia. lia.
  - split; [rewrite sb_eq; cbn [sb_ninodes]; lia|rewrite sb_eq; cbn [sb_ninodes sb_inodestart]; lia|].
    change (sb_ninodes sb) with 200. intros j Hj. pose proof (IBLOCK_range j Hj). split; [apply Htx; lia|apply not_elem_of_nil].
  - change (sb_ninodes sb) with 200. intros j Hj. pose proof (IBLOCK_range j Hj) as Hr. rewrite Hused by lia.
    split; [change (sb_size sb) with 2000; lia|]. split; [apply Z.ltb_lt; lia|]. rewrite map_block_eq. unfold BMAP. lia.
Qed.
End finish.

Lemma root_full v x top c n : file_at v top x c → Z.of_nat (length c) = n → 0 <= n < 200 * 16 + 16 → i_size x = (n / 1024 + 1) * 1024 →
  full v x ↔ n mod 1024 ≠ 0.
Proof.
  intros Hx Hc Hn Hs. pose proof (fa_full _ _ _ _ Hx) as Hf. rewrite Hc in Hf. unfold full. rewrite Hs. change (MAXFILE * BSIZE) with 272384. change MAXFILE with 266 in Hf. change BSIZE with 1024 in *.
  pose proof (Z.div_mod n 1024 ltac:(done)) as Hd. pose proof (Z.mod_pos_bound n 1024 ltac:(done)) as Hm. assert (0 <= n / 1024 < 4) by (split; [apply Z.div_pos; lia|apply Z.div_lt_upper_bound; lia]).
  split.
  - intros [_ H2]. specialize (H2 (n / 1024) ltac:(lia) ltac:(lia)). apply Hf in H2; lia.
  - intros Hne. split; [lia|]. intros k Hk Hks. apply Hf; lia.
Qed.

Lemma file_full v x top c : file_at v top x c → i_size x = Z.of_nat (length c) → full v x.
Proof.
  intros Hx Hs. pose proof (fa_full _ _ _ _ Hx) as Hf. pose proof (fa_max _ _ _ _ Hx) as Hm. split; [lia|]. intros k Hk Hks.
  apply Hf; [|lia]. split; [done|]. change (MAXFILE * BSIZE) with 272384 in Hm. change MAXFILE with 266. change BSIZE with 1024 in *. lia.
Qed.

Lemma full_ext v v' x : (∀ k, blockno v' x k = blockno v x k) → full v' x ↔ full v x.
Proof. intros Hb. unfold full. by setoid_rewrite Hb. Qed.

(** Writing the size of the root directory. *)
Lemma fix_root_run m v h l : image m v (files_of l) →
  ∃ m1 v1, fix_root 1 (Thread h m) = Ok tt (Thread h m1) ∧ holds m1 v1 ∧ freeblock m1 = freeblock m ∧ v1 1 = sb_block ∧
    (∀ b, 2 <= b < 32 → v1 b = zero_block) ∧
    (∀ j, 0 <= j < 200 → j ≠ 1 → dinode_at v1 sb j = dinode_at v sb j) ∧
    (∀ i t c, files_of l !! i = Some (t, c) →
      let x := ino_at v1 (Z.of_nat i + 1) in
      file_at v1 (freeblock m) x c ∧ (∀ b, owns v1 x b ↔ owns v (ino_at v (Z.of_nat i + 1)) b) ∧
      to_dinode x = Dinode t 0 0 1 (if decide (i = 0%nat) then root_size l else Z.of_nat (length c)) (i_addrs x)).
Proof.
  intros Him. pose proof Him as [Hh Hf Hz Hn Hc Hfl Hdis Hsb Hlog Hrest].
  assert (length (files_of l) = S (length l)) as Lf by (unfold files_of; cbn [length]; by rewrite length_fmap).
  destruct (Hfl 0%nat T_DIR (root_bytes l) eq_refl) as [Hx Ha]. change (Z.of_nat 0 + 1) with 1 in Hx, Ha. set (x := ino_at v 1) in *.
  destruct (rinode_run m v h 1 Hh ltac:(lia)) as (din & Er & Hd). fold x in Hd. destruct (din_size_eq din x Hd) as [Es _].
  pose proof (f_equal d_size Ha) as Hs. cbn [to_dinode d_size] in Hs. rewrite Hs, length_root in Es.
  replace (Z.of_nat (16 * (length l + 2))) with (16 * (Z.of_nat (length l) + 2)) in Es by lia.
  assert (0 <= root_size l < 2 ^ 32) as Hrs.
  { unfold root_size. change BSIZE with 1024. pose proof (Z.div_mod (16 * (Z.of_nat (length l) + 2)) 1024 ltac:(done)). pose proof (Z.mod_pos_bound (16 * (Z.of_nat (length l) + 2)) 1024 ltac:(done)). lia. }
  pose proof (set_size_rep din x (root_size l) Hd Hrs) as [L2 Y2 G2]. set (d2 := set_din_size _ din) in *.
  destruct (winode_run m v h 1 d2 Hh ltac:(lia) L2 Y2) as (li & Ew & H2). assert (IBLOCK 1 sb = 32) as E32 by done.
  assert (∀ b, b ≠ 32 → wino v 1 d2 b = v b) as Hw by (intros b Hb; unfold wino; rewrite E32; by apply fupdz_ne).
  pose proof (wino_same v 1 d2 (hd_ok _ _ Hh _) L2) as E1. rewrite G2 in E1.
  assert (∀ j, 0 <= j < 200 → j ≠ 1 → dinode_at (wino v 1 d2) sb j = dinode_at v sb j) as Hdi.
  { intros j Hj Hne. apply wino_other; try done; try apply Hh; lia. }
  assert (∀ y c b, file_at v (freeblock m) y c → owns v y b → wino v 1 d2 b = v b) as Hv.
  { intros y c b Hy Ho. apply Hw. pose proof (fa_own _ _ _ _ Hy b Ho). lia. }
  exists (set_img li m), (wino v 1 d2). split.
  { unfold fix_root. rewrite (bind_Ok _ _ _ _ _ Er), Es. rewrite u32_small by exact Hrs. exact Ew. }
  split; [done|]. split; [done|]. split; [by rewrite Hw|]. split; [intros b Hb; rewrite Hw by lia; by apply Hlog|]. split; [done|].
  intros i t c Hi. pose proof (lookup_lt_Some _ _ _ Hi) as Hlt. destruct (Hfl i t c Hi) as [Hy Hay]. cbv zeta. set (y := ino_at v (Z.of_nat i + 1)) in *.
  assert (∀ b, owns (wino v 1 d2) y b ↔ owns v y b) as Hoy by (intros b; apply owns_ext; intros Hnz; eapply Hv; [exact Hy|by apply owns_ind]).
  assert (file_at (wino v 1 d2) (freeblock m) y c) as Hy' by (eapply file_at_ext; [apply H2|intros b Hb; by eapply Hv|reflexivity|exact Hy]).
  destruct (decide (i = 0%nat)) as [->|Hne].
  - cbn [files_of lookup list_lookup] in Hi. injection Hi as <- <-. change (Z.of_nat 0 + 1) with 1 in *. fold x in y. subst y.
    assert (i_addrs (ino_at (wino v 1 d2) 1) = i_addrs x) as Ead by (unfold ino_at at 1; rewrite E1; done).
    split; [by apply (file_at_attr _ _ x)|]. split.
    + intros b. rewrite <- Hoy. split; by apply owns_attr.
    + rewrite ino_dinode, E1, Ead. 
      pose proof (f_equal d_type Ha) as T1. pose proof (f_equal d_major Ha) as T2. pose proof (f_equal d_minor Ha) as T3. pose proof (f_equal d_nlink Ha) as T4.
      cbn [to_dinode d_type d_major d_minor d_nlink] in T1, T2, T3, T4. unfold to_dinode. cbn [Fs.with_size i_type i_major i_minor i_nlink i_size i_addrs].
      by rewrite T1, T2, T3, T4.
  - rewrite (ino_ext v) by (apply Hdi; lia). fold y. split; [done|]. split; done.
Qed.

Lemma free_map_run m v h u : holds m v → 46 <= u <= 2000 →
  ∃ m', balloc u (Thread h m) = Ok tt (Thread h m') ∧ length (img m') = 2000%nat ∧ (∀ b, block_ok (view m' b)) ∧
    (∀ b, b ≠ BMAP → view m' b = v b) ∧ ∀ b, 0 <= b < 2000 → used (view m') sb b = (b <? u).
Proof.
  intros [Hl Hv Hm Hok] Hu. destruct (mark_loop_spec (Z.to_nat u) 0 zero_block zero_block_ok ltac:(lia) ltac:(change BPB with 8192; lia)) as [Hbo Hbit].
  eexists. split.
  { unfold balloc. change BPB with 8192. rewrite (proj2 (Z.leb_gt 8192 u)) by lia. cbn [panic_if]. kstep. reflexivity. }
  cbn [st held]. change (sb_bmapstart sb) with BMAP. unfold BMAP in *.
  assert (∀ c, view (set_img (put_block (sector 45) (mark_loop (Z.to_nat u) 0 zero_block) (img m)) m) c =
    fupdz (view m) 45 (mark_loop (Z.to_nat u) 0 zero_block) c) as Ev by (intros c; apply view_put; [done|lia]).
  split; [|split; [|split]].
  - cbn [img set_img]. rewrite length_put; [done|]. rewrite sector_eq; lia.
  - intros b. rewrite Ev. unfold fupdz. destruct (Z.eqb_spec b 45); [done|]. rewrite Hv by done. apply Hok.
  - intros b Hb. rewrite Ev, fupdz_ne by done. by apply Hv.
  - intros b Hb. unfold used. rewrite sb_eq. cbn [sb_bmapstart]. change BPB with 8192. rewrite Z.div_small, Z.mod_small by lia.
    change (0 + 45) with 45. rewrite Ev, fupdz_eq, Hbit by lia. rewrite zero_bit. destruct (Z.ltb_spec b u); [by rewrite decide_True by lia|by rewrite decide_False by lia].
Qed.

Lemma used_min l : 47 <= used_blocks l.
Proof.
  unfold used_blocks. change nmeta with 46. pose proof (blocks_mono 1 (16 * (Z.of_nat (length l) + 2)) ltac:(lia)) as H. change (blocks 1) with 1 in H.
  assert (0 <= foldr (λ (f : list Z * list Z) n, blocks (Z.of_nat (length f.2)) + n) 0 l); [|lia].
  clear H. induction l as [|f l IH]; cbn [foldr]; [lia|]. pose proof (blocks_nonneg (Z.of_nat (length f.2)) ltac:(lia)). lia.
Qed.

(** The end of [main] on an image with the files [l]. *)
Lemma finish_image m v h l : image m v (files_of l) → freeblock m = used_blocks l → used_blocks l <= 2000 →
  ∃ m', (fix_root 1 ;;; let! used := gets freeblock in balloc used) (Thread h m) = Ok tt (Thread h m') ∧
    length (img m') = 2000%nat ∧ built (view m') l.
Proof.
  intros Him Hfb Hroom. destruct (fix_root_run m v h l Him) as (m1 & v1 & E1 & H1 & B1 & S1 & L1 & D1 & F1).
  pose proof (used_min l) as Hmin. destruct (free_map_run m1 v1 h (used_blocks l) H1 ltac:(lia)) as (m2 & E2 & Hlen & Hok & Hv & Hu).
  assert (length (files_of l) = S (length l)) as Lf by (unfold files_of; cbn [length]; by rewrite length_fmap).
  pose proof (im_cnt _ _ _ Him) as Hcnt.
  assert (∀ j, 0 <= j < 200 → ino_at (view m2) j = ino_at v1 j) as Ei.
  { intros j Hj. apply ino_ext, dinode_at_ext, Hv. pose proof (IBLOCK_range j Hj). unfold BMAP. lia. }
  exists m2. split; [|split; [done|]].
  { rewrite (bind_Ok _ _ _ _ _ E1). kstep. cbn [st]. by rewrite B1, Hfb, E2. }
  assert (∀ tx i t c, reaches tx → files_of l !! i = Some (t, c) → let x := ino_at (view m2) (Z.of_nat i + 1) in
    file_at v1 (used_blocks l) x c ∧ file_ok tx sb (view m2) [] x ∧ (∀ b, owns (view m2) x b ↔ owns v (ino_at v (Z.of_nat i + 1)) b) ∧
    (∀ k, blockno (view m2) x k = blockno v1 x k) ∧
    to_dinode x = Dinode t 0 0 1 (if decide (i = 0%nat) then root_size l else Z.of_nat (length c)) (i_addrs x) ∧
    ∀ o, 0 <= o < MAXFILE * BSIZE → fbyte (view m2) x o = default 0 (c !! Z.to_nat o)) as Hall.
  { intros tx i t c Htx Hi. pose proof (lookup_lt_Some _ _ _ Hi). cbv zeta. rewrite Ei by lia. destruct (F1 i t c Hi) as (X1 & X2 & X3). rewrite Hfb in X1.
    destruct (file_final v1 (view m2) (used_blocks l) Hv Hu ltac:(lia) tx _ c Htx X1) as (Y1 & Y2 & Y3 & Y4).
    split; [done|]. split; [done|]. split; [intros b; by rewrite Y2, X2|]. split; [done|]. by split. }
  split; try done.
  - rewrite Hv by done. rewrite S1. apply sb_block_ok.
  - intros b Hb. rewrite Hv by (unfold BMAP; lia). by apply L1.
  - intros tx Htx. apply (fs_final (view m2) (used_blocks l)); [done|lia|done].
  - intros tx k f Htx Hk. destruct (Hall tx (S k) T_FILE f.2 Htx) as (X1 & X2 & _ & X4 & X5 & X6).
    { change ((λ g : list Z * list Z, (T_FILE, g.2)) <$> l !! k = Some (T_FILE, f.2)) || change ((((λ g : list Z * list Z, (T_FILE, g.2)) <$> l) !! k) = Some (T_FILE, f.2)).
      by rewrite list_lookup_fmap, Hk. }
    replace (Z.of_nat (S k) + 1) with (Z.of_nat k + 2) in * by lia. rewrite decide_False in X5 by done. cbv zeta. split; [done|]. split; [|by split].
    apply (full_ext v1); [done|]. apply (file_full _ _ (used_blocks l) f.2); [done|]. exact (f_equal d_size X5).
  - intros tx Htx. destruct (Hall tx 0%nat T_DIR (root_bytes l) Htx eq_refl) as (X1 & X2 & _ & X4 & X5 & X6).
    change (Z.of_nat 0 + 1) with ROOTINO in *. rewrite decide_True in X5 by done. cbv zeta. split; [done|]. split; [|by split].
    rewrite (full_ext v1) by done. apply (root_full _ _ (used_blocks l) (root_bytes l)); [done|rewrite length_root; lia|lia|]. exact (f_equal d_size X5).
  - intros i j b Hi Hj Hne. assert (reaches tx_any) as Ht by done.
    destruct (lookup_lt_is_Some_2 (files_of l) i) as [[ti ci] Hfi]; [lia|]. destruct (lookup_lt_is_Some_2 (files_of l) j) as [[tj cj] Hfj]; [lia|].
    destruct (Hall tx_any i ti ci Ht Hfi) as (_ & _ & Xi & _). destruct (Hall tx_any j tj cj Ht Hfj) as (_ & _ & Xj & _). rewrite Xi, Xj.
    apply (im_disj _ _ _ Him); lia.
  - intros j Hj. assert (0 <= j < 200 ∧ j ≠ 1) as [Hr Hne] by lia. rewrite <- ino_dinode, Ei, ino_dinode, D1 by done. apply (im_rest _ _ _ Him). lia.
Qed.

(** mkfs on arguments that name the files [l] makes a file system of them. *)
Lemma mkfs_builds args l : Forall2 arg_of args l → (length l <= 198)%nat → used_blocks l <= FSSIZE →
  ∃ m, mkfs_image args = Ok tt (Thread [] m) ∧ length (img m) = Z.to_nat FSSIZE ∧ built (view m) l.
Proof.
  intros Hargs Hcnt Hroom. change FSSIZE with 2000 in Hroom. destruct (image0 []) as (m0 & v0 & E0 & I0 & B0).
  destruct (ialloc_run m0 v0 [] [] T_DIR I0 ltac:(cbn; lia) ltac:(by left)) as (m1 & v1 & E1 & I1 & B1). cbn [length app] in E1, I1. change (Z.of_nat 0 + 1) with 1 in E1.
  assert (∀ s, Forall (λ a, is_byte a) (str s) → Forall is_byte (dirent 1 (str s))) as Hdb by (intros s Hs; by apply new_dirent_bytes).
  destruct (iappend_run m1 v1 [] [(T_DIR, [])] 0 T_DIR [] (dirent 1 (str ".")) I1) as (m2 & v2 & E2 & I2 & B2); try done.
  { apply Hdb. repeat constructor; unfold is_byte; vm_compute; intuition congruence. }
  { rewrite app_nil_l, length_dirent, B1, B0. vm_compute. congruence. }
  rewrite app_nil_l in I2, B2. cbn [insert list_insert] in I2.
  destruct (iappend_run m2 v2 [] _ 0 T_DIR (dirent 1 (str ".")) (dirent 1 (str "..")) I2) as (m3 & v3 & E3 & I3 & B3); try done.
  { apply Hdb. repeat constructor; unfold is_byte; vm_compute; intuition congruence. }
  { rewrite B2, B1, B0, length_app, !length_dirent. vm_compute. congruence. }
  change (Z.of_nat 0 + 1) with 1 in E2, E3.
  destruct (add_files_run [] args [] l m3 v3) as (m4 & v4 & E4 & I4 & B4); try done; try (rewrite app_nil_l; done).
  { rewrite B3, B2, B1, B0, !length_app, !length_dirent. reflexivity. }
  rewrite app_nil_l in I4, B4. destruct (finish_image m4 v4 [] l I4 B4 Hroom) as (m5 & E5 & L5 & H5).
  exists m5. split; [|by split]. unfold mkfs_image, main. fold sb_block. rewrite E0, (bind_Ok _ _ _ _ _ E1). change (1 =? ROOTINO) with true. cbn [negb panic_if]. kstep.
  by rewrite (bind_Ok _ _ _ _ _ E2), (bind_Ok _ _ _ _ _ E3), (bind_Ok _ _ _ _ _ E4).
Qed.
