(* ===== verification/MkfsRead.v ===== *)
(** * The kernel reads what mkfs wrote

    A disk with the image that mkfs makes: the kernel comes up on it, its root directory
    is a tree for [namex], and a file opened by name gives the bytes that mkfs was given. *)

From S2P Require Import Prelude Param CString FsDisk Bio Log BlockLayer BlockLog Fs FsBlocks FsInode FsFile FsDir FsPath.
From S2P Require Import FsNamex FsInst FsBoot Mkfs MkfsSpec MkfsKernel.

(** ** The root directory *)

Definition entries (l : list (list Z * list Z)) : list (Z * list Z) :=
  (1, str ".") :: (1, str "..") :: imap (λ k f, (Z.of_nat k + 2, f.1)) l.

Lemma root_entries l : root_bytes l = concat ((λ e, dirent e.1 e.2) <$> entries l).
Proof.
  unfold root_bytes, entries. rewrite !fmap_cons. cbn [concat fst snd]. do 2 f_equal. by rewrite fmap_imap.
Qed.

Lemma length_entries l : length (entries l) = (length l + 2)%nat.
Proof. unfold entries. cbn [length]. rewrite length_imap. lia. Qed.

Lemma concat_chunk (n : nat) (ls : list (list Z)) k x j : Forall (λ y, length y = n) ls → ls !! k = Some x → (j < n)%nat →
  concat ls !! (n * k + j)%nat = x !! j.
Proof.
  intros Hn. revert k; induction Hn as [|y ls Hy _ IH]; intros k Hk Hj; [done|]. cbn [concat]. destruct k as [|k].
  - injection Hk as ->. rewrite Nat.mul_0_r, lookup_app_l by lia. done.
  - rewrite lookup_app_r by lia. rewrite <- (IH k Hk Hj). f_equal. lia.
Qed.

(** An entry of a file whose bytes are known. *)
Lemma dent_bytes f k (x : list Z) : length x = 16%nat → (∀ j, (j < 16)%nat → f (16 * k + Z.of_nat j) = default 0 (x !! j)) → dent f k = x.
Proof.
  intros Hl Hf. apply list_eq. intros j. unfold dent, fbytes. rewrite list_lookup_fmap. destruct (decide (j < 16)%nat) as [Hj|Hj].
  - rewrite lookup_seqZ_lt by lia. cbn [fmap option_fmap option_map]. rewrite Hf by done.
    destruct (lookup_lt_is_Some_2 x j) as [c Hc]; [lia|]. by rewrite Hc.
  - rewrite lookup_seqZ_ge by lia. rewrite lookup_ge_None_2 by lia. done.
Qed.

Lemma dirent_new i n : 0 <= i < 2 ^ 16 → dirent i n = new_dirent n i.
Proof. intros Hi. unfold dirent. by rewrite xshort_id. Qed.

Section root.
Context (tx : txinfo) (v : Z → block) (l : list (list Z * list Z)).
Hypothesis Htx : reaches tx.
Hypothesis Hb : built v l.
Hypothesis Hcnt : (length l <= 198)%nat.
Let root := ino_at v ROOTINO.

Lemma root_dent k e : entries l !! k = Some e → dent (fbyte v root) (Z.of_nat k) = dirent e.1 e.2.
Proof.
  intros Hk. pose proof (lookup_lt_Some _ _ _ Hk) as Hlt. rewrite length_entries in Hlt. destruct (bt_root _ _ Hb tx Htx) as (_ & _ & _ & Hby).
  apply dent_bytes; [apply length_dirent|]. intros j Hj. subst root. rewrite Hby by (change (MAXFILE * BSIZE) with 272384; lia).
  replace (Z.to_nat (16 * Z.of_nat k + Z.of_nat j)) with (16 * k + j)%nat by lia. f_equal. rewrite root_entries. apply concat_chunk; [|by rewrite list_lookup_fmap, Hk|done].
  apply Forall_fmap, Forall_forall. intros x _. apply length_dirent.
Qed.

Lemma root_size_bound : 16 * (Z.of_nat (length l) + 2) < root_size l <= 4096.
Proof.
  unfold root_size. change BSIZE with 1024. pose proof (Z.div_mod (16 * (Z.of_nat (length l) + 2)) 1024 ltac:(done)).
  pose proof (Z.mod_pos_bound (16 * (Z.of_nat (length l) + 2)) 1024 ltac:(done)). lia.
Qed.

(** The rest of the last block has free entries. *)
Lemma root_free k : Z.of_nat (length l) + 2 <= k < 256 → de_inum (dent (fbyte v root) k) = 0.
Proof.
  intros Hk. destruct (bt_root _ _ Hb tx Htx) as (_ & _ & _ & Hby).
  assert (dent (fbyte v root) k = replicate 16 0) as ->; [|done]. apply dent_bytes; [done|]. intros j Hj.
  subst root. rewrite Hby by (change (MAXFILE * BSIZE) with 272384; lia). rewrite lookup_ge_None_2 by (rewrite length_root; lia). by rewrite lookup_replicate_2.
Qed.

Lemma root_attr : i_type root = T_DIR ∧ i_size root = root_size l ∧ i_nlink root = 1.
Proof.
  destruct (bt_root _ _ Hb tx Htx) as (_ & _ & E & _). split; [exact (f_equal d_type E)|]. split; [exact (f_equal d_size E)|exact (f_equal d_nlink E)].
Qed.

Lemma entry_cases k e : entries l !! k = Some e →
  (e.1 = 1 ∧ (e.2 = str "." ∨ e.2 = str "..")) ∨ ∃ i f, k = (i + 2)%nat ∧ l !! i = Some f ∧ e.1 = Z.of_nat i + 2 ∧ e.2 = f.1.
Proof.
  destruct k as [|[|k]]; cbn [entries lookup list_lookup]; [injection 1 as <-; auto|injection 1 as <-; auto|].
  intros Hk. right.
  assert (imap (λ k (f : list Z * list Z), (Z.of_nat k + 2, f.1)) l !! k = Some e) as Hk' by exact Hk. rewrite list_lookup_imap in Hk'.
  destruct (l !! k) as [f|] eqn:Ef; [|done]. injection Hk' as <-. exists k, f. split; [lia|done].
Qed.

(** The type of an inode says which one it is. *)
Lemma built_type j : 0 <= j < 200 → type_of v Mkfs.sb j = 
  (if j =? 1 then T_DIR else if (2 <=? j) && (j <=? Z.of_nat (length l) + 1) then T_FILE else 0).
Proof.
  intros Hj. destruct (Z.eqb_spec j 1) as [->|Hne]; [apply root_attr|].
  destruct (Z.leb_spec 2 j); cbn [andb]; [destruct (Z.leb_spec j (Z.of_nat (length l) + 1)); cbn [andb]|].
  - destruct (lookup_lt_is_Some_2 l (Z.to_nat (j - 2))) as [f Hf]; [lia|]. destruct (bt_file _ _ Hb tx _ f Htx Hf) as (_ & _ & E & _).
    rewrite Z2Nat.id in E by lia. replace (j - 2 + 2) with j in E by lia. exact (f_equal d_type E).
  - apply (bt_rest _ _ Hb). lia.
  - apply (bt_rest _ _ Hb). lia.
Qed.

(** The image is a tree, unless the entries fill their last block: then mkfs gives the
    root directory a block too many in its size. *)
Lemma built_tree : 16 * (Z.of_nat (length l) + 2) mod BSIZE ≠ 0 → tree tx Mkfs.sb v [].
Proof.
  intros Hmod. destruct root_attr as (Rt & Rs & Rn). pose proof root_size_bound as Hrs. change (sb_ninodes Mkfs.sb) with 200. split; change (sb_ninodes Mkfs.sb) with 200.
  - rewrite built_type by (unfold ROOTINO; lia). done.
  - intros j Hj Ht. rewrite built_type in Ht by done. destruct (Z.eqb_spec j 1) as [->|Hne]; [by rewrite <- ino_dinode; unfold root, ROOTINO in Rn; cbn [to_dinode d_nlink]; rewrite Rn|].
    destruct (Z.leb_spec 2 j); cbn [andb] in Ht; [|done]. destruct (Z.leb_spec j (Z.of_nat (length l) + 1)); [|done].
    destruct (lookup_lt_is_Some_2 l (Z.to_nat (j - 2))) as [f Hf]; [lia|]. destruct (bt_file _ _ Hb tx _ f Htx Hf) as (_ & _ & E & _).
    rewrite Z2Nat.id in E by lia. replace (j - 2 + 2) with j in E by lia. rewrite <- ino_dinode. by rewrite E.
  - intros j Hj Ht. rewrite built_type in Ht by done. assert (j = ROOTINO) as ->.
    { unfold ROOTINO. destruct (Z.eqb_spec j 1); [done|]. destruct ((2 <=? j) && _); done. }
    change (disk_inode v Mkfs.sb ROOTINO) with root. destruct (bt_root _ _ Hb tx Htx) as (Rf & Ru & _ & _). fold root in Rf, Ru. cbv zeta.
    split; [done|]. split; [by apply Ru|]. split.
    + rewrite Rs. unfold root_size. change BSIZE with 1024. replace (_ * 1024) with ((16 * (Z.of_nat (length l) + 2) / 1024 + 1) * 64 * 16) by lia. by apply Z.mod_mul.
    + intros k Hk. unfold nents in Hk. rewrite Rs in Hk. assert (root_size l / 16 <= 256) by (apply Z.div_le_upper_bound; lia).
      destruct (decide (k < Z.of_nat (length l) + 2)) as [Hlt|Hge].
      * destruct (lookup_lt_is_Some_2 (entries l) (Z.to_nat k)) as [e He]; [rewrite length_entries; lia|].
        rewrite <- (Z2Nat.id k) by lia. rewrite (root_dent _ _ He). intros _.
        destruct (entry_cases _ _ He) as [(E1 & _)|(i & f & Ek & Hf & E1 & _)]; rewrite E1.
        -- rewrite dirent_new, new_dirent_inum by lia. rewrite built_type by lia. split; [lia|done].
        -- apply lookup_lt_Some in Hf. rewrite dirent_new, new_dirent_inum by lia. split; [lia|].
           rewrite built_type by lia. rewrite (proj2 (Z.eqb_neq _ _)), (proj2 (Z.leb_le 2 _)), (proj2 (Z.leb_le _ _)) by lia. done.
      * rewrite root_free by lia. done.
Qed.

Lemma cname_id n : Forall (λ c, 0 < c < 256) n → (length n <= 14)%nat → cname n = n.
Proof.
  intros Hn Hl. unfold cname. assert (until_nul n = n) as ->; [|by apply take_ge].
  rewrite <- (app_nil_r n) at 1. apply (take_while_replicate 0). eapply Forall_impl; [exact Hn|cbn; lia].
Qed.

Lemma names_dirent i n m : Forall is_byte m → 0 < i < 2 ^ 16 → names (dirent i m) n = bool_decide (cname n = cname m).
Proof.
  intros Hm Hi. unfold names. rewrite dirent_new by lia. rewrite new_dirent_inum, new_dirent_name, (cname_copy _ _ Hm) by lia.
  by rewrite (proj2 (Z.eqb_neq _ _)) by lia.
Qed.

(** The first file of a name is the one that is found. *)
Lemma root_lookup k n bs : l !! k = Some (n, bs) → (∀ i f, (i < k)%nat → l !! i = Some f → f.1 ≠ n) → n ≠ str "." → n ≠ str ".." →
  Forall (λ f, Forall (λ c, 0 < c < 256) f.1 ∧ (length f.1 <= 14)%nat) l →
  dir_map v root n = Some (Z.of_nat k + 2).
Proof.
  intros Hk Hfirst H1 H2 Hl. pose proof (lookup_lt_Some _ _ _ Hk) as Hlt. rewrite Forall_lookup in Hl. destruct (Hl k _ Hk) as [Hn Hn14]. cbn [fst] in *.
  assert (∀ m, Forall (λ c, 0 < c < 256) m → Forall is_byte m) as Hbyte by (intros m Hm; eapply Forall_impl; [exact Hm|unfold is_byte; cbn; lia]).
  assert (entries l !! (k + 2)%nat = Some (Z.of_nat k + 2, n)) as Hent.
  { replace (k + 2)%nat with (S (S k)) by lia. change (imap (λ k (f : list Z * list Z), (Z.of_nat k + 2, f.1)) l !! k = Some (Z.of_nat k + 2, n)).
    by rewrite list_lookup_imap, Hk. }
  destruct root_attr as (_ & Rs & _). pose proof root_size_bound as Hrs.
  assert (Z.of_nat (length l) + 2 <= Z.of_nat (nents root)) as Hne.
  { unfold nents. rewrite Rs. rewrite Z2Nat.id by (apply Z.div_pos; lia). apply Z.div_le_lower_bound; lia. }
  assert (names (dent (fbyte v root) (Z.of_nat (k + 2))) n = true) as Hyes.
  { rewrite (root_dent _ _ Hent). cbn [fst snd]. rewrite names_dirent by (auto || lia). by apply bool_decide_true. }
  assert (∀ i, 0 <= i < Z.of_nat (k + 2) → names (dent (fbyte v root) i) n = false) as Hno.
  { intros i Hi. destruct (lookup_lt_is_Some_2 (entries l) (Z.to_nat i)) as [e He]; [rewrite length_entries; lia|].
    rewrite <- (Z2Nat.id i), (root_dent _ _ He) by lia.
    destruct (entry_cases _ _ He) as [(E1 & E2)|(j & f & Ej & Hf & E1 & E2)].
    - rewrite names_dirent by (lia || (destruct E2 as [-> | ->]; apply str_bytes)). apply bool_decide_false. rewrite cname_id by done. by destruct E2 as [-> | ->].
    - pose proof (lookup_lt_Some _ _ _ Hf). destruct (Hl j f Hf). rewrite names_dirent by (lia || (rewrite E2; auto)). apply bool_decide_false. rewrite E2, !cname_id by done. intros E. apply (Hfirst j f); [lia|done|done]. }
  unfold dir_map. pose proof (dir_find_spec (λ de, names de n) (fbyte v root) (nents root) 0) as Hf. destruct (dir_find _ _ _ _) as [i|].
  - destruct Hf as (Hi & Hy & Hb'). cbn [fmap option_fmap option_map]. f_equal.
    assert (i = Z.of_nat (k + 2)) as ->.
    { destruct (Z.lt_trichotomy i (Z.of_nat (k + 2))) as [Hl'|[->|Hg]]; [|done|].
      - rewrite Hno in Hy by lia. done.
      - rewrite Hb' in Hyes by lia. done. }
    rewrite (root_dent _ _ Hent). cbn [fst snd]. rewrite dirent_new, new_dirent_inum by lia. done.
  - rewrite Hf in Hyes by lia. done.
Qed.
End root.

(** ** The kernel on the image *)

Lemma hdr_zero : hdr_block zero_block [] = zero_block.
Proof. vm_compute. reflexivity. Qed.

(** The kernel comes up on the image; a file system call can begin. *)
Lemma boot_image v l : built v l → ∃ s b g,
  boot (Thread [] (power_on v)) = Ok (Some 0%nat) (Thread [] (Fs (LState s g) Mkfs.sb root_table [])) ∧
  idle s b g ∧ lg_size g = LOGSIZE ∧ reaches (idle_tx s g) ∧
  settled (idle_tx s g) Mkfs.sb v [] [] (Fs (LState s (with_outstanding 1 g)) Mkfs.sb root_table []).
Proof.
  intros Hb. pose proof (bt_sb _ _ Hb) as Esb. pose proof (bt_log _ _ Hb 2 ltac:(lia)) as E2.
  destruct (boot_run v (bt_blk _ _ Hb) []) as (s & b & g & E & Hid & Hst & Hsz & Hd).
  - by rewrite Esb.
  - rewrite Esb. apply log2_ok.
  - rewrite Esb. change (sb_logstart Mkfs.sb) with 2. rewrite E2. apply zdisk_header.
  - rewrite Esb. vm_compute. congruence.
  - constructor.
  - constructor.
  - rewrite Esb in *. change (sb_logstart Mkfs.sb) with 2 in *. change (sb_nlog Mkfs.sb) with LOGSIZE in *. exists s, b, g. split; [exact E|]. split; [done|]. split; [done|].
    assert (reaches (idle_tx s g)) as Hre by (intros c Hc; apply home2; [done|done|lia]). split; [done|].
    destruct (begin_rep s b g Hid) as [_ Hr]. split; [|done| |].
    + unfold frep. cbn [f_blk]. eapply brep_ext; [exact Hr|]. intros c. rewrite Hd.
      change (v c = zupd v 2 (hdr_block (v 2) []) c). rewrite E2, hdr_zero, zupd_if. destruct (Z.eqb_spec c 2) as [->|]; [by rewrite E2|done].
    + apply table5_ok. done.
    + intros i x Hx Hrx. cbn [f_itable] in Hx. destruct (table5_lookup (with_entry ROOTDEV ROOTINO inode0) i x Hx) as [[_ ->]| ->]; [|destruct (Z.lt_irrefl 0 Hrx)]. cbn [with_entry i_inum i_dev i_valid].
      split; cbn [with_entry i_inum i_dev i_valid]; [reflexivity|change (sb_ninodes Mkfs.sb) with 200; unfold ROOTINO; lia| |discriminate].
      destruct (root_attr (idle_tx s g) v l Hre Hb) as (Et & _). unfold type_of. rewrite <- ino_dinode. cbn [to_dinode d_type]. by rewrite Et.
Qed.

(** A file that is opened, read from the start and closed. *)
Definition fetch (cwd : nat) (path : list Z) (n : Z) : M (fs lstate) (option (Z * list Z)) :=
  let! r := namei cwd path in
  match r with
  | None => ret None
  | Some ip =>
      ilock (Some ip) ;;;
      let! r := readi local_out ip (replicate (Z.to_nat n) 0) 0 0 n in
      iunlockput ip ;;;
      ret (Some r)
  end.

Lemma fbytes_all f (c : list Z) : (∀ o, 0 <= o < Z.of_nat (length c) → f o = default 0 (c !! Z.to_nat o)) → fbytes f 0 (Z.of_nat (length c)) = c.
Proof.
  intros Hf. apply list_eq. intros j. unfold fbytes. rewrite list_lookup_fmap. destruct (decide (j < length c)%nat) as [Hj|Hj].
  - rewrite lookup_seqZ_lt by lia. cbn [fmap option_fmap option_map]. rewrite Hf by lia. destruct (lookup_lt_is_Some_2 c j Hj) as [x Hx].
    by rewrite Z.add_0_l, Nat2Z.id, Hx.
  - rewrite lookup_seqZ_ge, lookup_ge_None_2 by lia. done.
Qed.

Section fetch.
Context (v : Z → block) (l : list (list Z * list Z)).
Hypothesis Hb : built v l.
Hypothesis Hcnt : (length l <= 198)%nat.
Hypothesis Hmod : 16 * (Z.of_nat (length l) + 2) mod BSIZE ≠ 0.
Hypothesis Hname : Forall (λ f, Forall (λ c, 0 < c < 256) f.1 ∧ (length f.1 <= 14)%nat) l.
Hypothesis Hsize : Forall (λ f, Z.of_nat (length f.2) <= MAXFILE * BSIZE) l.

(** Inside a transaction: the bytes of the first file of the name. *)
Lemma fetch_run tx s y k n bs : reaches tx → settled tx Mkfs.sb v [] [] s → (length (in_use (f_itable s)) + 2 <= 50)%nat →
  f_itable s !! 0%nat = Some y → 0 < i_ref y →
  l !! k = Some (n, bs) → (∀ i f, (i < k)%nat → l !! i = Some f → f.1 ≠ n) → n ≠ [] → slash ∉ n → n ≠ str "." → n ≠ str ".." →
  ∃ s', fetch 0 (slash :: n) (Z.of_nat (length bs)) (Thread [] s) = Ok (Some (Z.of_nat (length bs), bs)) (Thread [] s') ∧ settled tx Mkfs.sb v [] [] s'.
Proof.
  intros Htx Hs Huse Hy Hry Hk Hfirst Hne Hsl H1 H2. pose proof (lookup_lt_Some _ _ _ Hk) as Hlt.
  pose proof (proj1 (Forall_lookup _ _) Hname k _ Hk) as [Hn Hn14]. pose proof (proj1 (Forall_lookup _ _) Hsize k _ Hk) as Hsz. cbn [fst snd] in *.
  change (MAXFILE * BSIZE) with 272384 in Hsz.
  assert (inodes_ok tx Mkfs.sb []) as Hio by (by destruct (bt_fs _ _ Hb tx Htx)). pose proof (built_tree tx v l Htx Hb Hcnt Hmod) as Htree.
  pose proof (namex_run tx Mkfs.sb v [] Hio Htree ltac:(cbn; lia) [] s 0%nat y (slash :: n) false (replicate (Z.to_nat DIRSIZ) 0) Hs) as N.
  rewrite bool_decide_true in N by done. rewrite elems_slash in N.
  assert (elems n = [n]) as En.
  { rewrite <- (app_nil_r n) at 1. rewrite elems_app; [done| |done|by left]. apply Forall_forall. intros c Hc ->. done. }
  rewrite En in N. unfold path_inode in N. cbn [resolve] in N. unfold child in N. rewrite (built_type tx v l) in N by (done || (unfold ROOTINO; lia)).
  change (disk_inode v Mkfs.sb ROOTINO) with (ino_at v ROOTINO) in N. cbn [Z.eqb ROOTINO Pos.eqb] in N. change (T_DIR =? T_DIR) with true in N. cbv iota in N.
  rewrite (root_lookup tx v l Htx Hb Hcnt k n bs Hk Hfirst H1 H2 Hname) in N.
  destruct N as (ip & nm & s1 & E1 & S1 & (x & Hx & Hrx & Hdx & Hix) & _); try done.
  { apply not_elem_of_nil. }
  { intros i. apply not_elem_of_nil. }
  { constructor; [unfold slash; lia|done]. }
  { apply Forall_replicate. unfold is_byte. lia. }
  destruct (ilock_step tx Mkfs.sb v [] Hio ltac:(cbn; lia) [] s1 ip x S1 Hx Hrx (not_elem_of_nil _)) as (s2 & x2 & E2 & S2 & X2 & V2 & R2 & I2 & _).
  rewrite Hix in I2. assert (0 < i_ref x2) as Hr2 by lia. pose proof (sd_ent _ _ _ _ _ _ S2 ip x2 X2 Hr2) as He.
  destruct (loaded_attr _ _ x2 He V2) as (At & As & Aa). rewrite I2 in At, As, Aa. destruct (bt_file _ _ Hb tx k _ Htx Hk) as (Ff & Fu & Fd & Fb). cbn [fst snd] in *.
  change (disk_inode v Mkfs.sb (Z.of_nat k + 2)) with (ino_at v (Z.of_nat k + 2)) in As, Aa. pose proof (f_equal d_size Fd) as Fs. cbn [to_dinode d_size] in Fs.
  assert (read_len (i_size x2) 0 (Z.of_nat (length bs)) = Z.of_nat (length bs)) as Erl by (unfold read_len; rewrite As, Fs; destruct (Z.ltb_spec 0 (Z.of_nat (length bs))); lia).
  pose proof (readi_local tx [SL_inode ip] s2 v [] [] ip x2 (replicate (length bs) 0) 0 (Z.of_nat (length bs)) (sd_rep _ _ _ _ _ _ S2)) as R. cbv zeta in R. rewrite Erl in R.
  destruct R as (s3 & E3 & M3 & R3); try done.
  { rewrite (sd_sb _ _ _ _ _ _ S2). by eapply file_ok_attr. }
  { by eapply full_attr. }
  { cbn; lia. }
  { apply He. }
  1-2: lia.
  { rewrite length_replicate. lia. }
  assert (settled tx Mkfs.sb v [] [SL_inode ip] s3) as S3 by (by eapply settled_mem).
  assert (f_itable s3 !! ip = Some x2) as X3 by (by rewrite (same_mem_itable _ _ M3)).
  destruct (iunlockput_step tx Mkfs.sb v [] Htree ltac:(cbn; lia) [] s3 ip x2 S3 X3 Hr2 (not_elem_of_nil _)) as (s4 & E4 & S4 & _).
  exists s4. split; [|exact S4]. unfold fetch, namei. rewrite (bind_Ok _ _ _ (Some ip) (Thread [] s1)) by (by rewrite (bind_Ok _ _ _ _ _ E1)).
  rewrite (bind_Ok _ _ _ _ _ E2), Nat2Z.id, (bind_Ok _ _ _ _ _ E3), (bind_Ok _ _ _ _ _ E4). unfold ret. do 3 f_equal.
  rewrite fbytes_all.
  - unfold splice. rewrite take_0, drop_ge by (rewrite length_replicate; lia). by rewrite app_nil_r.
  - intros o Ho. rewrite (fbyte_attr v (ino_at v (Z.of_nat k + 2)) x2) by done. apply Fb. change (MAXFILE * BSIZE) with 272384. lia.
Qed.
End fetch.

Lemma shortname_noslash p n : shortname p = Some n → slash ∉ n.
Proof.
  unfold shortname. set (s := if bool_decide (take 5 p = _) then _ else p). case_bool_decide as Hs; [done|]. intros [= <-].
  case_bool_decide; [|done]. intros Hin. apply Hs. destruct s as [|c s]; [done|]. apply elem_of_cons. by right.
Qed.

Lemma args_names args l : Forall2 arg_of args l →
  Forall (λ f, Forall (λ c, 0 < c < 256) f.1 ∧ (length f.1 <= 14)%nat) l ∧ Forall (λ f, Z.of_nat (length f.2) <= MAXFILE * BSIZE) l ∧ Forall (λ f, slash ∉ f.1) l.
Proof.
  induction 1 as [|a f args l (r & _ & Hs & _ & _ & H1 & H2 & H3) _ (I1 & I2 & I3)]; [done|].
  split_and!; constructor; try done. by eapply shortname_noslash.
Qed.

(** C8: what mkfs writes, the kernel reads.  Whatever files mkfs is given (short names
    without a slash; their blocks fit, and the root directory's entries do not fill their
    last block), it makes an image; the kernel comes up on a disk with this image, taking
    the superblock from it and finding nothing to recover; and a file system call that
    looks up "/name" in the root directory, locks the inode and reads from its start gets
    all the bytes of the first file of this name and no other. *)
Theorem mkfs_kernel_reads args l k n bs :
  Forall2 arg_of args l → (length l <= 198)%nat → used_blocks l <= FSSIZE → 16 * (Z.of_nat (length l) + 2) mod BSIZE ≠ 0 →
  l !! k = Some (n, bs) → (∀ i f, (i < k)%nat → l !! i = Some f → f.1 ≠ n) → n ≠ [] → n ≠ str "." → n ≠ str ".." →
  ∃ m s1 s2, mkfs_image args = Ok tt (Thread [] m) ∧
    boot (Thread [] (power_on (view m))) = Ok (Some 0%nat) (Thread [] s1) ∧
    fs_call (fetch 0 (slash :: n) (Z.of_nat (length bs))) (Thread [] s1) = Ok (Some (Z.of_nat (length bs), bs)) (Thread [] s2).
Proof.
  intros Hargs Hcnt Hroom Hmod Hk Hfirst Hne H1 H2. destruct (args_names _ _ Hargs) as (N1 & N2 & N3).
  destruct (mkfs_builds args l Hargs Hcnt Hroom) as (m & Em & _ & Hb). destruct (boot_image _ _ Hb) as (s & b & g & Eb & Hid & _ & Hre & Hs).
  assert (slash ∉ n) as Hsl by exact (proj1 (Forall_lookup _ _) N3 k _ Hk).
  destruct (fetch_run (view m) l Hb Hcnt Hmod N1 N2 (idle_tx s g) _ (with_entry ROOTDEV ROOTINO inode0) k n bs Hre Hs) as (s2 & E2 & S2);
    [apply Nat.leb_le; vm_compute; reflexivity|reflexivity|done|done|done|done|done|done|done|].
  destruct (fs_call_run _ s b g _ _ _ _ s2 (view m) [] Hid E2 (sd_rep _ _ _ _ _ _ S2)) as (s' & l' & g' & w & E & _). eauto 10.
Qed.

(** ** Two files *)

Definition cat_bytes : list Z := replicate 1024 7 ++ replicate 476 8.
Definition two_files : list (list Z * list Z) := [(str "cat", cat_bytes); (str "README", [72; 105])].
Definition two_args : list (list Z * option (list (list Z))) :=
  [(str "user/_cat", Some [replicate 1024 7; replicate 476 8]); (str "README", Some [[72; 105]])].

Lemma two_args_of : Forall2 arg_of two_args two_files.
Proof.
  assert (∀ n (c : Z), is_byte c → Forall is_byte (replicate n c)) as Hr by (intros; by apply Forall_replicate).
  repeat constructor.
  - exists [replicate 1024 7; replicate 476 8]. split; [done|]. split; [vm_compute; reflexivity|]. split; [cbn [concat]; by rewrite app_nil_r|].
    split; [repeat constructor; try done; apply Hr; unfold is_byte; lia|]. split; [vm_compute; lia|]. split; [repeat constructor; lia|]. vm_compute. congruence.
  - exists [[72; 105]]. split; [done|]. split; [vm_compute; reflexivity|]. split; [done|].
    split; [repeat constructor; try done; unfold is_byte; lia|]. split; [vm_compute; lia|]. split; [repeat constructor; lia|]. vm_compute. congruence.
Qed.

Lemma two_first i f : (i < 1)%nat → two_files !! i = Some f → f.1 ≠ str "README".
Proof. intros Hi Hf. replace i with 0%nat in Hf by lia. injection Hf as <-. vm_compute. congruence. Qed.

Lemma mkfs_kernel_reads_witness :
  ∃ m s1 s2, mkfs_image two_args = Ok tt (Thread [] m) ∧
    boot (Thread [] (power_on (view m))) = Ok (Some 0%nat) (Thread [] s1) ∧
    fs_call (fetch 0 (str "/README") 2) (Thread [] s1) = Ok (Some (2, [72; 105])) (Thread [] s2).
Proof.
  exact (mkfs_kernel_reads two_args two_files 1 (str "README") [72; 105] two_args_of ltac:(cbn; lia) ltac:(vm_compute; congruence) ltac:(vm_compute; congruence)
    eq_refl two_first ltac:(done) ltac:(done) ltac:(done)).
Defined.

(** With 62 files the size that mkfs gives the root directory reaches into a block that
    the directory does not have. *)
Lemma root_overrun v l tx : reaches tx → built v l → length l = 62%nat → ¬ full v (ino_at v ROOTINO) ∧ i_size (ino_at v ROOTINO) = 2048.
Proof.
  intros Htx Hb Hl. destruct (bt_root _ _ Hb tx Htx) as (_ & Hf & Ed & _). pose proof (f_equal d_size Ed) as Es. cbn [to_dinode d_size] in Es.
  unfold root_size in Es. rewrite Hl in Hf, Es. split; [|exact Es]. rewrite Hf. intros H. by apply H.
Qed.

Lemma two_built : ∃ m, mkfs_image two_args = Ok tt (Thread [] m) ∧ built (view m) two_files.
Proof.
  destruct (mkfs_builds two_args two_files two_args_of) as (m & E & _ & Hb); [cbn; lia|vm_compute; congruence|]. exists m. exact (conj E Hb).
Qed.

Lemma two_path v : built v two_files → path_inode v Mkfs.sb false ROOTINO (elems (str "/README")) = Some 3 ∧
  path_inode v Mkfs.sb true ROOTINO (elems (str "/README")) = Some ROOTINO.
Proof.
  intros Hb. assert (reaches tx_any) as Ht by (intros b _; exact I). assert (length two_files <= 198)%nat as Hcnt by (apply Nat.leb_le; reflexivity).
  assert (elems (str "/README") = [str "README"]) as -> by (vm_compute; reflexivity). unfold path_inode. cbn [resolve removelast]. unfold child.
  rewrite (built_type tx_any v two_files Ht Hb Hcnt ROOTINO) by (unfold ROOTINO; lia). change (disk_inode v Mkfs.sb ROOTINO) with (ino_at v ROOTINO).
  change (T_DIR =? T_DIR) with true. cbn [Z.eqb ROOTINO Pos.eqb]. cbv iota. split; [|done].
  by rewrite (root_lookup tx_any v two_files Ht Hb Hcnt 1 (str "README") [72; 105] eq_refl two_first ltac:(by vm_compute) ltac:(by vm_compute) (proj1 (args_names _ _ two_args_of))).
Qed.

(** The file and its directory on the image of the two files. *)
Lemma namex_correct_witness :
  ∃ m s, mkfs_image two_args = Ok tt (Thread [] m) ∧
    (∃ ip nm s', namex 0 (str "/README") false (replicate 14 0) (Thread [] s) = Ok (Some (ip, nm)) (Thread [] s') ∧ entry_of (f_itable s') ROOTDEV 3 ip) ∧
    ∃ ip nm s', namex 0 (str "/README") true (replicate 14 0) (Thread [] s) = Ok (Some (ip, nm)) (Thread [] s') ∧ entry_of (f_itable s') ROOTDEV ROOTINO ip ∧
      name_holds nm (str "README").
Proof.
  destruct two_built as (m & Em & Hb). destruct (boot_image _ _ Hb) as (s & b & g & _ & _ & _ & Hre & Hs). destruct (two_path _ Hb) as [P1 P2].
  pose proof (built_tree (idle_tx s g) _ _ Hre Hb ltac:(cbn; lia) ltac:(vm_compute; congruence)) as Ht. destruct (bt_fs _ _ Hb _ Hre) as [_ Hio _].
  exists m. eexists. split; [exact Em|]. split.
  - pose proof (namex_correct (idle_tx s g) Mkfs.sb (view m) [] [] _ 0 (with_entry ROOTDEV ROOTINO inode0) (str "/README") false (replicate 14 0)
      Hio Ht ltac:(cbn; lia) Hs (not_elem_of_nil _) (λ i, not_elem_of_nil _) ltac:(apply Nat.leb_le; vm_compute; reflexivity) eq_refl ltac:(reflexivity)
      ltac:(vm_compute; repeat constructor) eq_refl ltac:(repeat constructor; unfold is_byte; lia)) as N.
    cbv zeta in N. rewrite bool_decide_true, P1 in N by reflexivity. destruct N as (ip & nm & s' & E & _ & Hen & _). exists ip, nm, s'. split; [exact E|exact Hen].
  - pose proof (namex_correct (idle_tx s g) Mkfs.sb (view m) [] [] _ 0 (with_entry ROOTDEV ROOTINO inode0) (str "/README") true (replicate 14 0)
      Hio Ht ltac:(cbn; lia) Hs (not_elem_of_nil _) (λ i, not_elem_of_nil _) ltac:(apply Nat.leb_le; vm_compute; reflexivity) eq_refl ltac:(reflexivity)
      ltac:(vm_compute; repeat constructor) eq_refl ltac:(repeat constructor; unfold is_byte; lia)) as N.
    cbv zeta in N. rewrite bool_decide_true, P2 in N by reflexivity. destruct N as (ip & nm & s' & E & _ & Hen & _ & Hnm). exists ip, nm, s'. split; [exact E|]. split; [exact Hen|].
    destruct (Hnm eq_refl) as (e & He & Hh). vm_compute in He. injection He as <-. exact Hh.
Defined.
