(* ===== verification/Pipe.v ===== *)
(** * pipe.c: pipes

    A pipe lives in a page of its own, named by its address [pi].  What pipe.c
    needs of the rest of the kernel (user memory of the calling process, whether
    it was killed, waking sleepers, giving the page back) is the interface
    [PipeEnv]; the kernel's state implements it in Kernel.v. *)

From S2P Require Import Prelude.

Definition PIPESIZE : Z := 512.

Record pipe := Pipe {
  pi_data : list Z;
  pi_nread : Z;           (* number of bytes read *)
  pi_nwrite : Z;          (* number of bytes written *)
  pi_readopen : bool;
  pi_writeopen : bool }.

(** What a process sleeps on: [&pi->nread] or [&pi->nwrite]. *)
Inductive pipe_chan := PNread | PNwrite.

Class PipeEnv (S : Type) := {
  get_pipe : Z → S → pipe;
  set_pipe : Z → pipe → S → S;
  pipe_killed : M S bool;                        (* killed(myproc()) *)
  pipe_copyin : Z → M S (option Z);              (* one byte of user memory *)
  pipe_copyout : Z → Z → M S bool;
  pipe_wakeup : Z → pipe_chan → M S unit;
  pipe_kfree : Z → M S unit }.

Definition set_data (i : nat) (c : Z) (p : pipe) : pipe :=
  Pipe (<[i := c]> (pi_data p)) (pi_nread p) (pi_nwrite p) (pi_readopen p) (pi_writeopen p).
Definition set_nread (n : Z) (p : pipe) : pipe :=
  Pipe (pi_data p) n (pi_nwrite p) (pi_readopen p) (pi_writeopen p).
Definition set_nwrite (n : Z) (p : pipe) : pipe :=
  Pipe (pi_data p) (pi_nread p) n (pi_readopen p) (pi_writeopen p).
Definition set_readopen (b : bool) (p : pipe) : pipe :=
  Pipe (pi_data p) (pi_nread p) (pi_nwrite p) b (pi_writeopen p).
Definition set_writeopen (b : bool) (p : pipe) : pipe :=
  Pipe (pi_data p) (pi_nread p) (pi_nwrite p) (pi_readopen p) b.

(** [pi->data[pi->nwrite++ % PIPESIZE] = ch;] *)
Definition put (ch : Z) (p : pipe) : pipe :=
  set_nwrite (u32 (pi_nwrite p + 1)) (set_data (Z.to_nat (pi_nwrite p mod PIPESIZE)) ch p).

(** [ch = pi->data[pi->nread++ % PIPESIZE];] *)
Definition next_byte (p : pipe) : Z := default 0 (pi_data p !! Z.to_nat (pi_nread p mod PIPESIZE)).
Definition advance (p : pipe) : pipe := set_nread (u32 (pi_nread p + 1)) p.

(** [pi->nwrite == pi->nread + PIPESIZE] *)
Definition full (p : pipe) : bool := pi_nwrite p =? u32 (pi_nread p + PIPESIZE).
Definition empty (p : pipe) : bool := pi_nread p =? pi_nwrite p.

(** What [pipealloc] stores into a fresh page; the data is whatever was there. *)
Definition init_pipe (data : list Z) : pipe := Pipe data 0 0 true true.

Section pipe.
Context {S : Type} `{PipeEnv S}.

Definition updp (pi : Z) (f : pipe → pipe) : M S unit := modify (λ s, set_pipe pi (f (get_pipe pi s)) s).
Definition readp {A} (pi : Z) (f : pipe → A) : M S A := gets (λ s, f (get_pipe pi s)).

Definition pipeclose (pi : Z) (writable : bool) : M S unit :=
  acquire (L_pipe pi) ;;;
  (if writable
   then updp pi (set_writeopen false) ;;; pipe_wakeup pi PNread
   else updp pi (set_readopen false) ;;; pipe_wakeup pi PNwrite) ;;;
  let! p := readp pi id in
  if negb (pi_readopen p) && negb (pi_writeopen p)
  then release (L_pipe pi) ;;; pipe_kfree pi
  else release (L_pipe pi).

(** Every iteration stores a byte or sleeps once; [env] has what the other
    threads do during each sleep. *)
Fixpoint pipewrite_loop (fuel : nat) (env : list (S → S)) (pi addr n i : Z) : M S Z :=
  match fuel with
  | O => λ t, Asleep t
  | Datatypes.S fuel =>
      if i <? n then
        let! p := readp pi id in
        let! k := (if pi_readopen p then pipe_killed else ret true) in
        if (k : bool) then release (L_pipe pi) ;;; ret (-1)
        else if full p then
          pipe_wakeup pi PNread ;;;
          match env with
          | [] => λ t, Asleep t
          | e :: env => sleep_round (L_pipe pi) e ;;; pipewrite_loop fuel env pi addr n i
          end
        else
          let! c := pipe_copyin (u64 (addr + i)) in
          match c with
          | None => pipe_wakeup pi PNread ;;; release (L_pipe pi) ;;; ret i
          | Some ch =>
              updp pi (put ch) ;;;
              pipewrite_loop fuel env pi addr n (i + 1)
          end
      else
        pipe_wakeup pi PNread ;;;
        release (L_pipe pi) ;;;
        ret i
  end.

Definition pipewrite (env : list (S → S)) (pi addr n : Z) : M S Z :=
  acquire (L_pipe pi) ;;;
  pipewrite_loop (1 + (length env + Z.to_nat n)) env pi addr n 0.

(** The loop that waits for data; [Some r] is an early return. *)
Fixpoint piperead_wait (env : list (S → S)) (pi : Z) : M S (option Z) :=
  let! p := readp pi id in
  if empty p && pi_writeopen p then
    let! k := pipe_killed in
    if (k : bool) then release (L_pipe pi) ;;; ret (Some (-1))
    else
      match env with
      | [] => λ t, Asleep t
      | e :: env => sleep_round (L_pipe pi) e ;;; piperead_wait env pi
      end
  else ret None.

Fixpoint piperead_copy (k : nat) (pi addr i : Z) : M S Z :=
  match k with
  | O => ret i
  | Datatypes.S k =>
      let! p := readp pi id in
      if empty p then ret i
      else
        let ch := next_byte p in
        updp pi advance ;;;
        let! ok := pipe_copyout (u64 (addr + i)) ch in
        if (ok : bool) then piperead_copy k pi addr (i + 1) else ret i
  end.

Definition piperead (env : list (S → S)) (pi addr n : Z) : M S Z :=
  acquire (L_pipe pi) ;;;
  let! r := piperead_wait env pi in
  match r with
  | Some r => ret r
  | None =>
      let! i := piperead_copy (Z.to_nat n) pi addr 0 in
      pipe_wakeup pi PNwrite ;;;
      release (L_pipe pi) ;;;
      ret i
  end.
End pipe.

(** ** A pipe is a queue *)

(** The number of bytes in the pipe, and the bytes, oldest first. *)
Definition pcount (p : pipe) : Z := u32 (pi_nwrite p - pi_nread p).
Definition contents (p : pipe) : list Z :=
  (λ k, default 0 (pi_data p !! Z.to_nat ((pi_nread p + Z.of_nat k) mod PIPESIZE))) <$> seq 0 (Z.to_nat (pcount p)).

Record pipe_ok (p : pipe) : Prop := {
  po_len : length (pi_data p) = Z.to_nat PIPESIZE;
  po_nread : 0 <= pi_nread p < 2 ^ 32;
  po_nwrite : 0 <= pi_nwrite p < 2 ^ 32;
  po_count : pcount p <= PIPESIZE }.

Lemma length_contents p : length (contents p) = Z.to_nat (pcount p).
Proof. unfold contents. by rewrite length_fmap, length_seq. Qed.

Lemma pcount_range p : 0 <= pcount p < 2 ^ 32.
Proof. apply u32_range. Qed.

(** [2^32] is a multiple of [PIPESIZE], so the counters may wrap. *)
Lemma u32_mod_pipe x : u32 x mod PIPESIZE = x mod PIPESIZE.
Proof.
  unfold u32, PIPESIZE. apply Z.mod_mod_divide. by exists 8388608.
Qed.

Lemma nwrite_count p : pipe_ok p → pi_nwrite p = u32 (pi_nread p + pcount p).
Proof.
  intros [_ Hr Hw _]. unfold pcount, u32.
  rewrite Zplus_mod_idemp_r. replace (pi_nread p + (pi_nwrite p - pi_nread p)) with (pi_nwrite p) by lia.
  by rewrite Z.mod_small.
Qed.

Lemma empty_spec p : pipe_ok p → empty p = (pcount p =? 0).
Proof.
  intros Hp. unfold empty. destruct Hp as [_ Hr Hw _]. unfold pcount.
  destruct (Z.eqb_spec (pi_nread p) (pi_nwrite p)) as [->|Hne].
  - by rewrite Z.sub_diag.
  - symmetry. apply Z.eqb_neq. unfold u32. intros E. apply Hne.
    apply Z.mod_divide in E as [q E]; [|lia]. assert (q = 0) by lia. lia.
Qed.

Lemma full_spec p : pipe_ok p → full p = (pcount p =? PIPESIZE).
Proof.
  intros Hp. pose proof (nwrite_count p Hp) as E. pose proof (pcount_range p). pose proof (po_count p Hp).
  unfold full. rewrite E. unfold PIPESIZE in *. destruct (Z.eqb_spec (pcount p) 512) as [->|Hne]; [by rewrite Z.eqb_refl|].
  apply Z.eqb_neq. unfold u32. intros Em. apply Hne.
  assert ((pi_nread p + pcount p - (pi_nread p + 512)) mod 2 ^ 32 = 0) as Em2.
  { rewrite Zminus_mod, Em, Z.sub_diag. done. }
  apply Z.mod_divide in Em2 as [q Eq]; [|lia]. assert (q = 0) by lia. lia.
Qed.

Lemma contents_nil p : pipe_ok p → empty p = true ↔ contents p = [].
Proof.
  intros Hp. rewrite empty_spec, Z.eqb_eq by done. pose proof (pcount_range p). split.
  - intros E. apply nil_length_inv. rewrite length_contents. lia.
  - intros E. apply (f_equal length) in E. rewrite length_contents in E. simpl in E. lia.
Qed.

Lemma put_count c p : pipe_ok p → full p = false → pcount (put c p) = pcount p + 1.
Proof.
  intros Hp Hf. rewrite full_spec in Hf by done. apply Z.eqb_neq in Hf. pose proof (po_count p Hp). pose proof (pcount_range p).
  unfold PIPESIZE in *. unfold pcount, put. cbn [pi_nwrite pi_nread set_nwrite set_data].
  unfold pcount in *. unfold u32 in *. rewrite Zminus_mod_idemp_l.
  replace (pi_nwrite p + 1 - pi_nread p) with ((pi_nwrite p - pi_nread p) + 1) by lia.
  rewrite <- Zplus_mod_idemp_l. apply Z.mod_small. lia.
Qed.

Lemma put_ok c p : pipe_ok p → full p = false → pipe_ok (put c p).
Proof.
  intros Hp Hf. pose proof (put_count c p Hp Hf) as Hc. rewrite full_spec in Hf by done. apply Z.eqb_neq in Hf.
  destruct Hp. split; cbn [put set_nwrite set_data pi_data pi_nread pi_nwrite]; [by rewrite length_insert|done|apply u32_range|].
  rewrite Hc. lia.
Qed.

(** The indices of the bytes in the pipe are different. *)
Lemma index_ne p k : pipe_ok p → 0 <= k < pcount p → full p = false →
  Z.to_nat ((pi_nread p + k) mod PIPESIZE) ≠ Z.to_nat (pi_nwrite p mod PIPESIZE).
Proof.
  intros Hp Hk Hf. rewrite full_spec in Hf by done. apply Z.eqb_neq in Hf. pose proof (po_count p Hp).
  rewrite (nwrite_count p Hp), u32_mod_pipe. unfold PIPESIZE in *.
  pose proof (Z.mod_pos_bound (pi_nread p + k) 512 ltac:(lia)).
  pose proof (Z.mod_pos_bound (pi_nread p + pcount p) 512 ltac:(lia)).
  intros E. apply Z2Nat.inj in E; [|lia|lia].
  assert ((pi_nread p + pcount p - (pi_nread p + k)) mod 512 = 0) as Em.
  { rewrite Zminus_mod, E, Z.sub_diag. done. }
  apply Z.mod_divide in Em as [q Eq]; [|lia]. lia.
Qed.

Lemma put_contents c p : pipe_ok p → full p = false → contents (put c p) = contents p ++ [c].
Proof.
  intros Hp Hf. unfold contents. rewrite put_count by done. pose proof (pcount_range p).
  replace (Z.to_nat (pcount p + 1)) with (Z.to_nat (pcount p) + 1)%nat by lia.
  rewrite seq_app, fmap_app. f_equal.
  - apply list_fmap_ext. intros i k Hk. apply lookup_seq in Hk as [-> Hk].
    cbn [put set_nwrite set_data pi_data pi_nread]. rewrite list_lookup_insert_ne; [done|].
    intros E. symmetry in E. revert E. apply index_ne; [done|lia|done].
  - cbn [fmap list_fmap seq Nat.add]. f_equal. cbn [put set_nwrite set_data pi_data pi_nread].
    rewrite Z2Nat.id by lia.
    assert ((pi_nread p + pcount p) mod PIPESIZE = pi_nwrite p mod PIPESIZE) as ->
      by (rewrite (nwrite_count p Hp); by rewrite u32_mod_pipe).
    rewrite list_lookup_insert_eq; [done|]. rewrite (po_len p Hp). unfold PIPESIZE.
    pose proof (Z.mod_pos_bound (pi_nwrite p) 512 ltac:(lia)). lia.
Qed.

Lemma advance_count p : pipe_ok p → empty p = false → pcount (advance p) = pcount p - 1.
Proof.
  intros Hp He. rewrite empty_spec in He by done. apply Z.eqb_neq in He. pose proof (pcount_range p).
  unfold pcount, advance in *. cbn [pi_nwrite pi_nread set_nread]. unfold u32 in *. rewrite Zminus_mod_idemp_r.
  replace (pi_nwrite p - (pi_nread p + 1)) with ((pi_nwrite p - pi_nread p) - 1) by lia.
  rewrite <- Zminus_mod_idemp_l. apply Z.mod_small. lia.
Qed.

Lemma advance_ok p : pipe_ok p → empty p = false → pipe_ok (advance p).
Proof.
  intros Hp He. pose proof (advance_count p Hp He) as Hc. destruct Hp. split; try done; [apply u32_range|]. lia.
Qed.

Lemma advance_contents p : pipe_ok p → empty p = false → contents p = next_byte p :: contents (advance p).
Proof.
  intros Hp He. unfold contents. rewrite advance_count by done. rewrite empty_spec in He by done.
  apply Z.eqb_neq in He. pose proof (pcount_range p).
  replace (Z.to_nat (pcount p)) with (S (Z.to_nat (pcount p - 1))) by lia. cbn [seq fmap list_fmap]. f_equal.
  - by rewrite Z.add_0_r.
  - rewrite <- fmap_S_seq, <- list_fmap_compose. apply list_fmap_ext. intros i k _. unfold compose. f_equal. f_equal. f_equal.
    cbn [advance set_nread pi_nread pi_data]. rewrite <- (Zplus_mod_idemp_l (u32 _)), u32_mod_pipe, Zplus_mod_idemp_l. f_equal. lia.
Qed.

(** ** What the operations do

    [prep pi h s p m]: in state [s], with the locks [h] held, the pipe at [pi] is
    [p], and [m] is the calling process's user memory ([None] where a copy would
    fail); the process has not been killed. *)
Definition umem : Type := Z → option Z.

Class PipeLaws (S : Type) `{PipeEnv S} := {
  prep : Z → list lockname → S → pipe → umem → Prop;
  prep_get pi h s p m : prep pi h s p m → get_pipe pi s = p;
  prep_set pi h s p m p' : prep pi h s p m → prep pi h (set_pipe pi p' s) p' m;
  prep_lock pi h s p m : prep pi h s p m ↔ prep pi (L_pipe pi :: h) s p m;
  killed_law pi h s p m : prep pi h s p m → pipe_killed (Thread h s) = Ok false (Thread h s);
  copyin_law pi h s p m a : prep pi h s p m → pipe_copyin a (Thread h s) = Ok (m a) (Thread h s);
  copyout_law pi h s p m a c : prep pi h s p m →
    match m a with
    | Some _ => ∃ s', pipe_copyout a c (Thread h s) = Ok true (Thread h s') ∧
                      prep pi h s' p (λ x, if x =? a then Some c else m x)
    | None => pipe_copyout a c (Thread h s) = Ok false (Thread h s)
    end;
  wakeup_law pi h s p m ch : prep pi h s p m →
    ∃ s', pipe_wakeup pi ch (Thread h s) = Ok tt (Thread h s') ∧ prep pi h s' p m }.

#[global] Hint Mode PipeLaws + - : typeclass_instances.

(** User memory with the bytes [bs] from [a] on. *)
Fixpoint mput (m : umem) (a : Z) (bs : list Z) : umem :=
  match bs with
  | [] => m
  | c :: bs => mput (λ x, if x =? u64 a then Some c else m x) (a + 1) bs
  end.

(** [n] bytes from [a] on can be copied out. *)
Definition writable (m : umem) (a : Z) (n : nat) : Prop := ∀ i, (i < n)%nat → is_Some (m (u64 (a + Z.of_nat i))).
Definition holds_bytes (m : umem) (a : Z) (bs : list Z) : Prop :=
  ∀ i c, bs !! i = Some c → m (u64 (a + Z.of_nat i)) = Some c.

Section laws.
Context {S : Type} `{PipeLaws S}.

Lemma readp_run pi h s p m :
  prep pi h s p m → readp pi id (Thread h s) = Ok p (Thread h s).
Proof. intros Hp. unfold readp, gets. cbn [st]. by rewrite (prep_get _ _ _ _ _ Hp). Qed.

Lemma updp_run pi h s p m f :
  prep pi h s p m → ∃ s', updp pi f (Thread h s) = Ok tt (Thread h s') ∧ prep pi h s' (f p) m.
Proof.
  intros Hp. eexists. split; [reflexivity|]. cbn [st]. rewrite (prep_get _ _ _ _ _ Hp). by eapply prep_set.
Qed.

Lemma pipewrite_loop_run env pi h p m addr n i bs fuel :
  pipe_ok p → pi_readopen p = true → pcount p + Z.of_nat (length bs) <= PIPESIZE →
  i + Z.of_nat (length bs) = n → holds_bytes m (addr + i) bs → (length bs < fuel)%nat →
  ∀ s, prep pi (L_pipe pi :: h) s p m →
  ∃ s' p', pipewrite_loop fuel env pi addr n i (Thread (L_pipe pi :: h) s) = Ok n (Thread h s') ∧
    prep pi h s' p' m ∧ pipe_ok p' ∧ pi_readopen p' = true ∧ pi_writeopen p' = pi_writeopen p ∧
    contents p' = contents p ++ bs.
Proof.
  revert p i fuel. induction bs as [|c bs IH]; intros p i [|fuel] Hok Hro Hroom Hin Hb Hf s Hp;
    cbn [length] in *; try lia; cbn [pipewrite_loop].
  - rewrite (proj2 (Z.ltb_ge i n)) by lia. destruct (wakeup_law _ _ _ _ _ PNread Hp) as (s1 & E1 & P1).
    exists s1, p. rewrite (bind_Ok _ _ _ _ _ E1). kstep. rewrite app_nil_r. split; [|split; [by apply prep_lock|done]].
    unfold ret. do 2 f_equal. lia.
  - rewrite (proj2 (Z.ltb_lt i n)) by lia. rewrite (bind_Ok _ _ _ _ _ (readp_run _ _ _ _ _ Hp)), Hro.
    rewrite (bind_Ok _ _ _ _ _ (killed_law _ _ _ _ _ Hp)). cbv iota.
    assert (full p = false) as Hnf.
    { rewrite full_spec by done. apply Z.eqb_neq. pose proof (pcount_range p). lia. }
    rewrite Hnf, (bind_Ok _ _ _ _ _ (copyin_law _ _ _ _ _ (u64 (addr + i)) Hp)).
    assert (m (u64 (addr + i)) = Some c) as ->.
    { specialize (Hb 0%nat c eq_refl). by rewrite Z.add_0_r in Hb. }
    destruct (updp_run _ _ _ _ _ (put c) Hp) as (s1 & E1 & P1). rewrite (bind_Ok _ _ _ _ _ E1).
    destruct (IH (put c p) (i + 1) fuel) with (s := s1) as (s2 & p2 & E2 & P2 & Hok2 & Hro2 & Hwo2 & Hc2);
      [by apply put_ok|done|rewrite put_count by done; lia|lia| |lia|done|].
    { intros j d Hj. rewrite <- (Hb (Datatypes.S j) d Hj). f_equal. f_equal. lia. }
    exists s2, p2. split_and!; try done. rewrite Hc2, put_contents, <- app_assoc by done. done.
Qed.

Lemma piperead_copy_run pi h k addr : ∀ i s p m,
  prep pi h s p m → pipe_ok p → writable m (addr + i) k →
  ∃ s' p', piperead_copy k pi addr i (Thread h s) =
      Ok (i + Z.of_nat (Nat.min k (length (contents p)))) (Thread h s') ∧
    prep pi h s' p' (mput m (addr + i) (take k (contents p))) ∧ pipe_ok p' ∧
    pi_readopen p' = pi_readopen p ∧ pi_writeopen p' = pi_writeopen p ∧
    contents p' = drop k (contents p).
Proof.
  induction k as [|k IH]; intros i s p m Hp Hok Hw; cbn [piperead_copy].
  { exists s, p. rewrite Z.add_0_r. done. }
  rewrite (bind_Ok _ _ _ _ _ (readp_run _ _ _ _ _ Hp)). destruct (empty p) eqn:Ee.
  { apply contents_nil in Ee; [|done]. exists s, p. rewrite Ee. cbn. rewrite Z.add_0_r. done. }
  pose proof (advance_contents p Hok Ee) as Hc.
  destruct (updp_run _ _ _ _ _ advance Hp) as (s1 & E1 & P1). rewrite (bind_Ok _ _ _ _ _ E1).
  pose proof (copyout_law _ _ _ _ _ (u64 (addr + i)) (next_byte p) P1) as Hco.
  destruct (Hw 0%nat ltac:(lia)) as [x Hx]. rewrite Z.add_0_r in Hx. rewrite Hx in Hco.
  destruct Hco as (s2 & E2 & P2). rewrite (bind_Ok _ _ _ _ _ E2).
  destruct (IH (i + 1) s2 (advance p) _ P2) as (s3 & p3 & E3 & P3 & Hok3 & Hr3 & Hw3 & Hc3); [by apply advance_ok| |].
  { intros j Hj. destruct (_ =? _); [by eexists|].
    specialize (Hw (Datatypes.S j) ltac:(lia)). by replace (addr + i + Z.of_nat (Datatypes.S j)) with (addr + (i + 1) + Z.of_nat j) in Hw by lia. }
  exists s3, p3. rewrite Hc. cbn [length take drop mput]. split_and!; try done.
  - rewrite E3. f_equal. lia.
  - by replace (addr + i + 1) with (addr + (i + 1)) by lia.
Qed.

(** C33: a write that fits is never lost or reordered: with the reading end open and
    room for the [n] bytes at [addr], [pipewrite] returns [n] without sleeping and
    the pipe holds what it held, followed by the bytes.  The 32-bit counters may
    wrap around. *)
Theorem pipewrite_appends env pi h s p m addr bs :
  prep pi h s p m → pipe_ok p → L_pipe pi ∉ h → pi_readopen p = true →
  Z.of_nat (length bs) <= PIPESIZE - pcount p → holds_bytes m addr bs →
  ∃ s' p', pipewrite env pi addr (Z.of_nat (length bs)) (Thread h s) =
      Ok (Z.of_nat (length bs)) (Thread h s') ∧
    prep pi h s' p' m ∧ pipe_ok p' ∧ contents p' = contents p ++ bs.
Proof.
  intros Hp Hok Hl Hro Hroom Hb. unfold pipewrite. kstep.
  assert (holds_bytes m (addr + 0) bs) as Hb0 by (replace (addr + 0) with addr by lia; exact Hb).
  destruct (pipewrite_loop_run env pi h p m addr (Z.of_nat (length bs)) 0 bs
    (1 + (length env + Z.to_nat (Z.of_nat (length bs)))) Hok Hro ltac:(lia) ltac:(lia) Hb0 ltac:(lia) s
    (proj1 (prep_lock _ _ _ _ _) Hp)) as (s' & p' & E & P & Hok' & _ & _ & Hc).
  exists s', p'. done.
Qed.

(** A read takes the oldest bytes: from a pipe that is not empty, or whose
    writing end is closed, [piperead] returns, without sleeping, the number of
    bytes available or asked for, whichever is less; the bytes are in the reader's
    memory in the order they were written, and the pipe holds the rest. *)
Theorem piperead_takes env pi h s p m addr n :
  prep pi h s p m → pipe_ok p → L_pipe pi ∉ h → 0 <= n →
  contents p ≠ [] ∨ pi_writeopen p = false → writable m addr (Z.to_nat n) →
  ∃ s' p', piperead env pi addr n (Thread h s) =
      Ok (Z.min n (Z.of_nat (length (contents p)))) (Thread h s') ∧
    prep pi h s' p' (mput m addr (take (Z.to_nat n) (contents p))) ∧ pipe_ok p' ∧
    contents p' = drop (Z.to_nat n) (contents p).
Proof.
  intros Hp Hok Hl Hn Hne Hw. unfold piperead. kstep.
  assert (prep pi (L_pipe pi :: h) s p m) as Hp' by exact (proj1 (prep_lock _ _ _ _ _) Hp).
  assert (piperead_wait env pi (Thread (L_pipe pi :: h) s) = Ok None (Thread (L_pipe pi :: h) s)) as Ew.
  { destruct env; cbn [piperead_wait]; rewrite (bind_Ok _ _ _ _ _ (readp_run _ _ _ _ _ Hp'));
      (destruct (empty p) eqn:Ee; [|done]); (destruct Hne as [Hne| ->]; [|done]);
      exfalso; apply Hne; by apply contents_nil. }
  rewrite (bind_Ok _ _ _ _ _ Ew).
  assert (writable m (addr + 0) (Z.to_nat n)) as Hw0 by (replace (addr + 0) with addr by lia; exact Hw).
  destruct (piperead_copy_run pi (L_pipe pi :: h) (Z.to_nat n) addr 0 s p m Hp' Hok Hw0)
    as (s1 & p1 & E1 & P1 & Hok1 & _ & _ & Hc1).
  replace (addr + 0) with addr in P1 by lia.
  rewrite (bind_Ok _ _ _ _ _ E1). destruct (wakeup_law _ _ _ _ _ PNwrite P1) as (s2 & E2 & P2).
  rewrite (bind_Ok _ _ _ _ _ E2). kstep. exists s2, p1.
  split; [|split; [by apply prep_lock|done]]. unfold ret. f_equal. lia.
Qed.

(** A full pipe blocks the writer and an empty one the reader, as long as the
    other end is open; when it is closed the write fails and the read returns 0. *)
Theorem pipe_blocks pi h s p m addr n :
  prep pi h s p m → pipe_ok p → L_pipe pi ∉ h → 0 < n →
  (pi_readopen p = false → ∃ s', pipewrite [] pi addr n (Thread h s) = Ok (-1) (Thread h s')) ∧
  (pi_readopen p = true → pcount p = PIPESIZE → ∃ t, pipewrite [] pi addr n (Thread h s) = Asleep t) ∧
  (contents p = [] → pi_writeopen p = true → ∃ t, piperead [] pi addr n (Thread h s) = Asleep t) ∧
  (contents p = [] → pi_writeopen p = false → ∃ s', piperead [] pi addr n (Thread h s) = Ok 0 (Thread h s')).
Proof.
  intros Hp Hok Hl Hn. assert (prep pi (L_pipe pi :: h) s p m) as Hp' by exact (proj1 (prep_lock _ _ _ _ _) Hp).
  unfold pipewrite, piperead. cbn [length Nat.add]. split_and!.
  - intros Hro. kstep. exists s. cbn [pipewrite_loop]. rewrite (proj2 (Z.ltb_lt 0 n)) by lia.
    rewrite (bind_Ok _ _ _ _ _ (readp_run _ _ _ _ _ Hp')), Hro. kstep. cbv iota. by kstep.
  - intros Hro Hfull. kstep. cbn [pipewrite_loop]. rewrite (proj2 (Z.ltb_lt 0 n)) by lia.
    rewrite (bind_Ok _ _ _ _ _ (readp_run _ _ _ _ _ Hp')), Hro.
    rewrite (bind_Ok _ _ _ _ _ (killed_law _ _ _ _ _ Hp')). cbv iota.
    rewrite full_spec, Hfull by done. cbn. destruct (wakeup_law _ _ _ _ _ PNread Hp') as (s1 & E1 & P1).
    rewrite (bind_Ok _ _ _ _ _ E1). by eexists.
  - intros Hc Hwo. kstep. cbn [piperead_wait]. rewrite bind_assoc, (bind_Ok _ _ _ _ _ (readp_run _ _ _ _ _ Hp')).
    rewrite (proj2 (contents_nil p Hok) Hc), Hwo. cbn [andb].
    rewrite bind_assoc, (bind_Ok _ _ _ _ _ (killed_law _ _ _ _ _ Hp')). cbv iota. by eexists.
  - intros Hc Hwo. kstep. cbn [piperead_wait]. rewrite bind_assoc, (bind_Ok _ _ _ _ _ (readp_run _ _ _ _ _ Hp')).
    rewrite Hwo, andb_false_r. kstep. destruct (Z.to_nat n) as [|k] eqn:Ek; [lia|]. cbn [piperead_copy].
    rewrite bind_assoc, (bind_Ok _ _ _ _ _ (readp_run _ _ _ _ _ Hp')), (proj2 (contents_nil p Hok) Hc).
    kstep. destruct (wakeup_law _ _ _ _ _ PNwrite Hp') as (s1 & E1 & P1).
    rewrite (bind_Ok _ _ _ _ _ E1). kstep. by exists s1.
Qed.
End laws.

(** ** An instance: one pipe and one user memory *)

#[export] Instance toy_env : PipeEnv (pipe * umem) := {
  get_pipe _ s := s.1;
  set_pipe _ p s := (p, s.2);
  pipe_killed := ret false;
  pipe_copyin a := gets (λ s, s.2 a);
  pipe_copyout a c := λ t, match (st t).2 a with
    | Some _ => Ok true (Thread (held t) ((st t).1, λ x, if x =? a then Some c else (st t).2 x))
    | None => Ok false t end;
  pipe_wakeup _ _ := ret tt;
  pipe_kfree _ := ret tt }.

#[export] Instance toy_laws : PipeLaws (pipe * umem).
Proof.
  refine {| prep pi h s p m := s.1 = p ∧ s.2 = m |}; try done.
  all: try naive_solver.
  intros pi h [p0 m0] p m a c [<- <-]. cbn. destruct (m0 a); [|done].
  eexists. split; [reflexivity|done].
Defined.

(** Counters about to wrap: 4294967294 bytes written and read. *)
Definition pipe_late : pipe := Pipe (replicate 512 0) 4294967294 4294967294 true true.

Definition mem3 : umem := λ a, if (100 <=? a) && (a <? 103) then Some (a - 90) else None.

Lemma pipe_late_ok : pipe_ok pipe_late.
Proof. by split. Qed.

Lemma pipewrite_appends_witness :
  ∃ s' p', pipewrite [] 0 100 3 (Thread [] (pipe_late, mem3)) = Ok 3 (Thread [] s') ∧
    contents p' = [10; 11; 12].
Proof.
  destruct (pipewrite_appends [] 0 [] (pipe_late, mem3) pipe_late mem3 100 [10; 11; 12]) as (s' & p' & E & _ & _ & Hc).
  - done.
  - apply pipe_late_ok.
  - apply not_elem_of_nil.
  - done.
  - vm_compute. discriminate.
  - intros [|[|[|]]] c Hc; simpl in Hc; simplify_eq; done.
  - exists s', p'. split; [exact E|]. rewrite Hc. vm_compute. reflexivity.
Defined.

Definition pipe_two : pipe := put 8 (put 7 pipe_late).

Lemma pipe_two_ok : pipe_ok pipe_two.
Proof. apply put_ok; [apply put_ok; [apply pipe_late_ok|done]|vm_compute; reflexivity]. Qed.

Lemma piperead_takes_witness :
  ∃ s' p', piperead [] 0 100 3 (Thread [] (pipe_two, mem3)) = Ok 2 (Thread [] s') ∧
    contents p' = [].
Proof.
  destruct (piperead_takes [] 0 [] (pipe_two, mem3) pipe_two mem3 100 3) as (s' & p' & E & _ & _ & Hc).
  - done.
  - apply pipe_two_ok.
  - apply not_elem_of_nil.
  - lia.
  - left. vm_compute. discriminate.
  - intros i Hi. change (Z.to_nat 3) with 3%nat in Hi. unfold mem3.
    rewrite u64_small by lia. rewrite (proj2 (Z.leb_le 100 _)), (proj2 (Z.ltb_lt _ 103)) by lia. by eexists.
  - exists s', p'. split; [|rewrite Hc; vm_compute; reflexivity].
    rewrite E. replace (length (contents pipe_two)) with 2%nat by (vm_compute; reflexivity). done.
Defined.

Lemma pipe_blocks_witness :
  (∃ t, piperead [] 0 100 3 (Thread [] (pipe_late, mem3)) = Asleep t) ∧
  (∃ s', piperead [] 0 100 3 (Thread [] (set_writeopen false pipe_late, mem3)) = Ok 0 (Thread [] s')).
Proof.
  split.
  - destruct (pipe_blocks 0 [] (pipe_late, mem3) pipe_late mem3 100 3) as (_ & _ & Hb & _);
      [done|apply pipe_late_ok|apply not_elem_of_nil|lia|]. apply Hb; [vm_compute; reflexivity|done].
  - destruct (pipe_blocks 0 [] (set_writeopen false pipe_late, mem3) (set_writeopen false pipe_late) mem3 100 3)
      as (_ & _ & _ & Hb); [done|destruct pipe_late_ok; by split|apply not_elem_of_nil|lia|].
    apply Hb; [vm_compute; reflexivity|done].
Defined.
