(* ===== verification/Kernel.v ===== *)
(** * The kernel's state

    The components' states side by side: physical memory, the file system, the
    process table (proc.h), the file table (file.h), pipes, the console and the
    UART, as one thread of the kernel sees them.  [k_cur] is the process of the
    thread ([mycpu()->proc]).  Operations of a component run on the whole state
    with [onmem] and [onfs]. *)

From S2P Require Import Prelude CString Riscv Kalloc Vm Param Bio Log.
From S2P Require Import BlockLayer BlockLog FsDisk Fs Pipe.

(** What a process sleeps on: the addresses that the kernel passes to [sleep]. *)
Inductive chan :=
  | CH_proc (i : nat) | CH_ticks | CH_pipe (pi : Z) (c : pipe_chan) | CH_lock (lk : lockname)
  | CH_cons | CH_uart | CH_desc | CH_buf (b : nat) | CH_log.

#[global] Instance pipe_chan_eq_dec : EqDecision pipe_chan.
Proof. solve_decision. Defined.
#[global] Instance chan_eq_dec : EqDecision chan.
Proof. solve_decision. Defined.

(** [enum procstate] *)
Inductive procstate := UNUSED | USED | SLEEPING | RUNNABLE | RUNNING | ZOMBIE.

#[global] Instance procstate_eq_dec : EqDecision procstate.
Proof. solve_decision. Defined.

Definition procstate_num (x : procstate) : Z :=
  match x with UNUSED => 0 | USED => 1 | SLEEPING => 2 | RUNNABLE => 3 | RUNNING => 4 | ZOMBIE => 5 end.

(** [struct proc]; of the context only [ra] and [sp] are set outside [swtch].
    Null pointers are [None] or 0. *)
Record proc := Proc {
  p_state : procstate; p_chan : option chan; p_killed : Z; p_xstate : Z; p_pid : Z; p_parent : option nat;
  p_kstack : Z; p_sz : Z; p_pagetable : Z; p_trapframe : Z; p_context : Z * Z;
  p_ofile : list (option nat); p_cwd : option nat; p_name : list Z }.

Definition proc0 : proc := Proc UNUSED None 0 0 0 None 0 0 0 0 (0, 0) (replicate 16 None) None (replicate 16 0).

Definition set_state v (p : proc) : proc := let '(Proc _ b c d e f g h i j k l m n) := p in Proc v b c d e f g h i j k l m n.
Definition set_chan v (p : proc) : proc := let '(Proc a _ c d e f g h i j k l m n) := p in Proc a v c d e f g h i j k l m n.
Definition set_killed v (p : proc) : proc := let '(Proc a b _ d e f g h i j k l m n) := p in Proc a b v d e f g h i j k l m n.
Definition set_xstate v (p : proc) : proc := let '(Proc a b c _ e f g h i j k l m n) := p in Proc a b c v e f g h i j k l m n.
Definition set_pid v (p : proc) : proc := let '(Proc a b c d _ f g h i j k l m n) := p in Proc a b c d v f g h i j k l m n.
Definition set_parent v (p : proc) : proc := let '(Proc a b c d e _ g h i j k l m n) := p in Proc a b c d e v g h i j k l m n.
Definition set_kstack v (p : proc) : proc := let '(Proc a b c d e f _ h i j k l m n) := p in Proc a b c d e f v h i j k l m n.
Definition set_sz v (p : proc) : proc := let '(Proc a b c d e f g _ i j k l m n) := p in Proc a b c d e f g v i j k l m n.
Definition set_pagetable v (p : proc) : proc := let '(Proc a b c d e f g h _ j k l m n) := p in Proc a b c d e f g h v j k l m n.
Definition set_trapframe v (p : proc) : proc := let '(Proc a b c d e f g h i _ k l m n) := p in Proc a b c d e f g h i v k l m n.
Definition set_context v (p : proc) : proc := let '(Proc a b c d e f g h i j _ l m n) := p in Proc a b c d e f g h i j v l m n.
Definition set_ofile v (p : proc) : proc := let '(Proc a b c d e f g h i j k _ m n) := p in Proc a b c d e f g h i j k v m n.
Definition set_cwd v (p : proc) : proc := let '(Proc a b c d e f g h i j k l _ n) := p in Proc a b c d e f g h i j k l v n.
Definition set_name v (p : proc) : proc := let '(Proc a b c d e f g h i j k l m _) := p in Proc a b c d e f g h i j k l m v.

(** fcntl.h *)
Definition O_RDONLY : Z := 0x000.
Definition O_WRONLY : Z := 0x001.
Definition O_RDWR : Z := 0x002.
Definition O_CREATE : Z := 0x200.
Definition O_TRUNC : Z := 0x400.

(** [struct file] *)
Inductive filetype := FD_NONE | FD_PIPE | FD_INODE | FD_DEVICE.

#[global] Instance filetype_eq_dec : EqDecision filetype.
Proof. solve_decision. Defined.

Record file := File {
  f_type : filetype; f_ref : Z; f_readable : bool; f_writable : bool;
  f_pipe : Z; f_ip : option nat; f_off : Z; f_major : Z }.

Definition file0 : file := File FD_NONE 0 false false 0 None 0 0.

Definition set_ftype v (f : file) : file := let '(File _ b c d e g h i) := f in File v b c d e g h i.
Definition set_ref v (f : file) : file := let '(File a _ c d e g h i) := f in File a v c d e g h i.
Definition set_readable v (f : file) : file := let '(File a b _ d e g h i) := f in File a b v d e g h i.
Definition set_writable v (f : file) : file := let '(File a b c _ e g h i) := f in File a b c v e g h i.
Definition set_fpipe v (f : file) : file := let '(File a b c d _ g h i) := f in File a b c d v g h i.
Definition set_ip v (f : file) : file := let '(File a b c d e _ h i) := f in File a b c d e v h i.
Definition set_off v (f : file) : file := let '(File a b c d e g _ i) := f in File a b c d e g v i.
Definition set_major v (f : file) : file := let '(File a b c d e g h _) := f in File a b c d e g h v.

(** The console's input buffer (console.c) and the UART's output buffer (uart.c).
    [u_thr] is what was written to the transmit register, [u_lsr] and [u_rhr] what
    the device answers to reads of the line status and of the input. *)
Record console := Console { c_buf : list Z; c_r : Z; c_w : Z; c_e : Z }.
Record uart := Uart { u_buf : list Z; u_w : Z; u_r : Z; u_thr : list Z; u_lsr : list Z; u_rhr : list Z }.

Record kernel := Kernel {
  k_mem : kmem; k_fs : fs lstate; k_procs : list proc; k_nextpid : Z; k_initproc : option nat; k_cur : option nat;
  k_files : list file; k_pipes : Z → pipe; k_ticks : Z; k_cons : console; k_uart : uart; k_first : bool }.

Definition set_mem v (s : kernel) : kernel := let '(Kernel _ b c d e f g h i j k l) := s in Kernel v b c d e f g h i j k l.
Definition set_fs v (s : kernel) : kernel := let '(Kernel a _ c d e f g h i j k l) := s in Kernel a v c d e f g h i j k l.
Definition set_procs v (s : kernel) : kernel := let '(Kernel a b _ d e f g h i j k l) := s in Kernel a b v d e f g h i j k l.
Definition set_nextpid v (s : kernel) : kernel := let '(Kernel a b c _ e f g h i j k l) := s in Kernel a b c v e f g h i j k l.
Definition set_initproc v (s : kernel) : kernel := let '(Kernel a b c d _ f g h i j k l) := s in Kernel a b c d v f g h i j k l.
Definition set_cur v (s : kernel) : kernel := let '(Kernel a b c d e _ g h i j k l) := s in Kernel a b c d e v g h i j k l.
Definition set_files v (s : kernel) : kernel := let '(Kernel a b c d e f _ h i j k l) := s in Kernel a b c d e f v h i j k l.
Definition set_pipes v (s : kernel) : kernel := let '(Kernel a b c d e f g _ i j k l) := s in Kernel a b c d e f g v i j k l.
Definition set_ticks v (s : kernel) : kernel := let '(Kernel a b c d e f g h _ j k l) := s in Kernel a b c d e f g h v j k l.
Definition set_cons v (s : kernel) : kernel := let '(Kernel a b c d e f g h i _ k l) := s in Kernel a b c d e f g h i v k l.
Definition set_uart v (s : kernel) : kernel := let '(Kernel a b c d e f g h i j _ l) := s in Kernel a b c d e f g h i j v l.
Definition set_first v (s : kernel) : kernel := let '(Kernel a b c d e f g h i j k _) := s in Kernel a b c d e f g h i j k v.

Definition K : Type := kernel.

Definition onmem {A} (m : M kmem A) : M K A := lift k_mem set_mem m.
Definition onfs {A} (m : M (fs lstate) A) : M K A := lift k_fs set_fs m.

Lemma onmem_run {A} (m : M kmem A) h s a k' : m (Thread h (k_mem s)) = Ok a (Thread h k') → onmem m (Thread h s) = Ok a (Thread h (set_mem k' s)).
Proof. intros E. unfold onmem, lift. cbn [held st]. by rewrite E. Qed.

Lemma f_ref_set v x : f_ref (set_ref v x) = v.
Proof. by destruct x. Qed.

Lemma set_mem_mem k s : k_mem (set_mem k s) = k.
Proof. by destruct s. Qed.

Lemma set_mem_twice k k' s : set_mem k (set_mem k' s) = set_mem k s.
Proof. by destruct s. Qed.

Definition proc_at (i : nat) (s : K) : proc := default proc0 (k_procs s !! i).
Definition upd_proc (i : nat) (f : proc → proc) : M K unit :=
  modify (λ s, set_procs (<[i := f (proc_at i s)]> (k_procs s)) s).
Definition file_at (i : nat) (s : K) : file := default file0 (k_files s !! i).
Definition upd_file (i : nat) (f : file → file) : M K unit :=
  modify (λ s, set_files (<[i := f (file_at i s)]> (k_files s)) s).

(** A process index for the thread's process; kernel code that calls [myproc()]
    and uses the result runs in a process. *)
Definition cur_of (s : K) : nat := default 0%nat (k_cur s).
Definition myproc : M K nat :=
  let! c := gets k_cur in
  match c with Some i => ret i | None => undefined "null process" end.

(** The indices of the process table and the file table. *)
Definition procs_idx : list nat := seq 0 (Z.to_nat NPROC).
Definition files_idx : list nat := seq 0 (Z.to_nat NFILE).

(** Registers saved in a trapframe: offsets of proc.h. *)
Definition TF_kernel_satp : Z := 0.
Definition TF_kernel_sp : Z := 8.
Definition TF_kernel_trap : Z := 16.
Definition TF_epc : Z := 24.
Definition TF_kernel_hartid : Z := 32.
Definition TF_sp : Z := 48.
Definition TF_a (n : Z) : Z := 112 + 8 * n.
Definition TF_SIZE : Z := 288.

Definition tf_get (i : nat) (off : Z) : M K Z :=
  let! p := gets (proc_at i) in onmem (rd64 (p_trapframe p + off)).
Definition tf_set (i : nat) (off v : Z) : M K unit :=
  let! p := gets (proc_at i) in onmem (upd_mem (λ m, store64 m (p_trapframe p + off) v)).

(** A C string in a kernel buffer: the bytes before the first NUL. *)
Definition cstring (bs : list Z) : list Z := take_while (λ c, negb (c =? 0)) bs.

(** [safestrcpy(dst, src, n)] for a buffer [dst] of at least [n] bytes. *)
Definition safestrcpy_buf (dst src : list Z) (n : Z) : list Z :=
  let d := Z.of_nat (length dst) in
  let m := safestrcpy 0 d n (λ a, if a <? d then default 0 (dst !! Z.to_nat a) else default 0 (src !! Z.to_nat (a - d))) in
  bytes_at m 0 (length dst).
