(* ===== verification/Printf.v ===== *)
(** * printf.c and the synchronous output of uart.c and console.c

    [printf] as the bytes it sends to the console ([format]), and the path of each
    byte to the UART's transmit register. *)

From S2P Require Import Prelude CString Riscv Kernel.

(** ** Formatting *)

Definition digits : list Z := str "0123456789abcdef".

(** [do buf[i++] = digits[x % base]; while((x /= base) != 0);] *)
Fixpoint digits_loop (fuel : nat) (x base : Z) : list Z :=
  match fuel with
  | O => []
  | S fuel =>
      let c := default 0 (digits !! Z.to_nat (x mod base)) in
      if x / base =? 0 then [c] else c :: digits_loop fuel (x / base) base
  end.

Definition minus : Z := 45.

(** The array [buf], before it is printed backwards. *)
Definition printint_buf (xx base : Z) (sign : bool) : list Z :=
  let neg := sign && (signed 64 xx <? 0) in
  let x := if neg then u64 (- xx) else u64 xx in
  digits_loop 64 x base ++ (if neg then [minus] else []).

(** [char buf[16]]: [None] when the number does not fit. *)
Definition printint (xx base : Z) (sign : bool) : option (list Z) :=
  let buf := printint_buf xx base sign in
  if (16 <? length buf)%nat then None else Some (rev buf).

Fixpoint printptr_loop (n : nat) (x : Z) : list Z :=
  match n with
  | O => []
  | S n => default 0 (digits !! Z.to_nat (Z.shiftr x 60)) :: printptr_loop n (u64 (Z.shiftl x 4))
  end.

Definition printptr (x : Z) : list Z := str "0x" ++ printptr_loop 16 x.

(** Arguments: a 64-bit word, or a string (null is [None]). *)
Inductive varg := VWord (z : Z) | VStr (s : option (list Z)).

Definition chr (c : string) : Z := default 0 (head (str c)).

(** What the conversion after a [%] prints, and the characters of the format and
    the arguments that are left; [None] when the code reads an argument that is
    not there or overruns [buf]. *)
Definition conv (word : Z → option (list Z)) (skip : nat) (fmt : list Z) (args : list varg) :
    option (list Z * list Z * list varg) :=
  match args with
  | VWord z :: args => (λ o, (o, drop skip fmt, args)) <$> word z
  | _ => None
  end.

Definition format_one (fmt : list Z) (args : list varg) : option (list Z * list Z * list varg) :=
  let c0 := default 0 (fmt !! 0%nat) in
  let c1 := if truth c0 then default 0 (fmt !! 1%nat) else 0 in
  let c2 := if truth c1 then default 0 (fmt !! 2%nat) else 0 in
  if c0 =? chr "d" then conv (λ z, printint (s32 z) 10 true) 1 fmt args
  else if (c0 =? chr "l") && (c1 =? chr "d") then conv (λ z, printint z 10 true) 2 fmt args
  else if (c0 =? chr "l") && (c1 =? chr "l") && (c2 =? chr "d") then conv (λ z, printint z 10 true) 3 fmt args
  else if c0 =? chr "u" then conv (λ z, printint (s32 z) 10 false) 1 fmt args
  else if (c0 =? chr "l") && (c1 =? chr "u") then conv (λ z, printint z 10 false) 2 fmt args
  else if (c0 =? chr "l") && (c1 =? chr "l") && (c2 =? chr "u") then conv (λ z, printint z 10 false) 3 fmt args
  else if c0 =? chr "x" then conv (λ z, printint (s32 z) 16 false) 1 fmt args
  else if (c0 =? chr "l") && (c1 =? chr "x") then conv (λ z, printint z 16 false) 2 fmt args
  else if (c0 =? chr "l") && (c1 =? chr "l") && (c2 =? chr "x") then conv (λ z, printint z 16 false) 3 fmt args
  else if c0 =? chr "p" then conv (λ z, Some (printptr (u64 z))) 1 fmt args
  else if c0 =? chr "s" then
    match args with
    | VStr s :: args => Some (default (str "(null)") s, drop 1 fmt, args)
    | _ => None
    end
  else if c0 =? chr "%" then Some ([chr "%"], drop 1 fmt, args)
  else if c0 =? 0 then Some ([], [], args)
  else Some ([chr "%"; c0], drop 1 fmt, args).

(** The loop over the format, which stops at the NUL; every iteration reads a
    character. *)
Fixpoint format_loop (fuel : nat) (fmt : list Z) (args : list varg) : option (list Z) :=
  match fuel with
  | O => None
  | S fuel =>
      match fmt with
      | [] => Some []
      | cx :: fmt =>
          if cx =? 0 then Some []
          else if negb (cx =? chr "%") then (λ o, cx :: o) <$> format_loop fuel fmt args
          else
            match format_one fmt args with
            | None => None
            | Some (o, fmt, args) => (λ r, o ++ r) <$> format_loop fuel fmt args
            end
      end
  end.

Definition format (fmt : list Z) (args : list varg) : option (list Z) := format_loop (S (length fmt)) fmt args.

(** ** Output *)

Definition LSR_RX_READY : Z := 1.
Definition LSR_TX_IDLE : Z := Z.shiftl 1 5.

(** [ReadReg(LSR)]: the next answer of the device; after the last one it is idle
    and has no input. *)
Definition upd_uart (f : uart → uart) : M K unit := modify (λ s, set_uart (f (k_uart s)) s).
Definition read_lsr : M K Z :=
  let! u := gets k_uart in
  match u_lsr u with
  | [] => ret LSR_TX_IDLE
  | x :: l => upd_uart (λ u, Uart (u_buf u) (u_w u) (u_r u) (u_thr u) l (u_rhr u)) ;;; ret x
  end.

(** [WriteReg(THR, c)] *)
Definition write_thr (c : Z) : M K unit :=
  upd_uart (λ u, Uart (u_buf u) (u_w u) (u_r u) (u_thr u ++ [u8 c]) (u_lsr u) (u_rhr u)).

(** [while((ReadReg(LSR) & LSR_TX_IDLE) == 0);]: one read more than the device has
    answers prepared. *)
Fixpoint spin_tx (fuel : nat) : M K unit :=
  match fuel with
  | O => λ t, Asleep t
  | S fuel =>
      let! x := read_lsr in
      if Z.land x LSR_TX_IDLE =? 0 then spin_tx fuel else ret tt
  end.

Definition uartputc_sync (c : Z) : M K unit :=
  let! u := gets k_uart in
  spin_tx (S (length (u_lsr u))) ;;;
  write_thr c.

Definition BACKSPACE : Z := 0x100.

Definition consputc (c : Z) : M K unit :=
  if c =? BACKSPACE then uartputc_sync 8 ;;; uartputc_sync 32 ;;; uartputc_sync 8
  else uartputc_sync c.

Fixpoint consputs (cs : list Z) : M K unit :=
  match cs with
  | [] => ret tt
  | c :: cs => consputc c ;;; consputs cs
  end.

(** [pr.locking] is set at boot and cleared by [panic] only. *)
Definition printf (fmt : string) (args : list varg) : M K unit :=
  acquire L_pr ;;;
  match format (str fmt) args with
  | None => undefined "printf"
  | Some out => consputs out
  end ;;;
  release L_pr.

(** ** Numerals *)

Definition dval (c : Z) : Z := if c <=? 57 then c - 48 else c - 87.

Definition numeral (base : Z) (cs : list Z) : Z := foldl (λ a c, a * base + dval c) 0 cs.

(** The number a printed numeral stands for. *)
Definition parse (base : Z) (cs : list Z) : Z :=
  match cs with
  | c :: r => if c =? minus then - numeral base r else numeral base cs
  | [] => 0
  end.

Lemma digit_ok d : 0 <= d < 16 → dval (default 0 (digits !! Z.to_nat d)) = d ∧ default 0 (digits !! Z.to_nat d) ≠ minus.
Proof.
  intros Hd. assert (forallb (λ i, (dval (default 0 (digits !! i)) =? Z.of_nat i) && negb (default 0 (digits !! i) =? minus)) (seq 0 16) = true)
    as Hall by (vm_compute; reflexivity).
  rewrite forallb_forall in Hall. specialize (Hall (Z.to_nat d)).
  rewrite in_seq in Hall. specialize (Hall ltac:(lia)). apply andb_prop in Hall as [H1 H2].
  apply Z.eqb_eq in H1. apply negb_true_iff, Z.eqb_neq in H2. rewrite Z2Nat.id in H1 by lia. done.
Qed.

Lemma numeral_rev base cs : numeral base (rev cs) = foldr (λ c a, a * base + dval c) 0 cs.
Proof. unfold numeral. induction cs as [|c cs IH]; [done|]. cbn [rev foldr]. by rewrite foldl_app, IH. Qed.

Lemma digits_loop_spec base : 2 <= base <= 16 → ∀ fuel x, 0 <= x < base ^ Z.of_nat fuel → (0 < fuel)%nat →
  foldr (λ c a, a * base + dval c) 0 (digits_loop fuel x base) = x ∧
  Forall (λ c, c ≠ minus) (digits_loop fuel x base) ∧
  (1 <= length (digits_loop fuel x base))%nat ∧
  ∀ n, (1 <= n)%nat → x < base ^ Z.of_nat n ↔ (length (digits_loop fuel x base) <= n)%nat.
Proof.
  intros Hb. induction fuel as [|fuel IH]; intros x Hx Hf; [lia|]. cbn [digits_loop].
  pose proof (Z.mod_pos_bound x base ltac:(lia)) as Hm. pose proof (Z.div_mod x base ltac:(lia)) as Hdm.
  destruct (digit_ok (x mod base) ltac:(lia)) as [Hd Hne].
  assert (∀ n, (1 <= n)%nat → base ^ Z.of_nat n = base * base ^ Z.of_nat (n - 1)) as Hpow.
  { intros n Hn. replace (Z.of_nat n) with (Z.succ (Z.of_nat (n - 1))) by lia. by rewrite Z.pow_succ_r by lia. }
  destruct (Z.eqb_spec (x / base) 0) as [E|E].
  - cbn [foldr length]. rewrite Hd. split; [lia|]. split; [by repeat constructor|]. split; [lia|]. intros n Hn.
    split; [lia|]. intros _. rewrite Hpow by done. pose proof (Z.pow_pos_nonneg base (Z.of_nat (n - 1)) ltac:(lia) ltac:(lia)). nia.
  - assert (0 < fuel)%nat as Hf'.
    { destruct fuel; [|lia]. rewrite Hpow in Hx by done. change (base ^ Z.of_nat (1 - 1)) with 1 in Hx.
      exfalso. apply E. apply Z.div_small. lia. }
    assert (0 <= x / base < base ^ Z.of_nat fuel) as Hq.
    { split; [apply Z.div_pos; lia|]. apply Z.div_lt_upper_bound; [lia|]. rewrite Hpow in Hx by lia. replace (S fuel - 1)%nat with fuel in Hx by lia. lia. }
    destruct (IH (x / base) Hq Hf') as (IH1 & IH2 & IH3 & IH4). cbn [foldr length]. rewrite IH1, Hd.
    split; [lia|]. split; [by constructor|]. split; [lia|]. intros n Hn. rewrite Hpow by done.
    destruct (decide (n = 1%nat)) as [->|Hn1].
    + change (base ^ Z.of_nat (1 - 1)) with 1. split; [|lia]. intros Hlt. exfalso. apply E. apply Z.div_small. lia.
    + split; intros H'.
      * enough (length (digits_loop fuel (x / base) base) <= n - 1)%nat by lia. apply IH4; [lia|].
        apply Z.div_lt_upper_bound; lia.
      * assert (x / base < base ^ Z.of_nat (n - 1)) by (apply IH4; lia). nia.
Qed.

(** The value that is printed. *)
Definition printed (xx : Z) (sign : bool) : Z := if sign then signed 64 xx else u64 xx.

Lemma printed_split xx sign :
  let neg := sign && (signed 64 xx <? 0) in
  printed xx sign = (if neg then - u64 (- xx) else u64 xx) ∧ (neg = true ↔ printed xx sign < 0) ∧ (neg = true → 0 < u64 (- xx)).
Proof.
  unfold printed, signed, u64. pose proof (Z.mod_pos_bound xx (2 ^ 64) ltac:(lia)) as Hm. destruct sign; cbn [andb].
  2: { split_and!; [done| |done]. split; [done|lia]. }
  change (64 - 1) with 63. destruct (Z.ltb_spec (xx mod 2 ^ 64) (2 ^ 63)) as [Hl|Hl].
  - rewrite (proj2 (Z.ltb_ge _ _)) by lia. split_and!; [done| |done]. split; [done|lia].
  - rewrite (proj2 (Z.ltb_lt _ _)) by lia. assert (xx mod 2 ^ 64 ≠ 0) as Hne by lia.
    rewrite Z.mod_opp_l_nz by lia. split_and!; lia.
Qed.

Lemma printint_spec xx base sign : 2 <= base <= 16 →
  let v := printed xx sign in
  let room := if v <? 0 then 15 else 16 in
  match printint xx base sign with
  | Some out => parse base out = v ∧ Z.abs v < base ^ room
  | None => base ^ room <= Z.abs v
  end.
Proof.
  intros Hb v room. destruct (printed_split xx sign) as (Ev & Hneg & Hpos). fold v in Ev, Hneg.
  set (neg := sign && (signed 64 xx <? 0)) in *. unfold printint, printint_buf. fold neg.
  set (x := if neg then u64 (- xx) else u64 xx).
  assert (0 <= x < base ^ Z.of_nat 64) as Hx.
  { assert (2 ^ 64 <= base ^ Z.of_nat 64) by (apply Z.pow_le_mono_l; lia).
    unfold x. pose proof (u64_range (- xx)). pose proof (u64_range xx). destruct neg; lia. }
  destruct (digits_loop_spec base Hb 64 x Hx ltac:(lia)) as (Hval & Hchr & Hlen & Hbound).
  set (ds := digits_loop 64 x base) in *.
  assert (Z.abs v = x) as Habs. { rewrite Ev. unfold x. pose proof (u64_range xx). destruct neg; [specialize (Hpos eq_refl)|]; lia. }
  rewrite Habs. destruct neg eqn:En.
  - assert (v < 0) as Hv by (by apply Hneg). assert (room = 15) as ->. { unfold room. by rewrite (proj2 (Z.ltb_lt v 0)). }
    specialize (Hbound 15%nat ltac:(lia)). change (Z.of_nat 15) with 15 in Hbound.
    rewrite length_app. cbn [length]. destruct (Nat.ltb_spec 16 (length ds + 1)) as [Hl|Hl].
    + destruct (decide (x < base ^ 15)) as [Hlt|]; [|lia]. apply Hbound in Hlt. lia.
    + split; [|apply Hbound; lia]. rewrite rev_app_distr. cbn [rev app parse]. rewrite Z.eqb_refl, numeral_rev, Hval. unfold x in *. lia.
  - assert (¬ v < 0) as Hv. { intros Hv. apply Hneg in Hv. discriminate Hv. }
    assert (room = 16) as ->. { unfold room. by rewrite (proj2 (Z.ltb_ge v 0)) by lia. }
    specialize (Hbound 16%nat ltac:(lia)). change (Z.of_nat 16) with 16 in Hbound. rewrite app_nil_r.
    destruct (Nat.ltb_spec 16 (length ds)) as [Hl|Hl].
    + destruct (decide (x < base ^ 16)) as [Hlt|]; [|lia]. apply Hbound in Hlt. lia.
    + split; [|apply Hbound; lia]. unfold parse. rewrite <- numeral_rev in Hval. destruct (rev ds) as [|c r] eqn:Er.
      { apply (f_equal length) in Er. rewrite length_rev in Er. cbn [length] in Er. lia. }
      assert (c ≠ minus) as Hc.
      { assert (c ∈ ds) as Hin. { apply list_elem_of_In, in_rev. rewrite Er. by left. }
        by apply (Forall_elem _ _ _ Hchr Hin). }
      rewrite (proj2 (Z.eqb_neq _ _) Hc), Hval. unfold x. lia.
Qed.

(** ** Properties *)

(** What [printint] prints is the number: read back in the base, with its
    sign, it is the argument, for every number that fits in [buf[16]]; the array
    is overrun exactly by the numbers of more than 16 characters, sign included,
    so 64-bit hexadecimal always fits and 64-bit decimal does not. *)
Theorem printint_correct xx base sign : 2 <= base <= 16 →
  let v := printed xx sign in
  let room := if v <? 0 then 15 else 16 in
  (∀ out, printint xx base sign = Some out → parse base out = v) ∧
  (printint xx base sign = None ↔ base ^ room <= Z.abs v) ∧
  (base = 16 → sign = false → is_Some (printint xx base sign)).
Proof.
  intros Hb v room. pose proof (printint_spec xx base sign Hb) as Hs. cbn zeta in Hs. fold v in Hs. fold room in Hs.
  split_and!.
  - intros out E. rewrite E in Hs. apply Hs.
  - destruct (printint xx base sign) as [out|]; [|by split]. split; [done|]. intros Hle. destruct Hs. lia.
  - intros -> ->. destruct (printint xx 16 false) as [out|]; [by eexists|]. exfalso.
    unfold room, v, printed in Hs. pose proof (u64_range xx). rewrite (proj2 (Z.ltb_ge _ 0)) in Hs by lia.
    change (16 ^ 16) with (2 ^ 64) in Hs. lia.
Qed.

Lemma printint_correct_witness :
  parse 10 (default [] (printint (- 1234567) 10 true)) = - 1234567 ∧ printint (10 ^ 16) 10 true = None.
Proof.
  split.
  - apply (proj1 (printint_correct (- 1234567) 10 true ltac:(lia)) (str "-1234567")). vm_compute. reflexivity.
  - apply (proj1 (proj2 (printint_correct (10 ^ 16) 10 true ltac:(lia)))). vm_compute. discriminate.
Defined.

Lemma format_conv c0 args r : format_one [c0] args = (λ o, (o, [], [])) <$> r →
  format [37; c0] args = (λ o, o ++ []) <$> r.
Proof.
  intros E. change (format [37; c0] args) with
    (match format_one [c0] args with None => None | Some (o, fmt, args) => (λ r, o ++ r) <$> format_loop 2 fmt args end).
  rewrite E. by destruct r.
Qed.

Lemma format_int c base sign z :
  (c, base, sign) ∈ [("%d", 10, true); ("%u", 10, false); ("%x", 16, false)]%string →
  format (str c) [VWord z] = (λ o, o ++ []) <$> printint (s32 z) base sign.
Proof.
  rewrite !elem_of_cons. intros [E|[E|[E|E]]]; [injection E as -> -> ->..|by apply elem_of_nil in E].
  - apply (format_conv 100). reflexivity.
  - apply (format_conv 117). reflexivity.
  - apply (format_conv 120). reflexivity.
Qed.

(** C40: [printf] converts the argument of [%u] through [int], so an unsigned
    number of 2^31 or more is printed as a 64-bit number of 20 digits and overruns
    [buf[16]]; [%d] and [%x] never do. *)
Theorem printf_unsigned_overrun z :
  (2 ^ 31 <= z < 2 ^ 32 → format (str "%u") [VWord z] = None) ∧
  (is_Some (format (str "%d") [VWord z])) ∧ (is_Some (format (str "%x") [VWord z])).
Proof.
  assert (∀ base sign, printint (s32 z) base sign = None → 2 <= base <= 16 →
    base ^ (if printed (s32 z) sign <? 0 then 15 else 16) <= Z.abs (printed (s32 z) sign)) as Hnone.
  { intros base sign E Hb. pose proof (printint_spec (s32 z) base sign Hb) as Hs. by rewrite E in Hs. }
  pose proof (signed_range 32 z ltac:(lia)) as Hr. fold (s32 z) in Hr. change (32 - 1) with 31 in Hr.
  split_and!.
  - intros Hz. rewrite (format_int "%u" 10 false z) by set_solver.
    pose proof (printint_spec (s32 z) 10 false ltac:(lia)) as Hs. destruct (printint (s32 z) 10 false) as [out|]; [|done].
    exfalso. destruct Hs as [_ Hs]. unfold printed in Hs. pose proof (u64_range (s32 z)) as Hu.
    rewrite (proj2 (Z.ltb_ge _ 0)) in Hs by lia. revert Hs. unfold s32, signed. change (32 - 1) with 31.
    rewrite Z.mod_small by lia. rewrite (proj2 (Z.ltb_ge z _)) by lia. unfold u64.
    rewrite <- (Z.mod_add _ 1) by lia. rewrite Z.mod_small by lia. lia.
  - rewrite (format_int "%d" 10 true z) by set_solver.
    destruct (printint (s32 z) 10 true) as [out|] eqn:E; [by eexists|]. exfalso.
    specialize (Hnone 10 true E ltac:(lia)). unfold printed in Hnone. rewrite signed_small in Hnone by lia.
    destruct (s32 z <? 0); lia.
  - rewrite (format_int "%x" 16 false z) by set_solver.
    destruct (printint (s32 z) 16 false) as [out|] eqn:E; [by eexists|]. exfalso.
    specialize (Hnone 16 false E ltac:(lia)). unfold printed in Hnone. pose proof (u64_range (s32 z)).
    rewrite (proj2 (Z.ltb_ge _ 0)) in Hnone by lia. change (16 ^ 16) with (2 ^ 64) in Hnone. lia.
Qed.
