(* ===== verification/Proc.v ===== *)
(** * proc.c: the process table

    Allocation of processes, the scheduler, sleeping and waking.  A process is an
    index of the table.  The code after [swtch] runs when the process is scheduled
    again: what the rest of the machine did in between is a function on the
    kernel's state.  [fork], [exit] and [wait] are in Life.v. *)

From S2P Require Import Prelude CString Riscv Kalloc Vm Param Bio Log.
From S2P Require Import BlockLayer BlockLog FsDisk Fs Pipe Kernel Printf.

Section Proc.
Context (end_ trampoline forkret_addr : Z).

(** [acquire(&p->lock)] *)
Definition plock (i : nat) : M K unit := acquire (L_proc i).
Definition punlock (i : nat) : M K unit := release (L_proc i).

Definition procinit : M K unit :=
  for_range 0 (Z.to_nat NPROC) (λ i,
    upd_proc i (set_state UNUSED) ;;;
    upd_proc i (set_kstack (KSTACK (Z.of_nat i)))).

Definition allocpid : M K Z :=
  acquire L_pid ;;;
  let! pid := gets k_nextpid in
  modify (set_nextpid (pid + 1)) ;;;
  release L_pid ;;;
  ret pid.

Definition proc_pagetable (i : nat) : M K Z :=
  let! p := gets (proc_at i) in
  let! pagetable := onmem uvmcreate in
  if pagetable =? 0 then ret 0
  else
    let! r := onmem (mappages pagetable TRAMPOLINE PGSIZE trampoline (Z.lor PTE_R PTE_X)) in
    if r <? 0 then onmem (uvmfree end_ pagetable 0) ;;; ret 0
    else
      let! r := onmem (mappages pagetable TRAPFRAME PGSIZE (p_trapframe p) (Z.lor PTE_R PTE_W)) in
      if r <? 0 then
        onmem (uvmunmap end_ pagetable TRAMPOLINE 1 false) ;;;
        onmem (uvmfree end_ pagetable 0) ;;;
        ret 0
      else ret pagetable.

Definition proc_freepagetable (pagetable sz : Z) : M K unit :=
  onmem (uvmunmap end_ pagetable TRAMPOLINE 1 false) ;;;
  onmem (uvmunmap end_ pagetable TRAPFRAME 1 false) ;;;
  onmem (uvmfree end_ pagetable sz).

Definition freeproc (i : nat) : M K unit :=
  let! p := gets (proc_at i) in
  (if truth (p_trapframe p) then onmem (kfree end_ (p_trapframe p)) else ret tt) ;;;
  upd_proc i (set_trapframe 0) ;;;
  (if truth (p_pagetable p) then proc_freepagetable (p_pagetable p) (p_sz p) else ret tt) ;;;
  upd_proc i (set_pagetable 0) ;;;
  upd_proc i (set_sz 0) ;;;
  upd_proc i (set_pid 0) ;;;
  upd_proc i (set_parent None) ;;;
  upd_proc i (λ p, set_name (<[0%nat := 0]> (p_name p)) p) ;;;
  upd_proc i (set_chan None) ;;;
  upd_proc i (set_killed 0) ;;;
  upd_proc i (set_xstate 0) ;;;
  upd_proc i (set_state UNUSED).

(** The loop that looks for an unused slot; it returns with its lock held. *)
Definition find_unused : M K (option nat) :=
  for_each procs_idx (λ i,
    plock i ;;;
    let! p := gets (proc_at i) in
    if decide (p_state p = UNUSED) then ret (Some i)
    else punlock i ;;; ret None).

Definition allocproc : M K (option nat) :=
  let! f := find_unused in
  match f with
  | None => ret None
  | Some i =>
      let! pid := allocpid in
      upd_proc i (set_pid pid) ;;;
      upd_proc i (set_state USED) ;;;
      let! tf := onmem kalloc in
      upd_proc i (set_trapframe tf) ;;;
      if tf =? 0 then freeproc i ;;; punlock i ;;; ret None
      else
        let! pt := proc_pagetable i in
        upd_proc i (set_pagetable pt) ;;;
        if pt =? 0 then freeproc i ;;; punlock i ;;; ret None
        else
          let! p := gets (proc_at i) in
          upd_proc i (set_context (forkret_addr, p_kstack p + PGSIZE)) ;;;
          ret (Some i)
  end.

(** [initcode] is the array of the source. *)
Definition initcode : list Z :=
  [0x17; 0x05; 0x00; 0x00; 0x13; 0x05; 0x45; 0x02;
   0x97; 0x05; 0x00; 0x00; 0x93; 0x85; 0x35; 0x02;
   0x93; 0x08; 0x70; 0x00; 0x73; 0x00; 0x00; 0x00;
   0x93; 0x08; 0x20; 0x00; 0x73; 0x00; 0x00; 0x00;
   0xef; 0xf0; 0x9f; 0xff; 0x2f; 0x69; 0x6e; 0x69;
   0x74; 0x00; 0x00; 0x24; 0x00; 0x00; 0x00; 0x00;
   0x00; 0x00; 0x00; 0x00].

(** [allocproc] is not checked; a null process here is undefined. *)
Definition userinit : M K unit :=
  let! f := allocproc in
  modify (set_initproc f) ;;;
  match f with
  | None => undefined "null process"
  | Some i =>
      let! p := gets (proc_at i) in
      onmem (uvmfirst (p_pagetable p) initcode) ;;;
      upd_proc i (set_sz PGSIZE) ;;;
      tf_set i TF_epc 0 ;;;
      tf_set i TF_sp PGSIZE ;;;
      upd_proc i (λ p, set_name (safestrcpy_buf (p_name p) (str "initcode") 16) p) ;;;
      let! cwd := onfs (namei 0%nat (str "/")) in
      upd_proc i (set_cwd cwd) ;;;
      upd_proc i (set_state RUNNABLE) ;;;
      punlock i
  end.

(** [n] is an [int]. *)
Definition growproc (n : Z) : M K Z :=
  let! i := myproc in
  let! p := gets (proc_at i) in
  let sz := p_sz p in
  if 0 <? n then
    let! sz := onmem (uvmalloc end_ (p_pagetable p) sz (u64 (sz + n)) PTE_W) in
    if sz =? 0 then ret (-1)
    else upd_proc i (set_sz sz) ;;; ret 0
  else if n <? 0 then
    let! sz := onmem (uvmdealloc end_ (p_pagetable p) sz (u64 (sz + n))) in
    upd_proc i (set_sz sz) ;;; ret 0
  else upd_proc i (set_sz sz) ;;; ret 0.
End Proc.

(** ** Scheduling *)

(** The depth of [push_off] nesting while no other [push_off] is in progress: the
    number of spin locks the hart holds. *)
Definition is_spin (lk : lockname) : bool :=
  match lk with SL_buf _ | SL_inode _ => false | _ => true end.
Definition noff (h : list lockname) : nat := length (filter (λ lk, is_spin lk = true) h).

Definition held_locks : M K (list lockname) := λ t, Ok (held t) t.

(** [swtch]: other threads run, [run] is what they do; the thread comes back as the
    same process. *)
Definition swtch (run : K → K) : M K unit := modify (λ s, set_cur (k_cur s) (run s)).

(** Interrupts are off while a spin lock is held (Spinlock.v), so the last check of
    the code cannot fail after the first one succeeded. *)
Definition sched_checks : M K unit :=
  let! i := myproc in
  let! h := holding (L_proc i) in
  panic_if (negb h) "sched p->lock" ;;;
  let! hs := held_locks in
  panic_if (negb (noff hs =? 1)%nat) "sched locks" ;;;
  let! p := gets (proc_at i) in
  panic_if (bool_decide (p_state p = RUNNING)) "sched running".

Definition sched (run : K → K) : M K unit :=
  sched_checks ;;;
  swtch run.

Definition yield (run : K → K) : M K unit :=
  let! i := myproc in
  plock i ;;;
  upd_proc i (set_state RUNNABLE) ;;;
  sched run ;;;
  punlock i.

Definition sleep (run : K → K) (c : chan) (lk : lockname) : M K unit :=
  let! i := myproc in
  plock i ;;;
  release lk ;;;
  upd_proc i (set_chan (Some c)) ;;;
  upd_proc i (set_state SLEEPING) ;;;
  sched run ;;;
  upd_proc i (set_chan None) ;;;
  punlock i ;;;
  acquire lk.

(** [wakeup] may run outside a process, in an interrupt handler. *)
Definition wakeup (c : chan) : M K unit :=
  let! me := gets k_cur in
  let! _ := for_each procs_idx (λ i,
    if decide (me = Some i) then ret (@None unit)
    else
      plock i ;;;
      let! p := gets (proc_at i) in
      (if decide (p_state p = SLEEPING ∧ p_chan p = Some c) then upd_proc i (set_state RUNNABLE) else ret tt) ;;;
      punlock i ;;;
      ret None) in
  ret tt.

Definition kill (pid : Z) : M K Z :=
  let! r := for_each procs_idx (λ i,
    plock i ;;;
    let! p := gets (proc_at i) in
    if p_pid p =? pid then
      upd_proc i (set_killed 1) ;;;
      (if decide (p_state p = SLEEPING) then upd_proc i (set_state RUNNABLE) else ret tt) ;;;
      punlock i ;;;
      ret (Some 0)
    else punlock i ;;; ret None) in
  ret (default (-1) r).

Definition setkilled (i : nat) : M K unit :=
  plock i ;;; upd_proc i (set_killed 1) ;;; punlock i.

Definition killed (i : nat) : M K Z :=
  plock i ;;;
  let! p := gets (proc_at i) in
  punlock i ;;;
  ret (p_killed p).

(** One pass of the scheduler's endless loop over the table; [run i] is what
    process [i] does until it switches back.  The result is [found]. *)
Definition scheduler_step (run : nat → K → K) (i : nat) : M K bool :=
  plock i ;;;
  let! p := gets (proc_at i) in
  if decide (p_state p = RUNNABLE) then
    upd_proc i (set_state RUNNING) ;;;
    modify (set_cur (Some i)) ;;;
    modify (run i) ;;;
    modify (set_cur None) ;;;
    punlock i ;;;
    ret true
  else punlock i ;;; ret false.

Fixpoint scheduler_pass (run : nat → K → K) (idx : list nat) (found : bool) : M K bool :=
  match idx with
  | [] => ret found
  | i :: idx =>
      let! f := scheduler_step run i in
      scheduler_pass run idx (found || f)
  end.

Definition scheduler (run : nat → K → K) : M K bool :=
  modify (set_cur None) ;;;
  scheduler_pass run procs_idx false.

(** A new process starts here, with the lock its scheduler took. *)
Definition forkret (initlog : Z → superblock → M lstate unit) (usertrapret : M K unit) : M K unit :=
  let! i := myproc in
  punlock i ;;;
  let! first := gets k_first in
  (if first then
    onfs (fsinit initlog ROOTDEV) ;;;
    modify (set_first false)
   else ret tt) ;;;
  usertrapret.

(** ** User and kernel memory *)

(** [either_copyout(user_dst, dst, src, len)] with the bytes of [src]. *)
Definition either_copyout (user_dst : bool) (dst : Z) (src : list Z) : M K Z :=
  let! i := myproc in
  let! p := gets (proc_at i) in
  if user_dst then onmem (copyout (p_pagetable p) dst src)
  else onmem (upd_mem (λ m, put_bytes m dst src)) ;;; ret 0.

(** The result, and the bytes that were stored. *)
Definition either_copyin (user_src : bool) (src len : Z) : M K (Z * list Z) :=
  let! i := myproc in
  let! p := gets (proc_at i) in
  if user_src then onmem (copyin (p_pagetable p) src len)
  else
    let! bs := onmem (gets (λ k, bytes_at (kmem_mem k) src (Z.to_nat len))) in
    ret (0, bs).

(** ** Listings *)

Definition state_name (x : procstate) : list Z :=
  str match x with
      | UNUSED => "unused" | USED => "used" | SLEEPING => "sleep "
      | RUNNABLE => "runble" | RUNNING => "run   " | ZOMBIE => "zombie"
      end.

Definition procdump : M K unit :=
  printf "
" [] ;;;
  for_range 0 (Z.to_nat NPROC) (λ i,
    let! p := gets (proc_at i) in
    if decide (p_state p = UNUSED) then ret tt
    else
      printf "%d %s %s" [VWord (p_pid p); VStr (Some (state_name (p_state p))); VStr (Some (cstring (p_name p)))] ;;;
      printf "
" []).

(** [struct proc_stat]: 32 bytes; [garbage] is what its place on the stack held. *)
Definition PROC_STAT : Z := 32.
Definition proc_stat (p : proc) (ticks : Z) (garbage : list Z) : list Z :=
  le_bytes 4 (p_pid p) ++ le_bytes 4 (procstate_num (p_state p)) ++ le_bytes 4 ticks ++
  le_bytes 4 (u32 (p_sz p)) ++ safestrcpy_buf (drop 16 garbage) (p_name p) 16.

(** The loop of [getprocs]: the entries filled so far. *)
Fixpoint getprocs_loop (stack : list (list Z)) (idx : list nat) (max : Z) (acc : list (list Z)) : M K (list (list Z)) :=
  match idx with
  | [] => ret acc
  | i :: idx =>
      if Z.of_nat (length acc) <? max then
        plock i ;;;
        let! p := gets (proc_at i) in
        let! ticks := gets k_ticks in
        punlock i ;;;
        getprocs_loop stack idx max
          (if decide (p_state p = UNUSED) then acc
           else acc ++ [proc_stat p ticks (default (replicate 32 0) (stack !! length acc))])
      else ret acc
  end.

(** [stack]: the uninitialised array [local_stats]. *)
Definition getprocs (stack : list (list Z)) (ps max : Z) : M K Z :=
  if (max <=? 0) || (NPROC <? max) then ret (-1)
  else
    let! stats := getprocs_loop stack procs_idx max [] in
    let! i := myproc in
    let! p := gets (proc_at i) in
    let! r := onmem (copyout (p_pagetable p) ps (concat stats)) in
    if r <? 0 then ret (-1) else ret (Z.of_nat (length stats)).

(** ** The interface that pipe.c needs *)

Definition kernel_pipes (end_ : Z) : PipeEnv K := {|
  get_pipe pi s := k_pipes s pi;
  set_pipe pi p s := set_pipes (fupdz (k_pipes s) pi p) s;
  pipe_killed := let! i := myproc in let! k := killed i in ret (truth k);
  pipe_copyin a :=
    let! i := myproc in
    let! p := gets (proc_at i) in
    let! r := onmem (copyin (p_pagetable p) a 1) in
    ret (if r.1 =? -1 then None else head r.2);
  pipe_copyout a c :=
    let! i := myproc in
    let! p := gets (proc_at i) in
    let! r := onmem (copyout (p_pagetable p) a [c]) in
    ret (negb (r =? -1));
  pipe_wakeup pi c := wakeup (CH_pipe pi c);
  pipe_kfree pa := onmem (kfree end_ pa) |}.
