(* ===== verification/ProcSpec.v ===== *)
(** * proc.c: what the operations do to the process table

    [wakeup], [kill], [sleep], [allocproc] and the scheduler, process by process. *)

From S2P Require Import Prelude CString Riscv Kalloc Vm Param Bio Log.
From S2P Require Import BlockLayer BlockLog FsDisk Fs Pipe Kernel Printf Proc.

(** The table has [NPROC] processes. *)
Definition table_ok (s : K) : Prop := length (k_procs s) = Z.to_nat NPROC.

(** No process lock is held. *)
Definition no_plock (h : list lockname) : Prop := ∀ i, L_proc i ∉ h.

(** One process is changed. *)
Definition on_proc (i : nat) (f : proc → proc) (s : K) : K := set_procs (<[i := f (proc_at i s)]> (k_procs s)) s.

Lemma procs_set v s : k_procs (set_procs v s) = v.
Proof. by destruct s. Qed.

Lemma set_procs_twice v w s : set_procs v (set_procs w s) = set_procs v s.
Proof. by destruct s. Qed.

Lemma set_procs_same s : set_procs (k_procs s) s = s.
Proof. by destruct s. Qed.

Lemma cur_set_procs v s : k_cur (set_procs v s) = k_cur s.
Proof. by destruct s. Qed.

Lemma upd_proc_run i f h s : upd_proc i f (Thread h s) = Ok tt (Thread h (on_proc i f s)).
Proof. done. Qed.

Lemma on_proc_same i f s : (i < length (k_procs s))%nat → proc_at i (on_proc i f s) = f (proc_at i s).
Proof. intros Hi. unfold on_proc, proc_at at 1. by rewrite procs_set, list_lookup_insert_eq. Qed.

Lemma on_proc_other i j f s : i ≠ j → proc_at j (on_proc i f s) = proc_at j s.
Proof. intros Hij. unfold on_proc, proc_at at 1. by rewrite procs_set, list_lookup_insert_ne. Qed.

Lemma on_proc_length i f s : length (k_procs (on_proc i f s)) = length (k_procs s).
Proof. unfold on_proc. by rewrite procs_set, length_insert. Qed.

Lemma on_proc_cur i f s : k_cur (on_proc i f s) = k_cur s.
Proof. unfold on_proc. apply cur_set_procs. Qed.

Lemma on_proc_id i f s : f (proc_at i s) = proc_at i s → on_proc i f s = s.
Proof.
  intros E. unfold on_proc. rewrite E. unfold proc_at.
  destruct (k_procs s !! i) as [p|] eqn:Ep; cbn [default from_option id].
  - rewrite list_insert_id by done. apply set_procs_same.
  - rewrite list_insert_ge by (by apply lookup_ge_None). apply set_procs_same.
Qed.

Lemma on_proc_comp i f g s : on_proc i f (on_proc i g s) = on_proc i (λ p, f (g p)) s.
Proof.
  unfold on_proc. rewrite procs_set, set_procs_twice. unfold proc_at. rewrite procs_set.
  destruct (decide (i < length (k_procs s))%nat) as [Hi|Hi].
  - rewrite (list_lookup_insert_eq) by done. cbn [default from_option id]. by rewrite list_insert_insert_eq.
  - by rewrite !list_insert_ge by (rewrite ?length_insert; lia).
Qed.

Lemma set_procs_on v i f s : set_procs v (on_proc i f s) = set_procs v s.
Proof. apply set_procs_twice. Qed.

(** Changes of different processes, one after the other. *)
Lemma fold_on_proc (g : nat → proc → proc) idx s j :
  NoDup idx → Forall (λ i, (i < length (k_procs s))%nat) idx →
  let s' := foldl (λ s i, on_proc i (g i) s) s idx in
  proc_at j s' = (if decide (j ∈ idx) then g j (proc_at j s) else proc_at j s) ∧
  length (k_procs s') = length (k_procs s) ∧ s' = set_procs (k_procs s') s.
Proof.
  revert s; induction idx as [|i idx IH]; intros s Hn Hf; cbn [foldl].
  - rewrite decide_False by apply not_elem_of_nil. split_and!; [done|done|]. by rewrite set_procs_same.
  - apply NoDup_cons in Hn as [Hni Hn]. apply Forall_cons in Hf as [Hi Hf].
    destruct (IH (on_proc i (g i) s) Hn) as (E1 & E2 & E3); [by rewrite on_proc_length|].
    split_and!.
    + rewrite E1. destruct (decide (j = i)) as [->|Hji].
      * rewrite decide_False by done. rewrite decide_True by left. by apply on_proc_same.
      * rewrite on_proc_other by done. destruct (decide (j ∈ idx)).
        -- by rewrite decide_True by (by right).
        -- by rewrite decide_False by (rewrite not_elem_of_cons; done).
    + by rewrite E2, on_proc_length.
    + rewrite E3 at 1. by rewrite set_procs_on.
Qed.

(** A loop whose body changes one process and goes on. *)
Lemma for_each_on_proc {R} (g : nat → proc → proc) (body : nat → M K (option R)) h idx s :
  (∀ i s, i ∈ idx → body i (Thread h s) = Ok None (Thread h (on_proc i (g i) s))) →
  for_each idx body (Thread h s) = Ok None (Thread h (foldl (λ s i, on_proc i (g i) s) s idx)).
Proof.
  revert s; induction idx as [|i idx IH]; intros s Hb; cbn [for_each foldl]; [done|].
  rewrite (bind_Ok _ _ _ _ _ (Hb i s (list_elem_of_here _ _))). apply IH. intros j s' Hj. apply Hb. by right.
Qed.

Lemma procs_idx_elem i : i ∈ procs_idx ↔ (i < Z.to_nat NPROC)%nat.
Proof. unfold procs_idx. rewrite elem_of_seq. lia. Qed.

Lemma procs_idx_nodup : NoDup procs_idx.
Proof. apply NoDup_seq. Qed.

Lemma procs_idx_in s : table_ok s → Forall (λ i, (i < length (k_procs s))%nat) procs_idx.
Proof. intros Ht. apply Forall_forall. intros i Hi%procs_idx_elem. by rewrite Ht. Qed.

Lemma plock_run i h s : L_proc i ∉ h → plock i (Thread h s) = Ok tt (Thread (L_proc i :: h) s).
Proof. intros Hi. unfold plock. by apply acquire_Ok. Qed.

Lemma punlock_run i h s : punlock i (Thread (L_proc i :: h) s) = Ok tt (Thread h s).
Proof. apply release_Ok. Qed.

(** ** [wakeup] *)

Definition wake (c : chan) (p : proc) : proc :=
  if decide (p_state p = SLEEPING ∧ p_chan p = Some c) then set_state RUNNABLE p else p.

Definition woken (c : chan) (s : K) : K :=
  foldl (λ s1 i, on_proc i (λ p, if decide (k_cur s = Some i) then p else wake c p) s1) s procs_idx.

Lemma wakeup_run c h s : no_plock h → wakeup c (Thread h s) = Ok tt (Thread h (woken c s)).
Proof.
  intros Hh. unfold wakeup. kstep. set (g := λ i p, if decide (k_cur s = Some i) then p else wake c p).
  assert (∀ i s1, L_proc i ∉ h → (if decide (k_cur s = Some i) then ret (@None unit)
    else plock i ;;; let! p := gets (proc_at i) in
      (if decide (p_state p = SLEEPING ∧ p_chan p = Some c) then upd_proc i (set_state RUNNABLE) else ret tt) ;;;
      punlock i ;;; ret None) (Thread h s1) = Ok None (Thread h (on_proc i (g i) s1))) as Hbody.
  { intros i s1 Hi. unfold g. destruct (decide (k_cur s = Some i)); [by rewrite on_proc_id|].
    rewrite (bind_Ok _ _ _ _ _ (plock_run i h s1 Hi)). kstep. unfold wake. destruct (decide _) as [Hd|Hd].
    - rewrite (bind_Ok _ _ _ _ _ (upd_proc_run _ _ _ _)), (bind_Ok _ _ _ _ _ (punlock_run _ _ _)).
      unfold ret, on_proc. rewrite decide_True by exact Hd. reflexivity.
    - kstep. rewrite (bind_Ok _ _ _ _ _ (punlock_run _ _ _)). rewrite on_proc_id; [reflexivity|]. cbv beta. rewrite decide_False by exact Hd. reflexivity. }
  rewrite (bind_Ok _ _ _ _ _ (for_each_on_proc g _ h procs_idx s (λ i s1 _, Hbody i s1 (Hh i)))). unfold ret, woken. reflexivity.
Qed.

(** ** Loops that stop at the first match *)

Lemma for_each_find {R} (P : proc → Prop) `{∀ p, Decision (P p)} (body : nat → M K (option R)) h s (r : nat → R) (t : nat → thread K) :
  (∀ i, ¬ P (proc_at i s) → L_proc i ∉ h → body i (Thread h s) = Ok None (Thread h s)) →
  (∀ i, P (proc_at i s) → L_proc i ∉ h → body i (Thread h s) = Ok (Some (r i)) (t i)) →
  no_plock h → ∀ n a, (a + n = length (k_procs s))%nat →
  for_each (seq a n) body (Thread h s) =
    match list_find P (drop a (k_procs s)) with
    | Some (i, _) => Ok (Some (r (a + i)%nat)) (t (a + i)%nat)
    | None => Ok None (Thread h s)
    end.
Proof.
  intros Hno Hyes Hh. induction n as [|n IH]; intros a Ha; cbn [seq for_each].
  { rewrite drop_ge by lia. reflexivity. }
  destruct (lookup_lt_is_Some_2 (k_procs s) a ltac:(lia)) as [p Hp]. rewrite (drop_S _ _ _ Hp). cbn [list_find].
  assert (proc_at a s = p) as Ea by (unfold proc_at; by rewrite Hp).
  destruct (decide (P p)) as [Hd|Hd].
  - rewrite (bind_Ok _ _ _ _ _ (Hyes a ltac:(by rewrite Ea) (Hh a))). unfold ret. by rewrite Nat.add_0_r.
  - rewrite (bind_Ok _ _ _ _ _ (Hno a ltac:(by rewrite Ea) (Hh a))), IH by lia.
    destruct (list_find P (drop (S a) (k_procs s))) as [[i q]|]; [|reflexivity]. cbn [fmap option_fmap option_map prod_map fst].
    by replace (S a + i)%nat with (a + S i)%nat by lia.
Qed.

Lemma for_each_procs {R} (P : proc → Prop) `{∀ p, Decision (P p)} (body : nat → M K (option R)) h s (r : nat → R) (t : nat → thread K) :
  table_ok s → no_plock h →
  (∀ i, ¬ P (proc_at i s) → L_proc i ∉ h → body i (Thread h s) = Ok None (Thread h s)) →
  (∀ i, P (proc_at i s) → L_proc i ∉ h → body i (Thread h s) = Ok (Some (r i)) (t i)) →
  for_each procs_idx body (Thread h s) =
    match list_find P (k_procs s) with
    | Some (i, _) => Ok (Some (r i)) (t i)
    | None => Ok None (Thread h s)
    end.
Proof.
  intros Ht Hh Hno Hyes. unfold procs_idx. rewrite (for_each_find P body h s r t Hno Hyes Hh) by (by rewrite Ht).
  by rewrite drop_0.
Qed.

(** ** [kill] *)

Definition kill_proc (p : proc) : proc :=
  let q := set_killed 1 p in if decide (p_state p = SLEEPING) then set_state RUNNABLE q else q.

Lemma kill_run pid h s : table_ok s → no_plock h →
  kill pid (Thread h s) =
    match list_find (λ p, p_pid p = pid) (k_procs s) with
    | Some (i, _) => Ok 0 (Thread h (on_proc i kill_proc s))
    | None => Ok (-1) (Thread h s)
    end.
Proof.
  intros Ht Hh. unfold kill. unfold bind at 1.
  rewrite (for_each_procs (λ p, p_pid p = pid) _ h s (λ _, 0) (λ i, Thread h (on_proc i kill_proc s)) Ht Hh).
  - by destruct (list_find _ _) as [[i p]|].
  - intros i Hi Hl. rewrite (bind_Ok _ _ _ _ _ (plock_run i h s Hl)). kstep. cbn [st]. rewrite (proj2 (Z.eqb_neq _ _) Hi).
    by rewrite (bind_Ok _ _ _ _ _ (punlock_run _ _ _)).
  - intros i Hi Hl. rewrite (bind_Ok _ _ _ _ _ (plock_run i h s Hl)). kstep. cbn [st]. rewrite (proj2 (Z.eqb_eq _ _) Hi).
    rewrite (bind_Ok _ _ _ _ _ (upd_proc_run _ _ _ _)). destruct (decide (p_state (proc_at i s) = SLEEPING)) as [Hd|Hd].
    + rewrite (bind_Ok _ _ _ _ _ (upd_proc_run _ _ _ _)), (bind_Ok _ _ _ _ _ (punlock_run _ _ _)), on_proc_comp.
      unfold ret, on_proc, kill_proc. by rewrite decide_True.
    + kstep. rewrite (bind_Ok _ _ _ _ _ (punlock_run _ _ _)). unfold ret, on_proc, kill_proc. by rewrite decide_False.
Qed.

(** ** Claims about [wakeup], [kill] and the scheduler *)

(** [wakeup(chan)] makes exactly the processes runnable that sleep on [chan], the
    caller excepted, and changes nothing else in the kernel. *)
Theorem wakeup_correct c h s : table_ok s → no_plock h →
  ∃ s', wakeup c (Thread h s) = Ok tt (Thread h s') ∧ s' = set_procs (k_procs s') s ∧ table_ok s' ∧
    ∀ i, (i < Z.to_nat NPROC)%nat →
      proc_at i s' = if decide (k_cur s ≠ Some i ∧ p_state (proc_at i s) = SLEEPING ∧ p_chan (proc_at i s) = Some c)
                     then set_state RUNNABLE (proc_at i s) else proc_at i s.
Proof.
  intros Ht Hh. exists (woken c s). rewrite (wakeup_run c h s Hh). split; [done|].
  set (g := λ i p, if decide (k_cur s = Some i) then p else wake c p).
  assert (∀ j, let s' := woken c s in
    proc_at j s' = (if decide (j ∈ procs_idx) then g j (proc_at j s) else proc_at j s) ∧
    length (k_procs s') = length (k_procs s) ∧ s' = set_procs (k_procs s') s) as Hw.
  { intros j. apply (fold_on_proc g); [apply procs_idx_nodup|by apply procs_idx_in]. }
  destruct (Hw 0%nat) as (_ & E2 & E3). split_and!; [done|unfold table_ok; by rewrite E2|].
  intros i Hi. destruct (Hw i) as (-> & _ & _). rewrite decide_True by (by apply procs_idx_elem). unfold g, wake.
  destruct (decide (k_cur s = Some i)) as [Hc|Hc]; [rewrite decide_False by (intros [Hn _]; exact (Hn Hc)); reflexivity|].
  destruct (decide (p_state (proc_at i s) = SLEEPING ∧ _)) as [Hd|Hd].
  - rewrite decide_True by exact (conj Hc Hd). reflexivity.
  - rewrite decide_False by (intros [_ Hn]; exact (Hd Hn)). reflexivity.
Qed.

(** *** The scheduler *)

(** What a turn of process [i] does to the kernel. *)
Definition turn (run : nat → K → K) (i : nat) (s : K) : K :=
  if decide (p_state (proc_at i s) = RUNNABLE)
  then set_cur None (run i (set_cur (Some i) (on_proc i (set_state RUNNING) s))) else s.

Lemma scheduler_step_run run i h s : L_proc i ∉ h →
  scheduler_step run i (Thread h s) = Ok (bool_decide (p_state (proc_at i s) = RUNNABLE)) (Thread h (turn run i s)).
Proof.
  intros Hi. unfold scheduler_step, turn. rewrite (bind_Ok _ _ _ _ _ (plock_run i h s Hi)). kstep. cbn [st].
  destruct (decide (p_state (proc_at i s) = RUNNABLE)) as [Hd|Hd].
  - rewrite (bind_Ok _ _ _ _ _ (upd_proc_run _ _ _ _)). do 3 kstep. cbn [held st]. rewrite (bind_Ok _ _ _ _ _ (punlock_run _ _ _)).
    unfold ret. by rewrite bool_decide_true.
  - rewrite (bind_Ok _ _ _ _ _ (punlock_run _ _ _)). unfold ret. by rewrite bool_decide_false.
Qed.

Lemma scheduler_pass_run run h idx s found : no_plock h →
  ∃ b, scheduler_pass run idx found (Thread h s) = Ok b (Thread h (foldl (λ s i, turn run i s) s idx)) ∧
    (found = true → b = true).
Proof.
  intros Hh. revert s found. induction idx as [|i idx IH]; intros s found; cbn [scheduler_pass foldl].
  - by exists found.
  - rewrite (bind_Ok _ _ _ _ _ (scheduler_step_run run i h s (Hh i))).
    destruct (IH (turn run i s) (found || bool_decide (p_state (proc_at i s) = RUNNABLE))) as (b & E & Hb).
    exists b. split; [done|]. intros ->. by apply Hb.
Qed.

Lemma scheduler_pass_app run h a b s f : 
  scheduler_pass run (a ++ b) f (Thread h s) = (let! f := scheduler_pass run a f in scheduler_pass run b f) (Thread h s).
Proof.
  revert s f h. induction a as [|i a IH]; intros s f h; cbn [app scheduler_pass]; [done|].
  unfold bind. destruct (scheduler_step run i _) as [x [h' s']| |]; [apply IH|reflexivity|reflexivity].
Qed.

(** [run] leaves process [j] waiting for its turn. *)
Definition leaves_runnable (run : nat → K → K) (j : nat) : Prop :=
  ∀ i s, i ≠ j → p_state (proc_at j s) = RUNNABLE → p_state (proc_at j (run i s)) = RUNNABLE.

Lemma proc_at_set_cur j c s : proc_at j (set_cur c s) = proc_at j s.
Proof. by destruct s. Qed.

Lemma turn_leaves run i j s : leaves_runnable run j → i ≠ j →
  p_state (proc_at j s) = RUNNABLE → p_state (proc_at j (turn run i s)) = RUNNABLE.
Proof.
  intros Hr Hij Hs. unfold turn. case_decide; [|done]. rewrite proc_at_set_cur. apply Hr; [done|].
  by rewrite proc_at_set_cur, on_proc_other.
Qed.

Lemma turns_leave run j idx s : leaves_runnable run j → j ∉ idx →
  p_state (proc_at j s) = RUNNABLE → p_state (proc_at j (foldl (λ s i, turn run i s) s idx)) = RUNNABLE.
Proof.
  intros Hr. revert s. induction idx as [|i idx IH]; intros s Hj Hs; [done|]. apply not_elem_of_cons in Hj as [H1 H2].
  cbn [foldl]. apply IH; [done|]. by apply turn_leaves.
Qed.

(** C30: the scheduler is fair.  A pass over the table ends, and gives every process
    one turn, in the order of the table; so a process [j] that is runnable when the
    pass begins, and that the processes before it leave runnable, is switched to in
    this pass, with [c->proc] and its state [RUNNING] set, and the pass reports that
    it found something to run. *)
Theorem scheduler_fair run h s j : no_plock h → (j < Z.to_nat NPROC)%nat →
  p_state (proc_at j s) = RUNNABLE → leaves_runnable run j →
  let s1 := foldl (λ s i, turn run i s) (set_cur None s) (seq 0 j) in
  let s2 := set_cur None (run j (set_cur (Some j) (on_proc j (set_state RUNNING) s1))) in
  scheduler run (Thread h s) =
    Ok true (Thread h (foldl (λ s i, turn run i s) s2 (seq (S j) (Z.to_nat NPROC - S j)))).
Proof.
  intros Hh Hj Hs Hr s1 s2. unfold scheduler. kstep. cbn [held st].
  replace procs_idx with (seq 0 j ++ j :: seq (S j) (Z.to_nat NPROC - S j)).
  2:{ unfold procs_idx. replace (Z.to_nat NPROC) with (j + S (Z.to_nat NPROC - S j))%nat at 2 by lia. by rewrite seq_app. }
  rewrite scheduler_pass_app. destruct (scheduler_pass_run run h (seq 0 j) (set_cur None s) false Hh) as (b & E & _).
  rewrite (bind_Ok _ _ _ _ _ E). fold s1. cbn [scheduler_pass].
  assert (p_state (proc_at j s1) = RUNNABLE) as Hs1.
  { apply turns_leave; [done| |by rewrite proc_at_set_cur]. rewrite elem_of_seq. lia. }
  rewrite (bind_Ok _ _ _ _ _ (scheduler_step_run run j h s1 (Hh j))). rewrite bool_decide_true, orb_true_r by done.
  destruct (scheduler_pass_run run h (seq (S j) (Z.to_nat NPROC - S j)) (turn run j s1) true Hh) as (b' & E' & Hb).
  rewrite E', (Hb eq_refl).
  assert (turn run j s1 = s2) as -> by (unfold turn; rewrite decide_True by exact Hs1; reflexivity).
  reflexivity.
Qed.

(** *** [kill] of pid 0 *)

(** An operation that leaves the [killed] flag of process [i] alone. *)
Definition keeps_killed {A} (i : nat) (m : M K A) : Prop :=
  ∀ t a t', m t = Ok a t' → p_killed (proc_at i (st t')) = p_killed (proc_at i (st t)).

Lemma keeps_bind {A B} i (m : M K A) (k : A → M K B) : keeps_killed i m → (∀ a, keeps_killed i (k a)) → keeps_killed i (bind m k).
Proof.
  intros Hm Hk t b t' E. apply bind_inv_Ok in E as (a & t1 & E1 & E2). rewrite (Hk a _ _ _ E2). exact (Hm _ _ _ E1).
Qed.
Lemma keeps_ret {A} i (a : A) : keeps_killed i (ret a).
Proof. intros t b t' [= _ <-]. reflexivity. Qed.
Lemma keeps_gets {A} i (f : K → A) : keeps_killed i (gets f).
Proof. intros t b t' [= _ <-]. reflexivity. Qed.
Lemma keeps_acquire i lk : keeps_killed i (acquire lk).
Proof. intros t b t'. unfold acquire. case_decide; [discriminate|]. intros [= _ <-]. reflexivity. Qed.
Lemma keeps_release i lk : keeps_killed i (release lk).
Proof. intros t b t'. unfold release. case_decide; [|discriminate]. intros [= _ <-]. reflexivity. Qed.
Lemma keeps_modify i f : (∀ s, k_procs (f s) = k_procs s) → keeps_killed i (modify f).
Proof. intros Hf t b t' [= _ <-]. cbn [st]. unfold proc_at. by rewrite Hf. Qed.
Lemma keeps_onmem {A} i (m : M kmem A) : keeps_killed i (onmem m).
Proof.
  intros [h0 s] b t'. unfold onmem, lift. destruct (m _) as [a [h k]| |]; [|discriminate|discriminate]. intros [= _ <-]. cbn [st].
  by destruct s.
Qed.
Lemma keeps_upd i j f : (∀ p, p_killed (f p) = p_killed p) → keeps_killed i (upd_proc j f).
Proof.
  intros Hf [h s] b t' [= _ <-]. cbn [st held]. change (set_procs _ s) with (on_proc j f s).
  destruct (decide (j = i)) as [->|Hij]; [|by rewrite on_proc_other].
  destruct (decide (i < length (k_procs s))%nat) as [Hi|Hi]; [by rewrite on_proc_same, Hf|].
  unfold on_proc, proc_at. rewrite procs_set. rewrite list_insert_ge by lia. reflexivity.
Qed.

Ltac keeps :=
  repeat first
    [ apply keeps_bind; [|intros ?] | apply keeps_ret | apply keeps_gets | apply keeps_acquire | apply keeps_release
    | apply keeps_onmem | apply keeps_upd; intros [] | apply keeps_modify; intros [] | reflexivity
    | match goal with |- keeps_killed _ (if ?b then _ else _) => destruct b end ].

Lemma find_unused_run h s : table_ok s → no_plock h →
  find_unused (Thread h s) =
    match list_find (λ p, p_state p = UNUSED) (k_procs s) with
    | Some (i, _) => Ok (Some i) (Thread (L_proc i :: h) s)
    | None => Ok None (Thread h s)
    end.
Proof.
  intros Ht Hh. unfold find_unused.
  apply (for_each_procs (λ p, p_state p = UNUSED) _ h s id (λ i, Thread (L_proc i :: h) s) Ht Hh);
    intros i Hi Hl; rewrite (bind_Ok _ _ _ _ _ (plock_run i h s Hl)); kstep; cbn [st].
  - rewrite decide_False by exact Hi. by rewrite (bind_Ok _ _ _ _ _ (punlock_run _ _ _)).
  - by rewrite decide_True by exact Hi.
Qed.

(** A process born in a slot keeps the slot's [killed] flag. *)
Lemma allocproc_killed end_ trampoline forkret h s i t : table_ok s → no_plock h →
  allocproc end_ trampoline forkret (Thread h s) = Ok (Some i) t →
  p_killed (proc_at i (st t)) = p_killed (proc_at i s) ∧
  ∃ p, list_find (λ p, p_state p = UNUSED) (k_procs s) = Some (i, p).
Proof.
  intros Ht Hh E. unfold allocproc in E. unfold bind at 1 in E. rewrite (find_unused_run h s Ht Hh) in E.
  destruct (list_find _ (k_procs s)) as [[j p]|]; [|discriminate].
  apply bind_inv_Ok in E as (pid & t1 & E1 & E).
  apply bind_inv_Ok in E as ([] & t2 & E2 & E). apply bind_inv_Ok in E as ([] & t3 & E3 & E).
  apply bind_inv_Ok in E as (tf & t4 & E4 & E). apply bind_inv_Ok in E as ([] & t5 & E5 & E).
  assert (∀ (t' : thread K), (freeproc end_ j ;;; punlock j ;;; ret (@None nat)) t5 = Ok (Some i) t' → False) as Hno.
  { intros t' E'. apply bind_inv_Ok in E' as ([] & ? & _ & E'). apply bind_inv_Ok in E' as ([] & ? & _ & E'). discriminate. }
  destruct (tf =? 0); [by apply Hno in E|].
  apply bind_inv_Ok in E as (pt & t6 & E6 & E). apply bind_inv_Ok in E as ([] & t7 & E7 & E).
  destruct (pt =? 0).
  { apply bind_inv_Ok in E as ([] & ? & _ & E). apply bind_inv_Ok in E as ([] & ? & _ & E). discriminate. }
  apply bind_inv_Ok in E as (q & t8 & E8 & E). apply bind_inv_Ok in E as ([] & t9 & E9 & E).
  injection E as <- <-. split; [|by exists p].
  assert (keeps_killed j allocpid) as K1 by (unfold allocpid; keeps).
  assert (keeps_killed j (proc_pagetable end_ trampoline j)) as K6 by (unfold proc_pagetable; keeps).
  repeat match goal with E : upd_proc _ _ ?a = Ok _ ?b |- _ =>
    let H := fresh "Q" in assert (p_killed (proc_at j (st b)) = p_killed (proc_at j (st a))) as H
      by (refine (keeps_upd j _ _ _ _ _ _ E); by intros []); clear E end.
  apply (keeps_gets j) in E8. apply K6 in E6. apply (keeps_onmem j) in E4. apply K1 in E1. cbn [st] in E1. congruence.
Qed.

(** [kill] does not look at the state of a process, and an unused slot has pid 0.
    So [kill(0)] succeeds as long as there is one: it sets the [killed] flag of the
    first unused slot, and since [allocproc] does not reset it, the process that
    [allocproc] makes of this slot is killed before it has run. *)
Theorem kill_unused h s i p end_ trampoline forkret : table_ok s → no_plock h →
  list_find (λ p, p_pid p = 0) (k_procs s) = Some (i, p) → p_state p = UNUSED →
  ∃ s', kill 0 (Thread h s) = Ok 0 (Thread h s') ∧ table_ok s' ∧
    p_state (proc_at i s') = UNUSED ∧ p_killed (proc_at i s') = 1 ∧
    ∀ t, allocproc end_ trampoline forkret (Thread h s') = Ok (Some i) t → p_killed (proc_at i (st t)) = 1.
Proof.
  intros Ht Hh Hf Hs. exists (on_proc i kill_proc s). rewrite (kill_run 0 h s Ht Hh), Hf. split; [reflexivity|].
  apply list_find_Some in Hf as (Hi & _ & _).
  assert (proc_at i s = p) as Ep by (unfold proc_at; by rewrite Hi).
  assert (table_ok (on_proc i kill_proc s)) as Ht' by (unfold table_ok; rewrite on_proc_length; exact Ht).
  assert (proc_at i (on_proc i kill_proc s) = set_killed 1 p) as E.
  { rewrite on_proc_same by (by apply lookup_lt_Some in Hi). rewrite Ep. unfold kill_proc. rewrite decide_False; [done|]. by rewrite Hs. }
  split; [exact Ht'|]. rewrite E. split_and!; [by destruct p|by destruct p|].
  intros t Ha. destruct (allocproc_killed _ _ _ _ _ _ _ Ht' Hh Ha) as [-> _]. rewrite E. by destruct p.
Qed.
