(* ===== verification/ProcSpace.v ===== *)
(** * proc.c: the address space of a process

    [proc_pagetable] makes one, [proc_freepagetable] and [freeproc] give it back with all
    its pages; [allocproc] makes a process or leaves everything as it was. *)

From S2P Require Import Prelude CString Riscv Kalloc Vm VmTable VmMap VmCopy VmAlloc VmFree Param Bio Log.
From S2P Require Import BlockLayer BlockLog FsDisk Fs Pipe Kernel Printf Proc ProcSpec.

Section space.
Context (end_ : Z) (end_pos : 0 < end_) (trampoline : Z).
Implicit Types (T : gmap (list Z) Z) (m : mem) (k : kmem) (fl : list Z) (h : list lockname) (s : K).

(** The page of trampoline.S, part of the kernel's text. *)
Hypothesis tramp_ok : 0 <= trampoline ∧ trampoline mod PGSIZE = 0 ∧ trampoline + PGSIZE <= 2 ^ 54.

(** What a new address space maps: the trampoline and the trapframe. *)
Definition tramp_map : Z → Z := map_range (λ _, 0) TRAMPOLINE 1 trampoline (Z.lor PTE_R PTE_X).
Definition base_map (tf : Z) : Z → Z := map_range tramp_map TRAPFRAME 1 tf (Z.lor PTE_R PTE_W).

(** An address space: the user's memory are the pages [pp] with their flags, from address 0
    on, and the two pages at the top; nothing else is mapped. *)
Record aspace k fl root T (f : Z → Z) (sz tf : Z) (pp : list (Z * Z)) : Prop := {
  as_vm : vm_ok end_ k fl root T;
  as_maps : maps k T f;
  as_pte (i : nat) q fg : pp !! i = Some (q, fg) →
    f (Z.of_nat i * PGSIZE) = Z.lor (PA2PTE q) fg ∧ 0 <= fg < 1024 ∧ has fg PTE_V = true ∧ fg ≠ PTE_V;
  as_nodup : NoDup (tf :: pp.*1);
  as_page q : q ∈ tf :: pp.*1 → page_ok end_ q ∧ q ∉ fl ∧ ¬ is_tab T q;
  as_sz : 0 <= sz ∧ (Z.of_nat (length pp) - 1) * PGSIZE < sz <= Z.of_nat (length pp) * PGSIZE ∧ Z.of_nat (length pp) * PGSIZE <= TRAPFRAME;
  as_top va : ¬ in_range 0 (Z.of_nat (length pp)) va → 0 <= va < MAXVA → f va = base_map tf va }.

Lemma as_round k fl root T f sz tf pp : aspace k fl root T f sz tf pp →
  0 <= sz ∧ PGROUNDUP sz = Z.of_nat (length pp) * PGSIZE ∧ Z.of_nat (length pp) * PGSIZE <= TRAPFRAME.
Proof.
  intros Ha. destruct (as_sz _ _ _ _ _ _ _ _ Ha) as (Hz & Hr & Hm). split; [done|]. split; [|done]. change TRAPFRAME with (2 ^ 38 - 2 * 4096) in Hm.
  destruct (PGROUNDUP_spec sz) as [Hal Hup]; [unfold PGSIZE in *; lia|]. unfold PGSIZE in *. apply Z.mod_divide in Hal as [c Hc]; [|lia]. lia.
Qed.

(** Pages in use keep their contents, and no page in use becomes free. *)
Record unharmed k fl k' fl' : Prop := {
  uh_wf : kmem_wf end_ k' fl';
  uh_free q : q ∈ fl' → q ∈ fl;
  uh_mem q x : page_ok end_ q → q ∉ fl → q <= x < q + PGSIZE → kmem_mem k' x = kmem_mem k x }.

Lemma unharmed_refl k fl : kmem_wf end_ k fl → unharmed k fl k fl.
Proof. by split. Qed.

Lemma unharmed_trans k fl k1 fl1 k2 fl2 : unharmed k fl k1 fl1 → unharmed k1 fl1 k2 fl2 → unharmed k fl k2 fl2.
Proof.
  intros [W1 F1 M1] [W2 F2 M2]. split; [done|by intros q ?%F2%F1|]. intros q x Hq Hf Hx. rewrite (M2 q x), (M1 q x); try done. by intros ?%F1.
Qed.

(** Another address space is not affected. *)
Lemma aspace_frame k fl root T f sz tf pp k' fl' : aspace k fl root T f sz tf pp → unharmed k fl k' fl' → aspace k' fl' root T f sz tf pp.
Proof.
  intros [V M P N G Z0 Tp] [W F U].
  assert (∀ p x, is_tab T p → p <= x < p + PGSIZE → kmem_mem k' x = kmem_mem k x) as Hx.
  { intros p x Ht. apply U; [|by apply (vo_sep _ _ _ _ _ V)]. destruct Ht as [π Hp]. by apply (pr_dom _ _ _ _ (vo_rep _ _ _ _ _ V)) in Hp as [_ ?]. }
  split; try done.
  - split; [done|eapply pt_rep_frame; [apply V|done]|]. intros p Ht Hin. by apply (vo_sep _ _ _ _ _ V p Ht), F.
  - intros va Hva. rewrite <- M by done. eapply pte_at_frame; [apply V|done].
  - intros q Hq. destruct (G q Hq) as (? & Hn & ?). split; [done|]. split; [|done]. by intros ?%F.
Qed.

(** ** The end of an address space *)

Lemma base_map_low tf va : va < TRAPFRAME → base_map tf va = 0.
Proof.
  intros Hva. unfold base_map, tramp_map, map_range, in_range. rewrite !decide_False; [done| |]; change TRAMPOLINE with (TRAPFRAME + PGSIZE); unfold PGSIZE; lia.
Qed.

Lemma base_map_tf tf : base_map tf TRAPFRAME = mk_pte tf (Z.lor PTE_R PTE_W).
Proof. unfold base_map, map_range, page_off. rewrite decide_True by (unfold in_range, PGSIZE; lia). rewrite Z.sub_diag. change (0 / PGSIZE * PGSIZE) with 0. by rewrite Z.add_0_r. Qed.

Lemma base_map_tramp tf : base_map tf TRAMPOLINE = mk_pte trampoline (Z.lor PTE_R PTE_X).
Proof.
  unfold base_map, map_range, page_off at 1. rewrite decide_False by (unfold in_range; change TRAMPOLINE with (TRAPFRAME + PGSIZE); unfold PGSIZE; lia).
  unfold tramp_map, map_range, page_off. rewrite decide_True by (unfold in_range, PGSIZE; lia). rewrite Z.sub_diag. change (0 / PGSIZE * PGSIZE) with 0. by rewrite Z.add_0_r.
Qed.

Lemma base_map_top tf va : 0 <= va < MAXVA → ¬ in_range TRAMPOLINE 1 va → ¬ in_range TRAPFRAME 1 va → base_map tf va = 0.
Proof. intros _ H1 H2. unfold base_map, tramp_map, map_range. by rewrite !decide_False. Qed.

Lemma mk_pte_facts pa perm : pa_ok pa → 0 <= perm < 1024 → Z.lor perm PTE_V ≠ PTE_V →
  mk_pte pa perm = Z.lor (PA2PTE pa) (Z.lor perm PTE_V) ∧ 0 <= Z.lor perm PTE_V < 1024 ∧ has (Z.lor perm PTE_V) PTE_V = true.
Proof. intros Hpa Hp Hn. split; [apply mk_pte_eq|]. split; [by apply mk_pte_flags|]. rewrite has_lor. apply orb_true_r. Qed.

Lemma pages_owned k fl root T f sz tf pp : aspace k fl root T f sz tf pp → owned end_ fl T f 0 pp.*1.
Proof.
  intros [V M P N G Z0 Tp]. split.
  - intros i pa Hi. rewrite list_lookup_fmap in Hi. destruct (pp !! i) as [[q fg]|] eqn:E; [|done]. injection Hi as <-.
    destruct (P i q fg E) as (Ef & H1 & H2 & H3). exists fg. by rewrite Z.add_0_l.
  - by apply NoDup_cons in N as [_ N].
  - intros pa Hpa. apply G. by right.
Qed.

Lemma proc_freepagetable_run h s fl root T f sz tf ps : L_kmem ∉ h → vm_ok end_ (k_mem s) fl root T → maps (k_mem s) T f → owned end_ fl T f 0 ps → page_ok end_ tf →
  0 <= sz ∧ PGROUNDUP sz = Z.of_nat (length ps) * PGSIZE ∧ Z.of_nat (length ps) * PGSIZE <= TRAPFRAME →
  (∀ va, ¬ in_range 0 (Z.of_nat (length ps)) va → 0 <= va < MAXVA → f va = base_map tf va) →
  ∃ k' fl', proc_freepagetable end_ root sz (Thread h s) = Ok tt (Thread h (set_mem k' s)) ∧ handed end_ (λ q, q ∈ ps ∨ is_tab T q) (k_mem s) fl k' fl'.
Proof.
  intros Hh V M O Htf (Hsz & Hps & Hmax) Htop. pose proof (page_ok_pa _ end_pos _ Htf) as Htfp.
  assert (∀ va, TRAPFRAME <= va → ¬ in_range 0 (Z.of_nat (length ps)) va) as Hout by (intros va Hva; unfold in_range; lia).
  assert (pa_ok trampoline) as Htp by (split; [apply tramp_ok|unfold PGSIZE in *; lia]).
  assert (f TRAMPOLINE = mk_pte trampoline (Z.lor PTE_R PTE_X)) as E1 by (rewrite Htop by (done || by apply Hout); apply base_map_tramp).
  assert (f TRAPFRAME = mk_pte tf (Z.lor PTE_R PTE_W)) as E2 by (rewrite Htop by (done || by apply Hout); apply base_map_tf).
  destruct (uvmunmap_keep end_ end_pos h (k_mem s) fl root T f TRAMPOLINE _ trampoline Hh V M ltac:(done) ltac:(done) ltac:(done) ltac:(rewrite E1; apply mk_pte_eq) Htp ltac:(done) ltac:(done) ltac:(done))
    as (k1 & R1 & V1 & M1 & G1).
  assert (unmap_range f TRAMPOLINE 1 TRAPFRAME = mk_pte tf (Z.lor PTE_R PTE_W)) as E2' by (unfold unmap_range; rewrite decide_False; [done|by intros []]).
  destruct (uvmunmap_keep end_ end_pos h k1 fl root T _ TRAPFRAME _ tf Hh V1 M1 ltac:(done) ltac:(done) ltac:(done) ltac:(rewrite E2'; apply mk_pte_eq) Htfp ltac:(done) ltac:(done) ltac:(done))
    as (k2 & R2 & V2 & M2 & G2).
  set (f2 := unmap_range (unmap_range f TRAMPOLINE 1) TRAPFRAME 1) in M2.
  assert (∀ va, va < TRAPFRAME → f2 va = f va) as Hf2.
  { intros va Hva. unfold f2, unmap_range, in_range. rewrite !decide_False; [done| |]; change TRAMPOLINE with (TRAPFRAME + PGSIZE); unfold PGSIZE; lia. }
  destruct (uvmfree_run end_ end_pos h k2 fl root T f2 sz ps Hh V2 M2) as (k3 & fl3 & R3 & [W3 (qs & L3 & Q3) F3]); [|done|done|change TRAPFRAME with (MAXVA - 2 * PGSIZE) in Hmax; unfold PGSIZE in *; lia| |].
  - destruct O as [O1 O2 O3]. split; [|done|done]. intros i pa Hi. rewrite Hf2; [by apply O1|]. apply lookup_lt_Some in Hi. unfold PGSIZE in *. lia.
  - intros va Hva Hn. unfold f2, unmap_range. case_decide as D1; [done|]. case_decide as D2; [done|]. rewrite Htop by done. by apply base_map_top.
  - exists k3, fl3. split.
    + rewrite <- (set_mem_mem k1 s) in R2. rewrite <- (set_mem_mem k2 (set_mem k1 s)) in R3. unfold proc_freepagetable.
      rewrite (bind_Ok _ _ _ _ _ (onmem_run _ _ _ _ _ R1)), (bind_Ok _ _ _ _ _ (onmem_run _ _ _ _ _ R2)), (onmem_run _ _ _ _ _ R3). by rewrite !set_mem_twice.
    + split; [done|by exists qs|]. intros q x Hq Hf Hn Hx. rewrite (F3 q x), (gr_mem _ _ _ _ _ _ _ G2 q x), (gr_mem _ _ _ _ _ _ _ G1 q x); tauto.
Qed.

(** ** [freeproc] *)

(** The slot that is left. *)
Definition cleared (p : proc) : proc :=
  Proc UNUSED None 0 0 0 None (p_kstack p) 0 0 0 (p_context p) (p_ofile p) (p_cwd p) (<[0%nat := 0]> (p_name p)).

Lemma on_proc_set_mem i f k s : on_proc i f (set_mem k s) = set_mem k (on_proc i f s).
Proof. by destruct s. Qed.

Lemma on_proc_ext i f g s : f (proc_at i s) = g (proc_at i s) → on_proc i f s = on_proc i g s.
Proof. intros E. unfold on_proc. by rewrite E. Qed.

Lemma k_mem_on_proc i f s : k_mem (on_proc i f s) = k_mem s.
Proof. by destruct s. Qed.

Lemma proc_at_set_mem i k s : proc_at i (set_mem k s) = proc_at i s.
Proof. by destruct s. Qed.

(** [freeproc] from what giving back the pages does. *)
Lemma freeproc_eq h s i k1 k2 : (i < length (k_procs s))%nat →
  (if truth (p_trapframe (proc_at i s)) then onmem (kfree end_ (p_trapframe (proc_at i s))) else ret tt) (Thread h s) = Ok tt (Thread h (set_mem k1 s)) →
  (let s1 := on_proc i (set_trapframe 0) (set_mem k1 s) in
   (if truth (p_pagetable (proc_at i s)) then proc_freepagetable end_ (p_pagetable (proc_at i s)) (p_sz (proc_at i s)) else ret tt) (Thread h s1) = Ok tt (Thread h (set_mem k2 s1))) →
  freeproc end_ i (Thread h s) = Ok tt (Thread h (on_proc i cleared (set_mem k2 s))).
Proof.
  intros Hi E1 E2. cbv zeta in E2. unfold freeproc. kstep. cbn [st]. rewrite (bind_Ok _ _ _ _ _ E1), (bind_Ok _ _ _ _ _ (upd_proc_run _ _ _ _)).
  rewrite (bind_Ok _ _ _ _ _ E2). repeat rewrite (bind_Ok _ _ _ _ _ (upd_proc_run _ _ _ _)). rewrite upd_proc_run, !on_proc_comp.
  rewrite !on_proc_set_mem, set_mem_twice, !on_proc_comp. do 3 f_equal. apply on_proc_ext. by destruct (proc_at i s).
Qed.

(** The process's memory, its page table and its trapframe page are free afterwards. *)
Lemma freeproc_run h s i fl root T f sz tf pp : L_kmem ∉ h → (i < length (k_procs s))%nat → aspace (k_mem s) fl root T f sz tf pp →
  p_trapframe (proc_at i s) = tf → p_pagetable (proc_at i s) = root → p_sz (proc_at i s) = sz →
  ∃ k' fl', freeproc end_ i (Thread h s) = Ok tt (Thread h (on_proc i cleared (set_mem k' s))) ∧
    handed end_ (λ q, q = tf ∨ q ∈ pp.*1 ∨ is_tab T q) (k_mem s) fl k' fl'.
Proof.
  intros Hh Hi Ha Etf Ert Esz. pose proof (pages_owned _ _ _ _ _ _ _ _ Ha) as Ho. pose proof (as_round _ _ _ _ _ _ _ _ Ha) as Hround. destruct Ha as [V M P N G Z0 Tp].
  destruct (G tf) as (Gtf & Ntf & Ttf); [by left|]. apply NoDup_cons in N as [Nn N].
  pose proof (page_ok_pos _ end_pos _ Gtf) as Htf0.
  assert (root ≠ 0) as Hr0. { pose proof (pr_dom _ _ _ _ (vo_rep _ _ _ _ _ V) _ _ (pr_root _ _ _ _ (vo_rep _ _ _ _ _ V))) as [_ Hp]. by apply (page_ok_pos _ end_pos). }
  destruct (kfree_vm end_ end_pos (k_mem s) fl root T tf f V M Gtf Ntf Ttf) as (V1 & M1 & _).
  destruct (kfree_handed end_ end_pos h (k_mem s) fl tf (vo_wf _ _ _ _ _ V) Gtf Ntf Hh) as (k1 & E1 & H1).
  assert (k1 = kfree_post tf (k_mem s)) as Ek by (rewrite (kfree_run end_ tf h (k_mem s) Gtf Hh) in E1; by injection E1).
  rewrite <- Ek in V1, M1.
  destruct (proc_freepagetable_run h (on_proc i (set_trapframe 0) (set_mem k1 s)) (tf :: fl) root T f sz tf pp.*1) as (k2 & fl2 & E2 & H2); try done.
  - by rewrite k_mem_on_proc, set_mem_mem.
  - by rewrite k_mem_on_proc, set_mem_mem.
  - destruct Ho as [O1 O2 O3]. split; [done|done|]. intros q Hq. destruct (O3 q Hq) as (? & ? & ?). split; [done|]. split; [|done]. rewrite not_elem_of_cons. split; [|done]. intros ->. by apply Nn.
  - rewrite length_fmap. exact Hround.
  - rewrite length_fmap. exact Tp.
  - rewrite k_mem_on_proc, set_mem_mem in H2. exists k2, fl2. split.
    + apply freeproc_eq with (k1 := k1); [done| |].
      * rewrite Etf. unfold truth. rewrite (proj2 (Z.eqb_neq _ _) Htf0). cbn [negb]. by apply onmem_run.
      * cbv zeta. rewrite Ert, Esz. unfold truth. rewrite (proj2 (Z.eqb_neq _ _) Hr0). cbn [negb]. exact E2.
    + eapply handed_ext; [|exact (handed_trans _ _ _ _ _ _ _ _ _ H1 H2)]. intros q. tauto.
Qed.

(** ** [proc_pagetable] *)

(** A table [T] that was made from free pages. *)
Record built k fl root k' fl' T : Prop := {
  bl_vm : vm_ok end_ k' fl' root T;
  bl_list : ∃ tabs, fl ≡ₚ tabs ++ fl' ∧ ∀ q, is_tab T q ↔ q ∈ tabs;
  bl_mem q x : page_ok end_ q → q ∉ fl → q <= x < q + PGSIZE → kmem_mem k' x = kmem_mem k x }.

Lemma built_growth k fl root k1 fl1 T1 k2 fl2 T2 : built k fl root k1 fl1 T1 → vm_ok end_ k2 fl2 root T2 → growth end_ k1 fl1 T1 k2 fl2 T2 → built k fl root k2 fl2 T2.
Proof.
  intros [V (tabs & L & Q) F] V2 [S (new & E & Hn) Fm]. split; [done| |].
  - exists (tabs ++ new). split; [by rewrite L, E, app_assoc|]. intros q. by rewrite Hn, Q, elem_of_app.
  - intros q x Hq Hf Hx. assert (q ∉ tabs ++ new ++ fl2) as Hno by (rewrite <- E, <- L; done). rewrite !elem_of_app in Hno.
    rewrite (Fm q x), (F q x); try tauto. rewrite Hn, Q. tauto.
Qed.

(** The table goes again. *)
Lemma built_free k fl root k1 fl1 T P k2 fl2 : kmem_wf end_ k fl → built k fl root k1 fl1 T → (∀ q, P q ↔ is_tab T q) → handed end_ P k1 fl1 k2 fl2 → handed end_ (λ _, False) k fl k2 fl2.
Proof.
  intros (_ & Hnd & _) [V (tabs & L & Q) F] HP [W (qs & L2 & M2) F2]. split; [done| |].
  - exists []. split; [|intros q; rewrite elem_of_nil; tauto]. cbn [app]. rewrite L2, L. apply Permutation_app_tail.
    rewrite L in Hnd. destruct W as (_ & W & _). rewrite L2 in W. apply NoDup_app in Hnd as (Hnd & _). apply NoDup_app in W as (W & _).
    apply NoDup_Permutation; [done|done|]. intros q. by rewrite M2, HP, Q.
  - intros q x Hq Hf _ Hx. assert (q ∉ tabs ++ fl1) as Hno by (by rewrite <- L). rewrite elem_of_app in Hno.
    rewrite (F2 q x), (F q x); try tauto. rewrite HP, Q. tauto.
Qed.

Lemma uvmcreate_nil h k : kmem_wf end_ k [] → L_kmem ∉ h → uvmcreate (Thread h k) = Ok 0 (Thread h k).
Proof. intros Hw Hh. destruct (kalloc_wf_nil end_ _ Hw) as [Ef Ep]. unfold uvmcreate. by rewrite (bind_Ok _ _ _ _ _ (kalloc_run h k Hh)), Ef, Ep. Qed.

Lemma built_create h k p fl : kmem_wf end_ k (p :: fl) → L_kmem ∉ h →
  ∃ k', uvmcreate (Thread h k) = Ok p (Thread h k') ∧ built k (p :: fl) p k' fl {[ [] := p ]} ∧ maps k' {[ [] := p ]} (λ _, 0).
Proof.
  intros Hw Hh. destruct (uvmcreate_run end_ end_pos h k p fl Hh Hw) as (k' & E & V & M). exists k'. split; [done|]. split; [|done]. split; [done| |].
  - exists [p]. split; [done|]. intros q. rewrite list_elem_of_singleton. split.
    + by intros [π [_ <-]%lookup_singleton_Some].
    + intros ->. exists []. by rewrite lookup_singleton_eq.
  - intros q x Hq Hf Hx. destruct (kalloc_wf_cons end_ end_pos _ _ _ Hw) as (Ef & Hp & Hn & _ & Hk).
    unfold uvmcreate in E. rewrite (bind_Ok _ _ _ _ _ (kalloc_run h k Hh)), Ef, (proj2 (Z.eqb_neq p 0) (page_ok_pos end_ end_pos p Hp)), (bind_Ok _ _ _ _ _ (upd_mem_run _ _ _)) in E.
    injection E as <-. cbn [kmem_mem]. assert (¬ (p <= x < p + PGSIZE)) as Hpx by (apply (page_apart end_ q p x); set_solver).
    by rewrite memset_at, decide_False, Hk, decide_False.
Qed.

(** One page of [mappages]. *)
Lemma map_page h k fl root T f va pa perm : L_kmem ∉ h → vm_ok end_ k fl root T → maps k T f → 0 <= va → va mod PGSIZE = 0 → va + PGSIZE <= MAXVA →
  pa_ok pa → pa + PGSIZE <= 2 ^ 54 → 0 <= perm < 1024 → (∀ x, in_range va 1 x → f x = 0) →
  ∃ r k' fl' T', mappages root va PGSIZE pa perm (Thread h k) = Ok r (Thread h k') ∧ vm_ok end_ k' fl' root T' ∧ growth end_ k fl T k' fl' T' ∧
    (r = 0 ∧ maps k' T' (map_range f va 1 pa perm) ∨ r = -1 ∧ maps k' T' f).
Proof.
  intros Hh V M Hva Hal Hmax [Hpa Hpr] Hpm Hperm Hz.
  destruct (mappages_run end_ end_pos h k fl root T f va PGSIZE pa perm Hh V M Hva Hal ltac:(done) ltac:(done) Hmax ltac:(lia) Hpa Hpm Hperm) as (r & k' & fl' & T' & E & V' & G & Hr).
  { intros x Hx. rewrite Hz; [done|]. unfold in_range. lia. }
  exists r, k', fl', T'. split; [done|]. split; [done|]. split; [done|]. change (PGSIZE / PGSIZE) with 1 in Hr. destruct Hr as [Hr|(-> & _ & j & Hj & Hm)]; [by left|right].
  split; [done|]. assert (j = 0) as -> by lia. eapply maps_ext; [exact Hm|]. intros. apply map_range_0.
Qed.

(** An address space without user memory, or none and nothing has changed. *)
Definition new_space k fl tf (r : Z) k' fl' : Prop :=
  (r = 0 ∧ handed end_ (λ _, False) k fl k' fl') ∨
  (r ≠ 0 ∧ ∃ T, built k fl r k' fl' T ∧ maps k' T (base_map tf)).

Lemma built_free_run h k fl root k1 fl1 T : L_kmem ∉ h → kmem_wf end_ k fl → built k fl root k1 fl1 T → maps k1 T (λ _, 0) →
  ∃ k2 fl2, uvmfree end_ root 0 (Thread h k1) = Ok tt (Thread h k2) ∧ handed end_ (λ _, False) k fl k2 fl2.
Proof.
  intros Hh Hw B M. destruct (uvmfree_run end_ end_pos h k1 fl1 root T _ 0 [] Hh (bl_vm _ _ _ _ _ _ B) M) as (k2 & fl2 & E & H); try done.
  - split; [done|constructor|by intros ? ?%not_elem_of_nil].
  - exists k2, fl2. split; [done|]. apply (built_free k fl root k1 fl1 T (λ q, q ∈ [] ∨ is_tab T q) k2 fl2 Hw B); [|done]. intros q. rewrite elem_of_nil. tauto.
Qed.

Lemma tramp_zero x : in_range TRAPFRAME 1 x → tramp_map x = 0.
Proof. intros Hx. unfold tramp_map, map_range. rewrite decide_False; [done|]. unfold in_range in *. change TRAMPOLINE with (TRAPFRAME + PGSIZE). unfold PGSIZE in *. lia. Qed.

Lemma tramp_map_self : tramp_map TRAMPOLINE = mk_pte trampoline (Z.lor PTE_R PTE_X).
Proof. unfold tramp_map, map_range, page_off. rewrite decide_True by (unfold in_range, PGSIZE; lia). rewrite Z.sub_diag. change (0 / PGSIZE * PGSIZE) with 0. by rewrite Z.add_0_r. Qed.

Lemma tramp_pa_ok : pa_ok trampoline.
Proof. split; [apply tramp_ok|unfold PGSIZE in *; lia]. Qed.

(** [proc_pagetable] without a page for the table of the trapframe. *)
Lemma drop_tramp_run h k fl root k3 fl3 T3 : L_kmem ∉ h → kmem_wf end_ k fl → built k fl root k3 fl3 T3 → maps k3 T3 tramp_map →
  ∃ k4 k5 fl5, uvmunmap end_ root TRAMPOLINE 1 false (Thread h k3) = Ok tt (Thread h k4) ∧ uvmfree end_ root 0 (Thread h k4) = Ok tt (Thread h k5) ∧
    handed end_ (λ _, False) k fl k5 fl5.
Proof.
  intros Hh Hw B M.
  destruct (uvmunmap_keep end_ end_pos h k3 fl3 root T3 tramp_map TRAMPOLINE (Z.lor (Z.lor PTE_R PTE_X) PTE_V) trampoline Hh (bl_vm _ _ _ _ _ _ B) M) as (k4 & E4 & V4 & M4 & G4); try done.
  { rewrite tramp_map_self. apply mk_pte_eq. }
  { apply tramp_pa_ok. }
  pose proof (built_growth _ _ _ _ _ _ _ _ _ B V4 G4) as B4.
  destruct (built_free_run h _ _ _ _ _ _ Hh Hw B4) as (k5 & fl5 & E5 & H5).
  { eapply maps_ext; [exact M4|]. intros va _. unfold unmap_range, tramp_map, map_range. by case_decide. }
  by exists k4, k5, fl5.
Qed.

Lemma proc_pagetable_run h s i fl tf : L_kmem ∉ h → kmem_wf end_ (k_mem s) fl → p_trapframe (proc_at i s) = tf → page_ok end_ tf →
  ∃ r k' fl', proc_pagetable end_ trampoline i (Thread h s) = Ok r (Thread h (set_mem k' s)) ∧ new_space (k_mem s) fl tf r k' fl'.
Proof.
  intros Hh Hw Etf Htf. unfold proc_pagetable. kstep. cbn [st]. rewrite Etf.
  destruct fl as [|p fl].
  { rewrite (bind_Ok _ _ _ _ _ (onmem_run _ _ _ _ _ (uvmcreate_nil h (k_mem s) Hw Hh))). exists 0, (k_mem s), []. split; [done|]. left. split; [done|].
    split; [done| |done]. exists []. split; [done|]. intros q. rewrite elem_of_nil. tauto. }
  destruct (built_create h (k_mem s) p fl Hw Hh) as (k1 & E1 & B1 & M1). rewrite (bind_Ok _ _ _ _ _ (onmem_run _ _ _ _ _ E1)).
  assert (p ≠ 0) as Hp0. { apply (page_ok_pos end_ end_pos). destruct Hw as (_ & _ & Hw). by apply Forall_cons in Hw as [? _]. }
  rewrite (proj2 (Z.eqb_neq _ _) Hp0).
  destruct (map_page h k1 fl p _ _ TRAMPOLINE trampoline (Z.lor PTE_R PTE_X) Hh (bl_vm _ _ _ _ _ _ B1) M1) as (r2 & k2 & fl2 & T2 & E2 & V2 & G2 & Hr2); try done; [apply tramp_pa_ok|apply tramp_ok|].
  pose proof (built_growth _ _ _ _ _ _ _ _ _ B1 V2 G2) as B2. rewrite <- (set_mem_mem k1 s) in E2.
  rewrite (bind_Ok _ _ _ _ _ (onmem_run _ _ _ _ _ E2)), set_mem_twice.
  destruct Hr2 as [[-> M2]|[-> M2]].
  2: { destruct (built_free_run h _ _ _ _ _ _ Hh Hw B2 M2) as (k3 & fl3 & E3 & H3). rewrite <- (set_mem_mem k2 s) in E3. change (-1 <? 0) with true. cbv iota.
       rewrite (bind_Ok _ _ _ _ _ (onmem_run _ _ _ _ _ E3)), set_mem_twice. exists 0, k3, fl3. split; [done|by left]. }
  change (0 <? 0) with false. cbv iota.
  destruct (map_page h k2 fl2 p T2 tramp_map TRAPFRAME tf (Z.lor PTE_R PTE_W) Hh V2 M2) as (r3 & k3 & fl3 & T3 & E3 & V3 & G3 & Hr3); try done; [by apply (page_ok_pa end_ end_pos)|destruct Htf as [_ ?]; unfold PHYSTOP, KERNBASE, PGSIZE in *; lia|by apply tramp_zero|].
  pose proof (built_growth _ _ _ _ _ _ _ _ _ B2 V3 G3) as B3. rewrite <- (set_mem_mem k2 s) in E3.
  rewrite (bind_Ok _ _ _ _ _ (onmem_run _ _ _ _ _ E3)), set_mem_twice.
  destruct Hr3 as [[-> M3]|[-> M3]].
  { exists p, k3, fl3. split; [done|]. right. split; [done|]. by exists T3. }
  change (-1 <? 0) with true. cbv iota.
  destruct (drop_tramp_run h _ _ _ _ _ _ Hh Hw B3 M3) as (k4 & k5 & fl5 & E4 & E5 & H5). rewrite <- (set_mem_mem k3 s) in E4.
  rewrite (bind_Ok _ _ _ _ _ (onmem_run _ _ _ _ _ E4)), set_mem_twice. rewrite <- (set_mem_mem k4 s) in E5.
  rewrite (bind_Ok _ _ _ _ _ (onmem_run _ _ _ _ _ E5)), set_mem_twice. exists 0, k5, fl5. split; [done|by left].
Qed.

(** ** [allocproc] *)

Context (forkret_addr : Z).

Definition born (pid tf root : Z) (p : proc) : proc :=
  set_context (forkret_addr, p_kstack p + PGSIZE) (set_pagetable root (set_trapframe tf (set_state USED (set_pid pid p)))).

(** A slot that [freeproc] left, or that was never used. *)
Definition vacant (p : proc) : Prop := p_trapframe p = 0 ∧ p_pagetable p = 0 ∧ p_sz p = 0.

Lemma on_proc_nextpid i f n s : on_proc i f (set_nextpid n s) = set_nextpid n (on_proc i f s).
Proof. by destruct s. Qed.

Lemma allocpid_run h s : L_pid ∉ h → allocpid (Thread h s) = Ok (k_nextpid s) (Thread h (set_nextpid (k_nextpid s + 1) s)).
Proof. intros Hh. unfold allocpid. do 4 kstep. done. Qed.

Lemma cleared_born pid tf root np s : on_proc np cleared (on_proc np (λ p, set_pagetable root (set_trapframe tf (set_state USED (set_pid pid p)))) s) = on_proc np cleared s.
Proof. rewrite on_proc_comp. apply on_proc_ext. by destruct (proc_at np s). Qed.

(** What [allocproc] does with the slot [np] it found. *)
Definition allocated h s fl np (r : option nat) (t : thread K) : Prop :=
  (∃ k' fl', r = None ∧ t = Thread h (set_mem k' (set_nextpid (k_nextpid s + 1) (on_proc np cleared s))) ∧ handed end_ (λ _, False) (k_mem s) fl k' fl') ∨
  (∃ k' fl' tf root T tabs, r = Some np ∧ t = Thread (L_proc np :: h) (set_mem k' (set_nextpid (k_nextpid s + 1) (on_proc np (born (k_nextpid s) tf root) s))) ∧
     aspace k' fl' root T (base_map tf) 0 tf [] ∧ fl ≡ₚ tf :: tabs ++ fl' ∧ (∀ q, is_tab T q ↔ q ∈ tabs) ∧ unharmed (k_mem s) fl k' fl').

Lemma new_aspace k tf fl1 k1 r k' fl' T : kmem_wf end_ k (tf :: fl1) → built k1 fl1 r k' fl' T → maps k' T (base_map tf) → aspace k' fl' r T (base_map tf) 0 tf [].
Proof.
  intros (_ & Hn & Hp) [V (tabs & L & Q) F] M. apply NoDup_cons in Hn as [Hni _]. apply Forall_cons in Hp as [Hp _].
  rewrite L, elem_of_app in Hni. split; try done.
  - cbn. apply NoDup_singleton.
  - intros q. cbn [fmap list_fmap]. rewrite list_elem_of_singleton. intros ->. split; [done|]. rewrite Q. tauto.
Qed.

(** A state of [allocproc]: the slot and the memory have changed. *)
Definition half (k : kmem) n np (g : proc → proc) (s : K) : K := set_mem k (set_nextpid n (on_proc np g s)).

Lemma half_mem k n np g s : k_mem (half k n np g s) = k.
Proof. by destruct s. Qed.
Lemma half_set k k' n np g s : set_mem k' (half k n np g s) = half k' n np g s.
Proof. by destruct s. Qed.
Lemma half_on k n np f g s : on_proc np f (half k n np g s) = half k n np (λ p, f (g p)) s.
Proof. unfold half. by rewrite on_proc_set_mem, on_proc_nextpid, on_proc_comp. Qed.
Lemma half_at k n np g s : (np < length (k_procs s))%nat → proc_at np (half k n np g s) = g (proc_at np s).
Proof. intros Hn. rewrite <- (on_proc_same np g s Hn). unfold half. by destruct s. Qed.
Lemma half_ext k n np f g s : f (proc_at np s) = g (proc_at np s) → half k n np f s = half k n np g s.
Proof. intros E. unfold half. by rewrite (on_proc_ext np f g). Qed.
Lemma half_len k n np g s : length (k_procs (half k n np g s)) = length (k_procs s).
Proof. destruct s. cbn. by rewrite length_insert. Qed.

(** A failure: the slot is cleared, and the trapframe page, if there is one, goes back. *)
Lemma abandon h s n np g k fl : (np < length (k_procs s))%nat → L_kmem ∉ h → kmem_wf end_ k fl →
  p_pagetable (g (proc_at np s)) = 0 → cleared (g (proc_at np s)) = cleared (proc_at np s) →
  (let tf := p_trapframe (g (proc_at np s)) in tf = 0 ∨ page_ok end_ tf ∧ tf ∉ fl) →
  ∃ k' fl', freeproc end_ np (Thread h (half k n np g s)) = Ok tt (Thread h (half k' n np cleared s)) ∧
    handed end_ (λ q, q = p_trapframe (g (proc_at np s)) ∧ q ≠ 0) k fl k' fl'.
Proof.
  intros Hn Hk Hw Hpt Hcl Htf. set (tf := p_trapframe _) in *.
  assert (∃ k' fl', (if truth tf then onmem (kfree end_ tf) else ret tt) (Thread h (half k n np g s)) = Ok tt (Thread h (half k' n np g s)) ∧
    handed end_ (λ q, q = tf ∧ q ≠ 0) k fl k' fl') as (k' & fl' & E & Hd).
  { destruct Htf as [->|[Hp Hf]].
    - exists k, fl. split; [done|]. split; [done| |done]. exists []. split; [done|]. intros q. rewrite elem_of_nil. lia.
    - destruct (kfree_handed end_ end_pos h k fl tf Hw Hp Hf Hk) as (k' & E & Hd). exists k', (tf :: fl).
      pose proof (page_ok_pos end_ end_pos _ Hp) as H0. unfold truth. rewrite (proj2 (Z.eqb_neq _ _) H0). cbn [negb]. split.
      + rewrite <- (half_mem k n np g s) in E. exact (eq_trans (onmem_run _ _ _ _ _ E) ltac:(by rewrite half_set)).
      + eapply handed_ext; [|exact Hd]. intros q. cbn. split; [by intros ->|tauto]. }
  exists k', fl'. split; [|done].
  rewrite (freeproc_eq h (half k n np g s) np k' k').
  - rewrite half_set, half_on. do 2 f_equal. by apply half_ext.
  - by rewrite half_len.
  - rewrite half_at by done. fold tf. by rewrite half_set.
  - cbv zeta. rewrite half_at, Hpt by done. cbn [truth Z.eqb negb]. rewrite half_set, half_on, half_set. done.
Qed.

(** Outside the page that [kalloc] took. *)
Lemma kalloc_mem k tf fl q x : kmem_wf end_ k (tf :: fl) → page_ok end_ q → q ≠ tf → q <= x < q + PGSIZE → kmem_mem (kalloc_post k) x = kmem_mem k x.
Proof.
  intros Hw Hq Hne Hx. destruct (kalloc_wf_cons end_ end_pos _ _ _ Hw) as (_ & Htf & _ & _ & Hm). rewrite Hm, decide_False; [done|]. by apply (page_apart end_ q tf x).
Qed.

(** A page taken and given back. *)
Lemma handed_back k tf fl k2 fl2 k3 fl3 : kmem_wf end_ k (tf :: fl) → tf ≠ 0 → handed end_ (λ _, False) (kalloc_post k) fl k2 fl2 →
  handed end_ (λ q, q = tf ∧ q ≠ 0) k2 fl2 k3 fl3 → handed end_ (λ _, False) k (tf :: fl) k3 fl3.
Proof.
  intros Hw H0 H2 H3. pose proof (handed_trans _ _ _ _ _ _ _ _ _ H2 H3) as [W (qs & L & M) F]. split; [done| |].
  - exists []. split; [|intros q; rewrite elem_of_nil; tauto]. cbn [app]. rewrite L.
    assert (qs ≡ₚ [tf]) as ->; [|done]. destruct W as (_ & W & _). rewrite L in W. apply NoDup_app in W as (W & _).
    apply NoDup_Permutation; [done|apply NoDup_singleton|]. intros q. rewrite M, list_elem_of_singleton. split; [tauto|]. intros ->. by right.
  - intros q x Hq Hf _ Hx. apply not_elem_of_cons in Hf as [Hne Hf]. rewrite (F q x) by tauto. by eapply kalloc_mem.
Qed.

Lemma built_unharmed k tf fl root k2 fl2 T : kmem_wf end_ k (tf :: fl) → built (kalloc_post k) fl root k2 fl2 T → unharmed k (tf :: fl) k2 fl2.
Proof.
  intros Hw [V (tabs & L & Q) F]. split; [apply V| |].
  - intros q Hq. right. rewrite L, elem_of_app. by right.
  - intros q x Hq Hf Hx. apply not_elem_of_cons in Hf as [Hne Hf]. rewrite (F q x) by done. by eapply kalloc_mem.
Qed.

Lemma allocproc_slot h s fl np : table_ok s → no_plock h → L_pid ∉ h → L_kmem ∉ h → kmem_wf end_ (k_mem s) fl →
  (np < length (k_procs s))%nat → vacant (proc_at np s) → find_unused (Thread h s) = Ok (Some np) (Thread (L_proc np :: h) s) →
  ∃ r t, allocproc end_ trampoline forkret_addr (Thread h s) = Ok r t ∧ allocated h s fl np r t.
Proof.
  intros Ht Hnp Hpid Hk Hw Hlen (Vt & Vp & Vs) Ef. unfold allocproc. rewrite (bind_Ok _ _ _ _ _ Ef).
  assert (L_pid ∉ L_proc np :: h ∧ L_kmem ∉ L_proc np :: h) as [Hpid' Hk'] by (split; apply not_elem_of_cons; by split).
  rewrite (bind_Ok _ _ _ _ _ (allocpid_run _ s Hpid')). rewrite !(bind_Ok _ _ _ _ _ (upd_proc_run _ _ _ _)), on_proc_comp, on_proc_nextpid.
  set (n := k_nextpid s + 1). set (g := λ p, set_state USED (set_pid (k_nextpid s) p)).
  assert (set_nextpid n (on_proc np g s) = half (k_mem s) n np g s) as -> by (unfold half; by destruct s).
  rewrite <- (half_mem (k_mem s) n np g s) in Hw.
  rewrite (bind_Ok _ _ _ _ _ (onmem_run _ _ _ _ _ (kalloc_run _ (k_mem (half (k_mem s) n np g s)) Hk'))), (bind_Ok _ _ _ _ _ (upd_proc_run _ _ _ _)).
  rewrite half_mem in *. rewrite half_set, half_on. destruct fl as [|tf fl].
  - destruct (kalloc_wf_nil end_ _ Hw) as [-> ->]. cbn [Z.eqb].
    destruct (abandon (L_proc np :: h) s n np (λ p, set_trapframe 0 (g p)) (k_mem s) [] Hlen Hk' Hw) as (k' & fl' & E & Hd).
    { rewrite <- Vp. unfold g. by destruct (proc_at np s). }
    { unfold g. by destruct (proc_at np s). }
    { left. unfold g. by destruct (proc_at np s). }
    rewrite (bind_Ok _ _ _ _ _ E), (bind_Ok _ _ _ _ _ (punlock_run _ _ _)). eexists _, _. split; [reflexivity|]. left. exists k', fl'. split; [done|]. split; [done|].
    eapply handed_ext; [|exact Hd]. intros q. unfold g. destruct (proc_at np s). cbn. lia.
  - destruct (kalloc_wf_cons end_ end_pos _ _ _ Hw) as (-> & Htf & Hni & Hw1 & _). pose proof (page_ok_pos end_ end_pos _ Htf) as H0.
    rewrite (proj2 (Z.eqb_neq _ _) H0). set (g1 := λ p, set_trapframe tf (g p)).
    assert (p_trapframe (g1 (proc_at np s)) = tf) as Eg1 by (unfold g1; by destruct (g (proc_at np s))).
    destruct (proc_pagetable_run (L_proc np :: h) (half (kalloc_post (k_mem s)) n np g1 s) np fl tf Hk') as (r & k2 & fl2 & E2 & Hr); [by rewrite half_mem|by rewrite half_at|done|].
    rewrite half_mem in Hr. rewrite (bind_Ok _ _ _ _ _ E2), (bind_Ok _ _ _ _ _ (upd_proc_run _ _ _ _)), half_set, half_on. destruct Hr as [[-> Hd]|(Hr0 & T & B & M)].
    + cbn [Z.eqb]. destruct (abandon (L_proc np :: h) s n np (λ p, set_pagetable 0 (g1 p)) k2 fl2 Hlen Hk') as (k3 & fl3 & E3 & H3); [apply Hd|unfold g1, g; by destruct (proc_at np s)..| |].
      { right. assert (p_trapframe (set_pagetable 0 (g1 (proc_at np s))) = tf) as -> by (unfold g1, g; by destruct (proc_at np s)). split; [done|]. rewrite (handed_in _ _ _ _ _ _ tf Hd). tauto. }
      rewrite (bind_Ok _ _ _ _ _ E3), (bind_Ok _ _ _ _ _ (punlock_run _ _ _)). eexists _, _. split; [reflexivity|]. left. exists k3, fl3. split; [done|]. split; [done|].
      eapply handed_back; [done|done|done|]. eapply handed_ext; [|exact H3]. intros q. unfold g1, g. by destruct (proc_at np s).
    + rewrite (proj2 (Z.eqb_neq _ _) Hr0). kstep. cbn [st]. rewrite (bind_Ok _ _ _ _ _ (upd_proc_run _ _ _ _)), half_on, half_at by done. eexists _, _. split; [reflexivity|]. right.
      destruct (bl_list _ _ _ _ _ _ B) as (tabs & L & Q).
      exists k2, fl2, tf, r, T, tabs. split; [done|]. split; [|split; [by eapply new_aspace|split; [by rewrite L|split; [done|by eapply built_unharmed]]]].
      f_equal. apply half_ext. unfold born, g1, g. by destruct (proc_at np s).
Qed.
(** ** Memory for a new process *)

(** The pages [ps] with flags [perm], as the page table entries have them. *)
Definition valid_pages (perm : Z) (ps : list Z) : list (Z * Z) := (λ p, (p, Z.lor perm PTE_V)) <$> ps.

Lemma valid_pages_fst perm ps : (valid_pages perm ps).*1 = ps.
Proof. unfold valid_pages. rewrite <- list_fmap_compose. by apply list_fmap_id. Qed.

Lemma base_room tf sz : sz <= TRAPFRAME → room (base_map tf) 0 sz.
Proof. intros Hsz va Hva Hlt. apply base_map_low. change TRAPFRAME with (67108862 * 4096) in *. unfold PGSIZE in Hlt. pose proof (Z.div_mod va 4096 ltac:(lia)). pose proof (Z.mod_pos_bound va 4096 ltac:(lia)). lia. Qed.

(** [uvmalloc] in an empty address space. *)
Lemma grown_space k fl root T tf perm ps sz k' fl' T' : aspace k fl root T (base_map tf) 0 tf [] → 0 <= perm < 1024 → Z.lor perm PTE_V ≠ PTE_V →
  grew end_ k fl root T (base_map tf) 0 zeros ((λ p, (p, perm)) <$> ps) k' fl' T' → (Z.of_nat (length ps) - 1) * PGSIZE < sz <= Z.of_nat (length ps) * PGSIZE →
  0 <= sz <= TRAPFRAME →
  aspace k' fl' root T' (ext (base_map tf) 0 ((λ p, (p, perm)) <$> ps)) sz tf (valid_pages perm ps).
Proof.
  intros Ha Hperm Hne [V M O S _] Hps Hsz.
  assert (((λ p, (p, perm)) <$> ps).*1 = ps) as E1 by (rewrite <- list_fmap_compose; by apply list_fmap_id). rewrite E1 in *.
  assert (length (valid_pages perm ps) = length ps) as El by (by unfold valid_pages; rewrite length_fmap).
  destruct (as_page _ _ _ _ _ _ _ _ Ha tf ltac:(by left)) as (Htf & Hni & Ht). destruct S as [_ (newt & L & Q) _]. rewrite app_nil_r in L.
  split; rewrite ?El, ?valid_pages_fst; try done.
  - intros i q fg Hi. unfold valid_pages in Hi. rewrite list_lookup_fmap in Hi. destruct (ps !! i) as [p|] eqn:Ep; [|done]. injection Hi as <- <-.
    destruct (ow_page _ _ _ _ _ _ O p ltac:(by eapply list_elem_of_lookup_2)) as (Hp & _).
    destruct (mk_pte_facts p perm (page_ok_pa end_ end_pos _ Hp) Hperm Hne) as (Em & Hr & Hv). split; [|done].
    rewrite <- Em. rewrite <- (ext_leaf (base_map tf) 0 ((λ p, (p, perm)) <$> ps) i p perm); [done|]. by rewrite list_lookup_fmap, Ep.
  - apply NoDup_cons. split; [|apply O]. intros Hin. apply Hni. rewrite L, !elem_of_app. tauto.
  - intros q [->|Hq]%elem_of_cons; [|by apply O]. split; [done|]. rewrite L, !elem_of_app in Hni. split; [tauto|]. rewrite Q. tauto.
  - split; [lia|]. split; [done|]. change TRAPFRAME with (67108862 * 4096) in *. unfold PGSIZE in *. lia.
  - intros va Hout _. unfold ext. by rewrite decide_False by (by rewrite length_fmap).
Qed.
End space.
