(* ===== verification/Console.v ===== *)
(** * console.c and the buffered part of uart.c

    Output from [write] goes through [uart_tx_buf]; input comes from the UART's
    interrupt, is edited in [cons.buf] and read a line at a time.  [env] has what
    the rest of the machine does each time the caller sleeps. *)

From S2P Require Import Prelude CString Riscv Kalloc Vm Param Bio Log.
From S2P Require Import BlockLayer BlockLog FsDisk Fs Pipe Kernel Printf Proc.

(** ** uart.c *)

Definition UART_TX_BUF_SIZE : Z := 32.

Definition tx_char (u : uart) : Z := default 0 (u_buf u !! Z.to_nat (u_r u mod UART_TX_BUF_SIZE)).
Definition tx_pop (u : uart) : uart := Uart (u_buf u) (u_w u) (u64 (u_r u + 1)) (u_thr u) (u_lsr u) (u_rhr u).
Definition tx_push (c : Z) (u : uart) : uart :=
  Uart (<[Z.to_nat (u_w u mod UART_TX_BUF_SIZE) := u8 c]> (u_buf u)) (u64 (u_w u + 1)) (u_r u) (u_thr u) (u_lsr u) (u_rhr u).

(** The endless loop of [uartstart]; each round but the last sends a byte. *)
Fixpoint uartstart_loop (fuel : nat) : M K unit :=
  match fuel with
  | O => λ t, Asleep t
  | S fuel =>
      let! u := gets k_uart in
      if u_w u =? u_r u then ret tt
      else
        let! x := read_lsr in
        if Z.land x LSR_TX_IDLE =? 0 then ret tt
        else
          let c := tx_char u in
          upd_uart tx_pop ;;;
          wakeup CH_uart ;;;
          write_thr c ;;;
          uartstart_loop fuel
  end.

Definition uartstart : M K unit :=
  let! u := gets k_uart in
  uartstart_loop (S (Z.to_nat (u64 (u_w u - u_r u)))).

Definition tx_full (u : uart) : bool := u_w u =? u64 (u_r u + UART_TX_BUF_SIZE).

(** [while(uart_tx_w == uart_tx_r + UART_TX_BUF_SIZE) sleep(...)]; the rounds of
    [env] that are left. *)
Fixpoint uart_wait (env : list (K → K)) : M K (list (K → K)) :=
  let! u := gets k_uart in
  if tx_full u then
    match env with
    | [] => λ t, Asleep t
    | e :: env => sleep e CH_uart L_uart ;;; uart_wait env
    end
  else ret env.

Definition uartputc (env : list (K → K)) (c : Z) : M K (list (K → K)) :=
  acquire L_uart ;;;
  let! env := uart_wait env in
  upd_uart (tx_push c) ;;;
  uartstart ;;;
  release L_uart ;;;
  ret env.

(** [ReadReg(RHR)] *)
Definition read_rhr : M K Z :=
  let! u := gets k_uart in
  match u_rhr u with
  | [] => ret 0
  | c :: l => upd_uart (λ u, Uart (u_buf u) (u_w u) (u_r u) (u_thr u) (u_lsr u) l) ;;; ret c
  end.

Definition uartgetc : M K Z :=
  let! x := read_lsr in
  if negb (Z.land x 0x01 =? 0) then read_rhr else ret (-1).

(** ** console.c *)

Definition INPUT_BUF_SIZE : Z := 128.

(** [C('D')] *)
Definition ctrl (c : string) : Z := chr c - chr "@".
Definition newline : Z := 10.

Definition upd_cons (f : console → console) : M K unit := modify (λ s, set_cons (f (k_cons s)) s).
Definition set_cr r (c : console) : console := Console (c_buf c) r (c_w c) (c_e c).
Definition set_cw w (c : console) : console := Console (c_buf c) (c_r c) w (c_e c).
Definition set_ce e (c : console) : console := Console (c_buf c) (c_r c) (c_w c) e.
Definition cons_char (c : console) (i : Z) : Z := default 0 (c_buf c !! Z.to_nat (u32 i mod INPUT_BUF_SIZE)).
Definition cons_store (x : Z) (c : console) : console :=
  Console (<[Z.to_nat (c_e c mod INPUT_BUF_SIZE) := u8 x]> (c_buf c)) (c_r c) (c_w c) (u32 (c_e c + 1)).

Fixpoint consolewrite_loop (k : nat) (env : list (K → K)) (user_src : bool) (src i n : Z) : M K Z :=
  match k with
  | O => ret i
  | S k =>
      let! r := either_copyin user_src (u64 (src + i)) 1 in
      if r.1 =? -1 then ret i
      else
        let! env := uartputc env (default 0 (head r.2)) in
        consolewrite_loop k env user_src src (i + 1) n
  end.

Definition consolewrite (env : list (K → K)) (user_src : bool) (src n : Z) : M K Z :=
  consolewrite_loop (Z.to_nat n) env user_src src 0 n.

(** [while(cons.r == cons.w)]: [None] when the process was killed. *)
Fixpoint cons_wait (env : list (K → K)) : M K (option (list (K → K))) :=
  let! c := gets k_cons in
  if c_r c =? c_w c then
    let! i := myproc in
    let! k := killed i in
    if truth k then release L_cons ;;; ret None
    else
      match env with
      | [] => λ t, Asleep t
      | e :: env => sleep e CH_cons L_cons ;;; cons_wait env
      end
  else ret (Some env).

(** The loop of [consoleread]; the count [n] that is left, or [None] after the
    early return. *)
Fixpoint consoleread_loop (k : nat) (env : list (K → K)) (user_dst : bool) (dst n target : Z) : M K (option Z) :=
  match k with
  | O => ret (Some n)
  | S k =>
      let! w := cons_wait env in
      match w with
      | None => ret None
      | Some env =>
          let! cs := gets k_cons in
          let c := cons_char cs (c_r cs) in
          upd_cons (λ cs, set_cr (u32 (c_r cs + 1)) cs) ;;;
          if c =? ctrl "D" then
            (if n <? target then upd_cons (λ cs, set_cr (u32 (c_r cs - 1)) cs) else ret tt) ;;;
            ret (Some n)
          else
            let! r := either_copyout user_dst dst [c] in
            if r =? -1 then ret (Some n)
            else if c =? newline then ret (Some (n - 1))
            else consoleread_loop k env user_dst (u64 (dst + 1)) (n - 1) target
      end
  end.

(** [target] is unsigned: for a negative [n] the loop does not run and the result
    is [target - n = 0]. *)
Definition consoleread (env : list (K → K)) (user_dst : bool) (dst n : Z) : M K Z :=
  acquire L_cons ;;;
  let! r := consoleread_loop (Z.to_nat n) env user_dst dst n n in
  match r with
  | None => ret (-1)
  | Some rest => release L_cons ;;; ret (n - rest)
  end.

(** [while(cons.e != cons.w && cons.buf[(cons.e-1) % INPUT_BUF_SIZE] != '\n')] *)
Fixpoint kill_line (fuel : nat) : M K unit :=
  match fuel with
  | O => λ t, Asleep t
  | S fuel =>
      let! c := gets k_cons in
      if negb (c_e c =? c_w c) && negb (cons_char c (c_e c - 1) =? newline) then
        upd_cons (set_ce (u32 (c_e c - 1))) ;;;
        consputc BACKSPACE ;;;
        kill_line fuel
      else ret tt
  end.

Definition consoleintr (c : Z) : M K unit :=
  acquire L_cons ;;;
  (if c =? ctrl "P" then procdump
   else if c =? ctrl "U" then
     let! cs := gets k_cons in
     kill_line (S (Z.to_nat (u32 (c_e cs - c_w cs))))
   else if (c =? ctrl "H") || (c =? 0x7f) then
     let! cs := gets k_cons in
     if negb (c_e cs =? c_w cs) then
       upd_cons (set_ce (u32 (c_e cs - 1))) ;;;
       consputc BACKSPACE
     else ret tt
   else
     let! cs := gets k_cons in
     if negb (c =? 0) && (u32 (c_e cs - c_r cs) <? INPUT_BUF_SIZE) then
       let c := if c =? 13 then newline else c in
       consputc c ;;;
       upd_cons (cons_store c) ;;;
       let! cs := gets k_cons in
       if (c =? newline) || (c =? ctrl "D") || (u32 (c_e cs - c_r cs) =? INPUT_BUF_SIZE) then
         upd_cons (set_cw (c_e cs)) ;;;
         wakeup CH_cons
       else ret tt
     else ret tt) ;;;
  release L_cons.

(** The input loop of [uartintr]; the device has one answer ready per prepared
    read of its status. *)
Fixpoint uartintr_loop (fuel : nat) : M K unit :=
  match fuel with
  | O => λ t, Asleep t
  | S fuel =>
      let! c := uartgetc in
      if c =? -1 then ret tt
      else consoleintr c ;;; uartintr_loop fuel
  end.

Definition uartintr : M K unit :=
  let! u := gets k_uart in
  uartintr_loop (S (length (u_lsr u))) ;;;
  acquire L_uart ;;;
  uartstart ;;;
  release L_uart.

(** ** The device table of file.c

    [consoleinit] enters the console; every other entry is null. *)
Definition CONSOLE : Z := 1.

Definition devsw_read (major : Z) : option (list (K → K) → bool → Z → Z → M K Z) :=
  if major =? CONSOLE then Some consoleread else None.
Definition devsw_write (major : Z) : option (list (K → K) → bool → Z → Z → M K Z) :=
  if major =? CONSOLE then Some consolewrite else None.
