(* ===== verification/ConsoleSpec.v ===== *)
(** * What the console does

    The line discipline as a function on two strings, the lines that wait for [read] and
    the line that is being typed, and the proof that the interrupt handler implements it
    on the ring buffer; the output buffer of the UART as a queue. *)

From S2P Require Import Prelude CString Riscv Kalloc Vm VmTable VmMap VmCopy Param Bio Log.
From S2P Require Import BlockLayer BlockLog FsDisk Fs Pipe Kernel Printf Proc ProcSpec Console.

(** ** Bytes to the transmit register *)

(** Only the UART changed: [bs] went out, and some answers of the device were used. *)
Definition sends (bs : list Z) (s s' : K) : Prop :=
  s' = set_uart (k_uart s') s ∧ u_buf (k_uart s') = u_buf (k_uart s) ∧ u_w (k_uart s') = u_w (k_uart s) ∧ u_r (k_uart s') = u_r (k_uart s) ∧
  u_rhr (k_uart s') = u_rhr (k_uart s) ∧ u_thr (k_uart s') = u_thr (k_uart s) ++ bs ∧
  ∃ n, u_lsr (k_uart s') = drop n (u_lsr (k_uart s)).

Lemma uart_set_uart u s : k_uart (set_uart u s) = u.
Proof. by destruct s. Qed.
Lemma set_uart_twice u v s : set_uart u (set_uart v s) = set_uart u s.
Proof. by destruct s. Qed.
Lemma set_uart_same s : set_uart (k_uart s) s = s.
Proof. by destruct s. Qed.

Lemma sends_nil s : sends [] s s.
Proof. unfold sends. rewrite set_uart_same, app_nil_r. split_and!; [done..|by exists 0%nat]. Qed.

Lemma sends_app bs cs s1 s2 s3 : sends bs s1 s2 → sends cs s2 s3 → sends (bs ++ cs) s1 s3.
Proof.
  intros (E1 & A1 & A2 & A3 & A4 & A5 & n1 & A6) (E2 & B1 & B2 & B3 & B4 & B5 & n2 & B6).
  split; [rewrite E2 at 1; rewrite E1; apply set_uart_twice|].
  split; [by rewrite B1|]. split; [by rewrite B2|]. split; [by rewrite B3|]. split; [by rewrite B4|]. split; [by rewrite B5, A5, app_assoc|].
  exists (n1 + n2)%nat. by rewrite B6, A6, drop_drop.
Qed.

Lemma upd_uart_run f h s : upd_uart f (Thread h s) = Ok tt (Thread h (set_uart (f (k_uart s)) s)).
Proof. done. Qed.

Lemma read_lsr_run h s : ∃ s', read_lsr (Thread h s) = Ok (default LSR_TX_IDLE (head (u_lsr (k_uart s)))) (Thread h s') ∧ sends [] s s' ∧
  u_lsr (k_uart s') = drop 1 (u_lsr (k_uart s)).
Proof.
  unfold read_lsr. kstep. cbn [held st]. destruct (u_lsr (k_uart s)) as [|x l] eqn:E.
  - exists s. split; [done|]. split; [apply sends_nil|]. by rewrite E.
  - eexists. split; [rewrite (bind_Ok _ _ _ _ _ (upd_uart_run _ _ _)); reflexivity|]. unfold sends. rewrite !uart_set_uart. cbn.
    split; [|done]. split_and!; [done..|by rewrite app_nil_r|]. exists 1%nat. by rewrite E.
Qed.

Lemma spin_tx_run h : ∀ fuel s, (length (u_lsr (k_uart s)) < fuel)%nat → ∃ s', spin_tx fuel (Thread h s) = Ok tt (Thread h s') ∧ sends [] s s'.
Proof.
  induction fuel as [|fuel IH]; intros s Hf; [lia|]. cbn [spin_tx]. destruct (read_lsr_run h s) as (s1 & E1 & S1 & L1).
  rewrite (bind_Ok _ _ _ _ _ E1). destruct (Z.land _ LSR_TX_IDLE =? 0) eqn:E; [|by exists s1].
  destruct (u_lsr (k_uart s)) as [|x l] eqn:El; [discriminate E|]. destruct (IH s1) as (s2 & E2 & S2).
  { rewrite L1. change (drop 1 (x :: l)) with l. cbn [length] in Hf. lia. }
  exists s2. split; [done|]. exact (sends_app [] [] _ _ _ S1 S2).
Qed.

Lemma write_thr_run c h s : ∃ s', write_thr c (Thread h s) = Ok tt (Thread h s') ∧ sends [u8 c] s s'.
Proof.
  eexists. split; [reflexivity|]. unfold sends. cbn [held st]. rewrite !uart_set_uart. cbn. split_and!; [done..|by exists 0%nat].
Qed.

Lemma uartputc_sync_run c h s : ∃ s', uartputc_sync c (Thread h s) = Ok tt (Thread h s') ∧ sends [u8 c] s s'.
Proof.
  unfold uartputc_sync. kstep. destruct (spin_tx_run h (S (length (u_lsr (k_uart s)))) s ltac:(lia)) as (s1 & E1 & S1).
  rewrite (bind_Ok _ _ _ _ _ E1). destruct (write_thr_run c h s1) as (s2 & E2 & S2). exists s2. split; [done|]. exact (sends_app [] _ _ _ _ S1 S2).
Qed.

Definition echo (c : Z) : list Z := if c =? BACKSPACE then [8; 32; 8] else [u8 c].

Lemma consputc_run c h s : ∃ s', consputc c (Thread h s) = Ok tt (Thread h s') ∧ sends (echo c) s s'.
Proof.
  unfold consputc, echo. destruct (c =? BACKSPACE); [|apply uartputc_sync_run].
  destruct (uartputc_sync_run 8 h s) as (s1 & E1 & S1). rewrite (bind_Ok _ _ _ _ _ E1).
  destruct (uartputc_sync_run 32 h s1) as (s2 & E2 & S2). rewrite (bind_Ok _ _ _ _ _ E2).
  destruct (uartputc_sync_run 8 h s2) as (s3 & E3 & S3). exists s3. split; [done|].
  exact (sends_app [8] [32; 8] _ _ _ S1 (sends_app [32] [8] _ _ _ S2 S3)).
Qed.

Lemma consputs_run cs h : ∀ s, ∃ s', consputs cs (Thread h s) = Ok tt (Thread h s') ∧ sends (concat (echo <$> cs)) s s'.
Proof.
  induction cs as [|c cs IH]; intros s; cbn [consputs]; [exists s; split; [done|apply sends_nil]|].
  destruct (consputc_run c h s) as (s1 & E1 & S1). rewrite (bind_Ok _ _ _ _ _ E1). destruct (IH s1) as (s2 & E2 & S2).
  exists s2. split; [done|]. exact (sends_app _ _ _ _ _ S1 S2).
Qed.

Lemma printf_run fmt args out h s : format (str fmt) args = Some out → L_pr ∉ h →
  ∃ s', printf fmt args (Thread h s) = Ok tt (Thread h s') ∧ sends (concat (echo <$> out)) s s'.
Proof.
  intros Ef Hh. unfold printf. kstep. rewrite Ef. destruct (consputs_run out (L_pr :: h) s) as (s1 & E1 & S1).
  rewrite (bind_Ok _ _ _ _ _ E1). exists s1. split; [apply release_Ok|done].
Qed.

(** ** [procdump] *)

Lemma printint_d z : is_Some (printint (s32 z) 10 true).
Proof.
  pose proof (printint_spec (s32 z) 10 true ltac:(lia)) as Hs. cbn zeta in Hs. destruct (printint (s32 z) 10 true); [done|]. exfalso.
  pose proof (signed_range 32 z ltac:(lia)) as Hr. fold (s32 z) in Hr. change (32 - 1) with 31 in Hr.
  unfold printed in Hs. rewrite signed_small in Hs by lia. destruct (s32 z <? 0); lia.
Qed.

Lemma format_dump z a b : ∃ out, format (str "%d %s %s") [VWord z; VStr (Some a); VStr (Some b)] = Some out.
Proof.
  destruct (printint_d z) as [o Eo].
  set (rest := str " %s %s"). set (args := [VStr (Some a); VStr (Some b)]).
  assert (format_one (100 :: rest) (VWord z :: args) = Some (o, rest, args)) as E1.
  { change (format_one (100 :: rest) (VWord z :: args)) with ((λ o, (o, rest, args)) <$> printint (s32 z) 10 true). by rewrite Eo. }
  change (format (str "%d %s %s") (VWord z :: args)) with
    (match format_one (100 :: rest) (VWord z :: args) with None => None | Some (o, fmt, args) => (λ r, o ++ r) <$> format_loop 8 fmt args end).
  rewrite E1. eexists. reflexivity.
Qed.

Lemma for_range_sends (body : nat → M K unit) h : (∀ i s, ∃ s' bs, body i (Thread h s) = Ok tt (Thread h s') ∧ sends bs s s') →
  ∀ n a s, ∃ s' bs, for_range a n body (Thread h s) = Ok tt (Thread h s') ∧ sends bs s s'.
Proof.
  intros Hb. induction n as [|n IH]; intros a s; cbn [for_range]; [exists s, []; split; [done|apply sends_nil]|].
  destruct (Hb a s) as (s1 & b1 & E1 & S1). rewrite (bind_Ok _ _ _ _ _ E1). destruct (IH (1 + a)%nat s1) as (s2 & b2 & E2 & S2).
  exists s2, (b1 ++ b2). split; [done|]. exact (sends_app _ _ _ _ _ S1 S2).
Qed.

(** [procdump] only prints. *)
Lemma procdump_run h s : L_pr ∉ h → ∃ s' bs, procdump (Thread h s) = Ok tt (Thread h s') ∧ sends bs s s'.
Proof.
  intros Hh. unfold procdump. destruct (printf_run "
" [] [10] h s eq_refl Hh) as (s1 & E1 & S1). rewrite (bind_Ok _ _ _ _ _ E1).
  edestruct (for_range_sends) as (s2 & bs & E2 & S2).
  2: { exists s2, (concat (echo <$> [10]) ++ bs). split; [exact E2|exact (sends_app _ _ _ _ _ S1 S2)]. }
  intros i t. kstep. cbn [held st]. destruct (decide (p_state (proc_at i t) = UNUSED)).
  { exists t, []. split; [done|apply sends_nil]. }
  destruct (format_dump (p_pid (proc_at i t)) (state_name (p_state (proc_at i t))) (cstring (p_name (proc_at i t)))) as [out Eo].
  destruct (printf_run _ _ out h t Eo Hh) as (t1 & F1 & T1). rewrite (bind_Ok _ _ _ _ _ F1).
  destruct (printf_run "
" [] [10] h t1 eq_refl Hh) as (t2 & F2 & T2). exists t2, (concat (echo <$> out) ++ concat (echo <$> [10])).
  split; [exact F2|exact (sends_app _ _ _ _ _ T1 T2)].
Qed.

(** ** The line discipline *)

(** What waits for [read], and the line that is being typed. *)
Record tty := Tty { t_ready : list Z; t_edit : list Z }.

Definition tty_len (t : tty) : Z := Z.of_nat (length (t_ready t) + length (t_edit t)).

(** A character that is typed: [^U] empties the line, backspace and delete remove its last
    character; a newline, [^D] or a full buffer end it. *)
Definition type_char (t : tty) (c : Z) : tty :=
  if c =? ctrl "P" then t
  else if c =? ctrl "U" then Tty (t_ready t) []
  else if (c =? ctrl "H") || (c =? 0x7f) then Tty (t_ready t) (removelast (t_edit t))
  else if (c =? 0) || (INPUT_BUF_SIZE <=? tty_len t) then t
  else
    let c := if c =? 13 then newline else c in
    let line := t_edit t ++ [c] in
    if (c =? newline) || (c =? ctrl "D") || (tty_len t + 1 =? INPUT_BUF_SIZE) then Tty (t_ready t ++ line) []
    else Tty (t_ready t) line.

(** The ring buffer holds them, from [r] to [w] and from [w] to [e]; the line that is
    being typed has no newline. *)
Definition ring (buf : list Z) (r : Z) (l : list Z) : Prop :=
  ∀ i x, l !! i = Some x → buf !! Z.to_nat ((r + Z.of_nat i) mod INPUT_BUF_SIZE) = Some x.

Record tty_rep (c : console) (t : tty) : Prop := {
  tr_buf : length (c_buf c) = 128%nat;
  tr_r : 0 <= c_r c < 2 ^ 32;
  tr_w : c_w c = u32 (c_r c + Z.of_nat (length (t_ready t)));
  tr_e : c_e c = u32 (c_r c + tty_len t);
  tr_len : tty_len t <= INPUT_BUF_SIZE;
  tr_ring : ring (c_buf c) (c_r c) (t_ready t ++ t_edit t);
  tr_line : newline ∉ t_edit t }.

Lemma u32_mod_buf x : u32 x mod INPUT_BUF_SIZE = x mod INPUT_BUF_SIZE.
Proof. unfold u32, INPUT_BUF_SIZE. rewrite <- (Z.mod_mod_divide x (2 ^ 32) 128); [done|]. by exists 33554432. Qed.

Lemma u32_add_l x y : u32 (u32 x + y) = u32 (x + y).
Proof. unfold u32. by rewrite Zplus_mod_idemp_l. Qed.
Lemma u32_sub_l x y : u32 (u32 x - y) = u32 (x - y).
Proof. unfold u32. by rewrite Zminus_mod_idemp_l. Qed.
Lemma u32_sub_r x y : u32 (x - u32 y) = u32 (x - y).
Proof. unfold u32. by rewrite Zminus_mod_idemp_r. Qed.

Section Rep.
Context (c : console) (t : tty) (Hr : tty_rep c t).

Lemma rep_len_range : 0 <= tty_len t <= 128.
Proof. split; [unfold tty_len; lia|]. exact (tr_len _ _ Hr). Qed.

(** The pointers' differences are the lengths, though they wrap around. *)
Lemma rep_used : u32 (c_e c - c_r c) = tty_len t.
Proof. rewrite (tr_e _ _ Hr), u32_sub_l. pose proof rep_len_range. etransitivity; [|apply (u32_small (tty_len t)); lia]. f_equal. lia. Qed.

Lemma rep_editing : u32 (c_e c - c_w c) = Z.of_nat (length (t_edit t)).
Proof.
  rewrite (tr_e _ _ Hr), (tr_w _ _ Hr), u32_sub_l, u32_sub_r. pose proof rep_len_range. unfold tty_len in *.
  etransitivity; [|apply (u32_small (Z.of_nat (length (t_edit t)))); lia]. f_equal. lia.
Qed.

Lemma rep_waiting : u32 (c_w c - c_r c) = Z.of_nat (length (t_ready t)).
Proof.
  rewrite (tr_w _ _ Hr), u32_sub_l. pose proof rep_len_range. unfold tty_len in *.
  etransitivity; [|apply (u32_small (Z.of_nat (length (t_ready t)))); lia]. f_equal. lia.
Qed.

Lemma rep_no_edit : (c_e c =? c_w c) = bool_decide (t_edit t = []).
Proof.
  pose proof rep_editing as He. destruct (Z.eqb_spec (c_e c) (c_w c)) as [E|Hne].
  - rewrite E, Z.sub_diag in He. change (u32 0) with 0 in He. rewrite bool_decide_true; [done|]. apply length_zero_iff_nil. lia.
  - rewrite bool_decide_false; [done|]. intros E. apply Hne. rewrite (tr_e _ _ Hr), (tr_w _ _ Hr). unfold tty_len. rewrite E. cbn [length].
    by rewrite Nat.add_0_r.
Qed.

Lemma rep_no_input : (c_r c =? c_w c) = bool_decide (t_ready t = []).
Proof.
  pose proof rep_waiting as He. destruct (Z.eqb_spec (c_r c) (c_w c)) as [E|Hne].
  - rewrite <- E, Z.sub_diag in He. change (u32 0) with 0 in He. rewrite bool_decide_true; [done|]. apply length_zero_iff_nil. lia.
  - rewrite bool_decide_false; [done|]. intros E. apply Hne. rewrite (tr_w _ _ Hr), E. cbn [length]. rewrite Z.add_0_r, u32_small; [done|].
    exact (tr_r _ _ Hr).
Qed.

Lemma rep_char (i : nat) x : (t_ready t ++ t_edit t) !! i = Some x → cons_char c (c_r c + Z.of_nat i) = x.
Proof. intros Hi. unfold cons_char. rewrite u32_mod_buf. by rewrite (tr_ring _ _ Hr _ _ Hi). Qed.

Lemma rep_last l x : t_edit t = l ++ [x] → cons_char c (c_e c - 1) = x.
Proof.
  intros E. pose proof rep_len_range as Hl. unfold tty_len in Hl. rewrite <- (rep_char (length (t_ready t) + length l) x).
  - unfold cons_char. rewrite (tr_e _ _ Hr), !u32_mod_buf. rewrite Zminus_mod. rewrite u32_mod_buf, <- Zminus_mod. unfold tty_len.
    rewrite E, length_app. cbn [length]. do 4 f_equal. lia.
  - rewrite E, app_assoc, lookup_app_r by (rewrite length_app; lia). rewrite length_app, Nat.sub_diag. done.
Qed.

(** The steps of the handler. *)
Lemma rep_erase l x : t_edit t = l ++ [x] → tty_rep (set_ce (u32 (c_e c - 1)) c) (Tty (t_ready t) l).
Proof.
  intros E. destruct Hr as [H1 H2 H3 H4 H5 H6 H7]. unfold tty_len in *. rewrite E, length_app in *. cbn [length] in *.
  split; cbn [c_buf c_r c_w c_e set_ce t_ready t_edit]; unfold tty_len; cbn [t_ready t_edit]; try done.
  - rewrite H4, u32_sub_l. f_equal. lia.
  - lia.
  - intros i y Hi. apply H6. rewrite app_assoc. by apply lookup_app_l_Some.
  - rewrite not_elem_of_app in H7. tauto.
Qed.

Lemma rep_store_ring x : tty_len t < INPUT_BUF_SIZE → 0 <= x < 256 → ring (c_buf (cons_store x c)) (c_r c) (t_ready t ++ t_edit t ++ [x]).
Proof.
  intros Hl Hx i y Hi. pose proof rep_len_range as Hlr. destruct Hr as [H1 H2 H3 H4 H5 H6 H7]. unfold tty_len in *. cbn [c_buf cons_store].
  rewrite app_assoc in Hi. rewrite H4, u32_mod_buf, (u8_small x) by done.
  assert (0 <= (c_r c + Z.of_nat (length (t_ready t) + length (t_edit t))) mod INPUT_BUF_SIZE < 128) as Hb by (apply Z.mod_pos_bound; lia).
  destruct (decide (i < length (t_ready t ++ t_edit t))%nat) as [Hlt|Hge].
  - rewrite lookup_app_l in Hi by done. rewrite length_app in Hlt. rewrite list_lookup_insert_ne; [by apply H6|].
    intros E. apply Z2Nat.inj in E; [|lia|apply Z.mod_pos_bound; lia].
    unfold INPUT_BUF_SIZE in *. Z.div_mod_to_equations. lia.
  - apply lookup_lt_Some in Hi as Hi'. rewrite length_app in Hi'. cbn [length] in Hi'.
    assert (i = length (t_ready t ++ t_edit t)) as -> by lia.
    rewrite lookup_app_r in Hi by done. rewrite Nat.sub_diag in Hi. injection Hi as <-. rewrite length_app. apply list_lookup_insert_eq. lia.
Qed.

Lemma rep_store x : tty_len t < INPUT_BUF_SIZE → 0 <= x < 256 → x ≠ newline → tty_rep (cons_store x c) (Tty (t_ready t) (t_edit t ++ [x])).
Proof.
  intros Hl Hx Hn. pose proof (rep_store_ring x Hl Hx) as Hring. destruct Hr as [H1 H2 H3 H4 H5 H6 H7]. unfold tty_len in *.
  split; cbn [c_buf c_r c_w c_e cons_store t_ready t_edit]; unfold tty_len; cbn [t_ready t_edit]; rewrite ?length_app; cbn [length]; try done.
  - by rewrite length_insert.
  - rewrite H4, u32_add_l. f_equal. lia.
  - lia.
  - rewrite not_elem_of_app, list_elem_of_singleton. split; [done|]. intros E. by apply Hn.
Qed.

(** ... when the line is complete. *)
Lemma rep_commit x : tty_len t < INPUT_BUF_SIZE → 0 <= x < 256 →
  tty_rep (set_cw (c_e (cons_store x c)) (cons_store x c)) (Tty (t_ready t ++ t_edit t ++ [x]) []).
Proof.
  intros Hl Hx. pose proof (rep_store_ring x Hl Hx) as Hring. destruct Hr as [H1 H2 H3 H4 H5 H6 H7]. unfold tty_len in *.
  split; cbn [c_buf c_r c_w c_e set_cw cons_store t_ready t_edit]; unfold tty_len; cbn [t_ready t_edit]; rewrite ?length_app; cbn [length]; try done.
  - by rewrite length_insert.
  - rewrite H4, u32_add_l. f_equal. lia.
  - rewrite H4, u32_add_l. f_equal. lia.
  - lia.
  - by rewrite app_nil_r.
  - apply not_elem_of_nil.
Qed.
End Rep.

(** ** [consoleintr] *)

(** Apart from the console's buffer and the process table, only the UART changed. *)
Definition reset (s s' : K) : K := set_cons (k_cons s) (set_procs (k_procs s) s').
Definition tty_only (bs : list Z) (s s' : K) : Prop := sends bs s (reset s s').

Lemma uart_reset s s' : k_uart (reset s s') = k_uart s'.
Proof. by destruct s'. Qed.
Lemma cons_set_cons c s : k_cons (set_cons c s) = c.
Proof. by destruct s. Qed.
Lemma sends_cons bs s s' : sends bs s s' → k_cons s' = k_cons s ∧ k_procs s' = k_procs s ∧ k_cur s' = k_cur s ∧ tty_only bs s s'.
Proof.
  intros H. pose proof H as (E & _). assert (k_cons s' = k_cons s ∧ k_procs s' = k_procs s) as [E1 E2] by (rewrite E; by destruct s).
  split; [done|]. split; [done|]. split; [rewrite E; by destruct s|]. unfold tty_only, reset. rewrite <- E1, <- E2.
  assert (set_cons (k_cons s') (set_procs (k_procs s') s') = s') as -> by (by destruct s'). done.
Qed.

Lemma tty_only_app b1 b2 s1 s2 s3 : tty_only b1 s1 s2 → tty_only b2 s2 s3 → tty_only (b1 ++ b2) s1 s3.
Proof.
  intros H1 H2. refine (sends_app _ _ _ _ _ H1 _). destruct H2 as (E & H2). rewrite uart_reset in *. split; [|by rewrite !uart_reset in *].
  rewrite uart_reset. destruct s1, s2, s3. cbn in *. by injection E as -> -> -> -> -> -> -> -> ->.
Qed.

Lemma tty_only_cons c s : tty_only [] s (set_cons c s).
Proof. unfold tty_only. assert (reset s (set_cons c s) = s) as -> by (by destruct s). apply sends_nil. Qed.

Lemma foldl_on_proc_procs (g : nat → proc → proc) idx : ∀ s, ∃ ps, foldl (λ s i, on_proc i (g i) s) s idx = set_procs ps s.
Proof.
  induction idx as [|i idx IH]; intros s; cbn [foldl]; [exists (k_procs s); by rewrite set_procs_same|].
  destruct (IH (on_proc i (g i) s)) as [ps E]. exists ps. rewrite E. apply set_procs_on.
Qed.

Lemma woken_procs c s : woken c s = set_procs (k_procs (woken c s)) s.
Proof.
  destruct (foldl_on_proc_procs (λ i p, if decide (k_cur s = Some i) then p else wake c p) procs_idx s) as [ps E].
  unfold woken. rewrite E. by destruct s.
Qed.

Lemma foldl_on_proc_same (g : nat → proc → proc) idx : ∀ s1 s2, k_procs s1 = k_procs s2 →
  k_procs (foldl (λ s i, on_proc i (g i) s) s1 idx) = k_procs (foldl (λ s i, on_proc i (g i) s) s2 idx).
Proof.
  induction idx as [|i idx IH]; intros s1 s2 E; cbn [foldl]; [done|]. apply IH. unfold on_proc, proc_at. by rewrite !procs_set, E.
Qed.

Lemma woken_same c s1 s2 : k_procs s1 = k_procs s2 → k_cur s1 = k_cur s2 → k_procs (woken c s1) = k_procs (woken c s2).
Proof. intros E1 E2. unfold woken. rewrite E2. by apply (foldl_on_proc_same (λ i p, if decide (k_cur s2 = Some i) then p else wake c p)). Qed.

Lemma tty_only_woken c s : k_cons (woken c s) = k_cons s ∧ tty_only [] s (woken c s).
Proof.
  rewrite woken_procs. split; [by destruct s|]. unfold tty_only.
  assert (reset s (set_procs (k_procs (woken c s)) s) = s) as -> by (by destruct s). apply sends_nil.
Qed.

Lemma upd_cons_run f h s : upd_cons f (Thread h s) = Ok tt (Thread h (set_cons (f (k_cons s)) s)).
Proof. done. Qed.

(** The handler erases the whole line. *)
Lemma kill_line_run h l : ∀ fuel s t, tty_rep (k_cons s) t → t_edit t = l → (length l < fuel)%nat →
  ∃ s' bs, kill_line fuel (Thread h s) = Ok tt (Thread h s') ∧ tty_rep (k_cons s') (Tty (t_ready t) []) ∧ tty_only bs s s' ∧ k_procs s' = k_procs s.
Proof.
  induction l as [|x l IH] using rev_ind; intros [|fuel] s t Hr E Hf; try lia; cbn [kill_line]; kstep; cbn [held st].
  - rewrite (rep_no_edit _ _ Hr), bool_decide_true by done. exists s, []. destruct t as [a b]. cbn in E. subst b.
    split_and!; [done|done| |done]. apply (proj2 (proj2 (sends_cons _ _ _ (sends_nil s)))).
  - rewrite (rep_no_edit _ _ Hr), bool_decide_false by (rewrite E; by destruct l). rewrite (rep_last _ _ Hr _ _ E). cbn [negb andb].
    assert (x ≠ newline) as Hx. { intros ->. apply (tr_line _ _ Hr). rewrite E. apply elem_of_app. right. by apply list_elem_of_singleton. }
    rewrite (proj2 (Z.eqb_neq _ _) Hx). cbn [negb]. rewrite (bind_Ok _ _ _ _ _ (upd_cons_run _ _ _)).
    set (s1 := set_cons (set_ce (u32 (c_e (k_cons s) - 1)) (k_cons s)) s).
    destruct (consputc_run BACKSPACE h s1) as (s2 & E2 & S2). rewrite (bind_Ok _ _ _ _ _ E2).
    destruct (sends_cons _ _ _ S2) as (C2 & P2 & _ & T2).
    destruct (IH fuel s2 (Tty (t_ready t) l)) as (s3 & bs & E3 & R3 & T3 & P3); [|done|rewrite length_app in Hf; cbn in Hf; lia|].
    { rewrite C2. subst s1. rewrite cons_set_cons. by apply (rep_erase _ _ Hr _ x). }
    exists s3, ([] ++ echo BACKSPACE ++ bs). split_and!; [done|done| |].
    + apply (tty_only_app _ _ _ s1); [apply tty_only_cons|]. by apply (tty_only_app _ _ _ s2).
    + rewrite P3, P2. by destruct s.
Qed.

(** Waiting readers are woken exactly when a line becomes ready. *)
Definition wakes (s s' : K) (t t' : tty) : Prop :=
  k_procs s' = if decide (t_ready t' = t_ready t) then k_procs s else k_procs (woken CH_cons s).

Lemma removelast_snoc {A} (l : list A) x : removelast (l ++ [x]) = l.
Proof. apply removelast_last. Qed.

Lemma consoleintr_run c h s t : tty_rep (k_cons s) t → 0 <= c < 256 → L_cons ∉ h → L_pr ∉ h → no_plock h →
  ∃ s' bs, consoleintr c (Thread h s) = Ok tt (Thread h s') ∧ tty_rep (k_cons s') (type_char t c) ∧ tty_only bs s s' ∧ wakes s s' t (type_char t c).
Proof.
  intros Hr Hc Hl Hp Hn. unfold consoleintr, type_char. kstep.
  assert (L_pr ∉ L_cons :: h) as Hp' by set_solver. assert (no_plock (L_cons :: h)) as Hn' by (intros i; specialize (Hn i); set_solver).
  assert (∀ s1 s2 bs, sends bs s1 s2 → tty_only bs s1 s2) as Hso by (intros ??? Hs; by apply sends_cons in Hs as (_ & _ & _ & ?)).
  destruct (c =? ctrl "P").
  { destruct (procdump_run (L_cons :: h) s Hp') as (s1 & bs & E1 & S1). destruct (sends_cons _ _ _ S1) as (C1 & P1 & _ & T1).
    rewrite (bind_Ok _ _ _ _ _ E1), release_Ok. exists s1, bs. rewrite C1. split_and!; [done|done|done|]. unfold wakes. by rewrite decide_True. }
  destruct (c =? ctrl "U").
  { do 2 kstep. cbn [held st]. destruct (kill_line_run (L_cons :: h) (t_edit t) (S (Z.to_nat (u32 (c_e (k_cons s) - c_w (k_cons s))))) s t Hr eq_refl)
      as (s1 & bs & E1 & R1 & T1 & P1); [rewrite (rep_editing _ _ Hr); lia|].
    rewrite (bind_Ok _ _ _ _ _ E1), release_Ok. exists s1, bs. split_and!; [done|done|done|]. unfold wakes. by rewrite decide_True. }
  destruct ((c =? ctrl "H") || (c =? 0x7f)).
  { do 2 kstep. cbn [held st]. rewrite (rep_no_edit _ _ Hr). case_bool_decide as He; cbn [negb].
    - kstep. rewrite release_Ok. exists s, []. rewrite He. destruct t as [a b]. cbn in He. subst b. cbn [removelast t_ready].
      split_and!; [done|done|apply Hso, sends_nil|]. unfold wakes. by rewrite decide_True.
    - destruct (exists_last He) as (l & x & El). rewrite bind_assoc, (bind_Ok _ _ _ _ _ (upd_cons_run _ _ _)).
      set (s1 := set_cons (set_ce (u32 (c_e (k_cons s) - 1)) (k_cons s)) s).
      destruct (consputc_run BACKSPACE (L_cons :: h) s1) as (s2 & E2 & S2). rewrite (bind_Ok _ _ _ _ _ E2), release_Ok.
      destruct (sends_cons _ _ _ S2) as (C2 & P2 & _ & T2). exists s2, ([] ++ echo BACKSPACE). split_and!; [done| | |].
      + rewrite C2. subst s1. rewrite cons_set_cons, El, removelast_snoc. by apply (rep_erase _ _ Hr _ x).
      + apply (tty_only_app _ _ _ s1); [apply tty_only_cons|done].
      + unfold wakes. rewrite decide_True by done. rewrite P2. by destruct s. }
  do 2 kstep. cbn [held st]. rewrite (rep_used _ _ Hr).
  destruct (Z.eqb_spec c 0) as [->|Hc0]; cbn [negb andb orb].
  { kstep. rewrite release_Ok. exists s, []. split_and!; [done|done|apply Hso, sends_nil|]. unfold wakes. by rewrite decide_True. }
  destruct (Z.ltb_spec (tty_len t) INPUT_BUF_SIZE) as [Hlen|Hlen].
  2: { rewrite (proj2 (Z.leb_le _ _)) by lia. kstep. rewrite release_Ok. exists s, []. split_and!; [done|done|apply Hso, sends_nil|]. unfold wakes. by rewrite decide_True. }
  rewrite (proj2 (Z.leb_gt _ _)) by lia. set (c' := if c =? 13 then newline else c).
  assert (0 <= c' < 256) as Hc' by (subst c'; unfold newline; destruct (c =? 13); lia).
  destruct (consputc_run c' (L_cons :: h) s) as (s1 & E1 & S1). rewrite bind_assoc, (bind_Ok _ _ _ _ _ E1).
  destruct (sends_cons _ _ _ S1) as (C1 & P1 & U1 & T1). rewrite bind_assoc, (bind_Ok _ _ _ _ _ (upd_cons_run _ _ _)), C1.
  set (s2 := set_cons (cons_store c' (k_cons s)) s1). do 2 kstep. cbn [held st].
  assert (k_cons s2 = cons_store c' (k_cons s)) as C2 by apply cons_set_cons. rewrite C2.
  assert (u32 (c_e (cons_store c' (k_cons s)) - c_r (cons_store c' (k_cons s))) = tty_len t + 1) as ->.
  { cbn [c_e c_r cons_store]. rewrite (tr_e _ _ Hr), u32_add_l, u32_sub_l. pose proof (rep_len_range _ _ Hr).
    etransitivity; [|apply (u32_small (tty_len t + 1)); lia]. f_equal. lia. }
  assert (tty_only (echo c' ++ []) s s2) as T2 by (apply (tty_only_app _ _ _ s1); [done|apply tty_only_cons]).
  assert (k_procs s2 = k_procs s) as P2 by (rewrite <- P1; by destruct s1).
  destruct ((c' =? newline) || (c' =? ctrl "D") || (tty_len t + 1 =? INPUT_BUF_SIZE)) eqn:Eend.
  - rewrite bind_assoc, (bind_Ok _ _ _ _ _ (upd_cons_run _ _ _)), C2.
    set (s3 := set_cons (set_cw (c_e (cons_store c' (k_cons s))) (cons_store c' (k_cons s))) s2).
    rewrite (bind_Ok _ _ _ _ _ (wakeup_run CH_cons _ _ Hn')), release_Ok.
    destruct (tty_only_woken CH_cons s3) as [C4 T4]. exists (woken CH_cons s3), ((echo c' ++ []) ++ [] ++ []). split_and!; [done| | |].
    + rewrite C4. subst s3. rewrite cons_set_cons. by apply rep_commit.
    + apply (tty_only_app _ _ _ s2); [done|]. apply (tty_only_app _ _ _ s3); [apply tty_only_cons|done].
    + unfold wakes. cbn [t_ready]. rewrite decide_False.
      2: { intros E. apply (f_equal length) in E. rewrite !length_app in E. cbn in E. lia. }
      apply woken_same; subst s3 s2; [rewrite <- P1|rewrite <- U1]; by destruct s1.
  - kstep. rewrite release_Ok. apply orb_false_iff in Eend as [Eend _]. apply orb_false_iff in Eend as [Eend _]. apply Z.eqb_neq in Eend.
    exists s2, (echo c' ++ []). split_and!; [done| |done|].
    + rewrite C2. by apply rep_store.
    + unfold wakes. by rewrite decide_True.
Qed.

(** ** [consoleread] *)

(** What a read of [n] bytes takes of the ready input: up to a newline, or to a [^D],
    which is left for the next read unless it comes first.  [None] when it has to wait. *)
Fixpoint read_line (n : nat) (first : bool) (l : list Z) : option (list Z * list Z) :=
  match n with
  | O => Some ([], l)
  | S n =>
      match l with
      | [] => None
      | c :: l =>
          if c =? ctrl "D" then Some ([], if first then l else c :: l)
          else if c =? newline then Some ([c], l)
          else (λ r, (c :: r.1, r.2)) <$> read_line n false l
      end
  end.

Lemma rep_pop c x l e : tty_rep c (Tty (x :: l) e) → tty_rep (set_cr (u32 (c_r c + 1)) c) (Tty l e).
Proof.
  intros [H1 H2 H3 H4 H5 H6 H7]. unfold tty_len in *. cbn [t_ready t_edit length] in *.
  split; cbn [c_buf c_r c_w c_e set_cr t_ready t_edit]; unfold tty_len; cbn [t_ready t_edit]; try done.
  - apply u32_range.
  - rewrite H3, u32_add_l. f_equal. lia.
  - rewrite H4, u32_add_l. f_equal. lia.
  - lia.
  - intros i y Hi. specialize (H6 (S i) y Hi). rewrite Zplus_mod, u32_mod_buf, <- Zplus_mod. rewrite <- H6. do 3 f_equal. lia.
Qed.

Lemma rep_unpop c : 0 <= c_r c < 2 ^ 32 → set_cr (u32 (c_r (set_cr (u32 (c_r c + 1)) c) - 1)) (set_cr (u32 (c_r c + 1)) c) = c.
Proof.
  intros H. destruct c as [b r w e]. unfold set_cr. cbn [c_buf c_r c_w c_e] in *. assert (u32 (u32 (r + 1) - 1) = r) as ->; [|done].
  rewrite u32_sub_l. etransitivity; [|by apply (u32_small r)]. f_equal. lia.
Qed.

Lemma myproc_run i h s : k_cur s = Some i → myproc (Thread h s) = Ok i (Thread h s).
Proof. intros E. unfold myproc. kstep. cbn [held st]. by rewrite E. Qed.


Section Read.
Context (end_ : Z) (end_pos : 0 < end_) (i : nat) (root : Z) (T : gmap (list Z) Z) (f : Z → Z) (fl : list Z).

(** The process [i] runs, in the address space [f]. *)
Definition in_space (s : K) : Prop := k_cur s = Some i ∧ p_pagetable (proc_at i s) = root ∧ uspace end_ (k_mem s) fl root T f.

(** Only the console's buffer and memory change; of memory, [bs] is stored at [dst]. *)
Definition got (dst : Z) (bs : list Z) (s s' : K) : Prop :=
  s' = set_mem (k_mem s') (set_cons (k_cons s') s) ∧
  ustored f (kmem_mem (k_mem s)) (kmem_mem (k_mem s')) dst bs ∧ kernel_same f (kmem_mem (k_mem s)) (kmem_mem (k_mem s')).

Lemma in_space_same s s' : s' = set_mem (k_mem s') (set_cons (k_cons s') s) → in_space s → uspace end_ (k_mem s') fl root T f → in_space s'.
Proof. intros E (H1 & H2 & _) Hu. unfold in_space. split; [|split; [|done]]; rewrite E; [rewrite <- H1|rewrite <- H2]; by destruct s. Qed.

Lemma got_nil dst s c : got dst [] s (set_cons c s).
Proof.
  split; [by destruct s|]. assert (k_mem (set_cons c s) = k_mem s) as -> by (by destruct s). split; [|by intros x _].
  intros x _. rewrite decide_False; [done|]. cbn [length]. lia.
Qed.

Lemma got_app dst b1 b2 s1 s2 s3 : got dst b1 s1 s2 → got (dst + Z.of_nat (length b1)) b2 s2 s3 → got dst (b1 ++ b2) s1 s3.
Proof.
  intros (E1 & U1 & K1) (E2 & U2 & K2). split; [rewrite E2 at 1; rewrite E1; by destruct s1|]. split; [by eapply ustored_app|].
  intros x Hx. by rewrite K2, K1.
Qed.

Lemma either_copyout_run dst bs h s : in_space s → 0 <= dst < 2 ^ 64 → (∀ x, dst <= x < dst + Z.of_nat (length bs) → can_write f x) →
  ∃ s', either_copyout true dst bs (Thread h s) = Ok 0 (Thread h s') ∧ got dst bs s s' ∧ in_space s' ∧ k_cons s' = k_cons s.
Proof.
  intros Hs Hd Hw. destruct Hs as (Hc & Hp & Hu) eqn:EHs. clear EHs. unfold either_copyout.
  destruct (copyout_loop_run end_ end_pos h fl root T f (copy_fuel (Z.of_nat (length bs))) dst bs (k_mem s) Hu Hd (copy_fuel_enough dst (Z.of_nat (length bs)) ltac:(lia)))
    as (r & k' & E & Hu' & Hk & [(-> & _ & Hst)|(_ & x & Hx & Hnc)]); [|by destruct Hnc; apply Hw].
  rewrite (bind_Ok _ _ _ _ _ (myproc_run i h s Hc)). kstep. cbn [held st]. rewrite Hp.
  rewrite (onmem_run (copyout root dst bs) h s 0 k' E). eexists. split; [done|].
  assert (k_mem (set_mem k' s) = k' ∧ k_cons (set_mem k' s) = k_cons s) as [E1 E2] by (by destruct s).
  assert (got dst bs s (set_mem k' s)) as Hg. { split; [rewrite E1, E2; by destruct s|]. by rewrite E1. }
  split; [done|]. split; [|done]. apply (in_space_same s); [apply Hg|done|by rewrite E1].
Qed.

Lemma got_mem dst bs s s' : got dst bs s s' → k_procs s' = k_procs s ∧ k_cur s' = k_cur s.
Proof. intros (E & _). rewrite E. by destruct s. Qed.

Lemma consoleread_loop_run h t_ed env target : ∀ n s l dst data rest,
  in_space s → tty_rep (k_cons s) (Tty l t_ed) → 0 <= dst → (∀ x, dst <= x < dst + Z.of_nat n → can_write f x) →
  read_line n (bool_decide (Z.of_nat n = target)) l = Some (data, rest) → Z.of_nat n <= target →
  ∃ s', consoleread_loop n env true dst (Z.of_nat n) target (Thread h s) = Ok (Some (Z.of_nat n - Z.of_nat (length data))) (Thread h s') ∧
    tty_rep (k_cons s') (Tty rest t_ed) ∧ got dst data s s' ∧ in_space s'.
Proof.
  induction n as [|n IH]; intros s l dst data rest Hs Hr Hd Hw Hl Ht; cbn [read_line consoleread_loop] in *.
  { injection Hl as <- <-. exists s. split_and!; [done|done| |done]. pose proof (got_nil dst s (k_cons s)) as Hg.
    by assert (set_cons (k_cons s) s = s) as Ec by (by destruct s); rewrite Ec in Hg. }
  destruct l as [|c l]; [done|]. pose proof (tr_r _ _ Hr) as Hrr.
  assert (cons_wait env (Thread h s) = Ok (Some env) (Thread h s)) as Ew.
  { destruct env; cbn [cons_wait]; kstep; cbn [held st]; by rewrite (rep_no_input _ _ Hr). }
  rewrite (bind_Ok _ _ _ _ _ Ew). kstep. cbn [held st]. rewrite (bind_Ok _ _ _ _ _ (upd_cons_run _ _ _)).
  assert (cons_char (k_cons s) (c_r (k_cons s)) = c) as Ec. { rewrite <- (rep_char _ _ Hr 0 c eq_refl). f_equal. lia. }
  rewrite Ec. set (s1 := set_cons (set_cr (u32 (c_r (k_cons s) + 1)) (k_cons s)) s).
  assert (k_cons s1 = set_cr (u32 (c_r (k_cons s) + 1)) (k_cons s)) as C1 by apply cons_set_cons.
  pose proof (rep_pop _ _ _ _ Hr) as Hr1. rewrite <- C1 in Hr1.
  assert (got dst [] s s1) as Hg1 by apply got_nil.
  assert (in_space s1) as Hs1. { apply (in_space_same s); [apply Hg1|done|]. assert (k_mem s1 = k_mem s) as -> by (by destruct s). apply Hs. }
  destruct (c =? ctrl "D").
  { destruct (Z.ltb_spec (Z.of_nat (S n)) target) as [Hlt|Hge].
    - rewrite bool_decide_false in Hl by lia. injection Hl as <- <-. rewrite (bind_Ok _ _ _ _ _ (upd_cons_run _ _ _)).
      exists s. assert (set_cons (set_cr (u32 (c_r (k_cons s1) - 1)) (k_cons s1)) s1 = s) as ->.
      { rewrite C1, rep_unpop by done. by destruct s. }
      pose proof (got_nil dst s (k_cons s)) as Hg. assert (set_cons (k_cons s) s = s) as Es by (by destruct s). rewrite Es in Hg.
      split_and!; [|done|done|done]. unfold ret; do 3 f_equal; cbn [length]; lia.
    - rewrite bool_decide_true in Hl by lia. injection Hl as <- <-. kstep. exists s1. split_and!; [|done|done|done]. unfold ret; do 3 f_equal; cbn [length]; lia. }
  assert (dst < MAXVA) as Hmax. { destruct (Hw dst ltac:(lia)) as [[? _] _]. lia. }
  destruct (either_copyout_run dst [c] h s1 Hs1) as (s2 & E2 & Hg2 & Hs2 & C2).
  { rewrite MAXVA_val in Hmax. lia. }
  { intros x Hx. apply Hw. cbn [length] in Hx. lia. }
  rewrite (bind_Ok _ _ _ _ _ E2). change (0 =? -1) with false. cbn iota.
  assert (got dst [c] s s2) as Hg3. { apply (got_app dst [] [c] s s1 s2 Hg1). cbn [length]. by rewrite Z.add_0_r. }
  destruct (c =? newline).
  { injection Hl as <- <-. exists s2. split_and!; [|by rewrite C2|done|done]. unfold ret; do 3 f_equal; cbn [length]; lia. }
  destruct (read_line n false l) as [[d r]|] eqn:El; [|done]. cbn [fmap option_fmap option_map fst snd] in Hl. injection Hl as <- <-.
  destruct (IH s2 l (dst + 1) d r) as (s3 & E3 & R3 & G3 & S3); [done|by rewrite C2|lia| | |lia|].
  { intros x Hx. apply Hw. lia. }
  { by rewrite bool_decide_false by lia. }
  exists s3. rewrite MAXVA_val in Hmax. rewrite u64_small by lia. replace (Z.of_nat (S n) - 1) with (Z.of_nat n) by lia.
  split_and!; [|done| |done].
  - rewrite E3. assert (Z.of_nat n - Z.of_nat (length d) = Z.of_nat (S n) - Z.of_nat (length (c :: d))) as -> by (cbn [length]; lia). done.
  - by apply (got_app dst [c] d s s2 s3 Hg3).
Qed.

Lemma consoleread_run h s t env n dst data rest : L_cons ∉ h →
  in_space s → tty_rep (k_cons s) t → 0 <= dst → 0 <= n → (∀ x, dst <= x < dst + n → can_write f x) →
  read_line (Z.to_nat n) true (t_ready t) = Some (data, rest) →
  ∃ s', consoleread env true dst n (Thread h s) = Ok (Z.of_nat (length data)) (Thread h s') ∧
    tty_rep (k_cons s') (Tty rest (t_edit t)) ∧ got dst data s s' ∧ in_space s'.
Proof.
  intros Hh Hs Hr Hd Hn Hw Hl. destruct t as [l e]. cbn [t_ready t_edit] in *. unfold consoleread. kstep.
  destruct (consoleread_loop_run (L_cons :: h) e env n (Z.to_nat n) s l dst data rest Hs Hr Hd) as (s1 & E1 & R1 & G1 & S1).
  - intros x Hx. apply Hw. lia.
  - by rewrite bool_decide_true by lia.
  - lia.
  - rewrite Z2Nat.id in E1 by lia. rewrite (bind_Ok _ _ _ _ _ E1). kstep. exists s1. split_and!; [|done|done|done].
    unfold ret. f_equal. lia.
Qed.
End Read.

(** ** Lines *)

(** The interrupts for the characters [cs]. *)
Definition typing (cs : list Z) : M K unit := foldr (λ c k, consoleintr c ;;; k) (ret tt) cs.

Lemma fold_pagetable (g : nat → proc → proc) j idx : (∀ i p, p_pagetable (g i p) = p_pagetable p) → ∀ s,
  p_pagetable (proc_at j (foldl (λ s i, on_proc i (g i) s) s idx)) = p_pagetable (proc_at j s).
Proof.
  intros Hg. induction idx as [|i idx IH]; intros s; cbn [foldl]; [done|]. rewrite IH.
  destruct (decide (i = j)) as [->|Hij]; [|by rewrite on_proc_other].
  destruct (decide (j < length (k_procs s))%nat) as [Hlt|Hge]; [by rewrite on_proc_same, Hg|].
  unfold on_proc, proc_at. rewrite procs_set, list_insert_ge by lia. done.
Qed.

Lemma woken_pagetable c j s : p_pagetable (proc_at j (woken c s)) = p_pagetable (proc_at j s).
Proof.
  unfold woken. apply (fold_pagetable (λ i p, if decide (k_cur s = Some i) then p else wake c p)).
  intros i p. case_decide; [done|]. unfold wake. case_decide; [|done]. by destruct p.
Qed.

Section Lines.
Context (end_ : Z) (end_pos : 0 < end_) (i : nat) (root : Z) (T : gmap (list Z) Z) (f : Z → Z) (fl : list Z).

Lemma tty_only_mem bs s s' : tty_only bs s s' → k_mem s' = k_mem s ∧ k_cur s' = k_cur s.
Proof. intros (E & _). rewrite uart_reset in E. destruct s, s'. cbn in E. by injection E. Qed.

Lemma proc_at_procs j s s' : k_procs s' = k_procs s → proc_at j s' = proc_at j s.
Proof. unfold proc_at. by intros ->. Qed.

Lemma wakes_pagetable s s' t t' : wakes s s' t t' → p_pagetable (proc_at i s') = p_pagetable (proc_at i s).
Proof.
  unfold wakes. case_decide; intros E; rewrite (proc_at_procs _ _ _ E); [reflexivity|apply woken_pagetable].
Qed.

Lemma tty_only_space bs s s' t t' : tty_only bs s s' → wakes s s' t t' →
  in_space end_ i root T f fl s → in_space end_ i root T f fl s' ∧ k_mem s' = k_mem s.
Proof.
  intros Ht Hw (H1 & H2 & H3). destruct (tty_only_mem _ _ _ Ht) as [Em Ec].
  split; [|exact Em]. unfold in_space. rewrite Ec, Em, (wakes_pagetable _ _ _ _ Hw). exact (conj H1 (conj H2 H3)).
Qed.

Lemma typing_run h cs : ∀ s t, in_space end_ i root T f fl s → tty_rep (k_cons s) t → Forall (λ c, 0 <= c < 256) cs →
  L_cons ∉ h → L_pr ∉ h → no_plock h →
  ∃ s' bs, typing cs (Thread h s) = Ok tt (Thread h s') ∧ tty_rep (k_cons s') (foldl type_char t cs) ∧ tty_only bs s s' ∧
    in_space end_ i root T f fl s' ∧ k_mem s' = k_mem s.
Proof.
  induction cs as [|c cs IH]; intros s t Hs Hr Hcs Hl Hp Hn; cbn [typing foldr foldl].
  { exists s, []. split_and!; [done|done| |done|done]. apply (proj2 (proj2 (sends_cons _ _ _ (sends_nil s)))). }
  inversion_clear Hcs as [|?? Hc Hcs']. destruct (consoleintr_run c h s t Hr Hc Hl Hp Hn) as (s1 & b1 & E1 & R1 & T1 & W1).
  destruct (tty_only_space _ _ _ _ _ T1 W1 Hs) as [Hs1 Em1].
  destruct (IH s1 _ Hs1 R1 Hcs' Hl Hp Hn) as (s2 & b2 & E2 & R2 & T2 & Hs2 & Em2).
  exists s2, (b1 ++ b2). rewrite (bind_Ok _ _ _ _ _ E1). split_and!; [exact E2|done|by eapply tty_only_app|done|by rewrite Em2].
Qed.
End Lines.

(** C21: the console is a line discipline.  Whatever characters arrive, with erasing,
    killing of lines, [^D], a buffer that fills up and pointers that wrap around, the
    interrupt handler leaves in the ring buffer what [type_char] says; and a [read] whose
    input is ready returns the bytes of [read_line] at the user's address, leaves the rest
    for the next read, and changes no other memory. *)
Theorem console_lines end_ (end_pos : 0 < end_) i root T f fl h s t cs env dst n data rest :
  in_space end_ i root T f fl s → tty_rep (k_cons s) t → Forall (λ c, 0 <= c < 256) cs →
  L_cons ∉ h → L_pr ∉ h → no_plock h →
  0 <= dst → 0 <= n → (∀ x, dst <= x < dst + n → can_write f x) →
  read_line (Z.to_nat n) true (t_ready (foldl type_char t cs)) = Some (data, rest) →
  ∃ s1 s2 bs, typing cs (Thread h s) = Ok tt (Thread h s1) ∧ tty_only bs s s1 ∧ tty_rep (k_cons s1) (foldl type_char t cs) ∧
    consoleread env true dst n (Thread h s1) = Ok (Z.of_nat (length data)) (Thread h s2) ∧
    tty_rep (k_cons s2) (Tty rest (t_edit (foldl type_char t cs))) ∧
    ustored f (kmem_mem (k_mem s)) (kmem_mem (k_mem s2)) dst data ∧ kernel_same f (kmem_mem (k_mem s)) (kmem_mem (k_mem s2)).
Proof.
  intros Hs Hr Hcs Hl Hp Hn Hd Hn0 Hw Hread.
  destruct (typing_run end_ i root T f fl h cs s t Hs Hr Hcs Hl Hp Hn) as (s1 & bs & E1 & R1 & T1 & Hs1 & Em1).
  destruct (consoleread_run end_ end_pos i root T f fl h s1 _ env n dst data rest Hl Hs1 R1 Hd Hn0 Hw Hread) as (s2 & E2 & R2 & (_ & G2 & G3) & _).
  rewrite Em1 in G2, G3. exists s1, s2, bs. split_and!; done.
Qed.

(** Ordinary characters and a newline, on an empty console: the line comes as typed. *)
Lemma type_plain l : ∀ t, Forall (λ c, c ∉ [0; 13; newline; 0x7f; ctrl "P"; ctrl "U"; ctrl "H"; ctrl "D"]) l →
  tty_len t + Z.of_nat (length l) < INPUT_BUF_SIZE → foldl type_char t l = Tty (t_ready t) (t_edit t ++ l).
Proof.
  induction l as [|c l IH]; intros t Hf Hl; cbn [foldl]; [rewrite app_nil_r; by destruct t|]. inversion_clear Hf as [|?? Hc Hf'].
  rewrite !not_elem_of_cons in Hc. destruct Hc as (H0 & H1 & H2 & H3 & H4 & H5 & H6 & H7 & _).
  assert (type_char t c = Tty (t_ready t) (t_edit t ++ [c])) as ->.
  { unfold type_char. cbn [length] in Hl. rewrite (proj2 (Z.eqb_neq _ _) H4), (proj2 (Z.eqb_neq _ _) H5), (proj2 (Z.eqb_neq _ _) H6), (proj2 (Z.eqb_neq _ _) H3),
      (proj2 (Z.eqb_neq _ _) H0), (proj2 (Z.eqb_neq _ _) H1). cbn [orb]. rewrite (proj2 (Z.leb_gt _ _)) by lia.
    rewrite (proj2 (Z.eqb_neq _ _) H2), (proj2 (Z.eqb_neq _ _) H7). cbn [orb]. by rewrite (proj2 (Z.eqb_neq _ _)) by lia. }
  rewrite IH; [cbn [t_ready t_edit]; by rewrite <- app_assoc|done|]. unfold tty_len in *. cbn [t_ready t_edit length] in *. rewrite length_app. cbn [length]. lia.
Qed.

(** ** The UART's output buffer *)

(** The bytes that wait in [uart_tx_buf], from [uart_tx_r] to [uart_tx_w], and the bytes
    written so far: those the device has, then those that wait. *)
Definition waiting (u : uart) : list Z :=
  (λ j, default 0 (u_buf u !! Z.to_nat ((u_r u + Z.of_nat j) mod UART_TX_BUF_SIZE))) <$> seq 0 (Z.to_nat (u64 (u_w u - u_r u))).
Definition stream (s : K) : list Z := u_thr (k_uart s) ++ waiting (k_uart s).

Record uart_ok (u : uart) : Prop := {
  uk_buf : length (u_buf u) = 32%nat;
  uk_r : 0 <= u_r u < 2 ^ 64;
  uk_w : 0 <= u_w u < 2 ^ 64;
  uk_used : u64 (u_w u - u_r u) <= UART_TX_BUF_SIZE;
  uk_bytes : Forall (λ x, 0 <= x < 256) (u_buf u) }.

Lemma u64_mod_buf x : u64 x mod UART_TX_BUF_SIZE = x mod UART_TX_BUF_SIZE.
Proof. unfold u64, UART_TX_BUF_SIZE. rewrite <- (Z.mod_mod_divide x (2 ^ 64) 32); [done|]. by exists (2 ^ 59). Qed.
Lemma u64_add_mod x y : (u64 x + y) mod UART_TX_BUF_SIZE = (x + y) mod UART_TX_BUF_SIZE.
Proof. by rewrite Zplus_mod, u64_mod_buf, <- Zplus_mod. Qed.

Lemma u64_diff_0 x y : 0 <= x < 2 ^ 64 → 0 <= y < 2 ^ 64 → u64 (x - y) = 0 ↔ x = y.
Proof. intros Hx Hy. unfold u64. split; [|intros ->; by rewrite Z.sub_diag]. intros H. Z.div_mod_to_equations. lia. Qed.

Lemma u64_diff_pred x y : 0 <= x < 2 ^ 64 → 0 <= y < 2 ^ 64 → x ≠ y → u64 (x - u64 (y + 1)) = u64 (x - y) - 1.
Proof. intros Hx Hy Hne. unfold u64. rewrite Zminus_mod_idemp_r. Z.div_mod_to_equations. lia. Qed.

Lemma u64_diff_succ x y : 0 <= x < 2 ^ 64 → 0 <= y < 2 ^ 64 → u64 (x - y) < 2 ^ 64 - 1 → u64 (u64 (x + 1) - y) = u64 (x - y) + 1.
Proof. intros Hx Hy. unfold u64. rewrite Zminus_mod_idemp_l. intros. Z.div_mod_to_equations. lia. Qed.

Lemma waiting_pop u : uart_ok u → u_w u ≠ u_r u → waiting u = tx_char u :: waiting (tx_pop u) ∧ uart_ok (tx_pop u).
Proof.
  intros [H1 H2 H3 H4 H5] Hne. pose proof (u64_diff_pred _ _ H3 H2 Hne) as Hp. pose proof (u64_range (u_w u - u_r u)) as Hr.
  assert (u64 (u_w u - u_r u) ≠ 0) as H0 by (rewrite u64_diff_0; done). split.
  - unfold waiting, tx_char. cbn [u_buf u_r u_w tx_pop]. rewrite Hp. replace (Z.to_nat (u64 (u_w u - u_r u))) with (S (Z.to_nat (u64 (u_w u - u_r u) - 1))) by lia.
    cbn [seq fmap list_fmap]. rewrite Z.add_0_r. f_equal. rewrite <- seq_shift, <- list_fmap_compose. apply list_fmap_ext. intros j x _. cbn [compose].
    rewrite u64_add_mod. do 4 f_equal. lia.
  - split; cbn [u_buf u_r u_w tx_pop]; [done|apply u64_range|done| |done]. lia.
Qed.

Lemma tx_full_used u : uart_ok u → tx_full u = bool_decide (u64 (u_w u - u_r u) = UART_TX_BUF_SIZE).
Proof.
  intros [H1 H2 H3 H4 H5]. unfold tx_full, UART_TX_BUF_SIZE, u64 in *. case_bool_decide as Hd.
  - apply Z.eqb_eq. Z.div_mod_to_equations. lia.
  - apply Z.eqb_neq. intros E. apply Hd. rewrite E, Zminus_mod_idemp_l. replace (u_r u + 32 - u_r u) with 32 by lia. done.
Qed.

Lemma waiting_push c u : uart_ok u → tx_full u = false → waiting (tx_push c u) = waiting u ++ [u8 c] ∧ uart_ok (tx_push c u).
Proof.
  intros Hu Hf. rewrite (tx_full_used u Hu) in Hf. apply bool_decide_eq_false in Hf. destruct Hu as [H1 H2 H3 H4 H5]. pose proof (u64_range (u_w u - u_r u)) as Hr.
  unfold UART_TX_BUF_SIZE in H4, Hf. pose proof (u64_diff_succ _ _ H3 H2 ltac:(lia)) as Hs. set (n := u64 (u_w u - u_r u)) in *.
  assert (u_w u mod UART_TX_BUF_SIZE = (u_r u + n) mod UART_TX_BUF_SIZE) as Hw.
  { subst n. rewrite Z.add_comm, u64_add_mod. f_equal. lia. }
  split.
  - unfold waiting. cbn [u_buf u_r u_w tx_push]. rewrite Hs. fold n. replace (Z.to_nat (n + 1)) with (Z.to_nat n + 1)%nat by lia.
    rewrite seq_app, fmap_app. cbn [seq fmap list_fmap Nat.add]. rewrite Hw. f_equal.
    + apply list_fmap_ext. intros j x [-> Hj]%lookup_seq. cbn. rewrite list_lookup_insert_ne; [done|]. intros E.
      apply Z2Nat.inj in E; [|apply Z.mod_pos_bound; done|apply Z.mod_pos_bound; done]. unfold UART_TX_BUF_SIZE in E. Z.div_mod_to_equations. lia.
    + rewrite Z2Nat.id by lia. rewrite list_lookup_insert_eq; [done|]. rewrite H1. pose proof (Z.mod_pos_bound (u_r u + n) UART_TX_BUF_SIZE ltac:(done)) as Hb.
      unfold UART_TX_BUF_SIZE in *. lia.
  - split; cbn [u_buf u_r u_w tx_push]; [by rewrite length_insert|done|apply u64_range| |].
    + unfold UART_TX_BUF_SIZE. lia.
    + apply Forall_insert; [done|]. unfold u8. apply Z.mod_pos_bound. done.
Qed.

(** Only the UART and the process table change, and no page table. *)
Definition io_only (s s' : K) : Prop :=
  k_mem s' = k_mem s ∧ k_cur s' = k_cur s ∧ ∀ j, p_pagetable (proc_at j s') = p_pagetable (proc_at j s).

Lemma io_refl s : io_only s s.
Proof. done. Qed.
Lemma io_trans s1 s2 s3 : io_only s1 s2 → io_only s2 s3 → io_only s1 s3.
Proof. intros (A1 & A2 & A3) (B1 & B2 & B3). split; [by rewrite B1|]. split; [by rewrite B2|]. intros j. by rewrite B3. Qed.
Lemma io_sends bs s s' : sends bs s s' → io_only s s'.
Proof. intros (E & _). rewrite E. by destruct s. Qed.
Lemma io_uart u s : io_only s (set_uart u s).
Proof. by destruct s. Qed.
Lemma io_woken c s : io_only s (woken c s) ∧ k_uart (woken c s) = k_uart s.
Proof.
  assert (k_mem (woken c s) = k_mem s ∧ k_cur (woken c s) = k_cur s ∧ k_uart (woken c s) = k_uart s) as (E1 & E2 & E3) by (rewrite woken_procs; by destruct s).
  split; [|done]. split; [done|]. split; [done|]. intros j. apply woken_pagetable.
Qed.

Lemma uartstart_loop_run h : no_plock h → ∀ fuel s, uart_ok (k_uart s) → u64 (u_w (k_uart s) - u_r (k_uart s)) < Z.of_nat fuel →
  ∃ s', uartstart_loop fuel (Thread h s) = Ok tt (Thread h s') ∧ uart_ok (k_uart s') ∧ stream s' = stream s ∧ io_only s s'.
Proof.
  intros Hn. induction fuel as [|fuel IH]; intros s Hu Hf; [pose proof (u64_range (u_w (k_uart s) - u_r (k_uart s))); lia|]. cbn [uartstart_loop].
  kstep. cbn [held st]. destruct (Z.eqb_spec (u_w (k_uart s)) (u_r (k_uart s))) as [E|Hne]; [exists s; split_and!; [done|done|done|apply io_refl]|].
  destruct (read_lsr_run h s) as (s1 & E1 & S1 & _). rewrite (bind_Ok _ _ _ _ _ E1). pose proof S1 as (_ & B1 & B2 & B3 & B4 & B5 & _).
  rewrite app_nil_r in B5. assert (stream s1 = stream s) as Est by (unfold stream, waiting; by rewrite B1, B2, B3, B5).
  assert (uart_ok (k_uart s1)) as Hu1 by (destruct Hu; split; rewrite ?B1, ?B2, ?B3; done).
  destruct (Z.land _ LSR_TX_IDLE =? 0); [exists s1; split_and!; [done|done|done|by eapply io_sends]|].
  rewrite (bind_Ok _ _ _ _ _ (upd_uart_run _ _ _)). set (s2 := set_uart (tx_pop (k_uart s1)) s1).
  rewrite (bind_Ok _ _ _ _ _ (wakeup_run CH_uart _ _ Hn)). destruct (io_woken CH_uart s2) as [Io3 U3].
  destruct (write_thr_run (tx_char (k_uart s)) h (woken CH_uart s2)) as (s4 & E4 & S4). rewrite (bind_Ok _ _ _ _ _ E4).
  pose proof S4 as (_ & D1 & D2 & D3 & D4 & D5 & _). rewrite U3 in D1, D2, D3, D4, D5. unfold s2 in D1, D2, D3, D4, D5. rewrite uart_set_uart in D1, D2, D3, D4, D5.
  rewrite <- B2, <- B3 in Hne. destruct (waiting_pop _ Hu1 Hne) as [Ew Hpop].
  assert (uart_ok (k_uart s4)) as Hu4 by (destruct Hpop; split; rewrite ?D1, ?D2, ?D3; done).
  destruct (IH s4 Hu4) as (s5 & E5 & Hu5 & Es5 & Io5).
  { rewrite D2, D3. cbn [u_w u_r tx_pop]. destruct Hu1 as [_ Hr1 Hw1 _ _]. rewrite (u64_diff_pred _ _ Hw1 Hr1 Hne), B2, B3. lia. }
  exists s5. split_and!; [done|done| |].
  - rewrite Es5, <- Est. unfold stream. rewrite D5, Ew. cbn [u_thr tx_pop]. rewrite <- app_assoc. f_equal. cbn [app].
    assert (tx_char (k_uart s) = tx_char (k_uart s1)) as -> by (unfold tx_char; by rewrite B1, B3).
    assert (waiting (k_uart s4) = waiting (tx_pop (k_uart s1))) as -> by (unfold waiting; by rewrite D1, D2, D3). f_equal.
    apply u8_small. unfold tx_char. destruct (u_buf (k_uart s1) !! _) as [x|] eqn:Ex; [|done]. by apply (Forall_lookup_1 _ _ _ _ (uk_bytes _ Hu1) Ex).
  - eapply io_trans; [by eapply io_sends|]. eapply io_trans; [apply (io_uart (tx_pop (k_uart s1)))|]. eapply io_trans; [exact Io3|].
    eapply io_trans; [by eapply io_sends|exact Io5].
Qed.

Lemma uartstart_run h s : no_plock h → uart_ok (k_uart s) →
  ∃ s', uartstart (Thread h s) = Ok tt (Thread h s') ∧ uart_ok (k_uart s') ∧ stream s' = stream s ∧ io_only s s'.
Proof.
  intros Hn Hu. unfold uartstart. kstep. cbn [held st]. pose proof (u64_range (u_w (k_uart s) - u_r (k_uart s))). apply uartstart_loop_run; [done|done|lia].
Qed.

Lemma sleep_run e c lk i s : k_cur s = Some i → is_spin lk = true → lk ≠ L_proc i →
  sleep e c lk (Thread [lk] s) = Ok tt (Thread [lk] (on_proc i (set_chan None) (set_cur (Some i) (e (on_proc i (λ p, set_state SLEEPING (set_chan (Some c) p)) s))))).
Proof.
  intros Hc Hsp Hne. unfold sleep. rewrite (bind_Ok _ _ _ _ _ (myproc_run i _ s Hc)).
  assert (L_proc i ∉ [lk]) as Hni by (rewrite list_elem_of_singleton; congruence).
  rewrite (bind_Ok _ _ _ _ _ (plock_run i [lk] s Hni)).
  assert (release lk (Thread [L_proc i; lk] s) = Ok tt (Thread [L_proc i] s)) as Hrel.
  { unfold release. cbn [held st remove_lock]. rewrite decide_True by set_solver. rewrite decide_False by congruence. by rewrite decide_True. }
  rewrite (bind_Ok _ _ _ _ _ Hrel), (bind_Ok _ _ _ _ _ (upd_proc_run _ _ _ _)), (bind_Ok _ _ _ _ _ (upd_proc_run _ _ _ _)).
  rewrite on_proc_comp. set (s1 := on_proc i (λ p, set_state SLEEPING (set_chan (Some c) p)) s).
  assert (k_cur s1 = Some i) as Hc1 by (unfold s1; by rewrite on_proc_cur).
  assert (sched e (Thread [L_proc i] s1) = Ok tt (Thread [L_proc i] (set_cur (Some i) (e s1)))) as Hsched.
  { unfold sched, sched_checks. rewrite bind_assoc, (bind_Ok _ _ _ _ _ (myproc_run i _ s1 Hc1)).
    assert (p_state (proc_at i s1) ≠ RUNNING) as Hst.
    { destruct (decide (i < length (k_procs s))%nat) as [Hi|Hi]; [unfold s1; rewrite (on_proc_same i _ s Hi); destruct (proc_at i s); cbn; discriminate|].
      unfold s1, on_proc, proc_at at 1. rewrite procs_set, list_insert_ge, lookup_ge_None_2 by lia. done. }
    unfold held_locks, holding. cbn [held]. unfold bind at 1 2 3. cbn [held st]. rewrite bool_decide_true by set_solver.
    cbn -[proc_at s1]. rewrite decide_True by done. cbn -[proc_at s1]. unfold bind, gets. cbn [st]. rewrite bool_decide_false by exact Hst.
    unfold panic_if, ret, swtch, modify. cbn [held st]. by rewrite Hc1. }
  rewrite (bind_Ok _ _ _ _ _ Hsched), (bind_Ok _ _ _ _ _ (upd_proc_run _ _ _ _)), (bind_Ok _ _ _ _ _ (punlock_run _ _ _)).
  apply acquire_Ok, not_elem_of_nil.
Qed.

(** ** [consolewrite] *)

Section Write.
Context (end_ : Z) (end_pos : 0 < end_) (i : nat) (root : Z) (f : Z → Z).

(** The process has the address space [f], and the UART's buffer is in order. *)
Definition live (s : K) : Prop :=
  uart_ok (k_uart s) ∧ p_pagetable (proc_at i s) = root ∧ ∃ T fl, uspace end_ (k_mem s) fl root T f.

Definition same_user (s s' : K) : Prop := ∀ x, can_read f x → ubyte (kmem_mem (k_mem s')) f x = ubyte (kmem_mem (k_mem s)) f x.

(** What the rest of the machine does while the process sleeps in [uartputc]: it makes
    room in the buffer, perhaps echoes or lets others write, and leaves the process's memory
    alone.  [R] relates the stream before and after. *)
Definition rely (R : relation (list Z)) (e : K → K) : Prop :=
  ∀ s, live s → live (e s) ∧ R (stream s) (stream (e s)) ∧ tx_full (k_uart (e s)) = false ∧ same_user s (e s).

Lemma live_io s s' : io_only s s' → uart_ok (k_uart s') → live s → live s' ∧ same_user s s'.
Proof. intros (E1 & E2 & E3) Hu (_ & H2 & H3). unfold live, same_user. rewrite E1, E3. done. Qed.

Lemma io_on_proc j g s : (∀ p, p_pagetable (g p) = p_pagetable p) → io_only s (on_proc j g s) ∧ k_uart (on_proc j g s) = k_uart s.
Proof.
  intros Hg. split; [|by destruct s]. split; [by destruct s|]. split; [by destruct s|]. intros j'.
  exact (fold_pagetable (λ _, g) j' [j] (λ _, Hg) s).
Qed.

Lemma stream_uart s s' : k_uart s' = k_uart s → stream s' = stream s.
Proof. unfold stream. by intros ->. Qed.

Context (R : relation (list Z)) `{!PreOrder R} (R_app : ∀ l l' x, R l l' → R (l ++ [x]) (l' ++ [x])).

Lemma uart_wait_run env s : k_cur s = Some i → live s → Forall (rely R) env → (1 <= length env)%nat →
  ∃ s' env', uart_wait env (Thread [L_uart] s) = Ok env' (Thread [L_uart] s') ∧ k_cur s' = Some i ∧ live s' ∧ R (stream s) (stream s') ∧
    tx_full (k_uart s') = false ∧ same_user s s' ∧ Forall (rely R) env' ∧ (length env <= S (length env'))%nat.
Proof.
  intros Hc Hl He Hlen. destruct env as [|e env]; [cbn in Hlen; lia|]. cbn [uart_wait]. kstep. cbn [held st].
  destruct (tx_full (k_uart s)) eqn:Ef.
  2: { exists s, (e :: env). split_and!; [done|done|done|reflexivity|done|done|done|lia]. }
  rewrite (bind_Ok _ _ _ _ _ (sleep_run e CH_uart L_uart i s Hc eq_refl ltac:(discriminate))).
  inversion_clear He as [|?? He1 He2].
  set (s1 := on_proc i (λ p, set_state SLEEPING (set_chan (Some CH_uart) p)) s).
  destruct (io_on_proc i (λ p, set_state SLEEPING (set_chan (Some CH_uart) p)) s) as [Io1 U1]; [by intros []|]. fold s1 in Io1, U1.
  destruct (live_io s s1 Io1) as [Hl1 Su1]; [rewrite U1; apply Hl|done|].
  destruct (He1 s1 Hl1) as (Hl2 & HR & Hf2 & Su2). set (s2 := e s1) in *.
  set (s3 := on_proc i (set_chan None) (set_cur (Some i) s2)).
  assert (k_uart s3 = k_uart s2 ∧ k_mem s3 = k_mem s2 ∧ k_cur s3 = Some i) as (U3 & M3 & C3) by (unfold s3; by destruct s2).
  assert (live s3 ∧ same_user s2 s3) as [Hl3 Su3].
  { unfold live, same_user. rewrite U3, M3. destruct Hl2 as (A1 & A2 & A3). split; [|done]. split; [done|]. split; [|done].
    unfold s3. destruct (io_on_proc i (set_chan None) (set_cur (Some i) s2)) as [(_ & _ & ->) _]; [by intros []|]. by rewrite proc_at_set_cur. }
  exists s3, env. rewrite (stream_uart _ _ U3), U3. split_and!; [|done|done| |done| |done|cbn; lia].
  - destruct env as [|e' env]; cbn [uart_wait]; kstep; cbn [held st]; by rewrite U3, Hf2.
  - by rewrite <- (stream_uart _ _ U1).
  - intros x Hx. by rewrite Su3, Su2, Su1.
Qed.

Lemma uartputc_run env c s : k_cur s = Some i → live s → Forall (rely R) env → (1 <= length env)%nat →
  ∃ s' env', uartputc env c (Thread [] s) = Ok env' (Thread [] s') ∧ k_cur s' = Some i ∧ live s' ∧ R (stream s ++ [u8 c]) (stream s') ∧
    same_user s s' ∧ Forall (rely R) env' ∧ (length env <= S (length env'))%nat.
Proof.
  intros Hc Hl He Hlen. unfold uartputc. kstep.
  destruct (uart_wait_run env s Hc Hl He Hlen) as (s1 & env' & E1 & C1 & L1 & R1 & F1 & Su1 & He' & Hlen').
  rewrite (bind_Ok _ _ _ _ _ E1), (bind_Ok _ _ _ _ _ (upd_uart_run _ _ _)). set (s2 := set_uart (tx_push c (k_uart s1)) s1).
  destruct (waiting_push c (k_uart s1) (proj1 L1) F1) as [Ew Hu2].
  assert (k_uart s2 = tx_push c (k_uart s1)) as U2 by apply uart_set_uart.
  destruct (uartstart_run [L_uart] s2) as (s3 & E3 & Hu3 & Es3 & Io3); [intros j; by rewrite list_elem_of_singleton|by rewrite U2|].
  rewrite (bind_Ok _ _ _ _ _ E3). kstep. exists s3, env'.
  destruct (live_io s1 s3) as [L3 Su3]; [eapply io_trans; [apply io_uart|exact Io3]|done|done|].
  split_and!; [done| |done| | |done|lia].
  - destruct Io3 as (_ & -> & _). unfold s2. rewrite <- C1. by destruct s1.
  - assert (stream s3 = stream s1 ++ [u8 c]) as ->; [|by apply R_app].
    rewrite Es3. unfold stream. rewrite U2, Ew. cbn [u_thr tx_push]. by rewrite app_assoc.
  - intros x Hx. by rewrite Su3, Su1.
Qed.
Lemma ubytes_S m va n : ubytes m f va (S n) = ubyte m f va :: ubytes m f (va + 1) n.
Proof.
  change (S n) with (1 + n)%nat. rewrite ubytes_app. change (Z.of_nat 1) with 1. unfold ubytes at 1. cbn [seq fmap list_fmap app].
  by rewrite Z.add_0_r.
Qed.

Lemma R_app_list l l' bs : R l l' → R (l ++ bs) (l' ++ bs).
Proof. induction bs as [|x bs IH] using rev_ind; intros H; [by rewrite !app_nil_r|]. rewrite !app_assoc. by apply R_app, IH. Qed.

Lemma either_copyin_run h s va : k_cur s = Some i → live s → can_read f va →
  either_copyin true va 1 (Thread h s) = Ok (0, [ubyte (kmem_mem (k_mem s)) f va]) (Thread h s).
Proof.
  intros Hc (_ & Hp & T & fl & Hu) Hr. unfold either_copyin. rewrite (bind_Ok _ _ _ _ _ (myproc_run i h s Hc)). kstep. cbn [held st]. rewrite Hp.
  assert (0 <= va < 2 ^ 64) as Hva by (destruct Hr as [Hva _]; rewrite MAXVA_val in Hva; lia).
  destruct (copyin_loop_run end_ end_pos h fl root T f (k_mem s) Hu (copy_fuel 1) va 1 [] Hva ltac:(lia) (copy_fuel_enough va 1 ltac:(lia)))
    as [[E _]|(bs & _ & x & Hx & Hn)].
  - rewrite (onmem_run (copyin root va 1) h s _ (k_mem s) E). assert (set_mem (k_mem s) s = s) as -> by (by destruct s).
    cbn [app]. change (Z.to_nat 1) with 1%nat. by rewrite ubytes_S.
  - destruct Hn. by assert (x = va) as -> by lia.
Qed.

Lemma same_user_ubytes s s' va n : same_user s s' → (∀ x, va <= x < va + Z.of_nat n → can_read f x) →
  ubytes (kmem_mem (k_mem s')) f va n = ubytes (kmem_mem (k_mem s)) f va n.
Proof. intros Hs Hr. unfold ubytes. apply list_fmap_ext. intros j x [-> Hj]%lookup_seq. apply Hs, Hr. lia. Qed.

Lemma consolewrite_loop_run src n : ∀ k a env s, k_cur s = Some i → live s → Forall (rely R) env → (k <= length env)%nat →
  0 <= src + a → (∀ x, src + a <= x < src + a + Z.of_nat k → can_read f x) →
  ∃ s', consolewrite_loop k env true src a n (Thread [] s) = Ok (a + Z.of_nat k) (Thread [] s') ∧ k_cur s' = Some i ∧ live s' ∧
    R (stream s ++ (u8 <$> ubytes (kmem_mem (k_mem s)) f (src + a) k)) (stream s') ∧ same_user s s'.
Proof.
  induction k as [|k IH]; intros a env s Hc Hl He Hlen Ha Hr; cbn [consolewrite_loop].
  { exists s. rewrite app_nil_r, Z.add_0_r. split_and!; [done|done|done|reflexivity|done]. }
  pose proof (Hr (src + a) ltac:(lia)) as Hca. assert (u64 (src + a) = src + a) as ->.
  { apply u64_small. destruct Hca as [Hva _]. rewrite MAXVA_val in Hva. lia. }
  rewrite (bind_Ok _ _ _ _ _ (either_copyin_run [] s (src + a) Hc Hl Hca)). cbn [fst snd head default from_option id].
  change (0 =? -1) with false. cbn iota. set (c := ubyte (kmem_mem (k_mem s)) f (src + a)).
  destruct (uartputc_run env c s Hc Hl He ltac:(lia)) as (s1 & env1 & E1 & C1 & L1 & R1 & Su1 & He1 & Hlen1).
  rewrite (bind_Ok _ _ _ _ _ E1).
  destruct (IH (a + 1) env1 s1 C1 L1 He1) as (s2 & E2 & C2 & L2 & R2 & Su2); [lia|lia|intros x Hx; apply Hr; lia|].
  exists s2. split_and!; [|done|done| |].
  - etransitivity; [exact E2|]. f_equal. lia.
  - etransitivity; [|exact R2]. rewrite (same_user_ubytes s s1) by (done || intros x Hx; apply Hr; lia).
    replace (src + (a + 1)) with (src + a + 1) by lia. rewrite ubytes_S. cbn [fmap list_fmap]. fold c.
    apply (R_app_list _ _ (u8 <$> ubytes (kmem_mem (k_mem s)) f (src + a + 1) k)) in R1. by rewrite <- app_assoc in R1.
  - intros x Hx. by rewrite Su2, Su1.
Qed.
End Write.

(** C34: what a process writes to the console reaches the UART, in order.  Provided the rest
    of the machine makes room whenever the writer sleeps, and only adds to the stream,
    [consolewrite] returns the full length, and the bytes follow one another in what the
    device was sent or will be sent; if nobody else wrote or echoed, the stream has grown
    by these bytes only.  The pointers of the buffer wrap around. *)
Theorem consolewrite_stream end_ (end_pos : 0 < end_) i root f s env src n :
  k_cur s = Some i → live end_ i root f s → Forall (rely end_ i root f sublist) env → n <= Z.of_nat (length env) →
  0 <= n → 0 <= src → (∀ x, src <= x < src + n → can_read f x) →
  let data := u8 <$> ubytes (kmem_mem (k_mem s)) f src (Z.to_nat n) in
  ∃ s', consolewrite env true src n (Thread [] s) = Ok n (Thread [] s') ∧ live end_ i root f s' ∧ stream s ++ data `sublist_of` stream s' ∧
    (Forall (rely end_ i root f eq) env → stream s' = stream s ++ data).
Proof.
  intros Hc Hl He Hlen Hn Hsrc Hr data. unfold consolewrite.
  assert (∀ x, src + 0 <= x < src + 0 + Z.of_nat (Z.to_nat n) → can_read f x) as Hr' by (intros x Hx; apply Hr; lia).
  destruct (consolewrite_loop_run end_ end_pos i root f sublist (λ l l' x H, sublist_app _ _ _ _ H (reflexivity [x])) src n (Z.to_nat n) 0 env s Hc Hl He
    ltac:(lia) ltac:(lia) Hr') as (s' & E & _ & L' & R' & _).
  rewrite Z.add_0_r in R'. exists s'. split_and!; [rewrite E; f_equal; lia|done|done|]. intros Heq.
  destruct (consolewrite_loop_run end_ end_pos i root f eq (λ l l' x H, f_equal (.++ [x]) H) src n (Z.to_nat n) 0 env s Hc Hl Heq
    ltac:(lia) ltac:(lia) Hr') as (s2 & E2 & _ & _ & R2 & _).
  rewrite E in E2. injection E2 as <-. rewrite Z.add_0_r in R2. done.
Qed.
