(* ===== verification/Uart.v ===== *)
(** * uart.c and console.c: initialisation

    [uartinit] over a 16550: a byte register per address, where bit 7 of LCR turns the
    registers 0 and 1 into the two bytes of the baud rate divisor.  [consoleinit] then fills the
    device table of file.c, which the rest of the model has as a constant. *)

From S2P Require Import Prelude Riscv Kernel Proc Console.

Definition RHR : Z := 0.
Definition THR : Z := 0.
Definition IER : Z := 1.
Definition IER_RX_ENABLE : Z := Z.shiftl 1 0.
Definition IER_TX_ENABLE : Z := Z.shiftl 1 1.
Definition FCR : Z := 2.
Definition FCR_FIFO_ENABLE : Z := Z.shiftl 1 0.
Definition FCR_FIFO_CLEAR : Z := Z.shiftl 3 1.
Definition LCR : Z := 3.
Definition LCR_EIGHT_BITS : Z := Z.shiftl 3 0.
Definition LCR_BAUD_LATCH : Z := Z.shiftl 1 7.

(** ** The device *)

Class Uart16550 (D : Type) := {
  put_reg : Z → Z → D → D;
  ier : D → Z; fcr : D → Z; lcr : D → Z; dll : D → Z; dlm : D → Z }.

(** The settings: interrupts, FIFOs, line, divisor. *)
Definition settings {D} `{Uart16550 D} (d : D) : Z * Z * Z * (Z * Z) := (ier d, fcr d, lcr d, (dll d, dlm d)).

(** The data sheet. *)
Class Uart16550Laws (D : Type) `{Uart16550 D} := {
  put_lcr v d : settings (put_reg LCR v d) = (ier d, fcr d, v, (dll d, dlm d));
  put_fcr v d : settings (put_reg FCR v d) = (ier d, v, lcr d, (dll d, dlm d));
  put_0 v d : settings (put_reg THR v d) = (ier d, fcr d, lcr d, (if Z.testbit (lcr d) 7 then v else dll d, dlm d));
  put_1 v d : settings (put_reg IER v d) = (if Z.testbit (lcr d) 7 then ier d else v, fcr d, lcr d, (dll d, if Z.testbit (lcr d) 7 then v else dlm d)) }.

(** ** Operations *)

Section init.
Context {D : Type} `{Uart16550 D}.

Record devices := Devices { dv_uart : D; dv_read : gmap Z (list (K → K) → bool → Z → Z → M K Z); dv_write : gmap Z (list (K → K) → bool → Z → Z → M K Z) }.

(** A store to the register [reg]; its cell has eight bits. *)
Definition WriteReg (reg v : Z) : M devices unit :=
  modify (λ s, Devices (put_reg reg (u8 v) (dv_uart s)) (dv_read s) (dv_write s)).

Definition uartinit : M devices unit :=
  WriteReg IER 0x00 ;;;
  WriteReg LCR LCR_BAUD_LATCH ;;;
  WriteReg 0 0x03 ;;;
  WriteReg 1 0x00 ;;;
  WriteReg LCR LCR_EIGHT_BITS ;;;
  WriteReg FCR (Z.lor FCR_FIFO_ENABLE FCR_FIFO_CLEAR) ;;;
  WriteReg IER (Z.lor IER_TX_ENABLE IER_RX_ENABLE).

Definition consoleinit : M devices unit :=
  uartinit ;;;
  modify (λ s, Devices (dv_uart s) (<[CONSOLE := consoleread]> (dv_read s)) (dv_write s)) ;;;
  modify (λ s, Devices (dv_uart s) (dv_read s) (<[CONSOLE := consolewrite]> (dv_write s))).

(** ** Properties *)

Context `{!Uart16550Laws D}.

Lemma write_settings reg v h s t : settings (put_reg reg (u8 v) (dv_uart s)) = t →
  ∃ s', WriteReg reg v (Thread h s) = Ok tt (Thread h s') ∧ settings (dv_uart s') = t ∧ dv_read s' = dv_read s ∧ dv_write s' = dv_write s.
Proof. intros E. by exists (Devices (put_reg reg (u8 v) (dv_uart s)) (dv_read s) (dv_write s)). Qed.

(** One store, then the rest: the settings follow the data sheet. *)
Ltac store_reg L :=
  match goal with |- context [(WriteReg ?reg ?v ;;; _) (Thread ?h ?s)] =>
    let E := fresh in let S := fresh in let R := fresh in let W := fresh in let s' := fresh "s" in
    destruct (write_settings reg v h s _ (L _ _)) as (s' & E & S & R & W); rewrite (bind_Ok _ _ _ _ _ E); clear E;
    unfold settings in S; injection S as ? ? ? ? ?
  end.

(** [uartinit] leaves any 16550, whatever state it was in, with both interrupts enabled, FIFOs
    on and cleared, and eight bits at the divisor 3, which is 115200 / 38400; the divisor
    latch is closed, so that register 0 is the data register that [uartputc] writes. *)
Lemma uartinit_38400 h s : ∃ s', uartinit (Thread h s) = Ok tt (Thread h s') ∧
  settings (dv_uart s') = (3, 7, 3, (3, 0)) ∧ Z.testbit (lcr (dv_uart s')) 7 = false ∧ 115200 / (dll (dv_uart s') + 256 * dlm (dv_uart s')) = 38400 ∧
  dv_read s' = dv_read s ∧ dv_write s' = dv_write s.
Proof.
  unfold uartinit. store_reg put_1. store_reg put_lcr. store_reg put_0. store_reg put_1. store_reg put_lcr. store_reg put_fcr.
  match goal with |- context [WriteReg ?reg ?v (Thread ?h ?s)] => destruct (write_settings reg v h s _ (put_1 _ _)) as (s' & E & S & R & W) end.
  exists s'. split; [exact E|]. rewrite R, W. unfold settings in *. injection S as ? ? ? ? ?.
  repeat match goal with H : ?f ?s = _ |- _ => progress rewrite H in * end. split_and!; (done || congruence).
Qed.

(** [consoleinit] makes the device table the one that [fileread] and [filewrite] use. *)
Lemma consoleinit_devsw h d : ∃ s', consoleinit (Thread h (Devices d ∅ ∅)) = Ok tt (Thread h s') ∧
  (∀ major, dv_read s' !! major = devsw_read major) ∧ (∀ major, dv_write s' !! major = devsw_write major).
Proof.
  destruct (uartinit_38400 h (Devices d ∅ ∅)) as (s' & E & _ & _ & _ & R & W). unfold consoleinit. rewrite (bind_Ok _ _ _ _ _ E).
  eexists. split; [reflexivity|]. cbn. rewrite R, W. cbn.
  split; intros major; unfold devsw_read, devsw_write; destruct (Z.eqb_spec major CONSOLE) as [->|Hne];
    (by rewrite lookup_insert_eq) || (rewrite lookup_insert_ne by congruence; apply lookup_empty).
Qed.
End init.

(** ** A 16550 of this kind *)

Record soft_uart := Soft { su_ier : Z; su_fcr : Z; su_lcr : Z; su_dll : Z; su_dlm : Z }.

#[export] Instance soft_16550 : Uart16550 soft_uart := {
  put_reg reg v d := let '(Soft i f l lo hi) := d in
    if reg =? 0 then (if Z.testbit l 7 then Soft i f l v hi else d)
    else if reg =? 1 then (if Z.testbit l 7 then Soft i f l lo v else Soft v f l lo hi)
    else if reg =? 2 then Soft i v l lo hi
    else if reg =? 3 then Soft i f v lo hi else d;
  ier := su_ier; fcr := su_fcr; lcr := su_lcr; dll := su_dll; dlm := su_dlm }.

#[export] Instance soft_16550_laws : Uart16550Laws soft_uart.
Proof. split; intros v []; cbn; try case_match; done. Qed.

Example uartinit_soft : ∃ s', uartinit (Thread [] (Devices (Soft 255 255 255 255 255) ∅ ∅)) = Ok tt (Thread [] s') ∧ dv_uart s' = Soft 3 7 3 3 0.
Proof. eexists. split; reflexivity. Qed.
