(* ===== verification/Files.v ===== *)
(** * file.c, and [pipealloc] of pipe.c: open files

    A [struct file] is an index of the file table.  [world] is what the rest of
    the machine does while the calling process sleeps: in [begin_op], which
    concerns the log and the cache, and in the sleeps of pipes and of the console. *)

From S2P Require Import Prelude CString Riscv Kalloc Vm Param Bio Log.
From S2P Require Import BlockLayer BlockLog FsDisk Fs Pipe Kernel Printf Proc Console.

Record world := World { w_log : K → list (lstate → lstate); w_sleep : K → list (K → K) }.

(** User memory for [readi] and [writei]: [either_copyout(1, ...)] and
    [either_copyin(..., 1, ...)] with the process's page table. *)
Definition user_out (pagetable : Z) : copyout_fn kmem := λ k a bs,
  match copyout pagetable a bs (Thread [] k) with
  | Ok r t => (st t, negb (r =? -1))
  | _ => (k, false)
  end.
Definition user_in (pagetable : Z) (k : kmem) : copyin_fn := λ a n,
  match copyin pagetable a (Z.of_nat n) (Thread [] k) with
  | Ok r _ => (r.2, negb (r.1 =? -1))
  | _ => ([], false)
  end.

(** Kernel memory at physical addresses: [memmove]. *)
Definition phys_out : copyout_fn kmem := λ k a bs, (Kmem (put_bytes (kmem_mem k) a bs) (kmem_freelist k), true).

Definition readi_user (ip : nat) (dst off n : Z) : M K Z :=
  let! i := myproc in
  let! p := gets (proc_at i) in
  let! k := gets k_mem in
  let! r := onfs (readi (user_out (p_pagetable p)) ip k dst off n) in
  modify (set_mem r.2) ;;;
  ret r.1.
Definition writei_user (ip : nat) (src off n : Z) : M K Z :=
  let! i := myproc in
  let! p := gets (proc_at i) in
  let! k := gets k_mem in
  onfs (writei (user_in (p_pagetable p) k) ip src off n).

(** A null inode pointer is not dereferenced. *)
Definition inode_of (ip : option nat) : M K nat :=
  match ip with Some i => ret i | None => undefined "null inode" end.

Definition STAT_SIZE : Z := 32.
(** [struct stat] as bytes.  [stati] does not set [mode], so it and the padding
    keep what the stack held ([stack]). *)
Definition stat_bytes (stack : list Z) (x : stat) : list Z :=
  le_bytes 4 (st_dev x) ++ le_bytes 4 (st_ino x) ++ le_bytes 2 (st_type x) ++ le_bytes 2 (st_nlink x) ++
  slice 12 4 stack ++ le_bytes 8 (st_size x) ++ slice 24 8 stack.

Section Files.
Context (end_ : Z) (w : world).

#[local] Instance pipes : PipeEnv K := kernel_pipes end_.

Definition begin_op : M K unit :=
  let! s := get in onfs (blk (Log.begin_op (w_log w s))).
Definition end_op : M K unit := onfs (blk Log.end_op).

Definition filealloc : M K (option nat) :=
  acquire L_ftable ;;;
  let! r := for_each files_idx (λ i,
    let! f := gets (file_at i) in
    if f_ref f =? 0 then
      upd_file i (set_ref 1) ;;;
      release L_ftable ;;;
      ret (Some i)
    else ret None) in
  match r with
  | Some i => ret (Some i)
  | None => release L_ftable ;;; ret None
  end.

Definition filedup (f : nat) : M K nat :=
  acquire L_ftable ;;;
  let! x := gets (file_at f) in
  panic_if (f_ref x <? 1) "filedup" ;;;
  upd_file f (λ x, set_ref (f_ref x + 1) x) ;;;
  release L_ftable ;;;
  ret f.

Definition fileclose (f : nat) : M K unit :=
  acquire L_ftable ;;;
  let! x := gets (file_at f) in
  panic_if (f_ref x <? 1) "fileclose" ;;;
  upd_file f (λ x, set_ref (f_ref x - 1) x) ;;;
  let! ff := gets (file_at f) in
  if 0 <? f_ref ff then release L_ftable
  else
    upd_file f (set_ref 0) ;;;
    upd_file f (set_ftype FD_NONE) ;;;
    release L_ftable ;;;
    match f_type ff with
    | FD_PIPE => pipeclose (f_pipe ff) (f_writable ff)
    | FD_INODE | FD_DEVICE =>
        begin_op ;;;
        let! ip := inode_of (f_ip ff) in
        onfs (iput ip) ;;;
        end_op
    | FD_NONE => ret tt
    end.

Definition filestat (stack : list Z) (f : nat) (addr : Z) : M K Z :=
  let! i := myproc in
  let! x := gets (file_at f) in
  match f_type x with
  | FD_INODE | FD_DEVICE =>
      onfs (ilock (f_ip x)) ;;;
      let! ip := inode_of (f_ip x) in
      let! sb := onfs (stati ip) in
      onfs (iunlock (f_ip x)) ;;;
      let! p := gets (proc_at i) in
      let! r := onmem (copyout (p_pagetable p) addr (stat_bytes stack sb)) in
      if r <? 0 then ret (-1) else ret 0
  | FD_PIPE | FD_NONE => ret (-1)
  end.

Definition fileread (f : nat) (addr n : Z) : M K Z :=
  let! x := gets (file_at f) in
  if negb (f_readable x) then ret (-1)
  else
    match f_type x with
    | FD_PIPE =>
        let! s := get in
        piperead (w_sleep w s) (f_pipe x) addr n
    | FD_DEVICE =>
        if (f_major x <? 0) || (NDEV <=? f_major x) then ret (-1)
        else
          match devsw_read (f_major x) with
          | None => ret (-1)
          | Some rd => let! s := get in rd (w_sleep w s) true addr n
          end
    | FD_INODE =>
        onfs (ilock (f_ip x)) ;;;
        let! ip := inode_of (f_ip x) in
        let! x := gets (file_at f) in
        let! r := readi_user ip addr (f_off x) (u32 n) in
        (if 0 <? r then upd_file f (λ x, set_off (u32 (f_off x + r)) x) else ret tt) ;;;
        onfs (iunlock (f_ip x)) ;;;
        ret r
    | FD_NONE => panic "fileread"
    end.

Definition write_max : Z := (MAXOPBLOCKS - 1 - 1 - 2) / 2 * BSIZE.

(** The loop of [filewrite]; the value of [i] when it ends. *)
Fixpoint filewrite_loop (fuel : nat) (f : nat) (addr n i : Z) : M K Z :=
  match fuel with
  | O => ret i
  | S fuel =>
      if i <? n then
        let n1 := Z.min (n - i) write_max in
        begin_op ;;;
        let! x := gets (file_at f) in
        onfs (ilock (f_ip x)) ;;;
        let! ip := inode_of (f_ip x) in
        let! r := writei_user ip (u64 (addr + i)) (f_off x) n1 in
        (if 0 <? r then upd_file f (λ x, set_off (u32 (f_off x + r)) x) else ret tt) ;;;
        onfs (iunlock (f_ip x)) ;;;
        end_op ;;;
        if negb (r =? n1) then ret i
        else filewrite_loop fuel f addr n (i + r)
      else ret i
  end.

Definition filewrite (f : nat) (addr n : Z) : M K Z :=
  let! x := gets (file_at f) in
  if negb (f_writable x) then ret (-1)
  else
    match f_type x with
    | FD_PIPE =>
        let! s := get in
        pipewrite (w_sleep w s) (f_pipe x) addr n
    | FD_DEVICE =>
        if (f_major x <? 0) || (NDEV <=? f_major x) then ret (-1)
        else
          match devsw_write (f_major x) with
          | None => ret (-1)
          | Some wr => let! s := get in wr (w_sleep w s) true addr n
          end
    | FD_INODE =>
        let! i := filewrite_loop (S (Z.to_nat n)) f addr n 0 in
        ret (if i =? n then n else -1)
    | FD_NONE => panic "filewrite"
    end.

(** ** [pipealloc]

    The two files, or [None] for -1.  The bytes of the fresh page are the
    pipe's data: [data] is at offset 24 of [struct pipe]. *)
Definition close_opt (f : option nat) : M K unit :=
  match f with Some f => fileclose f | None => ret tt end.

Definition pipealloc_bad (pi : Z) (f0 f1 : option nat) : M K (option (nat * nat)) :=
  (if truth pi then onmem (kfree end_ pi) else ret tt) ;;;
  close_opt f0 ;;;
  close_opt f1 ;;;
  ret None.

Definition pipe_end (readable writable : bool) (pi : Z) (f : file) : file :=
  set_fpipe pi (set_writable writable (set_readable readable (set_ftype FD_PIPE f))).

Definition pipealloc : M K (option (nat * nat)) :=
  let! f0 := filealloc in
  match f0 with
  | None => pipealloc_bad 0 None None
  | Some a =>
      let! f1 := filealloc in
      match f1 with
      | None => pipealloc_bad 0 f0 None
      | Some b =>
          let! pi := onmem kalloc in
          if pi =? 0 then pipealloc_bad 0 f0 f1
          else
            let! data := onmem (gets (λ k, bytes_at (kmem_mem k) (pi + 24) (Z.to_nat PIPESIZE))) in
            modify (λ s, set_pipes (fupdz (k_pipes s) pi (init_pipe data)) s) ;;;
            upd_file a (pipe_end true false pi) ;;;
            upd_file b (pipe_end false true pi) ;;;
            ret (Some (a, b))
      end
  end.
End Files.
