(* ===== verification/Life.v ===== *)
(** * proc.c: [fork], [exit] and [wait]

    The part of proc.c that works on files and inodes too. *)

From S2P Require Import Prelude CString Riscv Kalloc Vm Param Bio Log.
From S2P Require Import BlockLayer BlockLog FsDisk Fs Pipe Kernel Printf Proc Console Files.

Section Life.
Context (end_ trampoline forkret_addr : Z) (w : world).

(** [*(np->trapframe) = *(p->trapframe);] *)
Definition copy_trapframe (dst src : Z) : M kmem unit :=
  upd_mem (λ m, put_bytes m dst (bytes_at m src (Z.to_nat TF_SIZE))).

(** [for(i = 0; i < NOFILE; i++) if(p->ofile[i]) np->ofile[i] = filedup(p->ofile[i]);] *)
Definition dup_files (i np : nat) : M K unit :=
  for_range 0 (Z.to_nat NOFILE) (λ fd,
    let! p := gets (proc_at i) in
    match default None (p_ofile p !! fd) with
    | None => ret tt
    | Some f =>
        let! f := filedup f in
        upd_proc np (λ q, set_ofile (<[fd := Some f]> (p_ofile q)) q)
    end).

Definition fork : M K Z :=
  let! i := myproc in
  let! a := allocproc end_ trampoline forkret_addr in
  match a with
  | None => ret (-1)
  | Some np =>
      let! p := gets (proc_at i) in
      let! q := gets (proc_at np) in
      let! r := onmem (uvmcopy end_ (p_pagetable p) (p_pagetable q) (p_sz p)) in
      if r <? 0 then
        freeproc end_ np ;;;
        punlock np ;;;
        ret (-1)
      else
        upd_proc np (set_sz (p_sz p)) ;;;
        onmem (copy_trapframe (p_trapframe q) (p_trapframe p)) ;;;
        tf_set np (TF_a 0) 0 ;;;
        dup_files i np ;;;
        let! ip := inode_of (p_cwd p) in
        let! ip := onfs (idup ip) in
        upd_proc np (set_cwd (Some ip)) ;;;
        upd_proc np (λ q, set_name (safestrcpy_buf (p_name q) (p_name p) 16) q) ;;;
        let! q := gets (proc_at np) in
        let pid := p_pid q in
        punlock np ;;;
        acquire L_wait ;;;
        upd_proc np (set_parent (Some i)) ;;;
        release L_wait ;;;
        plock np ;;;
        upd_proc np (set_state RUNNABLE) ;;;
        punlock np ;;;
        ret pid
  end.

(** [wakeup] on a [struct proc *]; no process sleeps on a null channel. *)
Definition wakeup_proc (i : option nat) : M K unit :=
  match i with Some i => wakeup (CH_proc i) | None => ret tt end.

Definition reparent (i : nat) : M K unit :=
  for_range 0 (Z.to_nat NPROC) (λ j,
    let! pp := gets (proc_at j) in
    if decide (p_parent pp = Some i) then
      let! init := gets k_initproc in
      upd_proc j (set_parent init) ;;;
      wakeup_proc init
    else ret tt).

Definition close_files (i : nat) : M K unit :=
  for_range 0 (Z.to_nat NOFILE) (λ fd,
    let! p := gets (proc_at i) in
    match default None (p_ofile p !! fd) with
    | None => ret tt
    | Some f =>
        fileclose end_ w f ;;;
        upd_proc i (λ p, set_ofile (<[fd := None]> (p_ofile p)) p)
    end).

(** [exit] up to the switch. *)
Definition exit_prepare (status : Z) : M K unit :=
  let! i := myproc in
  let! init := gets k_initproc in
  panic_if (bool_decide (init = Some i)) "init exiting" ;;;
  close_files i ;;;
  begin_op w ;;;
  let! p := gets (proc_at i) in
  let! ip := inode_of (p_cwd p) in
  onfs (iput ip) ;;;
  end_op ;;;
  upd_proc i (set_cwd None) ;;;
  acquire L_wait ;;;
  reparent i ;;;
  let! p := gets (proc_at i) in
  wakeup_proc (p_parent p) ;;;
  plock i ;;;
  upd_proc i (set_xstate status) ;;;
  upd_proc i (set_state ZOMBIE) ;;;
  release L_wait.

(** The thread of a zombie is never resumed: it stops in [sched], before
    [panic("zombie exit")]. *)
Definition exit {A} (status : Z) : M K A :=
  exit_prepare status ;;;
  sched_checks ;;;
  (λ t, Asleep t).

(** The scan of [wait] over the table: [havekids], or the result of an early
    return. *)
Fixpoint wait_scan (idx : list nat) (i : nat) (addr : Z) (havekids : bool) : M K (bool + Z) :=
  match idx with
  | [] => ret (inl havekids)
  | j :: idx =>
      let! pp := gets (proc_at j) in
      if decide (p_parent pp = Some i) then
        plock j ;;;
        let! pp := gets (proc_at j) in
        if decide (p_state pp = ZOMBIE) then
          let pid := p_pid pp in
          let! p := gets (proc_at i) in
          let! r := (if negb (addr =? 0) then onmem (copyout (p_pagetable p) addr (le_bytes 4 (p_xstate pp)))
                     else ret 0) in
          if r <? 0 then
            punlock j ;;;
            release L_wait ;;;
            ret (inr (-1))
          else
            freeproc end_ j ;;;
            punlock j ;;;
            release L_wait ;;;
            ret (inr pid)
        else
          punlock j ;;;
          wait_scan idx i addr true
      else wait_scan idx i addr havekids
  end.

Fixpoint wait_loop (env : list (K → K)) (i : nat) (addr : Z) : M K Z :=
  let! r := wait_scan procs_idx i addr false in
  match r with
  | inr r => ret r
  | inl havekids =>
      let! k := (if havekids then killed i else ret 1) in
      if truth k then release L_wait ;;; ret (-1)
      else
        match env with
        | [] => λ t, Asleep t
        | e :: env =>
            sleep e (CH_proc i) L_wait ;;;
            wait_loop env i addr
        end
  end.

Definition wait (addr : Z) : M K Z :=
  let! i := myproc in
  acquire L_wait ;;;
  let! s := get in
  wait_loop (w_sleep w s) i addr.
End Life.
