(* ===== verification/LifeSpec.v ===== *)
(** * proc.c: [fork] and [wait]

    [fork] makes a copy of the calling process or leaves everything as it was; [wait]
    finds the zombie among the children, and gives its slot and all its memory back. *)

From S2P Require Import Prelude CString Riscv Kalloc Vm VmTable VmMap VmCopy VmAlloc VmFree Param Bio Log.
From S2P Require Import BlockLayer BlockLog FsDisk Fs FsBlocks FsInode Pipe Kernel Printf Proc ProcSpec ProcSpace Console Files Life.

Section life.
Context (end_ : Z) (end_pos : 0 < end_) (trampoline forkret_addr : Z).
Hypothesis tramp_ok : 0 <= trampoline ∧ trampoline mod PGSIZE = 0 ∧ trampoline + PGSIZE <= 2 ^ 54.
Implicit Types (T : gmap (list Z) Z) (m : mem) (k : kmem) (fl : list Z) (h : list lockname) (s : K).

Abbreviation aspace := (aspace end_ trampoline).
Abbreviation base_map := (base_map trampoline).

(** ** The child's memory *)

(** The table [T] and the trapframe page [tf] came from the free list. *)
Record fresh k0 fl0 tf k fl T : Prop := {
  fr_list : ∃ tabs, fl0 ≡ₚ tf :: tabs ++ fl ∧ ∀ q, is_tab T q ↔ q ∈ tabs;
  fr_old : unharmed end_ k0 fl0 k fl }.

Lemma parent_of k0 fl0 old To fo sz tf pp ntf k1 fl1 Tn : aspace k0 fl0 old To fo sz tf pp → fresh k0 fl0 ntf k1 fl1 Tn →
  pt_rep end_ (kmem_mem k1) old To ∧ maps k1 To fo ∧ parent end_ fl1 To Tn fo pp.
Proof.
  intros Ha [(tabs & L & Q) U]. pose proof (aspace_frame _ _ _ _ _ _ _ _ _ _ _ _ Ha U) as [V M P N G Z0 Tp].
  assert (∀ q, q ∉ fl0 → ¬ is_tab Tn q) as Hn. { intros q Hq Ht. apply Hq. rewrite L. right. apply elem_of_app. left. by apply Q. }
  split; [apply V|]. split; [done|]. split; [done| |].
  - intros q Hq. destruct (G q ltac:(by right)) as (? & ? & ?). split; [done|]. split; [done|]. apply Hn. by apply (as_page _ _ _ _ _ _ _ _ _ _ Ha q ltac:(by right)).
  - intros p Hp. split; [by apply (vo_sep _ _ _ _ _ V)|]. apply Hn. by apply (vo_sep _ _ _ _ _ (as_vm _ _ _ _ _ _ _ _ _ _ Ha)).
Qed.

(** Pages that a step took from the free list. *)
Lemma vstep_taken k fl root T k' fl' T' ps : vm_ok end_ k fl root T → vm_ok end_ k' fl' root T' → vstep end_ k fl T k' fl' T' ps [] →
  NoDup ps ∧ ∀ q, q ∈ ps → page_ok end_ q ∧ q ∈ fl ∧ q ∉ fl' ∧ ¬ is_tab T' q.
Proof.
  intros V V' [S (newt & L & Q) _]. rewrite app_nil_r in L. destruct (vo_wf _ _ _ _ _ V) as (_ & Hn & Hp). pose proof Hn as Hn2. rewrite L in Hn.
  apply NoDup_app in Hn as (Hn1 & Hd1 & Hn). apply NoDup_app in Hn as (Hnp & Hd2 & _). split; [done|]. intros q Hq.
  assert (q ∈ fl) as Hfl by (rewrite L, !elem_of_app; tauto). split; [by eapply Forall_elem|]. split; [done|]. split; [by apply Hd2|].
  rewrite Q. intros [Ht|Ht]; [by apply (vo_sep _ _ _ _ _ V q)|]. apply (Hd1 q Ht). apply elem_of_app. by left.
Qed.

Lemma fresh_vstep k0 fl0 tf k fl root T k' fl' T' : fresh k0 fl0 tf k fl T → vm_ok end_ k fl root T → vm_ok end_ k' fl' root T' → vstep end_ k fl T k' fl' T' [] [] → fresh k0 fl0 tf k' fl' T'.
Proof.
  intros [(tabs & L & Q) [W F M]] V V' [S (newt & L' & Q') M']. rewrite app_nil_r in L'. cbn [app] in L'. split.
  - exists (tabs ++ newt). split; [by rewrite L, L', app_assoc|]. intros q. rewrite Q', Q, elem_of_app. tauto.
  - split; [apply V'| |].
    + intros q Hq. apply F. rewrite L'. apply elem_of_app. by right.
    + intros q x Hq Hf Hx. rewrite (M' q x), (M q x); try done; [by intros ?%F|apply not_elem_of_nil|]. rewrite Q. intros Hq'. apply Hf. rewrite L. right. apply elem_of_app. by left.
Qed.

Lemma fresh_aspace k0 fl0 tf k fl root T : kmem_wf end_ k0 fl0 → fresh k0 fl0 tf k fl T → vm_ok end_ k fl root T → maps k T (base_map tf) → aspace k fl root T (base_map tf) 0 tf [].
Proof.
  intros (_ & Hn & Hp) [(tabs & L & Q) _] V M. rewrite L in Hn, Hp. apply NoDup_cons in Hn as [Hni _]. apply Forall_cons in Hp as [Hp _].
  rewrite elem_of_app in Hni. split; try done.
  - cbn. apply NoDup_singleton.
  - intros q. cbn [fmap list_fmap]. rewrite list_elem_of_singleton. intros ->. split; [done|]. rewrite Q. tauto.
Qed.

Lemma vstep_unharmed k0 fl0 tf k fl root T k' fl' T' ps : fresh k0 fl0 tf k fl T → vm_ok end_ k' fl' root T' → vstep end_ k fl T k' fl' T' ps [] → unharmed end_ k0 fl0 k' fl'.
Proof.
  intros [(tabs & L & Q) [W F M]] V' [S (newt & L' & Q') M']. rewrite app_nil_r in L'. split; [apply V'| |].
  - intros q Hq. apply F. rewrite L', !elem_of_app. tauto.
  - intros q x Hq Hf Hx. rewrite (M' q x), (M q x); try done; [by intros ?%F|apply not_elem_of_nil|]. rewrite Q. intros Hq'. apply Hf. rewrite L. right. apply elem_of_app. by left.
Qed.

(** The copied pages have the flags of the parent's. *)
Lemma copied_pte k0 fl0 old To fo sz tf pp pp2 (f : Z → Z) (i : nat) q fg : aspace k0 fl0 old To fo sz tf pp → pp2.*2 = pp.*2 → pp2 !! i = Some (q, fg) →
  ext f 0 pp2 (Z.of_nat i * PGSIZE) = Z.lor (PA2PTE q) fg ∧ 0 <= fg < 1024 ∧ has fg PTE_V = true ∧ fg ≠ PTE_V.
Proof.
  intros Ha E2 Hi. assert (pp.*2 !! i = Some fg) as Hi2 by (rewrite <- E2, list_lookup_fmap, Hi; done).
  rewrite list_lookup_fmap in Hi2. destruct (pp !! i) as [[q' fg']|] eqn:Ei; [|done]. injection Hi2 as ->.
  destruct (as_pte _ _ _ _ _ _ _ _ _ _ Ha i q' fg Ei) as (_ & H1 & H2 & H3). split; [|done].
  pose proof (ext_leaf f 0 pp2 i q fg Hi) as El. rewrite Z.add_0_l in El. rewrite El, mk_pte_eq. by rewrite lor_V.
Qed.

Lemma copied_space k0 fl0 old To fo sz tf pp ntf k1 fl1 new Tn k2 fl2 T2 pp2 : aspace k0 fl0 old To fo sz tf pp → fresh k0 fl0 ntf k1 fl1 Tn →
  aspace k1 fl1 new Tn (base_map ntf) 0 ntf [] → vm_ok end_ k2 fl2 new T2 → maps k2 T2 (ext (base_map ntf) 0 pp2) → pp2.*2 = pp.*2 → vstep end_ k1 fl1 Tn k2 fl2 T2 pp2.*1 [] →
  aspace k2 fl2 new T2 (ext (base_map ntf) 0 pp2) sz ntf pp2.
Proof.
  intros Ha Hf Hc V2 M2 E2 S2. destruct (vstep_taken _ _ _ _ _ _ _ _ (as_vm _ _ _ _ _ _ _ _ _ _ Hc) V2 S2) as [Hnd Hpg].
  destruct (as_page _ _ _ _ _ _ _ _ _ _ Hc ntf ltac:(by left)) as (Hp & Hn & Ht).
  assert (length pp2 = length pp) as El by (apply (f_equal length) in E2; by rewrite !length_fmap in E2).
  split; [done|done| | | | |].
  - intros i q fg Hi. exact (copied_pte _ _ _ _ _ _ _ _ _ _ i q fg Ha E2 Hi).
  - apply NoDup_cons. split; [|done]. intros Hin. by apply Hpg in Hin as (_ & Hin & _).
  - intros q [->|Hq]%elem_of_cons; [|by destruct (Hpg q Hq) as (? & _ & ? & ?)]. split; [done|].
    destruct S2 as [_ (newt & L & Q) _]. rewrite app_nil_r in L. rewrite L, !elem_of_app in Hn. split; [tauto|]. rewrite Q. tauto.
  - rewrite El. exact (as_sz _ _ _ _ _ _ _ _ _ _ Ha).
  - intros va Hva Hr. unfold ext. by rewrite decide_False.
Qed.

(** The pages of an address space, among the pages [fl0]. *)
Definition child_pages fl0 tf (pp : list (Z * Z)) T fl : Prop := ∃ tabs, fl0 ≡ₚ tf :: (tabs ++ pp.*1) ++ fl ∧ ∀ q, is_tab T q ↔ q ∈ tabs.

Lemma fresh_pages k0 fl0 tf k fl T k' fl' T' pp : fresh k0 fl0 tf k fl T → vstep end_ k fl T k' fl' T' pp.*1 [] → child_pages fl0 tf pp T' fl'.
Proof.
  intros [(tabs & L & Q) _] [_ (newt & L' & Q') _]. rewrite app_nil_r in L'. exists (tabs ++ newt). split.
  - rewrite L, L'. apply perm_skip. by rewrite !app_assoc.
  - intros q. by rewrite Q', Q, elem_of_app.
Qed.

(** [uvmcopy] into the new address space. *)
Lemma copy_run h k0 fl0 old To fo sz tf pp ntf k1 fl1 new Tn : L_kmem ∉ h → aspace k0 fl0 old To fo sz tf pp → fresh k0 fl0 ntf k1 fl1 Tn →
  aspace k1 fl1 new Tn (base_map ntf) 0 ntf [] →
  (∃ k2 fl2 T2 pp2, uvmcopy end_ old new sz (Thread h k1) = Ok 0 (Thread h k2) ∧ aspace k2 fl2 new T2 (ext (base_map ntf) 0 pp2) sz ntf pp2 ∧
     pp2.*2 = pp.*2 ∧ unharmed end_ k0 fl0 k2 fl2 ∧ child_pages fl0 ntf pp2 T2 fl2 ∧
     ∀ (i : nat) p q j, pp2.*1 !! i = Some p → pp.*1 !! i = Some q → 0 <= j < PGSIZE → kmem_mem k2 (p + j) = kmem_mem k0 (q + j)) ∨
  (∃ k2 fl2 T2, uvmcopy end_ old new sz (Thread h k1) = Ok (-1) (Thread h k2) ∧ aspace k2 fl2 new T2 (base_map ntf) 0 ntf [] ∧ fresh k0 fl0 ntf k2 fl2 T2).
Proof.
  intros Hh Ha Hf Hc. destruct (parent_of _ _ _ _ _ _ _ _ _ _ _ _ Ha Hf) as (Hr & Hm & Hp). pose proof (as_vm _ _ _ _ _ _ _ _ _ _ Hc) as V1.
  destruct (as_sz _ _ _ _ _ _ _ _ _ _ Ha) as (Hz & Hsz & Hmax).
  destruct (uvmcopy_run end_ end_pos h k1 fl1 old To fo new Tn (base_map ntf) pp sz Hh V1 (as_maps _ _ _ _ _ _ _ _ _ _ Hc) Hr Hm Hp)
    as [(k2 & fl2 & T2 & pp2 & E & V2 & M2 & E2 & S2 & B2 & _)|(k2 & E & [(fl2 & T2 & V2 & M2 & S2)])]; [|exact Hsz| | |].
  - change TRAPFRAME with (MAXVA - 2 * PGSIZE) in Hmax. unfold PGSIZE in *. lia.
  - intros x Hx. apply base_map_low. unfold in_range in Hx. lia.
  - left. exists k2, fl2, T2, pp2. split; [done|]. split; [by eapply copied_space|]. split; [done|]. split; [by eapply vstep_unharmed|]. split; [by eapply fresh_pages|].
    intros i p q j Hi Hq Hj. destruct (B2 i p q j Hi Hq Hj) as [-> _]. assert (q ∈ pp.*1) as Hin by (by eapply list_elem_of_lookup_2).
    destruct (as_page _ _ _ _ _ _ _ _ _ _ Ha q ltac:(by right)) as (Hqp & Hqf & _). apply (uh_mem _ _ _ _ _ (fr_old _ _ _ _ _ _ Hf) q); [done|done|lia].
  - right. exists k2, fl2, T2. split; [done|]. assert (fresh k0 fl0 ntf k2 fl2 T2) as Hf2 by (by eapply fresh_vstep). split; [|done].
    assert (maps k2 T2 (base_map ntf)) as M2' by (eapply maps_ext; [exact M2|]; done).
    destruct (as_page _ _ _ _ _ _ _ _ _ _ Hc ntf ltac:(by left)) as (Hpo & Hno & Hto). split; try done.
    + cbn. apply NoDup_singleton.
    + intros q. cbn [fmap list_fmap]. rewrite list_elem_of_singleton. intros ->. split; [done|].
      destruct S2 as [_ (newt & L & Q) _]. rewrite app_nil_r in L. rewrite L, !elem_of_app in Hno. split; [tauto|]. rewrite Q. tauto.
Qed.

(** The failed child's pages are back. *)
Lemma undo_space (P : Z → Prop) k0 fl0 ntf k2 fl2 T2 k3 fl3 : kmem_wf end_ k0 fl0 → fresh k0 fl0 ntf k2 fl2 T2 → (∀ q, P q ↔ q = ntf ∨ is_tab T2 q) →
  handed end_ P k2 fl2 k3 fl3 → handed end_ (λ _, False) k0 fl0 k3 fl3.
Proof.
  intros (_ & Hn & _) [(tabs & L & Q) [_ _ F]] HP [W (qs & L3 & Q3) F3].
  assert (∀ q, q ∈ qs ↔ q ∈ ntf :: tabs) as Hqs by (intros q; rewrite Q3, HP, elem_of_cons, Q; done).
  split; [done| |].
  - exists []. split; [|intros q; rewrite elem_of_nil; tauto]. cbn [app]. rewrite L3, L. rewrite app_comm_cons. apply Permutation_app_tail.
    rewrite L, app_comm_cons in Hn. apply NoDup_app in Hn as (Hn & _). destruct W as (_ & W & _). rewrite L3 in W. apply NoDup_app in W as (W & _).
    by apply NoDup_Permutation.
  - intros q x Hq Hf _ Hx. assert (q ∉ (ntf :: tabs) ++ fl2) as Hno by (rewrite <- app_comm_cons, <- L; done). rewrite elem_of_app in Hno.
    rewrite (F3 q x), (F q x); try tauto. rewrite <- Q3, Hqs. tauto.
Qed.

(** Writing the trapframe. *)
Lemma write_tf k0 fl0 k fl root T f sz tf pp m' : aspace k fl root T f sz tf pp → unharmed end_ k0 fl0 k fl → tf ∈ fl0 →
  (∀ x, ¬ (tf <= x < tf + PGSIZE) → m' x = kmem_mem k x) →
  aspace (Kmem m' (kmem_freelist k)) fl root T f sz tf pp ∧ unharmed end_ k0 fl0 (Kmem m' (kmem_freelist k)) fl.
Proof.
  intros [V M P N G Z0 Tp] [W F U] Htf Hm. destruct (G tf ltac:(by left)) as (Hp & Hn & Ht).
  destruct (vm_ok_frame end_ k fl root T m' tf V Hp Hn Ht Hm) as [V' Hpt]. split.
  - split; try done. intros va Hva. cbn [kmem_mem]. rewrite Hpt. by apply M.
  - split; [apply V'|done|]. intros q x Hq Hf Hx. cbn [kmem_mem]. rewrite Hm; [by apply (U q)|]. apply (page_apart end_ q tf x); [done|done| |done]. intros ->. done.
Qed.

Lemma trapframe_copy m ntf tf : (∀ j, 0 <= j < TF_SIZE → ¬ (ntf <= tf + j < ntf + TF_SIZE)) →
  let m' := store64 (put_bytes m ntf (bytes_at m tf (Z.to_nat TF_SIZE))) (ntf + TF_a 0) 0 in
  (∀ x, ¬ (ntf <= x < ntf + TF_SIZE) → m' x = m x) ∧
  load64 m' (ntf + TF_a 0) = 0 ∧ ∀ j, 0 <= j < TF_SIZE → ¬ (TF_a 0 <= j < TF_a 1) → m' (ntf + j) = m (tf + j).
Proof.
  intros Hd m'. change TF_SIZE with 288 in *. change (TF_a 0) with 112 in *. change (TF_a 1) with 120. unfold m'. split_and!.
  - intros x Hx. rewrite store64_ne by lia. rewrite put_bytes_at, decide_False by (rewrite length_bytes_at; lia). done.
  - by rewrite load64_store64.
  - intros j Hj Hn. rewrite store64_ne by lia. rewrite put_bytes_at, length_bytes_at, decide_True by lia.
    rewrite lookup_bytes_at by lia. cbn. f_equal. lia.
Qed.

(** ** Descriptors and the current directory *)

(** The file table with a reference more for a descriptor. *)
Definition bump (fs : list file) (o : option nat) : list file :=
  match o with Some f => let x := default file0 (fs !! f) in <[f := set_ref (f_ref x + 1) x]> fs | None => fs end.

Definition bumped (os : list (option nat)) (fs : list file) : list file := foldl bump fs os.

Lemma bump_length fs o : length (bump fs o) = length fs.
Proof. destruct o; [apply length_insert|done]. Qed.

Lemma bumped_length os : ∀ fs, length (bumped os fs) = length fs.
Proof. induction os as [|o os IH]; intros fs; [done|]. cbn. unfold bumped in IH. by rewrite IH, bump_length. Qed.

Lemma bump_ref fs o g : (g < length fs)%nat → f_ref (default file0 (bump fs o !! g)) = f_ref (default file0 (fs !! g)) + (if decide (o = Some g) then 1 else 0).
Proof.
  intros Hg. destruct o as [f|]; cbn [bump]; [|by rewrite Z.add_0_r]. destruct (decide (f = g)) as [->|Hne].
  - rewrite list_lookup_insert_eq by done. rewrite decide_True by done. cbn. by rewrite f_ref_set.
  - rewrite list_lookup_insert_ne by done. rewrite decide_False by congruence. lia.
Qed.

(** Every descriptor counts. *)
Lemma bumped_ref g os : ∀ fs, (g < length fs)%nat →
  f_ref (default file0 (bumped os fs !! g)) = f_ref (default file0 (fs !! g)) + Z.of_nat (length (filter (λ o, o = Some g) os)).
Proof.
  induction os as [|o os IH]; intros fs Hg; cbn [bumped foldl]; [rewrite filter_nil; cbn; lia|].
  change (foldl bump (bump fs o) os) with (bumped os (bump fs o)). rewrite IH by (by rewrite bump_length). rewrite bump_ref by done. rewrite filter_cons. destruct (decide (o = Some g)); cbn [length]; lia.
Qed.

Lemma filedup_run h s f : L_ftable ∉ h → 1 <= f_ref (file_at f s) →
  filedup f (Thread h s) = Ok f (Thread h (set_files (bump (k_files s) (Some f)) s)).
Proof.
  intros Hh Hr. unfold filedup. do 2 kstep. cbn [st]. rewrite (proj2 (Z.ltb_ge _ 1)) by lia. rewrite (bind_Ok _ _ _ _ _ (no_panic _ _)).
  unfold upd_file. do 2 kstep. done.
Qed.

(** The open files of a process have references. *)
Definition files_ok s (os : list (option nat)) : Prop := ∀ fd f, os !! fd = Some (Some f) → (f < length (k_files s))%nat ∧ 1 <= f_ref (file_at f s).

Definition dup_state (np : nat) s (os ofile : list (option nat)) : K := set_files (bumped os (k_files s)) (on_proc np (set_ofile ofile) s).

Lemma dup_state_at np s os o i : i ≠ np → proc_at i (dup_state np s os o) = proc_at i s.
Proof. intros Hne. rewrite <- (on_proc_other np i (set_ofile o) s) by done. unfold dup_state. by destruct s. Qed.

Lemma dup_state_next np s os o f (k : nat) : set_files (bump (k_files (dup_state np s os o)) (Some f)) (dup_state np s os o) = dup_state np s (os ++ [Some f]) o ∧
  ((np < length (k_procs s))%nat → on_proc np (λ q, set_ofile (<[k := Some f]> (p_ofile q)) q) (dup_state np s (os ++ [Some f]) o) = dup_state np s (os ++ [Some f]) (<[k := Some f]> o)).
Proof.
  split.
  - unfold dup_state. destruct s. cbn. unfold bumped. by rewrite foldl_app.
  - intros Hn. assert (∀ v f s, on_proc np f (set_files v s) = set_files v (on_proc np f s)) as Hc by (by intros ? ? []).
    unfold dup_state. rewrite Hc, on_proc_comp. f_equal. apply on_proc_ext. by destruct (proc_at np s).
Qed.

Lemma dup_loop_run h s i np P : L_ftable ∉ h → i ≠ np → (np < length (k_procs s))%nat → p_ofile (proc_at i s) = P → length P = Z.to_nat NOFILE → files_ok s P →
  ∀ (n k : nat), (k + n = Z.to_nat NOFILE)%nat →
  for_range k n (λ fd,
    let! p := gets (proc_at i) in
    match default None (p_ofile p !! fd) with
    | None => ret tt
    | Some f =>
        let! f := filedup f in
        upd_proc np (λ q, set_ofile (<[fd := Some f]> (p_ofile q)) q)
    end) (Thread h (dup_state np s (take k P) (take k P ++ replicate n None))) = Ok tt (Thread h (dup_state np s P P)).
Proof.
  intros Hh Hne Hn EP HP Hok. induction n as [|n IH]; intros k Hk; cbn [for_range].
  { rewrite app_nil_r, take_ge by lia. done. }
  destruct (lookup_lt_is_Some_2 P k ltac:(lia)) as [o Ho].
  rewrite bind_assoc. kstep. cbn [st]. rewrite dup_state_at, EP, Ho by done. cbn [default from_option id].
  assert (take (1 + k) P = take k P ++ [o]) as Et by (by apply take_S_r).
  destruct o as [f|].
  - destruct (Hok k f Ho) as [Hf Hr].
    assert (1 <= f_ref (file_at f (dup_state np s (take k P) (take k P ++ replicate (S n) None)))) as Hr2.
    { unfold file_at in *. assert (k_files (dup_state np s (take k P) (take k P ++ replicate (S n) None)) = bumped (take k P) (k_files s)) as -> by by destruct s.
      rewrite bumped_ref by done. lia. }
    rewrite bind_assoc, (bind_Ok _ _ _ _ _ (filedup_run _ _ _ Hh Hr2)), (bind_Ok _ _ _ _ _ (upd_proc_run _ _ _ _)).
    destruct (dup_state_next np s (take k P) (take k P ++ replicate (S n) None) f k) as [-> E2]. rewrite E2 by done.
    rewrite insert_app_r_alt by (rewrite length_take; lia). replace (k - length (take k P))%nat with 0%nat by (rewrite length_take; lia). cbn [replicate list_insert insert].
    rewrite <- (IH (1 + k)%nat) by lia. by rewrite Et, <- app_assoc.
  - kstep. rewrite <- (IH (1 + k)%nat) by lia. rewrite Et, <- app_assoc. do 2 f_equal. unfold dup_state, bumped. by rewrite foldl_app.
Qed.

(** ** [fork] *)

(** A state of [fork]: the slot, memory, the file table and the inodes have changed. *)
Definition forking (fs' : fs lstate) (files : list file) k n np (g : proc → proc) (s : K) : K := set_fs fs' (set_files files (half k n np g s)).

Lemma forking_half k n np g s : half k n np g s = forking (k_fs s) (k_files s) k n np g s.
Proof. by destruct s. Qed.
Lemma forking_mem F fs k n np g s : k_mem (forking F fs k n np g s) = k.
Proof. by destruct s. Qed.
Lemma forking_fs F fs k n np g s : k_fs (forking F fs k n np g s) = F.
Proof. by destruct s. Qed.
Lemma forking_set F fs k k' n np g s : set_mem k' (forking F fs k n np g s) = forking F fs k' n np g s.
Proof. by destruct s. Qed.
Lemma forking_set_fs F F' fs k n np g s : set_fs F' (forking F fs k n np g s) = forking F' fs k n np g s.
Proof. by destruct s. Qed.
Lemma forking_on F fs k n np f g s : on_proc np f (forking F fs k n np g s) = forking F fs k n np (λ p, f (g p)) s.
Proof. unfold forking. rewrite <- (half_on k n np f g s). by destruct (half k n np g s). Qed.
Lemma forking_at F fs k n np g s : (np < length (k_procs s))%nat → proc_at np (forking F fs k n np g s) = g (proc_at np s).
Proof. intros Hn. rewrite <- (half_at k n np g s Hn). unfold forking. by destruct (half k n np g s). Qed.
Lemma forking_other F fs k n np g s i : i ≠ np → proc_at i (forking F fs k n np g s) = proc_at i s.
Proof. intros Hne. rewrite <- (on_proc_other np i g s) by done. unfold forking, half. by destruct s. Qed.
Lemma forking_ext F fs k n np f g s : f (proc_at np s) = g (proc_at np s) → forking F fs k n np f s = forking F fs k n np g s.
Proof. intros E. unfold forking. by rewrite (half_ext k n np f g). Qed.
Lemma forking_dup F fs k n np g s P : (np < length (k_procs s))%nat →
  dup_state np (forking F fs k n np g s) P P = forking F (bumped P fs) k n np (λ p, set_ofile P (g p)) s.
Proof. intros Hn. unfold dup_state. rewrite forking_on. by destruct s. Qed.
Lemma forking_len F fs k n np g s : length (k_procs (forking F fs k n np g s)) = length (k_procs s).
Proof. rewrite <- (half_len k n np g s). by destruct s. Qed.

(** [idup] of the current directory. *)
Lemma onfs_idup h s ip : L_itable ∉ h → onfs (idup ip) (Thread h s) = Ok ip (Thread h (set_fs (upd_inode ip (λ x, with_ref (i_ref x + 1) x) (k_fs s)) s)).
Proof.
  intros Hh. unfold onfs, lift. cbn [held st].
  assert (idup ip (Thread h (k_fs s)) = Ok ip (Thread h (upd_inode ip (λ x, with_ref (i_ref x + 1) x) (k_fs s)))) as ->; [|done].
  unfold idup. kstep. by do 2 kstep.
Qed.

(** A process that calls [fork]: its address space, its open files, its directory; and the
    slots of the table that are free are vacant. *)
Record fork_ready s (i : nat) fl (old : Z) To (fo : Z → Z) (pp : list (Z * Z)) (ip : nat) : Prop := {
  fk_table : table_ok s;
  fk_cur : k_cur s = Some i;
  fk_live : (i < Z.to_nat NPROC)%nat ∧ p_state (proc_at i s) ≠ UNUSED;
  fk_vacant j : (j < Z.to_nat NPROC)%nat → p_state (proc_at j s) = UNUSED → vacant (proc_at j s) ∧ p_ofile (proc_at j s) = replicate (Z.to_nat NOFILE) None;
  fk_space : p_pagetable (proc_at i s) = old ∧ aspace (k_mem s) fl old To fo (p_sz (proc_at i s)) (p_trapframe (proc_at i s)) pp;
  fk_files : length (p_ofile (proc_at i s)) = Z.to_nat NOFILE ∧ files_ok s (p_ofile (proc_at i s));
  fk_cwd : p_cwd (proc_at i s) = Some ip }.

(** The child in the slot of [q]: a copy of [p], but for its identity. *)
Definition child_of (i : nat) (pid root tf : Z) (ip : nat) (p q : proc) : proc :=
  Proc RUNNABLE (p_chan q) (p_killed q) (p_xstate q) pid (Some i) (p_kstack q) (p_sz p) root tf (forkret_addr, p_kstack q + PGSIZE)
    (p_ofile p) (Some ip) (safestrcpy_buf (p_name q) (p_name p) 16).

(** [fork] after [uvmcopy]; [p] is the caller, [q] the child. *)
Definition fork_tail (i np : nat) (p q : proc) : M K Z :=
  upd_proc np (set_sz (p_sz p)) ;;;
  onmem (copy_trapframe (p_trapframe q) (p_trapframe p)) ;;;
  tf_set np (TF_a 0) 0 ;;;
  dup_files i np ;;;
  let! ip := inode_of (p_cwd p) in
  let! ip := onfs (idup ip) in
  upd_proc np (set_cwd (Some ip)) ;;;
  upd_proc np (λ q, set_name (safestrcpy_buf (p_name q) (p_name p) 16) q) ;;;
  let! q := gets (proc_at np) in
  let pid := p_pid q in
  punlock np ;;;
  acquire L_wait ;;;
  upd_proc np (set_parent (Some i)) ;;;
  release L_wait ;;;
  plock np ;;;
  upd_proc np (set_state RUNNABLE) ;;;
  punlock np ;;;
  ret pid.

Definition copied_tf m ntf tf : mem := store64 (put_bytes m ntf (bytes_at m tf (Z.to_nat TF_SIZE))) (ntf + TF_a 0) 0.

Lemma fork_tail_run s i np k n pid root ntf ip : (i < length (k_procs s))%nat → (np < length (k_procs s))%nat → i ≠ np →
  p_ofile (proc_at np s) = replicate (Z.to_nat NOFILE) None → length (p_ofile (proc_at i s)) = Z.to_nat NOFILE → files_ok s (p_ofile (proc_at i s)) → p_cwd (proc_at i s) = Some ip →
  fork_tail i np (proc_at i s) (born forkret_addr pid ntf root (proc_at np s)) (Thread [L_proc np] (half k n np (born forkret_addr pid ntf root) s)) =
    Ok pid (Thread [] (forking (upd_inode ip (λ x, with_ref (i_ref x + 1) x) (k_fs s)) (bumped (p_ofile (proc_at i s)) (k_files s))
      (Kmem (copied_tf (kmem_mem k) ntf (p_trapframe (proc_at i s))) (kmem_freelist k)) n np (child_of i pid root ntf ip (proc_at i s)) s)).
Proof.
  intros Hi Hn Hne Hvac Hlen Hok Hcwd. set (p := proc_at i s) in *. set (b := born forkret_addr pid ntf root).
  unfold fork_tail. rewrite forking_half, (bind_Ok _ _ _ _ _ (upd_proc_run _ _ _ _)), forking_on.
  assert (p_trapframe (b (proc_at np s)) = ntf) as Etf by (unfold b; by destruct (proc_at np s)). rewrite Etf.
  rewrite (bind_Ok (onmem (copy_trapframe _ _)) _ _ tt (Thread [L_proc np] (forking (k_fs s) (k_files s) (Kmem (put_bytes (kmem_mem k) ntf (bytes_at (kmem_mem k) (p_trapframe p) (Z.to_nat TF_SIZE))) (kmem_freelist k)) n np (λ q, set_sz (p_sz p) (b q)) s))).
  2: { unfold onmem, lift, copy_trapframe, upd_mem, modify. cbn [held st]. by rewrite forking_mem, forking_set. }
  unfold tf_set. rewrite bind_assoc. kstep. cbn [st]. rewrite forking_at by done.
  assert (p_trapframe (set_sz (p_sz p) (b (proc_at np s))) = ntf) as -> by (unfold b; by destruct (proc_at np s)).
  rewrite (bind_Ok (onmem (upd_mem _)) _ _ tt (Thread [L_proc np] (forking (k_fs s) (k_files s) (Kmem (copied_tf (kmem_mem k) ntf (p_trapframe p)) (kmem_freelist k)) n np (λ q, set_sz (p_sz p) (b q)) s))).
  2: { unfold onmem, lift, copy_trapframe, upd_mem, modify. cbn [held st]. by rewrite forking_mem, forking_set. }
  set (k4 := Kmem _ _). set (Y := forking (k_fs s) (k_files s) k4 n np _ s).
  assert (dup_files i np (Thread [L_proc np] Y) = Ok tt (Thread [L_proc np] (forking (k_fs s) (bumped (p_ofile p) (k_files s)) k4 n np (λ q, set_ofile (p_ofile p) (set_sz (p_sz p) (b q))) s))) as E4.
  { rewrite <- forking_dup by done. fold Y.
    assert (proc_at i Y = p) as EYi by (by apply forking_other).
    rewrite <- (dup_loop_run [L_proc np] Y i np (p_ofile p)) with (k := 0%nat) (n := Z.to_nat NOFILE); [|lock_notin|done|by (unfold Y; rewrite forking_len)|by rewrite EYi|done|by destruct s|done].
    unfold dup_files. do 2 f_equal. cbn [take app]. unfold dup_state, bumped. cbn [foldl]. rewrite (on_proc_id np _ Y); [by destruct Y|].
    unfold Y. rewrite forking_at by done. rewrite <- Hvac. unfold b. by destruct (proc_at np s). }
  rewrite (bind_Ok _ _ _ _ _ E4), Hcwd. kstep.
  rewrite (bind_Ok _ _ _ _ _ (onfs_idup [L_proc np] _ ip ltac:(lock_notin))), forking_fs, forking_set_fs.
  do 2 rewrite (bind_Ok _ _ _ _ _ (upd_proc_run _ _ _ _)), forking_on. kstep. cbn [st]. rewrite forking_at by done.
  assert (p_pid (set_name (safestrcpy_buf (p_name (set_cwd (Some ip) (set_ofile (p_ofile p) (set_sz (p_sz p) (b (proc_at np s)))))) (p_name p) 16)
    (set_cwd (Some ip) (set_ofile (p_ofile p) (set_sz (p_sz p) (b (proc_at np s)))))) = pid) as -> by (unfold b; by destruct (proc_at np s)).
  rewrite (bind_Ok _ _ _ _ _ (punlock_run _ _ _)). kstep. rewrite (bind_Ok _ _ _ _ _ (upd_proc_run _ _ _ _)), forking_on. kstep.
  rewrite (bind_Ok _ _ _ _ _ (plock_run np [] _ ltac:(lock_notin))), (bind_Ok _ _ _ _ _ (upd_proc_run _ _ _ _)), forking_on, (bind_Ok _ _ _ _ _ (punlock_run _ _ _)).
  unfold ret. do 2 f_equal. apply forking_ext. unfold b. by destruct (proc_at np s).
Qed.

(** Nothing but a pid and the contents of free pages and of a free slot has changed. *)
Definition fork_failed s fl np (t : thread K) : Prop :=
  ∃ k' fl' q, t = Thread [] (half k' (k_nextpid s + 1) np (λ _, q) s) ∧ p_state q = UNUSED ∧ vacant q ∧ kmem_wf end_ k' fl' ∧ fl' ≡ₚ fl ∧
    ∀ pg x, page_ok end_ pg → pg ∉ fl → pg <= x < pg + PGSIZE → kmem_mem k' x = kmem_mem (k_mem s) x.

Lemma failed_handed s fl np k' fl' g : handed end_ (λ _, False) (k_mem s) fl k' fl' → p_state (g (proc_at np s)) = UNUSED → vacant (g (proc_at np s)) →
  fork_failed s fl np (Thread [] (half k' (k_nextpid s + 1) np g s)).
Proof.
  intros [W (qs & L & Q) F] Hu Hv. exists k', fl', (g (proc_at np s)). split; [f_equal; by apply half_ext|]. split; [done|]. split; [done|]. split; [done|]. split.
  - rewrite L. destruct qs as [|q qs]; [done|]. exfalso. apply (Q q). by left.
  - intros pg x Hp Hf Hx. apply (F pg); tauto.
Qed.

(** The child exists. *)
Definition fork_done s i fl old To fo pp ip np (t : thread K) : Prop :=
  ∃ k' fl' root T tf cpp, let p := proc_at i s in
    t = Thread [] (forking (upd_inode ip (λ x, with_ref (i_ref x + 1) x) (k_fs s)) (bumped (p_ofile p) (k_files s)) k' (k_nextpid s + 1) np (child_of i (k_nextpid s) root tf ip p) s) ∧
    aspace k' fl' root T (ext (base_map tf) 0 cpp) (p_sz p) tf cpp ∧ cpp.*2 = pp.*2 ∧
    (∀ (j : nat) pc pq o, cpp.*1 !! j = Some pc → pp.*1 !! j = Some pq → 0 <= o < PGSIZE → kmem_mem k' (pc + o) = kmem_mem (k_mem s) (pq + o)) ∧
    load64 (kmem_mem k') (tf + TF_a 0) = 0 ∧
    (∀ o, 0 <= o < TF_SIZE → ¬ (TF_a 0 <= o < TF_a 1) → kmem_mem k' (tf + o) = kmem_mem (k_mem s) (p_trapframe p + o)) ∧
    aspace k' fl' old To fo (p_sz p) (p_trapframe p) pp ∧ unharmed end_ (k_mem s) fl k' fl' ∧ child_pages fl tf cpp T fl'.

Lemma child_memory s fl i old To fo pp root ntf k2 fl2 T2 cpp : let p := proc_at i s in
  aspace (k_mem s) fl old To fo (p_sz p) (p_trapframe p) pp → ntf ∈ fl →
  aspace k2 fl2 root T2 (ext (base_map ntf) 0 cpp) (p_sz p) ntf cpp → unharmed end_ (k_mem s) fl k2 fl2 → cpp.*2 = pp.*2 →
  (∀ (j : nat) pc pq o, cpp.*1 !! j = Some pc → pp.*1 !! j = Some pq → 0 <= o < PGSIZE → kmem_mem k2 (pc + o) = kmem_mem (k_mem s) (pq + o)) →
  let k' := Kmem (copied_tf (kmem_mem k2) ntf (p_trapframe p)) (kmem_freelist k2) in
  aspace k' fl2 root T2 (ext (base_map ntf) 0 cpp) (p_sz p) ntf cpp ∧
  (∀ (j : nat) pc pq o, cpp.*1 !! j = Some pc → pp.*1 !! j = Some pq → 0 <= o < PGSIZE → kmem_mem k' (pc + o) = kmem_mem (k_mem s) (pq + o)) ∧
  load64 (kmem_mem k') (ntf + TF_a 0) = 0 ∧
  (∀ o, 0 <= o < TF_SIZE → ¬ (TF_a 0 <= o < TF_a 1) → kmem_mem k' (ntf + o) = kmem_mem (k_mem s) (p_trapframe p + o)) ∧
  aspace k' fl2 old To fo (p_sz p) (p_trapframe p) pp ∧ unharmed end_ (k_mem s) fl k' fl2.
Proof.
  intros p Ha Hntf Hc U E2 Hb k'. set (tf := p_trapframe p) in *.
  destruct (as_page _ _ _ _ _ _ _ _ _ _ Ha tf ltac:(by left)) as (Htf & Htff & _). destruct (as_page _ _ _ _ _ _ _ _ _ _ Hc ntf ltac:(by left)) as (Hnt & _ & _).
  assert (ntf ≠ tf) as Hne by (intros E; apply Htff; by rewrite <- E).
  destruct (trapframe_copy (kmem_mem k2) ntf tf) as (Hout & Ha0 & Hin).
  { intros j Hj Hj2. apply (page_apart end_ tf ntf (tf + j)); [done|done|done| |]; change TF_SIZE with 288 in *; unfold PGSIZE; lia. }
  assert (∀ x, ¬ (ntf <= x < ntf + PGSIZE) → copied_tf (kmem_mem k2) ntf tf x = kmem_mem k2 x) as Hpg.
  { intros x Hx. apply Hout. change TF_SIZE with 288. unfold PGSIZE in Hx. lia. }
  destruct (write_tf _ _ _ _ _ _ _ _ _ _ _ Hc U Hntf Hpg) as [Hc' U'].
  split; [done|]. split; [|split; [done|split; [|split; [by eapply aspace_frame|done]]]].
  - intros j pc pq o Hi Hq Ho. rewrite <- (Hb j pc pq o) by done. apply Hpg.
    pose proof (as_nodup _ _ _ _ _ _ _ _ _ _ Hc) as Hnd. apply NoDup_cons in Hnd as [Hni _].
    assert (pc ∈ cpp.*1) as Hin2 by (by eapply list_elem_of_lookup_2). destruct (as_page _ _ _ _ _ _ _ _ _ _ Hc pc ltac:(by right)) as (Hpc & _).
    apply (page_apart end_ pc ntf); [done|done|by intros ->|lia].
  - intros o Ho Hn. etransitivity; [exact (Hin o Ho Hn)|]. apply (uh_mem _ _ _ _ _ U tf); [done|done|]. change TF_SIZE with 288 in Ho. unfold PGSIZE. lia.
Qed.

(** [fork] with the slot [np] that [allocproc] has filled. *)
Lemma fork_slot s i fl old To fo pp ip np t0 : fork_ready s i fl old To fo pp ip → (np < Z.to_nat NPROC)%nat → p_state (proc_at np s) = UNUSED →
  (∃ r, allocproc end_ trampoline forkret_addr (Thread [] s) = Ok r t0 ∧ allocated end_ trampoline forkret_addr [] s fl np r t0) →
  ∃ r t, fork end_ trampoline forkret_addr (Thread [] s) = Ok r t ∧ (r = -1 ∧ fork_failed s fl np t ∨ r = k_nextpid s ∧ fork_done s i fl old To fo pp ip np t).
Proof.
  intros [Ft Fc [Fi Fs] Fv [Fo Fa] [Fl Ff] Fw] Hnp Hun (r & Ea & Hall).
  assert (i ≠ np) as Hne by (intros ->; done). rewrite <- Ft in Hnp, Fi. set (p := proc_at i s) in *.
  unfold fork. rewrite (bind_Ok myproc _ _ i (Thread [] s)) by (unfold myproc; kstep; cbn [held st]; by rewrite Fc). rewrite (bind_Ok _ _ _ _ _ Ea).
  destruct Hall as [(k' & fl' & -> & -> & Hd)|(k1 & fl1 & ntf & root & Tn & tabs & -> & -> & Hc & L & Q & U)].
  { exists (-1). eexists. split; [reflexivity|]. left. split; [done|]. by apply (failed_handed s fl np k' fl' cleared). }
  assert (fresh (k_mem s) fl ntf k1 fl1 Tn) as Hfr by (split; [by exists tabs|done]).
  change (set_mem k1 _) with (half k1 (k_nextpid s + 1) np (born forkret_addr (k_nextpid s) ntf root) s). set (b := born forkret_addr (k_nextpid s) ntf root).
  do 2 kstep. cbn [st]. rewrite half_at by done.
  assert (proc_at i (half k1 (k_nextpid s + 1) np b s) = p) as -> by (rewrite forking_half; by apply forking_other).
  assert (p_pagetable (b (proc_at np s)) = root) as -> by (unfold b; by destruct (proc_at np s)). rewrite Fo.
  destruct (copy_run [L_proc np] (k_mem s) fl old To fo (p_sz p) (p_trapframe p) pp ntf k1 fl1 root Tn ltac:(lock_notin) Fa Hfr Hc)
    as [(k2 & fl2 & T2 & cpp & E2 & Hc2 & Ec & U2 & Hcp & Hb)|(k2 & fl2 & T2 & E2 & Hc2 & Hfr2)];
    rewrite <- (half_mem k1 (k_nextpid s + 1) np b s) in E2; rewrite (bind_Ok _ _ _ _ _ (onmem_run _ _ _ _ _ E2)), half_set.
  - change (0 <? 0) with false. cbv iota. destruct (Fv np ltac:(by rewrite <- Ft) Hun) as [_ Hof].
    pose proof (fork_tail_run s i np k2 (k_nextpid s + 1) (k_nextpid s) root ntf ip Fi Hnp Hne Hof Fl Ff Fw) as Et. fold p b in Et.
    exists (k_nextpid s). eexists. split; [exact Et|]. right. split; [done|].
    destruct (child_memory s fl i old To fo pp root ntf k2 fl2 T2 cpp) as (C1 & C2 & C3 & C4 & C5 & C6); try done; [rewrite L; by left|].
    by exists (Kmem (copied_tf (kmem_mem k2) ntf (p_trapframe p)) (kmem_freelist k2)), fl2, root, T2, ntf, cpp.
  - change (-1 <? 0) with true. cbv iota.
    destruct (freeproc_run end_ end_pos trampoline tramp_ok [L_proc np] (half k2 (k_nextpid s + 1) np b s) np fl2 root T2 (base_map ntf) 0 ntf []) as (k3 & fl3 & E3 & H3);
      [lock_notin|by rewrite half_len|by rewrite half_mem|rewrite half_at by done; unfold b; by destruct (proc_at np s)..| |].
    { rewrite half_at by done. destruct (Fv np ltac:(by rewrite <- Ft) Hun) as [(_ & _ & Vs) _]. rewrite <- Vs. unfold b. by destruct (proc_at np s). }
    rewrite (bind_Ok _ _ _ _ _ E3), (bind_Ok _ _ _ _ _ (punlock_run _ _ _)). exists (-1). eexists. split; [reflexivity|]. left. split; [done|].
    rewrite half_set, half_on. rewrite half_mem in H3. destruct (as_vm _ _ _ _ _ _ _ _ _ _ Fa) as [Hw _ _].
    apply (failed_handed s fl np k3 fl3); [|done|by destruct (b (proc_at np s))].
    eapply undo_space; [exact Hw|exact Hfr2| |exact H3]. intros q. cbn. rewrite elem_of_nil. tauto.
Qed.

Lemma fork_run s i fl old To fo pp ip : fork_ready s i fl old To fo pp ip →
  (∀ j, (j < Z.to_nat NPROC)%nat → p_state (proc_at j s) ≠ UNUSED) ∧ fork end_ trampoline forkret_addr (Thread [] s) = Ok (-1) (Thread [] s) ∨
  ∃ np r t, (np < Z.to_nat NPROC)%nat ∧ p_state (proc_at np s) = UNUSED ∧ fork end_ trampoline forkret_addr (Thread [] s) = Ok r t ∧
    (r = -1 ∧ fork_failed s fl np t ∨ r = k_nextpid s ∧ fork_done s i fl old To fo pp ip np t).
Proof.
  intros Hf. pose proof Hf as [Ft Fc [Fi Fs] Fv [Fo Fa] Ffl Fw]. pose proof (find_unused_run [] s Ft ltac:(intros j; apply not_elem_of_nil)) as Ef.
  destruct (list_find (λ p, p_state p = UNUSED) (k_procs s)) as [[np q]|] eqn:El.
  - right. apply list_find_Some in El as (Hq & Hst & _). pose proof (lookup_lt_Some _ _ _ Hq) as Hnp. pose proof Hnp as Hnp'. rewrite Ft in Hnp'.
    assert (proc_at np s = q) as Eq by (unfold proc_at; by rewrite Hq).
    destruct (allocproc_slot end_ end_pos trampoline tramp_ok forkret_addr [] s fl np) as (r & t0 & Ea & Hall); try done.
    + intros j. apply not_elem_of_nil.
    + apply not_elem_of_nil.
    + apply not_elem_of_nil.
    + apply Fa.
    + apply Fv; [done|by rewrite Eq].
    + destruct (fork_slot s i fl old To fo pp ip np t0 Hf Hnp' ltac:(by rewrite Eq) ltac:(by exists r)) as (r' & t & E & H). exists np, r', t. by rewrite Eq.
  - left. apply list_find_None in El. split.
    + intros j Hj. rewrite Forall_forall in El. apply El. unfold proc_at. rewrite <- Ft in Hj. destruct (lookup_lt_is_Some_2 _ _ Hj) as [q Hq]. rewrite Hq. cbn. by eapply list_elem_of_lookup_2.
    + unfold fork. rewrite (bind_Ok myproc _ _ i (Thread [] s)) by (unfold myproc; kstep; cbn [held st]; by rewrite Fc).
      assert (allocproc end_ trampoline forkret_addr (Thread [] s) = Ok None (Thread [] s)) as Ea by (unfold allocproc; by rewrite (bind_Ok _ _ _ _ _ Ef)). by rewrite (bind_Ok _ _ _ _ _ Ea).
Qed.

(** ** [wait] *)

Context (w : world).

Definition child (i : nat) (p : proc) : Prop := p_parent p = Some i.
Definition zombie_child (i : nat) (p : proc) : Prop := p_parent p = Some i ∧ p_state p = ZOMBIE.

#[local] Instance child_dec i p : Decision (child i p).
Proof. unfold child. apply _. Defined.

Lemma wait_scan_skip h s i addr idx : (∀ j, L_proc j ∉ h) → (∀ j, j ∈ idx → ¬ zombie_child i (proc_at j s)) → ∀ kids rest,
  wait_scan end_ (idx ++ rest) i addr kids (Thread h s) =
  wait_scan end_ rest i addr (kids || existsb (λ j, bool_decide (child i (proc_at j s))) idx) (Thread h s).
Proof.
  intros Hh. induction idx as [|j idx IH]; intros Hno kids rest; cbn [app existsb]; [by rewrite orb_false_r|].
  assert (∀ j, j ∈ idx → ¬ zombie_child i (proc_at j s)) as Hno' by (intros j' Hj'; apply Hno; by right).
  cbn [wait_scan]. kstep. cbn [st]. unfold child at 1. destruct (decide (p_parent (proc_at j s) = Some i)) as [Hp|Hp].
  - rewrite (bool_decide_true _ Hp), orb_true_l, orb_true_r. rewrite (bind_Ok _ _ _ _ _ (plock_run j h s (Hh j))). kstep. cbn [st].
    rewrite decide_False by (intros Hz; by apply (Hno j ltac:(by left))). rewrite (bind_Ok _ _ _ _ _ (punlock_run _ _ _)). by rewrite IH.
  - rewrite (bool_decide_false _ Hp). rewrite IH by done. done.
Qed.

(** The parent's copy of the status leaves the zombie's address space alone. *)
Lemma aspace_kernel k fl root T f sz tf pp k' root' T' f' : aspace k fl root T f sz tf pp → uspace end_ k fl root' T' f' → uspace end_ k' fl root' T' f' → kernel_same f' (kmem_mem k) (kmem_mem k') →
  (∀ v, can_read f' v → ¬ is_tab T (PTE2PA (f' v))) → aspace k' fl root T f sz tf pp.
Proof.
  intros [V M P N G Z0 Tp] U U' Hs Hsep.
  assert (∀ p x, is_tab T p → p <= x < p + PGSIZE → kmem_mem k' x = kmem_mem k x) as Hx.
  { intros p x Ht Hx. apply Hs. intros v Hv. destruct (uo_page _ _ _ _ (us_user _ _ _ _ _ _ U) v Hv) as (Hpo & _). pose proof Ht as [π Hp].
    apply (page_apart end_ p (PTE2PA (f' v)) x); [by apply (pr_dom _ _ _ _ (vo_rep _ _ _ _ _ V) _ _ Hp)|done| |done]. intros ->. by apply (Hsep v Hv). }
  split; try done.
  - split; [apply U'|eapply pt_rep_frame; [apply V|done]|apply V].
  - intros va Hva. rewrite <- M by done. eapply pte_at_frame; [apply V|done].
Qed.

(** The pages of a zombie: its trapframe, its memory, its table. *)
Definition pages_of tf (pp : list (Z * Z)) T (q : Z) : Prop := q = tf ∨ q ∈ pp.*1 ∨ is_tab T q.

(** The zombie [c] has an address space of its own, apart from the caller's memory [f]. *)
Definition zombie_space k fl (f : Z → Z) (c : proc) T (pp : list (Z * Z)) : Prop :=
  ∃ fc, aspace k fl (p_pagetable c) T fc (p_sz c) (p_trapframe c) pp ∧ ∀ v, can_read f v → ¬ pages_of (p_trapframe c) pp T (PTE2PA (f v)).

(** The status in the caller's memory [f], if it wants it. *)
Definition status_stored (f : Z → Z) m m' (addr x : Z) : Prop :=
  if addr =? 0 then m' = m else ustored f m m' addr (le_bytes 4 x) ∧ kernel_same f m m'.

(** [wait] found the zombie [j]. *)
Definition reaped s fl (f : Z → Z) addr (j : nat) T pp (r : Z) (t : thread K) : Prop := let c := proc_at j s in
  (r = -1 ∧ addr ≠ 0 ∧ (∃ x, addr <= x < addr + 4 ∧ ¬ can_write f x) ∧ ∃ k1, t = Thread [] (set_mem k1 s) ∧ kernel_same f (kmem_mem (k_mem s)) (kmem_mem k1)) ∨
  (r = p_pid c ∧ ∃ k1 k2 fl2, t = Thread [] (on_proc j cleared (set_mem k2 s)) ∧ status_stored f (kmem_mem (k_mem s)) (kmem_mem k1) addr (p_xstate c) ∧
     handed end_ (pages_of (p_trapframe c) pp T) k1 fl k2 fl2 ∧ ∀ x, can_read f x → ubyte (kmem_mem k2) f x = ubyte (kmem_mem k1) f x).

(** The copy of the status. *)
Lemma status_run h s fl root T f addr x : uspace end_ (k_mem s) fl root T f → 0 <= addr < 2 ^ 64 →
  ∃ r k1, (if negb (addr =? 0) then onmem (copyout root addr (le_bytes 4 x)) else ret 0) (Thread h s) = Ok r (Thread h (set_mem k1 s)) ∧
    uspace end_ k1 fl root T f ∧ kernel_same f (kmem_mem (k_mem s)) (kmem_mem k1) ∧
    (r = 0 ∧ status_stored f (kmem_mem (k_mem s)) (kmem_mem k1) addr x ∨ r = -1 ∧ addr ≠ 0 ∧ ∃ y, addr <= y < addr + 4 ∧ ¬ can_write f y).
Proof.
  intros Hu Ha. unfold status_stored. destruct (Z.eqb_spec addr 0) as [->|Hz]; cbn [negb].
  - exists 0, (k_mem s). split; [unfold ret; by destruct s|]. split; [done|]. split; [done|]. by left.
  - destruct (copyout_loop_run end_ end_pos h fl root T f _ addr (le_bytes 4 x) (k_mem s) Hu Ha (copy_fuel_enough addr (Z.of_nat (length (le_bytes 4 x))) ltac:(lia)))
      as (r & k1 & E & Hu1 & Hs & Hr). exists r, k1. split; [by apply onmem_run|]. split; [done|]. split; [done|].
    rewrite length_le_bytes in Hr. destruct Hr as [(-> & _ & Hst)|(-> & Hx)]; [by left|by right].
Qed.

Lemma reap_run s i addr j rest kids fl root T f Tc pp : table_ok s → (j < Z.to_nat NPROC)%nat → zombie_child i (proc_at j s) →
  p_pagetable (proc_at i s) = root → uspace end_ (k_mem s) fl root T f → 0 <= addr < 2 ^ 64 → zombie_space (k_mem s) fl f (proc_at j s) Tc pp →
  ∃ r t, wait_scan end_ (j :: rest) i addr kids (Thread [L_wait] s) = Ok (inr r) t ∧ reaped s fl f addr j Tc pp r t.
Proof.
  intros Ht Hj [Hpar Hst] Hrt Hu Haddr (fc & Ha & Hsep). rewrite <- Ht in Hj. set (c := proc_at j s) in *.
  cbn [wait_scan]. kstep. cbn [st]. fold c. rewrite decide_True by done. rewrite (bind_Ok _ _ _ _ _ (plock_run j [L_wait] s ltac:(lock_notin))).
  kstep. cbn [st]. fold c. rewrite decide_True by done. kstep. cbn [st]. rewrite Hrt.
  destruct (status_run [L_proc j; L_wait] s fl root T f addr (p_xstate c) Hu Haddr) as (r & k1 & E1 & Hu1 & Hs1 & Hr). rewrite (bind_Ok _ _ _ _ _ E1).
  destruct Hr as [[-> Hsto]|(-> & Hz & Hx)].
  - change (0 <? 0) with false. cbv iota.
    assert (aspace k1 fl (p_pagetable c) Tc fc (p_sz c) (p_trapframe c) pp) as Ha1.
    { eapply aspace_kernel; [exact Ha|exact Hu|exact Hu1|exact Hs1|]. intros v Hv Htab. apply (Hsep v Hv). by right; right. }
    destruct (freeproc_run end_ end_pos trampoline tramp_ok [L_proc j; L_wait] (set_mem k1 s) j fl (p_pagetable c) Tc fc (p_sz c) (p_trapframe c) pp) as (k2 & fl2 & E2 & H2);
      [lock_notin|by destruct s|by rewrite set_mem_mem|by rewrite proc_at_set_mem..|].
    rewrite (bind_Ok _ _ _ _ _ E2), (bind_Ok _ _ _ _ _ (punlock_run _ _ _)). kstep. eexists _, _. split; [reflexivity|]. right. split; [done|].
    rewrite set_mem_mem in H2. exists k1, k2, fl2. rewrite set_mem_twice. split; [done|]. split; [done|]. split; [exact H2|].
    intros x Hx. destruct (uo_page _ _ _ _ (us_user _ _ _ _ _ _ Hu) x Hx) as (Hp & Hf & _). unfold ubyte.
    apply (hd_mem _ _ _ _ _ _ H2 (PTE2PA (f x))); [done|done|by apply Hsep|]. pose proof (Z.mod_pos_bound x PGSIZE ltac:(done)). lia.
  - change (-1 <? 0) with true. cbv iota. rewrite (bind_Ok _ _ _ _ _ (punlock_run _ _ _)). kstep. eexists _, _. split; [reflexivity|]. left. split; [done|]. split; [done|]. split; [done|]. by exists k1.
Qed.

(** The first zombie in the order of the table. *)
Lemma first_zombie i s : (∀ j, (j < Z.to_nat NPROC)%nat → ¬ zombie_child i (proc_at j s)) ∨
  ∃ j, (j < Z.to_nat NPROC)%nat ∧ zombie_child i (proc_at j s) ∧ ∀ j', (j' < j)%nat → ¬ zombie_child i (proc_at j' s).
Proof.
  assert (∀ j, Decision (zombie_child i (proc_at j s))) as Hdec by (intros j; unfold zombie_child; apply _).
  generalize (Z.to_nat NPROC). intros n. induction n as [|n [IH|(j & Hj & Hz)]].
  - left. lia.
  - destruct (Hdec n) as [Hz|Hz].
    + right. exists n. split; [lia|]. split; [done|]. intros j' Hj'. by apply IH.
    + left. intros j Hj. destruct (decide (j = n)) as [->|]; [done|]. apply IH. lia.
  - right. exists j. split; [lia|done].
Qed.

Lemma scan_all i s addr : (∀ j, (j < Z.to_nat NPROC)%nat → ¬ zombie_child i (proc_at j s)) → ∃ kids : bool,
  wait_scan end_ procs_idx i addr false (Thread [L_wait] s) = Ok (inl kids) (Thread [L_wait] s) ∧
  (kids = true ↔ ∃ j, (j < Z.to_nat NPROC)%nat ∧ child i (proc_at j s)).
Proof.
  intros Hno. pose proof (wait_scan_skip [L_wait] s i addr procs_idx ltac:(intros j; lock_notin) ltac:(intros j Hj%procs_idx_elem; by apply Hno) false []) as E.
  rewrite app_nil_r in E. cbn [orb] in E. eexists. split; [exact E|]. rewrite existsb_exists. split.
  - intros (j & Hj & Hc%bool_decide_eq_true). exists j. split; [|done]. apply procs_idx_elem. by apply list_elem_of_In.
  - intros (j & Hj & Hc). exists j. split; [|by apply bool_decide_eq_true]. apply list_elem_of_In. by apply procs_idx_elem.
Qed.

Lemma procs_split j : (j < Z.to_nat NPROC)%nat → procs_idx = seq 0 j ++ j :: seq (S j) (Z.to_nat NPROC - S j).
Proof. intros Hj. unfold procs_idx. replace (Z.to_nat NPROC) with (j + S (Z.to_nat NPROC - S j))%nat at 1 by lia. by rewrite seq_app. Qed.

Lemma killed_run i s : killed i (Thread [L_wait] s) = Ok (p_killed (proc_at i s)) (Thread [L_wait] s).
Proof. unfold killed. rewrite (bind_Ok _ _ _ _ _ (plock_run i [L_wait] s ltac:(lock_notin))). kstep. by rewrite (bind_Ok _ _ _ _ _ (punlock_run _ _ _)). Qed.

(** Nobody to wait for, or killed. *)
Lemma wait_loop_leave env i addr s (kids : bool) n : wait_scan end_ procs_idx i addr false (Thread [L_wait] s) = Ok (inl kids) (Thread [L_wait] s) →
  (if kids then killed i else ret 1) (Thread [L_wait] s) = Ok n (Thread [L_wait] s) → n ≠ 0 → wait_loop end_ env i addr (Thread [L_wait] s) = Ok (-1) (Thread [] s).
Proof.
  intros Es Ek Hn. assert (truth n = true) as Hb by (unfold truth; by rewrite (proj2 (Z.eqb_neq _ _) Hn)).
  destruct env; cbn [wait_loop]; rewrite (bind_Ok _ _ _ _ _ Es), (bind_Ok _ _ _ _ _ Ek), Hb, (bind_Ok _ _ _ _ _ (release_Ok _ _ _)); reflexivity.
Qed.

(** Somebody to wait for. *)
Lemma wait_loop_sleep env i addr s : wait_scan end_ procs_idx i addr false (Thread [L_wait] s) = Ok (inl true) (Thread [L_wait] s) →
  killed i (Thread [L_wait] s) = Ok 0 (Thread [L_wait] s) →
  wait_loop end_ env i addr (Thread [L_wait] s) =
    match env with
    | [] => Asleep (Thread [L_wait] s)
    | e :: env => (sleep e (CH_proc i) L_wait ;;; wait_loop end_ env i addr) (Thread [L_wait] s)
    end.
Proof. intros Es Ek. destruct env; cbn [wait_loop]; rewrite (bind_Ok _ _ _ _ _ Es), (bind_Ok _ _ _ _ _ Ek); reflexivity. Qed.

Lemma wait_run s (i : nat) (addr : Z) fl (root : Z) T (f : Z → Z) (Tc : nat → gmap (list Z) Z) (pc : nat → list (Z * Z)) : table_ok s → k_cur s = Some i → (i < Z.to_nat NPROC)%nat → p_pagetable (proc_at i s) = root → uspace end_ (k_mem s) fl root T f → 0 <= addr < 2 ^ 64 →
  (∀ j, (j < Z.to_nat NPROC)%nat → zombie_child i (proc_at j s) → zombie_space (k_mem s) fl f (proc_at j s) (Tc j) (pc j)) →
  (∃ j r t, (j < Z.to_nat NPROC)%nat ∧ zombie_child i (proc_at j s) ∧ (∀ j', (j' < j)%nat → ¬ zombie_child i (proc_at j' s)) ∧
     wait end_ w addr (Thread [] s) = Ok r t ∧ reaped s fl f addr j (Tc j) (pc j) r t) ∨
  ((∀ j, (j < Z.to_nat NPROC)%nat → ¬ zombie_child i (proc_at j s)) ∧
   let kids := ∃ j, (j < Z.to_nat NPROC)%nat ∧ child i (proc_at j s) in
   (wait end_ w addr (Thread [] s) = Ok (-1) (Thread [] s) ∧ (¬ kids ∨ p_killed (proc_at i s) ≠ 0)) ∨
   (kids ∧ p_killed (proc_at i s) = 0 ∧ wait end_ w addr (Thread [] s) =
      match w_sleep w s with
      | [] => Asleep (Thread [L_wait] s)
      | e :: env => (sleep e (CH_proc i) L_wait ;;; wait_loop end_ env i addr) (Thread [L_wait] s)
      end)).
Proof.
  intros Ht Hc Hi Hrt Hu Haddr Hsp.
  assert (wait end_ w addr (Thread [] s) = wait_loop end_ (w_sleep w s) i addr (Thread [L_wait] s)) as Ew.
  { unfold wait. rewrite (bind_Ok myproc _ _ i (Thread [] s)) by (unfold myproc; kstep; cbn [held st]; by rewrite Hc). by do 2 kstep. }
  rewrite Ew. destruct (first_zombie i s) as [Hno|(j & Hj & Hz & Hfirst)].
  - right. split; [done|]. destruct (scan_all i s addr Hno) as (kids & Es & Hk).
    pose proof (killed_run i s) as Ek.
    destruct kids.
    + destruct (Z.eqb_spec (p_killed (proc_at i s)) 0) as [Ez|Hnz].
      * right. split; [by apply Hk|]. split; [done|]. rewrite Ez in Ek. by apply wait_loop_sleep.
      * left. split; [|by right]. by eapply (wait_loop_leave _ i addr s true).
    + left. split; [|left; intros Hk'; by apply Hk in Hk']. by eapply (wait_loop_leave _ i addr s false 1).
  - left. pose proof (Hsp j Hj Hz) as Hzs.
    destruct (reap_run s i addr j (seq (S j) (Z.to_nat NPROC - S j)) (false || existsb (λ j, bool_decide (child i (proc_at j s))) (seq 0 j)) fl root T f (Tc j) (pc j) Ht Hj Hz Hrt Hu Haddr Hzs) as (r & t & E & Hr).
    exists j, r, t. split; [done|]. split; [done|]. split; [done|]. split; [|done].
    rewrite <- (wait_scan_skip [L_wait] s i addr (seq 0 j)) in E; [|intros j'; lock_notin|intros j' Hj'%elem_of_seq; apply Hfirst; lia].
    rewrite <- procs_split in E by done. destruct (w_sleep w s); cbn [wait_loop]; by rewrite (bind_Ok _ _ _ _ _ E).
Qed.

(** ** The whole life of a child *)

(** The user's part of an address space. *)
Lemma aspace_user k fl root T f sz tf pp va : aspace k fl root T f sz tf pp → can_read f va →
  ∃ (i : nat) q fg, pp !! i = Some (q, fg) ∧ va / PGSIZE = Z.of_nat i ∧ f va = Z.lor (PA2PTE q) fg ∧ 0 <= fg < 1024.
Proof.
  intros Ha (Hva & HV & HU). destruct (decide (in_range 0 (Z.of_nat (length pp)) va)) as [Hin|Hout].
  - assert (0 <= va / PGSIZE < Z.of_nat (length pp)) as Hd.
    { unfold in_range in Hin. split; [apply Z.div_pos; [lia|done]|apply Z.div_lt_upper_bound; [done|lia]]. }
    destruct (lookup_lt_is_Some_2 pp (Z.to_nat (va / PGSIZE)) ltac:(lia)) as [[q fg] Hi]. exists (Z.to_nat (va / PGSIZE)), q, fg.
    destruct (as_pte _ _ _ _ _ _ _ _ _ _ Ha _ q fg Hi) as (Ef & Hfg & _). rewrite Z2Nat.id in Ef by lia. split; [done|]. split; [lia|]. split; [|done].
    rewrite <- Ef. apply (maps_page k T f); [apply Ha|done| |].
    + unfold PGSIZE in *. pose proof (Z.mul_div_le va 4096 ltac:(lia)). lia.
    + unfold same_page. by rewrite Z.div_mul.
  - exfalso. rewrite (as_top _ _ _ _ _ _ _ _ _ _ Ha va Hout Hva) in HU.
    assert (∀ pa perm, pa_ok pa → 0 <= perm < 1024 → has perm PTE_U = false → has (mk_pte pa perm) PTE_U = false) as Hno.
    { intros pa perm Hp Hr Hu. rewrite mk_pte_has by done. by rewrite Hu. }
    destruct (as_page _ _ _ _ _ _ _ _ _ _ Ha tf ltac:(by left)) as (Htf & _). pose proof (page_ok_pa end_ end_pos _ Htf) as [Htf1 Htf2]. destruct Htf as [_ Htf3].
    unfold base_map, tramp_map, map_range in HU.
    assert (∀ a, in_range a 1 va → page_off a va = 0) as Hoff by (intros a Hin; unfold page_off, in_range in *; rewrite Z.div_small by lia; done).
    case_decide as D1; [rewrite Hoff, Z.add_0_r, Hno in HU by done; done|]. case_decide as D2; [|done].
    rewrite (Hoff _ D2), Z.add_0_r in HU. rewrite Hno in HU; [discriminate HU| |split; reflexivity || done|reflexivity].
    split; [apply tramp_ok|unfold PGSIZE in *; lia].
Qed.

Lemma aspace_uspace k fl root T f sz tf pp : aspace k fl root T f sz tf pp → uspace end_ k fl root T f ∧ ∀ v, can_read f v → PTE2PA (f v) ∈ pp.*1.
Proof.
  intros Ha. assert (∀ v, can_read f v → ∃ i : nat, pp.*1 !! i = Some (PTE2PA (f v)) ∧ v / PGSIZE = Z.of_nat i) as Hu.
  { intros v Hv. destruct (aspace_user _ _ _ _ _ _ _ _ _ Ha Hv) as (i & q & fg & Hi & Ei & Ef & Hfg). exists i. split; [|done].
    assert (q ∈ pp.*1) as Hin by (eapply (list_elem_of_lookup_2 _ i); by rewrite list_lookup_fmap, Hi).
    destruct (as_page _ _ _ _ _ _ _ _ _ _ Ha q ltac:(by right)) as (Hq & _). rewrite Ef, PTE2PA_pte by (by apply (page_ok_pa end_ end_pos) || done).
    by rewrite list_lookup_fmap, Hi. }
  assert (∀ v, can_read f v → PTE2PA (f v) ∈ pp.*1) as Hin by (intros v Hv; destruct (Hu v Hv) as (i & Hi & _); by eapply list_elem_of_lookup_2).
  split; [|done]. split; [apply Ha|apply Ha|]. split.
  - intros v Hv. apply (as_page _ _ _ _ _ _ _ _ _ _ Ha). right. by apply Hin.
  - intros v v' Hv Hv' E. destruct (Hu v Hv) as (i & Hi & Ei), (Hu v' Hv') as (i' & Hi' & Ei'). rewrite E in Hi.
    pose proof (as_nodup _ _ _ _ _ _ _ _ _ _ Ha) as Hnd. apply NoDup_cons in Hnd as [_ Hnd]. assert (i = i') as -> by (by eapply NoDup_lookup). unfold same_page. lia.
Qed.

(** The child [np] has exited with the status [x]. *)
Definition exited (np : nat) (x : Z) s : K := on_proc np (λ p, set_state ZOMBIE (set_xstate x p)) s.

Lemma child_returned k0 fl tf pp T k1 fl1 k2 fl2 : kmem_wf end_ k0 fl → child_pages fl tf pp T fl1 → unharmed end_ k0 fl k1 fl1 → handed end_ (pages_of tf pp T) k1 fl1 k2 fl2 → handed end_ (λ _, False) k0 fl k2 fl2.
Proof.
  intros (_ & Hn & _) (tabs & L & Q) [W1 F1 M1] [W (qs & L2 & Q2) F].
  assert (∀ q, q ∈ qs ↔ q ∈ tf :: tabs ++ pp.*1) as Hqs by (intros q; rewrite Q2; unfold pages_of; rewrite Q, elem_of_cons, elem_of_app; tauto).
  split; [done| |].
  - exists []. split; [|intros q; rewrite elem_of_nil; tauto]. cbn [app]. rewrite L2, L, app_comm_cons. apply Permutation_app_tail.
    rewrite L, app_comm_cons in Hn. apply NoDup_app in Hn as (Hn & _). destruct W as (_ & W & _). rewrite L2 in W. apply NoDup_app in W as (W & _).
    by apply NoDup_Permutation.
  - intros q x Hq Hf _ Hx. assert (q ∉ (tf :: tabs ++ pp.*1) ++ fl1) as Hno by (rewrite <- app_comm_cons, <- L; done). rewrite elem_of_app in Hno.
    rewrite (F q x), (M1 q x); try tauto. rewrite <- Q2, Hqs. tauto.
Qed.

Lemma forking_table F fs k n np g s : table_ok s → table_ok (forking F fs k n np g s).
Proof. unfold table_ok. by rewrite forking_len. Qed.

Lemma fork_wait_run s i fl old To fo pp ip np t x : fork_ready s i fl old To fo pp ip → (∀ j, (j < Z.to_nat NPROC)%nat → ¬ child i (proc_at j s)) →
  (np < Z.to_nat NPROC)%nat → p_state (proc_at np s) = UNUSED → fork_done s i fl old To fo pp ip np t →
  ∃ s1 s3 fl3, t = Thread [] s1 ∧ wait end_ w 0 (Thread [] (exited np x s1)) = Ok (k_nextpid s) (Thread [] s3) ∧
    handed end_ (λ _, False) (k_mem s) fl (k_mem s3) fl3 ∧ p_state (proc_at np s3) = UNUSED ∧ vacant (proc_at np s3) ∧
    ∀ j, j ≠ np → proc_at j s3 = proc_at j s.
Proof.
  intros [Ft Fc [Fi Fs] Fv [Fo Fa] Ff Fw] Hno Hnp Hun (k1 & fl1 & root & T & tf & cpp & -> & Hc & Ec & _ & _ & _ & Hp & U & Hcp).
  assert (i ≠ np) as Hne by (intros ->; done). set (p := proc_at i s) in *. set (F := upd_inode _ _ _). set (fs := bumped _ _).
  set (g := child_of i (k_nextpid s) root tf ip p). set (s1 := forking F fs k1 (k_nextpid s + 1) np g s). exists s1.
  assert (exited np x s1 = forking F fs k1 (k_nextpid s + 1) np (λ q, set_state ZOMBIE (set_xstate x (g q))) s) as Es2 by exact (forking_on F fs k1 _ np (λ q, set_state ZOMBIE (set_xstate x q)) g s).
  set (g2 := λ q, set_state ZOMBIE (set_xstate x (g q))) in Es2. rewrite Es2. pose proof Hnp as Hnl. rewrite <- Ft in Hnl.
  set (s2 := forking F fs k1 (k_nextpid s + 1) np g2 s). assert (∀ j, j ≠ np → proc_at j s2 = proc_at j s) as Hoth by (intros j Hj; by apply forking_other).
  assert (proc_at np s2 = g2 (proc_at np s)) as Hat by (by apply forking_at).
  destruct (aspace_uspace _ _ _ _ _ _ _ _ Hp) as [Hus Hin].
  assert (k_mem s2 = k1) as Em by apply forking_mem.
  assert (zombie_space (k_mem s2) fl1 fo (proc_at np s2) T cpp) as Hz.
  { rewrite Em, Hat. exists (ext (base_map tf) 0 cpp). split; [exact Hc|]. intros v Hv. specialize (Hin v Hv).
    destruct (as_page _ _ _ _ _ _ _ _ _ _ Fa (PTE2PA (fo v)) ltac:(by right)) as (_ & Hnf & _). destruct Hcp as (tabs & L & Q). unfold pages_of. cbn. rewrite Q.
    intros Hq. apply Hnf. rewrite L, elem_of_cons, !elem_of_app. tauto. }
  destruct (wait_run s2 i 0 fl1 old To fo (λ _, T) (λ _, cpp)) as [(j & r & t & Hj & Hzj & _ & E & Hr)|[Hnz _]].
  - by apply forking_table.
  - unfold s2, forking, half. by destruct s.
  - done.
  - by rewrite Hoth.
  - by rewrite Em.
  - lia.
  - intros j Hj [Hpar _]. destruct (decide (j = np)) as [->|Hjn]; [exact Hz|]. rewrite Hoth in Hpar by done. by apply Hno in Hj.
  - assert (j = np) as ->. { destruct (decide (j = np)); [done|]. destruct Hzj as [Hpar _]. rewrite Hoth in Hpar by done. by apply Hno in Hj. }
    destruct Hr as [(_ & Hz0 & _)|(-> & k1' & k2 & fl2 & -> & Hst & Hh & _)]; [done|]. unfold status_stored in Hst. rewrite Z.eqb_refl, Em in Hst.
    rewrite Hat in Hh, E. change (p_trapframe (g2 (proc_at np s))) with tf in Hh. change (p_pid (g2 (proc_at np s))) with (k_nextpid s) in E.
    assert (handed end_ (pages_of tf cpp T) k1 fl1 k2 fl2) as Hh1.
    { destruct Hh as [H1 H2 H3]. split; [done|done|]. intros q y Hq Hf Hn Hy. rewrite <- Hst. by apply (H3 q). }
    exists (on_proc np cleared (set_mem k2 s2)), fl2. split; [done|]. split; [exact E|]. split; [|split; [|split]].
    + rewrite k_mem_on_proc, set_mem_mem. eapply child_returned; [apply Fa|exact Hcp|exact U|exact Hh1].
    + rewrite on_proc_same by (unfold s2, forking, half; destruct s; cbn; by rewrite length_insert). done.
    + rewrite on_proc_same by (unfold s2, forking, half; destruct s; cbn; by rewrite length_insert). done.
    + intros j' Hj'. rewrite on_proc_other by done. rewrite proc_at_set_mem. by apply Hoth.
  - exfalso. apply (Hnz np Hnp). rewrite Hat. done.
Qed.
End life.

(** ** Properties *)

(** C12: [fork] gives the caller a child or fails, and fails cleanly.  With no free slot it
    returns -1 and nothing has changed.  Otherwise it returns -1, and then no slot is
    taken, the free list holds the same pages as before and no page in use was
    written; or it returns a new pid, and then one free slot holds a runnable child of the
    caller with the caller's size, open files, directory and name, an address space of
    pages of its own at the caller's addresses with the caller's flags and bytes, and a
    trapframe with the caller's registers but 0 in [a0]; the caller's own space, every other
    process and all memory in use are as before; every open file has one more
    reference for each descriptor of the child, and the directory has one more. *)
Theorem fork_correct end_ (end_pos : 0 < end_) trampoline forkret_addr s i fl old To fo pp ip :
  0 <= trampoline ∧ trampoline mod PGSIZE = 0 ∧ trampoline + PGSIZE <= 2 ^ 54 →
  fork_ready end_ trampoline s i fl old To fo pp ip →
  ((∀ j, (j < Z.to_nat NPROC)%nat → p_state (proc_at j s) ≠ UNUSED) ∧ fork end_ trampoline forkret_addr (Thread [] s) = Ok (-1) (Thread [] s)) ∨
  ∃ np r s', (np < Z.to_nat NPROC)%nat ∧ p_state (proc_at np s) = UNUSED ∧ fork end_ trampoline forkret_addr (Thread [] s) = Ok r (Thread [] s') ∧
    (∀ j, j ≠ np → proc_at j s' = proc_at j s) ∧
    ((r = -1 ∧ fork_failed end_ s fl np (Thread [] s') ∧ k_files s' = k_files s ∧ k_fs s' = k_fs s) ∨
     (r = k_nextpid s ∧ fork_done end_ trampoline forkret_addr s i fl old To fo pp ip np (Thread [] s') ∧
      ∀ f, (f < length (k_files s))%nat → f_ref (file_at f s') = f_ref (file_at f s) + Z.of_nat (length (filter (λ o, o = Some f) (p_ofile (proc_at i s)))))).
Proof.
  intros Ht Hf. destruct (fork_run end_ end_pos trampoline forkret_addr Ht s i fl old To fo pp ip Hf) as [?|(np & r & t & Hnp & Hun & E & H)]; [by left|right].
  destruct H as [[-> Hfail]|[-> Hdone]].
  - pose proof Hfail as (k' & fl' & q & -> & _). exists np, (-1). eexists. split; [done|]. split; [done|]. split; [exact E|]. split; [|left; split; [done|]; split; [done|]; by destruct s].
    intros j Hj. rewrite forking_half. by apply forking_other.
  - pose proof Hdone as (k' & fl' & root & T & tf & cpp & -> & _). exists np, (k_nextpid s). eexists. split; [done|]. split; [done|]. split; [exact E|]. split; [|right; split; [done|]; split; [done|]].
    + intros j Hj. by apply forking_other.
    + intros f Hl. unfold file_at at 1. replace (k_files _) with (bumped (p_ofile (proc_at i s)) (k_files s)) by by destruct s. by apply bumped_ref.
Qed.

(** C13: [wait] on every branch.  A caller with a zombie child gets the first one of the
    table: its pid is returned, its status is in the caller's memory if an address was
    given, its slot is free and every page it had (memory, page table, trapframe) is in
    the free list again, once, with the caller's memory unharmed; unless the status cannot be
    written there, and then -1 is returned and the zombie stays.  A caller without children,
    or one that was killed, gets -1 and nothing changes; any other sleeps on its own
    channel with [wait_lock] given up, and scans again when it is woken. *)
Theorem wait_correct end_ (end_pos : 0 < end_) trampoline w s i addr fl root T f Tc pc :
  0 <= trampoline ∧ trampoline mod PGSIZE = 0 ∧ trampoline + PGSIZE <= 2 ^ 54 →
  table_ok s → k_cur s = Some i → (i < Z.to_nat NPROC)%nat → p_pagetable (proc_at i s) = root → uspace end_ (k_mem s) fl root T f → 0 <= addr < 2 ^ 64 →
  (∀ j, (j < Z.to_nat NPROC)%nat → zombie_child i (proc_at j s) → zombie_space end_ trampoline (k_mem s) fl f (proc_at j s) (Tc j) (pc j)) →
  (∃ j r t, (j < Z.to_nat NPROC)%nat ∧ zombie_child i (proc_at j s) ∧ (∀ j', (j' < j)%nat → ¬ zombie_child i (proc_at j' s)) ∧
     wait end_ w addr (Thread [] s) = Ok r t ∧ reaped end_ s fl f addr j (Tc j) (pc j) r t) ∨
  ((∀ j, (j < Z.to_nat NPROC)%nat → ¬ zombie_child i (proc_at j s)) ∧
   let kids := ∃ j, (j < Z.to_nat NPROC)%nat ∧ child i (proc_at j s) in
   (wait end_ w addr (Thread [] s) = Ok (-1) (Thread [] s) ∧ (¬ kids ∨ p_killed (proc_at i s) ≠ 0)) ∨
   (kids ∧ p_killed (proc_at i s) = 0 ∧ wait end_ w addr (Thread [] s) =
      match w_sleep w s with
      | [] => Asleep (Thread [L_wait] s)
      | e :: env => (sleep e (CH_proc i) L_wait ;;; wait_loop end_ env i addr) (Thread [L_wait] s)
      end)).
Proof. intros Ht. by apply (wait_run end_ end_pos trampoline Ht w s i addr fl root T f Tc pc). Qed.

