(* ===== verification/LifeInst.v ===== *)
(** * The life of a process on a concrete kernel

    A kernel with free memory, one process made by [allocproc] and [uvmalloc] in it, and
    the theorems about [fork] and [wait] there. *)

From S2P Require Import Prelude CString Riscv Kalloc Vm VmTable VmMap VmCopy VmAlloc VmFree VmInst Param FsDisk Bio Log LogSys.
From S2P Require Import BlockLayer BlockLog Fs FsInst Pipe Kernel Printf Proc ProcSpec ProcSpace Console Files Life LifeSpec.

Definition TRAMP : Z := 0x80001000.

Lemma tramp_fact : 0 <= TRAMP ∧ TRAMP mod PGSIZE = 0 ∧ TRAMP + PGSIZE <= 2 ^ 54.
Proof. done. Qed.

(** One inode in use, the root. *)
Definition root_only : fs lstate :=
  Fs (LState (Bio [] (λ _, zero_block) []) log_boot) sb200 [Inode ROOTDEV 1 1 true T_DIR 0 0 1 0 (replicate NADDRS 0)] [].

(** No process yet; one open file; [n] free pages. *)
Definition vacant_kernel (n : nat) : K :=
  Kernel (free_mem (pgs n)) root_only (replicate 64 proc0) 1 None None (<[0%nat := set_readable true (set_ref 1 file0)]> (replicate 100 file0)) (λ _, init_pipe []) 0
    (Console (replicate 128 0) 0 0 0) (Uart (replicate 32 0) 0 0 [] [] []) true.

Definition CTX : Z := 0x80000abc.

(** The first process: it runs, file 0 is its descriptor 0, and its directory is the root. *)
Definition first_proc (sz : Z) (p : proc) : proc :=
  set_sz sz (set_cwd (Some 0%nat) (set_ofile (<[0%nat := Some 0%nat]> (replicate 16 None)) (set_state RUNNING p))).

Definition caller_state (k : kmem) (sz : Z) (s : K) : K := on_proc 0 (first_proc sz) (set_mem k (set_cur (Some 0%nat) s)).

(** Its slot after [allocproc]. *)
Definition made_proc (tf root : Z) : proc := born CTX 1 tf root proc0.

Definition made_state (n : nat) (k : kmem) (tf root : Z) : K := set_mem k (set_nextpid 2 (on_proc 0 (born CTX 1 tf root) (vacant_kernel n))).

Lemma no_locks : no_plock [].
Proof. by intros i ?%not_elem_of_nil. Qed.

Lemma vacant_find n : find_unused (Thread [] (vacant_kernel n)) = Ok (Some 0%nat) (Thread [L_proc 0] (vacant_kernel n)).
Proof. reflexivity. Qed.

(** The first process has an address space of its own. *)
Lemma first_process n : (n <= 1000)%nat → code (allocproc END TRAMP CTX (Thread [] (vacant_kernel n))) = Some (Some 0%nat) →
  ∃ k fl tf root T, allocproc END TRAMP CTX (Thread [] (vacant_kernel n)) = Ok (Some 0%nat) (Thread [L_proc 0] (made_state n k tf root)) ∧
    aspace END TRAMP k fl root T (base_map TRAMP tf) 0 tf [].
Proof.
  intros Hn Hc.
  destruct (allocproc_slot END ltac:(done) TRAMP tramp_fact CTX [] (vacant_kernel n) (pgs n) 0) as (r & t & E & H); try done; try (by apply not_elem_of_nil).
  - by intros i ?%not_elem_of_nil.
  - by apply pgs_wf.
  - apply Nat.ltb_lt. reflexivity.
  - rewrite E in Hc. destruct H as [(k & fl & -> & -> & _)|(k & fl & tf & root & T & tabs & -> & -> & Ha & _)]; [done|]. by exists k, fl, tf, root, T.
Qed.

Lemma others_vacant n k0 k tf root sz j : proc_at (S j) (caller_state k sz (made_state n k0 tf root)) = proc0.
Proof.
  change (default proc0 (replicate 63 proc0 !! j) = proc0). destruct (replicate 63 proc0 !! j) as [p|] eqn:E; [|done]. by apply lookup_replicate in E as [-> _].
Qed.

(** It can call [fork], whatever its memory. *)
Lemma caller_ready n k0 tf root k fl T f sz pp : aspace END TRAMP k fl root T f sz tf pp →
  fork_ready END TRAMP (caller_state k sz (made_state n k0 tf root)) 0 fl root T f pp 0.
Proof.
  intros Ha. set (s := caller_state _ _ _). assert (proc_at 0 s = first_proc sz (made_proc tf root)) as Ep by reflexivity.
  split.
  - reflexivity.
  - reflexivity.
  - rewrite Ep. split; [apply Nat.ltb_lt; reflexivity|done].
  - intros [|j] Hj Hs; [rewrite Ep in Hs; done|]. unfold s. by rewrite others_vacant.
  - rewrite Ep. split; [done|]. exact Ha.
  - rewrite Ep. split; [done|]. intros [|fd] g Hg; [injection Hg as <-; split; [apply Nat.ltb_lt; reflexivity|done]|].
    cbn in Hg. change (replicate 15 (None : option nat) !! fd = Some (Some g)) in Hg. by apply lookup_replicate in Hg as [? _].
  - by rewrite Ep.
Qed.

(** The state after [allocproc], and then with two pages. *)
Definition made (n : nat) : K := final (vacant_kernel n) (allocproc END TRAMP CTX (Thread [] (vacant_kernel n))).
Definition made_root (n : nat) : Z := p_pagetable (proc_at 0 (made n)).

Lemma made_14 : code (allocproc END TRAMP CTX (Thread [] (vacant_kernel 14))) = Some (Some 0%nat) ∧
  code (uvmalloc END (made_root 14) 0 5000 PTE_W (Thread [] (k_mem (made 14)))) = Some 5000.
Proof. split; vm_compute; reflexivity. Qed.

Definition mem_two : kmem := final (k_mem (made 14)) (uvmalloc END (made_root 14) 0 5000 PTE_W (Thread [] (k_mem (made 14)))).
Definition caller_two : K := caller_state mem_two 5000 (made 14).

Lemma grown_process : ∃ k0 k fl tf root T ps, length ps = 2%nat ∧ caller_two = caller_state k 5000 (made_state 14 k0 tf root) ∧
  aspace END TRAMP k fl root T (ext (base_map TRAMP tf) 0 ((λ p, (p, RWU)) <$> ps)) 5000 tf (valid_pages RWU ps).
Proof.
  destruct made_14 as [C1 C2]. pose proof (first_process 14 ltac:(lia) C1) as (k0 & fl0 & tf & root & T0 & E & Ha). clear C1.
  assert (made 14 = made_state 14 k0 tf root) as Em by (unfold made; rewrite E; reflexivity).
  assert (made_root 14 = root ∧ k_mem (made 14) = k0) as [Er Ek] by (unfold made_root; rewrite Em; split; reflexivity). rewrite Er, Ek in C2. clear E.
  assert (0 <= 0 <= 5000) as H1 by lia. assert (5000 <= MAXVA) as H2 by (vm_compute; discriminate).
  pose proof (uvmalloc_run END ltac:(done) [] k0 fl0 root T0 (base_map TRAMP tf) 0 5000 PTE_W (not_elem_of_nil _) (as_vm _ _ _ _ _ _ _ _ _ _ Ha) (as_maps _ _ _ _ _ _ _ _ _ _ Ha) H1 H2 ltac:(split; [discriminate|reflexivity])
    (base_room TRAMP tf 5000 ltac:(vm_compute; discriminate))) as Hu. cbv zeta in Hu.
  destruct Hu as [(k & fl & T & ps & E2 & Hg & Hl)|(k & E2 & _)]; [clear C2|rewrite E2 in C2; discriminate C2].
  change (PGROUNDUP 0) with 0 in *. unfold PGSIZE in Hl. exists k0, k, fl, tf, root, T, ps. split; [clear Em; lia|]. split.
  { unfold caller_two, mem_two. rewrite Er, Ek, E2, Em. reflexivity. }
  clear Em E2.
  apply (grown_space END ltac:(done) TRAMP tramp_fact k0 fl0 root T0 tf RWU ps 5000 k fl T Ha ltac:(split; [discriminate|reflexivity]) ltac:(discriminate) Hg).
  - unfold PGSIZE. lia.
  - split; vm_compute; discriminate.
Qed.

(** [fork] of a process of 5000 bytes: the child is runnable and has the same size, and
    descriptor 0 is shared. *)
Lemma fork_correct_witness : ∃ s np r s', p_sz (proc_at 0 s) = 5000 ∧ f_ref (file_at 0 s) = 1 ∧ fork END TRAMP CTX (Thread [] s) = Ok r (Thread [] s') ∧
  (r = -1 ∨ r = 2 ∧ p_state (proc_at np s') = RUNNABLE ∧ p_sz (proc_at np s') = 5000 ∧ p_parent (proc_at np s') = Some 0%nat ∧ f_ref (file_at 0 s') = 2).
Proof.
  destruct grown_process as (k0 & k & fl & tf & root & T & ps & Hl & _ & Ha). set (s := caller_state k 5000 (made_state 14 k0 tf root)). exists s.
  destruct (fork_correct END ltac:(done) TRAMP CTX s 0 fl root T _ _ 0 tramp_fact (caller_ready 14 k0 tf root _ _ _ _ _ _ Ha)) as [[Hno _]|(np & r & s' & Hnp & Hun & E & Hoth & H)].
  - exfalso. apply (Hno 1%nat); [apply Nat.ltb_lt; reflexivity|reflexivity].
  - exists np, r, s'. split; [reflexivity|]. split; [reflexivity|]. split; [exact E|]. destruct H as [[-> _]|(-> & (k' & fl' & root' & T' & tf' & cpp & Et & _) & Hr)]; [by left|right].
    injection Et as Et. assert (np < length (k_procs s))%nat as Hlen by exact Hnp.
    split; [reflexivity|]. rewrite Hr by (apply Nat.ltb_lt; reflexivity). rewrite Et, forking_at by exact Hlen. split_and!; reflexivity.
Defined.

(** The same with no memory, run to the end: the child exits with status 7. *)
Definition caller_0 : K := caller_state (k_mem (made 14)) 0 (made 14).

Lemma fork_0 : code (fork END TRAMP CTX (Thread [] caller_0)) = Some 2.
Proof. vm_compute. reflexivity. Qed.

(** Nothing else happens. *)
Definition still_world : world := World (λ _, []) (λ _, []).


(** ** A child that has exited *)

Lemma second_slot : code (allocproc END TRAMP CTX (Thread [] caller_two)) = Some (Some 1%nat).
Proof. vm_compute. reflexivity. Qed.

Definition dead_child (tf root : Z) : proc := set_parent (Some 0%nat) (set_state ZOMBIE (set_xstate 7 (born CTX 2 tf root proc0))).

(** The kernel [s], where the slot 1 is an exited child with the pages of [k]. *)
Definition with_zombie (k : kmem) (tf root : Z) (s : K) : K := on_proc 1 (λ _, dead_child tf root) (set_mem k s).

(** The caller, its two pages, and the child. *)
Lemma bereaved : ∃ s fl T f Tz, let c := proc_at 1 s in
  table_ok s ∧ k_cur s = Some 0%nat ∧ (∀ j, zombie_child 0 (proc_at j s) → j = 1%nat) ∧ c = dead_child (p_trapframe c) (p_pagetable c) ∧
  uspace END (k_mem s) fl (p_pagetable (proc_at 0 s)) T f ∧ (∀ va, 0 <= va < 8192 → can_write f va) ∧ zombie_space END TRAMP (k_mem s) fl f c Tz [].
Proof.
  pose proof second_slot as C. destruct grown_process as (k0 & k & fl & tf & root & T & ps & Hl & Ec & Ha). rewrite Ec in C. clear Ec.
  set (s := caller_state k 5000 (made_state 14 k0 tf root)) in *.
  assert (vacant (proc_at 1 s)) as Hv by (unfold s; rewrite others_vacant; done).
  pose proof (allocproc_slot END ltac:(done) TRAMP tramp_fact CTX [] s fl 1 eq_refl no_locks (not_elem_of_nil _) (not_elem_of_nil _) (vo_wf _ _ _ _ _ (as_vm _ _ _ _ _ _ _ _ _ _ Ha))
    ltac:(apply Nat.ltb_lt; reflexivity) Hv eq_refl) as (r & t & E & H).
  rewrite E in C. destruct H as [(k' & fl' & -> & _)|(k' & fl' & tf' & root' & T' & tabs & _ & _ & Hz & L & Q & U)]; [discriminate C|]. clear C E t.
  pose proof (aspace_frame _ _ _ _ _ _ _ _ _ _ _ _ Ha U) as Ha'.
  destruct (aspace_uspace END ltac:(done) TRAMP tramp_fact _ _ _ _ _ _ _ _ Ha') as [Hus Hin].
  exists (with_zombie k' tf' root' s), fl', T, (ext (base_map TRAMP tf) 0 ((λ p, (p, RWU)) <$> ps)), T'.
  split; [reflexivity|]. split; [reflexivity|]. split; [|split; [reflexivity|split; [exact Hus|split]]].
  - intros [|[|j]] [Hp _]; [discriminate Hp|done|]. change (proc_at (S (S j)) (with_zombie k' tf' root' s)) with (proc_at (S (S j)) s) in Hp. unfold s in Hp. rewrite others_vacant in Hp. discriminate Hp.
  - intros va Hva. apply can_write_two; [exact Hl| |exact Hva]. apply Forall_forall. intros p Hp. apply (as_page _ _ _ _ _ _ _ _ _ _ Ha p). right. by rewrite valid_pages_fst.
  - exists (base_map TRAMP tf'). split; [exact Hz|]. intros v Hv'. apply Hin in Hv'. destruct (as_page _ _ _ _ _ _ _ _ _ _ Ha _ ltac:(right; exact Hv')) as (_ & Hn & _).
    intros [Eq|[Hq|Hq]]; apply Hn; rewrite L; apply elem_of_cons; [left; exact Eq|by apply elem_of_nil in Hq|right; apply elem_of_app; left; by apply Q].
Qed.

(** The status 7 is read at 4094, over the end of the first page. *)
Lemma wait_correct_witness : ∃ s f k1 s', wait END still_world 4094 (Thread [] s) = Ok 2 (Thread [] s') ∧ p_state (proc_at 1 s) = ZOMBIE ∧
  p_state (proc_at 1 s') = UNUSED ∧ ustored f (kmem_mem (k_mem s)) k1 4094 [7; 0; 0; 0] ∧ ∀ x, can_read f x → ubyte (kmem_mem (k_mem s')) f x = ubyte k1 f x.
Proof.
  destruct bereaved as (s & fl & T & f & Tz & Ht & Hc & Hone & Ed & Hus & Hwr & Hz).
  destruct (wait_correct END ltac:(done) TRAMP still_world s 0 4094 fl _ T f (λ _, Tz) (λ _, []) tramp_fact Ht Hc ltac:(apply Nat.ltb_lt; reflexivity) eq_refl Hus ltac:(lia))
    as [(j & r & t & Hj & Hzj & _ & E & H)|[Hno _]].
  - intros j _ Hzj. rewrite (Hone j Hzj). exact Hz.
  - rewrite (Hone j Hzj) in H. destruct H as [(_ & _ & (x & Hx & Hnw) & _)|(-> & k1 & k2 & fl2 & -> & Hst & _ & Hrd)].
    + exfalso. apply Hnw, Hwr. lia.
    + assert (p_pid (proc_at 1 s) = 2 ∧ p_xstate (proc_at 1 s) = 7 ∧ p_state (proc_at 1 s) = ZOMBIE) as (Ep & Ex & Es) by (rewrite Ed; by split_and!).
      exists s, f, (kmem_mem k1). eexists. rewrite <- Ep. split; [exact E|]. split; [exact Es|]. split; [|split].
      * rewrite on_proc_same; [reflexivity|]. apply Nat.ltb_lt. assert (length (k_procs (set_mem k2 s)) = 64%nat) as -> by (destruct s; exact Ht). reflexivity.
      * unfold status_stored in Hst. rewrite Ex in Hst. apply Hst.
      * intros x Hx. rewrite <- Hrd by exact Hx. by destruct s.
  - exfalso. apply (Hno 1%nat); [apply Nat.ltb_lt; reflexivity|]. rewrite Ed. split; reflexivity.
Defined.
