(* ===== verification/Exec.v ===== *)
(** * syscall.c's arguments, and exec.c

    The arguments of a system call come from the trapframe and from user memory;
    [exec] builds a new address space from an ELF file and swaps it in. *)

From S2P Require Import Prelude CString Riscv Kalloc Vm Param Bio Log.
From S2P Require Import BlockLayer BlockLog FsDisk Fs Pipe Kernel Printf Proc Console Files.

(** ** Arguments of system calls *)

(** [None] for -1. *)
Definition fetchaddr (addr : Z) : M K (option Z) :=
  let! i := myproc in
  let! p := gets (proc_at i) in
  if (p_sz p <=? addr) || (p_sz p <? u64 (addr + 8)) then ret None
  else
    let! r := onmem (copyin (p_pagetable p) addr 8) in
    ret (if negb (r.1 =? 0) then None else Some (le_val r.2)).

(** [buf] is what the buffer held; the result comes with what it holds now. *)
Definition fetchstr (addr : Z) (buf : list Z) (max : Z) : M K (Z * list Z) :=
  let! i := myproc in
  let! p := gets (proc_at i) in
  let! r := onmem (copyinstr (p_pagetable p) addr max) in
  let buf := r.2 ++ drop (length r.2) buf in
  ret (if r.1 <? 0 then (-1, buf) else (Z.of_nat (length (cstring buf)), buf)).

Definition argraw (n : Z) : M K Z :=
  let! i := myproc in
  if (0 <=? n) && (n <? 6) then tf_get i (TF_a n) else panic "argraw".

Definition argint (n : Z) : M K Z := let! x := argraw n in ret (s32 x).
Definition argaddr (n : Z) : M K Z := argraw n.

Definition argstr (n : Z) (buf : list Z) (max : Z) : M K (Z * list Z) :=
  let! addr := argaddr n in
  fetchstr addr buf max.

(** ** ELF files *)

Definition ELF_MAGIC : Z := 0x464C457F.
Definition ELF_PROG_LOAD : Z := 1.

(** The fields that [exec] reads, at their offsets. *)
Record elfhdr := Elfhdr { eh_magic : Z; eh_entry : Z; eh_phoff : Z; eh_phnum : Z }.
Record proghdr := Proghdr { ph_type : Z; ph_flags : Z; ph_off : Z; ph_vaddr : Z; ph_filesz : Z; ph_memsz : Z }.

Definition ELFHDR_SIZE : Z := 64.
Definition PROGHDR_SIZE : Z := 56.

Definition parse_elfhdr (bs : list Z) : elfhdr :=
  Elfhdr (le_val (slice 0 4 bs)) (le_val (slice 24 8 bs)) (le_val (slice 32 8 bs)) (le_val (slice 56 2 bs)).
Definition parse_proghdr (bs : list Z) : proghdr :=
  Proghdr (le_val (slice 0 4 bs)) (le_val (slice 4 4 bs)) (le_val (slice 8 8 bs)) (le_val (slice 16 8 bs))
    (le_val (slice 32 8 bs)) (le_val (slice 40 8 bs)).

Definition flags2perm (flags : Z) : Z :=
  let perm := if negb (Z.land flags 0x1 =? 0) then PTE_X else 0 in
  if negb (Z.land flags 0x2 =? 0) then Z.lor perm PTE_W else perm.

(** [readi] into a local structure of [n] bytes. *)
Definition read_struct (ip : nat) (off n : Z) : M K (Z * list Z) :=
  onfs (readi local_out ip (replicate (Z.to_nat n) 0) 0 off n).

(** [readi] to a physical address. *)
Definition readi_phys (ip : nat) (pa off n : Z) : M K Z :=
  let! k := gets k_mem in
  let! r := onfs (readi phys_out ip k pa off n) in
  modify (set_mem r.2) ;;;
  ret r.1.

(** The loop of [loadseg] from [i] on. *)
Fixpoint loadseg_loop (fuel : nat) (pagetable va : Z) (ip : nat) (offset sz i : Z) : M K Z :=
  match fuel with
  | O => λ t, Asleep t
  | S fuel =>
      if i <? sz then
        let! pa := onmem (walkaddr pagetable (u64 (va + i))) in
        panic_if (pa =? 0) "loadseg: address should exist" ;;;
        let n := if sz - i <? PGSIZE then sz - i else PGSIZE in
        let! r := readi_phys ip pa (u32 (offset + i)) n in
        if negb (r =? n) then ret (-1)
        else loadseg_loop fuel pagetable va ip offset sz (u32 (i + PGSIZE))
      else ret 0
  end.

Definition loadseg (pagetable va : Z) (ip : nat) (offset sz : Z) : M K Z :=
  loadseg_loop (Z.to_nat (sz / PGSIZE + 2)) pagetable va ip offset sz 0.

Section Exec.
Context (end_ trampoline : Z) (w : world).

(** The loop over the program headers, [n] of which are left; the size of the
    image so far and whether the loop ended without [goto bad]. *)
Fixpoint load_segments (n : nat) (ip : nat) (pagetable off sz : Z) : M K (Z * bool) :=
  match n with
  | O => ret (sz, true)
  | S n =>
      let! r := read_struct ip (u32 off) PROGHDR_SIZE in
      let '(k, bs) := r in
      let ph := parse_proghdr bs in
      if negb (k =? PROGHDR_SIZE) then ret (sz, false)
      else if negb (ph_type ph =? ELF_PROG_LOAD) then load_segments n ip pagetable (s32 (off + PROGHDR_SIZE)) sz
      else if ph_memsz ph <? ph_filesz ph then ret (sz, false)
      else if u64 (ph_vaddr ph + ph_memsz ph) <? ph_vaddr ph then ret (sz, false)
      else if negb (ph_vaddr ph mod PGSIZE =? 0) then ret (sz, false)
      else
        let! sz1 := onmem (uvmalloc end_ pagetable sz (u64 (ph_vaddr ph + ph_memsz ph)) (flags2perm (ph_flags ph))) in
        if sz1 =? 0 then ret (sz, false)
        else
          let! r := loadseg pagetable (ph_vaddr ph) ip (u32 (ph_off ph)) (u32 (ph_filesz ph)) in
          if r <? 0 then ret (sz1, false)
          else load_segments n ip pagetable (s32 (off + PROGHDR_SIZE)) sz1
  end.

(** The string at [argv[argc]], in a page of its own. *)
Definition arg_string (a : Z) : M K (list Z) :=
  onmem (gets (λ k, cstring (bytes_at (kmem_mem k) a (Z.to_nat PGSIZE)))).

(** The loop that pushes the strings: [sp] and [ustack]. *)
Fixpoint push_args (argv : list Z) (pagetable stackbase sp : Z) (ustack : list Z) : M K (option (Z * list Z)) :=
  match argv with
  | [] => ret (Some (sp, ustack))
  | a :: argv =>
      if MAXARG <=? Z.of_nat (length ustack) then ret None
      else
        let! s := arg_string a in
        let sp := u64 (sp - (Z.of_nat (length s) + 1)) in
        let sp := sp - sp mod 16 in
        if sp <? stackbase then ret None
        else
          let! r := onmem (copyout pagetable sp (s ++ [0])) in
          if r <? 0 then ret None
          else push_args argv pagetable stackbase sp (ustack ++ [sp])
  end.

(** The whole user stack: the strings, then the array of pointers to them with a null
    pointer at its end; [sp] and [argc], or [None] for [goto bad]. *)
Definition build_stack (argv : list Z) (pagetable stackbase sz : Z) : M K (option (Z * Z)) :=
  let! r := push_args argv pagetable stackbase sz [] in
  match r with
  | None => ret None
  | Some (sp, ustack) =>
      let argc := Z.of_nat (length ustack) in
      (if argc <? MAXARG then ret tt else undefined "ustack[argc]") ;;;
      let sp := u64 (sp - (argc + 1) * 8) in
      let sp := sp - sp mod 16 in
      if sp <? stackbase then ret None
      else
        let! r := onmem (copyout pagetable sp (concat (le_bytes 8 <$> (ustack ++ [0])))) in
        ret (if r <? 0 then None else Some (sp, argc))
  end.

(** The part of the path after its last slash. *)
Fixpoint last_elem (s last : list Z) : list Z :=
  match s with
  | [] => last
  | c :: r => last_elem r (if c =? slash then r else last)
  end.

Definition exec_bad (pagetable sz : Z) (ip : option nat) : M K Z :=
  (if truth pagetable then proc_freepagetable end_ pagetable sz else ret tt) ;;;
  (match ip with
   | Some ip => onfs (iunlockput ip) ;;; end_op
   | None => ret tt
   end) ;;;
  ret (-1).

(** From the point where the file is loaded: the user stack and the switch to the
    new image. *)
Definition exec_commit (i : nat) (path : list Z) (argv : list Z) (elf : elfhdr) (pagetable sz : Z) : M K Z :=
  let! p := gets (proc_at i) in
  let oldsz := p_sz p in
  let sz := PGROUNDUP sz in
  let! sz1 := onmem (uvmalloc end_ pagetable sz (u64 (sz + (USERSTACK + 1) * PGSIZE)) PTE_W) in
  if sz1 =? 0 then exec_bad pagetable sz None
  else
    let sz := sz1 in
    onmem (uvmclear pagetable (sz - (USERSTACK + 1) * PGSIZE)) ;;;
    let stackbase := sz - USERSTACK * PGSIZE in
    let! r := build_stack argv pagetable stackbase sz in
    match r with
    | None => exec_bad pagetable sz None
    | Some (sp, argc) =>
        tf_set i (TF_a 1) sp ;;;
        upd_proc i (λ p, set_name (safestrcpy_buf (p_name p) (last_elem path path) 16) p) ;;;
        let! p := gets (proc_at i) in
        let oldpagetable := p_pagetable p in
        upd_proc i (set_pagetable pagetable) ;;;
        upd_proc i (set_sz sz) ;;;
        tf_set i TF_epc (eh_entry elf) ;;;
        tf_set i TF_sp sp ;;;
        proc_freepagetable end_ oldpagetable oldsz ;;;
        ret argc
    end.

(** [path] is the string, [argv] the non-null pointers before the first null
    pointer. *)
Definition exec (path : list Z) (argv : list Z) : M K Z :=
  let! i := myproc in
  begin_op w ;;;
  let! p := gets (proc_at i) in
  let! r := onfs (namei (default 0%nat (p_cwd p)) path) in
  match r with
  | None => end_op ;;; ret (-1)
  | Some ip =>
      onfs (ilock (Some ip)) ;;;
      let! r := read_struct ip 0 ELFHDR_SIZE in
      let '(k, bs) := r in
      let elf := parse_elfhdr bs in
      if negb (k =? ELFHDR_SIZE) then exec_bad 0 0 (Some ip)
      else if negb (eh_magic elf =? ELF_MAGIC) then exec_bad 0 0 (Some ip)
      else
        let! pagetable := proc_pagetable end_ trampoline i in
        if pagetable =? 0 then exec_bad 0 0 (Some ip)
        else
          let! r := load_segments (Z.to_nat (eh_phnum elf)) ip pagetable (s32 (eh_phoff elf)) 0 in
          let '(sz, ok) := r in
          if negb ok then exec_bad pagetable sz (Some ip)
          else
            onfs (iunlockput ip) ;;;
            end_op ;;;
            exec_commit i path argv elf pagetable sz
  end.
End Exec.
