(* ===== verification/ExecSpec.v ===== *)
(** * exec.c: the stack of a new program

    What [exec] puts on the user stack: the argument strings, each at a multiple of 16, and
    below them the array of pointers to them that [main] gets as [argv]. *)

From S2P Require Import Prelude CString Riscv Kalloc Vm VmTable VmMap VmCopy Param Bio Log.
From S2P Require Import BlockLayer BlockLog FsDisk Fs Pipe Kernel Printf Proc ProcSpec Console ConsoleSpec Files Exec.

(** Where the strings go, the stack pointer being [sp] before them, and where it is then. *)
Definition align16 (x : Z) : Z := x - x mod 16.
Fixpoint places (sp : Z) (strs : list (list Z)) : list Z :=
  match strs with
  | [] => []
  | s :: strs => let sp := align16 (sp - (Z.of_nat (length s) + 1)) in sp :: places sp strs
  end.
Definition low (sp : Z) (strs : list (list Z)) : Z := default sp (last (places sp strs)).

(** The kernel has the string [str] at [a], in a page that is not the program's. *)
Definition arg_at (f : Z → Z) (m : mem) (a : Z) (str : list Z) : Prop :=
  cstring (bytes_at m a (Z.to_nat PGSIZE)) = str ∧ Z.of_nat (length str) < PGSIZE ∧
  ∀ x v, a <= x < a + PGSIZE → can_read f v → ¬ (PTE2PA (f v) <= x < PTE2PA (f v) + PGSIZE).

(** The program sees the strings, with their NULs, at the places. *)
Definition strings_at (f : Z → Z) (m : mem) : list Z → list (list Z) → Prop :=
  Forall2 (λ p str, ubytes m f p (S (length str)) = str ++ [0]).

Lemma align16_le x : align16 x <= x < align16 x + 16 ∧ align16 x mod 16 = 0.
Proof.
  unfold align16. pose proof (Z.mod_pos_bound x 16 ltac:(lia)). split; [lia|].
  rewrite Zminus_mod, Z.mod_mod, Z.sub_diag by lia. done.
Qed.

Lemma length_places sp strs : length (places sp strs) = length strs.
Proof. revert sp. induction strs as [|s strs IH]; intros sp; [done|]. cbn. by rewrite IH. Qed.

Lemma low_cons sp s strs : low sp (s :: strs) = low (align16 (sp - (Z.of_nat (length s) + 1))) strs.
Proof. unfold low. cbn [places]. rewrite last_cons. by destruct (last _). Qed.

Lemma low_le sp strs : low sp strs <= sp.
Proof.
  revert sp. induction strs as [|s strs IH]; intros sp; [done|]. rewrite low_cons. etransitivity; [apply IH|].
  pose proof (align16_le (sp - (Z.of_nat (length s) + 1))). lia.
Qed.

Lemma low_place sb sp strs : Forall (λ p, sb <= p) (places sp strs) → sb <= sp → sb <= low sp strs.
Proof.
  revert sp. induction strs as [|s strs IH]; intros sp Hf Hs; [done|]. rewrite low_cons. cbn [places] in Hf. inversion_clear Hf. by apply IH.
Qed.

Lemma strings_fit sp strs : Forall2 (λ p str, low sp strs <= p ∧ p + Z.of_nat (S (length str)) <= sp) (places sp strs) strs.
Proof.
  revert sp. induction strs as [|str strs IH]; intros sp; [constructor|]. cbn [places]. rewrite low_cons.
  set (p := align16 _). destruct (align16_le (sp - (Z.of_nat (length str) + 1))) as [Hp _]. fold p in Hp.
  constructor; [split; [apply low_le|lia]|]. eapply Forall2_impl; [apply IH|]. cbn. intros x t (H1 & H2). split; [done|lia].
Qed.

Lemma Forall2_conj {A B} (P Q : A → B → Prop) l k : Forall2 P l k → Forall2 Q l k → Forall2 (λ x y, P x y ∧ Q x y) l k.
Proof. induction 1; intros HQ; inversion HQ; subst; constructor; auto. Qed.

Lemma arg_at_same f m m' a str : kernel_same f m m' → arg_at f m a str → arg_at f m' a str.
Proof.
  intros Hk (H1 & H2 & H3). split; [|done]. rewrite <- H1. f_equal. unfold bytes_at. apply list_fmap_ext. intros j x [-> Hj]%lookup_seq.
  apply Hk. intros v Hv. apply H3; [|done]. cbn. lia.
Qed.

Lemma arg_string_run f a str h s : arg_at f (kmem_mem (k_mem s)) a str → arg_string a (Thread h s) = Ok str (Thread h s).
Proof.
  intros [<- _]. unfold arg_string. rewrite (onmem_run (gets _) h s _ (k_mem s) eq_refl). by assert (set_mem (k_mem s) s = s) as -> by (by destruct s).
Qed.

Lemma mem_set_mem k s : k_mem (set_mem k s) = k.
Proof. by destruct s. Qed.
Lemma set_mem_id s : set_mem (k_mem s) s = s.
Proof. by destruct s. Qed.

Section Stack.
Context (end_ : Z) (end_pos : 0 < end_) (root : Z) (T : gmap (list Z) Z) (f : Z → Z) (fl : list Z).

(** [copyout] of something to a place on the stack, or below it. *)
Lemma stack_copyout h s sb top p bs : uspace end_ (k_mem s) fl root T f → 0 <= sb → (∀ x, sb <= x < top → can_write f x) →
  sb <= p → p + Z.of_nat (length bs) <= top → top <= MAXVA →
  ∃ k', onmem (copyout root p bs) (Thread h s) = Ok 0 (Thread h (set_mem k' s)) ∧ uspace end_ k' fl root T f ∧
    kernel_same f (kmem_mem (k_mem s)) (kmem_mem k') ∧ ustored f (kmem_mem (k_mem s)) (kmem_mem k') p bs.
Proof.
  intros Hu Hsb Hw Hp Htop Hmax. assert (0 <= p < 2 ^ 64) as Hp64 by (rewrite MAXVA_val in Hmax; lia).
  destruct (copyout_loop_run end_ end_pos h fl root T f (copy_fuel (Z.of_nat (length bs))) p bs (k_mem s) Hu Hp64 (copy_fuel_enough p (Z.of_nat (length bs)) ltac:(lia)))
    as (r & k' & E & Hu' & Hk & [(-> & _ & Hst)|(-> & x & Hx & Hn)]).
  - exists k'. split; [by apply onmem_run|done].
  - destruct Hn. apply Hw. lia.
Qed.

Lemma ustored_ubytes m m' p bs : ustored f m m' p bs → (∀ x, p <= x < p + Z.of_nat (length bs) → can_read f x) → ubytes m' f p (length bs) = bs.
Proof.
  intros Hst Hr. apply list_eq. intros j. destruct (decide (j < length bs)%nat) as [Hj|Hj].
  - unfold ubytes. rewrite list_lookup_fmap, lookup_seq_lt by done. cbn [fmap option_fmap option_map Nat.add].
    rewrite Hst, decide_True by (try apply Hr; lia). destruct (lookup_lt_is_Some_2 bs j Hj) as [y Ey]. rewrite Ey.
    replace (Z.to_nat (p + Z.of_nat j - p)) with j by lia. by rewrite Ey.
  - by rewrite !lookup_ge_None_2 by (rewrite ?length_ubytes; lia).
Qed.

Lemma ubytes_same m m' p n : (∀ x, p <= x < p + Z.of_nat n → ubyte m' f x = ubyte m f x) → ubytes m' f p n = ubytes m f p n.
Proof. intros H. unfold ubytes. apply list_fmap_ext. intros j x [-> Hj]%lookup_seq. apply H. lia. Qed.

(** The loop over the arguments. *)
Lemma push_args_run h sb : 0 <= sb → ∀ argv strs sp us s, uspace end_ (k_mem s) fl root T f →
  Forall2 (arg_at f (kmem_mem (k_mem s))) argv strs → sb <= sp <= MAXVA → (∀ x, sb <= x < sp → can_write f x) →
  Z.of_nat (length us + length argv) <= MAXARG →
  ∃ k', push_args argv root sb sp us (Thread h s) =
      Ok (if decide (Forall (λ p, sb <= p) (places sp strs)) then Some (low sp strs, us ++ places sp strs) else None) (Thread h (set_mem k' s)) ∧
    uspace end_ k' fl root T f ∧ kernel_same f (kmem_mem (k_mem s)) (kmem_mem k') ∧
    (Forall (λ p, sb <= p) (places sp strs) → strings_at f (kmem_mem k') (places sp strs) strs ∧
      ∀ x, can_read f x → x < low sp strs ∨ sp <= x → ubyte (kmem_mem k') f x = ubyte (kmem_mem (k_mem s)) f x).
Proof.
  intros Hsb. induction argv as [|a argv IH]; intros [|str strs] sp us s Hu Ha Hsp Hw Hn; try by inversion Ha.
  { exists (k_mem s). cbn [push_args places]. rewrite decide_True by constructor. rewrite set_mem_id, app_nil_r.
    split_and!; [done|done|by intros x _|]. intros _. split; [constructor|done]. }
  cbn [push_args places]. inversion Ha as [|???? Ha1 Ha2]; subst. cbn [length] in Hn.
  rewrite (proj2 (Z.leb_gt _ _)) by lia. rewrite (bind_Ok _ _ _ _ _ (arg_string_run f a str h s Ha1)).
  set (n := Z.of_nat (length str) + 1). set (p := align16 (sp - n)). destruct (align16_le (sp - n)) as [Hp Hp16]. fold p in Hp, Hp16.
  rewrite MAXVA_val in Hsp. pose proof (proj1 (proj2 Ha1)) as Hlen. unfold PGSIZE in Hlen.
  destruct (decide (sb <= p)) as [Hfit|Hno].
  - rewrite u64_small by lia. change (sp - n - (sp - n) mod 16) with p. rewrite (proj2 (Z.ltb_ge _ _)) by lia.
    assert (Z.of_nat (length (str ++ [0])) = n) as Hl by (rewrite length_app; cbn [length]; lia).
    destruct (stack_copyout h s sb sp p (str ++ [0]) Hu Hsb Hw Hfit) as (k1 & E1 & Hu1 & Hk1 & Hst1); [lia|rewrite MAXVA_val; lia|].
    rewrite (bind_Ok _ _ _ _ _ E1). change (0 <? 0) with false. cbn iota.
    destruct (IH strs p (us ++ [p]) (set_mem k1 s)) as (k2 & E2 & Hu2 & Hk2 & Hm2); rewrite ?mem_set_mem in *.
    + done.
    + eapply Forall2_impl; [exact Ha2|]. intros b t. by apply arg_at_same.
    + rewrite MAXVA_val. lia.
    + intros x Hx. apply Hw. lia.
    + rewrite length_app. cbn [length]. lia.
    + rewrite set_mem_twice in E2. exists k2. rewrite low_cons. fold n p. split_and!; [|done| |].
      * rewrite E2, <- app_assoc. cbn [app]. destruct (decide (Forall _ (places p strs))) as [Hd|Hd].
        -- by rewrite decide_True by (by constructor).
        -- rewrite decide_False; [done|]. intros Hc. by inversion_clear Hc.
      * intros x Hx. by rewrite Hk2, Hk1.
      * intros Hf. inversion_clear Hf as [|?? _ Hf2]. destruct (Hm2 Hf2) as [Hs Hfr]. split.
        -- constructor; [|done]. rewrite (ubytes_same (kmem_mem k1)).
           ++ rewrite <- (ustored_ubytes _ _ _ _ Hst1) by (intros x Hx; apply Hw; lia). f_equal. rewrite length_app. cbn [length]. lia.
           ++ intros x Hx. apply Hfr; [apply Hw; lia|lia].
        -- intros x Hx Hr. pose proof (low_le p strs). rewrite Hfr by (done || lia). rewrite (Hst1 x Hx), decide_False by lia. done.
  - rewrite decide_False by (intros Hc; by inversion_clear Hc). destruct (decide (0 <= sp - n)) as [Hpos|Hneg].
    + rewrite u64_small by lia. change (sp - n - (sp - n) mod 16) with p. rewrite (proj2 (Z.ltb_lt _ _)) by lia.
      exists (k_mem s). rewrite set_mem_id. split_and!; [done|done|by intros x _|]. intros Hc. by inversion_clear Hc.
    + assert (u64 (sp - n) = sp - n + 2 ^ 64) as ->.
      { unfold u64. rewrite <- (Z.mod_add _ 1) by lia. rewrite Z.mod_small by lia. lia. }
      destruct (align16_le (sp - n + 2 ^ 64)) as [Hq _]. change (sp - n + 2 ^ 64 - (sp - n + 2 ^ 64) mod 16) with (align16 (sp - n + 2 ^ 64)).
      set (q := align16 (sp - n + 2 ^ 64)) in *. rewrite (proj2 (Z.ltb_ge _ _)) by lia.
      destruct (copyout_loop_run end_ end_pos h fl root T f (copy_fuel (Z.of_nat (length (str ++ [0])))) q (str ++ [0]) (k_mem s) Hu ltac:(lia)
        (copy_fuel_enough q (Z.of_nat (length (str ++ [0]))) ltac:(lia))) as (r & k' & E & Hu' & Hk & [(_ & Hall & _)|(-> & _)]).
      { exfalso. specialize (Hall q). rewrite length_app in Hall. cbn [length] in Hall. destruct Hall as [[Hr _] _]; [lia|]. rewrite MAXVA_val in Hr. lia. }
      rewrite (bind_Ok _ _ _ _ _ (onmem_run (copyout root q (str ++ [0])) h s _ k' E)). change (-1 <? 0) with true. cbn iota.
      exists k'. split_and!; [done|done|done|]. intros Hc. by inversion_clear Hc.
Qed.

Lemma places_low sp strs : Forall (λ p, low sp strs <= p ∧ p mod 16 = 0 ∧ p <= sp) (places sp strs).
Proof.
  revert sp. induction strs as [|str strs IH]; intros sp; [constructor|]. cbn [places]. rewrite low_cons.
  set (p := align16 _). destruct (align16_le (sp - (Z.of_nat (length str) + 1))) as [Hp Hp16]. fold p in Hp, Hp16.
  constructor; [split; [apply low_le|split; [done|lia]]|]. eapply Forall_impl; [apply IH|]. cbn. intros x (H1 & H2 & H3). split_and!; [done|done|lia].
Qed.

(** The words of an array, one by one. *)
Lemma array_words m l : ∀ p, ubytes m f p (8 * length l) = concat (le_bytes 8 <$> l) →
  ∀ j x, l !! j = Some x → 0 <= x < 2 ^ 64 → le_val (ubytes m f (p + 8 * Z.of_nat j) 8) = x.
Proof.
  induction l as [|y l IH]; intros p E j x Hj Hx; [done|]. cbn [length fmap list_fmap concat] in E.
  replace (8 * S (length l))%nat with (8 + 8 * length l)%nat in E by lia. rewrite ubytes_app in E.
  apply app_inj_1 in E as [E1 E2]; [|by rewrite length_ubytes, length_le_bytes].
  destruct j as [|j].
  - injection Hj as ->. rewrite Z.add_0_r, E1, le_val_bytes. by apply Z.mod_small.
  - specialize (IH (p + Z.of_nat 8) E2 j x Hj Hx). rewrite <- IH. do 2 f_equal. lia.
Qed.

Lemma length_array l : length (concat (le_bytes 8 <$> l)) = (8 * length l)%nat.
Proof. induction l as [|y l IH]; [done|]. cbn [fmap list_fmap concat length]. rewrite length_app, IH, length_le_bytes. lia. Qed.

Lemma build_stack_run h s argv strs sb sz : uspace end_ (k_mem s) fl root T f → Forall2 (arg_at f (kmem_mem (k_mem s))) argv strs →
  PGSIZE <= sb <= sz → sz <= MAXVA → (∀ x, sb <= x < sz → can_write f x) → Z.of_nat (length argv) < MAXARG →
  let argc := Z.of_nat (length argv) in
  let sp := align16 (low sz strs - (argc + 1) * 8) in
  ∃ k', build_stack argv root sb sz (Thread h s) = Ok (if decide (sb <= sp) then Some (sp, argc) else None) (Thread h (set_mem k' s)) ∧
    uspace end_ k' fl root T f ∧ kernel_same f (kmem_mem (k_mem s)) (kmem_mem k') ∧
    (sb <= sp → strings_at f (kmem_mem k') (places sz strs) strs ∧
      ubytes (kmem_mem k') f sp (8 * (length argv + 1)) = concat (le_bytes 8 <$> (places sz strs ++ [0])) ∧
      ∀ x, can_read f x → x < sp ∨ sz <= x → ubyte (kmem_mem k') f x = ubyte (kmem_mem (k_mem s)) f x).
Proof.
  intros Hu Ha Hsb Hmax Hw Hn argc sp. unfold build_stack. unfold PGSIZE, MAXARG in *.
  destruct (push_args_run h sb ltac:(lia) argv strs sz [] s Hu Ha ltac:(lia) Hw) as (k1 & E1 & Hu1 & Hk1 & Hm1); [cbn [length]; unfold MAXARG; lia|].
  rewrite (bind_Ok _ _ _ _ _ E1). pose proof (Forall2_length _ _ _ Ha) as Hlen. pose proof (places_low sz strs) as Hpl.
  destruct (align16_le (low sz strs - (argc + 1) * 8)) as [Hsp Hsp16]. fold sp in Hsp, Hsp16.
  destruct (decide (Forall (λ p, sb <= p) (places sz strs))) as [Hall|Hno].
  2: { rewrite decide_False.
    - exists k1. split_and!; [done|done|done|]. intros Hc. exfalso. apply Hno. eapply Forall_impl; [exact Hpl|]. cbn. lia.
    - intros Hc. apply Hno. eapply Forall_impl; [exact Hpl|]. cbn. lia. }
  cbn [app]. pose proof (low_place sb sz strs Hall ltac:(lia)) as Hlow. pose proof (low_le sz strs) as Hlow'. rewrite length_places, <- Hlen. fold argc.
  rewrite (proj2 (Z.ltb_lt _ _)) by (unfold MAXARG; lia). kstep. rewrite MAXVA_val in Hmax. rewrite u64_small by lia.
  change (_ - (argc + 1) * 8 - _) with sp.
  destruct (decide (sb <= sp)) as [Hfit|Hno].
  2: { rewrite (proj2 (Z.ltb_lt _ _)) by lia. exists k1. done. }
  rewrite (proj2 (Z.ltb_ge _ _)) by lia.
  assert (length (concat (le_bytes 8 <$> (places sz strs ++ [0]))) = (8 * (length argv + 1))%nat) as Hla by (rewrite length_array, length_app, length_places; cbn [length]; lia).
  destruct (stack_copyout h (set_mem k1 s) sb sz sp (concat (le_bytes 8 <$> (places sz strs ++ [0])))) as (k2 & E2 & Hu2 & Hk2 & Hst2);
    rewrite ?mem_set_mem in *; [done|lia|done|done|lia|rewrite MAXVA_val; lia|].
  rewrite (bind_Ok _ _ _ _ _ E2), set_mem_twice. change (0 <? 0) with false. cbn iota. exists k2.
  destruct (Hm1 Hall) as [Hs Hfr]. split_and!; [done|done|intros x Hx; by rewrite Hk2, Hk1|]. intros _. split_and!.
  - eapply Forall2_impl; [exact (Forall2_conj _ _ _ _ Hs (strings_fit sz strs))|]. cbn beta. intros p str (H1 & H2 & H3). rewrite <- H1.
    apply ubytes_same. intros x Hx. rewrite (Hst2 x), decide_False by (try apply Hw; lia). done.
  - rewrite <- Hla. apply (ustored_ubytes _ _ _ _ Hst2). intros x Hx. apply Hw. lia.
  - intros x Hx Hr. rewrite (Hst2 x Hx), decide_False by lia. apply Hfr; [done|lia].
Qed.
End Stack.

(** C23: the stack [exec] builds.  For any strings, [build_stack] succeeds exactly when they
    and the array of pointers fit above [stackbase]; then the program finds at its stack
    pointer, a multiple of 16, the pointers [argv[0]], ... and a null pointer, and at each
    of them, a multiple of 16 again, the string with its NUL.  The rest of its memory and
    all kernel memory are as before. *)
Theorem exec_stack_correct end_ (end_pos : 0 < end_) root T f fl h s argv strs stackbase sz :
  uspace end_ (k_mem s) fl root T f → Forall2 (arg_at f (kmem_mem (k_mem s))) argv strs →
  PGSIZE <= stackbase <= sz → sz <= MAXVA → (∀ x, stackbase <= x < sz → can_write f x) → Z.of_nat (length argv) < MAXARG →
  let argc := Z.of_nat (length argv) in
  let sp := align16 (low sz strs - (argc + 1) * 8) in
  ∃ k', build_stack argv root stackbase sz (Thread h s) = Ok (if decide (stackbase <= sp) then Some (sp, argc) else None) (Thread h (set_mem k' s)) ∧
    kernel_same f (kmem_mem (k_mem s)) (kmem_mem k') ∧
    (stackbase <= sp → sp mod 16 = 0 ∧
      (∀ j str, strs !! j = Some str → ∃ p, le_val (ubytes (kmem_mem k') f (sp + 8 * Z.of_nat j) 8) = p ∧
        p mod 16 = 0 ∧ sp + 8 * (argc + 1) <= p ∧ p + Z.of_nat (length str) < sz ∧ ubytes (kmem_mem k') f p (S (length str)) = str ++ [0]) ∧
      le_val (ubytes (kmem_mem k') f (sp + 8 * argc) 8) = 0 ∧
      ∀ x, can_read f x → x < sp ∨ sz <= x → ubyte (kmem_mem k') f x = ubyte (kmem_mem (k_mem s)) f x).
Proof.
  intros Hu Ha Hsb Hmax Hw Hn argc sp.
  destruct (build_stack_run end_ end_pos root T f fl h s argv strs stackbase sz Hu Ha Hsb Hmax Hw Hn) as (k' & E & _ & Hk & Hm).
  exists k'. split; [exact E|]. split; [exact Hk|]. intros Hfit. destruct (Hm Hfit) as (Hs & Harr & Hfr). fold argc sp in Harr, Hfr.
  destruct (align16_le (low sz strs - (argc + 1) * 8)) as [Hsp Hsp16]. fold sp in Hsp, Hsp16. split; [done|].
  pose proof (Forall2_length _ _ _ Ha) as Hlen. unfold PGSIZE in Hsb. rewrite MAXVA_val in Hmax. pose proof (low_le sz strs).
  assert ((8 * length (places sz strs ++ [0%Z]))%nat = (8 * (length argv + 1))%nat) as Hl by (rewrite length_app, length_places; cbn [length]; lia).
  rewrite <- Hl in Harr. pose proof (array_words f (kmem_mem k') _ _ Harr) as Hwords. split; [|split; [|done]].
  - intros j str Hj. destruct (lookup_lt_is_Some_2 (places sz strs) j) as [p Hp]; [rewrite length_places; by eapply lookup_lt_Some|].
    pose proof (Forall_lookup_1 _ _ _ _ (places_low sz strs) Hp) as (P1 & P2 & P3).
    destruct (Forall2_lookup_lr _ _ _ _ _ _ (strings_fit sz strs) Hp Hj) as [_ F2].
    exists p. split; [|split; [done|split; [lia|split; [lia|exact (Forall2_lookup_lr _ _ _ _ _ _ Hs Hp Hj)]]]].
    apply Hwords; [by apply lookup_app_l_Some|lia].
  - replace argc with (Z.of_nat (length (places sz strs))) by (rewrite length_places; lia). apply Hwords; [|lia].
    rewrite lookup_app_r by lia. by rewrite Nat.sub_diag.
Qed.
