(* ===== verification/Sysfile.v ===== *)
(** * sysfile.c: the file system calls

    The work on inodes is generic in the block layer, like fs.c itself: [link_fs],
    [unlink_fs], [create], [open_fs] and [chmod_fs] are what runs between
    [begin_op] and [end_op].  The system calls fetch the arguments, and handle
    file descriptors.  -1 is returned as such; [syscall] stores it as 64 bits. *)

From S2P Require Import Prelude CString Riscv Kalloc Vm Param Bio Log.
From S2P Require Import BlockLayer BlockLog FsDisk Fs Pipe Kernel Printf Proc Console Files Exec.

Definition SEEK_SET : Z := 0.
Definition SEEK_CUR : Z := 1.
Definition SEEK_END : Z := 2.

(** ** On inodes *)

Section sysfs.
Context {B : Type} `{BlockOps B}.

Definition add_nlink (ip : nat) (d : Z) : M (fs B) unit :=
  modify (upd_inode ip (λ x, with_nlink (s16 (i_nlink x + d)) x)).

(** [sys_link] from [namei] on; [cwd] is the current directory. *)
Definition link_fs (cwd : nat) (old new : list Z) : M (fs B) Z :=
  let! r := namei cwd old in
  match r with
  | None => ret (-1)
  | Some ip =>
      ilock (Some ip) ;;;
      let! x := gets (geti ip) in
      if i_type x =? T_DIR then iunlockput ip ;;; ret (-1)
      else
        add_nlink ip 1 ;;;
        iupdate ip ;;;
        iunlock (Some ip) ;;;
        let bad :=
          ilock (Some ip) ;;;
          add_nlink ip (-1) ;;;
          iupdate ip ;;;
          iunlockput ip ;;;
          ret (-1) in
        let! r := nameiparent cwd new in
        match r with
        | None => bad
        | Some (dp, name) =>
            ilock (Some dp) ;;;
            let! x := gets (geti ip) in
            let! d := gets (geti dp) in
            let! r := (if negb (i_dev d =? i_dev x) then ret (-1) else dirlink dp name (i_inum x)) in
            if r <? 0 then iunlockput dp ;;; bad
            else iunlockput dp ;;; iput ip ;;; ret 0
        end
  end.

(** The loop of [isdirempty] from [off] on. *)
Fixpoint isdirempty_loop (fuel : nat) (dp : nat) (off : Z) : M (fs B) bool :=
  match fuel with
  | O => diverge
  | S fuel =>
      let! x := gets (geti dp) in
      if off <? i_size x then
        let! r := read_dirent dp off in
        let '(k, de) := r in
        panic_if (negb (k =? DIRENT_SIZE)) "isdirempty: readi" ;;;
        if negb (de_inum de =? 0) then ret false
        else isdirempty_loop fuel dp (off + DIRENT_SIZE)
      else ret true
  end.

Definition isdirempty (dp : nat) : M (fs B) bool :=
  let! x := gets (geti dp) in
  isdirempty_loop (dir_fuel (i_size x)) dp (2 * DIRENT_SIZE).

(** [sys_unlink] from [nameiparent] on. *)
Definition unlink_fs (cwd : nat) (path : list Z) : M (fs B) Z :=
  let! r := nameiparent cwd path in
  match r with
  | None => ret (-1)
  | Some (dp, name) =>
      let bad := iunlockput dp ;;; ret (-1) in
      ilock (Some dp) ;;;
      if (namecmp name (str "." ++ [0]) =? 0) || (namecmp name (str ".." ++ [0]) =? 0) then bad
      else
        let! r := dirlookup dp name in
        match r with
        | None => bad
        | Some (ip, off) =>
            ilock (Some ip) ;;;
            let! x := gets (geti ip) in
            panic_if (i_nlink x <? 1) "unlink: nlink < 1" ;;;
            let! e := (if i_type x =? T_DIR then isdirempty ip else ret true) in
            if negb e then iunlockput ip ;;; bad
            else
              let! k := writei (local_in (replicate (Z.to_nat DIRENT_SIZE) 0)) dp 0 off DIRENT_SIZE in
              panic_if (negb (k =? DIRENT_SIZE)) "unlink: writei" ;;;
              let! x := gets (geti ip) in
              (if i_type x =? T_DIR then add_nlink dp (-1) ;;; iupdate dp else ret tt) ;;;
              iunlockput dp ;;;
              add_nlink ip (-1) ;;;
              iupdate ip ;;;
              iunlockput ip ;;;
              ret 0
        end
  end.

(** [create]: the inode, locked. *)
Definition create (cwd : nat) (path : list Z) (type major minor : Z) : M (fs B) (option nat) :=
  let! r := nameiparent cwd path in
  match r with
  | None => ret None
  | Some (dp, name) =>
      ilock (Some dp) ;;;
      let! r := dirlookup dp name in
      match r with
      | Some (ip, _) =>
          iunlockput dp ;;;
          ilock (Some ip) ;;;
          let! x := gets (geti ip) in
          if (type =? T_FILE) && ((i_type x =? T_FILE) || (i_type x =? T_DEVICE)) then ret (Some ip)
          else iunlockput ip ;;; ret None
      | None =>
          let! d := gets (geti dp) in
          let! r := ialloc (i_dev d) type in
          match r with
          | None => iunlockput dp ;;; ret None
          | Some ip =>
              ilock (Some ip) ;;;
              modify (upd_inode ip (with_devno (s16 major) (s16 minor))) ;;;
              modify (upd_inode ip (with_nlink 1)) ;;;
              iupdate ip ;;;
              let fail :=
                modify (upd_inode ip (with_nlink 0)) ;;;
                iupdate ip ;;;
                iunlockput ip ;;;
                iunlockput dp ;;;
                ret None in
              let! x := gets (geti ip) in
              let! d := gets (geti dp) in
              let! r := (if type =? T_DIR then
                           let! r := dirlink ip (str "." ++ [0]) (i_inum x) in
                           if r <? 0 then ret r else dirlink ip (str ".." ++ [0]) (i_inum d)
                         else ret 0) in
              if r <? 0 then fail
              else
                let! r := dirlink dp name (i_inum x) in
                if r <? 0 then fail
                else
                  (if type =? T_DIR then add_nlink dp 1 ;;; iupdate dp else ret tt) ;;;
                  iunlockput dp ;;;
                  ret (Some ip)
          end
      end
  end.

(** The part of [sys_open] that finds the inode and locks it. *)
Definition open_fs (cwd : nat) (path : list Z) (omode : Z) : M (fs B) (option nat) :=
  let! r :=
    (if has omode O_CREATE then create cwd path T_FILE 0 0
     else
       let! r := namei cwd path in
       match r with
       | None => ret None
       | Some ip =>
           ilock (Some ip) ;;;
           let! x := gets (geti ip) in
           if (i_type x =? T_DIR) && negb (omode =? O_RDONLY) then iunlockput ip ;;; ret None
           else ret (Some ip)
       end) in
  match r with
  | None => ret None
  | Some ip =>
      let! x := gets (geti ip) in
      if (i_type x =? T_DEVICE) && ((i_major x <? 0) || (NDEV <=? i_major x)) then iunlockput ip ;;; ret None
      else ret (Some ip)
  end.

(** [(ip->type & ~0777) | (mode & 0777)] *)
Definition chmod_type (type mode : Z) : Z := s16 (Z.lor (Z.land type (Z.lnot 0x1ff)) (Z.land mode 0x1ff)).

(** [sys_chmod] from [namei] on. *)
Definition chmod_fs (cwd : nat) (path : list Z) (mode : Z) : M (fs B) Z :=
  let! r := namei cwd path in
  match r with
  | None => ret (-1)
  | Some ip =>
      ilock (Some ip) ;;;
      modify (upd_inode ip (λ x, with_type (chmod_type (i_type x) mode) x)) ;;;
      iupdate ip ;;;
      iunlock (Some ip) ;;;
      ret 0
  end.
End sysfs.

(** ** The system calls *)

Section Sysfile.
Context (end_ trampoline : Z) (w : world).

(** The descriptor and its file, or [None] for -1. *)
Definition argfd (n : Z) : M K (option (Z * nat)) :=
  let! fd := argint n in
  if (fd <? 0) || (NOFILE <=? fd) then ret None
  else
    let! i := myproc in
    let! p := gets (proc_at i) in
    ret ((λ f, (fd, f)) <$> default None (p_ofile p !! Z.to_nat fd)).

(** The first free entry. *)
Definition fd_free (p : proc) : option nat := fst <$> list_find (λ f, f = None) (p_ofile p).

Definition set_fd (i : nat) (fd : nat) (f : option nat) : M K unit :=
  upd_proc i (λ p, set_ofile (<[fd := f]> (p_ofile p)) p).

Definition fdalloc (f : nat) : M K Z :=
  let! i := myproc in
  let! p := gets (proc_at i) in
  match fd_free p with
  | None => ret (-1)
  | Some fd => set_fd i fd (Some f) ;;; ret (Z.of_nat fd)
  end.

Definition sys_dup : M K Z :=
  let! r := argfd 0 in
  match r with
  | None => ret (-1)
  | Some (_, f) =>
      let! fd := fdalloc f in
      if fd <? 0 then ret (-1)
      else let! _ := filedup f in ret fd
  end.

Definition sys_read : M K Z :=
  let! p := argaddr 1 in
  let! n := argint 2 in
  let! r := argfd 0 in
  match r with
  | None => ret (-1)
  | Some (_, f) => fileread end_ w f p n
  end.

Definition sys_write : M K Z :=
  let! p := argaddr 1 in
  let! n := argint 2 in
  let! r := argfd 0 in
  match r with
  | None => ret (-1)
  | Some (_, f) => filewrite end_ w f p n
  end.

Definition sys_close : M K Z :=
  let! r := argfd 0 in
  match r with
  | None => ret (-1)
  | Some (fd, f) =>
      let! i := myproc in
      set_fd i (Z.to_nat fd) None ;;;
      fileclose end_ w f ;;;
      ret 0
  end.

(** [stack]: the uninitialised [struct stat] of [filestat]. *)
Definition sys_fstat (stack : list Z) : M K Z :=
  let! sb := argaddr 1 in
  let! r := argfd 0 in
  match r with
  | None => ret (-1)
  | Some (_, f) => filestat stack f sb
  end.

(** [myproc()->cwd]; namex reads it for a relative path only. *)
Definition cwd_of : M K nat :=
  let! i := myproc in
  let! p := gets (proc_at i) in
  ret (default 0%nat (p_cwd p)).

(** The string in a buffer that [argstr] filled. *)
Definition in_op {A} (m : nat → M (fs lstate) A) : M K A :=
  begin_op w ;;;
  let! cwd := cwd_of in
  let! r := onfs (m cwd) in
  end_op ;;;
  ret r.

Definition sys_link : M K Z :=
  let! r0 := argstr 0 [] MAXPATH in
  if r0.1 <? 0 then ret (-1)
  else
    let! r1 := argstr 1 [] MAXPATH in
    if r1.1 <? 0 then ret (-1)
    else in_op (λ cwd, link_fs cwd (cstring r0.2) (cstring r1.2)).

Definition sys_unlink : M K Z :=
  let! r := argstr 0 [] MAXPATH in
  if r.1 <? 0 then ret (-1)
  else in_op (λ cwd, unlink_fs cwd (cstring r.2)).

(** Stores into the new file: the inode [ip] has the fields [x]. *)
Definition open_file (omode : Z) (ip : nat) (x : inode) (f : file) : file :=
  let f := if i_type x =? T_DEVICE then set_major (i_major x) (set_ftype FD_DEVICE f)
           else set_off 0 (set_ftype FD_INODE f) in
  set_writable (has omode O_WRONLY || has omode O_RDWR)
    (set_readable (negb (has omode O_WRONLY)) (set_ip (Some ip) f)).

Definition sys_open : M K Z :=
  let! omode := argint 1 in
  let! r := argstr 0 [] MAXPATH in
  if r.1 <? 0 then ret (-1)
  else
    begin_op w ;;;
    let! cwd := cwd_of in
    let! o := onfs (open_fs cwd (cstring r.2) omode) in
    match o with
    | None => end_op ;;; ret (-1)
    | Some ip =>
        let bad := onfs (iunlockput ip) ;;; end_op ;;; ret (-1) in
        let! f := filealloc in
        match f with
        | None => bad
        | Some f =>
            let! fd := fdalloc f in
            if fd <? 0 then fileclose end_ w f ;;; bad
            else
              let! x := onfs (gets (geti ip)) in
              upd_file f (open_file omode ip x) ;;;
              (if has omode O_TRUNC && (i_type x =? T_FILE) then onfs (itrunc ip) else ret tt) ;;;
              onfs (iunlock (Some ip)) ;;;
              end_op ;;;
              ret fd
        end
    end.

(** [create], and the inode given back. *)
Definition make_fs (cwd : nat) (path : list Z) (type major minor : Z) : M (fs lstate) Z :=
  let! r := create cwd path type major minor in
  match r with
  | None => ret (-1)
  | Some ip => iunlockput ip ;;; ret 0
  end.

Definition sys_mkdir : M K Z :=
  begin_op w ;;;
  let! r := argstr 0 [] MAXPATH in
  let! cwd := cwd_of in
  let! x := (if r.1 <? 0 then ret (-1) else onfs (make_fs cwd (cstring r.2) T_DIR 0 0)) in
  end_op ;;;
  ret x.

Definition sys_mknod : M K Z :=
  begin_op w ;;;
  let! major := argint 1 in
  let! minor := argint 2 in
  let! r := argstr 0 [] MAXPATH in
  let! cwd := cwd_of in
  let! x := (if r.1 <? 0 then ret (-1) else onfs (make_fs cwd (cstring r.2) T_DEVICE (s16 major) (s16 minor))) in
  end_op ;;;
  ret x.

Definition sys_chdir : M K Z :=
  let! i := myproc in
  begin_op w ;;;
  let! r := argstr 0 [] MAXPATH in
  let! cwd := cwd_of in
  let! o := (if r.1 <? 0 then ret None else onfs (namei cwd (cstring r.2))) in
  match o with
  | None => end_op ;;; ret (-1)
  | Some ip =>
      onfs (ilock (Some ip)) ;;;
      let! x := onfs (gets (geti ip)) in
      if negb (i_type x =? T_DIR) then
        onfs (iunlockput ip) ;;;
        end_op ;;;
        ret (-1)
      else
        onfs (iunlock (Some ip)) ;;;
        let! p := gets (proc_at i) in
        let! old := inode_of (p_cwd p) in
        onfs (iput old) ;;;
        end_op ;;;
        upd_proc i (set_cwd (Some ip)) ;;;
        ret 0
  end.

(** [for(i = 0; i < NELEM(argv) && argv[i] != 0; i++) kfree(argv[i]);] *)
Fixpoint kfree_all (argv : list Z) : M K unit :=
  match argv with
  | [] => ret tt
  | a :: argv => onmem (kfree end_ a) ;;; kfree_all argv
  end.

(** The loop of [sys_exec], with [k] entries of [argv] left: the pages filled so
    far, and whether the loop ended at a null pointer. *)
Fixpoint exec_args (k : nat) (uargv i : Z) (argv : list Z) : M K (list Z * bool) :=
  match k with
  | O => ret (argv, false)
  | S k =>
      let! r := fetchaddr (u64 (uargv + 8 * i)) in
      match r with
      | None => ret (argv, false)
      | Some uarg =>
          if uarg =? 0 then ret (argv, true)
          else
            let! pa := onmem kalloc in
            if pa =? 0 then ret (argv, false)
            else
              let! r := fetchstr uarg [] PGSIZE in
              onmem (upd_mem (λ m, put_bytes m pa r.2)) ;;;
              if r.1 <? 0 then ret (argv ++ [pa], false)
              else exec_args k uargv (i + 1) (argv ++ [pa])
      end
  end.

Definition sys_exec : M K Z :=
  let! uargv := argaddr 1 in
  let! r := argstr 0 [] MAXPATH in
  if r.1 <? 0 then ret (-1)
  else
    let! a := exec_args (Z.to_nat MAXARG) uargv 0 [] in
    let '(argv, ok) := a in
    if (ok : bool) then
      let! x := exec end_ trampoline w (cstring r.2) argv in
      kfree_all argv ;;;
      ret x
    else kfree_all argv ;;; ret (-1).

Definition sys_pipe : M K Z :=
  let! i := myproc in
  let! fdarray := argaddr 0 in
  let! r := pipealloc end_ w in
  match r with
  | None => ret (-1)
  | Some (rf, wf) =>
      let bad := fileclose end_ w rf ;;; fileclose end_ w wf ;;; ret (-1) in
      let! fd0 := fdalloc rf in
      if fd0 <? 0 then bad
      else
        let! fd1 := fdalloc wf in
        if fd1 <? 0 then set_fd i (Z.to_nat fd0) None ;;; bad
        else
          let! p := gets (proc_at i) in
          let! c := onmem (copyout (p_pagetable p) fdarray (le_bytes 4 fd0)) in
          let! c := (if c <? 0 then ret c else onmem (copyout (p_pagetable p) (u64 (fdarray + 4)) (le_bytes 4 fd1))) in
          if c <? 0 then
            set_fd i (Z.to_nat fd0) None ;;;
            set_fd i (Z.to_nat fd1) None ;;;
            bad
          else ret 0
  end.

(** [f->off] is unsigned and is returned as it is. *)
Definition sys_lseek : M K Z :=
  let! fd := argint 0 in
  let! offset := argint 1 in
  let! whence := argint 2 in
  let! r := argfd 0 in
  match r with
  | None => ret (-1)
  | Some (_, f) =>
      let! x := gets (file_at f) in
      if negb (bool_decide (f_type x = FD_INODE)) || negb (f_writable x) || negb (f_readable x) then ret (-1)
      else
        let! off :=
          (if whence =? SEEK_SET then ret (Some (u32 offset))
           else if whence =? SEEK_CUR then ret (Some (u32 (f_off x + offset)))
           else if whence =? SEEK_END then
             let! ip := inode_of (f_ip x) in
             let! sz := onfs (gets (λ s, i_size (geti ip s))) in
             ret (Some (u32 (sz + offset)))
           else ret None) in
        match off with
        | None => ret (-1)
        | Some off => upd_file f (set_off off) ;;; ret off
        end
  end.

(** [stack]: the uninitialised [path].  Only the empty path is refused; when the
    argument cannot be read, the buffer is used as it is. *)
Definition sys_chmod (stack : list Z) : M K Z :=
  let! r := argstr 0 stack MAXPATH in
  if r.1 =? 0 then ret (-1)
  else
    let! mode := argint 1 in
    in_op (λ cwd, chmod_fs cwd (cstring r.2) mode).
End Sysfile.
