(* ===== verification/FdRefs.v ===== *)
(** * Open files: reference counts

    [ref] of a [struct file] against the descriptors of all processes, through the
    operations that make and drop descriptors: [fork], [exit], [wait], [dup],
    [close], [open] and [pipe]. *)

From S2P Require Import Prelude CString Riscv Kalloc Vm Param Bio Log.
From S2P Require Import BlockLayer BlockLog FsDisk Fs Pipe Kernel Printf Proc ProcSpec Console Files Life Exec Sysfile.

(** ** Counting descriptors *)

Definition cnt (f : nat) (l : list (option nat)) : Z := Z.of_nat (length (filter (λ o, o = Some f) l)).

(** 1 when the descriptor is for [f]. *)
Definition one (f : nat) (o : option nat) : Z := if decide (o = Some f) then 1 else 0.

Fixpoint total (f : nat) (ls : list (list (option nat))) : Z :=
  match ls with [] => 0 | l :: ls => cnt f l + total f ls end.

Lemma cnt_cons f o l : cnt f (o :: l) = one f o + cnt f l.
Proof. unfold cnt, one. rewrite filter_cons. case_decide; cbn [length]; lia. Qed.

Lemma cnt_insert f l k o o' : l !! k = Some o → cnt f (<[k := o']> l) = cnt f l - one f o + one f o'.
Proof.
  revert k. induction l as [|x l IH]; intros [|k] Hk; [done|done| |].
  - injection Hk as ->. change (<[0%nat := o']> (o :: l)) with (o' :: l). rewrite !cnt_cons. lia.
  - change (<[S k := o']> (x :: l)) with (x :: <[k := o']> l). rewrite !cnt_cons, (IH k) by done. lia.
Qed.

Lemma total_insert f ls i l l' : ls !! i = Some l → total f (<[i := l']> ls) = total f ls - cnt f l + cnt f l'.
Proof.
  revert i. induction ls as [|x ls IH]; intros [|i] Hi; [done|done| |].
  - injection Hi as ->. cbn. lia.
  - change (<[S i := l']> (x :: ls)) with (x :: <[i := l']> ls). cbn [total]. rewrite (IH i) by done. lia.
Qed.

Lemma cnt_none f l : Forall (λ o, o = None) l → cnt f l = 0.
Proof. induction 1 as [|o l Ho Hl IH]; [done|]. rewrite cnt_cons, IH, Ho. done. Qed.

Lemma cnt_pos f l k : l !! k = Some (Some f) → 1 <= cnt f l.
Proof.
  revert k. induction l as [|x l IH]; intros [|k] Hk; [done|done| |]; rewrite cnt_cons.
  - injection Hk as ->. unfold one. rewrite decide_True by done. unfold cnt. lia.
  - specialize (IH k Hk). unfold one. case_decide; lia.
Qed.

Lemma total_nonneg f ls : 0 <= total f ls.
Proof. induction ls as [|l ls IH]; cbn [total]; [lia|]. unfold cnt. lia. Qed.

Lemma total_pos f ls i l k : ls !! i = Some l → l !! k = Some (Some f) → 1 <= total f ls.
Proof.
  revert i. induction ls as [|x ls IH]; intros [|i] Hi Hk; [done|done| |]; cbn [total].
  - injection Hi as ->. pose proof (cnt_pos f l k Hk). pose proof (total_nonneg f ls). lia.
  - specialize (IH i Hi Hk). unfold cnt. lia.
Qed.

(** ** The invariant *)

(** A slot whose process is gone. *)
Definition dead (p : proc) : Prop := p_state p = UNUSED ∨ p_state p = ZOMBIE.

#[export] Instance dead_dec p : Decision (dead p).
Proof. unfold dead. apply _. Defined.

Definition no_files (p : proc) : Prop := Forall (λ o, o = None) (p_ofile p).

(** [e f] more references to file [f] than descriptors: what the running thread
    holds. *)
Record fd_ok (e : nat → Z) (s : K) : Prop := {
  fk_procs : length (k_procs s) = Z.to_nat NPROC;
  fk_len : Forall (λ l, length l = Z.to_nat NOFILE) (p_ofile <$> k_procs s);
  fk_files : length (k_files s) = Z.to_nat NFILE;
  fk_valid : ∀ i l k f, (p_ofile <$> k_procs s) !! i = Some l → l !! k = Some (Some f) → (f < Z.to_nat NFILE)%nat;
  fk_ref : ∀ f, (f < Z.to_nat NFILE)%nat → f_ref (file_at f s) = total f (p_ofile <$> k_procs s) + e f;
  fk_dead : ∀ j, dead (proc_at j s) → no_files (proc_at j s) }.

(** *** Operations that do not touch descriptors *)

(** No descriptor, reference count or current process changes, and no process
    dies. *)
Definition calm_to (s s' : K) : Prop :=
  p_ofile <$> k_procs s' = p_ofile <$> k_procs s ∧ f_ref <$> k_files s' = f_ref <$> k_files s ∧ k_cur s' = k_cur s ∧
  ∀ j, dead (proc_at j s') → dead (proc_at j s).

Definition calm {A} (m : M K A) : Prop := ∀ t a t', m t = Ok a t' → calm_to (st t) (st t').

Lemma calm_refl s : calm_to s s.
Proof. split_and!; auto. Qed.

Lemma ofile_at s s' j : p_ofile <$> k_procs s' = p_ofile <$> k_procs s → p_ofile (proc_at j s') = p_ofile (proc_at j s).
Proof.
  intros E. apply (f_equal (λ l, l !! j)) in E. rewrite !list_lookup_fmap in E. unfold proc_at.
  destruct (k_procs s' !! j), (k_procs s !! j); cbn in *; congruence.
Qed.

Lemma ref_at s s' f : f_ref <$> k_files s' = f_ref <$> k_files s → f_ref (file_at f s') = f_ref (file_at f s).
Proof.
  intros E. apply (f_equal (λ l, l !! f)) in E. rewrite !list_lookup_fmap in E. unfold file_at.
  destruct (k_files s' !! f), (k_files s !! f); cbn in *; congruence.
Qed.

Lemma calm_trans s1 s2 s3 : calm_to s1 s2 → calm_to s2 s3 → calm_to s1 s3.
Proof.
  intros (A1 & A2 & A3 & A4) (B1 & B2 & B3 & B4). split_and!; [congruence..|auto].
Qed.

Lemma calm_ok e s s' : calm_to s s' → fd_ok e s → fd_ok e s'.
Proof.
  intros (A1 & A2 & A3 & A4) [P1 P2 P3 P4 P5 P6].
  assert (length (k_procs s') = length (k_procs s)) as El by (apply (f_equal length) in A1; by rewrite !length_fmap in A1).
  assert (length (k_files s') = length (k_files s)) as Ef by (apply (f_equal length) in A2; by rewrite !length_fmap in A2).
  split; [congruence|by rewrite A1|congruence|by rewrite A1| |].
  - intros f Hf. rewrite A1, (ref_at s s' f A2). by apply P5.
  - intros j Hj. unfold no_files. rewrite (ofile_at s s' j A1). apply P6. by apply A4.
Qed.

Lemma calm_bind {A B} (m : M K A) (k : A → M K B) : calm m → (∀ a, calm (k a)) → calm (bind m k).
Proof. intros Hm Hk t b t' E. apply bind_inv_Ok in E as (a & t1 & E1 & E2). eapply calm_trans; [by eapply Hm|by eapply Hk]. Qed.

Lemma calm_ret {A} (a : A) : calm (ret a).
Proof. intros t b t' [= _ <-]. apply calm_refl. Qed.
Lemma calm_gets {A} (f : K → A) : calm (gets f).
Proof. intros t b t' [= _ <-]. apply calm_refl. Qed.
Lemma calm_get : calm (@get K).
Proof. intros t b t' [= _ <-]. apply calm_refl. Qed.
Lemma calm_panic {A} msg : calm (@panic K A msg).
Proof. intros t b t' [=]. Qed.
Lemma calm_asleep {A} : calm (λ t, @Asleep K A t).
Proof. intros t b t' [=]. Qed.
Lemma calm_acquire lk : calm (@acquire K lk).
Proof. intros t b t'. unfold acquire. case_decide; [discriminate|]. intros [= _ <-]. apply calm_refl. Qed.
Lemma calm_release lk : calm (@release K lk).
Proof. intros t b t'. unfold release. case_decide; [|discriminate]. intros [= _ <-]. apply calm_refl. Qed.
Lemma calm_modify (f : K → K) : (∀ s : K, k_procs (f s) = k_procs s ∧ k_files (f s) = k_files s ∧ k_cur (f s) = k_cur s) → calm (modify f).
Proof.
  intros Hf t b t' [= _ <-]. destruct (Hf (st t)) as (E1 & E2 & E3). unfold calm_to. cbn [st]. rewrite E1, E2, E3. split_and!; [done..|].
  intros j. unfold proc_at. rewrite E1. auto.
Qed.
Lemma calm_onmem {A} (m : M kmem A) : calm (onmem m).
Proof.
  intros [h0 s] b t'. unfold onmem, lift. destruct (m _) as [a [h k]| |]; [|discriminate|discriminate]. intros [= _ <-]. cbn [st].
  destruct s. split_and!; [reflexivity..|]. intros j Hj. exact Hj.
Qed.
Lemma calm_onfs {A} (m : M (fs lstate) A) : calm (onfs m).
Proof.
  intros [h0 s] b t'. unfold onfs, lift. destruct (m _) as [a [h k]| |]; [|discriminate|discriminate]. intros [= _ <-]. cbn [st].
  destruct s. split_and!; [reflexivity..|]. intros j Hj. exact Hj.
Qed.

Lemma on_proc_ofile i f s : (∀ p, p_ofile (f p) = p_ofile p) → p_ofile <$> k_procs (on_proc i f s) = p_ofile <$> k_procs s.
Proof.
  intros Hf. unfold on_proc. rewrite procs_set, list_fmap_insert, Hf. unfold proc_at. destruct (k_procs s !! i) as [p|] eqn:E.
  - apply list_insert_id. by rewrite list_lookup_fmap, E.
  - apply list_insert_ge. rewrite length_fmap. by apply lookup_ge_None.
Qed.

Lemma on_proc_files i f s : k_files (on_proc i f s) = k_files s.
Proof. unfold on_proc. by destruct s. Qed.

Lemma on_proc_at i f s j : proc_at j (on_proc i f s) = proc_at j s ∨ (j = i ∧ proc_at j (on_proc i f s) = f (proc_at i s)).
Proof.
  destruct (decide (j = i)) as [->|Hj]; [|left; by apply on_proc_other].
  destruct (decide (i < length (k_procs s))%nat) as [Hi|Hi]; [right; split; [done|by apply on_proc_same]|left].
  unfold on_proc, proc_at. rewrite procs_set. by rewrite list_insert_ge by lia.
Qed.

(** A change of one process. *)
Lemma calm_on_proc i f s : (∀ p, p_ofile (f p) = p_ofile p) → (dead (f (proc_at i s)) → dead (proc_at i s)) →
  calm_to s (on_proc i f s).
Proof.
  intros Ho Hd. split_and!; [by apply on_proc_ofile|by rewrite on_proc_files|apply on_proc_cur|].
  intros j. destruct (on_proc_at i f s j) as [->|[-> ->]]; auto.
Qed.

Lemma calm_upd i f : (∀ p, p_ofile (f p) = p_ofile p) → (∀ p, dead (f p) → dead p) → calm (upd_proc i f).
Proof. intros Ho Hd [h s] b t' [= _ <-]. cbn [st]. apply calm_on_proc; [done|]. apply Hd. Qed.

Lemma calm_upd_file i f : (∀ x, f_ref (f x) = f_ref x) → calm (upd_file i f).
Proof.
  intros Hf [h s] b t' [= _ <-]. cbn [st held]. split_and!; try (by destruct s).
  - assert (k_files (set_files (<[i := f (file_at i s)]> (k_files s)) s) = <[i := f (file_at i s)]> (k_files s)) as -> by (by destruct s).
    rewrite list_fmap_insert, Hf. unfold file_at. destruct (k_files s !! i) as [x|] eqn:E.
    + apply list_insert_id. by rewrite list_lookup_fmap, E.
    + apply list_insert_ge. rewrite length_fmap. by apply lookup_ge_None.
Qed.

Lemma calm_for_range a n body : (∀ i, calm (body i)) → calm (for_range a n body).
Proof. intros Hb. revert a. induction n as [|n IH]; intros a; cbn [for_range]; [apply calm_ret|]. apply calm_bind; [done|]. intros _. apply IH. Qed.

Lemma calm_for_each {I R} (idx : list I) (body : I → M K (option R)) : (∀ i, calm (body i)) → calm (for_each idx body).
Proof.
  intros Hb. induction idx as [|i idx IH]; cbn [for_each]; [apply calm_ret|]. apply calm_bind; [done|]. intros [r|]; [apply calm_ret|done].
Qed.

(** The operations that are calm. *)
Create HintDb calm.

Ltac calm1 :=
  match goal with
  | |- calm (bind _ _) => apply calm_bind; [|intros ?]
  | |- calm (ret _) => apply calm_ret
  | |- calm (gets _) => apply calm_gets
  | |- calm get => apply calm_get
  | |- calm (panic _) => apply calm_panic
  | |- calm (undefined _) => apply calm_panic
  | |- calm (panic_if ?b _) => destruct b; [apply calm_panic|apply calm_ret]
  | |- calm (λ t, Asleep t) => apply calm_asleep
  | |- calm (acquire _) => apply calm_acquire
  | |- calm (release _) => apply calm_release
  | |- calm (holding _) => intros ? ? ? [= _ <-]; apply calm_refl
  | |- calm (onmem _) => apply calm_onmem
  | |- calm (onfs _) => apply calm_onfs
  | |- calm (modify _) => apply calm_modify; intros []; repeat split
  | |- calm (upd_proc _ _) => apply calm_upd; [intros []; reflexivity|intros [] [Hd|Hd]; first [discriminate Hd|left; exact Hd|right; exact Hd]]
  | |- calm (upd_file _ _) => apply calm_upd_file; intros []; reflexivity
  | |- calm (for_range _ _ _) => apply calm_for_range; intros ?
  | |- calm (for_each _ _) => apply calm_for_each; intros ?
  | |- calm (if ?b then _ else _) => destruct b
  | |- calm (match ?x with _ => _ end) => destruct x
  | |- calm _ => solve [eauto with calm]
  end.
Ltac calm := repeat calm1.

Lemma calm_myproc : calm myproc.
Proof. unfold myproc. calm. Qed.
#[export] Hint Resolve calm_myproc : calm.

Lemma calm_plock i : calm (plock i).
Proof. unfold plock. calm. Qed.
Lemma calm_punlock i : calm (punlock i).
Proof. unfold punlock. calm. Qed.
#[export] Hint Resolve calm_plock calm_punlock : calm.

Lemma calm_tf_get i off : calm (tf_get i off).
Proof. unfold tf_get. calm. Qed.
Lemma calm_tf_set i off v : calm (tf_set i off v).
Proof. unfold tf_set. calm. Qed.
#[export] Hint Resolve calm_tf_get calm_tf_set : calm.

Lemma calm_killed i : calm (killed i).
Proof. unfold killed. calm. Qed.
#[export] Hint Resolve calm_killed : calm.

Lemma calm_wake i c : calm (let! p := gets (proc_at i) in
  (if decide (p_state p = SLEEPING ∧ p_chan p = Some c) then upd_proc i (set_state RUNNABLE) else ret tt)).
Proof. calm. Qed.

Lemma calm_wakeup c : calm (wakeup c).
Proof. unfold wakeup. calm. Qed.
#[export] Hint Resolve calm_wakeup : calm.

Lemma calm_inode_of o : calm (inode_of o).
Proof. unfold inode_of. calm. Qed.
Lemma calm_begin_op w : calm (Files.begin_op w).
Proof. unfold Files.begin_op. calm. Qed.
Lemma calm_end_op : calm Files.end_op.
Proof. unfold Files.end_op. calm. Qed.
#[export] Hint Resolve calm_inode_of calm_begin_op calm_end_op : calm.

Lemma calm_pipeclose end_ pi wr : calm (@pipeclose K (kernel_pipes end_) pi wr).
Proof. unfold pipeclose, updp, readp. cbn [pipe_wakeup pipe_kfree kernel_pipes set_pipe get_pipe]. calm. Qed.
#[export] Hint Resolve calm_pipeclose : calm.

(** *** Operations on the file table *)

(** The reference counts change by [d], and nothing else that matters. *)
Definition refs_to (d : nat → Z) (s s' : K) : Prop :=
  p_ofile <$> k_procs s' = p_ofile <$> k_procs s ∧ length (k_files s') = length (k_files s) ∧
  (∀ f, (f < length (k_files s))%nat → f_ref (file_at f s') = f_ref (file_at f s) + d f) ∧ k_cur s' = k_cur s ∧
  ∀ j, dead (proc_at j s') → dead (proc_at j s).

Lemma calm_refs s s' : calm_to s s' → refs_to (λ _, 0) s s'.
Proof.
  intros (A1 & A2 & A3 & A4). split_and!; [done| | |done|done].
  - apply (f_equal length) in A2. by rewrite !length_fmap in A2.
  - intros f _. rewrite (ref_at s s' f A2). lia.
Qed.

Lemma refs_trans d1 d2 d s1 s2 s3 : refs_to d1 s1 s2 → refs_to d2 s2 s3 → (∀ f, d f = d1 f + d2 f) → refs_to d s1 s3.
Proof.
  intros (A1 & A2 & A3 & A4 & A5) (B1 & B2 & B3 & B4 & B5) Hd. split_and!; [congruence|congruence| |congruence|auto].
  intros f Hf. rewrite B3, A3, Hd by (done || lia). lia.
Qed.

Lemma refs_calm_l d s1 s2 s3 : calm_to s1 s2 → refs_to d s2 s3 → refs_to d s1 s3.
Proof. intros H1 H2. eapply refs_trans; [by apply calm_refs|exact H2|done]. Qed.
Lemma refs_calm_r d s1 s2 s3 : refs_to d s1 s2 → calm_to s2 s3 → refs_to d s1 s3.
Proof. intros H1 H2. eapply refs_trans; [exact H1|by apply calm_refs|]. intros f. cbn beta. lia. Qed.

Lemma fd_ok_ext e e' s : (∀ f, (f < Z.to_nat NFILE)%nat → e' f = e f) → fd_ok e s → fd_ok e' s.
Proof. intros He [P1 P2 P3 P4 P5 P6]. split; try done. intros f Hf. rewrite P5, He by done. done. Qed.

Lemma refs_ok e d s s' : refs_to d s s' → fd_ok e s → fd_ok (λ f, e f + d f) s'.
Proof.
  intros (A1 & A2 & A3 & A4 & A5) [P1 P2 P3 P4 P5 P6]. split; rewrite ?A1; try done; [|congruence| |].
  - apply (f_equal length) in A1. rewrite !length_fmap in A1. congruence.
  - intros f Hf. rewrite A3, P5 by (done || lia). lia.
  - intros j Hj. unfold no_files. rewrite (ofile_at s s' j A1). apply P6. by apply A5.
Qed.

(** One file of the table is changed. *)
Lemma upd_file_refs f u t a t' : upd_file f u t = Ok a t' → (f < length (k_files (st t)))%nat →
  refs_to (λ g, if decide (g = f) then f_ref (u (file_at f (st t))) - f_ref (file_at f (st t)) else 0) (st t) (st t') ∧
  file_at f (st t') = u (file_at f (st t)).
Proof.
  destruct t as [h s]. intros [= _ <-]. cbn [st held]. intros Hf.
  set (s' := set_files _ s). assert (k_files s' = <[f := u (file_at f s)]> (k_files s)) as E by (by destruct s).
  assert (∀ g, file_at g s' = if decide (g = f) then u (file_at f s) else file_at g s) as Hat.
  { intros g. unfold file_at at 1. rewrite E. case_decide; subst; [by rewrite list_lookup_insert_eq|by rewrite list_lookup_insert_ne]. }
  split; [|by rewrite Hat, decide_True]. split_and!; try (by destruct s).
  - by rewrite E, length_insert.
  - intros g Hg. rewrite Hat. case_decide; subst; lia.
Qed.

Lemma file_at_range f s : 1 <= f_ref (file_at f s) → (f < length (k_files s))%nat.
Proof.
  intros H. destruct (decide (f < length (k_files s))%nat); [done|]. unfold file_at in H. rewrite lookup_ge_None_2 in H by lia. cbn in H. lia.
Qed.

Ltac calm_in E := lazymatch type of E with ?m ?t = Ok _ _ => let H := fresh "C" in assert (calm m) as H by calm; apply H in E; clear H end.

Lemma one_case g f d : d = 1 → one g (Some f) = if decide (g = f) then d else 0.
Proof. intros ->. unfold one. repeat case_decide; congruence. Qed.

Lemma filedup_refs f t a t' : filedup f t = Ok a t' → a = f ∧ refs_to (λ g, one g (Some f)) (st t) (st t').
Proof.
  unfold filedup. intros E. apply bind_inv_Ok in E as ([] & t1 & E1 & E). apply bind_inv_Ok in E as (x & t2 & E2 & E).
  injection E2 as <- <-. apply bind_inv_Ok in E as ([] & t3 & E3 & E). unfold panic_if in E3.
  destruct (Z.ltb_spec (f_ref (file_at f (st t1))) 1) as [|Hge]; [discriminate E3|]. injection E3 as <-.
  apply bind_inv_Ok in E as ([] & t4 & E4 & E). apply bind_inv_Ok in E as ([] & t5 & E5 & E). injection E as <- <-.
  calm_in E1. calm_in E5. destruct (upd_file_refs _ _ _ _ _ E4 (file_at_range _ _ Hge)) as [R _].
  split; [done|]. eapply refs_calm_l; [exact E1|]. eapply refs_calm_r; [|exact E5].
  eapply refs_trans; [exact R|apply calm_refs, calm_refl|]. intros g. cbn beta.
  rewrite f_ref_set, Z.add_0_r. apply one_case. lia.
Qed.

Lemma fileclose_refs end_ w f t a t' : fileclose end_ w f t = Ok a t' → refs_to (λ g, - one g (Some f)) (st t) (st t').
Proof.
  unfold fileclose. intros E. apply bind_inv_Ok in E as ([] & t1 & E1 & E). apply bind_inv_Ok in E as (x & t2 & E2 & E).
  injection E2 as <- <-. apply bind_inv_Ok in E as ([] & t3 & E3 & E). unfold panic_if in E3.
  destruct (Z.ltb_spec (f_ref (file_at f (st t1))) 1) as [|Hge]; [discriminate E3|]. injection E3 as <-.
  apply bind_inv_Ok in E as ([] & t4 & E4 & E). calm_in E1. pose proof (file_at_range _ _ Hge) as Hr.
  destruct (upd_file_refs _ _ _ _ _ E4 Hr) as [R F].
  assert (refs_to (λ g, - one g (Some f)) (st t1) (st t4)) as R1.
  { eapply refs_trans; [exact R|apply calm_refs, calm_refl|]. intros g. cbn beta.
    rewrite f_ref_set, Z.add_0_r, (one_case g f 1) by done. case_decide; lia. }
  assert (f_ref (file_at f (st t4)) = f_ref (file_at f (st t1)) - 1) as Fr by (rewrite F; apply f_ref_set).
  apply bind_inv_Ok in E as (ff & t5 & E5 & E). injection E5 as <- <-.
  eapply refs_calm_l; [exact E1|]. destruct (Z.ltb_spec 0 (f_ref (file_at f (st t4)))) as [Hp|Hz].
  - calm_in E. eapply refs_calm_r; [exact R1|exact E].
  - apply bind_inv_Ok in E as ([] & t6 & E6 & E).
    assert (f < length (k_files (st t4)))%nat as Hr4 by (destruct R1 as (_ & -> & _); exact Hr).
    destruct (upd_file_refs _ _ _ _ _ E6 Hr4) as [R6 _].
    assert (calm_to (st t6) (st t')) as C6.
    { assert (calm (upd_file f (set_ftype FD_NONE) ;;; release L_ftable ;;;
        match f_type (file_at f (st t4)) with
        | FD_PIPE => @pipeclose K (kernel_pipes end_) (f_pipe (file_at f (st t4))) (f_writable (file_at f (st t4)))
        | FD_INODE | FD_DEVICE => Files.begin_op w ;;; let! ip := inode_of (f_ip (file_at f (st t4))) in onfs (iput ip) ;;; Files.end_op
        | FD_NONE => ret tt end)) as C by calm. exact (C _ _ _ E). }
    eapply refs_calm_r; [|exact C6]. eapply refs_trans; [exact R1|exact R6|]. intros g. cbn beta.
    rewrite f_ref_set. case_decide; lia.
Qed.

Lemma filealloc_refs (t : thread K) a t' : length (k_files (st t)) = Z.to_nat NFILE → filealloc t = Ok a t' →
  match a with
  | Some f => (f < Z.to_nat NFILE)%nat ∧ refs_to (λ g, one g (Some f)) (st t) (st t')
  | None => calm_to (st t) (st t')
  end.
Proof.
  intros Hlen E. unfold filealloc in E. apply bind_inv_Ok in E as ([] & t1 & E1 & E). calm_in E1.
  apply bind_inv_Ok in E as (r & t2 & E2 & E).
  assert (length (k_files (st t1)) = Z.to_nat NFILE) as Hlen1.
  { destruct E1 as (_ & E1 & _). apply (f_equal length) in E1. rewrite !length_fmap in E1. congruence. }
  assert (∀ idx, Forall (λ f, (f < Z.to_nat NFILE)%nat) idx → ∀ t1 t2 : thread K, length (k_files (st t1)) = Z.to_nat NFILE →
    for_each idx (λ i, let! f := gets (file_at i) in
      if f_ref f =? 0 then upd_file i (set_ref 1) ;;; release L_ftable ;;; ret (Some i) else ret None) t1 = Ok r t2 →
    match r with
    | Some f => (f < Z.to_nat NFILE)%nat ∧ refs_to (λ g, one g (Some f)) (st t1) (st t2)
    | None => calm_to (st t1) (st t2)
    end) as Hloop.
  { clear. induction 1 as [|i idx Hi Hidx IH]; intros t1 t2 Hl E; cbn [for_each] in E.
    - injection E as <- <-. apply calm_refl.
    - apply bind_inv_Ok in E as (q & t3 & E3 & E). apply bind_inv_Ok in E3 as (f & t4 & E4 & E3). injection E4 as <- <-.
      destruct (Z.eqb_spec (f_ref (file_at i (st t1))) 0) as [Hz|Hz].
      + apply bind_inv_Ok in E3 as ([] & t5 & E5 & E3). apply bind_inv_Ok in E3 as ([] & t6 & E6 & E3). injection E3 as <- <-.
        injection E as <- <-. split; [done|]. destruct (upd_file_refs _ _ _ _ _ E5 ltac:(lia)) as [R _]. calm_in E6.
        eapply refs_calm_r; [|exact E6]. eapply refs_trans; [exact R|apply calm_refs, calm_refl|]. intros g. cbn beta.
        rewrite f_ref_set, Z.add_0_r. apply one_case. lia.
      + injection E3 as <- <-. by apply IH. }
  apply (Hloop files_idx) in E2; [|apply Forall_forall; intros i Hi; unfold files_idx in Hi; apply elem_of_seq in Hi; lia|done].
  destruct r as [f|].
  - injection E as <- <-. destruct E2 as [Hf R]. split; [done|]. eapply refs_calm_l; [exact E1|exact R].
  - apply bind_inv_Ok in E as ([] & t3 & E3 & E). injection E as <- <-. calm_in E3.
    eapply calm_trans; [exact E1|]. eapply calm_trans; [exact E2|exact E3].
Qed.

(** ** The running process *)

Definition live (i : nat) (s : K) : Prop := (i < Z.to_nat NPROC)%nat ∧ ¬ dead (proc_at i s).

(** The invariant while process [i] runs in the kernel. *)
Definition running (e : nat → Z) (i : nat) (s : K) : Prop := fd_ok e s ∧ k_cur s = Some i ∧ live i s.

Lemma running_refs e d i s s' : refs_to d s s' → running e i s → running (λ f, e f + d f) i s'.
Proof.
  intros R (Hf & Hc & Hl & Hd). split; [by eapply refs_ok|]. destruct R as (_ & _ & _ & E & D). split; [congruence|].
  split; [done|]. intros Hj. apply Hd. by apply D.
Qed.

Lemma running_calm e i s s' : calm_to s s' → running e i s → running e i s'.
Proof.
  intros R (Hf & Hc & Hl & Hd). split; [by eapply calm_ok|]. destruct R as (_ & _ & E & D). split; [congruence|].
  split; [done|]. intros Hj. apply Hd. by apply D.
Qed.

Lemma running_ext e e' i s : (∀ f, e' f = e f) → running e i s → running e' i s.
Proof. intros He (Hf & Hr). split; [|done]. eapply fd_ok_ext; [|exact Hf]. intros f _. apply He. Qed.

Definition put_fd (fd : nat) (o : option nat) (p : proc) : proc := set_ofile (<[fd := o]> (p_ofile p)) p.

Lemma put_fd_state fd o p : p_state (put_fd fd o p) = p_state p ∧ p_ofile (put_fd fd o p) = <[fd := o]> (p_ofile p).
Proof. by destruct p. Qed.

Lemma put_fd_ok e j fd o o' s : fd_ok e s → (j < Z.to_nat NPROC)%nat → p_ofile (proc_at j s) !! fd = Some o →
  (∀ f, o' = Some f → (f < Z.to_nat NFILE)%nat) → (o' = None ∨ ¬ dead (proc_at j s)) →
  fd_ok (λ g, e g + one g o - one g o') (on_proc j (put_fd fd o') s).
Proof.
  intros [P1 P2 P3 P4 P5 P6] Hj Ho Hv Hd. set (s' := on_proc j (put_fd fd o') s).
  assert ((p_ofile <$> k_procs s) !! j = Some (p_ofile (proc_at j s))) as Hl.
  { rewrite list_lookup_fmap. unfold proc_at. destruct (lookup_lt_is_Some_2 (k_procs s) j) as [p Hp]; [lia|]. by rewrite Hp. }
  assert (p_ofile <$> k_procs s' = <[j := <[fd := o']> (p_ofile (proc_at j s))]> (p_ofile <$> k_procs s)) as E.
  { subst s'. unfold on_proc. rewrite procs_set, list_fmap_insert. by rewrite (proj2 (put_fd_state _ _ _)). }
  split.
  - subst s'. by rewrite on_proc_length.
  - rewrite E. apply Forall_insert; [done|]. rewrite length_insert. exact (Forall_lookup_1 _ _ _ _ P2 Hl).
  - subst s'. by rewrite on_proc_files.
  - intros i l k f Hi Hk. rewrite E in Hi. destruct (decide (i = j)) as [->|Hij].
    + rewrite list_lookup_insert_eq in Hi by (by eapply lookup_lt_Some). injection Hi as <-.
      destruct (decide (k = fd)) as [->|Hkf]; [|rewrite list_lookup_insert_ne in Hk by done; by eapply P4].
      rewrite list_lookup_insert_eq in Hk by (by eapply lookup_lt_Some). injection Hk as ->. by apply Hv.
    + rewrite list_lookup_insert_ne in Hi by done. by eapply P4.
  - intros f Hf. rewrite E, (total_insert f _ j _ _ Hl), (cnt_insert f _ fd o o' Ho). unfold file_at. subst s'.
    rewrite on_proc_files. rewrite (P5 f Hf : f_ref (default file0 (k_files s !! f)) = _). lia.
  - intros i Hi. destruct (decide (i = j)) as [->|Hij]; [|subst s'; rewrite on_proc_other in * by done; by apply P6].
    subst s'. rewrite on_proc_same in * by (unfold NPROC in *; lia). destruct Hd as [->|Hnd].
    + unfold no_files. rewrite (proj2 (put_fd_state _ _ _)). apply Forall_insert; [|done]. apply P6. unfold dead in *. by rewrite (proj1 (put_fd_state _ _ _)) in Hi.
    + exfalso. apply Hnd. unfold dead in *. by rewrite (proj1 (put_fd_state _ _ _)) in Hi.
Qed.

Lemma put_fd_running e i fd o o' s : running e i s → p_ofile (proc_at i s) !! fd = Some o → (∀ f, o' = Some f → (f < Z.to_nat NFILE)%nat) →
  running (λ g, e g + one g o - one g o') i (on_proc i (put_fd fd o') s) ∧
  p_ofile (proc_at i (on_proc i (put_fd fd o') s)) = <[fd := o']> (p_ofile (proc_at i s)).
Proof.
  intros (Hf & Hc & Hl & Hd) Ho Hv. assert (i < length (k_procs s))%nat as Hi by (rewrite (fk_procs _ _ Hf); done).
  split; [|rewrite on_proc_same by done; by apply put_fd_state]. split; [by apply put_fd_ok; auto|]. split; [by rewrite on_proc_cur|].
  split; [done|]. rewrite on_proc_same by done. unfold dead. by rewrite (proj1 (put_fd_state _ _ _)).
Qed.

Lemma myproc_inv t a t' : myproc t = Ok a t' → t' = t ∧ k_cur (st t) = Some a.
Proof.
  unfold myproc. intros E. apply bind_inv_Ok in E as (c & t1 & E1 & E). injection E1 as <- <-.
  unfold K in *. destruct (k_cur (st t)) as [j|] eqn:Ec; [by injection E as <- <-|discriminate].
Qed.

Lemma valid_fd e i k f s : running e i s → p_ofile (proc_at i s) !! k = Some (Some f) → (f < Z.to_nat NFILE)%nat.
Proof.
  intros (Hf & _ & Hi & _) Hk. eapply (fk_valid _ _ Hf i); [|exact Hk]. rewrite list_lookup_fmap. unfold proc_at.
  destruct (lookup_lt_is_Some_2 (k_procs s) i) as [p Hp]; [rewrite (fk_procs _ _ Hf); done|]. by rewrite Hp.
Qed.

(** [fdalloc] takes a free descriptor. *)
Lemma fdalloc_inv e i f t a t' : fdalloc f t = Ok a t' → running e i (st t) →
  (a < 0 ∧ t' = t) ∨
  ∃ fd, a = Z.of_nat fd ∧ p_ofile (proc_at i (st t)) !! fd = Some None ∧ st t' = on_proc i (put_fd fd (Some f)) (st t).
Proof.
  unfold fdalloc. intros E R. apply bind_inv_Ok in E as (j & t1 & E1 & E). apply myproc_inv in E1 as [-> Hj].
  assert (j = i) as -> by (destruct R as (_ & Hc & _); congruence).
  apply bind_inv_Ok in E as (p & t2 & E2 & E). injection E2 as <- <-. unfold fd_free in E.
  destruct (list_find _ _) as [[fd o]|] eqn:Ef; cbn [fst fmap option_fmap option_map] in E.
  - right. apply bind_inv_Ok in E as ([] & t3 & E3 & E). injection E as <- <-. apply list_find_Some in Ef as (Ho & -> & _).
    exists fd. split; [done|]. split; [done|]. destruct t as [h s]. injection E3 as <-. reflexivity.
  - left. injection E as <- <-. split; [lia|done].
Qed.

Lemma calm_argraw n : calm (argraw n).
Proof. unfold argraw. calm. Qed.
#[export] Hint Resolve calm_argraw : calm.
Lemma calm_argint n : calm (argint n).
Proof. unfold argint. calm. Qed.
Lemma calm_argaddr n : calm (argaddr n).
Proof. unfold argaddr. calm. Qed.
#[export] Hint Resolve calm_argint calm_argaddr : calm.
Lemma calm_argstr n buf max : calm (argstr n buf max).
Proof. unfold argstr, fetchstr. calm. Qed.
#[export] Hint Resolve calm_argstr : calm.
Lemma calm_cwd_of : calm cwd_of.
Proof. unfold cwd_of. calm. Qed.
#[export] Hint Resolve calm_cwd_of : calm.

Lemma argfd_inv e i n t a t' : argfd n t = Ok a t' → running e i (st t) →
  running e i (st t') ∧ match a with None => True | Some (fd, f) => p_ofile (proc_at i (st t')) !! Z.to_nat fd = Some (Some f) end.
Proof.
  unfold argfd. intros E R. apply bind_inv_Ok in E as (fd & t1 & E1 & E). calm_in E1. apply (running_calm e i _ _ E1) in R.
  destruct (_ || _); [by injection E as <- <-|].
  apply bind_inv_Ok in E as (j & t2 & E2 & E). apply myproc_inv in E2 as [-> Hj]. assert (j = i) as -> by (destruct R as (_ & Hc & _); congruence).
  apply bind_inv_Ok in E as (p & t3 & E3 & E). injection E3 as <- <-. injection E as <- <-. split; [done|].
  destruct (p_ofile _ !! Z.to_nat fd) as [[f|]|] eqn:Ef; cbn; done.
Qed.

(** ** The system calls *)

Definition nothing : nat → Z := λ _, 0.

Ltac ext := eapply running_ext; [|eassumption]; intros ?g; cbn beta; unfold nothing in *; lia.

Lemma one_none g : one g None = 0.
Proof. unfold one. by rewrite decide_False. Qed.

Lemma sys_dup_refs i t a t' : sys_dup t = Ok a t' → running nothing i (st t) → running nothing i (st t').
Proof.
  unfold sys_dup. intros E R. apply bind_inv_Ok in E as (r & t1 & E1 & E). destruct (argfd_inv _ _ _ _ _ _ E1 R) as [R1 Hfd].
  destruct r as [[fd0 f]|]; [|by injection E as <- <-]. pose proof (valid_fd _ _ _ _ _ R1 Hfd) as Hf.
  apply bind_inv_Ok in E as (fd & t2 & E2 & E).
  destruct (fdalloc_inv _ _ _ _ _ _ E2 R1) as [[Hneg ->]|(k & -> & Hk & Es)].
  - rewrite (proj2 (Z.ltb_lt fd 0) Hneg) in E. by injection E as <- <-.
  - rewrite (proj2 (Z.ltb_ge (Z.of_nat k) 0)) in E by lia.
    destruct (put_fd_running _ i k None (Some f) _ R1 Hk) as [R2 _]; [by intros ? [= <-]|]. rewrite <- Es in R2.
    apply bind_inv_Ok in E as (x & t3 & E3 & E). injection E as <- <-. apply filedup_refs in E3 as [_ R3].
    apply (running_refs _ _ _ _ _ R3) in R2. eapply running_ext; [|exact R2]. intros g. cbn beta. rewrite one_none. unfold nothing. lia.
Qed.

Lemma sys_close_refs end_ w i t a t' : sys_close end_ w t = Ok a t' → running nothing i (st t) → running nothing i (st t').
Proof.
  unfold sys_close. intros E R. apply bind_inv_Ok in E as (r & t1 & E1 & E). destruct (argfd_inv _ _ _ _ _ _ E1 R) as [R1 Hfd].
  destruct r as [[fd0 f]|]; [|by injection E as <- <-].
  apply bind_inv_Ok in E as (j & t2 & E2 & E). apply myproc_inv in E2 as [-> Hj]. assert (j = i) as -> by (destruct R1 as (_ & Hc & _); congruence).
  apply bind_inv_Ok in E as ([] & t3 & E3 & E).
  destruct (put_fd_running _ i (Z.to_nat fd0) (Some f) None _ R1 Hfd) as [R2 _]; [done|].
  assert (st t3 = on_proc i (put_fd (Z.to_nat fd0) None) (st t1)) as Es.
  { destruct t1 as [h s]. unfold set_fd, upd_proc, modify in E3. injection E3 as <-. reflexivity. }
  rewrite <- Es in R2. apply bind_inv_Ok in E as ([] & t4 & E4 & E). injection E as <- <-. apply fileclose_refs in E4.
  apply (running_refs _ _ _ _ _ E4) in R2. eapply running_ext; [|exact R2]. intros g. cbn beta. rewrite one_none. unfold nothing. lia.
Qed.

Lemma open_file_ref omode ip x f : f_ref (open_file omode ip x f) = f_ref f.
Proof. destruct f. unfold open_file. by destruct (i_type x =? T_DEVICE). Qed.

Lemma files_len e i s : running e i s → length (k_files s) = Z.to_nat NFILE.
Proof. intros (Hf & _). apply (fk_files _ _ Hf). Qed.

Lemma sys_open_refs end_ w i t a t' : sys_open end_ w t = Ok a t' → running nothing i (st t) → running nothing i (st t').
Proof.
  unfold sys_open. intros E R. apply bind_inv_Ok in E as (omode & t1 & E1 & E). calm_in E1. apply (running_calm _ _ _ _ E1) in R.
  apply bind_inv_Ok in E as (r & t2 & E2 & E). calm_in E2. apply (running_calm _ _ _ _ E2) in R.
  destruct (r.1 <? 0); [by injection E as <- <-|].
  apply bind_inv_Ok in E as ([] & t3 & E3 & E). calm_in E3. apply (running_calm _ _ _ _ E3) in R.
  apply bind_inv_Ok in E as (cwd & t4 & E4 & E). calm_in E4. apply (running_calm _ _ _ _ E4) in R.
  apply bind_inv_Ok in E as (o & t5 & E5 & E). calm_in E5. apply (running_calm _ _ _ _ E5) in R.
  destruct o as [ip|]; [|calm_in E; by apply (running_calm _ _ _ _ E) in R].
  apply bind_inv_Ok in E as (f & t6 & E6 & E). apply (filealloc_refs _ _ _ (files_len _ _ _ R)) in E6.
  destruct f as [f|]; [|calm_in E; apply (running_calm _ _ _ _ E6) in R; by apply (running_calm _ _ _ _ E) in R].
  destruct E6 as [Hf E6]. apply (running_refs _ _ _ _ _ E6) in R.
  apply bind_inv_Ok in E as (fd & t7 & E7 & E). destruct (fdalloc_inv _ _ _ _ _ _ E7 R) as [[Hneg ->]|(k & -> & Hk & Es)].
  - rewrite (proj2 (Z.ltb_lt fd 0) Hneg) in E. apply bind_inv_Ok in E as ([] & t8 & E8 & E). apply fileclose_refs in E8.
    apply (running_refs _ _ _ _ _ E8) in R. calm_in E. apply (running_calm _ _ _ _ E) in R. ext.
  - rewrite (proj2 (Z.ltb_ge (Z.of_nat k) 0)) in E by lia.
    destruct (put_fd_running _ i k None (Some f) _ R Hk) as [R2 _]; [by intros ? [= <-]|]. rewrite <- Es in R2.
    apply bind_inv_Ok in E as (x & t8 & E8 & E). calm_in E8. apply (running_calm _ _ _ _ E8) in R2.
    apply bind_inv_Ok in E as ([] & t9 & E9 & E).
    assert (calm (upd_file f (open_file omode ip x))) as C9 by (apply calm_upd_file; intros y; apply open_file_ref).
    apply C9 in E9. apply (running_calm _ _ _ _ E9) in R2. calm_in E. apply (running_calm _ _ _ _ E) in R2.
    eapply running_ext; [|exact R2]. intros g. cbn beta. rewrite one_none. unfold nothing. lia.
Qed.

Lemma pipe_end_ref r wr pi f : f_ref (pipe_end r wr pi f) = f_ref f.
Proof. by destruct f. Qed.

Lemma pipealloc_bad_refs end_ w pi f0 f1 t a t' : pipealloc_bad end_ w pi f0 f1 t = Ok a t' →
  a = None ∧ refs_to (λ g, - one g f0 - one g f1) (st t) (st t').
Proof.
  unfold pipealloc_bad. intros E. apply bind_inv_Ok in E as ([] & t1 & E1 & E). calm_in E1.
  apply bind_inv_Ok in E as ([] & t2 & E2 & E). apply bind_inv_Ok in E as ([] & t3 & E3 & E). injection E as <- <-. split; [done|].
  assert (∀ f t t', close_opt end_ w f t = Ok tt t' → refs_to (λ g, - one g f) (st t) (st t')) as Hc.
  { intros [f|] u u' Eu; cbn [close_opt] in Eu; [by eapply fileclose_refs|]. injection Eu as <-.
    eapply refs_trans; [apply calm_refs, calm_refl..|]. intros g. cbn beta. rewrite one_none. lia. }
  eapply refs_calm_l; [exact E1|]. eapply refs_trans; [by eapply Hc|by eapply Hc|]. intros g. cbn beta. lia.
Qed.

Lemma pipealloc_refs end_ w e i t a t' : pipealloc end_ w t = Ok a t' → running e i (st t) →
  match a with
  | None => running e i (st t')
  | Some (r, wr) => (r < Z.to_nat NFILE)%nat ∧ (wr < Z.to_nat NFILE)%nat ∧ running (λ g, e g + one g (Some r) + one g (Some wr)) i (st t')
  end.
Proof.
  unfold pipealloc. intros E R. apply bind_inv_Ok in E as (f0 & t1 & E1 & E). apply (filealloc_refs _ _ _ (files_len _ _ _ R)) in E1.
  destruct f0 as [f0|].
  2:{ apply pipealloc_bad_refs in E as [-> E]. apply (running_calm _ _ _ _ E1) in R. apply (running_refs _ _ _ _ _ E) in R.
      eapply running_ext; [|exact R]. intros g. cbn beta. rewrite one_none. lia. }
  destruct E1 as [Hf0 E1]. apply (running_refs _ _ _ _ _ E1) in R.
  apply bind_inv_Ok in E as (f1 & t2 & E2 & E). apply (filealloc_refs _ _ _ (files_len _ _ _ R)) in E2.
  destruct f1 as [f1|].
  2:{ apply pipealloc_bad_refs in E as [-> E]. apply (running_calm _ _ _ _ E2) in R. apply (running_refs _ _ _ _ _ E) in R.
      eapply running_ext; [|exact R]. intros g. cbn beta. rewrite one_none. lia. }
  destruct E2 as [Hf1 E2]. apply (running_refs _ _ _ _ _ E2) in R.
  apply bind_inv_Ok in E as (pi & t3 & E3 & E). calm_in E3. apply (running_calm _ _ _ _ E3) in R.
  destruct (pi =? 0).
  { apply pipealloc_bad_refs in E as [-> E]. apply (running_refs _ _ _ _ _ E) in R. eapply running_ext; [|exact R]. intros g. cbn beta. lia. }
  apply bind_inv_Ok in E as (data & t4 & E4 & E). calm_in E4. apply (running_calm _ _ _ _ E4) in R.
  apply bind_inv_Ok in E as ([] & t5 & E5 & E). calm_in E5. apply (running_calm _ _ _ _ E5) in R.
  apply bind_inv_Ok in E as ([] & t6 & E6 & E). apply (calm_upd_file f0 _ (pipe_end_ref true false pi)) in E6. apply (running_calm _ _ _ _ E6) in R.
  apply bind_inv_Ok in E as ([] & t7 & E7 & E). apply (calm_upd_file f1 _ (pipe_end_ref false true pi)) in E7. apply (running_calm _ _ _ _ E7) in R.
  injection E as <- <-. split; [done|]. split; [done|]. exact R.
Qed.

(** A change of a descriptor as [set_fd] makes it. *)
Lemma set_fd_st i fd o t t' : set_fd i fd o t = Ok tt t' → st t' = on_proc i (put_fd fd o) (st t).
Proof. destruct t as [h s]. intros [= <-]. reflexivity. Qed.

(** Both files of a pipe that could not be handed out are closed. *)
Lemma close_both_refs end_ w e i r wr (c : Z) t a t' :
  (fileclose end_ w r ;;; fileclose end_ w wr ;;; ret c) t = Ok a t' →
  running (λ g, e g + one g (Some r) + one g (Some wr)) i (st t) → running e i (st t').
Proof.
  intros E R. apply bind_inv_Ok in E as ([] & t1 & E1 & E). apply bind_inv_Ok in E as ([] & t2 & E2 & E). injection E as <- <-.
  apply (running_refs _ _ _ _ _ (fileclose_refs _ _ _ _ _ _ E1)) in R. apply (running_refs _ _ _ _ _ (fileclose_refs _ _ _ _ _ _ E2)) in R.
  eapply running_ext; [|exact R]. intros g. cbn beta. lia.
Qed.

Lemma sys_pipe_refs end_ w i t a t' : sys_pipe end_ w t = Ok a t' → running nothing i (st t) → running nothing i (st t').
Proof.
  unfold sys_pipe. intros E R. apply bind_inv_Ok in E as (j & t0 & E0 & E). apply myproc_inv in E0 as [-> Hj].
  assert (j = i) as -> by (destruct R as (_ & Hc & _); congruence).
  apply bind_inv_Ok in E as (fdarray & t1 & E1 & E). calm_in E1. apply (running_calm _ _ _ _ E1) in R.
  apply bind_inv_Ok in E as (r & t2 & E2 & E). apply (pipealloc_refs _ _ _ _ _ _ _ E2) in R.
  destruct r as [[r wr]|]; [|by injection E as <- <-]. destruct R as (Hr & Hw & R). cbv zeta in E.
  apply bind_inv_Ok in E as (fd0 & t3 & E3 & E). destruct (fdalloc_inv _ _ _ _ _ _ E3 R) as [[Hneg ->]|(k0 & -> & Hk0 & Es0)].
  { rewrite (proj2 (Z.ltb_lt fd0 0) Hneg) in E. by apply (close_both_refs _ _ nothing i _ _ _ _ _ _ E). }
  rewrite (proj2 (Z.ltb_ge (Z.of_nat k0) 0)) in E by lia.
  destruct (put_fd_running _ i k0 None (Some r) _ R Hk0) as [R3 F3]; [by intros ? [= <-]|]. rewrite <- Es0 in R3, F3.
  apply bind_inv_Ok in E as (fd1 & t4 & E4 & E). destruct (fdalloc_inv _ _ _ _ _ _ E4 R3) as [[Hneg ->]|(k1 & -> & Hk1 & Es1)].
  { rewrite (proj2 (Z.ltb_lt fd1 0) Hneg) in E. apply bind_inv_Ok in E as ([] & t5 & E5 & E). apply set_fd_st in E5. rewrite Nat2Z.id in E5.
    destruct (put_fd_running _ i k0 (Some r) None _ R3) as [R5 _]; [rewrite F3; apply list_lookup_insert_eq; by eapply lookup_lt_Some|done|].
    rewrite <- E5 in R5. apply (close_both_refs _ _ nothing i _ _ _ _ _ _ E).
    eapply running_ext; [|exact R5]. intros g. cbn beta. rewrite one_none. lia. }
  rewrite (proj2 (Z.ltb_ge (Z.of_nat k1) 0)) in E by lia.
  destruct (put_fd_running _ i k1 None (Some wr) _ R3 Hk1) as [R4 F4]; [by intros ? [= <-]|]. rewrite <- Es1 in R4, F4. rewrite F3 in F4, Hk1.
  apply bind_inv_Ok in E as (p & t5 & E5 & E). injection E5 as <- <-.
  apply bind_inv_Ok in E as (c & t6 & E6 & E). calm_in E6. apply bind_inv_Ok in E as (c1 & t7 & E7 & E). calm_in E7.
  pose proof (calm_trans _ _ _ E6 E7) as C7. pose proof (ofile_at _ _ i (proj1 C7)) as O7. apply (running_calm _ _ _ _ C7) in R4.
  destruct (c1 <? 0).
  - assert (k0 ≠ k1) as Hne.
    { intros ->. rewrite list_lookup_insert_eq in Hk1; [discriminate|by eapply lookup_lt_Some]. }
    assert (p_ofile (proc_at i (st t7)) !! k0 = Some (Some r)) as L0.
    { rewrite O7, F4, list_lookup_insert_ne, list_lookup_insert_eq; [done|by eapply lookup_lt_Some|done]. }
    assert (p_ofile (proc_at i (st t7)) !! k1 = Some (Some wr)) as L1.
    { rewrite O7, F4. apply list_lookup_insert_eq. by eapply lookup_lt_Some. }
    apply bind_inv_Ok in E as ([] & t8 & E8 & E). apply set_fd_st in E8. rewrite Nat2Z.id in E8.
    destruct (put_fd_running _ i k0 _ None _ R4 L0) as [R8 F8]; [done|]. rewrite <- E8 in R8, F8.
    apply bind_inv_Ok in E as ([] & t9 & E9 & E). apply set_fd_st in E9. rewrite Nat2Z.id in E9.
    destruct (put_fd_running _ i k1 (Some wr) None _ R8) as [R9 _]; [rewrite F8, list_lookup_insert_ne; done|done|].
    rewrite <- E9 in R9. apply (close_both_refs _ _ nothing i _ _ _ _ _ _ E).
    eapply running_ext; [|exact R9]. intros g. cbn beta. rewrite one_none. lia.
  - injection E as <- <-. eapply running_ext; [|exact R4]. intros g. cbn beta. rewrite one_none. unfold nothing. lia.
Qed.

(** *** [fork] *)

(** The running process [i] and a process [np] it is setting up. *)
Definition making (e : nat → Z) (i np : nat) (s : K) : Prop :=
  running e i s ∧ np ≠ i ∧ live np s.

Lemma making_calm e i np s s' : calm_to s s' → making e i np s → making e i np s'.
Proof.
  intros C (R & Hne & Hn & Hl). split; [by eapply running_calm|]. split; [done|]. split; [done|]. intros Hd. apply Hl.
  destruct C as (_ & _ & _ & D). by apply D.
Qed.

Lemma live_put e i s : running e i s → (i < length (k_procs s))%nat.
Proof. intros (Hf & _ & Hi & _). by rewrite (fk_procs _ _ Hf). Qed.

(** A process without files may die. *)
Lemma die_ok e j v s : fd_ok e s → (j < Z.to_nat NPROC)%nat → no_files (proc_at j s) → fd_ok e (on_proc j (set_state v) s).
Proof.
  intros Hf Hj Hn. assert (∀ p, p_ofile (set_state v p) = p_ofile p) as Ho by (by intros []).
  destruct Hf as [P1 P2 P3 P4 P5 P6]. split; rewrite ?on_proc_ofile, ?on_proc_files, ?on_proc_length by done; try done.
  - intros f Hf. unfold file_at. rewrite on_proc_files. by apply P5.
  - intros k. destruct (on_proc_at j (set_state v) s k) as [->|[-> ->]]; [apply P6|]. intros _. unfold no_files. by rewrite Ho.
Qed.

Lemma upd_st j f t a t' : upd_proc j f t = Ok a t' → st t' = on_proc j f (st t).
Proof. destruct t as [h s]. intros [= _ <-]. reflexivity. Qed.

Lemma freeproc_refs end_ e i j t t' : freeproc end_ j t = Ok tt t' → running e i (st t) → (j < Z.to_nat NPROC)%nat → j ≠ i →
  no_files (proc_at j (st t)) → running e i (st t').
Proof.
  unfold freeproc. intros E R Hj Hne Hn.
  repeat (apply bind_inv_Ok in E as (?x & ?t1 & E1 & E);
    match type of E1 with _ ?u = Ok _ ?v => assert (calm_to (st u) (st v)) as C by (revert E1; match goal with |- ?m _ = _ → _ => let H := fresh in assert (calm m) as H by (unfold proc_freepagetable; calm); apply H end) end;
    apply (running_calm _ _ _ _ C) in R; unfold no_files in Hn; rewrite <- (ofile_at _ _ j (proj1 C)) in Hn; clear C E1).
  rewrite (upd_st _ _ _ _ _ E).
  destruct R as (Hf & Hc & Hi & Hd). split; [by apply die_ok|]. split; [by rewrite on_proc_cur|]. split; [done|]. by rewrite on_proc_other.
Qed.

Lemma find_unused_refs t a t' : find_unused t = Ok a t' →
  calm_to (st t) (st t') ∧ match a with None => True | Some j => (j < Z.to_nat NPROC)%nat ∧ p_state (proc_at j (st t')) = UNUSED end.
Proof.
  unfold find_unused. assert (∀ idx, Forall (λ j, (j < Z.to_nat NPROC)%nat) idx → ∀ t : thread K,
    for_each idx (λ i, plock i ;;; let! p := gets (proc_at i) in
      if decide (p_state p = UNUSED) then ret (Some i) else punlock i ;;; ret None) t = Ok a t' →
    calm_to (st t) (st t') ∧ match a with None => True | Some j => (j < Z.to_nat NPROC)%nat ∧ p_state (proc_at j (st t')) = UNUSED end) as Hl.
  { clear. induction 1 as [|j idx Hj Hidx IH]; intros t E; cbn [for_each] in E.
    - injection E as <- <-. split; [apply calm_refl|done].
    - apply bind_inv_Ok in E as (q & t1 & E1 & E). apply bind_inv_Ok in E1 as ([] & t2 & E2 & E1). calm_in E2.
      apply bind_inv_Ok in E1 as (p & t3 & E3 & E1). injection E3 as <- <-. destruct (decide _) as [Hu|Hu].
      + injection E1 as <- <-. injection E as <- <-. auto.
      + apply bind_inv_Ok in E1 as ([] & t4 & E4 & E1). calm_in E4. injection E1 as <- <-. apply IH in E as [C Ha].
        split; [|done]. eapply calm_trans; [exact E2|]. eapply calm_trans; [exact E4|exact C]. }
  intros E. apply Hl in E; [done|]. apply Forall_forall. intros j Hj. unfold procs_idx in Hj. apply elem_of_seq in Hj. lia.
Qed.

Lemma calm_proc_pagetable end_ trampoline i : calm (proc_pagetable end_ trampoline i).
Proof. unfold proc_pagetable. calm. Qed.
Lemma calm_allocpid : calm allocpid.
Proof. unfold allocpid. calm. Qed.
#[export] Hint Resolve calm_proc_pagetable calm_allocpid : calm.

Lemma no_files_calm j s s' : calm_to s s' → no_files (proc_at j s) → no_files (proc_at j s').
Proof. intros C. unfold no_files. by rewrite (ofile_at _ _ j (proj1 C)). Qed.

(** The slot of [allocproc] has no files. *)
Lemma allocproc_refs end_ tr fr e i t a t' : allocproc end_ tr fr t = Ok a t' → running e i (st t) →
  match a with None => running e i (st t') | Some np => making e i np (st t') ∧ no_files (proc_at np (st t')) end.
Proof.
  unfold allocproc. intros E R. apply bind_inv_Ok in E as (f & t1 & E1 & E). apply find_unused_refs in E1 as [C1 Hu].
  apply (running_calm _ _ _ _ C1) in R. destruct f as [j|]; [|by injection E as <- <-]. destruct Hu as [Hj Hu].
  assert (j ≠ i) as Hne by (intros ->; destruct R as (_ & _ & _ & D); apply D; by left).
  assert (no_files (proc_at j (st t1))) as Hn by (apply (fk_dead _ _ (proj1 R)); by left).
  apply bind_inv_Ok in E as (pid & t2 & E2 & E). calm_in E2. apply bind_inv_Ok in E as ([] & t3 & E3 & E). calm_in E3.
  pose proof (calm_trans _ _ _ E2 E3) as C3. apply (running_calm _ _ _ _ C3) in R. apply (no_files_calm _ _ _ C3) in Hn.
  apply bind_inv_Ok in E as ([] & t4 & E4 & E). pose proof (upd_st _ _ _ _ _ E4) as U4. calm_in E4.
  apply (running_calm _ _ _ _ E4) in R. apply (no_files_calm _ _ _ E4) in Hn.
  assert (making e i j (st t4)) as Mk.
  { split; [done|]. split; [done|]. split; [done|]. rewrite U4. pose proof (live_put _ _ _ R) as Hl.
    rewrite on_proc_same; [unfold dead; destruct (proc_at j (st t3)); intros [Hd|Hd]; discriminate|]. rewrite <- (on_proc_length j (set_state USED)), <- U4, (fk_procs _ _ (proj1 R)). done. }
  clear R. apply bind_inv_Ok in E as (tf & t5 & E5 & E). calm_in E5. apply bind_inv_Ok in E as ([] & t6 & E6 & E). calm_in E6.
  pose proof (calm_trans _ _ _ E5 E6) as C6. apply (making_calm _ _ _ _ _ C6) in Mk. apply (no_files_calm _ _ _ C6) in Hn.
  assert (∀ u (a : option nat) u', (freeproc end_ j ;;; punlock j ;;; ret None) u = Ok a u' → making e i j (st u) → no_files (proc_at j (st u)) →
    a = None ∧ running e i (st u')) as Hfail.
  { clear. intros u a u' E (R & Hne & Hl & Hd) Hn. apply bind_inv_Ok in E as ([] & u1 & E1 & E).
    apply (freeproc_refs _ _ _ _ _ _ E1) in R; [|done..]. apply bind_inv_Ok in E as ([] & u2 & E2 & E). calm_in E2.
    injection E as <- <-. split; [done|]. by eapply running_calm. }
  destruct (tf =? 0); [destruct (Hfail _ _ _ E Mk Hn) as [-> ?]; done|].
  apply bind_inv_Ok in E as (pt & t7 & E7 & E). calm_in E7. apply bind_inv_Ok in E as ([] & t8 & E8 & E). calm_in E8.
  pose proof (calm_trans _ _ _ E7 E8) as C8. apply (making_calm _ _ _ _ _ C8) in Mk. apply (no_files_calm _ _ _ C8) in Hn.
  destruct (pt =? 0); [destruct (Hfail _ _ _ E Mk Hn) as [-> ?]; done|].
  apply bind_inv_Ok in E as (p & t9 & E9 & E). calm_in E9. apply bind_inv_Ok in E as ([] & t10 & E10 & E). calm_in E10. injection E as <- <-.
  pose proof (calm_trans _ _ _ E9 E10) as C10. split; [by apply (making_calm _ _ _ _ _ C10)|by apply (no_files_calm _ _ _ C10)].
Qed.

Lemma making_put e i np fd f s : making e i np s → p_ofile (proc_at np s) !! fd = Some None → (f < Z.to_nat NFILE)%nat →
  making (λ g, e g - one g (Some f)) i np (on_proc np (put_fd fd (Some f)) s) ∧
  p_ofile (proc_at np (on_proc np (put_fd fd (Some f)) s)) = <[fd := Some f]> (p_ofile (proc_at np s)).
Proof.
  intros ((Hf & Hc & Hi & Hd) & Hne & Hl & Hnd) Ho Hv.
  assert (np < length (k_procs s))%nat as Hlt by (rewrite (fk_procs _ _ Hf); done).
  split; [|rewrite on_proc_same by done; by apply put_fd_state]. split; [split; [|split; [by rewrite on_proc_cur|split; [done|by rewrite on_proc_other]]]|].
  - eapply fd_ok_ext; [|apply (put_fd_ok _ _ _ _ (Some f) _ Hf Hl Ho); [by intros ? [= <-]|by right]].
    intros g _. cbn beta. rewrite one_none. lia.
  - split; [done|]. split; [done|]. rewrite on_proc_same by done. unfold dead. by rewrite (proj1 (put_fd_state _ _ _)).
Qed.

(** [dup_files] from descriptor [fd] on; the child has no file there yet. *)
Lemma dup_files_refs i np n : ∀ fd t a t', for_range fd n (λ fd,
    let! p := gets (proc_at i) in
    match default None (p_ofile p !! fd) with
    | None => ret tt
    | Some f => let! f := filedup f in upd_proc np (λ q, set_ofile (<[fd := Some f]> (p_ofile q)) q)
    end) t = Ok a t' →
  making nothing i np (st t) → (∀ k, (fd ≤ k < fd + n)%nat → p_ofile (proc_at np (st t)) !! k = Some None) → making nothing i np (st t').
Proof.
  induction n as [|n IH]; intros fd t a t' E M Hn; cbn [for_range] in E; [by injection E as <- <-|].
  apply bind_inv_Ok in E as ([] & t1 & E1 & E). apply bind_inv_Ok in E1 as (p & t2 & E2 & E1). injection E2 as <- <-.
  destruct (p_ofile (proc_at i (st t)) !! fd) as [[f|]|] eqn:Ef; cbn [default] in E1; cycle 1.
  1,2: injection E1 as <-; apply (IH _ _ _ _ E M); intros k Hk; apply Hn; lia.
  pose proof (valid_fd _ _ _ _ _ (proj1 M) Ef) as Hv.
  apply bind_inv_Ok in E1 as (x & t3 & E3 & E1). apply filedup_refs in E3 as [-> R3]. apply upd_st in E1.
  destruct M as (R & Hne & Hl & Hd). pose proof (running_refs _ _ _ _ _ R3 R) as R'.
  assert (making (λ g, nothing g + one g (Some f)) i np (st t3)) as M3.
  { split; [done|]. split; [done|]. split; [done|]. intros Hdd. apply Hd. destruct R3 as (_ & _ & _ & _ & D). by apply D. }
  pose proof (ofile_at _ _ np (proj1 R3)) as O3.
  destruct (making_put _ i np fd f _ M3) as [M1 F1]; [rewrite O3; apply Hn; lia|done|].
  change (on_proc np (λ q, set_ofile (<[fd := Some f]> (p_ofile q)) q) (st t3)) with (on_proc np (put_fd fd (Some f)) (st t3)) in E1.
  rewrite <- E1 in M1, F1. apply (IH _ _ _ _ E).
  - destruct M1 as (R1 & H1). split; [|done]. eapply running_ext; [|exact R1]. intros g. cbn beta. unfold nothing. lia.
  - intros k Hk. rewrite F1, O3, list_lookup_insert_ne by lia. apply Hn. lia.
Qed.

Lemma fork_refs end_ tr fr i t a t' : fork end_ tr fr t = Ok a t' → running nothing i (st t) → running nothing i (st t').
Proof.
  unfold fork. intros E R. apply bind_inv_Ok in E as (j & t1 & E1 & E). apply myproc_inv in E1 as [-> Hj].
  assert (j = i) as -> by (destruct R as (_ & Hc & _); congruence).
  apply bind_inv_Ok in E as (f & t2 & E2 & E). apply (allocproc_refs _ _ _ _ _ _ _ _ E2) in R.
  destruct f as [np|]; [|by injection E as <- <-]. destruct R as [M Hn].
  apply bind_inv_Ok in E as (p & t3 & E3 & E). injection E3 as <- <-. apply bind_inv_Ok in E as (q & t4 & E4 & E). injection E4 as <- <-.
  apply bind_inv_Ok in E as (r & t5 & E5 & E). calm_in E5. apply (making_calm _ _ _ _ _ E5) in M. apply (no_files_calm _ _ _ E5) in Hn.
  destruct (r <? 0).
  { destruct M as (R & Hne & Hl & Hd). apply bind_inv_Ok in E as ([] & t6 & E6 & E). apply (freeproc_refs _ _ _ _ _ _ E6) in R; [|done..].
    calm_in E. by apply (running_calm _ _ _ _ E) in R. }
  apply bind_inv_Ok in E as (x6 & t6 & E6 & E). calm_in E6. apply bind_inv_Ok in E as (x7 & t7 & E7 & E). calm_in E7.
  apply bind_inv_Ok in E as (x8 & t8 & E8 & E). calm_in E8. pose proof (calm_trans _ _ _ E6 (calm_trans _ _ _ E7 E8)) as C.
  apply (making_calm _ _ _ _ _ C) in M. apply (no_files_calm _ _ _ C) in Hn.
  apply bind_inv_Ok in E as (x9 & t9 & E9 & E). unfold dup_files in E9. apply (dup_files_refs _ _ _ _ _ _ _ E9) in M.
  - assert (calm_to (st t9) (st t')) as C9 by (revert E; match goal with |- ?m _ = _ → _ => let H := fresh in assert (calm m) as H by calm; apply H end).
    by apply (running_calm _ _ _ _ C9 (proj1 M)).
  - intros k Hk. destruct M as ((Hf & _) & _ & Hl & _). destruct (lookup_lt_is_Some_2 (k_procs (st t8)) np) as [p Hp]; [rewrite (fk_procs _ _ Hf); done|].
    assert (proc_at np (st t8) = p) as Ep by (unfold proc_at; by rewrite Hp). rewrite Ep in *.
    pose proof (Forall_lookup_1 _ _ np (p_ofile p) (fk_len _ _ Hf)) as Hlen. rewrite list_lookup_fmap, Hp in Hlen. specialize (Hlen eq_refl).
    cbn beta in Hlen. destruct (lookup_lt_is_Some_2 (p_ofile p) k) as [o Ho]; [lia|]. rewrite Ho. by rewrite (Forall_lookup_1 _ _ _ _ Hn Ho).
Qed.

(** *** [exit] and [wait] *)

(** [close_files] from descriptor [fd] on. *)
Lemma close_files_refs end_ w i n : ∀ fd t a t', for_range fd n (λ fd,
    let! p := gets (proc_at i) in
    match default None (p_ofile p !! fd) with
    | None => ret tt
    | Some f => fileclose end_ w f ;;; upd_proc i (λ p, set_ofile (<[fd := None]> (p_ofile p)) p)
    end) t = Ok a t' →
  running nothing i (st t) → (∀ k o, (k < fd)%nat → p_ofile (proc_at i (st t)) !! k = Some o → o = None) →
  running nothing i (st t') ∧ ∀ k o, (k < fd + n)%nat → p_ofile (proc_at i (st t')) !! k = Some o → o = None.
Proof.
  induction n as [|n IH]; intros fd t a t' E R Hn; cbn [for_range] in E.
  { injection E as <- <-. split; [done|]. intros k o Hk. apply Hn. lia. }
  apply bind_inv_Ok in E as ([] & t1 & E1 & E). apply bind_inv_Ok in E1 as (p & t2 & E2 & E1). injection E2 as <- <-.
  replace (fd + S n)%nat with (S fd + n)%nat by lia.
  destruct (p_ofile (proc_at i (st t)) !! fd) as [[f|]|] eqn:Ef; cbn [default] in E1.
  - apply bind_inv_Ok in E1 as ([] & t3 & E3 & E1). apply fileclose_refs in E3. apply upd_st in E1.
    pose proof (ofile_at _ _ i (proj1 E3)) as O3. apply (running_refs _ _ _ _ _ E3) in R.
    destruct (put_fd_running _ i fd (Some f) None _ R) as [R1 F1]; [by rewrite O3|done|].
    change (on_proc i (λ p, set_ofile (<[fd := None]> (p_ofile p)) p) (st t3)) with (on_proc i (put_fd fd None) (st t3)) in E1.
    rewrite <- E1 in R1, F1. apply (IH _ _ _ _ E).
    + eapply running_ext; [|exact R1]. intros g. cbn beta. rewrite one_none. lia.
    + intros k o Hk Ho. rewrite F1, O3 in Ho. destruct (decide (k = fd)) as [->|].
      * rewrite list_lookup_insert_eq in Ho by (by eapply lookup_lt_Some). by injection Ho as <-.
      * rewrite list_lookup_insert_ne in Ho by done. apply (Hn k); [lia|done].
  - injection E1 as <-. apply (IH _ _ _ _ E R). intros k o Hk Ho.
    destruct (decide (k = fd)) as [->|]; [rewrite Ef in Ho; by injection Ho as <-|apply (Hn k); [lia|done]].
  - injection E1 as <-. apply (IH _ _ _ _ E R). intros k o Hk Ho.
    destruct (decide (k = fd)) as [->|]; [by rewrite Ef in Ho|apply (Hn k); [lia|done]].
Qed.

Lemma running_no_files e i s : running e i s → (∀ k o, (k < Z.to_nat NOFILE)%nat → p_ofile (proc_at i s) !! k = Some o → o = None) →
  no_files (proc_at i s).
Proof.
  intros (Hf & _ & Hi & _) Hn. apply Forall_lookup. intros k o Ho. apply (Hn k); [|done].
  destruct (lookup_lt_is_Some_2 (k_procs s) i) as [p Hp]; [rewrite (fk_procs _ _ Hf); done|].
  pose proof (Forall_lookup_1 _ _ i (p_ofile p) (fk_len _ _ Hf)) as Hlen. rewrite list_lookup_fmap, Hp in Hlen. specialize (Hlen eq_refl).
  cbn beta in Hlen. rewrite <- Hlen. assert (proc_at i s = p) as E by (unfold proc_at; by rewrite Hp). rewrite E in Ho. by eapply lookup_lt_Some.
Qed.

Lemma calm_reparent i : calm (reparent i).
Proof. unfold reparent, wakeup_proc. calm. Qed.
Lemma calm_wakeup_proc i : calm (wakeup_proc i).
Proof. unfold wakeup_proc. calm. Qed.
#[export] Hint Resolve calm_reparent calm_wakeup_proc : calm.

Ltac calm_next R Hn :=
  match goal with E : bind _ _ _ = Ok _ _ |- _ =>
    let x := fresh "x" in let t1 := fresh "t" in let E1 := fresh "E" in
    apply bind_inv_Ok in E as (x & t1 & E1 & E); calm_in E1; apply (running_calm _ _ _ _ E1) in R; apply (no_files_calm _ _ _ E1) in Hn; clear E1 end.

Lemma exit_prepare_refs end_ w status i t a t' : exit_prepare end_ w status t = Ok a t' → running nothing i (st t) →
  fd_ok nothing (st t') ∧ k_cur (st t') = Some i ∧ no_files (proc_at i (st t')).
Proof.
  unfold exit_prepare. intros E R. apply bind_inv_Ok in E as (j & t1 & E1 & E). apply myproc_inv in E1 as [-> Hj].
  assert (j = i) as -> by (destruct R as (_ & Hc & _); congruence).
  apply bind_inv_Ok in E as (init & t2 & E2 & E). calm_in E2. apply bind_inv_Ok in E as ([] & t3 & E3 & E). calm_in E3.
  apply (running_calm _ _ _ _ (calm_trans _ _ _ E2 E3)) in R. clear E2 E3.
  apply bind_inv_Ok in E as ([] & t4 & E4 & E). unfold close_files in E4.
  apply (close_files_refs _ _ _ _ _ _ _ _ E4) in R as [R Hn]; [|intros k o Hk; lia]. apply (running_no_files _ _ _ R) in Hn.
  do 12 calm_next R Hn.

  apply bind_inv_Ok in E as (xl & u & E6 & E). apply upd_st in E6. calm_in E.
  assert (fd_ok nothing (st u) ∧ k_cur (st u) = Some i ∧ no_files (proc_at i (st u))) as (F & Hc & Hnf).
  { destruct R as (Hf & Hc & Hi & _). rewrite E6. split; [by apply die_ok|]. split; [by rewrite on_proc_cur|].
    destruct (on_proc_at i (set_state ZOMBIE) (st t14) i) as [->|[_ ->]]; [done|]. by destruct (proc_at i _). }
  split; [by eapply calm_ok|]. split; [by destruct E as (_ & _ & -> & _)|by eapply no_files_calm].
Qed.

Lemma wait_scan_refs end_ e i addr idx : Forall (λ j, (j < Z.to_nat NPROC)%nat) idx → ∀ kids t a t',
  wait_scan end_ idx i addr kids t = Ok a t' → running e i (st t) → running e i (st t').
Proof.
  induction 1 as [|j idx Hj Hidx IH]; intros kids t a t' E R; cbn [wait_scan] in E; [by injection E as <- <-|].
  apply bind_inv_Ok in E as (p & t1 & E1 & E). injection E1 as <- <-. destruct (decide (p_parent _ = _)) as [_|_]; [|by eapply IH].
  apply bind_inv_Ok in E as ([] & t2 & E2 & E). calm_in E2. apply (running_calm _ _ _ _ E2) in R.
  apply bind_inv_Ok in E as (p & t3 & E3 & E). injection E3 as <- <-. destruct (decide (p_state _ = _)) as [Hz|_].
  - apply bind_inv_Ok in E as (q & t4 & E4 & E). injection E4 as <- <-. cbv zeta in E.
    assert (dead (proc_at j (st t2))) as Hdead by (by right). pose proof (fk_dead _ _ (proj1 R) _ Hdead) as Hn.
    assert (j ≠ i) as Hne by (intros ->; by apply (proj2 (proj2 (proj2 R)))).
    apply bind_inv_Ok in E as (r & t5 & E5 & E). calm_in E5. apply (running_calm _ _ _ _ E5) in R. apply (no_files_calm _ _ _ E5) in Hn.
    destruct (r <? 0); [calm_in E; by apply (running_calm _ _ _ _ E) in R|].
    apply bind_inv_Ok in E as ([] & t6 & E6 & E). apply (freeproc_refs _ _ _ _ _ _ E6) in R; [|done..].
    calm_in E. by apply (running_calm _ _ _ _ E) in R.
  - apply bind_inv_Ok in E as ([] & t4 & E4 & E). calm_in E4. apply (running_calm _ _ _ _ E4) in R. by eapply IH.
Qed.

(** ** Reference counts at every point where no system call is under way *)

(** The system calls that make or drop descriptors. [C_wait] is the scan that
    [wait] makes each time it wakes up. *)
Inductive fd_call : Type := C_dup | C_close | C_open | C_pipe | C_fork | C_exit (status : Z) | C_wait (addr : Z).

Section Steps.
Context (end_ trampoline forkret_addr : Z) (w : world).

Definition run_call (i : nat) (c : fd_call) : M K Z :=
  match c with
  | C_dup => sys_dup
  | C_close => sys_close end_ w
  | C_open => sys_open end_ w
  | C_pipe => sys_pipe end_ w
  | C_fork => fork end_ trampoline forkret_addr
  | C_exit status => exit_prepare end_ w status ;;; ret 0
  | C_wait addr => let! r := wait_scan end_ procs_idx i addr false in ret (match r with inl _ => 0 | inr r => r end)
  end.

(** A step: one of these calls by the process of the CPU, the scheduler's choice
    of another process, or a step that changes no descriptor and no reference
    count and ends no process. *)
Inductive fd_step (s s' : K) : Prop :=
| fd_run i c h h' a : k_cur s = Some i → live i s → run_call i c (Thread h s) = Ok a (Thread h' s') → fd_step s s'
| fd_switch c : s' = set_cur c s → fd_step s s'
| fd_quiet : calm_to s s' → fd_step s s'.

Lemma set_cur_ok e c s : fd_ok e s → fd_ok e (set_cur c s).
Proof.
  assert (k_procs (set_cur c s) = k_procs s ∧ k_files (set_cur c s) = k_files s) as [Ep Ef] by (by destruct s).
  intros [P1 P2 P3 P4 P5 P6]. split; rewrite ?Ep, ?Ef; try done; unfold file_at, proc_at; rewrite ?Ep, ?Ef; assumption.
Qed.

Lemma exit_refs i status t a t' : (exit_prepare end_ w status ;;; ret 0) t = Ok a t' → running nothing i (st t) → fd_ok nothing (st t').
Proof. intros E R. apply bind_inv_Ok in E as ([] & t1 & E1 & E). injection E as <- <-. apply (exit_prepare_refs _ _ _ _ _ _ _ E1 R). Qed.

Lemma wait_refs i addr t a t' :
  (let! r := wait_scan end_ procs_idx i addr false in ret (match r with inl _ => 0 | inr r => r end)) t = Ok a t' →
  running nothing i (st t) → fd_ok nothing (st t').
Proof.
  intros E R. apply bind_inv_Ok in E as (r & t1 & E1 & E). injection E as <- <-. refine (proj1 (wait_scan_refs _ _ _ _ _ _ _ _ _ _ E1 R)).
  apply Forall_forall. intros j Hj. unfold procs_idx in Hj. apply elem_of_seq in Hj. lia.
Qed.

Lemma run_call_ok i c t a t' : run_call i c t = Ok a t' → running nothing i (st t) → fd_ok nothing (st t').
Proof.
  destruct c as [| | | | |status|addr]; cbn [run_call]; intros E R;
    [eapply proj1, sys_dup_refs|eapply proj1, sys_close_refs|eapply proj1, sys_open_refs|eapply proj1, sys_pipe_refs|eapply proj1, fork_refs|eapply exit_refs|eapply wait_refs]; eassumption.
Qed.

Lemma fd_steps_run s s' : rtc fd_step s s' → fd_ok nothing s → fd_ok nothing s'.
Proof.
  induction 1 as [s|s1 s2 s3 Hstep _ IH]; [done|]. intros Hf. apply IH. destruct Hstep as [i c h h' a Hc Hl E|c ->|Hq].
  - apply (run_call_ok _ _ _ _ _ E). exact (conj Hf (conj Hc Hl)).
  - by apply set_cur_ok.
  - by eapply calm_ok.
Qed.

(** C10: whatever calls of [dup], [close], [open], [pipe], [fork], [exit] and
    [wait] the processes make, in any order and with any outcome, afterwards the
    reference count of every open file is the number of descriptors of all
    processes that name it, every descriptor names a file of the table, a file
    that no descriptor names is free for [filealloc], and a process that is
    unused or a zombie has no descriptors. *)
Theorem refcounts_exact s s' : rtc fd_step s s' → fd_ok nothing s →
  fd_ok nothing s' ∧
  (∀ f, (f < Z.to_nat NFILE)%nat → f_ref (file_at f s') = total f (p_ofile <$> k_procs s')) ∧
  (∀ j fd f, p_ofile (proc_at j s') !! fd = Some (Some f) → ¬ dead (proc_at j s') ∧ (f < Z.to_nat NFILE)%nat ∧ 1 <= f_ref (file_at f s')).
Proof.
  intros Hs Hf. pose proof (fd_steps_run _ _ Hs Hf) as Hf'. split; [done|]. split.
  - intros f Hlt. rewrite (fk_ref _ _ Hf') by done. unfold nothing. lia.
  - intros j fd f Ho. destruct (k_procs s' !! j) as [p|] eqn:Ep; [|unfold proc_at in Ho; rewrite Ep in Ho; by apply lookup_replicate in Ho as [[=] _]].
    assert (proc_at j s' = p) as Epp by (unfold proc_at; by rewrite Ep). rewrite Epp in *.
    assert ((p_ofile <$> k_procs s') !! j = Some (p_ofile p)) as Hl by (by rewrite list_lookup_fmap, Ep).
    pose proof (fk_valid _ _ Hf' _ _ _ _ Hl Ho) as Hv. split; [|split; [done|]].
    + intros Hd. rewrite <- Epp in Hd. pose proof (fk_dead _ _ Hf' _ Hd) as Hn. rewrite Epp in Hn. by pose proof (Forall_lookup_1 _ _ _ _ Hn Ho).
    + rewrite (fk_ref _ _ Hf') by done. unfold nothing. pose proof (total_pos _ _ _ _ _ Hl Ho). lia.
Qed.
End Steps.
