(* ===== verification/Syscall.v ===== *)
(** * sysproc.c and the dispatcher of syscall.c *)

From S2P Require Import Prelude CString Riscv Kalloc Vm Param Bio Log.
From S2P Require Import BlockLayer BlockLog FsDisk Fs Pipe Kernel Printf Proc Console Files Life Exec Sysfile.

Section Syscall.
Context (end_ trampoline forkret_addr kernel_pagetable : Z) (w : world).

(** What uninitialised variables of the system calls hold: [st] in [filestat],
    [path] in [sys_chmod], [test] in [sys_getprocs], [local_stats] in
    [getprocs]. *)
Record stack_junk := Junk { junk_stat : list Z; junk_path : list Z; junk_test : Z; junk_procs : list (list Z) }.
Context (junk : stack_junk).

Definition sys_exit : M K Z :=
  let! n := argint 0 in
  exit end_ w n.

Definition sys_getpid : M K Z :=
  let! i := myproc in
  let! p := gets (proc_at i) in
  ret (p_pid p).

Definition sys_fork : M K Z := fork end_ trampoline forkret_addr.

Definition sys_wait : M K Z :=
  let! p := argaddr 0 in
  wait end_ w p.

Definition sys_sbrk : M K Z :=
  let! n := argint 0 in
  let! i := myproc in
  let! addr := gets (λ s, p_sz (proc_at i s)) in
  let! r := growproc end_ n in
  if r <? 0 then ret (-1) else ret addr.

(** [while(ticks - ticks0 < n)], unsigned. *)
Fixpoint sys_sleep_loop (env : list (K → K)) (n ticks0 : Z) : M K Z :=
  let! t := gets k_ticks in
  if u32 (t - ticks0) <? n then
    let! i := myproc in
    let! k := killed i in
    if truth k then release L_ticks ;;; ret (-1)
    else
      match env with
      | [] => λ t, Asleep t
      | e :: env =>
          sleep e CH_ticks L_ticks ;;;
          sys_sleep_loop env n ticks0
      end
  else release L_ticks ;;; ret 0.

Definition sys_sleep : M K Z :=
  let! n := argint 0 in
  let n := if n <? 0 then 0 else n in
  acquire L_ticks ;;;
  let! ticks0 := gets k_ticks in
  let! s := get in
  sys_sleep_loop (w_sleep w s) n ticks0.

Definition sys_kill : M K Z :=
  let! pid := argint 0 in
  kill pid.

Definition sys_uptime : M K Z :=
  acquire L_ticks ;;;
  let! xticks := gets k_ticks in
  release L_ticks ;;;
  ret xticks.

(** A 32-bit store of the kernel goes through its own page table; the fault that
    an unmapped or read-only address raises ends in [kerneltrap]'s panic. *)
Definition kernel_store32 (a v : Z) : M K unit :=
  let! pte := onmem (walk kernel_pagetable a false) in
  let! e := (if pte =? 0 then ret 0 else onmem (rd64 pte)) in
  panic_if (negb (has e PTE_V) || negb (has e PTE_W)) "kerneltrap" ;;;
  onmem (upd_mem (λ m, put_bytes m (PTE2PA e + a mod PGSIZE) (le_bytes 4 v))).

Definition sys_exit_qemu : M K Z :=
  kernel_store32 0x100000 0x5555 ;;;
  ret 0.

Definition sys_getprocs : M K Z :=
  let! addr := argaddr 0 in
  let! max := argint 1 in
  if (max <=? 0) || (NPROC <? max) then ret (-1)
  else
    let! i := myproc in
    let! p := gets (proc_at i) in
    let! r := onmem (copyout (p_pagetable p) addr [junk_test junk]) in
    if r <? 0 then ret (-1)
    else getprocs (junk_procs junk) addr max.

(** [syscalls[num]] *)
Definition syscalls (num : Z) : option (M K Z) :=
  match num with
  | 1 => Some sys_fork
  | 2 => Some sys_exit
  | 3 => Some sys_wait
  | 4 => Some (sys_pipe end_ w)
  | 5 => Some (sys_read end_ w)
  | 6 => Some sys_kill
  | 7 => Some (sys_exec end_ trampoline w)
  | 8 => Some (sys_fstat (junk_stat junk))
  | 9 => Some (sys_chdir w)
  | 10 => Some sys_dup
  | 11 => Some sys_getpid
  | 12 => Some sys_sbrk
  | 13 => Some sys_sleep
  | 14 => Some sys_uptime
  | 15 => Some (sys_open end_ w)
  | 16 => Some (sys_write end_ w)
  | 17 => Some (sys_mknod w)
  | 18 => Some (sys_unlink w)
  | 19 => Some (sys_link w)
  | 20 => Some (sys_mkdir w)
  | 21 => Some (sys_close end_ w)
  | 22 => Some sys_lseek
  | 23 => Some sys_getprocs
  | 24 => Some sys_exit_qemu
  | 25 => Some (sys_chmod w (junk_path junk))
  | _ => None
  end.

(** [num] is an [int]. *)
Definition syscall : M K unit :=
  let! i := myproc in
  let! a7 := tf_get i (TF_a 7) in
  let num := s32 a7 in
  match syscalls num with
  | Some f =>
      let! r := f in
      tf_set i (TF_a 0) (u64 r)
  | None =>
      let! p := gets (proc_at i) in
      printf "%d %s: unknown sys call %d
" [VWord (p_pid p); VStr (Some (cstring (p_name p))); VWord num] ;;;
      tf_set i (TF_a 0) (u64 (-1))
  end.
End Syscall.
