(* ===== verification/Trap.v ===== *)
(** * trap.c: interrupts, exceptions and the way into and out of user space

    The hart's trap registers are arguments and results.  The PLIC's answer
    ([irq]) and the disk's interrupt handler (Virtio.v) are arguments; the
    timer's next deadline is not part of the state. *)

From S2P Require Import Prelude CString Riscv Kalloc Vm Param Bio Log.
From S2P Require Import BlockLayer BlockLog FsDisk Fs Pipe Kernel Printf Proc Console Files Life Exec Sysfile Syscall.

(** The registers that describe a trap. *)
Record trapregs := Trapregs { r_scause : Z; r_sepc : Z; r_stval : Z; r_sstatus : Z }.

(** What [usertrapret] leaves in the registers for [userret]. *)
Record userregs := Userregs { u_sstatus : Z; u_sepc : Z; u_stvec : Z; u_satp : Z; u_pc : Z }.

Section Trap.
(** [usertrap_addr] is the address of [usertrap], [kernel_satp] and [hartid] the
    hart's [satp] and [tp], [uservec] and [userret] the symbols of
    trampoline.S. *)
Context (end_ trampoline forkret_addr kernel_pagetable : Z) (w : world) (junk : stack_junk).
Context (usertrap_addr uservec userret kernel_satp hartid : Z).
Context (disk_intr : M K unit).

Definition clockintr : M K unit :=
  if hartid =? 0 then
    acquire L_ticks ;;;
    modify (λ s, set_ticks (u32 (k_ticks s + 1)) s) ;;;
    wakeup CH_ticks ;;;
    release L_ticks
  else ret tt.

Definition devintr (scause irq : Z) : M K Z :=
  if scause =? 0x8000000000000009 then
    (if irq =? UART0_IRQ then uartintr
     else if irq =? VIRTIO0_IRQ then disk_intr
     else if negb (irq =? 0) then printf "unexpected interrupt irq=%d
" [VWord irq]
     else ret tt) ;;;
    ret 1
  else if scause =? 0x8000000000000005 then
    clockintr ;;;
    ret 2
  else ret 0.

Definition usertrapret (sstatus : Z) : M K userregs :=
  let! i := myproc in
  let! p := gets (proc_at i) in
  tf_set i TF_kernel_satp kernel_satp ;;;
  tf_set i TF_kernel_sp (p_kstack p + PGSIZE) ;;;
  tf_set i TF_kernel_trap usertrap_addr ;;;
  tf_set i TF_kernel_hartid hartid ;;;
  let x := Z.land sstatus (Z.lnot SSTATUS_SPP) in
  let x := Z.lor x SSTATUS_SPIE in
  let! epc := tf_get i TF_epc in
  ret (Userregs x epc (TRAMPOLINE + (uservec - trampoline)) (MAKE_SATP (p_pagetable p))
         (TRAMPOLINE + (userret - trampoline))).

(** [sstatus] is read again in [usertrapret], after other code may have run. *)
Definition usertrap (run : K → K) (r : trapregs) (irq sstatus : Z) : M K userregs :=
  panic_if (has (r_sstatus r) SSTATUS_SPP) "usertrap: not from user mode" ;;;
  let! i := myproc in
  tf_set i TF_epc (r_sepc r) ;;;
  let! which_dev :=
    (if r_scause r =? 8 then
       let! k := killed i in
       (if truth k then exit end_ w (-1) else ret tt) ;;;
       let! epc := tf_get i TF_epc in
       tf_set i TF_epc (u64 (epc + 4)) ;;;
       syscall end_ trampoline forkret_addr kernel_pagetable w junk ;;;
       ret 0
     else
       let! d := devintr (r_scause r) irq in
       if negb (d =? 0) then ret d
       else
         let! p := gets (proc_at i) in
         printf "usertrap(): unexpected scause 0x%lx pid=%d
" [VWord (r_scause r); VWord (p_pid p)] ;;;
         printf "            sepc=0x%lx stval=0x%lx
" [VWord (r_sepc r); VWord (r_stval r)] ;;;
         setkilled i ;;;
         ret 0) in
  let! k := killed i in
  (if truth k then exit end_ w (-1) else ret tt) ;;;
  (if which_dev =? 2 then yield run else ret tt) ;;;
  usertrapret sstatus.

(** [intr] is [intr_get()].  The results are the values of [sepc] and [sstatus]
    that the code restores. *)
Definition kerneltrap (run : K → K) (r : trapregs) (irq : Z) (intr : bool) : M K (Z * Z) :=
  let sepc := r_sepc r in
  let sstatus := r_sstatus r in
  let scause := r_scause r in
  panic_if (negb (has sstatus SSTATUS_SPP)) "kerneltrap: not from supervisor mode" ;;;
  panic_if intr "kerneltrap: interrupts enabled" ;;;
  let! which_dev := devintr scause irq in
  (if which_dev =? 0 then
     printf "scause=0x%lx sepc=0x%lx stval=0x%lx
" [VWord scause; VWord (r_sepc r); VWord (r_stval r)] ;;;
     panic "kerneltrap"
   else ret tt) ;;;
  let! cur := gets k_cur in
  (if (which_dev =? 2) && bool_decide (is_Some cur) then yield run else ret tt) ;;;
  ret (sepc, sstatus).
End Trap.
