(* ===== verification/TrapSpec.v ===== *)
(** * trap.c: who returns to user space

    [usertrap] goes back to user space in user mode, with the process's own page table and
    at its saved program counter; a process that was killed, or that trapped for another
    reason than a system call or a device, does not go back. *)

From S2P Require Import Prelude CString Riscv Kalloc Vm VmTable VmMap VmCopy Param Bio Log.
From S2P Require Import BlockLayer BlockLog FsDisk Fs Pipe Kernel Printf Proc ProcSpec Console ConsoleSpec Files Life Exec Sysfile Syscall Trap.

(** What an operation that returned did to the process table. *)
Lemma myproc_Ok t i t' : myproc t = Ok i t' → t' = t ∧ k_cur (st t) = Some i.
Proof. destruct t as [h s]. unfold myproc, bind, gets, ret, undefined, panic. cbn [held st]. destruct (k_cur s); [|done]. by intros [= -> <-]. Qed.

Lemma onmem_Ok {A} (m : M kmem A) t a t' : onmem m t = Ok a t' → k_procs (st t') = k_procs (st t) ∧ k_cur (st t') = k_cur (st t).
Proof.
  destruct t as [h s]. unfold onmem, lift. destruct (m _) as [b [h1 k1]| |]; [|done|done]. intros [= _ <-]. cbn [st]. by destruct s.
Qed.

Lemma tf_set_Ok i off v t u t' : tf_set i off v t = Ok u t' → k_procs (st t') = k_procs (st t) ∧ k_cur (st t') = k_cur (st t).
Proof. unfold tf_set. intros (p & t1 & E1 & E2)%bind_inv_Ok. injection E1 as _ <-. by eapply onmem_Ok. Qed.

Lemma printf_Ok fmt args t u t' : printf fmt args t = Ok u t' → k_procs (st t') = k_procs (st t) ∧ k_cur (st t') = k_cur (st t).
Proof.
  destruct t as [h s]. unfold printf. intros (u1 & t1 & E1 & E2)%bind_inv_Ok. unfold acquire in E1. case_decide; [done|]. injection E1 as _ <-.
  destruct (format (str fmt) args) as [out|]; [|done]. apply bind_inv_Ok in E2 as (u2 & t2 & E2 & E3). cbn [held st] in *.
  destruct (consputs_run out (L_pr :: h) s) as (s1 & E1 & S1). rewrite E1 in E2. injection E2 as _ <-.
  rewrite release_Ok in E3. injection E3 as _ <-. cbn [st]. by destruct (sends_cons _ _ _ S1) as (_ & ? & ? & _).
Qed.

Lemma killed_Ok i t k t' : killed i t = Ok k t' → k = p_killed (proc_at i (st t)) ∧ st t' = st t.
Proof.
  destruct t as [h s]. unfold killed, plock, punlock. intros (u1 & t1 & E1 & E2)%bind_inv_Ok. unfold acquire in E1. case_decide; [done|]. injection E1 as _ <-.
  apply bind_inv_Ok in E2 as (p & t2 & E2 & E3). injection E2 as <- <-. apply bind_inv_Ok in E3 as (u3 & t3 & E3 & E4). rewrite release_Ok in E3.
  injection E3 as _ <-. by injection E4 as <- <-.
Qed.

Lemma setkilled_Ok i t u t' : setkilled i t = Ok u t' → st t' = on_proc i (set_killed 1) (st t).
Proof.
  destruct t as [h s]. unfold setkilled, plock, punlock. intros (u1 & t1 & E1 & E2)%bind_inv_Ok. unfold acquire in E1. case_decide; [done|]. injection E1 as _ <-.
  apply bind_inv_Ok in E2 as (u2 & t2 & E2 & E3). rewrite upd_proc_run in E2. injection E2 as _ <-. cbn [held st] in E3. rewrite release_Ok in E3. by injection E3 as _ <-.
Qed.

Lemma exit_never {A} end_ w status t (a : A) t' : exit end_ w status t ≠ Ok a t'.
Proof. unfold exit. intros (u1 & t1 & _ & (u2 & t2 & _ & E)%bind_inv_Ok)%bind_inv_Ok. done. Qed.

Lemma on_killed end_ w (k : Z) t u t' : (if truth k then exit end_ w (-1) else ret tt) t = Ok u t' → k = 0 ∧ t' = t.
Proof.
  unfold truth. destruct (Z.eqb_spec k 0) as [->|]; cbn [negb]; intros E; [by injection E as _ <-|]. by apply exit_never in E.
Qed.

(** The status register for user mode. *)
Lemma user_sstatus x : let y := Z.lor (Z.land x (Z.lnot SSTATUS_SPP)) SSTATUS_SPIE in has y SSTATUS_SPP = false ∧ has y SSTATUS_SPIE = true.
Proof.
  assert (∀ z k, 0 <= k → has z (Z.shiftl 1 k) = Z.testbit z k) as Hhas.
  { intros z k Hk. unfold has. destruct (Z.testbit z k) eqn:E.
    - apply negb_true_iff, Z.eqb_neq. intros E0. apply (f_equal (λ y, Z.testbit y k)) in E0. rewrite Z.land_spec, E, Z.shiftl_1_l, Z.pow2_bits_true, Z.bits_0 in E0 by done. done.
    - apply negb_false_iff, Z.eqb_eq, Z.bits_inj'. intros j Hj. rewrite Z.land_spec, Z.shiftl_1_l, Z.bits_0.
      destruct (decide (j = k)) as [->|]; [by rewrite E|]. by rewrite (Z.pow2_bits_false k j), andb_false_r by done. }
  cbv zeta. unfold SSTATUS_SPP, SSTATUS_SPIE. rewrite !Hhas, !Z.lor_spec, !Z.land_spec, Z.lnot_spec by done.
  assert (Z.testbit (Z.shiftl 1 8) 8 = true ∧ Z.testbit (Z.shiftl 1 5) 8 = false ∧ Z.testbit (Z.shiftl 1 5) 5 = true) as (-> & -> & ->) by done.
  cbn. by rewrite andb_false_r, orb_true_r.
Qed.

Section Trap.
Context (end_ trampoline forkret_addr kernel_pagetable : Z) (w : world) (junk : stack_junk).
Context (usertrap_addr uservec userret kernel_satp hartid : Z) (disk_intr : M K unit).

(** The registers for user space. *)
Definition to_user (regs : userregs) (s : K) : Prop :=
  has (u_sstatus regs) SSTATUS_SPP = false ∧ has (u_sstatus regs) SSTATUS_SPIE = true ∧
  u_stvec regs = TRAMPOLINE + (uservec - trampoline) ∧ u_pc regs = TRAMPOLINE + (userret - trampoline) ∧
  ∃ i, k_cur s = Some i ∧ u_satp regs = MAKE_SATP (p_pagetable (proc_at i s)) ∧
    u_sepc regs = load64 (kmem_mem (k_mem s)) (p_trapframe (proc_at i s) + TF_epc).

Lemma usertrapret_Ok sstatus t regs t' :
  usertrapret trampoline usertrap_addr uservec userret kernel_satp hartid sstatus t = Ok regs t' → to_user regs (st t').
Proof.
  unfold usertrapret. intros (i & t0 & [-> Hi]%myproc_Ok & E)%bind_inv_Ok. apply bind_inv_Ok in E as (p & t1 & [= <- <-] & E).
  apply bind_inv_Ok in E as (u1 & t1 & [P1 C1]%tf_set_Ok & E). apply bind_inv_Ok in E as (u2 & t2 & [P2 C2]%tf_set_Ok & E).
  apply bind_inv_Ok in E as (u3 & t3 & [P3 C3]%tf_set_Ok & E). apply bind_inv_Ok in E as (u4 & t4 & [P4 C4]%tf_set_Ok & E).
  apply bind_inv_Ok in E as (epc & t5 & E5 & E). injection E as <- <-.
  assert (k_procs (st t4) = k_procs (st t) ∧ k_cur (st t4) = Some i) as [HP HC]
    by (split; [exact (eq_trans P4 (eq_trans P3 (eq_trans P2 P1)))|exact (eq_trans C4 (eq_trans C3 (eq_trans C2 (eq_trans C1 Hi))))]).
  destruct t4 as [h4 s4]. unfold tf_get in E5. apply bind_inv_Ok in E5 as (q & t6 & [= <- <-] & E5). cbn [held st] in *.
  rewrite (onmem_run (rd64 _) h4 s4 _ (k_mem s4) (rd64_run _ _ _)) in E5. injection E5 as <- <-. cbn [st]. assert (set_mem (k_mem s4) s4 = s4) as -> by (by destruct s4).
  destruct (user_sstatus sstatus) as [H1 H2]. split; [exact H1|]. split; [exact H2|]. split; [done|]. split; [done|]. exists i.
  split; [done|]. split; [|done]. cbn [u_satp]. by rewrite (proc_at_procs i _ _ HP).
Qed.

Lemma devintr_other scause irq t d t' : scause ≠ 0x8000000000000009 → scause ≠ 0x8000000000000005 →
  devintr hartid disk_intr scause irq t = Ok d t' → d = 0 ∧ t' = t.
Proof.
  intros H1 H2. unfold devintr. rewrite (proj2 (Z.eqb_neq _ _) H1), (proj2 (Z.eqb_neq _ _) H2). by intros [= <- <-].
Qed.

(** C22: who returns to user space.  Whatever the kernel does in between - any system call,
    interrupts, other processes while this one yields - when [usertrap] returns, the trap
    came from user mode; it was a system call of a process that had not been killed, or an
    interrupt of a device or the timer, any other exception having ended the process; the
    hart goes on in user mode with interrupts enabled, at the saved program counter, with
    the page table of the process it runs and with traps going to the trampoline. *)
Theorem usertrap_returns run r irq sstatus t i regs t' : k_cur (st t) = Some i → (i < length (k_procs (st t)))%nat →
  usertrap end_ trampoline forkret_addr kernel_pagetable w junk usertrap_addr uservec userret kernel_satp hartid disk_intr run r irq sstatus t = Ok regs t' →
  has (r_sstatus r) SSTATUS_SPP = false ∧
  (r_scause r = 8 ∧ p_killed (proc_at i (st t)) = 0 ∨ r_scause r = 0x8000000000000009 ∨ r_scause r = 0x8000000000000005) ∧
  to_user regs (st t').
Proof.
  intros Hi Hlen. unfold usertrap. intros (u & t1 & E1 & E)%bind_inv_Ok. unfold panic_if in E1.
  destruct (has (r_sstatus r) SSTATUS_SPP); [done|]. injection E1 as _ <-. split; [done|].
  apply bind_inv_Ok in E as (j & t1 & [-> Hj]%myproc_Ok & E). assert (j = i) as -> by (pose proof (eq_trans (eq_sym Hj) Hi) as Hji; by injection Hji).
  apply bind_inv_Ok in E as (u1 & t1 & [P1 C1]%tf_set_Ok & E). apply bind_inv_Ok in E as (d & t2 & E2 & E).
  apply bind_inv_Ok in E as (k & t3 & E3 & E). apply bind_inv_Ok in E as (u4 & t4 & E4 & E). apply bind_inv_Ok in E as (u5 & t5 & _ & E).
  split; [|by eapply usertrapret_Ok]. apply killed_Ok in E3 as [-> Es3]. apply on_killed in E4 as [Hk ->].
  destruct (Z.eqb_spec (r_scause r) 8) as [->|H8].
  - left. split; [done|]. apply bind_inv_Ok in E2 as (k & t6 & [-> Es6]%killed_Ok & E2). apply bind_inv_Ok in E2 as (u7 & t7 & [Hk0 ->]%on_killed & _).
    by rewrite (proc_at_procs i _ _ P1) in Hk0.
  - right. destruct (decide (r_scause r = 0x8000000000000009)) as [|H9]; [by left|]. destruct (decide (r_scause r = 0x8000000000000005)) as [|H5]; [by right|].
    exfalso. apply bind_inv_Ok in E2 as (d0 & t6 & [-> ->]%devintr_other & E2); [|done|done]. cbn [Z.eqb negb] in E2.
    apply bind_inv_Ok in E2 as (p & t7 & [= <- <-] & E2). apply bind_inv_Ok in E2 as (u8 & t8 & [P8 _]%printf_Ok & E2).
    apply bind_inv_Ok in E2 as (u9 & t9 & [P9 _]%printf_Ok & E2). apply bind_inv_Ok in E2 as (u10 & t10 & E10%setkilled_Ok & [= _ <-]).
    assert (i < length (k_procs (st t9)))%nat as Hlen9 by (rewrite (eq_trans P9 (eq_trans P8 P1)); exact Hlen).
    rewrite E10, (on_proc_same i _ _ Hlen9) in Hk. by destruct (proc_at i (st t9)).
Qed.
End Trap.
