(* ===== verification/Spinlock.v ===== *)
(** * spinlock.c and sleeplock.c: locks on a machine with several harts

    The other files use spin locks through [acquire] and [release] of Prelude.v, on
    the list of locks the hart holds.  Here is the code: every hart runs
    [acquire], [release], [push_off] and [pop_off] in steps that interleave at the
    accesses to shared memory, and the list ([h_held]) is a ghost of what the lock
    words say. *)

From S2P Require Import Prelude.

(** [struct spinlock]; [cpu] is a hart. *)
Record spinlock := Spinlock { locked : Z; lcpu : option nat }.

(** Where a hart is in the functions of spinlock.c. *)
Inductive pc :=
  | Idle
  | Acquire (lk : nat) | AcqTest (lk : nat) | AcqSpin (lk : nat) | AcqCpu (lk : nat)
  | Release (lk : nat) | RelCpu (lk : nat) | RelStore (lk : nat) | RelPop
  | PushOff | PopOff
  | Panicked (msg : string).

(** A hart: whether interrupts are on, [noff] and [intena] of its [struct cpu], and
    two ghosts: the locks it holds and the calls of [push_off] outside [acquire]
    that wait for their [pop_off]. *)
Record hart := Hart {
  h_intr : bool; h_noff : Z; h_intena : bool; h_pc : pc; h_held : list nat; h_pushes : nat }.

Record machine := Machine { m_lock : nat → spinlock; m_hart : nat → hart }.

Definition fupdn {A} (f : nat → A) (i : nat) (v : A) : nat → A := λ j, if decide (j = i) then v else f j.

Definition set_lock (lk : nat) (l : spinlock) (m : machine) : machine := Machine (fupdn (m_lock m) lk l) (m_hart m).
Definition set_hart (i : nat) (h : hart) (m : machine) : machine := Machine (m_lock m) (fupdn (m_hart m) i h).
Definition at_pc (c : pc) (h : hart) : hart := Hart (h_intr h) (h_noff h) (h_intena h) c (h_held h) (h_pushes h).
Definition with_held (l : list nat) (h : hart) : hart := Hart (h_intr h) (h_noff h) (h_intena h) (h_pc h) l (h_pushes h).
Definition with_pushes (n : nat) (h : hart) : hart := Hart (h_intr h) (h_noff h) (h_intena h) (h_pc h) (h_held h) n.

Definition initlock : spinlock := Spinlock 0 None.

Definition holding (i : nat) (l : spinlock) : bool := truth (locked l) && bool_decide (lcpu l = Some i).

Definition push_off (h : hart) : hart :=
  let old := h_intr h in
  Hart false (h_noff h + 1) (if h_noff h =? 0 then old else h_intena h) (h_pc h) (h_held h) (h_pushes h).

Definition pop_off (h : hart) : hart :=
  if h_intr h then at_pc (Panicked "pop_off - interruptible") h
  else if h_noff h <? 1 then at_pc (Panicked "pop_off") h
  else
    let noff := h_noff h - 1 in
    Hart ((noff =? 0) && h_intena h) noff (h_intena h) Idle (h_held h) (h_pushes h).

(** The next step of a hart inside one of the functions. *)
Definition hart_step (i : nat) (m : machine) : machine :=
  let h := m_hart m i in
  match h_pc h with
  | Idle | Panicked _ => m
  | Acquire lk => set_hart i (at_pc (AcqTest lk) (push_off h)) m
  | AcqTest lk =>
      if holding i (m_lock m lk) then set_hart i (at_pc (Panicked "acquire") h) m
      else set_hart i (at_pc (AcqSpin lk) h) m
  | AcqSpin lk =>
      (* while(__sync_lock_test_and_set(&lk->locked, 1) != 0) *)
      let old := locked (m_lock m lk) in
      let m := set_lock lk (Spinlock 1 (lcpu (m_lock m lk))) m in
      if truth old then m
      else set_hart i (at_pc (AcqCpu lk) (with_held (lk :: h_held h) h)) m
  | AcqCpu lk =>
      set_hart i (at_pc Idle h) (set_lock lk (Spinlock (locked (m_lock m lk)) (Some i)) m)
  | Release lk =>
      if holding i (m_lock m lk) then set_hart i (at_pc (RelCpu lk) h) m
      else set_hart i (at_pc (Panicked "release") h) m
  | RelCpu lk =>
      set_hart i (at_pc (RelStore lk) h) (set_lock lk (Spinlock (locked (m_lock m lk)) None) m)
  | RelStore lk =>
      (* __sync_lock_release(&lk->locked) *)
      set_hart i (at_pc RelPop (with_held (filter (λ x, x ≠ lk) (h_held h)) h))
        (set_lock lk (Spinlock 0 (lcpu (m_lock m lk))) m)
  | RelPop => set_hart i (pop_off h) m
  | PushOff => set_hart i (at_pc Idle (with_pushes (S (h_pushes h)) (push_off h))) m
  | PopOff => set_hart i (pop_off (with_pushes (pred (h_pushes h)) h)) m
  end.

(** What the rest of the kernel calls; a [pop_off] has its [push_off]. *)
Definition call_ok (c : pc) (h : hart) : Prop :=
  match c with
  | Acquire _ | Release _ | PushOff => True
  | PopOff => (0 < h_pushes h)%nat
  | _ => False
  end.

(** A hart that is in none of the functions calls one, goes on with its own code,
    which turns interrupts on and off only while it holds no lock, or is inside a
    function and takes its next step. *)
Inductive step : machine → machine → Prop :=
  | step_call i c m : h_pc (m_hart m i) = Idle → call_ok c (m_hart m i) →
      step m (set_hart i (at_pc c (m_hart m i)) m)
  | step_intr i b m : h_pc (m_hart m i) = Idle → h_noff (m_hart m i) = 0 →
      step m (set_hart i (Hart b 0 (h_intena (m_hart m i)) Idle (h_held (m_hart m i)) (h_pushes (m_hart m i))) m)
  | step_run i m : step m (hart_step i m).

(** Boot: every lock initialised, every hart with [noff = 0]. *)
Definition boot (m : machine) : Prop :=
  (∀ lk, m_lock m lk = initlock) ∧
  ∀ i, h_noff (m_hart m i) = 0 ∧ h_pc (m_hart m i) = Idle ∧ h_held (m_hart m i) = [] ∧ h_pushes (m_hart m i) = 0%nat.

Definition reachable (m : machine) : Prop := ∃ m0, boot m0 ∧ rtc step m0 m.

(** ** The invariant *)

(** Calls of [push_off] not counted by the held locks. *)
Definition pend (c : pc) : Z :=
  match c with
  | AcqTest _ | AcqSpin _ | RelPop => 1
  | Panicked msg => if decide (msg = "acquire"%string) then 1 else 0
  | _ => 0
  end.

Record hart_ok (h : hart) : Prop := {
  ho_nodup : NoDup (h_held h);
  ho_noff : h_noff h = Z.of_nat (length (h_held h)) + Z.of_nat (h_pushes h) + pend (h_pc h);
  ho_intr : h_noff h ≠ 0 → h_intr h = false;
  ho_pos : 0 <= h_noff h;
  ho_pop : h_pc h = PopOff → (0 < h_pushes h)%nat;
  ho_in : ∀ lk, h_pc h = AcqCpu lk ∨ h_pc h = RelCpu lk ∨ h_pc h = RelStore lk → lk ∈ h_held h;
  ho_out : ∀ lk, h_pc h = AcqSpin lk → lk ∉ h_held h;
  ho_panic : ∀ msg, h_pc h = Panicked msg → msg = "acquire"%string ∨ msg = "release"%string }.

Record lock_ok (m : machine) (lk : nat) : Prop := {
  lo_free : locked (m_lock m lk) = 0 → ∀ i, lk ∉ h_held (m_hart m i);
  lo_taken : locked (m_lock m lk) ≠ 0 → ∃ i, lk ∈ h_held (m_hart m i);
  lo_one : ∀ i j, lk ∈ h_held (m_hart m i) → lk ∈ h_held (m_hart m j) → i = j;
  lo_cpu : ∀ i, lcpu (m_lock m lk) = Some i → lk ∈ h_held (m_hart m i);
  lo_held : ∀ i, lk ∈ h_held (m_hart m i) →
    lcpu (m_lock m lk) = Some i ∨ h_pc (m_hart m i) = AcqCpu lk ∨ h_pc (m_hart m i) = RelStore lk;
  lo_store : ∀ i, h_pc (m_hart m i) = RelStore lk → lcpu (m_lock m lk) = None }.

Definition inv (m : machine) : Prop := (∀ i, hart_ok (m_hart m i)) ∧ ∀ lk, lock_ok m lk.

Lemma fupdn_eq {A} (f : nat → A) i v : fupdn f i v i = v.
Proof. unfold fupdn. by rewrite decide_True. Qed.
Lemma fupdn_ne {A} (f : nat → A) i j v : j ≠ i → fupdn f i v j = f j.
Proof. intros. unfold fupdn. by rewrite decide_False. Qed.

(** A step of hart [i] that leaves the lock [lk] and its holder alone. *)
Lemma lock_ok_frame lk i h l m :
  lock_ok m lk → l lk = m_lock m lk →
  (lk ∈ h_held h ↔ lk ∈ h_held (m_hart m i)) →
  (h_pc h = RelStore lk → h_pc (m_hart m i) = RelStore lk ∨ lcpu (m_lock m lk) = None) →
  (h_pc (m_hart m i) = AcqCpu lk ∨ h_pc (m_hart m i) = RelStore lk → h_pc h = h_pc (m_hart m i)) →
  lock_ok (Machine l (fupdn (m_hart m) i h)) lk.
Proof.
  intros [Hf Ht Ho Hc Hh Hs] El Hheld Hp1 Hp2.
  assert (∀ j, lk ∈ h_held (fupdn (m_hart m) i h j) ↔ lk ∈ h_held (m_hart m j)) as Hm.
  { intros j. unfold fupdn. case_decide; subst; done. }
  split; cbn [m_lock m_hart]; rewrite ?El.
  - intros H0 j. rewrite Hm. by apply Hf.
  - intros H0. destruct (Ht H0) as [j Hj]. exists j. by rewrite Hm.
  - intros j k. rewrite !Hm. apply Ho.
  - intros j Hj. rewrite Hm. by apply Hc.
  - intros j. rewrite Hm. intros Hj. unfold fupdn. case_decide; subst; [|by apply Hh].
    destruct (Hh i Hj) as [H1|H1]; [by left|]. right. by rewrite (Hp2 H1).
  - intros j. unfold fupdn. case_decide; subst; [|apply Hs].
    intros Hj. destruct (Hp1 Hj) as [H1|H1]; [by apply (Hs i)|done].
Qed.

Lemma inv_set_hart i h m :
  inv m → hart_ok h → h_held h = h_held (m_hart m i) →
  (∀ lk, h_pc h ≠ AcqCpu lk) → (∀ lk, h_pc h ≠ RelStore lk) →
  (∀ lk, h_pc (m_hart m i) ≠ AcqCpu lk) → (∀ lk, h_pc (m_hart m i) ≠ RelStore lk) →
  inv (set_hart i h m).
Proof.
  intros [Hh Hl] Hok E H1 H2 H3 H4. split; cbn [set_hart m_hart m_lock].
  - intros j. unfold fupdn. case_decide; [done|apply Hh].
  - intros lk. apply lock_ok_frame; [apply Hl|done|by rewrite E|by intros ?%H2|]. intros [[]%H3|[]%H4].
Qed.

(** The ghost is what the lock words say. *)
Lemma holding_iff m i lk :
  inv m → (∀ lk, h_pc (m_hart m i) ≠ AcqCpu lk) → (∀ lk, h_pc (m_hart m i) ≠ RelStore lk) →
  holding i (m_lock m lk) = true ↔ lk ∈ h_held (m_hart m i).
Proof.
  intros [_ Hl] H1 H2. destruct (Hl lk) as [Hf Ht Ho Hc Hh Hs]. unfold holding, truth.
  rewrite andb_true_iff, negb_true_iff, Z.eqb_neq, bool_decide_eq_true. split.
  - intros [_ E]. by apply Hc.
  - intros Hi. split; [intros H0; by apply (Hf H0 i)|]. destruct (Hh i Hi) as [E|[E|E]]; [done|by apply H1 in E|by apply H2 in E].
Qed.

Lemma filter_ne_length (l : list nat) x : NoDup l → x ∈ l → (length (filter (λ y, y ≠ x) l) + 1 = length l)%nat.
Proof.
  induction l as [|y l IH]; intros Hn Hx; [by apply not_elem_of_nil in Hx|].
  apply NoDup_cons in Hn as [Hy Hn]. rewrite filter_cons. destruct (decide (y ≠ x)) as [Hd|Hd].
  - apply elem_of_cons in Hx as [->|Hx]; [done|]. cbn [length]. rewrite <- (IH Hn Hx). lia.
  - apply dec_stable in Hd as ->. cbn [length].
    assert (filter (λ y, y ≠ x) l = l) as ->; [|lia].
    clear -Hy. induction l as [|z l IH]; [done|]. apply not_elem_of_cons in Hy as [H1 H2].
    rewrite filter_cons, decide_True by congruence. by rewrite IH.
Qed.

Lemma push_off_ok h c : hart_ok h → h_pc h ≠ PopOff → pend c = 1 + pend (h_pc h) →
  c ≠ PopOff → (∀ lk, c ≠ AcqCpu lk ∧ c ≠ RelCpu lk ∧ c ≠ RelStore lk ∧ c ≠ AcqSpin lk) → (∀ msg, c ≠ Panicked msg) →
  hart_ok (at_pc c (push_off h)).
Proof.
  intros [] Hp Hc Hc0 Hc1 Hc2. split; cbn; try done.
  - rewrite Hc, ho_noff0. lia.
  - lia.
  - intros lk [E|[E|E]]; destruct (Hc1 lk) as (?&?&?&?); done.
  - intros lk E. by destruct (Hc1 lk) as (?&?&?&?).
  - intros msg E. by apply Hc2 in E.
Qed.

(** [pop_off] undoes one [push_off] that is still counted. *)
Lemma pop_off_ok h n : hart_ok h → h_pc h = RelPop ∧ n = h_pushes h ∨ h_pc h = PopOff ∧ n = pred (h_pushes h) →
  hart_ok (pop_off (with_pushes n h)) ∧ h_pc (pop_off (with_pushes n h)) = Idle ∧
  h_held (pop_off (with_pushes n h)) = h_held h.
Proof.
  intros [] Hc.
  assert (1 <= h_noff h ∧ h_noff h - 1 = Z.of_nat (length (h_held h)) + Z.of_nat n) as [H1 H2].
  { destruct Hc as [[E ->]|[E ->]]; rewrite E in ho_noff0; cbn in ho_noff0; [lia|]. specialize (ho_pop0 E). lia. }
  unfold pop_off. cbn [with_pushes h_intr h_noff h_intena h_held h_pushes h_pc].
  rewrite ho_intr0 by lia. rewrite (proj2 (Z.ltb_ge _ _)) by lia.
  split; [|done]. split; cbn [h_held h_noff h_pc h_intr h_pushes pend]; try done.
  - lia.
  - intros H. by rewrite (proj2 (Z.eqb_neq _ _)).
  - lia.
  - by intros lk [E|[E|E]].
Qed.


Section steps.
Variables (i lk : nat) (m : machine).
Hypothesis Hi : inv m.

#[local] Abbreviation h := (m_hart m i).

(** The holder of a lock other than [lk] is not concerned by a step of [i] that
    works on [lk]. *)
Lemma other_lock lk' l h' :
  lk' ≠ lk → (lk' ∈ h_held h' ↔ lk' ∈ h_held h) → (h_pc h = AcqSpin lk ∨ h_pc h = AcqCpu lk ∨ h_pc h = RelCpu lk ∨ h_pc h = RelStore lk) →
  (h_pc h' ≠ RelStore lk') →
  lock_ok (Machine (fupdn (m_lock m) lk l) (fupdn (m_hart m) i h')) lk'.
Proof.
  intros Hne Hh Hp Hp'. apply lock_ok_frame; [apply Hi|by rewrite fupdn_ne|done|by intros|].
  intros [E|E]; rewrite E in Hp; destruct Hp as [|[|[|]]]; congruence.
Qed.

Lemma acq_spin_inv : h_pc h = AcqSpin lk → inv (hart_step i m).
Proof.
  intros E. unfold hart_step. rewrite E. pose proof Hi as [Hh Hl]. destruct (Hl lk) as [Hf Ht Hone Hc Hhd Hst].
  destruct (Z.eqb_spec (locked (m_lock m lk)) 0) as [H0|H0]; unfold truth; cbn [negb].
  - rewrite (proj2 (Z.eqb_eq _ _) H0). cbn [negb].
    unfold set_hart, set_lock; split; cbn [m_hart m_lock].
    + intros j. unfold fupdn. case_decide as Hj; [subst j|apply Hh]. pose proof (Hh i) as []. pose proof (Hf H0 i) as Hni.
      split; cbn; rewrite ?E in *; try done.
      * by constructor.
      * cbn in *. lia.
      * intros lk' [[= <-]|[|]]; [|done|done]. by left.
    + intros lk'. destruct (decide (lk' = lk)) as [->|Hne].
      * split; cbn [m_lock m_hart]; rewrite ?fupdn_eq; cbn [locked lcpu].
        -- done.
        -- intros _. exists i. rewrite fupdn_eq. cbn. by left.
        -- assert (∀ j, lk ∈ h_held (fupdn (m_hart m) i (at_pc (AcqCpu lk) (with_held (lk :: h_held h) h)) j) → j = i) as Hj.
           { intros j. unfold fupdn. case_decide; [done|]. intros Hx. by apply Hf in Hx. }
           intros j k Hj1%Hj Hk1%Hj. congruence.
        -- intros j Hj. by apply Hc, Hf in Hj.
        -- intros j. unfold fupdn. case_decide; [intros _; right; by left|]. intros Hx. by apply Hf in Hx.
        -- intros j. unfold fupdn. case_decide; [done|apply Hst].
      * apply other_lock; [done| |by left|done]. cbn. rewrite elem_of_cons. split; [intros [|]; done|by right].
  - rewrite (proj2 (Z.eqb_neq _ _) H0). cbn [negb]. split; [apply Hh|]. intros lk'. unfold set_lock.
    destruct (decide (lk' = lk)) as [->|Hne].
    + split; cbn [m_lock m_hart]; rewrite ?fupdn_eq; cbn [locked lcpu]; try done. intros _. by apply Ht.
    + destruct (Hl lk') as []. split; cbn [m_lock m_hart]; rewrite ?fupdn_ne by done; done.
Qed.

Lemma acq_cpu_inv : h_pc h = AcqCpu lk → inv (hart_step i m).
Proof.
  intros E. unfold hart_step. rewrite E. pose proof Hi as [Hh Hl]. destruct (Hl lk) as [Hf Ht Hone Hc Hhd Hst].
  assert (lk ∈ h_held h) as Hin by (apply (ho_in _ (Hh i)); by left).
  unfold set_hart, set_lock; split; cbn [m_hart m_lock].
  - intros j. unfold fupdn. case_decide as Hj; [subst j|apply Hh]. pose proof (Hh i) as []. split; cbn; rewrite ?E in *; try done.
    + by intros ? [?|[?|?]].
  - intros lk'. destruct (decide (lk' = lk)) as [->|Hne].
    + assert (∀ j, lk ∈ h_held (fupdn (m_hart m) i (at_pc Idle h) j) ↔ lk ∈ h_held (m_hart m j)) as Hm.
      { intros j. unfold fupdn. case_decide; subst; done. }
      split; cbn [m_lock m_hart]; rewrite ?fupdn_eq; cbn [locked lcpu].
      * intros H0. by apply Hf in Hin.
      * intros _. exists i. by rewrite Hm.
      * intros j k. rewrite !Hm. apply Hone.
      * intros j [= <-]. by rewrite Hm.
      * intros j Hj%Hm. left. f_equal. by apply Hone.
      * intros j. unfold fupdn. case_decide as Hj; [done|]. intros E2. destruct Hj. apply Hone; [|done].
        apply (ho_in _ (Hh j)). by right; right.
    + apply other_lock; [done|done|by right; left|done].
Qed.

Lemma rel_cpu_inv : h_pc h = RelCpu lk → inv (hart_step i m).
Proof.
  intros E. unfold hart_step. rewrite E. pose proof Hi as [Hh Hl]. destruct (Hl lk) as [Hf Ht Hone Hc Hhd Hst].
  assert (lk ∈ h_held h) as Hin by (apply (ho_in _ (Hh i)); by right; left).
  unfold set_hart, set_lock; split; cbn [m_hart m_lock].
  - intros j. unfold fupdn. case_decide as Hj; [subst j|apply Hh]. pose proof (Hh i) as []. split; cbn; rewrite ?E in *; try done.
    + intros lk' [|[|[= <-]]]; done.
  - intros lk'. destruct (decide (lk' = lk)) as [->|Hne].
    + assert (∀ j, lk ∈ h_held (fupdn (m_hart m) i (at_pc (RelStore lk) h) j) ↔ lk ∈ h_held (m_hart m j)) as Hm.
      { intros j. unfold fupdn. case_decide; subst; done. }
      split; cbn [m_lock m_hart]; rewrite ?fupdn_eq; cbn [locked lcpu].
      * intros H0. by apply Hf in Hin.
      * intros _. exists i. by rewrite Hm.
      * intros j k. rewrite !Hm. apply Hone.
      * done.
      * intros j Hj%Hm. right; right. assert (j = i) as -> by (by apply Hone). by rewrite fupdn_eq.
      * done.
    + apply other_lock; [done|done|by right; right; left|]. cbn. congruence.
Qed.

Lemma rel_store_inv : h_pc h = RelStore lk → inv (hart_step i m).
Proof.
  intros E. unfold hart_step. rewrite E. pose proof Hi as [Hh Hl]. destruct (Hl lk) as [Hf Ht Hone Hc Hhd Hst].
  assert (lk ∈ h_held h) as Hin by (apply (ho_in _ (Hh i)); by right; right).
  unfold set_hart, set_lock; split; cbn [m_hart m_lock].
  - intros j. unfold fupdn. case_decide as Hj; [subst j|apply Hh]. pose proof (Hh i) as []. split; cbn; rewrite ?E in *; try done.
    + by apply NoDup_filter.
    + pose proof (filter_ne_length _ _ ho_nodup0 Hin). cbn in *. lia.
    + by intros ? [?|[?|?]].
  - intros lk'. destruct (decide (lk' = lk)) as [->|Hne].
    + assert (∀ j, lk ∉ h_held (fupdn (m_hart m) i (at_pc RelPop (with_held (filter (λ x, x ≠ lk) (h_held h)) h)) j)) as Hm.
      { intros j. unfold fupdn. case_decide as Hj; cbn; [rewrite list_elem_of_filter; naive_solver|].
        intros Hj2. by apply Hj, Hone. }
      split; cbn [m_lock m_hart]; rewrite ?fupdn_eq; cbn [locked lcpu]; try done.
      * intros j k Hx. by apply Hm in Hx.
      * intros j. by rewrite (Hst i E).
      * intros j Hx. by apply Hm in Hx.
      * intros j _. by apply (Hst i).
    + apply other_lock; [done| |by right; right; right|done]. cbn. rewrite list_elem_of_filter. naive_solver.
Qed.
End steps.

Ltac by_step L :=
  let H := fresh in pose proof L as H; unfold hart_step in H;
  match goal with E : h_pc _ = _ |- _ => rewrite E in H end; exact H.

Lemma hart_step_inv i m : inv m → inv (hart_step i m).
Proof.
  intros Hi. pose proof Hi as [Hh Hl]. unfold hart_step. pose proof (Hh i) as Ho.
  destruct (h_pc (m_hart m i)) as [|lk|lk|lk|lk|lk|lk|lk| | | |msg] eqn:E; [done|..|done].
  - apply inv_set_hart; rewrite ?E; try done. by apply push_off_ok; rewrite ?E.
  - destruct (holding i (m_lock m lk)) eqn:Eh; apply inv_set_hart; rewrite ?E; try done; destruct Ho; split; cbn; rewrite ?E in *; try done.
    + by intros ? [?|[?|?]].
    + intros ? [= <-]. by left.
    + by intros ? [?|[?|?]].
    + intros lk' [= <-] Hin. apply (holding_iff m i lk Hi) in Hin; rewrite ?E; congruence.
  - by_step (acq_spin_inv i lk m Hi E).
  - by_step (acq_cpu_inv i lk m Hi E).
  - destruct (holding i (m_lock m lk)) eqn:Eh; apply inv_set_hart; rewrite ?E; try done; destruct Ho; split; cbn; rewrite ?E in *; try done.
    + intros lk' [|[[= <-]|]]; [done| |done]. apply (holding_iff m i lk Hi); rewrite ?E; done.
    + by intros ? [?|[?|?]].
    + intros ? [= <-]. by right.
  - by_step (rel_cpu_inv i lk m Hi E).
  - by_step (rel_store_inv i lk m Hi E).
  - destruct (pop_off_ok (m_hart m i) (h_pushes (m_hart m i)) Ho) as (H1 & H2 & H3); [left; by rewrite E|].
    replace (with_pushes (h_pushes (m_hart m i)) (m_hart m i)) with (m_hart m i) in * by (by destruct (m_hart m i)).
    apply inv_set_hart; rewrite ?E, ?H2; done.
  - apply inv_set_hart; rewrite ?E; try done. destruct Ho. rewrite E in *. cbn in *. split; cbn; try done.
    + lia.
    + lia.
    + by intros ? [?|[?|?]].
  - destruct (pop_off_ok (m_hart m i) (pred (h_pushes (m_hart m i))) Ho) as (H1 & H2 & H3); [right; by rewrite E|].
    apply inv_set_hart; rewrite ?E, ?H2; done.
Qed.

Lemma step_inv m m' : inv m → step m m' → inv m'.
Proof.
  intros Hi Hs; revert Hi; destruct Hs as [i c m E Hc|i b m E H0|i m]; intros Hi; [| |by apply hart_step_inv]; pose proof Hi as [Hh _]; pose proof (Hh i) as [];
    apply inv_set_hart; rewrite ?E; try done; try (by destruct c).
  - rewrite E in *. split; cbn; try done; destruct c; try done; cbn in *; try lia; by intros ? [?|[?|?]].
  - rewrite E in *. split; cbn; try done. cbn in *. lia.
Qed.

Lemma boot_inv m : boot m → inv m.
Proof.
  intros [Hl Hh]. split.
  - intros i. destruct (Hh i) as (H1 & H2 & H3 & H4). split; rewrite ?H1, ?H2, ?H3, ?H4; try done; [constructor|by intros ? [?|[?|?]]].
  - intros lk. assert (∀ i, lk ∉ h_held (m_hart m i)) as Hn by (intros i; destruct (Hh i) as (_ & _ & -> & _); apply not_elem_of_nil).
    split; rewrite ?Hl; try done; try (intros i j H; by apply Hn in H); try (intros i H; by apply Hn in H).
Qed.

Lemma reachable_inv m : reachable m → inv m.
Proof.
  intros (m0 & Hb%boot_inv & Hs). induction Hs as [|x y z Hxy _ IH]; [done|]. apply IH. by apply (step_inv x).
Qed.

(** ** Mutual exclusion *)

(** C24: spin locks exclude.  Whatever the interleaving of the harts, no two hold the
    same lock; a hart that holds a lock has its interrupts off, and [noff] is exactly
    the number of locks it holds plus its own open [push_off]s; [holding] answers for
    a hart between two calls exactly whether the hart holds the lock; [pop_off]
    never panics, [acquire] and [release] panic only for a lock that the hart holds
    already, or does not hold. *)
Theorem spinlock_mutex m : reachable m →
  (∀ lk i j, lk ∈ h_held (m_hart m i) → lk ∈ h_held (m_hart m j) → i = j) ∧
  (∀ i lk, lk ∈ h_held (m_hart m i) → h_intr (m_hart m i) = false) ∧
  (∀ i, h_pc (m_hart m i) = Idle →
    h_noff (m_hart m i) = Z.of_nat (length (h_held (m_hart m i))) + Z.of_nat (h_pushes (m_hart m i)) ∧
    ∀ lk, holding i (m_lock m lk) = bool_decide (lk ∈ h_held (m_hart m i))) ∧
  (∀ i lk, h_pc (m_hart m i) = AcqTest lk →
    h_pc (m_hart (hart_step i m) i) = if decide (lk ∈ h_held (m_hart m i)) then Panicked "acquire" else AcqSpin lk) ∧
  (∀ i lk, h_pc (m_hart m i) = Release lk →
    h_pc (m_hart (hart_step i m) i) = if decide (lk ∈ h_held (m_hart m i)) then RelCpu lk else Panicked "release") ∧
  (∀ i msg, h_pc (m_hart m i) = Panicked msg → msg = "acquire"%string ∨ msg = "release"%string).
Proof.
  intros Hi%reachable_inv. pose proof Hi as [Hh Hl].
  assert (∀ i lk, (∀ x, h_pc (m_hart m i) ≠ AcqCpu x) → (∀ x, h_pc (m_hart m i) ≠ RelStore x) →
    holding i (m_lock m lk) = bool_decide (lk ∈ h_held (m_hart m i))) as Hhold.
  { intros i lk H1 H2. apply eq_bool_prop_intro. rewrite bool_decide_spec. rewrite <- (holding_iff m i lk Hi H1 H2). by destruct (holding _ _). }
  split_and!.
  - intros lk i j. apply Hl.
  - intros i lk Hin. destruct (Hh i). apply ho_intr0. rewrite ho_noff0.
    assert (0 < length (h_held (m_hart m i)))%nat by (destruct (h_held (m_hart m i)); [by apply not_elem_of_nil in Hin|cbn; lia]).
    assert (0 <= pend (h_pc (m_hart m i))) by (destruct (h_pc (m_hart m i)); cbn; try case_decide; lia). lia.
  - intros i E. split; [destruct (Hh i); rewrite E in *; cbn in *; lia|]. intros lk. apply Hhold; by rewrite E.
  - intros i lk E. unfold hart_step. rewrite E, Hhold by (by rewrite E).
    case_decide; [rewrite bool_decide_true by done|rewrite bool_decide_false by done]; cbn; by rewrite fupdn_eq.
  - intros i lk E. unfold hart_step. rewrite E, Hhold by (by rewrite E).
    case_decide; [rewrite bool_decide_true by done|rewrite bool_decide_false by done]; cbn; by rewrite fupdn_eq.
  - intros i msg E. by apply (ho_panic _ (Hh i)).
Qed.

(** Two harts want lock 7: hart 0 gets it, hart 1 spins. *)
Definition hart0 : hart := Hart true 0 false Idle [] 0.
Definition contended0 : machine := Machine (λ _, initlock) (λ _, hart0).
Definition contended1 : machine := hart_step 0 (set_hart 0 (at_pc (Acquire 7) hart0) contended0).
Definition contended2 : machine := hart_step 1 (set_hart 1 (at_pc (Acquire 7) hart0) contended1).
Definition contended3 : machine := hart_step 1 (hart_step 1 (hart_step 0 (hart_step 0 (hart_step 0 contended2)))).

Lemma contended_reachable : reachable contended3.
Proof.
  exists contended0. split; [by split|]. unfold contended3, contended2, contended1.
  eapply rtc_l; [by apply (step_call 0 (Acquire 7))|]. eapply rtc_l; [apply (step_run 0)|].
  eapply rtc_l; [by apply (step_call 1 (Acquire 7))|]. eapply rtc_l; [apply (step_run 1)|].
  do 3 (eapply rtc_l; [apply (step_run 0)|]). do 2 (eapply rtc_l; [apply (step_run 1)|]). apply rtc_refl.
Qed.

Lemma spinlock_mutex_witness :
  h_held (m_hart contended3 0) = [7%nat] ∧ h_pc (m_hart contended3 1) = AcqSpin 7 ∧
  (∀ j, 7%nat ∈ h_held (m_hart contended3 j) → 0%nat = j).
Proof.
  split_and!; [reflexivity|reflexivity|]. intros j Hj.
  apply (proj1 (spinlock_mutex contended3 contended_reachable) 7%nat 0%nat j); [|exact Hj].
  change (h_held (m_hart contended3 0)) with [7%nat]. by left.
Defined.
