(* ===== verification/Sleeplock.v ===== *)
(** * sleeplock.c: locks that processes sleep on

    Every function of sleeplock.c runs under the lock's spin lock [lk->lk], so its
    body, up to the [sleep] in the loop of [acquiresleep], is one step of the system
    (Spinlock.v).  [sleep] gives up the spin lock and the CPU together (ProcSpec.v),
    and [wakeup] makes every sleeper on the lock runnable. *)

From S2P Require Import Prelude.

(** [struct sleeplock], without its spin lock. *)
Record sleeplock := Sleeplock { sl_locked : Z; sl_pid : Z }.

(** What a process is doing with the lock: nothing, about to test it, asleep in
    [acquiresleep], past [acquiresleep]. *)
Inductive slstate := Out | Trying | Sleeping | Inside.

#[global] Instance slstate_eq_dec : EqDecision slstate.
Proof. solve_decision. Defined.

(** Processes are named by their pid, which is not 0. *)
Record slsys := Slsys { s_lock : sleeplock; s_proc : Z → slstate }.

Definition fupdp (f : Z → slstate) (p : Z) (v : slstate) : Z → slstate := λ q, if decide (q = p) then v else f q.

Definition initsleeplock : sleeplock := Sleeplock 0 0.

(** One round of [acquiresleep] for process [p], from [acquire(&lk->lk)], or from the
    return of [sleep], to [release(&lk->lk)] or the next [sleep]. *)
Definition acquiresleep (p : Z) (s : slsys) : slsys :=
  if truth (sl_locked (s_lock s)) then Slsys (s_lock s) (fupdp (s_proc s) p Sleeping)
  else Slsys (Sleeplock 1 p) (fupdp (s_proc s) p Inside).

(** [wakeup(lk)] *)
Definition wake_all (f : Z → slstate) : Z → slstate :=
  λ q, if decide (f q = Sleeping) then Trying else f q.

Definition releasesleep (p : Z) (s : slsys) : slsys :=
  Slsys (Sleeplock 0 0) (wake_all (fupdp (s_proc s) p Out)).

Definition holdingsleep (p : Z) (s : slsys) : bool :=
  truth (sl_locked (s_lock s)) && (sl_pid (s_lock s) =? p).

(** Processes call [acquiresleep] when they have not got the lock, and release it when
    they have. *)
Inductive slstep : slsys → slsys → Prop :=
  | sl_call p s : 0 < p → s_proc s p = Out → slstep s (Slsys (s_lock s) (fupdp (s_proc s) p Trying))
  | sl_acquire p s : 0 < p → s_proc s p = Trying → slstep s (acquiresleep p s)
  | sl_release p s : 0 < p → s_proc s p = Inside → slstep s (releasesleep p s).

Definition slreachable (s : slsys) : Prop := rtc slstep (Slsys initsleeplock (λ _, Out)) s.

Record slinv (s : slsys) : Prop := {
  sv_locked : sl_locked (s_lock s) = 0 ∨ sl_locked (s_lock s) = 1;
  sv_inside : ∀ p, s_proc s p = Inside ↔ sl_locked (s_lock s) = 1 ∧ sl_pid (s_lock s) = p;
  sv_asleep : ∀ p, s_proc s p = Sleeping → sl_locked (s_lock s) = 1 }.

Lemma slinv_step s s' : slinv s → slstep s s' → slinv s'.
Proof.
  intros [Hl Hi Ha] Hs; revert Hl Hi Ha; destruct Hs as [p s Hp E|p s Hp E|p s Hp E]; intros Hl Hi Ha.
  - split; cbn [s_lock s_proc]; [done| |]; intros q; unfold fupdp; case_decide; subst; try done; eauto.
    split; [done|]. intros Hq%Hi. congruence.
  - unfold acquiresleep, truth. destruct (Z.eqb_spec (sl_locked (s_lock s)) 0) as [H0|H0]; cbn [negb].
    + split; cbn [s_lock s_proc sl_locked sl_pid]; [by right| |]; intros q; unfold fupdp; case_decide; subst; try done.
      * rewrite Hi, H0. split; [by intros [? ?]|intros [_ ?]; congruence].
    + split; cbn [s_lock s_proc]; [done| |]; intros q; unfold fupdp; case_decide; subst; try done; eauto.
      * split; [done|]. intros Hq%Hi. congruence.
      * intros _. by destruct Hl.
  - unfold releasesleep. split; cbn [s_lock s_proc sl_locked sl_pid]; [by left| |]; intros q; unfold wake_all, fupdp.
    + destruct (decide (q = p)) as [->|Hq]; [cbn; split; [done|by intros [? ?]]|]. apply Hi in E as [_ <-].
      case_decide; [split; [done|by intros [? ?]]|]. rewrite Hi. naive_solver.
    + by case_decide.
Qed.

Lemma slreachable_inv s : slreachable s → slinv s.
Proof.
  intros Hr. assert (slinv (Slsys initsleeplock (λ _, Out))) as H0 by (split; cbn; [by left|intros p; split; [done|by intros [? ?]]|done]).
  unfold slreachable in Hr. remember (Slsys initsleeplock (λ _, Out)) as s0. clear Heqs0.
  induction Hr as [|x y z Hxy _ IH]; [done|]. apply IH. by apply (slinv_step x).
Qed.

(** C32: a sleep lock has one holder, which is the process that [holdingsleep]
    answers yes to, and no wakeup is lost: while the lock is free nobody sleeps on it.
    So a process that waits is either about to test the lock, and gets it with its
    next step if the lock is free, or there is a holder whose [releasesleep] makes it
    test again. *)
Theorem sleeplock_progress s p : slreachable s → s_proc s p = Trying ∨ s_proc s p = Sleeping →
  (∀ q r, s_proc s q = Inside → s_proc s r = Inside → q = r) ∧
  (∀ q, holdingsleep q s = bool_decide (s_proc s q = Inside)) ∧
  ((sl_locked (s_lock s) = 0 ∧ s_proc s p = Trying ∧ s_proc (acquiresleep p s) p = Inside) ∨
   ∃ q, s_proc s q = Inside ∧ q ≠ p ∧ s_proc (releasesleep q s) p = Trying ∧ sl_locked (s_lock (releasesleep q s)) = 0).
Proof.
  intros [Hl Hi Ha]%slreachable_inv Hp. split_and!.
  - intros q r [_ <-]%Hi [_ <-]%Hi. done.
  - intros q. unfold holdingsleep, truth. apply eq_bool_prop_intro. rewrite bool_decide_spec, Hi.
    destruct Hl as [->| ->]; cbn; [naive_solver|]. destruct (Z.eqb_spec (sl_pid (s_lock s)) q); naive_solver.
  - destruct Hl as [H0|H1].
    + left. assert (s_proc s p = Trying) as E by (destruct Hp as [|E]; [done|apply Ha in E; congruence]).
      split_and!; [done|done|]. unfold acquiresleep. rewrite H0. cbn. unfold fupdp. by rewrite decide_True.
    + right. exists (sl_pid (s_lock s)). assert (s_proc s (sl_pid (s_lock s)) = Inside) as E by (by apply Hi).
      assert (sl_pid (s_lock s) ≠ p) as Hne by (intros <-; destruct Hp; congruence).
      split_and!; [done|done| |done]. unfold releasesleep, wake_all, fupdp. cbn [s_proc].
      rewrite (decide_False (P := p = sl_pid (s_lock s))) by congruence. destruct Hp as [->| ->]; [by rewrite decide_False|by rewrite decide_True].
Qed.

(** Process 3 has the lock, process 4 sleeps. *)
Definition two_sleepers : slsys :=
  let s := Slsys initsleeplock (λ _, Out) in
  let s := Slsys (s_lock s) (fupdp (s_proc s) 3 Trying) in
  let s := Slsys (s_lock s) (fupdp (s_proc s) 4 Trying) in
  acquiresleep 4 (acquiresleep 3 s).

Lemma sleeplock_progress_witness :
  s_proc two_sleepers 4 = Sleeping ∧ s_proc two_sleepers 3 = Inside ∧
  ∀ q, s_proc two_sleepers q = Inside → q = 3.
Proof.
  assert (slreachable two_sleepers) as Hr.
  { unfold slreachable, two_sleepers. eapply rtc_l; [by apply (sl_call 3)|]. eapply rtc_l; [by apply (sl_call 4)|].
    eapply rtc_l; [by apply (sl_acquire 3)|]. eapply rtc_l; [by apply (sl_acquire 4)|]. apply rtc_refl. }
  split_and!; [reflexivity|reflexivity|]. intros q Hq.
  apply (proj1 (sleeplock_progress two_sleepers 4 Hr (or_intror eq_refl)) q 3 Hq). reflexivity.
Defined.
