(* ===== verification/Virtio.v ===== *)
(** * virtio_disk.c: the disk driver

    The descriptor table, the rings and the book-keeping of [struct disk] as the
    driver and the device share them.  Arrays are functions of the index, what a
    descriptor points to is a value of [dma].  The device itself is not part of the
    source: it acts while [virtio_disk_rw] sleeps. *)

From S2P Require Import Prelude Param BlockLayer.

Definition NUM : Z := 8.
Definition VRING_DESC_F_NEXT : Z := 1.
Definition VRING_DESC_F_WRITE : Z := 2.
Definition VIRTIO_BLK_T_IN : Z := 0.
Definition VIRTIO_BLK_T_OUT : Z := 1.

(** [struct virtq_desc]; its address is that of [disk.ops[i]], of [b->data] or of
    [disk.info[i].status]. *)
Inductive dma := A_null | A_op (i : Z) | A_data (b : Z) | A_status (i : Z).
Record virtq_desc := Desc { d_addr : dma; d_len : Z; d_flags : Z; d_next : Z }.
Record virtio_blk_req := Req { q_type : Z; q_reserved : Z; q_sector : Z }.

(** The fields of a [struct buf] that the driver uses; a buffer is a number. *)
Record vbuf := Vbuf { vb_disk : Z; vb_blockno : Z; vb_data : list Z }.

Record vdisk := Vdisk {
  v_desc : Z → virtq_desc;
  v_avail : Z → Z; v_avail_idx : Z;            (* disk.avail->ring, ->idx *)
  v_used : Z → Z; v_dev_idx : Z;               (* disk.used->ring[].id, ->idx *)
  v_free : Z → bool;
  v_used_idx : Z;
  v_info_b : Z → option Z; v_info_status : Z → Z;
  v_ops : Z → virtio_blk_req;
  v_buf : Z → vbuf;
  v_media : Z → list Z;                        (* the disk's sectors of 512 bytes *)
  v_mmio : list (Z * Z) }.                     (* stores into registers *)

Definition set_vdesc x (s : vdisk) : vdisk := let '(Vdisk _ b c d e f g h i j k l m) := s in Vdisk x b c d e f g h i j k l m.
Definition set_avail x (s : vdisk) : vdisk := let '(Vdisk a _ c d e f g h i j k l m) := s in Vdisk a x c d e f g h i j k l m.
Definition set_avail_idx x (s : vdisk) : vdisk := let '(Vdisk a b _ d e f g h i j k l m) := s in Vdisk a b x d e f g h i j k l m.
Definition set_used x (s : vdisk) : vdisk := let '(Vdisk a b c _ e f g h i j k l m) := s in Vdisk a b c x e f g h i j k l m.
Definition set_dev_idx x (s : vdisk) : vdisk := let '(Vdisk a b c d _ f g h i j k l m) := s in Vdisk a b c d x f g h i j k l m.
Definition set_free x (s : vdisk) : vdisk := let '(Vdisk a b c d e _ g h i j k l m) := s in Vdisk a b c d e x g h i j k l m.
Definition set_used_idx x (s : vdisk) : vdisk := let '(Vdisk a b c d e f _ h i j k l m) := s in Vdisk a b c d e f x h i j k l m.
Definition set_info_b x (s : vdisk) : vdisk := let '(Vdisk a b c d e f g _ i j k l m) := s in Vdisk a b c d e f g x i j k l m.
Definition set_info_status x (s : vdisk) : vdisk := let '(Vdisk a b c d e f g h _ j k l m) := s in Vdisk a b c d e f g h x j k l m.
Definition set_ops x (s : vdisk) : vdisk := let '(Vdisk a b c d e f g h i _ k l m) := s in Vdisk a b c d e f g h i x k l m.
Definition set_vbuf x (s : vdisk) : vdisk := let '(Vdisk a b c d e f g h i j _ l m) := s in Vdisk a b c d e f g h i j x l m.
Definition set_media x (s : vdisk) : vdisk := let '(Vdisk a b c d e f g h i j k _ m) := s in Vdisk a b c d e f g h i j k x m.
Definition set_mmio x (s : vdisk) : vdisk := let '(Vdisk a b c d e f g h i j k l _) := s in Vdisk a b c d e f g h i j k l x.

Definition upd_desc (i : Z) (d : virtq_desc) : M vdisk unit := modify (λ s, set_vdesc (fupdz (v_desc s) i d) s).
Definition upd_free (i : Z) (x : bool) : M vdisk unit := modify (λ s, set_free (fupdz (v_free s) i x) s).
Definition upd_disk (b x : Z) : M vdisk unit :=
  modify (λ s, let v := v_buf s b in set_vbuf (fupdz (v_buf s) b (Vbuf x (vb_blockno v) (vb_data v))) s).

(** ** Descriptors *)

Definition descs : list Z := seqZ 0 NUM.

Definition alloc_desc : M vdisk Z :=
  let! r := for_each descs (λ i,
    let! s := get in
    if v_free s i then upd_free i false ;;; ret (Some i) else ret None) in
  ret (default (-1) r).

(** [wakeup(&disk.free[0])] concerns processes that wait for a descriptor. *)
Definition free_desc (i : Z) : M vdisk unit :=
  panic_if (NUM <=? i) "free_desc 1" ;;;
  let! s := get in
  panic_if (v_free s i) "free_desc 2" ;;;
  upd_desc i (Desc A_null 0 0 0) ;;;
  upd_free i true.

(** A chain has at most [NUM] descriptors: the one visited twice makes
    [free_desc] panic. *)
Fixpoint free_chain_loop (fuel : nat) (i : Z) : M vdisk unit :=
  match fuel with
  | O => λ t, Asleep t
  | S fuel =>
      let! s := get in
      let flag := d_flags (v_desc s i) in
      let nxt := d_next (v_desc s i) in
      free_desc i ;;;
      if negb (Z.land flag VRING_DESC_F_NEXT =? 0) then free_chain_loop fuel nxt else ret tt
  end.

Definition free_chain (i : Z) : M vdisk unit := free_chain_loop (S (Z.to_nat NUM)) i.

Fixpoint free_list (idx : list Z) : M vdisk unit :=
  match idx with
  | [] => ret tt
  | i :: idx => free_desc i ;;; free_list idx
  end.

(** [k] descriptors to go; [None] for -1. *)
Fixpoint alloc_loop (k : nat) (idx : list Z) : M vdisk (option (list Z)) :=
  match k with
  | O => ret (Some idx)
  | S k =>
      let! i := alloc_desc in
      if i <? 0 then free_list idx ;;; ret None
      else alloc_loop k (idx ++ [i])
  end.

Definition alloc3_desc : M vdisk (option (list Z)) := alloc_loop 3 [].

(** ** Requests *)

Definition VIRTIO_MMIO_QUEUE_NOTIFY : Z := 0x050.
Definition VIRTIO_MMIO_INTERRUPT_STATUS : Z := 0x060.
Definition VIRTIO_MMIO_INTERRUPT_ACK : Z := 0x064.

Definition mmio_write (r v : Z) : M vdisk unit := modify (λ s, set_mmio (v_mmio s ++ [(r, u32 v)]) s).

(** [env]: what the rest of the machine, the device included, does in each sleep. *)
Fixpoint alloc_wait (env : list (vdisk → vdisk)) : M vdisk (list Z * list (vdisk → vdisk)) :=
  let! r := alloc3_desc in
  match r with
  | Some idx => ret (idx, env)
  | None =>
      match env with
      | [] => λ t, Asleep t
      | e :: env => sleep_round L_vdisk e ;;; alloc_wait env
      end
  end.

(** The chain [i0], [i1], [i2] for buffer [b], up to the notification. *)
Definition submit (b : Z) (write : bool) (sector i0 i1 i2 : Z) : M vdisk unit :=
  modify (λ s, set_ops (fupdz (v_ops s) i0 (Req (if write then VIRTIO_BLK_T_OUT else VIRTIO_BLK_T_IN) 0 sector)) s) ;;;
  upd_desc i0 (Desc (A_op i0) 16 VRING_DESC_F_NEXT i1) ;;;
  upd_desc i1 (Desc (A_data b) BSIZE (Z.lor (if write then 0 else VRING_DESC_F_WRITE) VRING_DESC_F_NEXT) i2) ;;;
  modify (λ s, set_info_status (fupdz (v_info_status s) i0 0xff) s) ;;;
  upd_desc i2 (Desc (A_status i0) 1 VRING_DESC_F_WRITE 0) ;;;
  upd_disk b 1 ;;;
  modify (λ s, set_info_b (fupdz (v_info_b s) i0 (Some b)) s) ;;;
  modify (λ s, set_avail (fupdz (v_avail s) (v_avail_idx s mod NUM) i0) s) ;;;
  modify (λ s, set_avail_idx (u16 (v_avail_idx s + 1)) s) ;;;
  mmio_write VIRTIO_MMIO_QUEUE_NOTIFY 0.

(** [while(b->disk == 1) sleep(b, &disk.vdisk_lock);] *)
Fixpoint disk_wait (b : Z) (env : list (vdisk → vdisk)) : M vdisk unit :=
  let! s := get in
  if vb_disk (v_buf s b) =? 1 then
    match env with
    | [] => λ t, Asleep t
    | e :: env => sleep_round L_vdisk e ;;; disk_wait b env
    end
  else ret tt.

Definition virtio_disk_rw (env : list (vdisk → vdisk)) (b : Z) (write : bool) : M vdisk unit :=
  let! s := get in
  let sector := u32 (vb_blockno (v_buf s b) * (BSIZE / 512)) in
  acquire L_vdisk ;;;
  let! r := alloc_wait env in
  let '(idx, env) := r in
  let i0 := default 0 (idx !! 0%nat) in
  submit b write sector i0 (default 0 (idx !! 1%nat)) (default 0 (idx !! 2%nat)) ;;;
  disk_wait b env ;;;
  modify (λ s, set_info_b (fupdz (v_info_b s) i0 None) s) ;;;
  free_chain i0 ;;;
  release L_vdisk.

(** The loop over the used ring.  A used entry whose [info[id].b] is null would be a
    null pointer. *)
Fixpoint intr_loop (fuel : nat) : M vdisk unit :=
  match fuel with
  | O => λ t, Asleep t
  | S fuel =>
      let! s := get in
      if v_used_idx s =? v_dev_idx s then ret tt
      else
        let id := v_used s (v_used_idx s mod NUM) in
        panic_if (negb (v_info_status s id =? 0)) "virtio_disk_intr status" ;;;
        match v_info_b s id with
        | None => undefined "info[id].b"
        | Some b =>
            upd_disk b 0 ;;;
            modify (λ s, set_used_idx (u16 (v_used_idx s + 1)) s) ;;;
            intr_loop fuel
        end
  end.

(** [isr]: the device's interrupt status. *)
Definition virtio_disk_intr (isr : Z) : M vdisk unit :=
  acquire L_vdisk ;;;
  mmio_write VIRTIO_MMIO_INTERRUPT_ACK (Z.land isr 0x3) ;;;
  let! s := get in
  intr_loop (S (Z.to_nat (u16 (v_dev_idx s - v_used_idx s)))) ;;;
  release L_vdisk.

(** ** Initialisation

    [mmio ws r] is what the device answers to a read of register [r] after the
    stores [ws]; [desc], [avail] and [used] are what [kalloc] returned. *)

Section init.
Context (mmio : list (Z * Z) → Z → Z) (desc avail used : Z).

Definition mmio_read (r : Z) : M vdisk Z := gets (λ s, u32 (mmio (v_mmio s) r)).

Definition clear_bits (x : Z) (bits : list Z) : Z := foldl (λ x b, Z.land x (Z.lnot (Z.shiftl 1 b))) x bits.

Definition VIRTIO_MMIO_STATUS : Z := 0x070.

Definition virtio_disk_init : M vdisk unit :=
  let! magic := mmio_read 0x000 in
  let! version := mmio_read 0x004 in
  let! device_id := mmio_read 0x008 in
  let! vendor_id := mmio_read 0x00c in
  panic_if (negb (magic =? 0x74726976) || negb (version =? 2) || negb (device_id =? 2) || negb (vendor_id =? 0x554d4551))
    "could not find virtio disk" ;;;
  mmio_write VIRTIO_MMIO_STATUS 0 ;;;
  let status := Z.lor 0 1 in
  mmio_write VIRTIO_MMIO_STATUS status ;;;
  let status := Z.lor status 2 in
  mmio_write VIRTIO_MMIO_STATUS status ;;;
  let! features := mmio_read 0x010 in
  let features := clear_bits features [5; 7; 11; 12; 27; 29; 28] in
  mmio_write 0x020 features ;;;
  let status := Z.lor status 8 in
  mmio_write VIRTIO_MMIO_STATUS status ;;;
  let! status := mmio_read VIRTIO_MMIO_STATUS in
  panic_if (Z.land status 8 =? 0) "virtio disk FEATURES_OK unset" ;;;
  mmio_write 0x030 0 ;;;
  let! ready := mmio_read 0x044 in
  panic_if (negb (ready =? 0)) "virtio disk should not be ready" ;;;
  let! max := mmio_read 0x034 in
  panic_if (max =? 0) "virtio disk has no queue 0" ;;;
  panic_if (max <? NUM) "virtio disk max queue too short" ;;;
  panic_if ((desc =? 0) || (avail =? 0) || (used =? 0)) "virtio disk kalloc" ;;;
  modify (set_vdesc (λ _, Desc A_null 0 0 0)) ;;;
  modify (set_avail (λ _, 0)) ;;;
  modify (set_avail_idx 0) ;;;
  modify (set_used (λ _, 0)) ;;;
  modify (set_dev_idx 0) ;;;
  mmio_write 0x038 NUM ;;;
  mmio_write 0x080 desc ;;;
  mmio_write 0x084 (Z.shiftr desc 32) ;;;
  mmio_write 0x090 avail ;;;
  mmio_write 0x094 (Z.shiftr avail 32) ;;;
  mmio_write 0x0a0 used ;;;
  mmio_write 0x0a4 (Z.shiftr used 32) ;;;
  mmio_write 0x044 0x1 ;;;
  for_range 0 (Z.to_nat NUM) (λ i, upd_free (Z.of_nat i) true) ;;;
  mmio_write VIRTIO_MMIO_STATUS (Z.lor status 4).
End init.

(** ** One transfer *)

(** The driver and the device agree: the interrupt handler has seen every
    completion. *)
Definition in_sync (s : vdisk) : Prop := v_used_idx s = v_dev_idx s ∧ 0 <= v_dev_idx s < 2 ^ 16.

(** The first free descriptors. *)
Definition free_descs (s : vdisk) : list Z := filter (λ i, v_free s i = true) descs.

Lemma descs_elem i : i ∈ descs ↔ 0 <= i < NUM.
Proof. unfold descs. rewrite elem_of_seqZ. unfold NUM. lia. Qed.

Lemma for_each_alloc idx h s :
  for_each idx (λ i, let! s := get in if v_free s i then upd_free i false ;;; ret (Some i) else ret None) (Thread h s) =
    match filter (λ i, v_free s i = true) idx with
    | [] => Ok None (Thread h s)
    | i :: _ => Ok (Some i) (Thread h (set_free (fupdz (v_free s) i false) s))
    end.
Proof.
  induction idx as [|i idx IH]; [done|]. cbn [for_each]. rewrite filter_cons. unfold bind at 1. unfold bind at 1, get. cbn [st].
  destruct (v_free s i); [by rewrite decide_True|]. rewrite decide_False by done. unfold ret. exact IH.
Qed.

Lemma alloc_desc_run h s i l :
  free_descs s = i :: l →
  alloc_desc (Thread h s) = Ok i (Thread h (set_free (fupdz (v_free s) i false) s)) ∧
  free_descs (set_free (fupdz (v_free s) i false) s) = l.
Proof.
  intros E. unfold alloc_desc. unfold bind at 1. rewrite for_each_alloc. fold (free_descs s). rewrite E. split; [done|].
  assert (NoDup descs) as Hn by apply NoDup_seqZ. revert E. unfold free_descs. destruct s; cbn [v_free set_free].
  generalize descs Hn. intros ds. induction ds as [|d ds IH]; intros Hd; [done|]. apply NoDup_cons in Hd as [Hd1 Hd2].
  rewrite !filter_cons. destruct (decide (v_free0 d = true)) as [Hf|Hf].
  - intros [= <- <-]. rewrite decide_False by (by rewrite fupdz_eq). clear IH Hd2. induction ds as [|e ds IH]; [done|].
    apply not_elem_of_cons in Hd1 as [H1 H2]. rewrite !filter_cons, fupdz_ne by congruence. case_decide; [f_equal|]; by apply IH.
  - intros E. assert (d ≠ i) as Hdi.
    { intros ->. assert (i ∈ filter (λ i, v_free0 i = true) ds) as Hi by (rewrite E; left). apply list_elem_of_filter in Hi as [Hi _]. done. }
    rewrite fupdz_ne by done. rewrite decide_False by done. by apply IH.
Qed.

Lemma alloc3_run h s i0 i1 i2 l :
  free_descs s = i0 :: i1 :: i2 :: l →
  alloc3_desc (Thread h s) = Ok (Some [i0; i1; i2])
    (Thread h (set_free (fupdz (fupdz (fupdz (v_free s) i0 false) i1 false) i2 false) s)).
Proof.
  intros E. pose proof (descs_elem) as Hd.
  assert (Forall (λ i, 0 <= i) (free_descs s)) as Hp.
  { apply Forall_forall. intros i Hi. apply list_elem_of_filter in Hi as [_ Hi%Hd]. lia. }
  rewrite E, !Forall_cons in Hp. destruct Hp as (P0 & P1 & P2 & _).
  destruct (alloc_desc_run h s _ _ E) as [R0 E0]. destruct (alloc_desc_run h _ _ _ E0) as [R1 E1]. destruct (alloc_desc_run h _ _ _ E1) as [R2 _].
  unfold alloc3_desc. cbn [alloc_loop]. rewrite (bind_Ok _ _ _ _ _ R0), (proj2 (Z.ltb_ge _ _)) by done.
  rewrite (bind_Ok _ _ _ _ _ R1), (proj2 (Z.ltb_ge _ _)) by done. rewrite (bind_Ok _ _ _ _ _ R2), (proj2 (Z.ltb_ge _ _)) by done.
  unfold ret. cbn [app]. by destruct s.
Qed.

Definition SECTOR : nat := 512.

(** What a request moves between the disk and the buffer. *)
Definition transfer (write : bool) (sector b : Z) (s : vdisk) : vdisk :=
  if write then
    set_media (fupdz (fupdz (v_media s) sector (take SECTOR (vb_data (v_buf s b)))) (sector + 1) (drop SECTOR (vb_data (v_buf s b)))) s
  else
    set_vbuf (fupdz (v_buf s) b (Vbuf (vb_disk (v_buf s b)) (vb_blockno (v_buf s b)) (v_media s sector ++ v_media s (sector + 1)))) s.

(** A served request: status 0 and an entry in the used ring. *)
Definition complete (i : Z) (s : vdisk) : vdisk :=
  set_dev_idx (u16 (v_dev_idx s + 1))
    (set_used (fupdz (v_used s) (v_dev_idx s mod NUM) i)
      (set_info_status (fupdz (v_info_status s) i 0) s)).

(** The device, by section 5.2 of the virtio specification: a new entry of the avail
    ring that is the head of a chain of a request header, 1024 bytes of data and a
    status byte is carried out and put into the used ring. *)
Definition virtio_device (device : vdisk → vdisk) : Prop :=
  ∀ s i i1 i2 b (write : bool) sector,
    v_avail_idx s = u16 (v_dev_idx s + 1) → v_avail s (v_dev_idx s mod NUM) = i →
    v_ops s i = Req (if write then VIRTIO_BLK_T_OUT else VIRTIO_BLK_T_IN) 0 sector →
    v_desc s i = Desc (A_op i) 16 VRING_DESC_F_NEXT i1 →
    v_desc s i1 = Desc (A_data b) 1024 (if write then VRING_DESC_F_NEXT else Z.lor VRING_DESC_F_WRITE VRING_DESC_F_NEXT) i2 →
    v_desc s i2 = Desc (A_status i) 1 VRING_DESC_F_WRITE 0 →
    device s = complete i (transfer write sector b s).

Section transfer.
Context (device : vdisk → vdisk) (isr : Z).
Hypothesis Hdevice : virtio_device device.

(** While the process sleeps, the device does its work and interrupts. *)
Definition disk_sleep : vdisk → vdisk := λ s,
  match virtio_disk_intr isr (Thread [] (device s)) with Ok _ t => st t | _ => s end.

(** The state when the process waits for its request. *)
Definition requested (b : Z) (write : bool) (sector i0 i1 i2 : Z) (s : vdisk) : vdisk :=
  match submit b write sector i0 i1 i2 (Thread [] s) with Ok _ t => st t | _ => s end.

Lemma submit_run b write sector i0 i1 i2 h s :
  submit b write sector i0 i1 i2 (Thread h s) = Ok tt (Thread h (requested b write sector i0 i1 i2 s)).
Proof. reflexivity. Qed.

(** What the interrupt handler does about one completion. *)
Definition finished (id b : Z) (s : vdisk) : vdisk :=
  let v := v_buf s b in
  set_used_idx (u16 (v_used_idx s + 1)) (set_vbuf (fupdz (v_buf s) b (Vbuf 0 (vb_blockno v) (vb_data v)))
    (set_mmio (v_mmio s ++ [(VIRTIO_MMIO_INTERRUPT_ACK, u32 (Z.land isr 0x3))]) s)).

Lemma u16_succ x : 0 <= x < 2 ^ 16 → u16 (u16 (x + 1) - x) = 1.
Proof.
  intros Hx. unfold u16. change (2 ^ 16) with 65536 in *. destruct (decide (x = 65535)) as [->|]; [reflexivity|].
  rewrite (Z.mod_small (x + 1)) by lia. rewrite Z.mod_small; lia.
Qed.

Lemma intr_run id b s :
  v_dev_idx s = u16 (v_used_idx s + 1) → 0 <= v_used_idx s < 2 ^ 16 →
  v_used s (v_used_idx s mod NUM) = id → v_info_status s id = 0 → v_info_b s id = Some b →
  virtio_disk_intr isr (Thread [] s) = Ok tt (Thread [] (finished id b s)).
Proof.
  intros E1 E2 E3 E4 E5. destruct s as [vd va vai vu vdi vf vui ib ist vo vb md mm].
  cbn [v_dev_idx v_used_idx v_used v_info_status v_info_b] in *.
  assert (u16 (vui + 1) ≠ vui) as Hne by (intros E; pose proof (u16_succ vui E2) as E'; rewrite E, Z.sub_diag in E'; done).
  unfold virtio_disk_intr, mmio_write. do 3 kstep. cbn [st held set_mmio v_dev_idx v_used_idx v_mmio].
  rewrite E1, u16_succ by done. change (S (Z.to_nat 1)) with 2%nat. cbn [intr_loop].
  do 2 kstep. cbn [st v_used_idx v_dev_idx v_used v_info_status v_info_b].
  rewrite (proj2 (Z.eqb_neq _ _)) by congruence. rewrite E3, E4, E5. cbn [Z.eqb negb]. rewrite bind_assoc, (bind_Ok (panic_if false _) _ _ tt _ eq_refl).
  unfold upd_disk. do 4 kstep. cbn [st held set_used_idx set_vbuf v_buf v_used_idx].
  do 2 kstep. cbn [st v_used_idx v_dev_idx]. rewrite Z.eqb_refl. kstep. rewrite release_Ok. reflexivity.
Qed.

Lemma requested_eq b write sector i0 i1 i2 vd va vai vu vdi vf vui ib ist vo vb md mm :
  requested b write sector i0 i1 i2 (Vdisk vd va vai vu vdi vf vui ib ist vo vb md mm) =
  Vdisk
    (fupdz (fupdz (fupdz vd i0 (Desc (A_op i0) 16 VRING_DESC_F_NEXT i1))
      i1 (Desc (A_data b) BSIZE (Z.lor (if write then 0 else VRING_DESC_F_WRITE) VRING_DESC_F_NEXT) i2))
      i2 (Desc (A_status i0) 1 VRING_DESC_F_WRITE 0))
    (fupdz va (vai mod NUM) i0) (u16 (vai + 1)) vu vdi vf vui (fupdz ib i0 (Some b)) (fupdz ist i0 0xff)
    (fupdz vo i0 (Req (if write then VIRTIO_BLK_T_OUT else VIRTIO_BLK_T_IN) 0 sector))
    (fupdz vb b (Vbuf 1 (vb_blockno (vb b)) (vb_data (vb b)))) md (mm ++ [(VIRTIO_MMIO_QUEUE_NOTIFY, u32 0)]).
Proof. reflexivity. Qed.

(** The device finds the request, carries it out, and the handler marks the buffer. *)
Lemma disk_sleep_run b write sector i0 i1 i2 s :
  i0 ≠ i1 → i0 ≠ i2 → i1 ≠ i2 → in_sync s → v_avail_idx s = v_dev_idx s →
  disk_sleep (requested b write sector i0 i1 i2 s) =
    finished i0 b (complete i0 (transfer write sector b (requested b write sector i0 i1 i2 s))).
Proof.
  intros H01 H02 H12 [Hs Hr] Ha. set (s2 := requested b write sector i0 i1 i2 s).
  assert (device s2 = complete i0 (transfer write sector b s2)) as Ed.
  { apply (Hdevice s2 i0 i1 i2); subst s2; destruct s as [vd va vai vu vdi vf vui ib ist vo vb md mm]; rewrite requested_eq;
      cbn [v_avail_idx v_dev_idx v_avail v_ops v_desc] in *; subst vai; rewrite ?fupdz_eq; try done.
    - by rewrite !fupdz_ne, fupdz_eq by congruence.
    - rewrite fupdz_ne, fupdz_eq by congruence. by destruct write. }
  unfold disk_sleep. rewrite Ed. rewrite (intr_run i0 b); [done|..];
    subst s2; destruct s as [vd va vai vu vdi vf vui ib ist vo vb md mm]; rewrite requested_eq;
    cbn [v_avail_idx v_dev_idx v_used_idx] in *; subst vai vui; destruct write;
    cbn [complete transfer set_media set_vbuf set_dev_idx set_used set_info_status v_dev_idx v_used_idx v_used v_info_status v_info_b];
    by rewrite ?fupdz_eq.
Qed.

Lemma free_desc_run i h vd va vai vu vdi vf vui ib ist vo vb md mm : i < NUM → vf i = false →
  free_desc i (Thread h (Vdisk vd va vai vu vdi vf vui ib ist vo vb md mm)) =
    Ok tt (Thread h (Vdisk (fupdz vd i (Desc A_null 0 0 0)) va vai vu vdi (fupdz vf i true) vui ib ist vo vb md mm)).
Proof.
  intros Hi Hf. unfold free_desc. rewrite (proj2 (Z.leb_gt _ _)) by done.
  rewrite (bind_Ok (panic_if false _) _ _ tt _ eq_refl). kstep. cbn [st v_free]. rewrite Hf.
  by rewrite (bind_Ok (panic_if false _) _ _ tt _ eq_refl).
Qed.

(** A chain of three descriptors is given back. *)
Lemma free_chain_run i0 i1 i2 h s :
  i0 < NUM → i1 < NUM → i2 < NUM → i0 ≠ i1 → i0 ≠ i2 → i1 ≠ i2 →
  v_free s i0 = false → v_free s i1 = false → v_free s i2 = false →
  Z.odd (d_flags (v_desc s i0)) = true → d_next (v_desc s i0) = i1 →
  Z.odd (d_flags (v_desc s i1)) = true → d_next (v_desc s i1) = i2 →
  Z.odd (d_flags (v_desc s i2)) = false →
  ∃ vd, free_chain i0 (Thread h s) =
    Ok tt (Thread h (set_free (fupdz (fupdz (fupdz (v_free s) i0 true) i1 true) i2 true) (set_vdesc vd s))).
Proof.
  intros L0 L1 L2 H01 H02 H12 F0 F1 F2 G0 N0 G1 N1 G2.
  assert (∀ x, negb (Z.land x VRING_DESC_F_NEXT =? 0) = Z.odd x) as Hodd.
  { intros x. unfold VRING_DESC_F_NEXT. change 1 with (Z.ones 1). rewrite Z.land_ones, Z.pow_1_r by lia.
    rewrite Zmod_odd. by destruct (Z.odd x). }
  unfold free_chain. change (S (Z.to_nat NUM)) with 9%nat. cbn [free_chain_loop].
  destruct s as [vd va vai vu vdi vf vui ib ist vo vb md mm]. cbn [v_desc v_free] in *.
  assert (fupdz vf i0 true i1 = false) as F1' by (by rewrite fupdz_ne by congruence).
  assert (fupdz (fupdz vf i0 true) i1 true i2 = false) as F2' by (by rewrite !fupdz_ne by congruence).
  kstep. cbn [st v_desc]. rewrite (bind_Ok _ _ _ _ _ (free_desc_run i0 _ _ _ _ _ _ _ _ _ _ _ _ _ _ L0 F0)), Hodd, G0, N0.
  kstep. cbn [st v_desc]. rewrite fupdz_ne by congruence.
  rewrite (bind_Ok _ _ _ _ _ (free_desc_run i1 _ _ _ _ _ _ _ _ _ _ _ _ _ _ L1 F1')), Hodd, G1, N1.
  kstep. cbn [st v_desc]. rewrite !fupdz_ne by congruence.
  rewrite (bind_Ok _ _ _ _ _ (free_desc_run i2 _ _ _ _ _ _ _ _ _ _ _ _ _ _ L2 F2')), Hodd, G2.
  eexists. reflexivity.
Qed.

Lemma free_descs_elem s i : i ∈ free_descs s ↔ v_free s i = true ∧ 0 <= i < NUM.
Proof. unfold free_descs. by rewrite list_elem_of_filter, descs_elem. Qed.

Lemma rw_run b write h s i0 i1 i2 l :
  L_vdisk ∉ h → in_sync s → v_avail_idx s = v_dev_idx s → free_descs s = i0 :: i1 :: i2 :: l →
  let sector := u32 (vb_blockno (v_buf s b) * 2) in
  ∃ s', virtio_disk_rw [disk_sleep] b write (Thread h s) = Ok tt (Thread h s') ∧
    (∀ i, v_free s' i = v_free s i) ∧ in_sync s' ∧ v_avail_idx s' = v_dev_idx s' ∧
    vb_disk (v_buf s' b) = 0 ∧ vb_blockno (v_buf s' b) = vb_blockno (v_buf s b) ∧
    (∀ c, c ≠ b → v_buf s' c = v_buf s c) ∧
    vb_data (v_buf s' b) = vb_data (v_buf (transfer write sector b s) b) ∧
    (∀ x, v_media s' x = v_media (transfer write sector b s) x).
Proof.
  intros Hl Hs Ha E sector.
  assert (NoDup (free_descs s)) as Hn by apply NoDup_filter, NoDup_seqZ.
  assert (∀ i, i ∈ [i0; i1; i2] → v_free s i = true ∧ 0 <= i < NUM) as Hf.
  { intros i Hi. apply free_descs_elem. rewrite E. set_solver. }
  rewrite E in Hn. apply NoDup_cons in Hn as [Hn0 Hn]. apply NoDup_cons in Hn as [Hn1 Hn]. apply NoDup_cons in Hn as [Hn2 _].
  destruct (Hf i0 ltac:(set_solver)) as [F0 L0], (Hf i1 ltac:(set_solver)) as [F1 L1], (Hf i2 ltac:(set_solver)) as [F2 L2]. clear Hf.
  assert (i0 ≠ i1 ∧ i0 ≠ i2 ∧ i1 ≠ i2) as (H01 & H02 & H12) by set_solver. clear Hn0 Hn1 Hn2.
  unfold virtio_disk_rw. do 2 kstep. cbn [st]. cbn [alloc_wait]. rewrite bind_assoc, (bind_Ok _ _ _ _ _ (alloc3_run _ _ _ _ _ _ E)).
  kstep. cbn [default from_option lookup list_lookup id]. rewrite (bind_Ok _ _ _ _ _ (submit_run _ _ _ _ _ _ _ _)).
  set (s1 := set_free _ s).
  assert (in_sync s1 ∧ v_avail_idx s1 = v_dev_idx s1) as [Hs1 Ha1] by (subst s1; by destruct s).
  change (u32 (vb_blockno (v_buf s b) * (BSIZE / 512))) with sector.
  set (s2 := requested b write sector i0 i1 i2 s1).
  assert (vb_disk (v_buf s2 b) = 1) as Hd by (subst s2; destruct s1; rewrite requested_eq; cbn [v_buf]; by rewrite fupdz_eq).
  cbn [disk_wait]. do 2 kstep. cbn [st]. rewrite Hd. cbn [Z.eqb Pos.eqb]. unfold sleep_round. do 5 kstep. cbn [st held].
  rewrite (disk_sleep_run b write sector i0 i1 i2 s1 H01 H02 H12 Hs1 Ha1 : disk_sleep s2 = _).
  set (s3 := finished i0 b _). do 2 kstep. cbn [st].
  assert (vb_disk (v_buf s3 b) = 0) as Hd3.
  { subst s3. unfold finished. cbn zeta. destruct (complete _ _). cbn [set_used_idx set_vbuf set_mmio v_buf]. by rewrite fupdz_eq. }
  kstep. cbn [st]. rewrite Hd3. cbn [Z.eqb]. do 2 kstep. cbn [st held].
  destruct Hs as [Hs Hr]. destruct s as [vd va vai vu vdi vf vui ib ist vo vb md mm].
  cbn [v_used_idx v_dev_idx v_avail_idx v_free] in *. subst vai vui.
  assert (Hu : 0 <= u16 (vdi + 1) < 2 ^ 16) by (by apply Z.mod_pos_bound).
  assert (sector = u32 (vb_blockno (vb b) * 2)) as Hsec by done. clearbody sector.
  subst s3 s2 s1. cbn [set_free v_free]. rewrite requested_eq.
  destruct write; cbn [transfer set_media set_vbuf complete set_dev_idx set_used set_info_status finished set_used_idx set_mmio
    set_info_b v_media v_buf v_dev_idx v_used v_info_status v_used_idx v_mmio v_info_b vb_disk vb_blockno vb_data];
    lazymatch goal with |- ∃ s', _ (Thread _ ?x) = _ ∧ _ =>
      assert (∃ vd', free_chain i0 (Thread (L_vdisk :: h) x) = Ok tt (Thread (L_vdisk :: h)
        (set_free (fupdz (fupdz (fupdz (v_free x) i0 true) i1 true) i2 true) (set_vdesc vd' x)))) as [vd' Ev];
        [apply free_chain_run; cbn [v_free v_desc];
           rewrite ?(fupdz_ne _ i2), ?(fupdz_ne _ i1), ?fupdz_eq by congruence; try done; try apply L0; try apply L1; apply L2
        |rewrite (bind_Ok _ _ _ _ _ Ev)] end;
    rewrite release_Ok; eexists; (split; [reflexivity|]);
    cbn [set_free set_vdesc v_free v_used_idx v_dev_idx v_avail_idx v_buf v_media]; rewrite ?fupdz_eq; cbn [vb_disk vb_blockno vb_data];
    (split_and!; [|by split|done|done|done| | |]).
  all: try done.
  all: try (intros i; unfold fupdz; repeat case_match; repeat match goal with H : (_ =? _) = true |- _ => apply Z.eqb_eq in H end; by subst).
  all: try (intros c Hc; by rewrite !fupdz_ne).
Qed.
End transfer.

(** C31: with three free descriptors and no request in flight, [virtio_disk_rw] moves
    exactly the block of the buffer between the buffer and the two sectors of its
    block number, whatever a device that follows the virtio specification and the
    interrupt handler do meanwhile; it returns with the buffer given back, every other
    buffer and sector as before, every descriptor free again that was free, and the
    rings in step, so that the next request finds the same situation. *)
Theorem virtio_rw_transfers device isr b (write : bool) h s :
  virtio_device device → L_vdisk ∉ h → in_sync s → v_avail_idx s = v_dev_idx s → (3 <= length (free_descs s))%nat →
  let sector := u32 (vb_blockno (v_buf s b) * 2) in
  ∃ s', virtio_disk_rw [disk_sleep device isr] b write (Thread h s) = Ok tt (Thread h s') ∧
    (∀ i, v_free s' i = v_free s i) ∧ in_sync s' ∧ v_avail_idx s' = v_dev_idx s' ∧
    v_buf s' b = Vbuf 0 (vb_blockno (v_buf s b)) (if write then vb_data (v_buf s b) else v_media s sector ++ v_media s (sector + 1)) ∧
    (∀ c, c ≠ b → v_buf s' c = v_buf s c) ∧
    (∀ x, v_media s' x = if write && (x =? sector) then take 512 (vb_data (v_buf s b))
                         else if write && (x =? sector + 1) then drop 512 (vb_data (v_buf s b)) else v_media s x).
Proof.
  intros Hd Hl Hs Ha Hf sector. destruct (free_descs s) as [|i0 [|i1 [|i2 l]]] eqn:E; cbn in Hf; try lia.
  destruct (rw_run device isr Hd b write h s i0 i1 i2 l Hl Hs Ha E) as (s' & Er & F1 & F2 & F3 & F4 & F5 & F6 & F7 & F8).
  exists s'. split_and!; try done.
  - destruct (v_buf s' b) as [d n x]. cbn in *. subst. f_equal. unfold transfer. fold sector. destruct s. destruct write; cbn; [done|by rewrite fupdz_eq].
  - intros x. rewrite F8. unfold transfer. fold sector. destruct s as [vd va vai vu vdi vf vui ib ist vo vb md mm].
    destruct write; cbn [andb set_media set_vbuf v_media v_buf]; [|done].
    unfold fupdz, SECTOR. destruct (Z.eqb_spec x sector), (Z.eqb_spec x (sector + 1)); try done; lia.
Qed.

(** A device that serves the newest entry, and a disk with nothing in flight. *)
Definition simple_device : vdisk → vdisk := λ s,
  let i := v_avail s (v_dev_idx s mod NUM) in
  match d_addr (v_desc s (d_next (v_desc s i))) with
  | A_data b => complete i (transfer (q_type (v_ops s i) =? VIRTIO_BLK_T_OUT) (q_sector (v_ops s i)) b s)
  | _ => s
  end.

Lemma simple_device_ok : virtio_device simple_device.
Proof.
  intros s i i1 i2 b write sector Ha Hi Ho H0 H1 H2. unfold simple_device. rewrite Hi, H0. cbn [d_next]. rewrite H1, Ho. cbn [d_addr q_type q_sector].
  by destruct write.
Qed.

Definition vdisk0 : vdisk :=
  Vdisk (λ _, Desc A_null 0 0 0) (λ _, 0) 0 (λ _, 0) 0 (λ i, negb (i =? 1)) 0 (λ _, None) (λ _, 0) (λ _, Req 0 0 0)
    (λ _, Vbuf 0 3 (replicate 1024 7)) (λ _, replicate 512 0) [].

Lemma virtio_rw_transfers_witness :
  free_descs vdisk0 = [0; 2; 3; 4; 5; 6; 7] ∧
  ∃ s', virtio_disk_rw [disk_sleep simple_device 1] 20 true (Thread [] vdisk0) = Ok tt (Thread [] s') ∧
    v_media s' 6 = replicate 512 7 ∧ v_media s' 8 = replicate 512 0.
Proof.
  split; [vm_compute; reflexivity|].
  destruct (virtio_rw_transfers simple_device 1 20 true [] vdisk0) as (s' & E & _ & _ & _ & _ & _ & Hm).
  - apply simple_device_ok.
  - apply not_elem_of_nil.
  - split; [reflexivity|]. cbn. lia.
  - reflexivity.
  - vm_compute. lia.
  - exists s'. split; [exact E|]. split; rewrite Hm; vm_compute; reflexivity.
Defined.
