(* ===== verification/KernelInst.v ===== *)
(** * The whole kernel on concrete states

    A kernel with a process table and free memory, and the instances of the theorems
    about it. *)

From S2P Require Import Prelude CString Riscv Kalloc Vm VmTable VmMap VmCopy VmAlloc VmInst Param FsDisk Bio Log LogSys.
From S2P Require Import BlockLayer BlockLog Fs FsInst Pipe Kernel Printf Proc ProcSpec Console ConsoleSpec Files Life Exec ExecSpec Sysfile Syscall Trap TrapSpec FdRefs.

Definition fs_empty : fs lstate := Fs (LState (Bio [] (λ _, zero_block) []) log_boot) sb200 [] [].

(** [ps] and then unused slots; [n] free pages. *)
Definition kernel_with (ps : list proc) (n : nat) (cur : option nat) : K :=
  Kernel (free_mem (pgs n)) fs_empty (ps ++ replicate (64 - length ps) proc0) 1 None cur
    (replicate 100 file0) (λ _, init_pipe []) 0 (Console (replicate 128 0) 0 0 0) (Uart (replicate 32 0) 0 0 [] [] []) true.

Definition sleeper (c : chan) (pid : Z) : proc := set_chan (Some c) (set_state SLEEPING (set_pid pid proc0)).
Definition runner (pid : Z) : proc := set_state RUNNABLE (set_pid pid proc0).

Definition kernel_a : K := kernel_with [sleeper CH_ticks 1; sleeper CH_cons 2; sleeper CH_ticks 3; runner 4] 4 (Some 3%nat).

Lemma no_plock_nil : no_plock [].
Proof. intros i. apply not_elem_of_nil. Qed.

Lemma wakeup_correct_witness :
  ∃ s', wakeup CH_ticks (Thread [] kernel_a) = Ok tt (Thread [] s') ∧
    p_state (proc_at 0 s') = RUNNABLE ∧ p_state (proc_at 1 s') = SLEEPING ∧ p_state (proc_at 2 s') = RUNNABLE.
Proof.
  destruct (wakeup_correct CH_ticks [] kernel_a) as (s' & E & _ & _ & Hp).
  - reflexivity.
  - exact no_plock_nil.
  - exists s'. split; [exact E|]. split; [|split].
    + rewrite (Hp 0%nat) by (apply Nat.ltb_lt; reflexivity). reflexivity.
    + rewrite (Hp 1%nat) by (apply Nat.ltb_lt; reflexivity). reflexivity.
    + rewrite (Hp 2%nat) by (apply Nat.ltb_lt; reflexivity). reflexivity.
Defined.

(** Every process that runs goes to sleep on the ticks. *)
Definition nap (i : nat) (s : K) : K := on_proc i (λ p, set_chan (Some CH_ticks) (set_state SLEEPING p)) s.

Lemma scheduler_fair_witness :
  ∃ s', scheduler nap (Thread [] kernel_a) = Ok true (Thread [] s') ∧ p_state (proc_at 3 s') = SLEEPING.
Proof.
  eexists. split.
  - apply (scheduler_fair nap [] kernel_a 3%nat).
    + exact no_plock_nil.
    + apply Nat.ltb_lt. reflexivity.
    + reflexivity.
    + intros i s Hi Hs. unfold nap. rewrite on_proc_other by exact Hi. exact Hs.
  - vm_compute. reflexivity.
Defined.

Lemma kill_unused_witness :
  ∃ s', kill 0 (Thread [] (kernel_with [] 9 None)) = Ok 0 (Thread [] s') ∧
    p_state (proc_at 0 s') = UNUSED ∧ p_killed (proc_at 0 s') = 1 ∧
    ∃ t, allocproc END 0x80001000 0x80000abc (Thread [] s') = Ok (Some 0%nat) t ∧ p_killed (proc_at 0 (st t)) = 1.
Proof.
  destruct (kill_unused [] (kernel_with [] 9 None) 0%nat proc0 END 0x80001000 0x80000abc) as (s' & E & Ht & H1 & H2 & H3).
  - reflexivity.
  - exact no_plock_nil.
  - reflexivity.
  - reflexivity.
  - exists s'. split; [exact E|]. split; [exact H1|]. split; [exact H2|].
    assert (s' = on_proc 0 kill_proc (kernel_with [] 9 None)) as Es.
    { pose proof (kill_run 0 [] (kernel_with [] 9 None) eq_refl no_plock_nil) as E2. rewrite E in E2.
      assert (list_find (λ p, p_pid p = 0) (k_procs (kernel_with [] 9 None)) = Some (0%nat, proc0)) as F by reflexivity.
      rewrite F in E2. injection E2 as E2. exact E2. }
    assert (match allocproc END 0x80001000 0x80000abc (Thread [] s') with Ok (Some O) _ => true | _ => false end = true) as Ha.
    { rewrite Es. vm_compute. reflexivity. }
    destruct (allocproc END 0x80001000 0x80000abc (Thread [] s')) as [[[|i]|] t| |] eqn:Ea; try discriminate Ha.
    exists t. split; [reflexivity|]. exact (H3 t eq_refl).
Defined.

(** A process with one open file: descriptors, trapframe, page table, directory. *)
Definition opener : proc :=
  set_cwd (Some 0%nat) (set_ofile (<[0%nat := Some 0%nat]> (replicate 16 None)) (set_trapframe (pg 20) (set_pagetable (pg 21) (set_state RUNNING (set_pid 1 proc0))))).

Definition kernel_f : K :=
  set_files (<[0%nat := set_readable true (set_ref 1 file0)]> (replicate 100 file0))
  (set_fs (Fs (LState (Bio [] (λ _, zero_block) []) log_boot) sb200 [Inode ROOTDEV 1 1 true T_DIR 0 0 1 0 (replicate NADDRS 0)] [])
    (kernel_with [opener] 12 (Some 0%nat))).

Definition quiet_world : world := World (λ _, []) (λ _, []).

(** The state after a call. *)
Definition after (c : fd_call) (s : K) : K :=
  match run_call END 0x80001000 0x80000abc quiet_world 0 c (Thread [] s) with Ok _ t => st t | _ => s end.
Definition returns (c : fd_call) (s : K) : bool :=
  match run_call END 0x80001000 0x80000abc quiet_world 0 c (Thread [] s) with Ok _ (Thread [] _) => true | _ => false end.

Lemma after_step c s : k_cur s = Some 0%nat → bool_decide (dead (proc_at 0 s)) = false → returns c s = true →
  fd_step END 0x80001000 0x80000abc quiet_world s (after c s).
Proof.
  intros Hc Hl Hr. unfold returns in Hr. destruct (run_call _ _ _ _ _ _ _) as [a [[|? ?] u]| |] eqn:E; try discriminate Hr.
  apply (fd_run _ _ _ _ _ _ 0 c [] [] a Hc).
  - split; [apply Nat.ltb_lt; reflexivity|]. exact (proj1 (bool_decide_eq_false _) Hl).
  - assert (after c s = u) as -> by (unfold after; by rewrite E). exact E.
Qed.

Lemma kernel_f_ok : fd_ok nothing kernel_f.
Proof.
  split; try reflexivity.
  - apply Forall_forall. intros l Hl. assert (forallb (λ l : list (option nat), (length l =? 16)%nat) (p_ofile <$> k_procs kernel_f) = true) as F by reflexivity.
    rewrite forallb_forall in F. apply Nat.eqb_eq, F. by apply list_elem_of_In.
  - intros i l k f Hi Hk. assert (forallb (forallb (λ o : option nat, match o with Some f => (f <? 100)%nat | None => true end)) (p_ofile <$> k_procs kernel_f) = true) as F by reflexivity.
    rewrite forallb_forall in F. specialize (F l (proj1 (list_elem_of_In _ _) (list_elem_of_lookup_2 _ _ _ Hi))). rewrite forallb_forall in F.
    specialize (F _ (proj1 (list_elem_of_In _ _) (list_elem_of_lookup_2 _ _ _ Hk))). by apply Nat.ltb_lt.
  - intros f Hf. assert (forallb (λ f, f_ref (file_at f kernel_f) =? total f (p_ofile <$> k_procs kernel_f)) (seq 0 100) = true) as F by (vm_compute; reflexivity).
    rewrite forallb_forall in F. unfold nothing. rewrite Z.add_0_r. apply Z.eqb_eq, F, in_seq. change (Z.to_nat NFILE) with 100%nat in Hf. lia.
  - intros [|j] Hd; [by destruct Hd|]. unfold no_files, proc_at. destruct (k_procs kernel_f !! S j) as [p|] eqn:Ep; [|by apply Forall_replicate].
    change (replicate 63 proc0 !! j = Some p) in Ep. apply lookup_replicate in Ep as [-> _]. by apply Forall_replicate.
Qed.

(** [dup], then [fork], then [close] in the parent: three descriptors left. *)
Lemma refcounts_exact_witness :
  let s := after C_close (after C_fork (after C_dup kernel_f)) in fd_ok nothing s ∧ f_ref (file_at 0 s) = 3.
Proof.
  cbv zeta. edestruct (refcounts_exact END 0x80001000 0x80000abc quiet_world kernel_f) as (H1 & H2 & _).
  - eapply rtc_l; [apply (after_step C_dup); vm_compute; reflexivity|].
    eapply rtc_l; [apply (after_step C_fork); vm_compute; reflexivity|].
    eapply rtc_l; [apply (after_step C_close); vm_compute; reflexivity|]. apply rtc_refl.
  - exact kernel_f_ok.
  - split; [exact H1|]. rewrite H2 by (apply Nat.ltb_lt; reflexivity). vm_compute. reflexivity.
Defined.

(** ** The console *)

(** A process whose pages 0 and 1 are memory types "hx", erases the x, types "i" and a
    newline, and reads ten bytes to the end of page 0 and the start of page 1. *)
Lemma kernel_with_rep p k : tty_rep (k_cons (set_mem k (kernel_with [p] 0 (Some 0%nat)))) (Tty [] []).
Proof.
  split; try reflexivity; try (by apply not_elem_of_nil); try (split; reflexivity || discriminate).
  - discriminate.
  - intros i x Hx. cbn [t_ready t_edit app] in Hx. by rewrite lookup_nil in Hx.
Qed.

Lemma console_lines_witness : ∃ s s1 s2 f,
  typing [104; 120; 8; 105; 13] (Thread [] s) = Ok tt (Thread [] s1) ∧
  consoleread [] true 4095 10 (Thread [] s1) = Ok 3 (Thread [] s2) ∧
  ustored f (kmem_mem (k_mem s)) (kmem_mem (k_mem s2)) 4095 [104; 105; 10].
Proof.
  destruct family as (k & fl & Tp & Tc & ps & Hl & Hus & _ & _ & Hpar).
  set (s := set_mem k (kernel_with [set_pagetable (pg 0) proc0] 0 (Some 0%nat))).
  destruct (console_lines END ltac:(done) 0%nat (pg 0) Tp (ext no_map 0 ((λ p, (p, RWU)) <$> ps)) fl [] s (Tty [] []) [104; 120; 8; 105; 13] [] 4095 10 [104; 105; 10] [])
    as (s1 & s2 & bs & E1 & _ & _ & E2 & _ & Hst & _).
  - split; [reflexivity|]. split; [reflexivity|exact Hus].
  - apply kernel_with_rep.
  - repeat constructor; lia.
  - apply not_elem_of_nil.
  - apply not_elem_of_nil.
  - exact no_plock_nil.
  - lia.
  - lia.
  - intros x Hx. eapply family_write; [exact Hl|exact Hpar|]. lia.
  - reflexivity.
  - exists s, s1, s2, (ext no_map 0 ((λ p, (p, RWU)) <$> ps)). split; [exact E1|]. split; [exact E2|exact Hst].
Defined.

(** The device takes all that waits. *)
Definition drained (s : K) : K :=
  let u := k_uart s in set_uart (Uart (u_buf u) (u_w u) (u_w u) (u_thr u ++ waiting u) (u_lsr u) (u_rhr u)) s.

Lemma drained_rely i root f (R : relation (list Z)) : (∀ l, R l l) → rely END i root f R drained.
Proof.
  intros HR s ([H1 H2 H3 H4 H5] & Hp & Hu). unfold drained. set (u := k_uart s) in *. set (u' := Uart _ _ _ _ _ _).
  assert (io_only s (set_uart u' s)) as Io by apply io_uart.
  assert (k_uart (set_uart u' s) = u') as U by apply uart_set_uart.
  assert (uart_ok u') as Hu'.
  { split; cbn [u_buf u_r u_w u']; [exact H1|exact H3|exact H3| |exact H5]. rewrite Z.sub_diag. change (0 <= 32). lia. }
  destruct (live_io END i root f s (set_uart u' s) Io) as [L Su]; [by rewrite U|split; [by split|by split]|].
  split; [exact L|]. split; [|split; [|exact Su]].
  - assert (stream (set_uart u' s) = stream s) as ->; [|apply HR]. unfold stream. rewrite U. fold u.
    assert (waiting u' = []) as ->; [|by rewrite app_nil_r]. unfold waiting. cbn [u_w u_r u']. by rewrite Z.sub_diag.
  - rewrite U, (tx_full_used u' Hu'). cbn [u_w u_r u']. by rewrite Z.sub_diag.
Qed.

Lemma consolewrite_stream_witness : ∃ s s' f,
  consolewrite (replicate 3 drained) true 4095 3 (Thread [] s) = Ok 3 (Thread [] s') ∧
  stream s' = stream s ++ (u8 <$> ubytes (kmem_mem (k_mem s)) f 4095 3).
Proof.
  destruct family as (k & fl & Tp & Tc & ps & Hl & Hus & _ & _ & Hpar).
  set (f := ext no_map 0 ((λ p, (p, RWU)) <$> ps)). set (s := set_mem k (kernel_with [set_pagetable (pg 0) proc0] 0 (Some 0%nat))).
  destruct (consolewrite_stream END ltac:(done) 0%nat (pg 0) f s (replicate 3 drained) 4095 3) as (s' & E & _ & _ & Hst).
  - reflexivity.
  - split; [|split; [reflexivity|exists Tp, fl; exact Hus]].
    split; [reflexivity|split; [discriminate|reflexivity]|split; [discriminate|reflexivity]|vm_compute; discriminate|].
    apply Forall_replicate. split; [discriminate|reflexivity].
  - apply Forall_replicate, drained_rely. reflexivity.
  - discriminate.
  - lia.
  - lia.
  - intros x Hx. apply (family_write _ _ _ _ _ Hl Hpar). lia.
  - exists s, s', f. split; [exact E|]. apply Hst. apply Forall_replicate, drained_rely. reflexivity.
Defined.

(** ** Arguments of a program *)

(** The string in page 1, which belongs to no user. *)
Definition arg_page : list Z := str "ls" ++ replicate 4094 0.

Lemma page_one fl Tp Tc ps : Tc !! [] = Some (pg 1) →
  parent END fl Tp Tc (ext no_map 0 ((λ p, (p, RWU)) <$> ps)) ((λ p, (p, Z.lor RWU PTE_V)) <$> ps) →
  ∀ v, can_read (ext no_map 0 ((λ p, (p, RWU)) <$> ps)) v →
  ∃ q, PTE2PA (ext no_map 0 ((λ p, (p, RWU)) <$> ps) v) = q ∧ page_ok END q ∧ q ≠ pg 1.
Proof.
  intros Ht Hpar v (Hv & HV & _). unfold ext in *. case_decide as Hd; [|discriminate HV]. rewrite length_fmap in Hd.
  assert (Z.to_nat ((v - 0) / PGSIZE) < length ps)%nat as Hi.
  { unfold in_range, PGSIZE in *. assert ((v - 0) / 4096 < Z.of_nat (length ps)) by (apply Z.div_lt_upper_bound; lia). pose proof (Z.div_pos (v - 0) 4096). lia. }
  destruct (lookup_lt_is_Some_2 ps _ Hi) as [p Hip]. rewrite list_lookup_fmap, Hip in *. cbn [fmap option_fmap option_map from_option id default fst snd] in *.
  destruct (pa_page _ _ _ _ _ _ Hpar p) as (Hpo & _ & Hnt).
  { apply list_elem_of_fmap. exists (p, Z.lor RWU PTE_V). split; [done|]. apply list_elem_of_fmap. exists p. split; [done|]. by eapply list_elem_of_lookup_2. }
  exists p. split; [apply mk_pte_pa; [by apply (page_ok_pa END ltac:(done))|apply RWU_flags]|]. split; [done|]. intros ->. apply Hnt. by exists [].
Qed.

Lemma exec_stack_correct_witness : ∃ s k' f p,
  build_stack [pg 1; pg 1] (pg 0) 4096 8192 (Thread [] s) = Ok (Some (8128, 2)) (Thread [] (set_mem k' s)) ∧
  le_val (ubytes (kmem_mem k') f 8136 8) = p ∧ ubytes (kmem_mem k') f p 3 = str "ls" ++ [0] ∧ le_val (ubytes (kmem_mem k') f 8144 8) = 0.
Proof.
  destruct family as (k & fl & Tp & Tc & ps & Hl & [V M U] & Vc & Mc & Hpar).
  set (f := ext no_map 0 ((λ p, (p, RWU)) <$> ps)) in *.
  assert (Tc !! [] = Some (pg 1)) as Ht by exact (pr_root _ _ _ _ (vo_rep _ _ _ _ _ Vc)).
  assert (is_tab Tc (pg 1)) as Htab by (by exists []).
  set (m1 := put_bytes (kmem_mem k) (pg 1) arg_page). set (k1 := Kmem m1 (kmem_freelist k)).
  destruct (vm_ok_frame END k fl (pg 0) Tp m1 (pg 1) V (pg_ok 1 ltac:(lia)) (vo_sep _ _ _ _ _ Vc _ Htab)) as [V1 P1].
  { intros Hp. by destruct (pa_tab _ _ _ _ _ _ Hpar _ Hp). }
  { intros x Hx. unfold m1. rewrite put_bytes_at, decide_False; [done|exact Hx]. }
  assert (uspace END k1 fl (pg 0) Tp f) as Hu.
  { split; [exact V1| |exact U]. intros va Hva. unfold k1. cbn [kmem_mem]. rewrite P1. by apply M. }
  assert (arg_at f m1 (pg 1) (str "ls")) as Harg.
  { split; [|split; [reflexivity|]].
    - assert (bytes_at m1 (pg 1) (Z.to_nat PGSIZE) = arg_page) as ->; [|vm_compute; reflexivity].
      apply list_eq. intros j. destruct (decide (j < 4096)%nat) as [Hj|Hj].
      + rewrite lookup_bytes_at by (change (Z.to_nat PGSIZE) with 4096%nat; exact Hj). unfold m1. rewrite put_bytes_at.
        assert (length arg_page = 4096%nat) as El by (vm_compute; reflexivity). rewrite El, decide_True by lia.
        replace (Z.to_nat (pg 1 + Z.of_nat j - pg 1)) with j by lia. destruct (lookup_lt_is_Some_2 arg_page j) as [y Ey]; [by rewrite El|]. by rewrite Ey.
      + assert (length arg_page = 4096%nat) as El by (vm_compute; reflexivity).
        rewrite !lookup_ge_None_2; [done|rewrite El; lia|rewrite length_bytes_at; change (Z.to_nat PGSIZE) with 4096%nat; lia].
    - intros x v Hx Hv. destruct (page_one fl Tp Tc ps Ht Hpar v Hv) as (q & Eq & Hq & Hne). fold f in Eq. rewrite Eq.
      apply (page_apart END (pg 1) q x (pg_ok 1 ltac:(lia)) Hq); [congruence|exact Hx]. }
  set (s := set_mem k1 (kernel_with [] 0 None)).
  destruct (exec_stack_correct END ltac:(done) (pg 0) Tp f fl [] s [pg 1; pg 1] [str "ls"; str "ls"] 4096 8192) as (k' & E & _ & Hst).
  - exact Hu.
  - constructor; [exact Harg|]. constructor; [exact Harg|]. constructor.
  - split; discriminate.
  - discriminate.
  - intros x Hx. apply (family_write _ _ _ _ _ Hl Hpar). lia.
  - reflexivity.
  - destruct Hst as (_ & Hargs & Hnull & _); [discriminate|].
    destruct (Hargs 1%nat (str "ls") eq_refl) as (p & Ep & _ & _ & _ & Hstr).
    exists s, k', f, p. split; [exact E|]. split; [exact Ep|]. split; [exact Hstr|exact Hnull].
Defined.

(** ** A system call *)

(** Process 0, with pid 7, executes [ecall] at 4096 with the number of [getpid] in a7. *)
Definition trapped : K :=
  let p := set_pid 7 (set_pagetable (pg 3) (set_trapframe (pg 2) (set_kstack 4096 (set_state RUNNING proc0)))) in
  let s := kernel_with [p] 0 (Some 0%nat) in
  set_mem (Kmem (store64 (kmem_mem (k_mem s)) (pg 2 + TF_a 7) 11) 0) s.

Abbreviation trap_getpid :=
  (usertrap END 0x80001000 0x80000abc 0 quiet_world (Junk [] [] 0 []) 0x80000100 0x80001000 0x8000109a 0 0 (ret tt) (λ s, s)
    (Trapregs 8 4096 0 0) 0 0x8000000200000022).

Lemma trap_getpid_ok : is_Some (code (trap_getpid (Thread [] trapped))).
Proof. vm_compute. by eexists. Qed.

Lemma usertrap_returns_witness :
  ∃ regs t', trap_getpid (Thread [] trapped) = Ok regs t' ∧
    to_user 0x80001000 0x80001000 0x8000109a regs (st t').
Proof.
  pose proof trap_getpid_ok as Hok. destruct (trap_getpid (Thread [] trapped)) as [regs t'| |] eqn:E; [|exfalso; by apply is_Some_None in Hok..].
  exists regs, t'. split; [reflexivity|].
  assert (k_cur (st (Thread [] trapped)) = Some 0%nat) as Hc by reflexivity.
  assert (0 < length (k_procs (st (Thread [] trapped))))%nat as Hl by (apply Nat.ltb_lt; reflexivity).
  apply (usertrap_returns _ _ _ _ _ _ _ _ _ _ _ _ _ _ _ _ _ _ _ _ Hc Hl) in E. apply E.
Defined.

Example getpid_result : (load64 (kmem_mem (k_mem (st (default (Thread [] trapped) (match trap_getpid (Thread [] trapped) with Ok _ t => Some t | _ => None end)))))
  (pg 2 + TF_a 0), u_sepc (default (Userregs 0 0 0 0 0) (code (trap_getpid (Thread [] trapped))))) = (7, 4100).
Proof. vm_compute. reflexivity. Qed.
