(* ===== verification/SleepWakeup.v ===== *)
(** * Sleeping and waking, step by step

    [sleep] and [wakeup] of proc.c as they interleave on different harts: one process
    waits for a condition under the lock [lk] with [while(!cond) sleep(chan, lk)],
    another sets the condition under [lk] and calls [wakeup(chan)], and meanwhile
    other threads take and give back both locks, and may [kill] the sleeper.  The
    sequential view of the two functions is in Proc.v. *)

From S2P Require Import Prelude.

(** Who holds a lock. *)
Inductive owner := Free | Sleeper | Waker | Other.

(** [p->state], as far as the protocol goes. *)
Inductive pstate := P_running | P_sleeping | P_runnable.

(** The sleeper: before the test of the condition, with [lk] held; inside [sleep], by
    the next line of the code; switched out; past the loop. *)
Inductive spc :=
  | S_test | S_acquire | S_release | S_chan | S_state | S_swtch | S_off | S_tidy | S_punlock | S_relock | S_done.

(** The waker: before [acquire(lk)]; about to set the condition; in the body of
    [wakeup]'s loop for the sleeper; about to release [lk]; finished. *)
Inductive wpc := W_start | W_set | W_plock | W_test | W_punlock | W_release | W_done.

#[global] Instance owner_eq_dec : EqDecision owner.
Proof. solve_decision. Defined.

Record sw := Sw {
  sw_lk : owner;          (* lk *)
  sw_pl : owner;          (* p->lock *)
  sw_state : pstate;      (* p->state *)
  sw_chan : bool;         (* p->chan == chan *)
  sw_cond : bool;
  sw_s : spc;
  sw_w : wpc }.

(** The next step of the sleeper, if it is not blocked.  After [swtch] its scheduler
    releases [p->lock]; another scheduler that finds it runnable takes [p->lock] and
    switches to it. *)
Definition sleeper_step (x : sw) : option sw :=
  let '(Sw lk pl state chan cond s w) := x in
  match s with
  | S_test => Some (if cond then Sw lk pl state chan cond S_done w else Sw lk pl state chan cond S_acquire w)
  | S_acquire => if decide (pl = Free) then Some (Sw lk Sleeper state chan cond S_release w) else None
  | S_release => Some (Sw Free pl state chan cond S_chan w)
  | S_chan => Some (Sw lk pl state true cond S_state w)
  | S_state => Some (Sw lk pl P_sleeping chan cond S_swtch w)
  | S_swtch => Some (Sw lk Free state chan cond S_off w)
  | S_off =>
      match state with
      | P_runnable => if decide (pl = Free) then Some (Sw lk Sleeper P_running chan cond S_tidy w) else None
      | _ => None
      end
  | S_tidy => Some (Sw lk pl state false cond S_punlock w)
  | S_punlock => Some (Sw lk Free state chan cond S_relock w)
  | S_relock => if decide (lk = Free) then Some (Sw Sleeper pl state chan cond S_test w) else None
  | S_done => None
  end.

(** [if(p->state == SLEEPING && p->chan == chan) p->state = RUNNABLE;] *)
Definition wake_test (state : pstate) (chan : bool) : pstate :=
  match state with P_sleeping => if chan then P_runnable else state | _ => state end.

Definition waker_step (x : sw) : option sw :=
  let '(Sw lk pl state chan cond s w) := x in
  match w with
  | W_start => if decide (lk = Free) then Some (Sw Waker pl state chan cond s W_set) else None
  | W_set => Some (Sw lk pl state chan true s W_plock)
  | W_plock => if decide (pl = Free) then Some (Sw lk Waker state chan cond s W_test) else None
  | W_test => Some (Sw lk pl (wake_test state chan) chan cond s W_punlock)
  | W_punlock => Some (Sw lk Free state chan cond s W_release)
  | W_release => Some (Sw Free pl state chan cond s W_done)
  | W_done => None
  end.

(** Other threads: they use both locks, and [kill] makes a sleeper runnable while it
    holds [p->lock]. *)
Definition other_steps (x : sw) : list sw :=
  let '(Sw lk pl state chan cond s w) := x in
  match lk with
  | Free => [Sw Other pl state chan cond s w]
  | Other => [Sw Free pl state chan cond s w]
  | _ => []
  end ++
  match pl with
  | Free => [Sw lk Other state chan cond s w]
  | Other =>
      Sw lk Free state chan cond s w ::
      match state with P_sleeping => [Sw lk Other P_runnable chan cond s w] | _ => [] end
  | _ => []
  end.

Definition sw_next (x : sw) : list sw :=
  option_list (sleeper_step x) ++ option_list (waker_step x) ++ other_steps x.

Definition sw_step (x y : sw) : Prop := y ∈ sw_next x.

(** The sleeper runs and holds [lk], the waker has not begun. *)
Definition sw_init : sw := Sw Sleeper Free P_running false false S_test W_start.

(** ** The invariant *)

Definition sleeper_has_lk (s : spc) : bool :=
  match s with S_test | S_acquire | S_release | S_done => true | _ => false end.
Definition sleeper_has_pl (s : spc) : bool :=
  match s with S_release | S_chan | S_state | S_swtch | S_tidy | S_punlock => true | _ => false end.
Definition waker_has_lk (w : wpc) : bool := match w with W_set | W_plock | W_test | W_punlock | W_release => true | _ => false end.
Definition waker_has_pl (w : wpc) : bool := match w with W_test | W_punlock => true | _ => false end.
Definition waker_set (w : wpc) : bool := match w with W_start | W_set => false | _ => true end.
Definition waker_tested (w : wpc) : bool := match w with W_punlock | W_release | W_done => true | _ => false end.

(** A lock has the owner that the two programs say it has. *)
Definition owner_ok (o : owner) (sleeper waker : bool) : bool :=
  match o with
  | Sleeper => sleeper && negb waker
  | Waker => waker && negb sleeper
  | _ => negb sleeper && negb waker
  end.

Definition running (x : pstate) : bool := match x with P_running => true | _ => false end.
Definition sleeping (x : pstate) : bool := match x with P_sleeping => true | _ => false end.

Definition sw_ok (x : sw) : bool :=
  let '(Sw lk pl state chan cond s w) := x in
  owner_ok lk (sleeper_has_lk s) (waker_has_lk w) && owner_ok pl (sleeper_has_pl s) (waker_has_pl w) &&
  Bool.eqb cond (waker_set w) &&
  match s with
  | S_acquire | S_release => running state && negb cond
  | S_chan => running state && negb (waker_tested w)
  | S_state => running state && chan && negb (waker_tested w)
  | S_swtch => sleeping state && chan && negb (waker_tested w)
  | S_off => chan && negb (running state) && (negb (waker_tested w) || negb (sleeping state))
  | _ => running state
  end.

(** ** All states

    The protocol has finitely many states, so that a property of all of them is
    checked by evaluation. *)

Definition all_sw : list sw :=
  lk ← [Free; Sleeper; Waker; Other]; pl ← [Free; Sleeper; Waker; Other];
  state ← [P_running; P_sleeping; P_runnable]; chan ← [true; false]; cond ← [true; false];
  s ← [S_test; S_acquire; S_release; S_chan; S_state; S_swtch; S_off; S_tidy; S_punlock; S_relock; S_done];
  w ← [W_start; W_set; W_plock; W_test; W_punlock; W_release; W_done];
  [Sw lk pl state chan cond s w].

Lemma all_sw_elem x : x ∈ all_sw.
Proof.
  destruct x as [lk pl state chan cond s w]. unfold all_sw.
  apply list_elem_of_bind. exists lk. split; [|destruct lk; set_solver].
  apply list_elem_of_bind. exists pl. split; [|destruct pl; set_solver].
  apply list_elem_of_bind. exists state. split; [|destruct state; set_solver].
  apply list_elem_of_bind. exists chan. split; [|destruct chan; set_solver].
  apply list_elem_of_bind. exists cond. split; [|destruct cond; set_solver].
  apply list_elem_of_bind. exists s. split; [|destruct s; set_solver].
  apply list_elem_of_bind. exists w. split; [|destruct w; set_solver].
  by apply list_elem_of_singleton.
Qed.

Lemma check_all (P : sw → bool) : forallb P all_sw = true → ∀ x, P x = true.
Proof. intros H x. rewrite forallb_forall in H. apply H, list_elem_of_In, all_sw_elem. Qed.

Lemma sw_ok_step x y : sw_ok x = true → sw_step x y → sw_ok y = true.
Proof.
  intros Hx Hy. assert ((negb (sw_ok x) || forallb sw_ok (sw_next x)) = true) as H.
  { clear Hx Hy. revert x. apply check_all. vm_compute. reflexivity. }
  rewrite Hx in H. cbn [negb orb] in H. rewrite forallb_forall in H. by apply H, list_elem_of_In.
Qed.

Lemma sw_reachable_ok x : rtc sw_step sw_init x → sw_ok x = true.
Proof.
  intros Hr. remember sw_init as x0. assert (sw_ok x0 = true) as H0 by (subst; reflexivity). clear Heqx0.
  induction Hr as [|x y z Hxy _ IH]; [done|]. apply IH. by apply (sw_ok_step x).
Qed.

(** ** No wakeup is lost *)

(** The sleeper alone, until it is past its loop. *)
Fixpoint sleeper_run (n : nat) (x : sw) : option sw :=
  match sw_s x with
  | S_done => Some x
  | _ =>
      match n with
      | O => None
      | S n => match sleeper_step x with Some y => sleeper_run n y | None => None end
      end
  end.

Definition is_free (o : owner) : bool := match o with Other => false | _ => true end.
Definition s_done (x : sw) : bool := match sw_s x with S_done => true | _ => false end.
Definition w_done (x : sw) : bool := match sw_w x with W_done => true | _ => false end.
Definition s_off (x : sw) : bool := match sw_s x with S_off => true | _ => false end.
Definition issome {A} (o : option A) : bool := match o with Some _ => true | None => false end.

Definition lost (x : sw) : bool := w_done x && s_off x && sleeping (sw_state x).
Definition locks_free (x : sw) : bool := is_free (sw_lk x) && is_free (sw_pl x).
Definition can_move (x : sw) : bool := s_done x || issome (sleeper_step x) || issome (waker_step x).
Definition finished (o : option sw) : bool := match o with Some y => s_done y && sw_cond y | None => false end.

Lemma protocol_ok x : sw_ok x = true →
  lost x = false ∧ (locks_free x = true → can_move x = true) ∧ (locks_free x = true → w_done x = true → finished (sleeper_run 14 x) = true).
Proof.
  intros Hx.
  assert (implb (sw_ok x) (negb (lost x) && implb (locks_free x) (can_move x) &&
    implb (locks_free x) (implb (w_done x) (finished (sleeper_run 14 x)))) = true) as H.
  { clear Hx. revert x. apply check_all. vm_compute. reflexivity. }
  rewrite Hx in H. cbn [implb] in H. apply andb_true_iff in H as [[H1%negb_true_iff H2]%andb_true_iff H3]. pose proof (proj1 (implb_true_iff _ _) H2) as H2'. pose proof (proj1 (implb_true_iff _ _) H3) as H3'.
  split_and!; [exact H1|exact H2'|]. intros E1 E2. exact (proj1 (implb_true_iff _ _) (H3' E1) E2).
Qed.

Lemma locks_free_intro x : sw_lk x ≠ Other → sw_pl x ≠ Other → locks_free x = true.
Proof. unfold locks_free. intros. destruct (sw_lk x), (sw_pl x); cbn; congruence. Qed.
Lemma s_done_elim x : s_done x = true → sw_s x = S_done.
Proof. unfold s_done. by destruct (sw_s x). Qed.
Lemma issome_elim {A} (o : option A) : issome o = true → is_Some o.
Proof. destruct o; [by eexists|done]. Qed.

Lemma finished_elim o : finished o = true → ∃ y, o = Some y ∧ sw_s y = S_done ∧ sw_cond y = true.
Proof.
  destruct o as [y|]; [|discriminate]. intros [Hs Hc]%andb_true_iff. exists y. split_and!; [done|by apply s_done_elim|done].
Qed.
Lemma w_done_intro x : sw_w x = W_done → w_done x = true.
Proof. unfold w_done. by intros ->. Qed.

(** C16: no wakeup is lost.  However the steps of a process in [while(!cond)
    sleep(chan, lk)], of the thread that sets the condition and calls [wakeup(chan)],
    and of other users of the locks interleave: once the waker is done, the process
    is not asleep; while no other thread keeps a lock, the two never block each
    other; and after the waker is done, the process gets out of its loop with the
    condition true in at most 14 of its own steps. *)
Theorem no_lost_wakeup x : rtc sw_step sw_init x →
  (sw_w x = W_done → sw_s x = S_off → sw_state x ≠ P_sleeping) ∧
  (sw_lk x ≠ Other → sw_pl x ≠ Other → sw_s x ≠ S_done → is_Some (sleeper_step x) ∨ is_Some (waker_step x)) ∧
  (sw_lk x ≠ Other → sw_pl x ≠ Other → sw_w x = W_done →
    ∃ y, sleeper_run 14 x = Some y ∧ sw_s y = S_done ∧ sw_cond y = true).
Proof.
  intros Hx%sw_reachable_ok. destruct (protocol_ok x Hx) as (H1 & H2 & H3). clear Hx.
  split_and!.
  - intros Ew Es Est. unfold lost, w_done, s_off in H1. rewrite Ew, Es, Est in H1. discriminate H1.
  - intros El Ep Es. specialize (H2 (locks_free_intro x El Ep)). unfold can_move in H2.
    apply orb_true_iff in H2 as [[H2|H2]%orb_true_iff|H2].
    + destruct (Es (s_done_elim x H2)).
    + left. exact (issome_elim _ H2).
    + right. exact (issome_elim _ H2).
  - intros El Ep Ew. exact (finished_elim _ (H3 (locks_free_intro x El Ep) (w_done_intro x Ew))).
Qed.

(** The sleeper gives up [lk], the waker runs to its [acquire(&p->lock)], and only
    after the sleeper is switched out the waker finds it. *)
Definition sw_path : list (bool * nat) := [(true, 3%nat); (false, 2%nat); (true, 3%nat); (false, 4%nat)].
Fixpoint sw_steps (n : nat) (f : sw → option sw) (x : sw) : sw :=
  match n with O => x | S n => match f x with Some y => sw_steps n f y | None => x end end.
Definition sw_end : sw := foldl (λ x '(b, n), sw_steps n (if b : bool then sleeper_step else waker_step) x) sw_init sw_path.

Lemma sw_steps_reach n (b : bool) x : rtc sw_step x (sw_steps n (if b then sleeper_step else waker_step) x).
Proof.
  revert x. induction n as [|n IH]; intros x; cbn [sw_steps]; [apply rtc_refl|].
  destruct ((if b then sleeper_step else waker_step) x) as [y|] eqn:E; [|apply rtc_refl].
  eapply rtc_l; [|apply IH]. unfold sw_step, sw_next. rewrite !elem_of_app. destruct b; rewrite E; [left|right; left]; by left.
Qed.

Lemma no_lost_wakeup_witness :
  sw_s sw_end = S_off ∧ sw_w sw_end = W_done ∧ sw_state sw_end = P_runnable ∧
  ∃ y, sleeper_run 14 sw_end = Some y ∧ sw_s y = S_done ∧ sw_cond y = true.
Proof.
  split_and!; [reflexivity|reflexivity|reflexivity|].
  apply (no_lost_wakeup sw_end); [|discriminate|discriminate|reflexivity].
  unfold sw_end, sw_path. cbn [foldl]. etransitivity; [|apply (sw_steps_reach 4 false)]. etransitivity; [|apply (sw_steps_reach 3 true)].
  etransitivity; [|apply (sw_steps_reach 2 false)]. apply (sw_steps_reach 3 true).
Defined.
