(* ===== verification/Grep.v ===== *)
(** * user/grep.c

    The matcher of Kernighan and Pike, and the loop that cuts what [read] returns
    into lines.  A C string is the list of its bytes without the NUL. *)

From S2P Require Import Prelude CString Kernel Printf.

Definition dot : Z := chr ".".
Definition star : Z := chr "*".
Definition caret : Z := chr "^".
Definition dollar : Z := chr "$".
Definition nl : Z := 10.

(** ** The matcher *)

(** [mh] is [matchhere(re, _)]: tried on the text, then on what follows each further
    instance of [c]. *)
Fixpoint matchstar (mh : list Z → bool) (c : Z) (text : list Z) : bool :=
  if mh text then true
  else
    match text with
    | [] => false
    | x :: text => if (x =? c) || (c =? dot) then matchstar mh c text else false
    end.

Fixpoint matchhere (re text : list Z) : bool :=
  match re with
  | [] => true
  | c :: re1 =>
      let rest :=
        if (c =? dollar) && bool_decide (re1 = []) then bool_decide (text = [])
        else
          match text with
          | x :: text => if (c =? dot) || (c =? x) then matchhere re1 text else false
          | [] => false
          end in
      match re1 with
      | s :: re2 => if s =? star then matchstar (matchhere re2) c text else rest
      | [] => rest
      end
  end.

(** The loop of [match]: every suffix of the text, the empty one too. *)
Fixpoint match_loop (re text : list Z) : bool :=
  if matchhere re text then true
  else match text with [] => false | _ :: text => match_loop re text end.

Definition match_ (re text : list Z) : bool :=
  match re with
  | c :: re1 => if c =? caret then matchhere re1 text else match_loop re text
  | [] => match_loop re text
  end.

(** ** What a pattern means

    A pattern is a sequence of characters, dots and starred characters, perhaps
    anchored at the start or the end of the line. *)

Inductive item := Chr (c : Z) | Any | Star (c : Z).

(** A starred dot takes any characters. *)
Definition fits (c x : Z) : Prop := x = c ∨ c = dot.

Definition lang (i : item) (u : list Z) : Prop :=
  match i with
  | Chr c => u = [c]
  | Any => ∃ x, u = [x]
  | Star c => Forall (fits c) u
  end.

Fixpoint langs (its : list item) (u : list Z) : Prop :=
  match its with
  | [] => u = []
  | i :: its => ∃ u1 u2, u = u1 ++ u2 ∧ lang i u1 ∧ langs its u2
  end.

Definition item_of (c : Z) : item := if c =? dot then Any else Chr c.

(** The items, and whether the pattern ends with the end of the line. *)
Fixpoint parse_items (re : list Z) : list item * bool :=
  match re with
  | [] => ([], false)
  | c :: re1 =>
      match re1 with
      | s :: re2 =>
          if s =? star then let '(its, e) := parse_items re2 in (Star c :: its, e)
          else let '(its, e) := parse_items re1 in (item_of c :: its, e)
      | [] => if c =? dollar then ([], true) else ([item_of c], false)
      end
  end.

Record pattern := Pattern { pt_start : bool; pt_items : list item; pt_end : bool }.

Definition parse_re (re : list Z) : pattern :=
  match re with
  | c :: re1 =>
      if c =? caret then let '(its, e) := parse_items re1 in Pattern true its e
      else let '(its, e) := parse_items re in Pattern false its e
  | [] => Pattern false [] false
  end.

(** The pattern describes the part [u] of the line. *)
Definition pattern_matches (p : pattern) (text : list Z) : Prop :=
  ∃ pre u post, text = pre ++ u ++ post ∧ langs (pt_items p) u ∧
    (pt_start p = true → pre = []) ∧ (pt_end p = true → post = []).

(** The items describe a prefix of [text]. *)
Definition here (its : list item) (e : bool) (text : list Z) : Prop :=
  ∃ u post, text = u ++ post ∧ langs its u ∧ (e = true → post = []).

Lemma here_nil e text : here [] e text ↔ (e = true → text = []).
Proof.
  unfold here. split.
  - intros (u & post & -> & -> & He). exact He.
  - intros He. by exists [], text.
Qed.

Lemma here_one i its e text : (∀ u, lang i u → ∃ x, u = [x]) →
  here (i :: its) e text ↔ ∃ x t, text = x :: t ∧ lang i [x] ∧ here its e t.
Proof.
  intros Hi. unfold here. split.
  - intros (u & post & -> & (u1 & u2 & -> & H1 & H2) & He). destruct (Hi u1 H1) as [x ->].
    exists x, (u2 ++ post). split; [done|]. split; [done|]. by exists u2, post.
  - intros (x & t & -> & H1 & u & post & -> & H2 & He). exists (x :: u), post. split; [done|]. split; [|done]. by exists [x], u.
Qed.

Lemma here_item c its e text : here (item_of c :: its) e text ↔ ∃ x t, text = x :: t ∧ (c = dot ∨ c = x) ∧ here its e t.
Proof.
  unfold item_of. destruct (Z.eqb_spec c dot) as [->|Hc].
  - rewrite here_one by (by intros u [x ->]; exists x). naive_solver.
  - rewrite here_one by (intros u ->; by exists c). cbn. naive_solver.
Qed.

Lemma matchstar_iff mh c text : matchstar mh c text = true ↔ ∃ u v, text = u ++ v ∧ Forall (fits c) u ∧ mh v = true.
Proof.
  induction text as [|x text IH]; cbn [matchstar].
  - split.
    + destruct (mh []) eqn:E; [|done]. intros _. by exists [], [].
    + intros (u & v & E & _ & Hv). symmetry in E. apply app_nil in E as [-> ->]. by rewrite Hv.
  - destruct (mh (x :: text)) eqn:E.
    + split; [|done]. intros _. by exists [], (x :: text).
    + destruct ((x =? c) || (c =? dot)) eqn:Ec.
      * apply orb_true_iff in Ec. rewrite !Z.eqb_eq in Ec. rewrite IH. split.
        -- intros (u & v & -> & Hu & Hv). exists (x :: u), v. split; [done|]. split; [by constructor|done].
        -- intros ([|y u] & v & E' & Hu & Hv); [cbn in E'; subst v; congruence|]. injection E' as <- ->.
           apply Forall_cons in Hu as [_ Hu]. by exists u, v.
      * split; [done|]. intros ([|y u] & v & E' & Hu & Hv); [cbn in E'; subst v; congruence|]. injection E' as <- ->.
        apply Forall_cons in Hu as [[->| ->] _]; [by rewrite Z.eqb_refl in Ec|by rewrite Z.eqb_refl, orb_true_r in Ec].
Qed.

Lemma here_star c its e text : here (Star c :: its) e text ↔ ∃ u v, text = u ++ v ∧ Forall (fits c) u ∧ here its e v.
Proof.
  unfold here. split.
  - intros (w & post & -> & (u1 & u2 & -> & H1 & H2) & He). exists u1, (u2 ++ post). rewrite app_assoc. split; [done|]. split; [done|]. by exists u2, post.
  - intros (u & v & -> & H1 & u2 & post & -> & H2 & He). exists (u ++ u2), post. rewrite app_assoc. split; [done|]. split; [by exists u, u2|done].
Qed.

Lemma matchhere_iff re : ∀ text, matchhere re text = true ↔ let '(its, e) := parse_items re in here its e text.
Proof.
  remember (length re) as n eqn:En. assert (length re <= n)%nat as Hn by lia. clear En. revert re Hn.
  induction n as [|n IH]; intros [|c re1] Hn text; cbn [length] in Hn; try lia.
  1, 2: cbn; rewrite here_nil; naive_solver.
  cbn [matchhere parse_items].
  assert (∀ its e, (∀ t, matchhere re1 t = true ↔ here its e t) →
    match text with x :: t => if (c =? dot) || (c =? x) then matchhere re1 t else false | [] => false end = true ↔
    here (item_of c :: its) e text) as Hplain.
  { intros its e H. rewrite here_item. destruct text as [|x t]; [naive_solver|].
    destruct ((c =? dot) || (c =? x)) eqn:Ec.
    - apply orb_true_iff in Ec. rewrite !Z.eqb_eq in Ec. rewrite H. naive_solver.
    - apply orb_false_iff in Ec. rewrite !Z.eqb_neq in Ec. naive_solver. }
  destruct re1 as [|s re2].
  - rewrite bool_decide_true, andb_true_r by done. destruct (c =? dollar).
    + rewrite here_nil, bool_decide_eq_true. naive_solver.
    + apply Hplain. intros t. rewrite here_nil. cbn. naive_solver.
  - rewrite (bool_decide_false (s :: re2 = [])), andb_false_r by done. destruct (s =? star).
    + specialize (IH re2 ltac:(cbn in Hn; lia)). destruct (parse_items re2) as [its e]. rewrite matchstar_iff, here_star.
      split; intros (u & v & H1 & H2 & H3); exists u, v; (split; [done|]); (split; [done|]); by apply IH.
    + specialize (IH (s :: re2) ltac:(cbn in *; lia)). destruct (parse_items (s :: re2)) as [its e]. by apply Hplain.
Qed.

Lemma match_loop_iff re text : match_loop re text = true ↔ ∃ pre t, text = pre ++ t ∧ matchhere re t = true.
Proof.
  induction text as [|x text IH]; cbn [match_loop].
  - split.
    + destruct (matchhere re []) eqn:E; [|done]. intros _. by exists [], [].
    + intros (pre & t & E & Ht). symmetry in E. apply app_nil in E as [-> ->]. by rewrite Ht.
  - destruct (matchhere re (x :: text)) eqn:E.
    + split; [|done]. intros _. by exists [], (x :: text).
    + rewrite IH. split.
      * intros (pre & t & -> & Ht). by exists (x :: pre), t.
      * intros ([|y pre] & t & E' & Ht); [cbn in E'; subst t; congruence|]. injection E' as <- ->. by exists pre, t.
Qed.

Lemma match_run re text : match_ re text = true ↔ pattern_matches (parse_re re) text.
Proof.
  unfold pattern_matches.
  assert (∀ its e, (∃ pre t, text = pre ++ t ∧ here its e t) ↔
    ∃ pre u post, text = pre ++ u ++ post ∧ langs its u ∧ (false = true → pre = []) ∧ (e = true → post = [])) as Hany.
  { intros its e. unfold here. split.
    - intros (pre & t & -> & u & post & -> & H1 & H2). by exists pre, u, post.
    - intros (pre & u & post & -> & H1 & _ & H2). exists pre, (u ++ post). split; [done|]. by exists u, post. }
  assert (match_loop re text = true ↔ ∃ pre t, text = pre ++ t ∧ let '(its, e) := parse_items re in here its e t) as Hloop.
  { rewrite match_loop_iff. split; intros (pre & t & E & H); exists pre, t; (split; [done|]); by apply matchhere_iff. }
  destruct re as [|c re1]; cbn [match_ parse_re].
  - rewrite Hloop. cbn [parse_items]. by rewrite Hany.
  - destruct (c =? caret).
    + rewrite matchhere_iff. destruct (parse_items re1) as [its e]. cbn [pt_start pt_items pt_end]. unfold here. split.
      * intros (u & post & -> & H1 & H2). by exists [], u, post.
      * intros (pre & u & post & -> & H1 & H2 & H3). rewrite (H2 eq_refl). by exists u, post.
    + rewrite Hloop. destruct (parse_items (c :: re1)) as [its e]. cbn [pt_start pt_items pt_end]. apply Hany.
Qed.

(** ** The program

    [read(fd, buf, n)] returns at least one byte and at most [n] of what the file has
    left, and nothing at its end; how much is up to the kernel: one number of [sizes]
    for each call, all that fits when the list is used up. *)

Definition BUFSIZE : Z := 1024.

Definition read_size (sizes : list nat) (limit : Z) : Z := Z.min limit (match sizes with [] => limit | k :: _ => Z.of_nat (S k) end).

(** [strchr(p, '\n')] on a string: the line before the first newline and what follows
    it.  It stops at a NUL. *)
Fixpoint strchr_nl (s : list Z) : option (list Z * list Z) :=
  match s with
  | [] => None
  | x :: s =>
      if x =? 0 then None
      else if x =? nl then Some ([], s)
      else match strchr_nl s with Some (l, r) => Some (x :: l, r) | None => None end
  end.

(** The inner loop on the bytes from [p] on: what is written, and the bytes that are
    left.  Every round takes a newline. *)
Fixpoint grep_lines (fuel : nat) (pattern s : list Z) : list Z * list Z :=
  match fuel with
  | O => ([], s)
  | S fuel =>
      match strchr_nl s with
      | None => ([], s)
      | Some (line, rest) =>
          let '(out, rest) := grep_lines fuel pattern rest in
          ((if match_ pattern line then line ++ [nl] else []) ++ out, rest)
      end
  end.

(** The outer loop: [buf] is the bytes before [m], [inp] what the file has left.  The
    result is what is written to descriptor 1. *)
Fixpoint grep_loop (fuel : nat) (sizes : list nat) (pattern buf inp : list Z) : list Z :=
  match fuel with
  | O => []
  | S fuel =>
      let n := read_size sizes (BUFSIZE - Z.of_nat (length buf) - 1) in
      let data := take (Z.to_nat n) inp in
      match data with
      | [] => []
      | _ =>
          let s := buf ++ data in
          let '(out, rest) := grep_lines (S (length s)) pattern s in
          out ++ grep_loop fuel (tail sizes) pattern rest (drop (Z.to_nat n) inp)
      end
  end.

Definition grep (sizes : list nat) (pattern inp : list Z) : list Z :=
  grep_loop (S (length inp)) sizes pattern [] inp.

(** ** Lines *)

(** The lines of a text that end with a newline, and the unfinished one. *)
Fixpoint split_lines (s : list Z) : list (list Z) * list Z :=
  match s with
  | [] => ([], [])
  | x :: s =>
      let '(ls, r) := split_lines s in
      if x =? nl then ([] :: ls, r)
      else match ls with [] => ([], x :: r) | l :: ls => ((x :: l) :: ls, r) end
  end.

Definition no_nul (s : list Z) : Prop := Forall (λ x, x ≠ 0) s.

(** The matching lines, each with its newline. *)
Definition matching (pattern : list Z) (ls : list (list Z)) : list Z :=
  concat ((λ l, l ++ [nl]) <$> filter (λ l, match_ pattern l = true) ls).

Lemma matching_app p a b : matching p (a ++ b) = matching p a ++ matching p b.
Proof. unfold matching. by rewrite filter_app, fmap_app, concat_app. Qed.

Lemma split_lines_app s t :
  split_lines (s ++ t) =
    (let '(ls, r) := split_lines s in let '(ls2, r2) := split_lines (r ++ t) in (ls ++ ls2, r2)).
Proof.
  induction s as [|x s IH]; cbn [app split_lines]; [by destruct (split_lines t)|]. rewrite IH.
  destruct (split_lines s) as [ls r] eqn:E. destruct (split_lines (r ++ t)) as [ls2 r2] eqn:E2.
  destruct (x =? nl) eqn:Ex; [by rewrite E2|]. destruct ls as [|l ls]; cbn [app].
  - cbn [split_lines]. rewrite E2, Ex. by destruct ls2.
  - by rewrite E2.
Qed.

Lemma strchr_nl_split s : no_nul s →
  match strchr_nl s with
  | None => split_lines s = ([], s)
  | Some (l, r) => split_lines s = (let '(ls, e) := split_lines r in (l :: ls, e)) ∧ (length r < length s)%nat ∧ no_nul r
  end.
Proof.
  induction 1 as [|x s Hx Hs IH]; cbn [strchr_nl split_lines]; [done|].
  rewrite (proj2 (Z.eqb_neq x 0)) by done. destruct (x =? nl) eqn:Ex.
  - split_and!; [by destruct (split_lines s)|cbn; lia|done].
  - destruct (strchr_nl s) as [[l r]|].
    + destruct IH as (-> & H1 & H2). split_and!; [by destruct (split_lines r)|cbn; lia|done].
    + by rewrite IH.
Qed.

Lemma grep_lines_run fuel p s : (length s < fuel)%nat → no_nul s →
  grep_lines fuel p s = (matching p (split_lines s).1, (split_lines s).2).
Proof.
  revert s. induction fuel as [|fuel IH]; intros s Hf Hs; [lia|]. cbn [grep_lines].
  pose proof (strchr_nl_split s Hs) as H. destruct (strchr_nl s) as [[l r]|]; [|by rewrite H].
  destruct H as (-> & Hr & Hn). rewrite IH by (lia || done). destruct (split_lines r) as [ls e]. cbn [fst snd].
  f_equal. unfold matching. rewrite filter_cons. destruct (match_ p l); [by rewrite decide_True|by rewrite decide_False].
Qed.

Lemma split_lines_rest s : split_lines (split_lines s).2 = ([], (split_lines s).2).
Proof.
  induction s as [|x s IH]; cbn [split_lines]; [done|]. destruct (split_lines s) as [ls r]. cbn [snd] in *.
  destruct (x =? nl) eqn:Ex; [done|]. destruct ls as [|l ls]; [|done]. cbn [snd split_lines]. by rewrite IH, Ex.
Qed.

Lemma split_lines_nul s : no_nul s → no_nul (split_lines s).2.
Proof.
  induction 1 as [|x s Hx Hs IH]; cbn [split_lines]; [constructor|]. destruct (split_lines s) as [ls r]. cbn [snd] in *.
  destruct (x =? nl); [done|]. destruct ls; [by constructor|done].
Qed.

(** Every line and the unfinished one fit into the buffer with a byte to spare. *)
Definition short (s : list Z) : Prop :=
  Forall (λ l, Z.of_nat (length l) < BUFSIZE - 1) (split_lines s).1 ∧ Z.of_nat (length (split_lines s).2) < BUFSIZE - 1.

Lemma split_lines_prefix r t : split_lines r = ([], r) →
  split_lines (r ++ t) = match split_lines t with ([], e) => ([], r ++ e) | (l :: ls, e) => ((r ++ l) :: ls, e) end.
Proof.
  induction r as [|x r IH]; cbn [app split_lines]; [by destruct (split_lines t) as [[|l ls] e]|].
  destruct (split_lines r) as [[|l ls] e]; destruct (x =? nl) eqn:Ex; try done. intros [= ->].
  rewrite IH by done. by destruct (split_lines t) as [[|l ls] e].
Qed.

Lemma short_rest s t : short (s ++ t) → Z.of_nat (length (split_lines s).2) < BUFSIZE - 1 ∧ short ((split_lines s).2 ++ t).
Proof.
  unfold short. rewrite split_lines_app. pose proof (split_lines_rest s) as Hr. destruct (split_lines s) as [ls r]. cbn [snd] in *.
  rewrite (split_lines_prefix r t Hr). destruct (split_lines t) as [[|l ls2] e]; cbn [fst snd]; rewrite ?Forall_app, ?Forall_cons, ?length_app; naive_solver lia.
Qed.

Lemma split_lines_full s t : (split_lines (s ++ t)).1 = (split_lines s).1 ++ (split_lines ((split_lines s).2 ++ t)).1.
Proof. rewrite split_lines_app. destruct (split_lines s) as [ls r]. cbn [snd fst]. by destruct (split_lines (r ++ t)). Qed.

Lemma read_size_bounds sizes limit : 1 <= limit → 1 <= read_size sizes limit <= limit.
Proof. unfold read_size. destruct sizes; lia. Qed.

Lemma grep_loop_run p fuel : ∀ sizes buf inp, (length inp < fuel)%nat → split_lines buf = ([], buf) →
  no_nul (buf ++ inp) → short (buf ++ inp) →
  grep_loop fuel sizes p buf inp = matching p (split_lines (buf ++ inp)).1.
Proof.
  induction fuel as [|fuel IH]; intros sizes buf inp Hf Hb Hn Hs; [lia|]. cbn [grep_loop].
  assert (Z.of_nat (length buf) < BUFSIZE - 1) as Hlen by (pose proof (short_rest _ _ Hs) as [H _]; by rewrite Hb in H).
  destruct (read_size_bounds sizes (BUFSIZE - Z.of_nat (length buf) - 1) ltac:(lia)) as [H1 _].
  set (n := Z.to_nat (read_size _ _)) in *. assert (1 <= n)%nat as H1' by lia.
  destruct (take n inp) as [|x data] eqn:Et.
  - assert (inp = []) as -> by (destruct inp, n; [done|done|lia|done]). rewrite app_nil_r, Hb. done.
  - assert (inp = x :: data ++ drop n inp) as Ei by (by rewrite app_comm_cons, <- Et, take_drop).
    assert (no_nul (buf ++ x :: data)) as Hn1.
    { rewrite Ei, app_comm_cons, app_assoc in Hn. apply Forall_app in Hn. apply Hn. }
    rewrite grep_lines_run by (lia || done).
    assert (buf ++ inp = (buf ++ x :: data) ++ drop n inp) as Ea by (rewrite Ei at 1; by rewrite <- app_assoc).
    rewrite Ea, (split_lines_full (buf ++ x :: data) (drop n inp)), matching_app. rewrite Ea in Hs, Hn. f_equal. apply IH.
    + rewrite length_drop. destruct inp; [done|cbn [length] in *; lia].
    + apply split_lines_rest.
    + apply Forall_app in Hn as [_ Hn2]. apply Forall_app. split; [by apply split_lines_nul|done].
    + by apply short_rest.
Qed.

(** ** Claims *)

(** C36: the matcher of grep decides the language of its pattern.  For every pattern and
    every line, [match] returns 1 exactly when some part of the line, at its start for
    a leading caret and up to its end for a final dollar, is a concatenation of the
    characters, dots and starred characters that the pattern is made of. *)
Theorem match_correct re text : match_ re text = true ↔ pattern_matches (parse_re re) text.
Proof. apply match_run. Qed.

(** However the kernel splits the file into [read]s, [grep] writes exactly the
    lines that end with a newline and match the pattern, in order and whole, provided
    no line has a NUL or is longer than 1022 bytes.  (A last line without its newline
    is not looked at.) *)
Theorem grep_correct sizes re inp : no_nul inp → short inp →
  grep sizes re inp = concat ((λ l, l ++ [nl]) <$> filter (λ l, match_ re l = true) (split_lines inp).1).
Proof. intros Hn Hs. apply (grep_loop_run re (S (length inp)) sizes [] inp); [lia|done|done|done]. Qed.

Definition sample : list Z := str "hello" ++ [nl] ++ str "world" ++ [nl] ++ str "help" ++ [nl] ++ str "he".

Lemma grep_correct_witness :
  grep [2%nat; 0%nat; 6%nat] (str "^hel*o*p*$") sample = str "hello" ++ [nl] ++ str "help" ++ [nl].
Proof.
  rewrite (grep_correct [2%nat; 0%nat; 6%nat] (str "^hel*o*p*$") sample).
  - vm_compute. reflexivity.
  - vm_compute. repeat constructor; discriminate.
  - split; vm_compute; repeat constructor.
Defined.
