(* ===== verification/Sort.v ===== *)
(** * user/sort.c, head.c, tail.c

    Lines are read into rows of [MAXLEN] bytes, a row being the C string of its
    bytes before the NUL; [lines] is the array of pointers to the rows, here the
    rows themselves.  [None] is undefined behaviour, or a recursion that the fuel
    does not cover. *)

From S2P Require Import Prelude CString Kernel Printf Grep.

Definition MAXLINES : Z := 1000.
Definition MAXLEN : Z := 100.

(** ** ulib.c: [strcmp] and [atoi] *)

Fixpoint strcmp (p q : list Z) : Z :=
  match p, q with
  | c :: p', d :: q' => if c =? d then strcmp p' q' else u8 c - u8 d
  | c :: _, [] => u8 c
  | [], d :: _ => - u8 d
  | [], [] => 0
  end.

Fixpoint atoi_loop (s : list Z) (n : Z) : Z :=
  match s with
  | c :: s => if (chr "0" <=? c) && (c <=? chr "9") then atoi_loop s (s32 (n * 10 + c - chr "0")) else n
  | [] => n
  end.
Definition atoi (s : list Z) : Z := atoi_loop s 0.

(** ** Reading *)

(** After the loop: a last line without a newline.  When the loop stopped at
    [MAXLINES] lines, [content[i]] is outside the array. *)
Definition finish_lines (rows : list (list Z)) (cur : list Z) : option (list (list Z)) :=
  if 0 <? Z.of_nat (length cur) then
    if Z.of_nat (length rows) <? MAXLINES then Some (rows ++ [cur]) else None
  else Some rows.

(** [rows] are the [i] finished rows, [cur] the [j] bytes of the current one; it keeps
    its [j] when the loop is left at [MAXLINES]. *)
Fixpoint readlines_loop (inp : list Z) (rows : list (list Z)) (cur : list Z) : option (list (list Z)) :=
  match inp with
  | [] => finish_lines rows cur
  | c :: inp =>
      if c =? nl then
        let rows := rows ++ [cur] in
        if MAXLINES <=? Z.of_nat (length rows) then finish_lines rows cur
        else readlines_loop inp rows []
      else readlines_loop inp rows (if Z.of_nat (length cur) <? MAXLEN - 1 then cur ++ [c] else cur)
  end.
Definition readlines (inp : list Z) : option (list (list Z)) := readlines_loop inp [] [].

(** ** Sorting *)

Definition line_at (l : list (list Z)) (i : Z) : list Z := default [] (l !! Z.to_nat i).

Definition swap (i j : Z) (l : list (list Z)) : list (list Z) :=
  let temp := line_at l i in
  let l := <[Z.to_nat i := line_at l j]> l in
  <[Z.to_nat j := temp]> l.

(** [for(i = left + 1; i <= right; i++) if(strcmp(...) < 0) swap(++last, i);] *)
Fixpoint partition (n : nat) (pivot i last : Z) (l : list (list Z)) : Z * list (list Z) :=
  match n with
  | O => (last, l)
  | S n =>
      if strcmp (line_at l i) (line_at l pivot) <? 0 then partition n pivot (i + 1) (last + 1) (swap (last + 1) i l)
      else partition n pivot (i + 1) last l
  end.

Fixpoint qsort (fuel : nat) (lo hi : Z) (l : list (list Z)) : option (list (list Z)) :=
  match fuel with
  | O => None
  | S fuel =>
      if hi <=? lo then Some l
      else
        let l := swap lo ((lo + hi) / 2) l in
        let '(last, l) := partition (Z.to_nat (hi - lo)) lo (lo + 1) lo l in
        let l := swap lo last l in
        match qsort fuel lo (last - 1) l with
        | None => None
        | Some l => qsort fuel (last + 1) hi l
        end
  end.

(** ** The programs: what they write, from what they read *)

Definition println (l : list Z) : list Z := l ++ [nl].

(** Rows as [printf] and [strcmp] see them. *)
Definition texts (rows : list (list Z)) : list (list Z) := cstring <$> rows.

Definition sort_main (inp : list Z) : option (list Z) :=
  match readlines inp with
  | None => None
  | Some rows =>
      match qsort (S (length rows)) 0 (Z.of_nat (length rows) - 1) (texts rows) with
      | None => None
      | Some l => Some (concat (println <$> l))
      end
  end.

Definition printhead (n : Z) (rows : list (list Z)) : list Z :=
  let nlines := Z.of_nat (length rows) in
  let limit := if n <? nlines then n else nlines in
  concat (println <$> take (Z.to_nat limit) (texts rows)).

Definition printtail (n : Z) (rows : list (list Z)) : list Z :=
  let nlines := Z.of_nat (length rows) in
  let start := if nlines <? n then 0 else nlines - n in
  concat (println <$> drop (Z.to_nat start) (texts rows)).

Definition head_main (n : Z) (inp : list Z) : option (list Z) := printhead n <$> readlines inp.
Definition tail_main (n : Z) (inp : list Z) : option (list Z) := printtail n <$> readlines inp.

Example sort_example : sort_main (str "pear" ++ [nl] ++ str "fig" ++ [nl] ++ str "apple") =
  Some (str "apple" ++ [nl] ++ str "fig" ++ [nl] ++ str "pear" ++ [nl]).
Proof. vm_compute. reflexivity. Qed.

(** ** Order *)

Definition le_line (a b : list Z) : Prop := strcmp a b <= 0.

Definition is_line (l : list Z) : Prop := Forall is_byte l ∧ 0 ∉ l.

Lemma byte_u8 c : is_byte c → u8 c = c.
Proof. intros Hc. unfold u8. apply Z.mod_small. unfold is_byte in Hc. lia. Qed.

Lemma strcmp_cons c a d b : is_byte c → is_byte d → strcmp (c :: a) (d :: b) = if c =? d then strcmp a b else c - d.
Proof. intros Hc Hd. cbn [strcmp]. by rewrite !byte_u8. Qed.

Lemma is_line_cons c a : is_line (c :: a) ↔ is_byte c ∧ c ≠ 0 ∧ is_line a.
Proof. unfold is_line. rewrite Forall_cons, not_elem_of_cons. naive_solver. Qed.

Lemma strcmp_nil_l b : is_line b → strcmp [] b <= 0.
Proof. destruct b as [|d b]; cbn [strcmp]; [lia|]. intros (Hd & _)%is_line_cons. rewrite byte_u8 by done. unfold is_byte in Hd. lia. Qed.

Lemma le_line_total a b : is_line a → is_line b → strcmp a b < 0 ∨ le_line b a.
Proof.
  revert b; induction a as [|c a IH]; intros [|d b] Ha Hb; unfold le_line.
  - right. cbn. lia.
  - apply is_line_cons in Hb as (Hd & Hd0 & _). left. cbn. rewrite byte_u8 by done. unfold is_byte in Hd. lia.
  - right. by apply strcmp_nil_l.
  - apply is_line_cons in Ha as (Hc & _ & Ha), Hb as (Hd & _ & Hb). rewrite !strcmp_cons, (Z.eqb_sym d) by done.
    destruct (Z.eqb_spec c d); [by apply IH|]. lia.
Qed.

Lemma strcmp_nil_r x a : is_line (x :: a) → 0 < strcmp (x :: a) [].
Proof. intros (Hx & Hx0 & _)%is_line_cons. cbn [strcmp]. rewrite byte_u8 by done. unfold is_byte in Hx. lia. Qed.

Lemma le_line_trans a b c : is_line a → is_line b → is_line c → le_line a b → le_line b c → le_line a c.
Proof.
  unfold le_line. revert b c; induction a as [|x a IH]; intros b c Ha Hb Hc; [by intros; apply strcmp_nil_l|].
  destruct b as [|y b]; [pose proof (strcmp_nil_r x a Ha); lia|]. destruct c as [|z c]; [pose proof (strcmp_nil_r y b Hb); lia|].
  apply is_line_cons in Ha as (Hx & _ & Ha), Hb as (Hy & _ & Hb), Hc as (Hz & _ & Hc). rewrite !strcmp_cons by done.
  destruct (Z.eqb_spec x y), (Z.eqb_spec y z), (Z.eqb_spec x z); subst; try lia. by apply IH.
Qed.

Lemma le_line_refl a : le_line a a.
Proof. unfold le_line. induction a as [|c a IH]; [cbn; lia|]. cbn [strcmp]. by rewrite Z.eqb_refl. Qed.

(** ** Exchanges inside a range *)

Record shuffled (a b : Z) (l l' : list (list Z)) : Prop := {
  sh_perm : l' ≡ₚ l;
  sh_out : ∀ i, 0 <= i → ¬ (a <= i <= b) → line_at l' i = line_at l i;
  sh_all : ∀ P : list Z → Prop, (∀ i, a <= i <= b → P (line_at l i)) → ∀ i, a <= i <= b → P (line_at l' i) }.

Lemma shuffled_refl a b l : shuffled a b l l.
Proof. by split. Qed.

Lemma shuffled_trans a b l1 l2 l3 : shuffled a b l1 l2 → shuffled a b l2 l3 → shuffled a b l1 l3.
Proof.
  intros [P1 O1 A1] [P2 O2 A2]. split; [by rewrite P2|intros i H1 H2; by rewrite O2, O1|]. intros P HP. apply A2. by apply A1.
Qed.

Lemma shuffled_widen a b c d l l' : 0 <= c → c <= a → b <= d → shuffled a b l l' → shuffled c d l l'.
Proof.
  intros Hc0 Hc Hd [P1 O1 A1]. split; [done|intros i H1 H2; apply O1; lia|]. intros P HP i Hi.
  destruct (decide (a <= i <= b)); [apply A1; [|done]; intros k Hk; apply HP; lia|]. rewrite O1 by lia. by apply HP.
Qed.

Lemma shuffled_length a b l l' : shuffled a b l l' → length l' = length l.
Proof. intros S. by rewrite (sh_perm _ _ _ _ S). Qed.

Lemma line_at_swap l i j k : 0 <= i < Z.of_nat (length l) → 0 <= j < Z.of_nat (length l) → 0 <= k →
  line_at (swap i j l) k = if decide (k = j) then line_at l i else if decide (k = i) then line_at l j else line_at l k.
Proof.
  intros Hi Hj Hk. unfold swap, line_at. destruct (decide (k = j)) as [->|Hkj].
  - rewrite list_lookup_insert_eq; [done|]. rewrite length_insert. lia.
  - rewrite list_lookup_insert_ne by lia. destruct (decide (k = i)) as [->|Hki].
    + rewrite list_lookup_insert_eq by lia. done.
    + by rewrite list_lookup_insert_ne by lia.
Qed.

Lemma swap_shuffled a b l i j : 0 <= a → b < Z.of_nat (length l) → a <= i <= b → a <= j <= b → shuffled a b l (swap i j l).
Proof.
  intros Ha Hb Hi Hj. split.
  - assert (∀ k, a <= k <= b → l !! Z.to_nat k = Some (line_at l k)) as Hl.
    { intros k Hk. unfold line_at. destruct (lookup_lt_is_Some_2 l (Z.to_nat k)) as [y Hy]; [lia|]. by rewrite Hy. }
    apply Permutation_insert_swap; by apply Hl.
  - intros k Hk Hn. rewrite line_at_swap by lia. by rewrite !decide_False by lia.
  - intros P HP k Hk. rewrite line_at_swap by lia. repeat case_decide; apply HP; lia.
Qed.

(** ** The partition *)

Lemma partition_run lo : ∀ n i last l, 0 <= lo → i + Z.of_nat n <= Z.of_nat (length l) → lo <= last < i →
  (∀ k, lo < k <= last → strcmp (line_at l k) (line_at l lo) < 0) →
  (∀ k, last < k < i → ¬ strcmp (line_at l k) (line_at l lo) < 0) →
  let hi := i + Z.of_nat n - 1 in
  ∃ last' l', partition n lo i last l = (last', l') ∧ last <= last' <= hi ∧ shuffled (lo + 1) hi l l' ∧
    (∀ k, lo < k <= last' → strcmp (line_at l' k) (line_at l' lo) < 0) ∧
    (∀ k, last' < k <= hi → ¬ strcmp (line_at l' k) (line_at l' lo) < 0).
Proof.
  induction n as [|n IH]; intros i last l Hlo Hn Hlast Hlt Hge hi; cbn [partition].
  - exists last, l. split; [done|]. split; [lia|]. split; [apply shuffled_refl|]. split; [done|]. intros k Hk. apply Hge. lia.
  - destruct (Z.ltb_spec (strcmp (line_at l i) (line_at l lo)) 0) as [Hs|Hs].
    + set (l1 := swap (last + 1) i l). assert (shuffled (lo + 1) hi l l1) as S1 by (apply swap_shuffled; lia).
      pose proof (shuffled_length _ _ _ _ S1) as Hl1.
      assert (∀ k, 0 <= k → line_at l1 k = if decide (k = i) then line_at l (last + 1) else if decide (k = last + 1) then line_at l i else line_at l k) as Hat
        by (intros k Hk; apply line_at_swap; lia).
      assert (line_at l1 lo = line_at l lo) as Hp by (apply (sh_out _ _ _ _ S1); lia).
      destruct (IH (i + 1) (last + 1) l1) as (last' & l' & E & Hl' & S' & H1 & H2); [done|lia|lia| | |].
      * intros k Hk. rewrite Hp, Hat by lia. destruct (decide (k = i)); [by replace (last + 1) with i by lia|].
        destruct (decide (k = last + 1)); [done|]. apply Hlt. lia.
      * intros k Hk. rewrite Hp, Hat by lia. rewrite (decide_False (P := k = last + 1)) by lia. case_decide; apply Hge; lia.
      * replace (i + 1 + Z.of_nat n - 1) with hi in * by lia. exists last', l'. split; [done|]. split; [lia|].
        split; [by eapply shuffled_trans|done].
    + destruct (IH (i + 1) last l) as (last' & l' & E & Hl' & S' & H1 & H2); [done|lia|lia|done| |].
      * intros k Hk. destruct (decide (k = i)) as [->|]; [lia|]. apply Hge. lia.
      * replace (i + 1 + Z.of_nat n - 1) with hi in * by lia. by exists last', l'.
Qed.

Definition sorted_range (a b : Z) (l : list (list Z)) : Prop := ∀ i j, a <= i → i <= j → j <= b → le_line (line_at l i) (line_at l j).

(** A range split at [p] is sorted when its parts are, and [p] is between them. *)
Lemma sorted_split a b p l : (∀ k, a <= k <= b → is_line (line_at l k)) → a <= p <= b →
  sorted_range a (p - 1) l → sorted_range (p + 1) b l →
  (∀ k, a <= k < p → le_line (line_at l k) (line_at l p)) → (∀ k, p < k <= b → le_line (line_at l p) (line_at l k)) →
  sorted_range a b l.
Proof.
  intros Hl Hp Ha Hb Hlt Hge i j Hi Hij Hj.
  assert (∀ k, a <= k <= p → le_line (line_at l k) (line_at l p)) as Hlt'.
  { intros k Hk. destruct (decide (k = p)) as [->|]; [apply le_line_refl|apply Hlt; lia]. }
  assert (∀ k, p <= k <= b → le_line (line_at l p) (line_at l k)) as Hge'.
  { intros k Hk. destruct (decide (k = p)) as [->|]; [apply le_line_refl|apply Hge; lia]. }
  destruct (decide (j < p)); [apply Ha; lia|]. destruct (decide (p < i)); [apply Hb; lia|].
  apply (le_line_trans _ (line_at l p)); [apply Hl; lia|apply Hl; lia|apply Hl; lia|apply Hlt'; lia|apply Hge'; lia].
Qed.

(** *** [qsort] terminates and sorts *)
Lemma qsort_run fuel : ∀ lo hi l, 0 <= lo → hi < Z.of_nat (length l) → hi - lo < Z.of_nat fuel → (0 < fuel)%nat →
  (∀ k, lo <= k <= hi → is_line (line_at l k)) →
  ∃ l', qsort fuel lo hi l = Some l' ∧ shuffled lo hi l l' ∧ sorted_range lo hi l'.
Proof.
  induction fuel as [|fuel IH]; intros lo hi l Hlo Hhi Hf Hf0 Hl; [lia|]. cbn [qsort]. destruct (Z.leb_spec hi lo) as [Hle|Hlt].
  { exists l. split; [done|]. split; [apply shuffled_refl|]. intros i j H1 H2 H3. replace i with j by lia. apply le_line_refl. }
  assert (lo <= (lo + hi) / 2 <= hi) as Hmid by (split; [apply Z.div_le_lower_bound|apply Z.div_le_upper_bound]; lia).
  set (l1 := swap lo ((lo + hi) / 2) l). assert (shuffled lo hi l l1) as S1 by (apply swap_shuffled; lia).
  pose proof (shuffled_length _ _ _ _ S1) as L1.
  destruct (partition_run lo (Z.to_nat (hi - lo)) (lo + 1) lo l1) as (p & l2 & E2 & Hp & S2 & Hlt2 & Hge2); [lia|lia|lia|lia|lia|].
  rewrite E2. replace (lo + 1 + Z.of_nat (Z.to_nat (hi - lo)) - 1) with hi in * by lia.
  apply (shuffled_widen _ _ lo hi) in S2; [|lia..]. pose proof (shuffled_length _ _ _ _ S2) as L2.
  set (l3 := swap lo p l2). assert (shuffled lo hi l2 l3) as S3 by (apply swap_shuffled; lia). pose proof (shuffled_length _ _ _ _ S3) as L3.
  assert (shuffled lo hi l l3) as S13 by (eapply shuffled_trans; [exact S1|]; by eapply shuffled_trans).
  assert (∀ k, lo <= k <= hi → is_line (line_at l3 k)) as Hl3 by by apply (sh_all _ _ _ _ S13).
  assert (∀ k, 0 <= k → line_at l3 k = if decide (k = p) then line_at l2 lo else if decide (k = lo) then line_at l2 p else line_at l2 k) as Hat
    by (intros k Hk; apply line_at_swap; lia).
  assert (∀ k, lo <= k < p → le_line (line_at l3 k) (line_at l3 p)) as Hless.
  { intros k Hk. rewrite !Hat by lia. rewrite (decide_True (P := p = p)), (decide_False (P := k = p)) by lia. unfold le_line. apply Z.lt_le_incl.
    case_decide; apply Hlt2; lia. }
  assert (∀ k, p < k <= hi → le_line (line_at l3 p) (line_at l3 k)) as Hmore.
  { intros k Hk. destruct (le_line_total (line_at l3 k) (line_at l3 p)) as [Hs|Hs]; [apply Hl3; lia|apply Hl3; lia| |done]. exfalso.
    rewrite !Hat in Hs by lia. rewrite (decide_True (P := p = p)), !decide_False in Hs by lia. by apply (Hge2 k). }
  destruct (IH lo (p - 1) l3) as (l4 & E4 & S4 & So4); [lia|lia|lia|lia|intros k Hk; apply Hl3; lia|]. rewrite E4.
  pose proof (shuffled_length _ _ _ _ S4) as L4.
  assert (∀ k, 0 <= k → p <= k → line_at l4 k = line_at l3 k) as O4 by (intros k Hk Hpk; apply (sh_out _ _ _ _ S4); lia).
  destruct (IH (p + 1) hi l4) as (l5 & E5 & S5 & So5); [lia|lia|lia|lia|intros k Hk; rewrite O4 by lia; apply Hl3; lia|].
  assert (∀ k, 0 <= k → k <= p → line_at l5 k = line_at l4 k) as O5 by (intros k Hk Hpk; apply (sh_out _ _ _ _ S5); lia).
  exists l5. split; [exact E5|].
  assert (shuffled lo hi l3 l5) as S35 by (eapply shuffled_trans; [apply (shuffled_widen lo (p - 1))|apply (shuffled_widen (p + 1) hi)]; done || lia).
  split; [by eapply shuffled_trans|]. apply (sorted_split lo hi p); [by apply (sh_all _ _ _ _ S35)|lia| |done| |].
  - intros i j H1 H2 H3. rewrite !O5 by lia. by apply So4.
  - intros k Hk. rewrite !O5, (O4 p) by lia. apply (sh_all _ _ _ _ S4 (λ x, le_line x (line_at l3 p))); [|lia]. intros i Hi. apply Hless. lia.
  - intros k Hk. rewrite (O5 p), (O4 p) by lia. apply (sh_all _ _ _ _ S5 (λ x, le_line (line_at l3 p) x)); [|lia]. intros i Hi. rewrite O4 by lia. apply Hmore. lia.
Qed.

(** ** What [readlines] reads *)

(** The lines of the input, the last one even without its newline. *)
Definition lines_of (s : list Z) : list (list Z) :=
  let '(ls, r) := split_lines s in ls ++ (if decide (r = []) then [] else [r]).

Definition cut (l : list Z) : list Z := take (Z.to_nat (MAXLEN - 1)) l.

Lemma cut_snoc p c : (if Z.of_nat (length (cut p)) <? MAXLEN - 1 then cut p ++ [c] else cut p) = cut (p ++ [c]).
Proof.
  unfold cut. change (MAXLEN - 1) with 99. change (Z.to_nat 99) with 99%nat. rewrite length_take. destruct (Z.ltb_spec (Z.of_nat (99 `min` length p)) 99).
  - rewrite !take_ge by (rewrite ?length_app; cbn; lia). done.
  - by rewrite take_app_le by lia.
Qed.

Lemma split_lines_snoc p c : split_lines p = ([], p) → c ≠ nl → split_lines (p ++ [c]) = ([], p ++ [c]).
Proof.
  intros Hp Hc. rewrite (split_lines_prefix p [c] Hp). cbn [split_lines]. by rewrite (proj2 (Z.eqb_neq c nl)).
Qed.

Lemma split_lines_nl p s : split_lines p = ([], p) →
  split_lines (p ++ nl :: s) = (p :: (split_lines s).1, (split_lines s).2).
Proof.
  intros Hp. rewrite (split_lines_prefix p (nl :: s) Hp). cbn [split_lines]. rewrite Z.eqb_refl. destruct (split_lines s) as [ls r].
  cbn. by rewrite app_nil_r.
Qed.

Lemma finish_lines_run rows p : (Z.of_nat (length rows) < MAXLINES) →
  finish_lines rows (cut p) = Some (rows ++ (cut <$> (if decide (p = []) then [] else [p]))).
Proof.
  intros Hr. unfold finish_lines. destruct p as [|c p]; cbn [decide].
  - rewrite decide_True by done. cbn. by rewrite app_nil_r.
  - rewrite decide_False by done. assert (0 < length (cut (c :: p)))%nat by (unfold cut; change (Z.to_nat (MAXLEN - 1)) with 99%nat; rewrite length_take; cbn [length]; lia).
    by rewrite !(proj2 (Z.ltb_lt _ _)) by lia.
Qed.

Lemma readlines_run inp : ∀ rows p, split_lines p = ([], p) →
  Z.of_nat (length rows + length (split_lines (p ++ inp)).1) < MAXLINES →
  readlines_loop inp rows (cut p) = Some (rows ++ (cut <$> lines_of (p ++ inp))).
Proof.
  induction inp as [|c inp IH]; intros rows p Hp Hn; cbn [readlines_loop].
  - rewrite app_nil_r in *. unfold lines_of. rewrite Hp. cbn [app]. apply finish_lines_run. lia.
  - destruct (Z.eqb_spec c nl) as [->|Hc].
    + unfold lines_of. rewrite split_lines_nl in * by done. cbn [fst length] in Hn.
      rewrite (proj2 (Z.leb_gt _ _)) by (rewrite length_app; cbn [length]; lia).
      change (@nil Z) with (cut []) at 1. rewrite (IH (rows ++ [cut p]) []) by (done || (rewrite length_app; cbn [length app]; lia)).
      cbn [app]. unfold lines_of. destruct (split_lines inp) as [ls r]. cbn [fst snd]. by rewrite <- app_assoc.
    + rewrite cut_snoc. rewrite (IH rows (p ++ [c])) by (rewrite <- ?app_assoc; try done; by apply split_lines_snoc). by rewrite <- app_assoc.
Qed.

(** At [MAXLINES] lines the loop stops with [j] still set. *)
Lemma readlines_overrun_run inp : ∀ rows p, split_lines p = ([], p) → (length rows < 1000)%nat →
  (∃ l, (split_lines (p ++ inp)).1 !! (999 - length rows)%nat = Some l ∧ l ≠ []) →
  readlines_loop inp rows (cut p) = None.
Proof.
  induction inp as [|c inp IH]; intros rows p Hp Hr (l & Hl & Hne); cbn [readlines_loop].
  - rewrite app_nil_r, Hp in Hl. done.
  - destruct (Z.eqb_spec c nl) as [->|Hc].
    + rewrite split_lines_nl in Hl by done. cbn [fst] in Hl. destruct (decide (length rows = 999)%nat) as [E|E].
      * rewrite E in Hl. cbn in Hl. injection Hl as <-.
        assert (Z.of_nat (length (rows ++ [cut p])) = 1000) as El by (rewrite length_app; cbn [length]; lia).
        rewrite El. cbn [Z.leb]. unfold finish_lines. rewrite El.
        assert (0 < length (cut p))%nat by (unfold cut; change (Z.to_nat (MAXLEN - 1)) with 99%nat; rewrite length_take; destruct p; [done|cbn [length]; lia]).
        by rewrite (proj2 (Z.ltb_lt 0 _)) by lia.
      * assert (length (rows ++ [cut p]) = S (length rows)) as El by (rewrite length_app; cbn [length]; lia).
        rewrite El, (proj2 (Z.leb_gt _ _)) by (change MAXLINES with 1000; lia). change (@nil Z) with (cut []). apply IH; [done|lia|].
        exists l. split; [|done]. rewrite El. replace (999 - length rows)%nat with (S (999 - S (length rows))) in Hl by lia. exact Hl.
    + rewrite cut_snoc. apply IH; [by apply split_lines_snoc|done|]. exists l. by rewrite <- app_assoc.
Qed.

Lemma texts_lines inp rows : Forall is_byte inp → readlines inp = Some rows → Forall is_line (texts rows).
Proof.
  assert (∀ l, Forall is_byte l → is_line (cstring l)) as Hc.
  { intros l Hl. unfold cstring. split.
    - induction Hl as [|c l Hc Hl IH]; simpl; [constructor|]. destruct (c =? 0); cbn; [constructor|by constructor].
    - induction l as [|c l IH]; simpl; [apply not_elem_of_nil|]. apply Forall_cons in Hl as [_ Hl].
      destruct (Z.eqb_spec c 0); cbn [negb]; [apply not_elem_of_nil|]. apply not_elem_of_cons. split; [done|by apply IH]. }
  assert (∀ inp rows cur rows', Forall is_byte inp → Forall (Forall is_byte) rows → Forall is_byte cur →
    readlines_loop inp rows cur = Some rows' → Forall (Forall is_byte) rows') as Hr.
  { clear inp rows. induction inp as [|c inp IH]; intros rows cur rows' Hi Hrs Hcur; cbn [readlines_loop].
    - unfold finish_lines. destruct (_ <? _); [destruct (_ <? _); [|done]|]; intros [= <-]; [apply Forall_app; split; [done|by apply Forall_singleton]|done].
    - apply Forall_cons in Hi as [Hc0 Hi]. destruct (c =? nl).
      + destruct (_ <=? _).
        * unfold finish_lines. assert (Forall (Forall is_byte) (rows ++ [cur])) as Ha by (apply Forall_app; split; [done|by apply Forall_singleton]).
          destruct (_ <? _); [destruct (_ <? _); [|done]|]; intros [= <-]; [apply Forall_app; split; [done|by apply Forall_singleton]|done].
        * apply IH; [done|apply Forall_app; split; [done|by apply Forall_singleton]|constructor].
      + apply IH; [done|done|]. destruct (_ <? _); [apply Forall_app; split; [done|by apply Forall_singleton]|done]. }
  intros Hi E. unfold texts. apply Forall_fmap. eapply Forall_impl; [eapply (Hr inp [] []); done || constructor|]. intros l Hl. by apply Hc.
Qed.

(** Sorted, as a list. *)
Definition sorted_lines (l : list (list Z)) : Prop := ∀ i j a b, (i <= j)%nat → l !! i = Some a → l !! j = Some b → le_line a b.

Lemma qsort_all l : Forall is_line l →
  ∃ l', qsort (S (length l)) 0 (Z.of_nat (length l) - 1) l = Some l' ∧ l' ≡ₚ l ∧ sorted_lines l'.
Proof.
  intros Hl. destruct (qsort_run (S (length l)) 0 (Z.of_nat (length l) - 1) l) as (l' & E & S & So); [lia|lia|lia|lia| |].
  { intros k Hk. unfold line_at. destruct (lookup_lt_is_Some_2 l (Z.to_nat k)) as [y Hy]; [lia|]. rewrite Hy. exact (Forall_lookup_1 _ _ _ _ Hl Hy). }
  pose proof (shuffled_length _ _ _ _ S) as El. exists l'. split; [exact E|]. split; [apply S|]. intros i j a b Hij Ha Hb.
  pose proof (lookup_lt_Some _ _ _ Hb) as Hj. pose proof (So (Z.of_nat i) (Z.of_nat j) ltac:(lia) ltac:(lia) ltac:(lia)) as H.
  unfold line_at in H. rewrite !Nat2Z.id, Ha, Hb in H. exact H.
Qed.

(** ** Claims *)

(** [sort] terminates and sorts.  For every input of fewer than 1000 lines the
    recursion of [qsort] ends, with no more nested calls than there are lines, and
    the program writes the lines of the input, each cut at 99 bytes (and at a NUL),
    all of them and each as often as it occurs, in the order of [strcmp]. *)
Theorem sort_correct inp : Forall is_byte inp → Z.of_nat (length (split_lines inp).1) < MAXLINES →
  ∃ l, sort_main inp = Some (concat (println <$> l)) ∧ l ≡ₚ texts (cut <$> lines_of inp) ∧ sorted_lines l.
Proof.
  intros Hb Hn. assert (readlines inp = Some (cut <$> lines_of inp)) as Er by (apply (readlines_run inp [] []); done).
  pose proof (texts_lines inp _ Hb Er) as Hl. unfold sort_main. rewrite Er.
  destruct (qsort_all _ Hl) as (l & E & Hp & Hs). unfold texts in E at 1. rewrite length_fmap in E.
  exists l. assert (length (texts (cut <$> lines_of inp)) = length (cut <$> lines_of inp)) as El by apply length_fmap.
  rewrite El in E. rewrite E. done.
Qed.

Lemma sort_correct_witness :
  let inp := str "pear" ++ [nl] ++ str "fig" ++ [nl] ++ str "apple" in
  ∃ l, sort_main inp = Some (concat (println <$> l)) ∧ l ≡ₚ [str "pear"; str "fig"; str "apple"] ∧ sorted_lines l.
Proof.
  intros inp. apply (sort_correct inp).
  - unfold inp. vm_compute. repeat constructor; discriminate.
  - vm_compute. reflexivity.
Defined.

(** A thousand lines, the last of them not empty: [readlines] stores its NUL in row
    1000 of [content], which has rows 0 to 999, and [sort], [head] and [tail] go on
    with 1001 lines. *)
Theorem readlines_overrun inp l : (split_lines inp).1 !! 999%nat = Some l → l ≠ [] →
  readlines inp = None ∧ sort_main inp = None ∧ (∀ n, head_main n inp = None) ∧ ∀ n, tail_main n inp = None.
Proof.
  intros Hl Hne. assert (readlines inp = None) as E by (apply (readlines_overrun_run inp [] []); [done|cbn; lia|by exists l]).
  unfold sort_main, head_main, tail_main. by rewrite E.
Qed.
