(* ===== verification/User.v ===== *)
(** * User programs

    A user program is a tree of system calls: each node makes a call and goes on with
    its result, [fork] goes on twice.  This file has the calls, user/printf.c and the
    part of user/ulib.c that makes system calls. *)

From S2P Require Import Prelude CString Kernel Printf.

(** ** Programs *)

(** The system calls, with the type of what they give back.  A C string is the list of
    its bytes; [read] gives the bytes, or [None] for -1; [wait] is [wait(0)]; [fstat]
    gives [dev, ino, type, nlink, size] of [struct stat]; [pipe] gives the result and the
    two descriptors. *)
Inductive call : Type → Type :=
  | U_fork : call Z
  | U_wait : call Z
  | U_pipe : call (Z * Z * Z)
  | U_read (fd n : Z) : call (option (list Z))
  | U_write (fd : Z) (bytes : list Z) : call Z
  | U_close (fd : Z) : call Z
  | U_dup (fd : Z) : call Z
  | U_open (path : list Z) (mode : Z) : call Z
  | U_exec (path : list Z) (argv : list (list Z)) : call Z
  | U_chdir (path : list Z) : call Z
  | U_fstat (fd : Z) : call (option (list Z))
  | U_mknod (path : list Z) (major minor : Z) : call Z
  | U_mkdir (path : list Z) : call Z
  | U_link (old new : list Z) : call Z
  | U_unlink (path : list Z) : call Z
  | U_chmod (path : list Z) (mode : Z) : call Z
  | U_kill (pid : Z) : call Z
  | U_sleep (n : Z) : call Z
  | U_getprocs (max : Z) : call (option (list (Z * Z * Z * list Z)))
  | U_exit_qemu : call Z.

(** [Stuck]: the fuel of a loop is used up, or the behaviour is undefined. *)
Inductive prog (A : Type) : Type :=
  | Ret (a : A)
  | Exit (status : Z)
  | Stuck
  | Sys {R : Type} (c : call R) (k : R → prog A).
Arguments Ret {A} _.
Arguments Exit {A} _.
Arguments Stuck {A}.
Arguments Sys {A R} _ _.

Fixpoint pbind {A B} (p : prog A) (k : A → prog B) : prog B :=
  match p with
  | Ret a => k a
  | Exit s => Exit s
  | Stuck => Stuck
  | Sys c f => Sys c (λ r, pbind (f r) k)
  end.

Definition sys {R} (c : call R) : prog R := Sys c Ret.

Declare Scope user_scope.
Notation "'do!' x ':=' m 'in' k" := (pbind m (λ x, k))
  (at level 10, x pattern, m at level 200, k at level 200,
   format "'[v' 'do!'  x  ':='  m  'in' '/' k ']'") : user_scope.
Notation "m1 >>> m2" := (pbind m1 (λ _, m2))
  (at level 199, right associativity, format "'[v' m1  >>> '/' m2 ']'") : user_scope.
#[global] Open Scope user_scope.

(** ** user/printf.c *)

Definition udigits : list Z := str "0123456789ABCDEF".

Definition putc (fd c : Z) : prog unit := sys (U_write fd [c]) >>> Ret tt.

Fixpoint puts (fd : Z) (cs : list Z) : prog unit :=
  match cs with [] => Ret tt | c :: cs => putc fd c >>> puts fd cs end.

(** [do buf[i++] = digits[x % base]; while((x /= base) != 0);] on an [uint]. *)
Fixpoint udigits_loop (fuel : nat) (x base : Z) : list Z :=
  match fuel with
  | O => []
  | S fuel =>
      let c := default 0 (udigits !! Z.to_nat (x mod base)) in
      if x / base =? 0 then [c] else c :: udigits_loop fuel (x / base) base
  end.

(** The bytes that [printint] writes; its argument is converted to [int]. *)
Definition uprintint (xx base : Z) (sgn : bool) : list Z :=
  let xx := s32 xx in
  let neg := sgn && (xx <? 0) in
  let x := u32 (if neg then - xx else xx) in
  rev (udigits_loop 32 x base ++ (if neg then [45] else [])).

Fixpoint uprintptr_loop (n : nat) (x : Z) : list Z :=
  match n with
  | O => []
  | S n => default 0 (udigits !! Z.to_nat (Z.shiftr x 60)) :: uprintptr_loop n (u64 (Z.shiftl x 4))
  end.
Definition uprintptr (x : Z) : list Z := str "0x" ++ uprintptr_loop 16 x.

(** What one conversion writes, and the format and the arguments after it. *)
Definition uconv (word : Z → list Z) (skip : nat) (fmt : list Z) (args : list varg) : option (list Z * list Z * list varg) :=
  match args with
  | VWord z :: args => Some (word z, drop skip fmt, args)
  | _ => None
  end.

Definition uformat_one (fmt : list Z) (args : list varg) : option (list Z * list Z * list varg) :=
  let c0 := default 0 (fmt !! 0%nat) in
  let c1 := if truth c0 then default 0 (fmt !! 1%nat) else 0 in
  let c2 := if truth c1 then default 0 (fmt !! 2%nat) else 0 in
  if c0 =? chr "d" then uconv (λ z, uprintint z 10 true) 1 fmt args
  else if (c0 =? chr "l") && (c1 =? chr "d") then uconv (λ z, uprintint z 10 true) 2 fmt args
  else if (c0 =? chr "l") && (c1 =? chr "l") && (c2 =? chr "d") then uconv (λ z, uprintint z 10 true) 3 fmt args
  else if c0 =? chr "u" then uconv (λ z, uprintint z 10 false) 1 fmt args
  else if (c0 =? chr "l") && (c1 =? chr "u") then uconv (λ z, uprintint z 10 false) 2 fmt args
  else if (c0 =? chr "l") && (c1 =? chr "l") && (c2 =? chr "u") then uconv (λ z, uprintint z 10 false) 3 fmt args
  else if c0 =? chr "x" then uconv (λ z, uprintint z 16 false) 1 fmt args
  else if (c0 =? chr "l") && (c1 =? chr "x") then uconv (λ z, uprintint z 16 false) 2 fmt args
  else if (c0 =? chr "l") && (c1 =? chr "l") && (c2 =? chr "x") then uconv (λ z, uprintint z 16 false) 3 fmt args
  else if c0 =? chr "p" then uconv (λ z, uprintptr (u64 z)) 1 fmt args
  else if c0 =? chr "s" then
    match args with
    | VStr s :: args => Some (default (str "(null)") s, drop 1 fmt, args)
    | _ => None
    end
  else if c0 =? chr "%" then Some ([chr "%"], drop 1 fmt, args)
  else Some ([chr "%"; c0], drop 1 fmt, args).

(** The loop over the format; [fmt] is the string without its NUL. *)
Fixpoint vprintf_loop (fuel : nat) (fd : Z) (fmt : list Z) (args : list varg) : prog unit :=
  match fuel with
  | O => Stuck
  | S fuel =>
      match fmt with
      | [] => Ret tt
      | c :: fmt =>
          if negb (c =? chr "%") then putc fd c >>> vprintf_loop fuel fd fmt args
          else
            match fmt with
            | [] => Ret tt
            | _ =>
                match uformat_one fmt args with
                | None => Stuck
                | Some (o, fmt, args) => puts fd o >>> vprintf_loop fuel fd fmt args
                end
            end
      end
  end.
Definition vprintf (fd : Z) (fmt : list Z) (args : list varg) : prog unit := vprintf_loop (S (length fmt)) fd fmt args.

Definition fprintf (fd : Z) (fmt : string) (args : list varg) : prog unit := vprintf fd (str fmt) args.
Definition printf (fmt : string) (args : list varg) : prog unit := vprintf 1 (str fmt) args.

(** ** user/ulib.c: [start], [gets] and [stat] *)

Definition start (main : prog unit) : prog unit := main >>> Exit 0.

(** [buf] before its NUL: at most [max - 1] bytes, up to a line end or the end of the
    input. *)
Fixpoint gets_loop (fuel : nat) (max : Z) (buf : list Z) : prog (list Z) :=
  match fuel with
  | O => Stuck
  | S fuel =>
      if Z.of_nat (length buf) + 1 <? max then
        do! r := sys (U_read 0 1) in
        match r with
        | Some (c :: _) =>
            let buf := buf ++ [c] in
            if (c =? 10) || (c =? 13) then Ret buf else gets_loop fuel max buf
        | _ => Ret buf
        end
      else Ret buf
  end.
Definition gets (max : Z) : prog (list Z) := gets_loop (S (Z.to_nat max)) max [].

Definition stat (n : list Z) : prog (option (list Z)) :=
  do! fd := sys (U_open n O_RDONLY) in
  if fd <? 0 then Ret None
  else
    do! r := sys (U_fstat fd) in
    sys (U_close fd) >>>
    Ret r.



(** A C string in an array: the bytes before the first NUL. *)
Fixpoint upto_nul (l : list Z) : list Z :=
  match l with [] => [] | c :: l => if c =? 0 then [] else c :: upto_nul l end.

(** A function that does not return, where a value is expected. *)
Definition noreturn {A} (p : prog Empty_set) : prog A := do! x := p in match x with end.
