(* ===== verification/Sh.v ===== *)
(** * user/sh.c: the parser

    Pointers into the command line are offsets into the buffer [buf], which holds the
    [es - s] bytes of the string; the byte at [es] is the NUL.  The state of a parsing
    function is the pointer [ps] points to.  [panic] prints its message and exits.
    [malloc] is taken to succeed: the source uses its result unchecked. *)

From S2P Require Import Prelude CString Kernel Printf Sort.

(** ** Command trees

    [argv] and [eargv] are arrays of [MAXARGS] pointers ended by a null pointer. *)
Definition MAXARGS : Z := 10.
Inductive cmd :=
  | ExecCmd (argv : list (nat * nat))
  | RedirCmd (c : cmd) (file efile : nat) (mode fd : Z)
  | PipeCmd (left_ right_ : cmd)
  | ListCmd (left_ right_ : cmd)
  | BackCmd (c : cmd)
  | ScriptCmd (filename : nat).

Definition whitespace : list Z := [32; 9; 13; 10; 11].
Definition symbols : list Z := str "<|>&;()".

(** ulib.c: whether [strchr(s, c)] is not null; the NUL ends the search. *)
Fixpoint strchr (s : list Z) (c : Z) : bool :=
  match s with [] => false | x :: s => if x =? c then true else strchr s c end.

Section Parser.
Context (buf : list Z).

Definition es : nat := length buf.
Definition ch (s : nat) : Z := default 0 (buf !! s).

(** [while(s < es && p( *s)) s++;] *)
Fixpoint skip_loop (fuel : nat) (p : Z → bool) (s : nat) : nat :=
  match fuel with
  | O => s
  | S fuel => if (s <? es)%nat && p (ch s) then skip_loop fuel p (S s) else s
  end.
Definition skip_white (s : nat) : nat := skip_loop (es - s) (strchr whitespace) s.
Definition skip_word (s : nat) : nat :=
  skip_loop (es - s) (λ c, negb (strchr whitespace c) && negb (strchr symbols c)) s.

(** The token with the addresses of its first byte and of the byte after it. *)
Definition gettoken : M nat (Z * nat * nat) :=
  let! s := get in
  let s := skip_white s in
  let q := s in
  let '(r, s) :=
    (if ch s =? 0 then (ch s, s)
     else if strchr (str "|();&<") (ch s) then (ch s, S s)
     else if ch s =? chr ">" then
       if ch (S s) =? chr ">" then (chr "+", S (S s)) else (ch s, S s)
     else (chr "a", skip_word s)) in
  modify (λ _, skip_white s) ;;;
  ret (r, q, s).

Definition peek (toks : list Z) : M nat bool :=
  let! s := get in
  let s := skip_white s in
  modify (λ _, s) ;;;
  ret (truth (ch s) && strchr toks (ch s)).

(** The functions call each other at most four deep per byte of the string. *)
Definition no_fuel {A} : M nat A := λ t, Asleep t.

Definition redir_mode (tok : Z) : option (Z * Z) :=
  if tok =? chr "<" then Some (O_RDONLY, 0)
  else if tok =? chr ">" then Some (Z.lor (Z.lor O_WRONLY O_CREATE) O_TRUNC, 1)
  else if tok =? chr "+" then Some (Z.lor O_WRONLY O_CREATE, 1)
  else None.

Fixpoint parseredirs_loop (fuel : nat) (c : cmd) : M nat cmd :=
  match fuel with
  | O => no_fuel
  | S fuel =>
      let! b := peek (str "<>") in
      if (b : bool) then
        let! r := gettoken in
        let '(tok, _, _) := r in
        let! r := gettoken in
        let '(tok2, q, eq) := r in
        panic_if (negb (tok2 =? chr "a")) "missing file for redirection" ;;;
        parseredirs_loop fuel
          (match redir_mode tok with Some (mode, fd) => RedirCmd c q eq mode fd | None => c end)
      else ret c
  end.
Definition parseredirs (c : cmd) : M nat cmd := parseredirs_loop (S es) c.

(** [parseexec] keeps a pointer to its [struct execcmd], which by then may be inside
    redirections: the command that is not a redirection. *)
Fixpoint push_arg (q eq : nat) (c : cmd) : cmd :=
  match c with
  | ExecCmd argv => ExecCmd (argv ++ [(q, eq)])
  | RedirCmd c f ef m fd => RedirCmd (push_arg q eq c) f ef m fd
  | c => c
  end.

Fixpoint args_loop (fuel : nat) (r : cmd) (argc : Z) : M nat cmd :=
  match fuel with
  | O => no_fuel
  | S fuel =>
      let! b := peek (str "|)&;") in
      if (b : bool) then ret r
      else
        let! x := gettoken in
        let '(tok, q, eq) := x in
        if tok =? 0 then ret r
        else
          panic_if (negb (tok =? chr "a")) "syntax" ;;;
          let r := push_arg q eq r in
          let argc := argc + 1 in
          panic_if (MAXARGS <=? argc) "too many args" ;;;
          let! r := parseredirs r in
          args_loop fuel r argc
  end.

(** [while(peek(ps, es, "&")) { gettoken(ps, es, 0, 0); cmd = backcmd(cmd); }] *)
Fixpoint backs_loop (fuel : nat) (c : cmd) : M nat cmd :=
  match fuel with
  | O => no_fuel
  | S fuel =>
      let! b := peek (str "&") in
      if (b : bool) then gettoken ;;; backs_loop fuel (BackCmd c) else ret c
  end.

Fixpoint parseline (fuel : nat) : M nat cmd :=
  match fuel with
  | O => no_fuel
  | S fuel =>
      let! c := parsepipe fuel in
      let! c := backs_loop (S es) c in
      let! b := peek (str ";") in
      if (b : bool) then
        gettoken ;;;
        let! r := parseline fuel in
        ret (ListCmd c r)
      else ret c
  end
with parsepipe (fuel : nat) : M nat cmd :=
  match fuel with
  | O => no_fuel
  | S fuel =>
      let! c := parseexec fuel in
      let! b := peek (str "|") in
      if (b : bool) then
        gettoken ;;;
        let! r := parsepipe fuel in
        ret (PipeCmd c r)
      else ret c
  end
with parseexec (fuel : nat) : M nat cmd :=
  match fuel with
  | O => no_fuel
  | S fuel =>
      let! b := peek (str "(") in
      if (b : bool) then parseblock fuel
      else
        let! r := parseredirs (ExecCmd []) in
        args_loop (S es) r 0
  end
with parseblock (fuel : nat) : M nat cmd :=
  match fuel with
  | O => no_fuel
  | S fuel =>
      let! b := peek (str "(") in
      panic_if (negb b) "parseblock" ;;;
      gettoken ;;;
      let! c := parseline fuel in
      let! b := peek (str ")") in
      panic_if (negb b) "syntax - missing )" ;;;
      gettoken ;;;
      parseredirs c
  end.

Definition parse_fuel : nat := 4 * es + 4.
End Parser.

(** [nulterminate]: the buffer with a NUL after every word. *)
Definition put_nul (b : list Z) (p : nat * nat) : list Z := <[snd p := 0]> b.
Fixpoint nulterminate (c : cmd) (b : list Z) : list Z :=
  match c with
  | ExecCmd argv => foldl put_nul b argv
  | RedirCmd c _ efile _ _ => <[efile := 0]> (nulterminate c b)
  | PipeCmd l r | ListCmd l r => nulterminate r (nulterminate l b)
  | BackCmd c => nulterminate c b
  | ScriptCmd _ => b
  end.

(** [fprintf(2, "leftovers: %s\n", s); panic("syntax");] writes what [panic] of this
    message writes. *)
Definition leftovers (s : list Z) : string :=
  ("leftovers: " ++ String.string_of_list_ascii (Ascii.ascii_of_nat <$> (Z.to_nat <$> s)) ++ "
syntax")%string.

(** [parsecmd(s)]: the tree, and the buffer it points into. *)
Definition parsecmd (s : list Z) : outcome nat (cmd * list Z) :=
  (let! c := parseline s (parse_fuel s) in
   let! _ := peek s [] in
   let! p := get in
   panic_if (negb (p =? es s)%nat) (leftovers (drop p s)) ;;;
   ret (c, nulterminate c (s ++ [0]))) (Thread [] 0%nat).
