(* ===== verification/ShSpec.v ===== *)
(** * The language of the shell

    A grammar over tokens, the parser of sh.c as a function on tokens, and the proof
    that the code does on the bytes what this function does on the tokens. *)

From S2P Require Import Prelude CString Kernel Printf Sort Sh.

(** ** Tokens *)

Inductive token := TWord (w : list Z) | TSym (c : Z).

Definition is_white (c : Z) : bool := strchr whitespace c.
Definition is_wordc (c : Z) : bool := negb (strchr whitespace c) && negb (strchr symbols c).

(** The next token and the bytes after it. *)
Definition next_token (l : list Z) : option (token * list Z) :=
  match drop_while is_white l with
  | [] => None
  | c :: l =>
      if strchr (str "|();&<") c then Some (TSym c, l)
      else if c =? chr ">" then
        match l with
        | d :: l' => if d =? chr ">" then Some (TSym (chr "+"), l') else Some (TSym c, l)
        | [] => Some (TSym c, l)
        end
      else Some (TWord (c :: take_while is_wordc l), drop_while is_wordc l)
  end.

Fixpoint lex (n : nat) (l : list Z) : list token :=
  match n with
  | O => []
  | S n => match next_token l with None => [] | Some (k, l) => k :: lex n l end
  end.
Definition tokens (l : list Z) : list token := lex (S (length l)) l.

(** ** Trees and the grammar *)

Inductive tree :=
  | TExec (argv : list (list Z))
  | TRedir (t : tree) (file : list Z) (mode fd : Z)
  | TPipe (l r : tree)
  | TList (l r : tree)
  | TBack (t : tree).

(** The first redirection is the innermost. *)
Definition wrap (rs : list (list Z * Z * Z)) (t : tree) : tree :=
  foldl (λ t r, let '(f, m, fd) := r in TRedir t f m fd) t rs.

(** Words and redirections in any order. *)
Inductive simple : list token → list (list Z) → list (list Z * Z * Z) → Prop :=
  | simple_nil : simple [] [] []
  | simple_word w ts ws rs : simple ts ws rs → simple (TWord w :: ts) (w :: ws) rs
  | simple_redir c f m fd ts ws rs :
      redir_mode c = Some (m, fd) → simple ts ws rs → simple (TSym c :: TWord f :: ts) ws ((f, m, fd) :: rs).

Definition sym (c : string) : token := TSym (chr c).

Inductive gline : list token → tree → Prop :=
  | gline_one ts t n : gpipe ts t → gline (ts ++ replicate n (sym "&")) (Nat.iter n TBack t)
  | gline_seq ts t n ts' t' :
      gpipe ts t → gline ts' t' → gline (ts ++ replicate n (sym "&") ++ sym ";" :: ts') (TList (Nat.iter n TBack t) t')
with gpipe : list token → tree → Prop :=
  | gpipe_one ts t : gexec ts t → gpipe ts t
  | gpipe_more ts t ts' t' : gexec ts t → gpipe ts' t' → gpipe (ts ++ sym "|" :: ts') (TPipe t t')
with gexec : list token → tree → Prop :=
  | gexec_simple ts ws rs : simple ts ws rs → Z.of_nat (length ws) < MAXARGS → gexec ts (wrap rs (TExec ws))
  | gexec_block ts t ts' rs : gline ts t → simple ts' [] rs → gexec (sym "(" :: ts ++ sym ")" :: ts') (wrap rs t).

Scheme gline_mut := Induction for gline Sort Prop
  with gpipe_mut := Induction for gpipe Sort Prop
  with gexec_mut := Induction for gexec Sort Prop.
Combined Scheme grammar_ind from gline_mut, gpipe_mut, gexec_mut.

(** ** The parser on tokens *)

Definition TP (A : Type) : Type := M (list token) A.

(** The first byte of a token that is not a word. *)
Definition tok_char (c : Z) : Z := if c =? chr "+" then chr ">" else c.

Definition tpeek (toks : list Z) : TP bool :=
  gets (λ ts, match ts with TSym c :: _ => strchr toks (tok_char c) | _ => false end).

Definition tnext : TP (option token) := λ t,
  match st t with
  | [] => Ok None t
  | k :: ts => Ok (Some k) (Thread (held t) ts)
  end.

Definition tstop {A} : TP A := λ t, Asleep t.

Definition add_redir (k : option token) (f : list Z) (c : tree) : tree :=
  match k with
  | Some (TSym s) => match redir_mode s with Some (m, fd) => TRedir c f m fd | None => c end
  | _ => c
  end.

Fixpoint tredirs (fuel : nat) (c : tree) : TP tree :=
  match fuel with
  | O => tstop
  | S fuel =>
      let! b := tpeek (str "<>") in
      if (b : bool) then
        let! k := tnext in
        let! f := tnext in
        match f with
        | Some (TWord f) => tredirs fuel (add_redir k f c)
        | _ => panic "missing file for redirection"
        end
      else ret c
  end.

Fixpoint push_word (w : list Z) (t : tree) : tree :=
  match t with
  | TExec ws => TExec (ws ++ [w])
  | TRedir t f m fd => TRedir (push_word w t) f m fd
  | t => t
  end.

Fixpoint targs (n fuel : nat) (r : tree) (argc : Z) : TP tree :=
  match fuel with
  | O => tstop
  | S fuel =>
      let! b := tpeek (str "|)&;") in
      if (b : bool) then ret r
      else
        let! x := tnext in
        match x with
        | None => ret r
        | Some (TSym _) => panic "syntax"
        | Some (TWord w) =>
            let r := push_word w r in
            let argc := argc + 1 in
            panic_if (MAXARGS <=? argc) "too many args" ;;;
            let! r := tredirs n r in
            targs n fuel r argc
        end
  end.

Fixpoint tbacks (fuel : nat) (c : tree) : TP tree :=
  match fuel with
  | O => tstop
  | S fuel =>
      let! b := tpeek (str "&") in
      if (b : bool) then tnext ;;; tbacks fuel (TBack c) else ret c
  end.

(** [n] bounds the loops. *)
Fixpoint tline (n fuel : nat) : TP tree :=
  match fuel with
  | O => tstop
  | S fuel =>
      let! c := tpipe n fuel in
      let! c := tbacks n c in
      let! b := tpeek (str ";") in
      if (b : bool) then tnext ;;; let! r := tline n fuel in ret (TList c r) else ret c
  end
with tpipe (n fuel : nat) : TP tree :=
  match fuel with
  | O => tstop
  | S fuel =>
      let! c := texec n fuel in
      let! b := tpeek (str "|") in
      if (b : bool) then tnext ;;; let! r := tpipe n fuel in ret (TPipe c r) else ret c
  end
with texec (n fuel : nat) : TP tree :=
  match fuel with
  | O => tstop
  | S fuel =>
      let! b := tpeek (str "(") in
      if (b : bool) then tblock n fuel
      else let! r := tredirs n (TExec []) in targs n n r 0
  end
with tblock (n fuel : nat) : TP tree :=
  match fuel with
  | O => tstop
  | S fuel =>
      let! b := tpeek (str "(") in
      panic_if (negb b) "parseblock" ;;;
      tnext ;;;
      let! c := tline n fuel in
      let! b := tpeek (str ")") in
      panic_if (negb b) "syntax - missing )" ;;;
      tnext ;;;
      tredirs n c
  end.

(** ** Lexing *)

Lemma drop_while_length p l : (length (drop_while p l) <= length l)%nat.
Proof. induction l as [|c l IH]; cbn; [lia|]. destruct (p c); cbn; lia. Qed.

Lemma drop_while_drop p l : drop_while p l = drop (length (take_while p l)) l.
Proof. rewrite <- (take_drop_while p l) at 3. by rewrite drop_app_length. Qed.

Lemma drop_while_stop p l c l' : drop_while p l = c :: l' → p c = false.
Proof. induction l as [|d l IH]; cbn; [done|]. destruct (p d) eqn:E; [done|]. by intros [= <- _]. Qed.

Lemma drop_while_idem p l : drop_while p (drop_while p l) = drop_while p l.
Proof. destruct (drop_while p l) as [|c l'] eqn:E; [done|]. cbn. by rewrite (drop_while_stop _ _ _ _ E). Qed.

Lemma take_while_all p l : Forall (λ c, p c = true) (take_while p l).
Proof. induction l as [|c l IH]; cbn; [done|]. destruct (p c) eqn:E; [|done]. by constructor. Qed.

Lemma next_token_white l : next_token (drop_while is_white l) = next_token l.
Proof. unfold next_token. by rewrite drop_while_idem. Qed.

Lemma lex_white n l : lex n (drop_while is_white l) = lex n l.
Proof. destruct n as [|n]; [done|]. cbn [lex]. by rewrite next_token_white. Qed.

Lemma next_token_length l k l' : next_token l = Some (k, l') → (length l' < length l)%nat.
Proof.
  unfold next_token. pose proof (drop_while_length is_white l) as Hl. destruct (drop_while is_white l) as [|c m]; [done|].
  cbn in Hl. pose proof (drop_while_length is_wordc m). destruct (strchr _ c); [intros [= _ <-]; lia|].
  destruct (c =? chr ">"); [|intros [= _ <-]; lia]. destruct m as [|d m]; [intros [= _ <-]; lia|].
  destruct (d =? chr ">"); intros [= _ <-]; cbn in *; lia.
Qed.

Lemma lex_fuel n : ∀ m l, (length l < n)%nat → (length l < m)%nat → lex n l = lex m l.
Proof.
  induction n as [|n IH]; intros [|m] l Hn Hm; try lia. cbn [lex]. destruct (next_token l) as [[k l']|] eqn:E; [|done].
  pose proof (next_token_length _ _ _ E). f_equal. apply IH; lia.
Qed.

Lemma lex_length n : ∀ l, (length (lex n l) <= length l)%nat.
Proof.
  induction n as [|n IH]; intros l; cbn [lex length]; [lia|]. destruct (next_token l) as [[k l']|] eqn:E; cbn [length]; [|lia].
  pose proof (next_token_length _ _ _ E). specialize (IH l'). lia.
Qed.

Lemma strchr_in s c : strchr s c = true ↔ c ∈ s.
Proof.
  induction s as [|x s IH]; cbn; [split; [done|by intros ?%not_elem_of_nil]|]. rewrite elem_of_cons.
  destruct (Z.eqb_spec x c) as [->|Hx]; [split; auto|]. rewrite IH. split; [auto|]. intros [->|?]; done.
Qed.

Section Bytes.
Context (buf : list Z) (Hbuf : Forall (λ c, c ≠ 0) buf).
Local Abbreviation es := (es buf).

Definition rest (s : nat) : list Z := drop s buf.
Arguments rest : simpl never.
Definition toks (s : nat) : list token := lex (S es) (rest s).

(** The pointers are to the word [w], and it ends there. *)
Definition word_at (q eq : nat) (w : list Z) : Prop :=
  (q <= eq)%nat ∧ (eq <= es)%nat ∧ take (eq - q) (rest q) = w ∧ Forall (λ c, is_wordc c = true) w ∧
  (eq = es ∨ is_wordc (ch buf eq) = false).

Lemma ch_rest s : ch buf s = default 0 (head (rest s)).
Proof. unfold ch, rest. rewrite <- (Nat.add_0_r s) at 1. rewrite <- lookup_drop. by destruct (drop s buf). Qed.

Lemma rest_length s : length (rest s) = (es - s)%nat.
Proof. apply length_drop. Qed.

Lemma rest_S s c l : rest s = c :: l → rest (S s) = l.
Proof. intros E. unfold rest in *. replace (S s) with (s + 1)%nat by lia. by rewrite <- drop_drop, E. Qed.

Lemma rest_nil s : (s <= es)%nat → rest s = [] ↔ s = es.
Proof. intros Hs. rewrite <- length_zero_iff_nil, rest_length. lia. Qed.

Lemma ch_nonzero s c l : rest s = c :: l → c ≠ 0 ∧ (s < es)%nat.
Proof.
  intros E. pose proof (rest_length s) as Hl. rewrite E in Hl. cbn in Hl. split; [|lia].
  assert (Forall (λ c, c ≠ 0) (rest s)) as F by (by apply Forall_drop). rewrite E in F. by inversion F.
Qed.

Lemma skip_loop_run p fuel : ∀ s, (s <= es)%nat → (es - s <= fuel)%nat →
  let s' := skip_loop buf fuel p s in
  (s <= s' <= es)%nat ∧ rest s' = drop_while p (rest s) ∧ take (s' - s) (rest s) = take_while p (rest s).
Proof.
  induction fuel as [|fuel IH]; intros s Hs Hf; cbn [skip_loop].
  - assert (s = es) as -> by lia. rewrite (proj2 (rest_nil es ltac:(lia)) eq_refl). by rewrite Nat.sub_diag.
  - destruct (rest s) as [|c l] eqn:E.
    + apply rest_nil in E as ->; [|done]. rewrite (proj2 (Nat.ltb_ge es es)) by lia. cbn.
      split; [lia|]. split; [apply drop_all|]. by rewrite Nat.sub_diag.
    + destruct (ch_nonzero s c l E) as [Hc Hlt]. rewrite (proj2 (Nat.ltb_lt _ _) Hlt), ch_rest, E. cbn [head andb drop_while take_while].
      change (default 0 (Some c)) with c. destruct (p c).
      * specialize (IH (S s) ltac:(lia) ltac:(lia)). cbv zeta in IH |- *. set (s' := skip_loop _ _ _ _) in *.
        destruct IH as (H1 & H2 & H3). rewrite (rest_S _ _ _ E) in H2, H3.
        split; [lia|]. split; [done|]. replace (s' - s)%nat with (S (s' - S s)) by lia. cbn. by rewrite H3.
      * rewrite Nat.sub_diag. cbn. split; [lia|done].
Qed.

Lemma skip_white_run s : (s <= es)%nat → (s <= skip_white buf s <= es)%nat ∧ rest (skip_white buf s) = drop_while is_white (rest s).
Proof. intros Hs. destruct (skip_loop_run is_white (es - s) s Hs ltac:(lia)) as (H1 & H2 & _). done. Qed.

Lemma toks_white s : (s <= es)%nat → toks (skip_white buf s) = toks s.
Proof. intros Hs. unfold toks. rewrite (proj2 (skip_white_run s Hs)). apply lex_white. Qed.

Lemma peek_run cs h s : (s <= es)%nat → Forall (λ c, c ∈ symbols) cs →
  ∃ s', peek buf cs (Thread h s) = Ok (match toks s with TSym c :: _ => strchr cs (tok_char c) | _ => false end) (Thread h s') ∧
    (s <= s' <= es)%nat ∧ toks s' = toks s.
Proof.
  intros Hs Hcs. exists (skip_white buf s). pose proof (skip_white_run s Hs) as [H1 H2]. rewrite (toks_white s Hs).
  split; [|done]. unfold peek. repeat kstep. unfold ret. f_equal. rewrite ch_rest, H2. unfold toks. cbn [lex]. unfold next_token.
  destruct (drop_while is_white (rest s)) as [|c l] eqn:E; [done|]. cbn [head].
  assert (c ≠ 0) as Hc.
  { assert (Forall (λ c, c ≠ 0) (rest (skip_white buf s))) as F by (by apply Forall_drop). rewrite H2 in F. by inversion F. }
  change (default 0 (Some c)) with c. unfold truth. rewrite (proj2 (Z.eqb_neq c 0) Hc). cbn [negb andb].
  destruct (strchr (str "|();&<") c) eqn:Ec.
  { unfold tok_char. destruct (Z.eqb_spec c (chr "+")) as [->|_]; [discriminate Ec|done]. }
  destruct (Z.eqb_spec c (chr ">")) as [->|Hg].
  { destruct l as [|d l]; [done|]. by destruct (d =? chr ">"). }
  destruct (strchr cs c) eqn:Ecs; [|done]. apply strchr_in in Ecs. rewrite Forall_forall in Hcs. apply Hcs in Ecs.
  exfalso. apply Bool.not_true_iff_false in Ec. apply Ec. apply strchr_in.
  change symbols with [60; 124; 62; 38; 59; 40; 41] in Ecs. change (chr ">") with 62 in Hg. change (str "|();&<") with [124; 40; 41; 59; 38; 60].
  set_solver.
Qed.

Lemma is_word_other c : is_white c = false → strchr (str "|();&<") c = false → c ≠ chr ">" → is_wordc c = true.
Proof.
  intros Hw Hs Hg. unfold is_wordc, is_white in *. rewrite Hw. destruct (strchr symbols c) eqn:E; [|done]. exfalso.
  apply strchr_in in E. apply Bool.not_true_iff_false in Hs. apply Hs. apply strchr_in.
  change symbols with [60; 124; 62; 38; 59; 40; 41] in E. change (chr ">") with 62 in Hg. change (str "|();&<") with [124; 40; 41; 59; 38; 60]. set_solver.
Qed.

(** What [gettoken] returns for a token. *)
Definition got (k : option token) (r : Z) (q eq : nat) : Prop :=
  match k with
  | None => r = 0
  | Some (TSym c) => r = c ∧ strchr (str "|();&<>+") c = true
  | Some (TWord w) => r = chr "a" ∧ word_at q eq w
  end.

Lemma rest_default0 s : default 0 (head (rest s)) = 0 → (s <= es)%nat → rest s = [].
Proof. intros H Hs. destruct (rest s) as [|c l] eqn:E; [done|]. destruct (ch_nonzero s c l E) as [Hc _]. by destruct Hc. Qed.

Lemma toks_cons s s' k l : (s <= es)%nat → next_token (rest s) = Some (k, l) → rest s' = l → (s' <= es)%nat → toks s = k :: toks (skip_white buf s').
Proof.
  intros Hs Hn Hr Hs'. rewrite toks_white by done. transitivity (k :: lex es l).
  - unfold toks. cbn [lex]. by rewrite Hn.
  - f_equal. unfold toks. rewrite Hr. pose proof (next_token_length _ _ _ Hn) as Hl. rewrite rest_length in Hl. apply lex_fuel; lia.
Qed.

Lemma gettoken_run h s : (s <= es)%nat →
  ∃ r q eq s', gettoken buf (Thread h s) = Ok (r, q, eq) (Thread h s') ∧ (s <= s' <= es)%nat ∧
    got (head (toks s)) r q eq ∧ toks s' = tail (toks s).
Proof.
  intros Hs. destruct (skip_white_run s Hs) as [Hr Er]. set (q := skip_white buf s) in *.
  assert (∀ r s1 k l, next_token (rest s) = Some (k, l) → rest s1 = l → (q <= s1 <= es)%nat → got (Some k) r q s1 →
    ∃ r' q' eq s', Ok (r, q, s1) (Thread h (skip_white buf s1)) = Ok (r', q', eq) (Thread h s') ∧ (s <= s' <= es)%nat ∧
      got (head (toks s)) r' q' eq ∧ toks s' = tail (toks s)) as Hdone.
  { intros r s1 k l Hn Hl Hs1 Hg. pose proof (toks_cons s s1 k l Hs Hn Hl ltac:(lia)) as Ht. rewrite Ht.
    do 4 eexists. split; [reflexivity|]. split; [|done]. destruct (skip_white_run s1 ltac:(lia)). lia. }
  unfold gettoken. kstep. cbv zeta. cbn [st]. fold q. rewrite !ch_rest, Er. unfold next_token in Hdone.
  destruct (drop_while is_white (rest s)) as [|c l] eqn:E; cbn [head].
  - assert (q = es) as Hq by (apply rest_nil; [lia|done]). change (default 0 None =? 0) with true. cbv iota. repeat kstep.
    destruct (skip_white_run q ltac:(lia)) as [Hr2 Er2]. assert (toks s = []) as Ht by (unfold toks; cbn [lex]; unfold next_token; by rewrite E).
    exists (default 0 None), q, q, (skip_white buf q). split; [reflexivity|]. split; [lia|]. rewrite Ht. split; [done|]. rewrite toks_white by lia.
    unfold q. by rewrite toks_white.
  - change (default 0 (Some c)) with c. destruct (ch_nonzero q c l ltac:(congruence)) as [Hc Hlt]. rewrite (proj2 (Z.eqb_neq c 0) Hc).
    assert (rest (S q) = l) as El by (by eapply rest_S). destruct (strchr (str "|();&<") c) eqn:Es.
    { repeat kstep. eapply Hdone; [reflexivity|done|lia|]. split; [done|]. apply strchr_in. apply strchr_in in Es.
      change (str "|();&<") with [124; 40; 41; 59; 38; 60] in Es. change (str "|();&<>+") with [124; 40; 41; 59; 38; 60; 62; 43]. set_solver. }
    destruct (Z.eqb_spec c (chr ">")) as [Hg|Hg].
    { rewrite El. destruct l as [|d l]; cbn [head].
      - change (default 0 None =? chr ">") with false. cbv iota. repeat kstep. eapply Hdone; [reflexivity|done|lia|by rewrite Hg].
      - change (default 0 (Some d)) with d. destruct (d =? chr ">"); repeat kstep.
        + eapply Hdone; [reflexivity|by eapply rest_S| |by split]. pose proof (rest_length (S q)) as Hl2. rewrite El in Hl2. cbn in Hl2. lia.
        + eapply Hdone; [reflexivity|done|lia|by rewrite Hg]. }
    assert (is_wordc c = true) as Hw by (apply is_word_other; [by eapply drop_while_stop|done|done]).
    destruct (skip_loop_run is_wordc (es - q) q ltac:(lia) ltac:(lia)) as (H1 & H2 & H3).
    change (skip_loop buf (es - q) is_wordc q) with (skip_word buf q) in *. rewrite Er in H2, H3. cbn [take_while drop_while] in H2, H3. rewrite Hw in H2, H3.
    repeat kstep. eapply Hdone; [reflexivity|done|lia|]. split; [done|]. split; [lia|]. split; [lia|]. split; [by rewrite Er|].
    split; [constructor; [done|apply take_while_all]|].
    rewrite ch_rest, H2. destruct (drop_while is_wordc l) as [|d l'] eqn:Ed; [left; apply rest_nil; [lia|congruence]|right].
    by eapply drop_while_stop.
Qed.

(** *** The parser on the bytes does what the parser on the tokens does *)

Definition sim {A B} (R : A → B → Prop) (m : M nat A) (m' : TP B) : Prop := ∀ h s, (s <= es)%nat →
  match m' (Thread h (toks s)) with
  | Ok b t => ∃ a s', m (Thread h s) = Ok a (Thread h s') ∧ (s' <= es)%nat ∧ t = Thread h (toks s') ∧ R a b
  | Panic e => m (Thread h s) = Panic e
  | Asleep _ => ∃ t, m (Thread h s) = Asleep t
  end.

Lemma sim_bind {A B C D} (R : A → B → Prop) (Q : C → D → Prop) m m' k k' :
  sim R m m' → (∀ a b, R a b → sim Q (k a) (k' b)) → sim Q (bind m k) (bind m' k').
Proof.
  intros Hm Hk h s Hs. specialize (Hm h s Hs). unfold bind. destruct (m' _) as [b t|e|t].
  - destruct Hm as (a & s' & -> & Hs' & -> & HR). by apply Hk.
  - by rewrite Hm.
  - destruct Hm as [t' ->]. by eexists.
Qed.

Lemma sim_ret {A B} (R : A → B → Prop) a b : R a b → sim R (ret a) (ret b).
Proof. intros HR h s Hs. by exists a, s. Qed.

Lemma sim_panic {A B} (R : A → B → Prop) e : sim R (panic e) (panic e).
Proof. intros h s Hs. done. Qed.

Lemma sim_stop {A B} (R : A → B → Prop) : sim R no_fuel tstop.
Proof. intros h s Hs. by eexists. Qed.

Lemma sim_skip {A B} (R : A → B → Prop) e (k : unit → M nat A) m' : sim R (k tt) m' → sim R (bind (panic_if false e) k) m'.
Proof. intros H. exact H. Qed.

Lemma sim_panic_if b e : sim eq (panic_if b e) (panic_if b e).
Proof. destruct b; [apply sim_panic|by apply sim_ret]. Qed.

Lemma sim_peek cs : Forall (λ c, c ∈ symbols) cs → sim eq (peek buf cs) (tpeek cs).
Proof.
  intros Hcs h s Hs. destruct (peek_run cs h s Hs Hcs) as (s' & E & Hs' & Ht). unfold tpeek, gets. cbn [st].
  eexists _, s'. split; [exact E|]. split; [lia|]. by rewrite Ht.
Qed.

Lemma sim_next : sim (λ a k, got k a.1.1 a.1.2 a.2) (gettoken buf) tnext.
Proof.
  intros h s Hs. destruct (gettoken_run h s Hs) as (r & q & eq & s' & E & Hs' & Hg & Ht). unfold tnext. cbn [st held].
  destruct (toks s) as [|k ts]; exists (r, q, eq), s'; (split; [exact E|]; split; [lia|]; rewrite Ht; done).
Qed.

(** The trees agree, and every pointer is to its word. *)
Inductive den : cmd → tree → Prop :=
  | den_exec argv ws : Forall2 (λ p w, word_at p.1 p.2 w) argv ws → den (ExecCmd argv) (TExec ws)
  | den_redir c t q eq f m fd : den c t → word_at q eq f → den (RedirCmd c q eq m fd) (TRedir t f m fd)
  | den_pipe l l' r r' : den l l' → den r r' → den (PipeCmd l r) (TPipe l' r')
  | den_list l l' r r' : den l l' → den r r' → den (ListCmd l r) (TList l' r')
  | den_back c t : den c t → den (BackCmd c) (TBack t).

Lemma den_push q eq w c t : den c t → word_at q eq w → den (push_arg q eq c) (push_word w t).
Proof.
  induction 1 as [argv ws Ha| | | |]; intros Hw; cbn [push_arg push_word]; try (constructor; auto; done).
  constructor. apply Forall2_app; [done|]. by constructor.
Qed.

Ltac syms := repeat constructor; apply strchr_in; reflexivity.

Lemma sim_redirs n : ∀ c t, den c t → sim den (parseredirs_loop buf n c) (tredirs n t).
Proof.
  induction n as [|n IH]; intros c t Hc; cbn [parseredirs_loop tredirs]; [apply sim_stop|].
  eapply sim_bind; [apply sim_peek; syms|]. intros b ? <-. destruct b; [|by apply sim_ret].
  eapply sim_bind; [apply sim_next|]. intros [[tok q0] eq0] k Hk. cbn [fst snd] in Hk.
  eapply sim_bind; [apply sim_next|]. intros [[tok2 q] eq] f Hf. cbn [fst snd] in Hf.
  destruct f as [[f|x]|]; cbn [got] in Hf.
  - destruct Hf as [-> Hf]. rewrite Z.eqb_refl. apply (IH _ _). unfold add_redir.
    destruct k as [[w|s]|]; cbn [got] in Hk; [destruct Hk as [-> _]; exact Hc| |by rewrite Hk].
    destruct Hk as [-> _]. destruct (redir_mode s) as [[m fd]|]; [by constructor|done].
  - destruct Hf as [-> Hx]. destruct (Z.eqb_spec x (chr "a")) as [->|_]; [discriminate Hx|]. apply sim_panic.
  - rewrite Hf. apply sim_panic.
Qed.

Lemma sim_args n : ∀ c t argc, den c t → sim den (args_loop buf n c argc) (targs (S es) n t argc).
Proof.
  induction n as [|n IH]; intros c t argc Hc; cbn [args_loop targs]; [apply sim_stop|].
  eapply sim_bind; [apply sim_peek; syms|]. intros b ? <-. destruct b; [by apply sim_ret|].
  eapply sim_bind; [apply sim_next|]. intros [[tok q] eq] k Hk. cbn [fst snd] in Hk.
  destruct k as [[w|x]|]; cbn [got] in Hk.
  - destruct Hk as [-> Hw]. change (chr "a" =? 0) with false. rewrite Z.eqb_refl. apply sim_skip. cbv zeta.
    eapply sim_bind; [apply sim_panic_if|]. intros ? ? _. eapply sim_bind; [apply sim_redirs; by apply den_push|]. intros c' t' Hc'. by apply IH.
  - destruct Hk as [-> Hx]. destruct (Z.eqb_spec x 0) as [->|_]; [discriminate Hx|].
    destruct (Z.eqb_spec x (chr "a")) as [->|_]; [discriminate Hx|]. apply sim_panic.
  - rewrite Hk. by apply sim_ret.
Qed.

Lemma sim_backs n : ∀ c t, den c t → sim den (backs_loop buf n c) (tbacks n t).
Proof.
  induction n as [|n IH]; intros c t Hc; cbn [backs_loop tbacks]; [apply sim_stop|].
  eapply sim_bind; [apply sim_peek; syms|]. intros b ? <-. destruct b; [|by apply sim_ret].
  eapply sim_bind; [apply sim_next|]. intros ? ? _. apply IH. by constructor.
Qed.

Lemma sim_parse n : sim den (parseline buf n) (tline (S es) n) ∧ sim den (parsepipe buf n) (tpipe (S es) n) ∧
  sim den (parseexec buf n) (texec (S es) n) ∧ sim den (parseblock buf n) (tblock (S es) n).
Proof.
  induction n as [|n (IHl & IHp & IHe & IHb)]; [repeat split; apply sim_stop|].
  split; [|split; [|split]].
  - cbn [parseline tline]. eapply sim_bind; [exact IHp|]. intros c t Hc. eapply sim_bind; [by apply sim_backs|]. intros c' t' Hc'.
    eapply sim_bind; [apply sim_peek; syms|]. intros b ? <-. destruct b; [|by apply sim_ret].
    eapply sim_bind; [apply sim_next|]. intros ? ? _. eapply sim_bind; [exact IHl|]. intros c2 t2 Hc2. apply sim_ret. by constructor.
  - cbn [parsepipe tpipe]. eapply sim_bind; [exact IHe|]. intros c t Hc.
    eapply sim_bind; [apply sim_peek; syms|]. intros b ? <-. destruct b; [|by apply sim_ret].
    eapply sim_bind; [apply sim_next|]. intros ? ? _. eapply sim_bind; [exact IHp|]. intros c2 t2 Hc2. apply sim_ret. by constructor.
  - cbn [parseexec texec]. eapply sim_bind; [apply sim_peek; syms|]. intros b ? <-. destruct b; [done|].
    eapply sim_bind; [apply sim_redirs; by constructor|]. intros c t Hc. by apply sim_args.
  - cbn [parseblock tblock]. eapply sim_bind; [apply sim_peek; syms|]. intros b ? <-. eapply sim_bind; [apply sim_panic_if|]. intros ? ? _.
    eapply sim_bind; [apply sim_next|]. intros ? ? _. eapply sim_bind; [exact IHl|]. intros c t Hc.
    eapply sim_bind; [apply sim_peek; syms|]. intros b2 ? <-. eapply sim_bind; [apply sim_panic_if|]. intros ? ? _.
    eapply sim_bind; [apply sim_next|]. intros ? ? _. by apply sim_redirs.
Qed.
End Bytes.
