(* ===== verification/ShParse.v ===== *)
(** * The shell parses its language

    The parser on tokens decides the grammar, [nulterminate] makes every pointer of the
    tree a C string, and with the simulation of [ShSpec] this gives the correctness of
    [parsecmd]. *)

From S2P Require Import Prelude CString Kernel Printf Sort Sh ShSpec.

(** The tokens that may follow a phrase. *)
Definition heads (cs : string) (ts : list token) : Prop :=
  match ts with [] => True | TSym c :: _ => c ∈ str cs | TWord _ :: _ => False end.

Lemma heads_weaken cs ds ts : str cs ⊆ str ds → heads cs ts → heads ds ts.
Proof. destruct ts as [|[w|c] ts]; cbn; auto. Qed.

Lemma tpeek_heads cs ps h ts : heads cs ts → Forall (λ c, strchr ps (tok_char c) = false) (str cs) →
  tpeek ps (Thread h ts) = Ok false (Thread h ts).
Proof.
  intros Hh Hp. unfold tpeek, gets. cbn [st]. destruct ts as [|[w|c] ts]; [done|done|]. cbn in Hh.
  rewrite Forall_forall in Hp. by rewrite (Hp c Hh).
Qed.

Lemma tpeek_true ps h c ts : strchr ps (tok_char c) = true → tpeek ps (Thread h (TSym c :: ts)) = Ok true (Thread h (TSym c :: ts)).
Proof. intros Hc. unfold tpeek, gets. cbn [st]. by rewrite Hc. Qed.

Lemma tpeek_inv ps h ts b t : tpeek ps (Thread h ts) = Ok b t → t = Thread h ts ∧
  (b = true → ∃ c ts', ts = TSym c :: ts' ∧ strchr ps (tok_char c) = true).
Proof. unfold tpeek, gets. cbn [st]. intros [= <- <-]. split; [done|]. destruct ts as [|[w|c] ts]; [done|done|]. intros Hc. by exists c, ts. Qed.

Lemma tnext_cons h k ts : tnext (Thread h (k :: ts)) = Ok (Some k) (Thread h ts).
Proof. done. Qed.

(** Every step of the parser starts with one of these. *)
Ltac tstep :=
  match goal with
  | |- context [bind (tpeek ?ps) ?k (Thread ?h (TSym ?c :: ?ts))] =>
      first [rewrite (bind_Ok (tpeek ps) k _ _ _ (tpeek_true ps h c ts eq_refl))
            |rewrite (bind_Ok (tpeek ps) k (Thread h (TSym c :: ts)) false _ eq_refl)]
  | |- context [bind (tpeek ?ps) ?k (Thread ?h (TWord ?w :: ?ts))] => rewrite (bind_Ok (tpeek ps) k (Thread h (TWord w :: ts)) false _ eq_refl)
  | |- context [bind (tpeek ?ps) ?k (Thread ?h [])] => rewrite (bind_Ok (tpeek ps) k (Thread h []) false _ eq_refl)
  | |- context [bind tnext ?k (Thread ?h [])] => rewrite (bind_Ok tnext k (Thread h []) None _ eq_refl)
  | |- context [bind tnext ?k (Thread ?h (?x :: ?ts))] => rewrite (bind_Ok tnext k _ _ _ (tnext_cons h x ts))
  | |- context [bind (ret ?a) ?k ?t] => rewrite (bind_Ok (ret a) k t _ _ eq_refl)
  | H : heads ?cs ?ts |- context [bind (tpeek ?ps) ?k (Thread ?h ?ts)] =>
      rewrite (bind_Ok (tpeek ps) k _ _ _ (tpeek_heads cs ps h ts H ltac:(repeat constructor)))
  end; cbv beta iota.

Lemma redir_mode_sym c m fd : redir_mode c = Some (m, fd) → c = chr "<" ∨ c = chr ">" ∨ c = chr "+".
Proof.
  unfold redir_mode. destruct (Z.eqb_spec c (chr "<")); [auto|]. destruct (Z.eqb_spec c (chr ">")); [auto|].
  destruct (Z.eqb_spec c (chr "+")); [auto|done].
Qed.

Lemma redir_peek c : strchr (str "<>") (tok_char c) = true → ∃ m fd, redir_mode c = Some (m, fd).
Proof.
  intros H. destruct (decide (c = chr "+")) as [Hc|Hp]; [rewrite Hc; by do 2 eexists|].
  unfold tok_char in H. rewrite (proj2 (Z.eqb_neq c (chr "+")) Hp) in H.
  apply strchr_in in H. change (str "<>") with [chr "<"; chr ">"] in H. rewrite elem_of_cons, list_elem_of_singleton in H.
  destruct H as [-> | ->]; by do 2 eexists.
Qed.

(** ** From the grammar to the parser *)

Definition push_words (ws : list (list Z)) (t : tree) : tree := foldl (λ t w, push_word w t) t ws.

Lemma push_words_redir ws t f m fd : push_words ws (TRedir t f m fd) = TRedir (push_words ws t) f m fd.
Proof. revert t. induction ws as [|w ws IH]; intros t; [done|]. apply IH. Qed.

Lemma push_words_exec ws vs : push_words ws (TExec vs) = TExec (vs ++ ws).
Proof.
  revert vs. induction ws as [|w ws IH]; intros vs; [by rewrite app_nil_r|].
  change (push_words (w :: ws) (TExec vs)) with (push_words ws (TExec (vs ++ [w]))). by rewrite IH, <- app_assoc.
Qed.

Lemma redirs_complete h ts ws rs ts' : simple ts ws rs → ws = [] → heads "|)&;" ts' → ∀ n t, (length ts < n)%nat →
  tredirs n t (Thread h (ts ++ ts')) = Ok (wrap rs t) (Thread h ts').
Proof.
  intros Hs Hws Hf. induction Hs as [|w ts ws rs Hs IH|c f m fd ts ws rs Hc Hs IH]; intros n t Hn; [|done|];
    (destruct n as [|n]; [cbn in Hn; lia|]); cbn [tredirs app].
  - tstep. done.
  - destruct (redir_mode_sym _ _ _ Hc) as [->|[->| ->]]; do 3 tstep; rewrite IH by (done || cbn in Hn; lia); unfold add_redir; by rewrite Hc.
Qed.

Lemma args_complete h ts ws rs ts' : simple ts ws rs → heads "|)&;" ts' → ∀ k n m t argc,
  (length ts < k)%nat → (length ts < n)%nat → (length ts < m)%nat → argc + Z.of_nat (length ws) < MAXARGS →
  (let! r := tredirs k t in targs n m r argc) (Thread h (ts ++ ts')) = Ok (wrap rs (push_words ws t)) (Thread h ts').
Proof.
  intros Hs Hf. induction Hs as [|w ts ws rs Hs IH|c f md fd ts ws rs Hc Hs IH]; intros k n m t argc Hk Hn Hm Ha;
    (destruct k as [|k]; [cbn in Hk; lia|]); (destruct m as [|m]; [cbn in Hm; lia|]); cbn [tredirs app].
  - rewrite bind_assoc. tstep. tstep. cbn [targs]. destruct ts' as [|[w|c] ts']; [tstep; tstep; done|done|]. cbn in Hf.
    change (str "|)&;") with [chr "|"; chr ")"; chr "&"; chr ";"] in Hf. rewrite !elem_of_cons in Hf.
    destruct Hf as [->|[->|[->|[->|Hf]]]]; [tstep; done..|by apply not_elem_of_nil in Hf].
  - rewrite bind_assoc. tstep. tstep. cbn [targs]. do 2 tstep. cbv zeta. cbn [length] in *.
    rewrite (proj2 (Z.leb_gt MAXARGS (argc + 1))) by lia. cbn [panic_if]. tstep. rewrite IH by lia. done.
  - rewrite bind_assoc. cbn [length] in *.
    destruct (redir_mode_sym _ _ _ Hc) as [->|[->| ->]]; tstep; cbv iota; rewrite bind_assoc; tstep; rewrite bind_assoc; tstep;
      rewrite IH by lia; unfold add_redir; rewrite Hc, push_words_redir; done.
Qed.

Lemma backs_complete h k ts' : heads "|);" ts' → ∀ n t, (k < n)%nat →
  tbacks n t (Thread h (replicate k (sym "&") ++ ts')) = Ok (Nat.iter k TBack t) (Thread h ts').
Proof.
  intros Hf. unfold sym. induction k as [|k IH]; intros [|n] t Hn; [lia| |lia|]; cbn [tbacks replicate app].
  - tstep. done.
  - do 2 tstep. rewrite IH by lia. f_equal. by rewrite Nat.iter_succ_r.
Qed.

Lemma heads_backs k ts' : heads "&);" (replicate k (sym "&") ++ ts') ↔ k ≠ 0%nat ∨ heads "&);" ts'.
Proof. destruct k as [|k]; cbn; [split; [auto|intros [?|?]; done]|]. split; [auto|]. intros _. apply strchr_in. reflexivity. Qed.

Definition fuel_for (k : nat) (ts : list token) (fuel : nat) : Prop := (4 * length ts + k <= fuel)%nat.

Ltac lia_fuel := unfold fuel_for in *; rewrite ?length_app, ?length_replicate in *; cbn [length] in *; rewrite ?length_app, ?length_replicate in *; cbn [length] in *; lia.
Ltac in_heads := apply strchr_in; reflexivity.

Lemma complete h :
  (∀ ts t, gline ts t → ∀ ts' n fuel, heads ")" ts' → (length ts < n)%nat → fuel_for 4 ts fuel →
    tline n fuel (Thread h (ts ++ ts')) = Ok t (Thread h ts')) ∧
  (∀ ts t, gpipe ts t → ∀ ts' n fuel, heads "&);" ts' → (length ts < n)%nat → fuel_for 3 ts fuel →
    tpipe n fuel (Thread h (ts ++ ts')) = Ok t (Thread h ts')) ∧
  (∀ ts t, gexec ts t → ∀ ts' n fuel, heads "|&);" ts' → (length ts < n)%nat → fuel_for 2 ts fuel →
    texec n fuel (Thread h (ts ++ ts')) = Ok t (Thread h ts')).
Proof.
  apply grammar_ind.
  - intros ts t k Hp IH ts' n [|fuel] Hf Hn Hfu; [lia_fuel|]. cbn [tline]. rewrite <- app_assoc.
    assert (heads "&);" ts') as Hf2 by (eapply heads_weaken; [|exact Hf]; set_solver).
    assert (heads "|);" ts') as Hf3 by (eapply heads_weaken; [|exact Hf]; set_solver).
    rewrite (bind_Ok _ _ _ _ _ (IH _ n fuel (proj2 (heads_backs k ts') (or_intror Hf2)) ltac:(lia_fuel) ltac:(lia_fuel))).
    rewrite (bind_Ok _ _ _ _ _ (backs_complete h k ts' Hf3 n t ltac:(lia_fuel))). tstep. done.
  - intros ts t k ts2 t2 Hp IH Hl IHl ts' n [|fuel] Hf Hn Hfu; [lia_fuel|]. cbn [tline]. rewrite <- !app_assoc. cbn [app].
    assert (heads "&);" (sym ";" :: ts2 ++ ts')) as Hf2 by in_heads. assert (heads "|);" (sym ";" :: ts2 ++ ts')) as Hf3 by in_heads.
    rewrite (bind_Ok _ _ _ _ _ (IH _ n fuel (proj2 (heads_backs k _) (or_intror Hf2)) ltac:(lia_fuel) ltac:(lia_fuel))).
    rewrite (bind_Ok _ _ _ _ _ (backs_complete h k _ Hf3 n t ltac:(lia_fuel))). unfold sym. do 2 tstep.
    rewrite (bind_Ok _ _ _ _ _ (IHl ts' n fuel Hf ltac:(lia_fuel) ltac:(lia_fuel))). done.
  - intros ts t He IH ts' n [|fuel] Hf Hn Hfu; [lia_fuel|]. cbn [tpipe].
    assert (heads "|&);" ts') as Hf2 by (eapply heads_weaken; [|exact Hf]; set_solver).
    rewrite (bind_Ok _ _ _ _ _ (IH ts' n fuel Hf2 ltac:(lia_fuel) ltac:(lia_fuel))). tstep. done.
  - intros ts t ts2 t2 He IH Hp IHp ts' n [|fuel] Hf Hn Hfu; [lia_fuel|]. cbn [tpipe]. rewrite <- app_assoc. cbn [app].
    assert (heads "|&);" (sym "|" :: ts2 ++ ts')) as Hf2 by in_heads.
    rewrite (bind_Ok _ _ _ _ _ (IH _ n fuel Hf2 ltac:(lia_fuel) ltac:(lia_fuel))). unfold sym. do 2 tstep.
    rewrite (bind_Ok _ _ _ _ _ (IHp ts' n fuel Hf ltac:(lia_fuel) ltac:(lia_fuel))). done.
  - intros ts ws rs Hs Hlen ts' n [|fuel] Hf Hn Hfu; [lia_fuel|]. cbn [texec].
    assert (heads "|)&;" ts') as Hf2 by (eapply heads_weaken; [|exact Hf]; set_solver).
    assert (tpeek (str "(") (Thread h (ts ++ ts')) = Ok false (Thread h (ts ++ ts'))) as Ep.
    { inversion Hs as [|w ? ? ? ?|c f m fd ? ? ? Hc]; subst; [by eapply tpeek_heads; [exact Hf|repeat constructor]|done|].
      by destruct (redir_mode_sym _ _ _ Hc) as [->|[->| ->]]. }
    rewrite (bind_Ok _ _ _ _ _ Ep). cbv beta iota. rewrite (args_complete h ts ws rs ts' Hs Hf2 n n n (TExec []) 0) by lia.
    by rewrite push_words_exec.
  - intros ts t ts2 rs Hl IH Hs ts' n [|[|fuel]] Hf Hn Hfu; [lia_fuel|lia_fuel|]. cbn [texec tblock]. cbn [app]. rewrite <- app_assoc. cbn [app].
    assert (heads "|)&;" ts') as Hf2 by (eapply heads_weaken; [|exact Hf]; set_solver).
    assert (heads ")" (sym ")" :: ts2 ++ ts')) as Hf3 by in_heads. unfold sym at 1. do 2 tstep. cbn [negb panic_if]. do 2 tstep.
    rewrite (bind_Ok _ _ _ _ _ (IH _ n fuel Hf3 ltac:(lia_fuel) ltac:(lia_fuel))). unfold sym. tstep. cbn [negb panic_if]. do 2 tstep.
    apply (redirs_complete h ts2 [] rs ts' Hs eq_refl Hf2). lia_fuel.
Qed.

(** ** From the parser to the grammar

    With enough fuel the parser returns or panics, and what it returns the grammar
    derives from the tokens it used. *)

Definition parsed (h : list lockname) (G : list token → tree → Prop) (o : outcome (list token) tree) (ts0 : list token) : Prop :=
  match o with
  | Ok t th => ∃ ts ts', ts0 = ts ++ ts' ∧ th = Thread h ts' ∧ G ts t
  | Panic _ => True
  | Asleep _ => False
  end.

Lemma simple_app ts1 ts2 ws1 ws2 rs1 rs2 : simple ts1 ws1 rs1 → simple ts2 ws2 rs2 → simple (ts1 ++ ts2) (ws1 ++ ws2) (rs1 ++ rs2).
Proof. induction 1; intros; cbn; [done|constructor; auto..]. Qed.

Lemma wrap_app rs1 rs2 t : wrap (rs1 ++ rs2) t = wrap rs2 (wrap rs1 t).
Proof. apply foldl_app. Qed.

Lemma push_words_wrap ws rs t : push_words ws (wrap rs t) = wrap rs (push_words ws t).
Proof. revert t. induction rs as [|[[f m] fd] rs IH]; intros t; [done|].
  change (push_words ws (wrap rs (TRedir t f m fd)) = wrap rs (TRedir (push_words ws t) f m fd)). by rewrite IH, push_words_redir. Qed.

(** A bind of parsers. *)
Lemma parsed_bind {A} h (m : TP A) (k : A → TP tree) G ts ts0 :
  match m (Thread h ts) with
  | Ok a th => parsed h G (k a th) ts0
  | Panic _ => True
  | Asleep _ => False
  end → parsed h G ((let! a := m in k a) (Thread h ts)) ts0.
Proof. unfold bind. by destruct (m (Thread h ts)). Qed.

Lemma parsed_cut h (m : TP tree) (k : tree → TP tree) G1 G ts0 :
  parsed h G1 (m (Thread h ts0)) ts0 →
  (∀ ts1 ts2 t, ts0 = ts1 ++ ts2 → G1 ts1 t → parsed h G (k t (Thread h ts2)) ts0) → parsed h G ((let! a := m in k a) (Thread h ts0)) ts0.
Proof.
  intros Hm Hk. apply parsed_bind. destruct (m _) as [a th| |]; [|done|done]. destruct Hm as (ts1 & ts2 & E & -> & H1). by eapply Hk.
Qed.

Lemma parsed_weaken h G1 G o ts1 ts0 ts :
  parsed h G1 o ts → ts0 = ts1 ++ ts → (∀ ts2 t, G1 ts2 t → G (ts1 ++ ts2) t) → parsed h G o ts0.
Proof.
  intros Ho -> HG. destruct o as [a th| |]; [|done|done]. destruct Ho as (ts2 & ts3 & -> & -> & H1). exists (ts1 ++ ts2), ts3.
  rewrite app_assoc. auto.
Qed.

Lemma redirs_sound h n : ∀ t ts, (length ts < n)%nat →
  parsed h (λ ts1 t', ∃ rs, simple ts1 [] rs ∧ t' = wrap rs t) (tredirs n t (Thread h ts)) ts.
Proof.
  induction n as [|n IH]; intros t ts Hn; [lia|]. cbn [tredirs]. apply parsed_bind.
  destruct (tpeek (str "<>") (Thread h ts)) as [b th| |] eqn:E; [|done|discriminate E]. apply tpeek_inv in E as [-> Hb]. destruct b.
  - destruct (Hb eq_refl) as (c & ts1 & -> & Hc). destruct (redir_peek c Hc) as (m & fd & Hm). tstep. apply parsed_bind.
    destruct ts1 as [|[f|x] ts1]; [done| |done]. cbn [tnext st held]. unfold tnext. cbn [st held].
    cbn [length] in Hn. eapply parsed_weaken with (ts1 := [TSym c; TWord f]); [apply IH; lia|done|].
    intros ts2 t' (rs & Hs & ->). exists ((f, m, fd) :: rs). split; [by constructor|]. unfold add_redir. by rewrite Hm.
  - exists [], ts. split; [done|]. split; [done|]. exists []. split; [constructor|done].
Qed.

Lemma args_sound h N m : ∀ t argc ts, (length ts < N)%nat → (length ts < m)%nat → argc < MAXARGS →
  parsed h (λ ts1 t', ∃ ws rs, simple ts1 ws rs ∧ t' = wrap rs (push_words ws t) ∧ argc + Z.of_nat (length ws) < MAXARGS)
    (targs N m t argc (Thread h ts)) ts.
Proof.
  induction m as [|m IH]; intros t argc ts HN Hm Ha; [lia|]. cbn [targs].
  assert (parsed h (λ ts1 t', ∃ ws rs, simple ts1 ws rs ∧ t' = wrap rs (push_words ws t) ∧ argc + Z.of_nat (length ws) < MAXARGS)
    (ret t (Thread h ts)) ts) as Hret.
  { exists [], ts. split; [done|]. split; [done|]. exists [], []. split; [constructor|]. split; [done|cbn; lia]. }
  apply parsed_bind. destruct (tpeek (str "|)&;") (Thread h ts)) as [b th| |] eqn:E; [|done|discriminate E]. apply tpeek_inv in E as [-> _].
  destruct b; [exact Hret|]. apply parsed_bind. destruct ts as [|[w|c] ts]; [exact Hret| |done]. unfold tnext. cbn [st held]. cbv zeta.
  destruct (Z.leb_spec MAXARGS (argc + 1)) as [|Hlt]; [done|]. cbn [panic_if]. tstep. cbn [length] in *.
  eapply parsed_weaken with (ts1 := [TWord w]) (ts := ts); [|done|intros ts2 t2 H2; exact H2].
  eapply parsed_cut; [apply redirs_sound; lia|]. intros ts1 ts2 t1 -> (rs & Hs & ->). rewrite length_app in *.
  eapply parsed_weaken; [apply IH; lia|done|]. intros ts3 t3 (ws & rs3 & Hs3 & -> & Hl). exists (w :: ws), (rs ++ rs3).
  split; [|split].
  - cbn [app]. constructor. change ws with ([] ++ ws). by apply simple_app.
  - rewrite push_words_wrap, wrap_app. done.
  - cbn [length]. lia.
Qed.

Lemma backs_sound h n : ∀ t ts, (length ts < n)%nat →
  parsed h (λ ts1 t', ∃ k, ts1 = replicate k (sym "&") ∧ t' = Nat.iter k TBack t) (tbacks n t (Thread h ts)) ts.
Proof.
  induction n as [|n IH]; intros t ts Hn; [lia|]. cbn [tbacks]. apply parsed_bind.
  destruct (tpeek (str "&") (Thread h ts)) as [b th| |] eqn:E; [|done|discriminate E]. apply tpeek_inv in E as [-> Hb]. destruct b.
  - destruct (Hb eq_refl) as (c & ts1 & -> & Hc). tstep. cbn [length] in Hn.
    eapply parsed_weaken with (ts1 := [TSym c]); [apply IH; lia|done|]. intros ts2 t' (k & -> & ->). exists (S k).
    split; [|by rewrite Nat.iter_succ_r]. cbn. f_equal. unfold tok_char in Hc. destruct (c =? chr "+"); [discriminate Hc|].
    apply strchr_in in Hc. change (str "&") with [chr "&"] in Hc. apply list_elem_of_singleton in Hc. by rewrite Hc.
  - exists [], ts. split; [done|]. split; [done|]. by exists 0%nat.
Qed.

Lemma peek_sym ps h c ts b th : tpeek (str ps) (Thread h ts) = Ok b th → length (str ps) = 1%nat → chr ps = c →
  strchr (str "&;|()") c = true → th = Thread h ts ∧ (b = true → ∃ ts', ts = TSym c :: ts').
Proof.
  intros E Hl Hp Hc. apply tpeek_inv in E as [-> Hb]. split; [done|]. intros Ht. destruct (Hb Ht) as (d & ts' & -> & Hd). exists ts'.
  unfold chr in Hp. destruct (str ps) as [|x [|y l]]; try discriminate Hl. cbn in Hp. subst x. apply strchr_in, list_elem_of_singleton in Hd.
  unfold tok_char in Hd. destruct (d =? chr "+"); [rewrite <- Hd in Hc; discriminate Hc|by rewrite Hd].
Qed.

Ltac peeked E c := match type of E with tpeek (str ?ps) (Thread ?h ?ts) = Ok ?b ?th =>
  let F := fresh in pose proof (peek_sym ps h c ts b th E eq_refl eq_refl eq_refl) as F; clear E; rename F into E end.

Lemma sound h fuel : ∀ n ts, (length ts < n)%nat →
  (fuel_for 4 ts fuel → parsed h gline (tline n fuel (Thread h ts)) ts) ∧
  (fuel_for 3 ts fuel → parsed h gpipe (tpipe n fuel (Thread h ts)) ts) ∧
  (fuel_for 2 ts fuel → parsed h gexec (texec n fuel (Thread h ts)) ts) ∧
  (fuel_for 1 ts fuel → parsed h gexec (tblock n fuel (Thread h ts)) ts).
Proof.
  induction fuel as [|fuel IH]; intros n ts Hn; [split; [|split; [|split]]; intros; lia_fuel|]. split; [|split; [|split]]; intros Hfu.
  - cbn [tline]. eapply parsed_cut; [apply IH; [done|lia_fuel]|]. intros ts1 ts2 t -> Hp. eapply parsed_weaken; [|done|intros ts3 t3 H3; exact H3].
    eapply parsed_cut; [apply backs_sound; lia_fuel|]. intros ts3 ts4 t1 -> (k & -> & ->). apply parsed_bind.
    destruct (tpeek (str ";") _) as [b th| |] eqn:E; [|done|discriminate E]. peeked E (chr ";"). destruct E as [-> Hb]. destruct b.
    + destruct (Hb eq_refl) as [ts5 ->]. tstep. unfold parsed at 1.
      pose proof (IH n ts5 ltac:(lia_fuel)) as (Hl & _). specialize (Hl ltac:(lia_fuel)). unfold bind. unfold parsed in Hl.
      destruct (tline n fuel (Thread h ts5)) as [t2 th| |]; [|done|done]. destruct Hl as (ts6 & ts7 & -> & -> & Hl).
      exists (replicate k (sym "&") ++ sym ";" :: ts6), ts7. split; [by rewrite <- !app_assoc|]. split; [done|]. by constructor.
    + exists (replicate k (sym "&")), ts4. split; [done|]. split; [done|]. by constructor.
  - cbn [tpipe]. eapply parsed_cut; [apply IH; [done|lia_fuel]|]. intros ts1 ts2 t -> He. eapply parsed_weaken; [|done|intros ts3 t3 H3; exact H3].
    apply parsed_bind. destruct (tpeek (str "|") _) as [b th| |] eqn:E; [|done|discriminate E]. peeked E (chr "|"). destruct E as [-> Hb]. destruct b.
    + destruct (Hb eq_refl) as [ts5 ->]. tstep. pose proof (IH n ts5 ltac:(lia_fuel)) as (_ & Hl & _). specialize (Hl ltac:(lia_fuel)).
      unfold parsed in Hl |- * at 1. unfold bind. destruct (tpipe n fuel (Thread h ts5)) as [t2 th| |]; [|done|done]. destruct Hl as (ts6 & ts7 & -> & -> & Hl).
      exists (sym "|" :: ts6), ts7. split; [done|]. split; [done|]. by constructor.
    + exists [], ts2. split; [done|]. split; [done|]. rewrite app_nil_r. by constructor.
  - cbn [texec]. apply parsed_bind. destruct (tpeek (str "(") _) as [b th| |] eqn:E; [|done|discriminate E]. peeked E (chr "("). destruct E as [-> _]. destruct b.
    + apply IH; [done|lia_fuel].
    + eapply parsed_cut; [by apply redirs_sound|]. intros ts1 ts2 t -> (rs & Hs & ->). eapply parsed_weaken; [apply args_sound; [lia_fuel|lia_fuel|done]|done|].
      intros ts3 t3 (ws & rs3 & Hs3 & -> & Hl). rewrite push_words_wrap, push_words_exec, <- wrap_app. cbn [app]. constructor; [|lia].
      change ws with ([] ++ ws). by apply simple_app.
  - cbn [tblock]. apply parsed_bind. destruct (tpeek (str "(") _) as [b th| |] eqn:E; [|done|discriminate E]. peeked E (chr "("). destruct E as [-> Hb].
    destruct b; [|done]. destruct (Hb eq_refl) as [ts1 ->]. cbn [negb panic_if]. do 2 tstep. eapply parsed_weaken with (ts1 := [sym "("]) (ts := ts1); [|done|intros ts3 t3 H3; exact H3].
    eapply parsed_cut; [apply IH; lia_fuel|]. intros ts2 ts3 t -> Hl. apply parsed_bind.
    destruct (tpeek (str ")") _) as [b th| |] eqn:E; [|done|discriminate E]. peeked E (chr ")"). destruct E as [-> Hb2].
    destruct b; [|done]. destruct (Hb2 eq_refl) as [ts4 ->]. cbn [negb panic_if]. do 2 tstep. eapply parsed_weaken with (ts1 := ts2 ++ [sym ")"]) (ts := ts4).
    + apply redirs_sound. lia_fuel.
    + by rewrite <- app_assoc.
    + intros ts5 t5 (rs & Hs & ->). cbn [app]. rewrite <- app_assoc. cbn [app]. by constructor.
Qed.

(** ** The strings of a tree after [nulterminate] *)

(** The C string at an address of the buffer. *)
Definition cstring (b : list Z) (q : nat) : list Z := take_while (λ c, negb (c =? 0)) (drop q b).

Fixpoint strings (b : list Z) (c : cmd) : tree :=
  match c with
  | ExecCmd argv => TExec ((λ p, cstring b p.1) <$> argv)
  | RedirCmd c file _ mode fd => TRedir (strings b c) (cstring b file) mode fd
  | PipeCmd l r => TPipe (strings b l) (strings b r)
  | ListCmd l r => TList (strings b l) (strings b r)
  | BackCmd c => TBack (strings b c)
  | ScriptCmd f => TExec []
  end.

(** The parser makes no script commands. *)
Fixpoint no_script (c : cmd) : Prop :=
  match c with
  | ExecCmd _ => True
  | RedirCmd c _ _ _ _ | BackCmd c => no_script c
  | PipeCmd l r | ListCmd l r => no_script l ∧ no_script r
  | ScriptCmd _ => False
  end.

Lemma den_no_script buf c t : den buf c t → no_script c.
Proof. induction 1; cbn; auto. Qed.

Section Nul.
Context (buf : list Z) (Hbuf : Forall (λ c, c ≠ 0) buf).
Local Abbreviation es := (es buf).

(** The bytes of words are as they were. *)
Definition words_kept (b : list Z) : Prop :=
  length b = S es ∧ ∀ i, (i < es)%nat → is_wordc (ch buf i) = true → b !! i = Some (ch buf i).

Definition zero_at (b : list Z) (i : nat) : Prop := b !! i = Some 0.

Lemma ch_lookup i : (i < es)%nat → buf !! i = Some (ch buf i).
Proof. intros Hi. unfold ch. destruct (lookup_lt_is_Some_2 buf i Hi) as [c Hc]. by rewrite Hc. Qed.

Lemma words_kept_init : words_kept (buf ++ [0]).
Proof.
  split; [rewrite length_app; cbn; unfold Sh.es; lia|]. intros i Hi _. rewrite lookup_app_l by done. by apply ch_lookup.
Qed.

Lemma words_kept_put b q eq w : words_kept b → word_at buf q eq w → words_kept (<[eq := 0]> b) ∧ zero_at (<[eq := 0]> b) eq.
Proof.
  intros [Hl Hk] (_ & He & _ & _ & Hend). unfold zero_at. split; [|apply list_lookup_insert_eq; lia].
  split; [by rewrite length_insert|]. intros i Hi Hw. destruct (decide (i = eq)) as [->|]; [|rewrite list_lookup_insert_ne by done; auto].
  destruct Hend as [->|Hend]; [lia|congruence].
Qed.

Lemma zero_kept b i j : zero_at b i → zero_at (<[j := 0]> b) i.
Proof.
  unfold zero_at. intros H. destruct (decide (i = j)) as [->|]; [|by rewrite list_lookup_insert_ne].
  apply list_lookup_insert_eq. by eapply lookup_lt_Some.
Qed.

Lemma take_while_stop p l r : Forall (λ c, p c = true) l → p 0 = false → take_while p (l ++ 0 :: r) = l.
Proof. induction 1 as [|c l Hc Hl IH]; intros Hp; cbn; [by rewrite Hp|]. by rewrite Hc, IH. Qed.

Lemma cstring_word b q eq w : words_kept b → word_at buf q eq w → zero_at b eq → cstring b q = w.
Proof.
  intros [Hl Hk] (Hq & He & Hw & Hws & _) Hz.
  assert (take (eq - q) (drop q b) = w) as Et.
  { rewrite <- Hw. apply list_eq. intros i. unfold rest. destruct (decide (i < eq - q)%nat) as [Hi|Hi]; [|by rewrite !lookup_take_ge by lia].
    rewrite !lookup_take_lt, !lookup_drop by done. rewrite (ch_lookup (q + i)) by lia. apply Hk; [lia|].
    rewrite Forall_forall in Hws. apply Hws. rewrite <- Hw. apply list_elem_of_lookup. exists i. unfold rest.
    rewrite lookup_take_lt, lookup_drop by done. apply ch_lookup. lia. }
  assert (drop (eq - q) (drop q b) = 0 :: drop (S eq) b) as Ed.
  { rewrite drop_drop. replace (q + (eq - q))%nat with eq by lia. apply drop_S. exact Hz. }
  unfold cstring. rewrite <- (take_drop (eq - q) (drop q b)), Et, Ed. apply take_while_stop; [|done].
  assert (Forall (λ c, c ≠ 0) w) as Hnz by (rewrite <- Hw; by apply Forall_take, Forall_drop).
  eapply Forall_impl; [exact Hnz|]. intros c Hc. by rewrite (proj2 (Z.eqb_neq c 0) Hc).
Qed.

(** The buffers that [nulterminate] may still turn [b] into. *)
Definition later (b b' : list Z) : Prop := words_kept b' ∧ ∀ i, zero_at b i → zero_at b' i.

Lemma nulterminate_run c t : den buf c t → ∀ b, words_kept b →
  later b (nulterminate c b) ∧ ∀ b', later (nulterminate c b) b' → strings b' c = t.
Proof.
  induction 1 as [argv ws Ha|c t q eq f m fd Hc IH Hf|l l' r r' Hl IHl Hr IHr|l l' r r' Hl IHl Hr IHr|c t Hc IH]; intros b Hb; cbn [nulterminate strings].
  - assert (later b (foldl put_nul b argv) ∧ ∀ b', later (foldl put_nul b argv) b' → (λ p, cstring b' p.1) <$> argv = ws) as [H1 H2].
    { revert b Hb. induction Ha as [|[q eq] w argv ws Hw Ha IH]; intros b Hb; [split; [by split|done]|].
      destruct (words_kept_put b q eq w Hb Hw) as [Hb1 Hz]. destruct (IH _ Hb1) as [[H1 H2] H3]. cbn [foldl]. unfold put_nul at 2 4. cbn [snd].
      split; [split; [done|]; intros i Hi; by apply H2, zero_kept|]. intros b' Hb'. cbn. rewrite H3 by done. f_equal.
      destruct Hb' as [Hk Hzk]. eapply cstring_word; [done|exact Hw|]. by apply Hzk, H2. }
    split; [done|]. intros b' Hb'. by rewrite H2.
  - destruct (IH b Hb) as [[H1 H2] H3]. destruct (words_kept_put _ q eq f H1 Hf) as [Hk Hz].
    split; [split; [done|]; intros i Hi; by apply zero_kept, H2|]. intros b' [Hk' Hz'].
    rewrite H3 by (split; [done|]; intros i Hi; by apply Hz', zero_kept). f_equal. eapply cstring_word; [done|exact Hf|]. by apply Hz'.
  - destruct (IHl b Hb) as [[H1 H2] H3]. destruct (IHr _ H1) as [[H4 H5] H6]. split; [split; [done|]; auto|].
    intros b' [Hk Hz]. rewrite H6, H3; [done|split; auto|split; auto].
  - destruct (IHl b Hb) as [[H1 H2] H3]. destruct (IHr _ H1) as [[H4 H5] H6]. split; [split; [done|]; auto|].
    intros b' [Hk Hz]. rewrite H6, H3; [done|split; auto|split; auto].
  - destruct (IH b Hb) as [H1 H2]. split; [done|]. intros b' Hb'. by rewrite H2.
Qed.
End Nul.

(** ** [parsecmd] *)

Lemma toks_nil s p : Forall (λ c, c ≠ 0) s → (p <= es s)%nat → toks s p = [] → skip_white s p = es s.
Proof.
  intros Hs Hp Ht. destruct (skip_white_run s Hs p Hp) as [H1 H2]. apply (rest_nil s); [lia|]. rewrite H2.
  unfold toks in Ht. cbn [lex] in Ht. unfold next_token in Ht. destruct (drop_while is_white (rest s p)) as [|c l]; [done|].
  destruct (strchr _ c); [done|]. destruct (c =? chr ">"); [|done]. destruct l as [|d l]; [done|]. by destruct (d =? chr ">").
Qed.

(** [parsecmd] after [parseline]. *)
Definition parse_end (s : list Z) (c : cmd) : M nat (cmd * list Z) :=
  let! _ := peek s [] in
  let! p := get in
  panic_if (negb (p =? es s)%nat) (leftovers (drop p s)) ;;;
  ret (c, nulterminate c (s ++ [0])).

Lemma parse_end_run s c p : Forall (λ c, c ≠ 0) s → (p <= es s)%nat →
  parse_end s c (Thread [] p) = if decide (toks s p = []) then Ok (c, nulterminate c (s ++ [0])) (Thread [] (es s)) else Panic (leftovers (drop (skip_white s p) s)).
Proof.
  intros Hs Hp. unfold parse_end, peek. repeat kstep. cbn [st]. pose proof (toks_white s Hs p Hp) as Ht. unfold panic_if.
  case_decide as Hd.
  - rewrite (toks_nil s p Hs Hp Hd), Nat.eqb_refl. done.
  - destruct (Nat.eqb_spec (skip_white s p) (es s)) as [He|_]; [|done]. exfalso. apply Hd. rewrite <- Ht, He. unfold toks, rest, es. by rewrite drop_all.
Qed.

Lemma parsecmd_run s : Forall (λ c, c ≠ 0) s →
  match parsecmd s with
  | Ok (c, b) _ => gline (tokens s) (strings b c) ∧ no_script c
  | Panic _ => ¬ ∃ t, gline (tokens s) t
  | Asleep _ => False
  end ∧ ∀ t, gline (tokens s) t → ∃ c b th, parsecmd s = Ok (c, b) th ∧ strings b c = t.
Proof.
  intros Hs. pose proof (proj1 (sim_parse s Hs (parse_fuel s)) [] 0%nat ltac:(lia)) as Hl. change (toks s 0) with (tokens s) in Hl.
  assert (length (tokens s) <= es s)%nat as Hlen by apply lex_length.
  pose proof (proj1 (sound [] (parse_fuel s) (S (es s)) (tokens s) ltac:(lia)) ltac:(unfold fuel_for, parse_fuel; lia)) as Hsd.
  assert (∀ t, gline (tokens s) t → tline (S (es s)) (parse_fuel s) (Thread [] (tokens s)) = Ok t (Thread [] [])) as Hcp.
  { intros t H. rewrite <- (app_nil_r (tokens s)) at 1. apply (complete []); [done|done|lia|unfold fuel_for, parse_fuel; lia]. }
  assert (parsecmd s = (let! c := parseline s (parse_fuel s) in parse_end s c) (Thread [] 0%nat)) as E by reflexivity. rewrite E.
  destruct (tline _ _ _) as [t th|e|th]; [|unfold bind; rewrite Hl; split; [intros [t Ht]|intros t Ht]; discriminate (Hcp t Ht)|done].
  destruct Hl as (c & p & E1 & Hp & -> & Hd). destruct Hsd as (ts & ts' & Ets & [= <-] & Hg).
  rewrite (bind_Ok _ _ _ _ _ E1), (parse_end_run s c p Hs Hp).
  destruct (nulterminate_run s Hs c t Hd (s ++ [0]) (words_kept_init s)) as [[H1 H0] H2].
  case_decide as Hn.
  - rewrite Hn, app_nil_r in Ets. rewrite H2 by (split; auto). split; [rewrite Ets; split; [done|by eapply den_no_script]|]. intros t' Ht'. apply Hcp in Ht'. injection Ht' as -> _.
    do 3 eexists. split; [reflexivity|]. apply H2. split; auto.
  - split; [intros [t' Ht']|intros t' Ht']; apply Hcp in Ht'; injection Ht' as _ Hn'; done.
Qed.

(** C17: the parser of the shell decides its grammar.  For every command line without a
    NUL, [parsecmd] returns or panics, it returns exactly when the grammar derives the
    tokens of the line, and then the tree it returns is the only one the grammar
    derives, every pointer of it being, once [nulterminate] is done, to the C string
    of its word. *)
Theorem parsecmd_correct s : Forall (λ c, c ≠ 0) s →
  (∃ c b th, parsecmd s = Ok (c, b) th ∧ gline (tokens s) (strings b c) ∧ ∀ t, gline (tokens s) t → t = strings b c) ∨
  (∃ msg, parsecmd s = Panic msg ∧ ¬ ∃ t, gline (tokens s) t).
Proof.
  intros Hs. destruct (parsecmd_run s Hs) as [H1 H2]. destruct (parsecmd s) as [[c b] th|msg|th]; [left|right|done].
  - exists c, b, th. split; [done|]. split; [by destruct H1|]. intros t Ht. destruct (H2 t Ht) as (c' & b' & th' & [= -> -> ->] & Hb). done.
  - by exists msg.
Qed.

(** A line with redirections, a pipe and a background job. *)
Lemma parsecmd_correct_witness :
  let s := str "ls -l|grep a>f;(b)&" in
  ∃ c b th, parsecmd s = Ok (c, b) th ∧ gline (tokens s) (strings b c) ∧
    strings b c = TList (TPipe (TExec [str "ls"; str "-l"]) (TRedir (TExec [str "grep"; str "a"]) (str "f") 1537 1)) (TBack (TExec [str "b"])).
Proof.
  cbv zeta. set (s := str "ls -l|grep a>f;(b)&"). assert (Forall (λ c, c ≠ 0) s) as Hs by (repeat constructor; discriminate).
  destruct (parsecmd_correct s Hs) as [(c & b & th & E & Hg & _)|(msg & E & _)]; [|vm_compute in E; discriminate E].
  exists c, b, th. split; [exact E|]. split; [exact Hg|].
  vm_compute in E. injection E as <- <- _. vm_compute. reflexivity.
Defined.
