(* ===== verification/ShRun.v ===== *)
(** * user/sh.c: running commands

    [runcmd] over the command trees of the parser, scripts and the main loop; and the
    proof that every program the shell starts has the descriptors the command line
    asks for. *)

From S2P Require Import Prelude CString Kernel Printf Sort User Sh ShSpec ShParse.

Definition MAXSCRIPT : Z := 1024.

Definition panic {A} (s : string) : prog A :=
  fprintf 2 "%s
" [VStr (Some (str s))] >>>
  Exit 1.

Definition fork1 : prog Z :=
  do! pid := sys U_fork in
  if pid =? -1 then panic "fork" else Ret pid.

(** [runcmd(parsecmd(s))]; a parser panic ends the process. *)
Definition parse_and (run : list Z → cmd → prog Empty_set) (s : list Z) : prog Empty_set :=
  match parsecmd s with
  | Ok (c, b) _ => run b c
  | Panic msg => panic msg
  | Asleep _ => Stuck
  end.

Section Run.
Context (execscript : list Z → prog unit).

Fixpoint runcmd (b : list Z) (c : cmd) : prog Empty_set :=
  match c with
  | ExecCmd argv =>
      match argv with
      | [] => Exit 1
      | (q, _) :: _ =>
          sys (U_exec (cstring b q) ((λ p, cstring b p.1) <$> argv)) >>>
          fprintf 2 "exec %s failed
" [VStr (Some (cstring b q))] >>>
          Exit 0
      end
  | RedirCmd c file _ mode fd =>
      sys (U_close fd) >>>
      do! r := sys (U_open (cstring b file) mode) in
      if r <? 0 then
        fprintf 2 "open %s failed
" [VStr (Some (cstring b file))] >>>
        Exit 1
      else runcmd b c
  | ListCmd l r =>
      do! pid := fork1 in
      if pid =? 0 then runcmd b l
      else sys U_wait >>> runcmd b r
  | PipeCmd l r =>
      do! p := sys U_pipe in
      let '(res, p0, p1) := p in
      if res <? 0 then panic "pipe"
      else
        do! pid := fork1 in
        if pid =? 0 then
          sys (U_close 1) >>>
          sys (U_dup p1) >>>
          sys (U_close p0) >>>
          sys (U_close p1) >>>
          runcmd b l
        else
          do! pid := fork1 in
          if pid =? 0 then
            sys (U_close 0) >>>
            sys (U_dup p0) >>>
            sys (U_close p0) >>>
            sys (U_close p1) >>>
            runcmd b r
          else
            sys (U_close p0) >>>
            sys (U_close p1) >>>
            sys U_wait >>>
            sys U_wait >>>
            Exit 0
  | BackCmd c =>
      do! pid := fork1 in
      if pid =? 0 then runcmd b c else Exit 0
  | ScriptCmd filename =>
      execscript (cstring b filename) >>>
      Exit 0
  end.
End Run.

(** The loop of [execscript]; [buf] is what was read of the current line. *)
Fixpoint script_loop (run : list Z → prog Empty_set) (fuel : nat) (fd : Z) (buf : list Z) : prog unit :=
  match fuel with
  | O => Stuck
  | S fuel =>
      do! r := sys (U_read fd 1) in
      match r with
      | Some (c :: _) =>
          if c =? 10 then
            (if 0 <? Z.of_nat (length (upto_nul buf)) then
               do! pid := fork1 in
               if pid =? 0 then noreturn (run (upto_nul buf))
               else sys U_wait >>> Ret tt
             else Ret tt) >>>
            script_loop run fuel fd []
          else
            let buf := buf ++ [c] in
            if MAXSCRIPT - 1 <=? Z.of_nat (length buf) then
              fprintf 2 "script too long
" [] >>>
              Exit 1
            else script_loop run fuel fd buf
      | _ => sys (U_close fd) >>> Ret tt
      end
  end.

(** [fuel] bounds the bytes of a script and the nesting of scripts. *)
Fixpoint execscript (fuel : nat) (filename : list Z) : prog unit :=
  match fuel with
  | O => Stuck
  | S fuel =>
      do! fd := sys (U_open filename O_RDONLY) in
      if fd <? 0 then
        fprintf 2 "cannot open script %s
" [VStr (Some filename)] >>>
        Exit 1
      else script_loop (parse_and (runcmd (execscript fuel))) fuel fd []
  end.

(** The line without its NUL; [None] for -1. *)
Definition getcmd (nbuf : Z) : prog (option (list Z)) :=
  sys (U_write 2 (str "$ ")) >>>
  do! buf := gets nbuf in
  Ret (if default 0 (head buf) =? 0 then None else Some (upto_nul buf)).

Fixpoint open_console (fuel : nat) : prog unit :=
  match fuel with
  | O => Stuck
  | S fuel =>
      do! fd := sys (U_open (str "console") O_RDWR) in
      if 0 <=? fd then
        if 3 <=? fd then sys (U_close fd) >>> Ret tt else open_console fuel
      else Ret tt
  end.

(** [buf[strlen(buf)-1] = 0;] *)
Definition chop (buf : list Z) : list Z := removelast buf.

Definition starts (s : string) (buf : list Z) : bool := bool_decide (take (length (str s)) buf = str s).

Fixpoint command_loop (fuel : nat) : prog unit :=
  match fuel with
  | O => Stuck
  | S fuel =>
      do! r := getcmd 100 in
      match r with
      | None => Ret tt
      | Some buf =>
          if starts "cd " buf then
            let dir := drop 3 (chop buf) in
            do! r := sys (U_chdir dir) in
            (if r <? 0 then fprintf 2 "cannot cd %s
" [VStr (Some dir)] else Ret tt) >>>
            command_loop fuel
          else if starts "./" buf then
            do! pid := fork1 in
            if pid =? 0 then execscript fuel (drop 2 (chop buf)) >>> Exit 1
            else sys U_wait >>> command_loop fuel
          else
            do! pid := fork1 in
            if pid =? 0 then noreturn (parse_and (runcmd (execscript fuel)) buf)
            else sys U_wait >>> command_loop fuel
      end
  end.

Definition main (fuel : nat) : prog unit :=
  open_console 4 >>>
  command_loop fuel >>>
  Exit 0.

(** ** The programs a command line starts *)

(** What a descriptor is for. *)
Inductive chan := Std (n : Z) | File_ (path : list Z) (mode : Z) | PipeR (n : nat) | PipeW (n : nat).

Definition fdt : Type := list (option chan).

(** A program that is started, with its arguments and its descriptors. *)
Definition event : Type := list (list Z) * fdt.

Section Wiring.
Context (open_ok : list Z → Z → bool) (exec_ok : list Z → bool).

Definition free_fd (fds : fdt) : option nat := fst <$> list_find (λ o, o = None) fds.

(** A call as the kernel makes it, on the descriptors and the number of pipes made:
    descriptors are the lowest free ones.  [go] is the rest of the program. *)
Definition give (fds : fdt) (n : nat) (x : chan) (go : Z → fdt → nat → list event * nat) : list event * nat :=
  match free_fd fds with
  | None => go (-1) fds n
  | Some fd => go (Z.of_nat fd) (<[fd := Some x]> fds) n
  end.

Definition handle {R} (c : call R) : fdt → nat → (R → fdt → nat → list event * nat) → list event * nat :=
  match c with
  | U_fork => λ fds n go,
      let '(l1, n) := go 0 fds n in
      let '(l2, n) := go 1 fds n in (l1 ++ l2, n)
  | U_wait => λ fds n go, go 1 fds n
  | U_pipe => λ fds n go,
      match free_fd fds with
      | None => go (-1, 0, 0) fds n
      | Some r =>
          let fds1 := <[r := Some (PipeR n)]> fds in
          match free_fd fds1 with
          | None => go (-1, 0, 0) fds n
          | Some w => go (0, Z.of_nat r, Z.of_nat w) (<[w := Some (PipeW n)]> fds1) (S n)
          end
      end
  | U_read _ _ => λ fds n go, go None fds n
  | U_write _ bytes => λ fds n go, go (Z.of_nat (length bytes)) fds n
  | U_close fd => λ fds n go, go 0 (<[Z.to_nat fd := None]> fds) n
  | U_dup fd => λ fds n go,
      match default None (fds !! Z.to_nat fd) with
      | None => go (-1) fds n
      | Some x => give fds n x go
      end
  | U_open path mode => λ fds n go, if open_ok path mode then give fds n (File_ path mode) go else go (-1) fds n
  | U_exec path argv => λ fds n go, if exec_ok path then ([(argv, fds)], n) else go (-1) fds n
  | U_fstat _ => λ fds n go, go None fds n
  | U_getprocs _ => λ fds n go, go None fds n
  | U_chdir _ | U_mknod _ _ _ | U_mkdir _ | U_link _ _ | U_unlink _ | U_chmod _ _ | U_kill _ | U_sleep _ | U_exit_qemu =>
      λ fds n go, go (-1) fds n
  end.

(** The programs started by a program and its children. *)
Fixpoint execs {A} (p : prog A) (fds : fdt) (n : nat) : list event * nat :=
  match p with
  | Ret _ | Exit _ | Stuck => ([], n)
  | Sys c k => handle c fds n (λ r, execs (k r))
  end.

(** *** What the command line asks for

    [i], [o] and [e] are the standard input, output and error of the command; [n]
    counts the pipes. *)
Fixpoint wires (t : tree) (i o e : chan) (n : nat) : list (list (list Z) * (chan * chan * chan)) * nat :=
  match t with
  | TExec argv =>
      match argv with
      | [] => ([], n)
      | path :: _ => (if exec_ok path then [(argv, (i, o, e))] else [], n)
      end
  | TRedir t file mode fd =>
      if open_ok file mode then
        if fd =? 0 then wires t (File_ file mode) o e n else wires t i (File_ file mode) e n
      else ([], n)
  | TPipe l r =>
      let '(ls, m) := wires l i (PipeW n) e (S n) in
      let '(rs, m) := wires r (PipeR n) o e m in
      (ls ++ rs, m)
  | TList l r =>
      let '(ls, m) := wires l i o e n in
      let '(rs, m) := wires r i o e m in
      (ls ++ rs, m)
  | TBack t => wires t i o e n
  end.

(** Standard input, output and error, and nothing else. *)
Definition stdio (i o e : chan) : fdt := [Some i; Some o; Some e] ++ replicate 13 None.

(** Redirections of the standard input and output only. *)
Fixpoint std_redirs (t : tree) : Prop :=
  match t with
  | TExec _ => True
  | TRedir t _ _ fd => (fd = 0 ∨ fd = 1) ∧ std_redirs t
  | TPipe l r | TList l r => std_redirs l ∧ std_redirs r
  | TBack t => std_redirs t
  end.

Lemma std_wrap rs t ts ws : simple ts ws rs → std_redirs t → std_redirs (wrap rs t).
Proof.
  intros Hs. revert t. induction Hs as [|w ts ws rs Hs IH|c f m fd ts ws rs Hc Hs IH]; intros t Ht; [done|by apply IH|].
  change (wrap ((f, m, fd) :: rs) t) with (wrap rs (TRedir t f m fd)). apply IH. split; [|done]. unfold redir_mode in Hc.
  destruct (c =? chr "<"); [injection Hc as _ <-; auto|]. destruct (c =? chr ">"); [injection Hc as _ <-; auto|].
  destruct (c =? chr "+"); [injection Hc as _ <-; auto|done].
Qed.

Lemma std_backs k t : std_redirs t → std_redirs (Nat.iter k TBack t).
Proof. intros Ht. by induction k. Qed.

Lemma grammar_std : (∀ ts t, gline ts t → std_redirs t) ∧ (∀ ts t, gpipe ts t → std_redirs t) ∧ (∀ ts t, gexec ts t → std_redirs t).
Proof.
  apply grammar_ind.
  - intros ts t k _ Ht. by apply std_backs.
  - intros ts t k ts' t' _ Ht _ Ht'. split; [by apply std_backs|done].
  - done.
  - intros. by split.
  - intros ts ws rs Hs _. by apply (std_wrap _ _ _ _ Hs).
  - intros ts t ts' rs _ Ht Hs. by apply (std_wrap _ _ _ _ Hs).
Qed.

(** Output starts nothing. *)
Lemma execs_puts cs fd {A} (k : unit → prog A) fds n : execs (pbind (puts fd cs) k) fds n = execs (k tt) fds n.
Proof. induction cs as [|c cs IH]; [done|]. exact IH. Qed.

Lemma execs_vprintf {A} fd (k : unit → prog A) fds n fuel : (execs (k tt) fds n = ([], n)) → ∀ fmt args,
  execs (pbind (vprintf_loop fuel fd fmt args) k) fds n = ([], n).
Proof.
  intros Hk. induction fuel as [|fuel IH]; intros fmt args; cbn [vprintf_loop]; [done|].
  destruct fmt as [|c fmt]; [done|]. destruct (negb (c =? chr "%")); [apply (IH fmt args)|].
  destruct fmt as [|c0 fmt]; [done|]. destruct (uformat_one (c0 :: fmt) args) as [[[o fmt'] args']|]; [|done].
  assert (∀ cs, execs (pbind (pbind (puts fd cs) (λ _, vprintf_loop fuel fd fmt' args')) k) fds n = ([], n)) as H; [|apply H].
  induction cs as [|d cs IHc]; [apply IH|exact IHc].
Qed.

Lemma execs_fprintf {A} fd fmt args (k : unit → prog A) fds n : execs (k tt) fds n = ([], n) →
  execs (pbind (fprintf fd fmt args) k) fds n = ([], n).
Proof. intros Hk. by apply execs_vprintf. Qed.

Definition std_event (p : list (list Z) * (chan * chan * chan)) : event := let '(argv, (i, o, e)) := p in (argv, stdio i o e).

Lemma runcmd_wired script b c : ∀ i o e n, std_redirs (strings b c) → no_script c →
  execs (runcmd script b c) (stdio i o e) n = (let '(l, m) := wires (strings b c) i o e n in (std_event <$> l, m)).
Proof.
  induction c as [argv|c IH file ef mode fd|l IHl r IHr|l IHl r IHr|c IH|f]; intros i o e n Hs Hns; cbn [strings wires std_redirs no_script] in *.
  - destruct argv as [|[q eq] argv]; [done|]. cbn [runcmd fmap list_fmap fst]. cbn [execs pbind sys]. unfold handle at 1.
    destruct (exec_ok (cstring b q)); [done|]. by rewrite execs_fprintf.
  - cbn [runcmd execs pbind sys]. unfold handle at 1. cbn [execs pbind]. unfold handle at 1. destruct Hs as [Hfd Hs].
    destruct (open_ok (cstring b file) mode).
    + destruct Hfd as [-> | ->].
      * transitivity (execs (runcmd script b c) (stdio (File_ (cstring b file) mode) o e) n); [reflexivity|]. by apply IH.
      * transitivity (execs (runcmd script b c) (stdio i (File_ (cstring b file) mode) e) n); [reflexivity|]. by apply IH.
    + cbn [execs pbind]. change (-1 <? 0) with true. cbv iota. by rewrite execs_fprintf.
  - destruct Hs as [Hl Hr], Hns as [Hnl Hnr]. transitivity (
      let '(l1, n1) := execs (runcmd script b l) (stdio i (PipeW n) e) (S n) in
      let '(l2, n2) := (let '(l3, n3) := execs (runcmd script b r) (stdio (PipeR n) o e) n1 in (l3 ++ [], n3)) in
      (l1 ++ l2, n2)); [reflexivity|].
    rewrite IHl by done. destruct (wires (strings b l) _ _ _ _) as [ls m]. rewrite IHr by done.
    destruct (wires (strings b r) _ _ _ _) as [rs m2]. by rewrite app_nil_r, fmap_app.
  - destruct Hs as [Hl Hr], Hns as [Hnl Hnr]. transitivity (
      let '(l1, n1) := execs (runcmd script b l) (stdio i o e) n in
      let '(l2, n2) := execs (runcmd script b r) (stdio i o e) n1 in (l1 ++ l2, n2)); [reflexivity|].
    rewrite IHl by done. destruct (wires (strings b l) _ _ _ _) as [ls m]. rewrite IHr by done.
    destruct (wires (strings b r) _ _ _ _) as [rs m2]. by rewrite fmap_app.
  - transitivity (let '(l1, n1) := execs (runcmd script b c) (stdio i o e) n in (l1 ++ [], n1)); [reflexivity|].
    rewrite IH by done. destruct (wires _ _ _ _ _) as [ls m]. by rewrite app_nil_r.
  - done.
Qed.

(** C18: the shell wires its commands.  For every line that [parsecmd] accepts, running
    the tree starts exactly the programs of the line, each with the words of its command
    as arguments, and each with three descriptors and no others: the two ends of every
    pipe go to the output of the command on its left and the input of the one on its
    right, a redirection replaces the input or the output of what it is attached to and
    the last one counts, and what follows a file that cannot be opened is not
    started. *)
Theorem runcmd_wires s c b th script i o e n : Forall (λ c, c ≠ 0) s → parsecmd s = Ok (c, b) th →
  execs (runcmd script b c) (stdio i o e) n = (let '(l, m) := wires (strings b c) i o e n in (std_event <$> l, m)).
Proof.
  intros Hs E. pose proof (proj1 (parsecmd_run s Hs)) as H. rewrite E in H. destruct H as [Hg Hn].
  apply runcmd_wired; [|done]. exact (proj1 grammar_std _ _ Hg).
Qed.
End Wiring.

Definition all_ok (_ : list Z) (_ : Z) : bool := true.
Definition any_ok (_ : list Z) : bool := true.

(** Three commands, two pipes and a redirection. *)
Lemma runcmd_wires_witness :
  ∃ c b th, parsecmd (str "cat<a|sort|head>b") = Ok (c, b) th ∧
    fst (execs all_ok any_ok (runcmd (execscript 1) b c) (stdio (Std 0) (Std 1) (Std 2)) 0) =
      [([str "cat"], stdio (File_ (str "a") 0) (PipeW 0) (Std 2));
       ([str "sort"], stdio (PipeR 0) (PipeW 1) (Std 2));
       ([str "head"], stdio (PipeR 1) (File_ (str "b") 1537) (Std 2))].
Proof.
  set (s := str "cat<a|sort|head>b"). assert (Forall (λ c, c ≠ 0) s) as Hs by (repeat constructor; discriminate).
  destruct (parsecmd s) as [[c b] th| |] eqn:E; [|vm_compute in E; discriminate E..].
  exists c, b, th. split; [reflexivity|]. rewrite (runcmd_wires all_ok any_ok s c b th (execscript 1) (Std 0) (Std 1) (Std 2) 0 Hs E).
  vm_compute in E. injection E as <- <- _. vm_compute. reflexivity.
Defined.
