(* ===== verification/Umalloc.v ===== *)
(** * user/umalloc.c

    The allocator of Kernighan and Ritchie.  The part of memory that belongs to it is
    the headers: [h_ptr] and [h_size] are the two fields of the header at an address.  A
    program that stays inside its blocks does not change them.  [h_brk] is the end of
    the process's memory, which only [sbrk] moves, and [h_grant] says for each further
    call of [sbrk] whether the kernel has the memory. *)

From S2P Require Import Prelude.

Record heap := Heap { h_ptr : Z → Z; h_size : Z → Z; h_freep : Z; h_brk : Z; h_grant : list bool }.

(** [sizeof(Header)] *)
Definition HDR : Z := 16.

Section Umalloc.
Context (base : Z) (fuel : nat).

Definition ptr_of (p : Z) : M heap Z := gets (λ h, h_ptr h p).
Definition size_of (p : Z) : M heap Z := gets (λ h, h_size h p).
Definition set_ptr (p v : Z) : M heap unit :=
  modify (λ h, Heap (fupdz (h_ptr h) p v) (h_size h) (h_freep h) (h_brk h) (h_grant h)).
Definition set_size (p v : Z) : M heap unit :=
  modify (λ h, Heap (h_ptr h) (fupdz (h_size h) p (u32 v)) (h_freep h) (h_brk h) (h_grant h)).
Definition set_freep (v : Z) : M heap unit :=
  modify (λ h, Heap (h_ptr h) (h_size h) v (h_brk h) (h_grant h)).

(** The old end of memory, or -1.  Its argument is an [int]; shrinking is not used. *)
Definition sbrk (n : Z) : M heap Z :=
  if s32 n <? 0 then undefined "sbrk of a negative size"
  else
    let! h := get in
    match h_grant h with
    | true :: g =>
        modify (λ h, Heap (h_ptr h) (h_size h) (h_freep h) (h_brk h + s32 n) g) ;;;
        ret (h_brk h)
    | _ =>
        modify (λ h, Heap (h_ptr h) (h_size h) (h_freep h) (h_brk h) (tail (h_grant h))) ;;;
        ret (-1)
    end.

(** The [for] loop of [free]: the free block that [bp] comes after. *)
Fixpoint free_loop (fuel : nat) (bp p : Z) : M heap Z :=
  match fuel with
  | O => λ t, Asleep t
  | S fuel =>
      let! n := ptr_of p in
      if (p <? bp) && (bp <? n) then ret p
      else if (n <=? p) && ((p <? bp) || (bp <? n)) then ret p
      else free_loop fuel bp n
  end.

Definition free (ap : Z) : M heap unit :=
  let bp := ap - HDR in
  let! p := gets h_freep in
  let! p := free_loop fuel bp p in
  let! bs := size_of bp in
  let! n := ptr_of p in
  (if bp + HDR * bs =? n then
     let! ns := size_of n in
     set_size bp (bs + ns) ;;;
     let! nn := ptr_of n in
     set_ptr bp nn
   else set_ptr bp n) ;;;
  let! ps := size_of p in
  (if p + HDR * ps =? bp then
     let! bs := size_of bp in
     set_size p (ps + bs) ;;;
     let! bn := ptr_of bp in
     set_ptr p bn
   else set_ptr p bp) ;;;
  set_freep p.

Definition morecore (nu : Z) : M heap Z :=
  let nu := if nu <? 4096 then 4096 else nu in
  let! p := sbrk (u64 (nu * HDR)) in
  if p =? -1 then ret 0
  else
    set_size p nu ;;;
    free (p + HDR) ;;;
    gets h_freep.

Fixpoint malloc_loop (fuel : nat) (nunits prevp p : Z) : M heap Z :=
  match fuel with
  | O => λ t, Asleep t
  | S fuel =>
      let! s := size_of p in
      if nunits <=? s then
        (if s =? nunits then
           let! n := ptr_of p in
           set_ptr prevp n ;;;
           set_freep prevp ;;;
           ret (p + HDR)
         else
           set_size p (s - nunits) ;;;
           let! s := size_of p in
           let p := p + HDR * s in
           set_size p nunits ;;;
           set_freep prevp ;;;
           ret (p + HDR))
      else
        let! f := gets h_freep in
        if p =? f then
          let! p := morecore nunits in
          if p =? 0 then ret 0
          else let! n := ptr_of p in malloc_loop fuel nunits p n
        else
          let! n := ptr_of p in
          malloc_loop fuel nunits p n
  end.

Definition units (nbytes : Z) : Z := u32 ((nbytes + HDR - 1) / HDR + 1).

Definition malloc (nbytes : Z) : M heap Z :=
  let nunits := units nbytes in
  let! prevp := gets h_freep in
  (if prevp =? 0 then
     set_freep base ;;;
     set_ptr base base ;;;
     set_size base 0
   else ret tt) ;;;
  let! prevp := gets h_freep in
  let! p := ptr_of prevp in
  malloc_loop fuel nunits prevp p.
End Umalloc.
