(* ===== verification/UmallocSpec.v ===== *)
(** * The allocator keeps its blocks apart

    The memory that [sbrk] gave to the allocator is a row of segments without gaps,
    each in use or free, no two free ones side by side.  [malloc] and [free] are
    operations on this row. *)

From Stdlib Require Import Sorting.Sorted.
From S2P Require Import Prelude Umalloc.

(** In use or not, and the size in units with the header. *)
Abbreviation seg := (bool * Z)%type.

Fixpoint total (l : list seg) : Z := match l with [] => 0 | (_, s) :: l => s + total l end.

(** The headers of the segments, and those of the free ones, from address [a] on. *)
Fixpoint headers (a : Z) (l : list seg) : list (Z * Z) :=
  match l with [] => [] | (_, s) :: l => (a, s) :: headers (a + HDR * s) l end.
Fixpoint frees (a : Z) (l : list seg) : list Z :=
  match l with [] => [] | (u, s) :: l => (if (u : bool) then [] else [a]) ++ frees (a + HDR * s) l end.

Fixpoint merged (l : list seg) : Prop :=
  match l with
  | (false, _) :: (((false, _) :: _) as _) => False
  | _ :: l => merged l
  | [] => True
  end.

(** Every address points to the next, the last one to [e]. *)
Fixpoint chain (ptr : Z → Z) (r : list Z) (e : Z) : Prop :=
  match r with
  | [] => True
  | a :: r => ptr a = default e (head r) ∧ chain ptr r e
  end.

(** *** Segments *)

Lemma total_app l1 l2 : total (l1 ++ l2) = total l1 + total l2.
Proof. induction l1 as [|[u s] l1 IH]; cbn; [done|]. rewrite IH. lia. Qed.

Lemma headers_app a l1 l2 : headers a (l1 ++ l2) = headers a l1 ++ headers (a + HDR * total l1) l2.
Proof.
  revert a. induction l1 as [|[u s] l1 IH]; intros a; cbn; [f_equal; lia|]. rewrite IH. do 3 f_equal. lia.
Qed.

Lemma frees_app a l1 l2 : frees a (l1 ++ l2) = frees a l1 ++ frees (a + HDR * total l1) l2.
Proof.
  revert a. induction l1 as [|[u s] l1 IH]; intros a; cbn; [f_equal; lia|]. rewrite IH, <- app_assoc. do 3 f_equal. lia.
Qed.

Definition sized (l : list seg) : Prop := Forall (λ x, 1 <= x.2) l.

Lemma sized_total l : sized l → 0 <= total l.
Proof. induction 1 as [|[u s] l Hs Hl IH]; cbn in *; lia. Qed.

Lemma headers_range a l : sized l → Forall (λ x, a <= x.1 ∧ x.1 + HDR * x.2 <= a + HDR * total l) (headers a l).
Proof.
  intros Hl. revert a. induction Hl as [|[u s] l Hs Hl IH]; intros a; cbn; [done|]. cbn in Hs. pose proof (sized_total l Hl).
  constructor; [cbn; unfold HDR in *; lia|]. eapply Forall_impl; [apply IH|]. intros x. cbn beta. unfold HDR. lia.
Qed.

Lemma frees_range a l : sized l → Forall (λ x, a <= x < a + HDR * total l) (frees a l).
Proof.
  intros Hl. revert a. induction Hl as [|[u s] l Hs Hl IH]; intros a; cbn; [done|]. cbn in Hs. pose proof (sized_total l Hl).
  apply Forall_app. split; [destruct u; repeat constructor; unfold HDR; lia|]. eapply Forall_impl; [apply IH|]. intros x. cbn beta. unfold HDR. lia.
Qed.

(** *** Chains *)

Lemma chain_app ptr r1 b r2 e : chain ptr (r1 ++ b :: r2) e ↔ chain ptr r1 b ∧ chain ptr (b :: r2) e.
Proof.
  induction r1 as [|a r1 IH]; [cbn; tauto|]. change ((a :: r1) ++ b :: r2) with (a :: (r1 ++ b :: r2)). cbn [chain].
  rewrite IH. destruct r1; cbn; tauto.
Qed.

Lemma chain_upd ptr a v r e : a ∉ r → chain (fupdz ptr a v) r e ↔ chain ptr r e.
Proof.
  induction r as [|b r IH]; intros Ha; [done|]. cbn [chain]. apply not_elem_of_cons in Ha as [Hb Ha]. rewrite IH by done.
  by rewrite fupdz_ne by congruence.
Qed.

(** *** The search for the place of a block *)

Section Walk.
Context (base : Z).

Local Abbreviation inc := (StronglySorted Z.lt).

Lemma inc_app_l l1 l2 : inc (l1 ++ l2) → inc l1.
Proof.
  induction l1 as [|a l1 IH]; [constructor|]. cbn. intros H. inversion H as [|? ? Hs Hf]; subst. constructor; [by apply IH|].
  by apply Forall_app in Hf as [? _].
Qed.

Lemma inc_app_r l1 l2 : inc (l1 ++ l2) → inc l2.
Proof. induction l1 as [|a l1 IH]; [done|]. cbn. intros H. inversion H; subst. by apply IH. Qed.

Lemma inc_snoc_notin r x : inc (r ++ [x]) → x ∉ r.
Proof.
  induction r as [|a r IH]; [by intros _ ?%not_elem_of_nil|]. change ((a :: r) ++ [x]) with (a :: (r ++ [x])). intros Hi.
  inversion Hi as [|? ? Hi2 Hall]; subst. intros [->|Hx]%elem_of_cons; [|by apply IH].
  assert (a < a) by (apply (Forall_elem _ _ _ Hall), elem_of_app; right; by left). lia.
Qed.

Lemma inc_nodup r : inc r → NoDup r.
Proof.
  induction 1 as [|a r Hi IH Hall]; constructor; [|done]. intros Ha. pose proof (Forall_elem _ _ _ Hall Ha). lia.
Qed.

Lemma walk_up h bp p r2 q1 : ∀ fuel x, head (q1 ++ [p]) = Some x → chain (h_ptr h) (q1 ++ p :: r2) base → inc (q1 ++ [p]) →
  Forall (λ x, base <= x < bp) (q1 ++ [p]) → Forall (λ x, bp < x) r2 → (length q1 < fuel)%nat →
  free_loop fuel bp x (Thread [] h) = Ok p (Thread [] h).
Proof.
  induction q1 as [|a q1 IH]; intros [|fuel] x Hx Hc Hi Hb Hr Hf; [lia| |lia|]; injection Hx as <-; cbn [free_loop].
  - unfold ptr_of. kstep. cbn [app chain] in Hc. cbn [st]. rewrite (proj1 Hc). inversion Hb as [|? ? Hp _]; subst.
    destruct r2 as [|y r2]; cbn [head].
    + change (default base None) with base. rewrite (proj2 (Z.ltb_ge bp base)) by lia. rewrite andb_false_r.
      rewrite (proj2 (Z.leb_le base p)), (proj2 (Z.ltb_lt p bp)) by lia. done.
    + inversion Hr as [|? ? Hy _]; subst. change (default base (Some y)) with y.
      rewrite (proj2 (Z.ltb_lt p bp)), (proj2 (Z.ltb_lt bp y)) by lia. done.
  - unfold ptr_of. kstep. cbn [st]. change ((a :: q1) ++ p :: r2) with (a :: (q1 ++ p :: r2)) in Hc. cbn [chain] in Hc. destruct Hc as [Ha Hc].
    change ((a :: q1) ++ [p]) with (a :: (q1 ++ [p])) in Hi, Hb. inversion Hi as [|? ? Hi2 Hall]; subst. inversion Hb as [|? ? _ Hb2]; subst.
    destruct (head (q1 ++ [p])) as [y|] eqn:Ey; [|by destruct q1].
    assert (head (q1 ++ p :: r2) = Some y) as Ey2 by (destruct q1; exact Ey). rewrite Ha, Ey2. change (default base (Some y)) with y.
    assert (y ∈ q1 ++ [p]) as Hin by (destruct (q1 ++ [p]); [done|]; injection Ey as ->; by left).
    pose proof (Forall_elem _ _ _ Hall Hin) as Hlt. pose proof (Forall_elem _ _ _ Hb2 Hin) as Hyb. cbn beta in Hlt, Hyb.
    rewrite (proj2 (Z.ltb_ge bp y)), andb_false_r, (proj2 (Z.leb_gt y a)) by lia. cbn [andb]. by apply IH; [..|cbn in Hf; lia].
Qed.

Lemma walk_down h bp q : ∀ k x, head q = Some x → chain (h_ptr h) q base → inc q → Forall (λ x, bp < x) q → base < bp →
  free_loop (length q + k) bp x (Thread [] h) = free_loop k bp base (Thread [] h).
Proof.
  induction q as [|a q IH]; intros k x Hx Hc Hi Hq Hb; [done|]. injection Hx as <-. cbn [length Nat.add free_loop]. unfold ptr_of. kstep. cbn [st].
  cbn [chain] in Hc. destruct Hc as [Ha Hc]. inversion Hi as [|? ? Hi2 Hall]; subst. inversion Hq as [|? ? Hqa Hq2]; subst. rewrite Ha.
  rewrite (proj2 (Z.ltb_ge a bp)) by lia. cbn [andb orb]. destruct q as [|y q]; cbn [head].
  - change (default base None) with base. rewrite (proj2 (Z.ltb_ge bp base)), andb_false_r by lia. done.
  - change (default base (Some y)) with y. inversion Hall as [|? ? Hay _]; subst. rewrite (proj2 (Z.leb_gt y a)) by lia. cbn [andb].
    by apply IH.
Qed.

(** From anywhere in the ring the search ends at the last address before [bp]. *)
Lemma free_loop_run h bp p r1 r2 fuel x :
  chain (h_ptr h) (r1 ++ p :: r2) base → head (r1 ++ [p]) = Some base → inc (r1 ++ p :: r2) →
  Forall (λ x, x < bp) (r1 ++ [p]) → Forall (λ x, bp < x) r2 → x ∈ r1 ++ p :: r2 → (2 * length (r1 ++ p :: r2) < fuel)%nat →
  free_loop fuel bp x (Thread [] h) = Ok p (Thread [] h).
Proof.
  intros Hc Hh Hi Hb Hr Hx Hf. rewrite length_app in Hf. cbn [length] in Hf.
  assert (inc (r1 ++ [p])) as Hi1.
  { apply (inc_app_l _ r2). by rewrite <- app_assoc. }
  assert (Forall (λ x, base <= x < bp) (r1 ++ [p])) as Hb1.
  { destruct (r1 ++ [p]) as [|y q] eqn:E; [done|]. injection Hh as ->. inversion Hi1 as [|? ? _ Hall]; subst. inversion Hb as [|? ? Hbb Hb2]; subst.
    constructor; [lia|]. apply Forall_forall. intros z Hz. rewrite Forall_forall in Hall, Hb2. specialize (Hall z Hz). specialize (Hb2 z Hz). lia. }
  assert (base < bp) as Hbase by (destruct (r1 ++ [p]); [done|]; injection Hh as ->; inversion Hb1; lia).
  assert (x ∈ r1 ++ [p] ∨ x ∈ r2) as [Hx1|Hx2].
  { rewrite elem_of_app, elem_of_cons in Hx. rewrite elem_of_app, list_elem_of_singleton. tauto. }
  - apply list_elem_of_split in Hx1 as (q0 & q2 & E). destruct (exists_last (l := x :: q2)) as (q1 & z & Eq); [done|].
    rewrite Eq in E. assert (r1 = q0 ++ q1 ∧ p = z) as [-> ->] by (by rewrite app_assoc in E; apply app_inj_tail in E).
    rewrite <- app_assoc in *. apply (walk_up h bp z r2 q1).
    + by rewrite <- Eq.
    + destruct (q1 ++ z :: r2) as [|y q] eqn:Ey; [by destruct q1|]. by apply chain_app in Hc as [_ Hc].
    + by apply inc_app_r in Hi1.
    + by apply Forall_app in Hb1 as [_ Hb1].
    + done.
    + rewrite length_app in Hf. lia.
  - apply list_elem_of_split in Hx2 as (q0 & q2 & ->).
    assert (chain (h_ptr h) (x :: q2) base) as Hc2.
    { replace (r1 ++ p :: q0 ++ x :: q2) with ((r1 ++ p :: q0) ++ x :: q2) in Hc by (by rewrite <- app_assoc). by apply chain_app in Hc as [_ Hc]. }
    assert (inc (x :: q2)) as Hi2.
    { replace (r1 ++ p :: q0 ++ x :: q2) with ((r1 ++ p :: q0) ++ x :: q2) in Hi by (by rewrite <- app_assoc). by apply inc_app_r in Hi. }
    apply Forall_app in Hr as [Hr0 Hr2]. rewrite length_app in Hf. cbn [length] in Hf.
    replace fuel with (length (x :: q2) + (fuel - length (x :: q2)))%nat by (cbn; lia).
    rewrite (walk_down h bp (x :: q2)) by done.
    apply (walk_up h bp p (q0 ++ x :: q2) r1); try done; [by apply Forall_app|cbn; lia].
Qed.
End Walk.

(** *** The representation *)

Lemma merged_app l1 x l2 : merged (l1 ++ x :: l2) ↔ merged (l1 ++ [x]) ∧ merged (x :: l2).
Proof.
  induction l1 as [|[u s] l1 IH]; [cbn [app]; split; [|tauto]; intros H; split; [by destruct x as [[] ?]|done]|].
  change (((u, s) :: l1) ++ x :: l2) with ((u, s) :: (l1 ++ x :: l2)). change (((u, s) :: l1) ++ [x]) with ((u, s) :: (l1 ++ [x])).
  destruct u; [exact IH|]. destruct l1 as [|[[] s1] l1]; [|exact IH|cbn; tauto]. destruct x as [[] sx]; cbn [app]; [|cbn; tauto].
  change (merged ((true, sx) :: l2) ↔ merged [(true, sx)] ∧ merged ((true, sx) :: l2)). cbn. tauto.
Qed.

(** The last segment, when it is not free. *)
Definition ends_used (l : list seg) : Prop := l = [] ∨ ∃ l' s, l = l' ++ [(true, s)].
Definition starts_used (l : list seg) : Prop := match l with (false, _) :: _ => False | _ => True end.

Lemma merged_cons u s l : merged ((u, s) :: l) ↔ merged l ∧ (u = true ∨ starts_used l).
Proof. destruct u, l as [|[[] s2] l]; cbn; intuition congruence. Qed.

Lemma ends_used_snoc u s l : ends_used (l ++ [(u, s)]) ↔ u = true.
Proof.
  split; [|intros ->; right; by exists l, s]. intros [E|(l' & s' & E)]; [by destruct l|]. by apply app_inj_tail in E as [_ [= -> _]].
Qed.

Lemma merged_snoc u s l : merged (l ++ [(u, s)]) ↔ merged l ∧ (u = true ∨ ends_used l).
Proof.
  destruct l as [|y l' _] using rev_ind; [cbn; destruct u; unfold ends_used; intuition congruence|]. destruct y as [u1 s1].
  rewrite <- app_assoc. cbn [app]. rewrite merged_app, merged_cons, ends_used_snoc. destruct u; cbn; intuition congruence.
Qed.

Section Heap.
Context (base start : Z) (HB : 0 < base) (HS : base < start).
Local Abbreviation inc := (StronglySorted Z.lt).

Record heap_ok (h : heap) (l : list seg) : Prop := {
  ho_sized : sized l;
  ho_merged : merged l;
  ho_total : total l < 2 ^ 27;
  ho_brk : h_brk h = start + HDR * total l;
  ho_chain : chain (h_ptr h) (base :: frees start l) base;
  ho_base : h_size h base = 0;
  ho_sizes : Forall (λ x, h_size h x.1 = x.2) (headers start l);
  ho_freep : h_freep h ∈ base :: frees start l }.

Lemma frees_inc a l : sized l → inc (frees a l).
Proof.
  intros Hl. revert a. induction Hl as [|[u s] l Hs Hl IH]; intros a; cbn; [constructor|]. destruct u; [apply IH|].
  constructor; [apply IH|]. eapply Forall_impl; [by apply frees_range|]. intros x. cbn in *. unfold HDR. lia.
Qed.

Lemma ring_inc l : sized l → inc (base :: frees start l).
Proof.
  intros Hl. constructor; [by apply frees_inc|]. eapply Forall_impl; [by apply frees_range|]. intros x. cbn. lia.
Qed.

Lemma frees_header a l x : x ∈ frees a l → ∃ s, (x, s) ∈ headers a l.
Proof.
  revert a. induction l as [|[u s] l IH]; intros a; cbn; [by intros ?%not_elem_of_nil|]. rewrite elem_of_app. intros [Hx|Hx].
  - destruct u; [by apply not_elem_of_nil in Hx|]. apply list_elem_of_singleton in Hx as ->. exists s. by left.
  - destruct (IH _ Hx) as [s' Hs']. exists s'. by right.
Qed.

Lemma frees_length a l : (length (frees a l) <= length l)%nat.
Proof. revert a. induction l as [|[[] s] l IH]; intros a; cbn; [lia|specialize (IH (a + HDR * s)); lia..]. Qed.

(** A block joined with a free segment after it: its size, and the rest of the row. *)
Definition join_right (s : Z) (post : list seg) : Z * list seg :=
  match post with (false, s2) :: post' => (s + s2, post') | _ => (s, post) end.

(** What [free] makes of the row. *)
Definition release (pre : list seg) (s : Z) (post : list seg) : list seg :=
  let '(s, post) := join_right s post in
  match last pre with
  | Some (false, s1) => removelast pre ++ (false, s1 + s) :: post
  | _ => pre ++ (false, s) :: post
  end.

(** The last of the ring before the block, and what touches it. *)
Lemma ring_before h pre : sized pre → h_size h base = 0 → Forall (λ x, h_size h x.1 = x.2) (headers start pre) →
  ∃ r1 p, base :: frees start pre = r1 ++ [p] ∧
    (ends_used pre → p + HDR * h_size h p < start + HDR * total pre) ∧
    (∀ pre' s1, pre = pre' ++ [(false, s1)] → r1 = base :: frees start pre' ∧ p = start + HDR * total pre' ∧ h_size h p = s1).
Proof.
  intros Hs Hb Hh. destruct (exists_last (l := base :: frees start pre)) as (r1 & p & E); [done|]. exists r1, p. split; [done|]. split.
  - intros He. assert (p ∈ base :: frees start pre) as Hp by (rewrite E; apply elem_of_app; right; by left).
    apply elem_of_cons in Hp as [->|Hp]; [rewrite Hb; pose proof (sized_total pre Hs); unfold HDR; lia|].
    destruct He as [->|(pre' & s & ->)]; [by apply not_elem_of_nil in Hp|]. unfold sized in Hs. apply Forall_app in Hs as [Hs1 Hs2].
    rewrite frees_app in Hp. cbn in Hp. rewrite app_nil_r in Hp. apply frees_header in Hp as [sz Hsz].
    rewrite headers_app in Hh. apply Forall_app in Hh as [Hh _]. pose proof (Forall_elem _ _ _ Hh Hsz) as Hz. cbn in Hz. rewrite Hz.
    pose proof (Forall_elem _ _ _ (headers_range start pre' Hs1) Hsz) as [_ Hr]. cbn in Hr. rewrite total_app. cbn.
    inversion Hs2; subst. cbn in *. unfold HDR in *. lia.
  - intros pre' s1 ->. rewrite frees_app in E. cbn in E. rewrite app_comm_cons in E. apply app_inj_tail in E as [-> <-].
    split; [done|]. split; [done|]. rewrite headers_app in Hh. apply Forall_app in Hh as [_ Hh]. by inversion Hh.
Qed.

(** [free] once the place is found. *)
Lemma free_eval fuel h bp p :
  free_loop fuel bp (h_freep h) (Thread [] h) = Ok p (Thread [] h) → p ≠ bp →
  let n := h_ptr h p in
  let rt := bp + HDR * h_size h bp =? n in
  let lf := p + HDR * h_size h p =? bp in
  let bs := if rt then u32 (h_size h bp + h_size h n) else h_size h bp in
  let bn := if rt then h_ptr h n else n in
  let size1 := if rt then fupdz (h_size h) bp bs else h_size h in
  free fuel (bp + HDR) (Thread [] h) = Ok tt (Thread []
    (Heap (fupdz (fupdz (h_ptr h) bp bn) p (if lf then bn else bp))
       (if lf then fupdz size1 p (u32 (h_size h p + bs)) else size1) p (h_brk h) (h_grant h))).
Proof.
  intros E Hp. cbv zeta. unfold free. cbv zeta. replace (bp + HDR - HDR) with bp by lia. kstep. cbn [st].
  rewrite (bind_Ok _ _ _ _ _ E). unfold size_of, ptr_of, set_size, set_ptr, set_freep. do 2 kstep. cbn [st].
  destruct (bp + HDR * h_size h bp =? h_ptr h p); repeat kstep; cbn [st h_size h_ptr h_freep h_brk h_grant].
  - rewrite (fupdz_ne (h_size h) bp _ p Hp). destruct (p + HDR * h_size h p =? bp); repeat kstep; unfold modify; cbn [held st h_size h_ptr h_freep h_brk h_grant]; rewrite ?fupdz_eq; done.
  - destruct (p + HDR * h_size h p =? bp); repeat kstep; unfold modify; cbn [held st h_size h_ptr h_freep h_brk h_grant]; rewrite ?fupdz_eq; done.
Qed.

Lemma sizes_ext (f g : Z → Z) a l : Forall (λ y, f y.1 = y.2) (headers a l) → sized l →
  (∀ x, a <= x < a + HDR * total l → g x = f x) → Forall (λ y, g y.1 = y.2) (headers a l).
Proof.
  intros Hh Hs Hg. pose proof (headers_range a l Hs) as Hr. apply Forall_forall. intros y Hy.
  rewrite Forall_forall in Hh, Hr. specialize (Hh y Hy). specialize (Hr y Hy). cbn in Hr.
  assert (1 <= y.2).
  { clear -Hs Hy. revert a Hy. induction Hs as [|[u s] l Hs Hl IH]; intros a Hy; [by apply not_elem_of_nil in Hy|]. cbn in Hy.
    apply elem_of_cons in Hy as [->|Hy]; [done|by eapply IH]. }
  rewrite Hg; [done|]. unfold HDR in *. lia.
Qed.

Lemma frees_lt a l x : sized l → x ∈ frees a l → a <= x < a + HDR * total l.
Proof. intros Hs Hx. exact (Forall_elem _ _ _ (frees_range a l Hs) Hx). Qed.

(** What holds of the block joined with a free segment after it. *)
Record joined (h : heap) (bp s : Z) (post : list seg) (bn : Z) (size1 : Z → Z) : Prop := {
  jo_next : bn = default base (head (frees (bp + HDR * (join_right s post).1) (join_right s post).2));
  jo_chain : chain (h_ptr h) (frees (bp + HDR * (join_right s post).1) (join_right s post).2) base;
  jo_total : (join_right s post).1 + total (join_right s post).2 = s + total post;
  jo_sized : sized (join_right s post).2;
  jo_merged : merged (join_right s post).2;
  jo_used : starts_used (join_right s post).2;
  jo_size : size1 bp = (join_right s post).1;
  jo_other : ∀ x, x ≠ bp → size1 x = h_size h x;
  jo_headers : Forall (λ x, h_size h x.1 = x.2) (headers (bp + HDR * (join_right s post).1) (join_right s post).2);
  jo_pos : 1 <= (join_right s post).1 }.

Lemma join_right_ok h p bp s post : chain (h_ptr h) (p :: frees (bp + HDR * s) post) base → sized post → merged ((true, s) :: post) →
  Forall (λ x, h_size h x.1 = x.2) (headers (bp + HDR * s) post) → h_size h bp = s → 1 <= s → s + total post < 2 ^ 27 → base < bp →
  let n := h_ptr h p in
  let rt := bp + HDR * s =? n in
  let bs := if rt then u32 (s + h_size h n) else s in
  bs = (join_right s post).1 ∧ joined h bp s post (if rt then h_ptr h n else n) (if rt then fupdz (h_size h) bp bs else h_size h).
Proof.
  intros Hc Hs Hm Hh Hb Hs1 Ht Hbase. cbv zeta. cbn [chain] in Hc. destruct Hc as [Hp Hc]. rewrite Hp.
  destruct post as [|[u s2] post].
  - cbn [frees head]. change (default base None) with base. rewrite (proj2 (Z.eqb_neq (bp + HDR * s) base)) by (unfold HDR; lia).
    split; [done|]. split; cbn; try done; lia.
  - inversion Hs as [|? ? Hs2 Hs3]; subst. cbn in Hs2. pose proof (sized_total post Hs3) as Htp. cbn [total] in Ht. destruct u.
    + assert (bp + h_size h bp * 0 + HDR * h_size h bp ≠ default base (head (frees (bp + HDR * h_size h bp) ((true, s2) :: post)))) as Hne.
      { cbn [frees app]. pose proof (frees_range (bp + HDR * h_size h bp + HDR * s2) post Hs3) as Hr.
        destruct (frees _ post) as [|y r]; cbn [head]; [change (default base None) with base; unfold HDR; lia|].
        change (default base (Some y)) with y. inversion Hr; subst. unfold HDR in *. lia. }
      rewrite (proj2 (Z.eqb_neq _ _)) by (rewrite Z.mul_0_r, Z.add_0_r in Hne; exact Hne). split; [done|]. split; cbn [join_right fst snd]; try done.
    + cbn [frees app head] in *. change (default base (Some ?x)) with x. rewrite Z.eqb_refl. cbn [headers] in Hh. inversion Hh as [|? ? Hh1 Hh2]; subst. cbn in Hh1.
      cbn [chain] in Hc. destruct Hc as [Hc1 Hc2]. rewrite Hh1, u32_small by lia.
      assert (bp + HDR * (h_size h bp + s2) = bp + HDR * h_size h bp + HDR * s2) as Ea by lia.
      split; [done|]. split; cbn [join_right fst snd]; rewrite ?Ea; try done.
      * cbn [total]; lia.
      * by apply merged_cons in Hm as [Hm _]; apply merged_cons in Hm as [Hm _].
      * apply merged_cons in Hm as [Hm _]. apply merged_cons in Hm as [_ [?|?]]; done.
      * by rewrite fupdz_eq.
      * intros x Hx. by rewrite fupdz_ne.
      * lia.
Qed.

(** No free segment before the block: it is linked in after [p]. *)
Lemma free_linked h pre s post p r1 bn size1 (ptr1 := fupdz (fupdz (h_ptr h) (start + HDR * total pre) bn) p (start + HDR * total pre)) :
  let bp := start + HDR * total pre in
  sized pre → merged pre → ends_used pre → total pre + (s + total post) < 2 ^ 27 → h_brk h = start + HDR * (total pre + (s + total post)) →
  base :: frees start pre = r1 ++ [p] → chain (h_ptr h) r1 p → inc (r1 ++ [p]) → h_size h base = 0 →
  Forall (λ x, h_size h x.1 = x.2) (headers start pre) → joined h bp s post bn size1 →
  heap_ok (Heap ptr1 size1 p (h_brk h) (h_grant h)) (pre ++ (false, (join_right s post).1) :: (join_right s post).2).
Proof.
  intros bp Hs Hm He Ht Hbrk Er Hc Hinc Hb Hh [J1 J2 J3 J4 J5 J6 J7 J8 J9 J10]. destruct (join_right s post) as [s' post'] eqn:Ej. cbn [fst snd] in *.
  pose proof (sized_total pre Hs) as Htp. pose proof (sized_total post' J4) as Htq.
  assert (∀ x, x ∈ r1 ++ [p] → x < bp) as Hlt.
  { rewrite <- Er. intros x Hx. apply elem_of_cons in Hx as [->|Hx]; [unfold bp, HDR; lia|]. apply frees_lt in Hx; [fold bp in Hx; lia|done]. }
  assert (∀ x, x ∈ frees (bp + HDR * s') post' → bp < x) as Hgt by (intros x Hx; apply frees_lt in Hx; [unfold HDR in *; lia|done]).
  assert (p < bp) as Hpb by (apply Hlt, elem_of_app; right; by left).
  pose proof (inc_snoc_notin r1 p Hinc) as Hp1.
  split; cbn [h_brk h_ptr h_size h_freep].
  - unfold sized. apply Forall_app. split; [done|by constructor].
  - apply merged_app. rewrite merged_snoc, merged_cons. auto.
  - rewrite total_app. cbn [total]. lia.
  - rewrite total_app. cbn [total]. rewrite Hbrk. lia.
  - assert (base :: frees start (pre ++ (false, s') :: post') = r1 ++ p :: bp :: frees (bp + HDR * s') post') as Ef.
    { rewrite frees_app, app_comm_cons, Er, <- app_assoc. reflexivity. }
    rewrite Ef. apply chain_app. unfold ptr1. fold bp. split.
    + rewrite !chain_upd; [done| |done]. intros Hx. specialize (Hlt bp). rewrite elem_of_app in Hlt. specialize (Hlt (or_introl Hx)). lia.
    + cbn [chain head]. rewrite fupdz_eq. split; [done|]. rewrite fupdz_ne, fupdz_eq by lia. split; [exact J1|].
      rewrite !chain_upd; [done| |]; intros Hx; specialize (Hgt _ Hx); lia.
  - rewrite J8; [done|]. unfold bp, HDR. lia.
  - rewrite headers_app. apply Forall_app. split.
    + apply (sizes_ext (h_size h)); [done..|]. intros x Hx. apply J8. fold bp in Hx. lia.
    + fold bp. cbn [headers]. constructor; [exact J7|]. apply (sizes_ext (h_size h)); [done..|]. intros x Hx. apply J8. unfold HDR in *. lia.
  - assert (p ∈ base :: frees start pre) as Hp by (rewrite Er; apply elem_of_app; right; by left).
    rewrite elem_of_cons in Hp |- *. destruct Hp as [->|Hp]; [by left|right]. rewrite frees_app. apply elem_of_app. by left.
Qed.

(** A free segment of size [s1] before the block takes it in. *)
Lemma free_joined h pre s1 s post bn size1 (p := start + HDR * total pre) (bp := p + HDR * s1)
    (ptr1 := fupdz (fupdz (h_ptr h) bp bn) p bn) :
  sized pre → 1 <= s1 → merged (pre ++ [(false, s1)]) → total pre + (s1 + (s + total post)) < 2 ^ 27 →
  h_brk h = start + HDR * (total pre + (s1 + (s + total post))) →
  chain (h_ptr h) (base :: frees start pre) p → h_size h base = 0 → Forall (λ x, h_size h x.1 = x.2) (headers start pre) →
  joined h bp s post bn size1 →
  heap_ok (Heap ptr1 (fupdz size1 p (u32 (s1 + (join_right s post).1))) p (h_brk h) (h_grant h))
    (pre ++ (false, s1 + (join_right s post).1) :: (join_right s post).2).
Proof.
  intros Hs Hs1 Hm Ht Hbrk Hc Hb Hh [J1 J2 J3 J4 J5 J6 J7 J8 J9 J10]. destruct (join_right s post) as [s' post'] eqn:Ej. cbn [fst snd] in *.
  pose proof (sized_total pre Hs) as Htp. pose proof (sized_total post' J4) as Htq. apply merged_snoc in Hm as [Hm He].
  assert (∀ x, x ∈ base :: frees start pre → x < p) as Hlt.
  { intros x Hx. apply elem_of_cons in Hx as [->|Hx]; [unfold p, HDR; lia|]. apply frees_lt in Hx; [fold p in Hx; lia|done]. }
  assert (∀ x, x ∈ frees (bp + HDR * s') post' → bp < x) as Hgt by (intros x Hx; apply frees_lt in Hx; [unfold HDR in *; lia|done]).
  assert (p < bp) as Hpb by (unfold bp, HDR; lia).
  assert (bp + HDR * s' = p + HDR * (s1 + s')) as Ea by (unfold bp; lia). rewrite u32_small by lia.
  split; cbn [h_brk h_ptr h_size h_freep].
  - unfold sized. apply Forall_app. split; [done|constructor; [cbn; lia|done]].
  - apply merged_app. rewrite merged_snoc, merged_cons. auto.
  - rewrite total_app. cbn [total]. lia.
  - rewrite total_app. cbn [total]. rewrite Hbrk. lia.
  - assert (base :: frees start (pre ++ (false, s1 + s') :: post') = (base :: frees start pre) ++ p :: frees (bp + HDR * s') post') as Ef.
    { rewrite frees_app, app_comm_cons, Ea. reflexivity. }
    rewrite Ef. apply chain_app. unfold ptr1. split.
    + rewrite !chain_upd; [done| |]; intros Hx; specialize (Hlt _ Hx); lia.
    + cbn [chain]. rewrite fupdz_eq. split; [exact J1|]. rewrite !chain_upd; [done| |]; intros Hx; specialize (Hgt _ Hx); lia.
  - assert (base < p) by (apply Hlt; by left). rewrite fupdz_ne, J8 by lia. done.
  - rewrite headers_app. apply Forall_app. split.
    + apply (sizes_ext (h_size h)); [done..|]. intros x Hx. fold p in Hx. rewrite fupdz_ne, J8 by lia. done.
    + fold p. cbn [headers]. constructor; [apply fupdz_eq|]. rewrite <- Ea. apply (sizes_ext (h_size h)); [done..|]. intros x Hx.
      rewrite fupdz_ne, J8 by (unfold HDR in *; lia). done.
  - apply elem_of_cons. right. rewrite frees_app. apply elem_of_app. right. by left.
Qed.

(** [free] of a block in use makes the row [release pre s post]. *)
Lemma free_run fuel h pre s post : heap_ok h (pre ++ (true, s) :: post) →
  (2 * (2 + length (pre ++ (true, s) :: post)) < fuel)%nat →
  ∃ h', free fuel (start + HDR * total pre + HDR) (Thread [] h) = Ok tt (Thread [] h') ∧ heap_ok h' (release pre s post) ∧ h_grant h' = h_grant h.
Proof.
  intros [Hs Hm Ht Hbrk Hc Hb Hh Hf] Hfu. set (bp := start + HDR * total pre).
  unfold sized in Hs. apply Forall_app in Hs as [Hsp Hs]. inversion Hs as [|? ? Hs1 Hspo]; subst. cbn in Hs1.
  pose proof (sized_total pre Hsp) as Htp. pose proof (sized_total post Hspo) as Htq. rewrite total_app in Ht, Hbrk. cbn [total] in Ht, Hbrk.
  rewrite headers_app in Hh. fold bp in Hh. cbn [headers] in Hh. apply Forall_app in Hh as [Hhp Hh]. inversion Hh as [|? ? Hhb Hhq]; subst. cbn in Hhb.
  assert (frees start (pre ++ (true, s) :: post) = frees start pre ++ frees (bp + HDR * s) post) as Hfr by (rewrite frees_app; reflexivity).
  destruct (ring_before h pre Hsp Hb Hhp) as (r1 & p & Er & Hend & Hfree).
  assert (base :: frees start (pre ++ (true, s) :: post) = r1 ++ p :: frees (bp + HDR * s) post) as Hring.
  { rewrite Hfr, app_comm_cons, Er, <- app_assoc. done. }
  rewrite Hring in Hc, Hf.
  assert (inc (r1 ++ p :: frees (bp + HDR * s) post)) as Hinc.
  { rewrite <- Hring. apply ring_inc. unfold sized. apply Forall_app. split; [done|by constructor]. }
  assert (Forall (λ x, x < bp) (r1 ++ [p])) as Hlt.
  { rewrite <- Er. constructor; [unfold bp, HDR; lia|]. eapply Forall_impl; [by apply frees_range|]. intros x. cbn. fold bp. lia. }
  assert (Forall (λ x, bp < x) (frees (bp + HDR * s) post)) as Hgt.
  { eapply Forall_impl; [by apply frees_range|]. intros x. cbn. unfold HDR. lia. }
  assert (p < bp) as Hpb by (apply Forall_app in Hlt as [_ Hlt]; by inversion Hlt).
  assert (free_loop fuel bp (h_freep h) (Thread [] h) = Ok p (Thread [] h)) as Efl.
  { apply (free_loop_run base h bp p r1 (frees (bp + HDR * s) post)); try done.
    - by rewrite <- Er.
    - rewrite <- Hring. cbn [length]. pose proof (frees_length start (pre ++ (true, s) :: post)). lia. }
  pose proof (free_eval fuel h bp p Efl ltac:(lia)) as Eev. cbv zeta in Eev. rewrite Hhb in Eev. eexists. split; [exact Eev|]. split; [|done].
  clear Eev Efl Hfu. apply chain_app in Hc as [Hc1 Hc2].
  destruct (join_right_ok h p bp s post) as [Ebs J]; try done.
  { apply merged_app in Hm. tauto. } { lia. } { unfold bp, HDR. lia. }
  assert (inc (r1 ++ [p])) as Hinc1 by (apply (inc_app_l _ (frees (bp + HDR * s) post)); by rewrite <- app_assoc).
  rewrite Ebs in J |- *. unfold release. destruct (join_right s post) as [s' post'] eqn:Ej. cbn [fst snd] in *.
  assert (merged pre) as Hmp by (apply merged_app in Hm as [Hm _]; by apply merged_snoc in Hm as [Hm _]).
  destruct pre as [|[u s1] pre _] using rev_ind; [|rewrite last_snoc; destruct u].
  - rewrite (proj2 (Z.eqb_neq _ bp)) by (pose proof (Hend (or_introl eq_refl)); unfold bp; lia).
    pose proof (free_linked h [] s post p r1 _ _ Hsp Hmp (or_introl eq_refl) ltac:(lia) ltac:(lia) Er Hc1 Hinc1 Hb Hhp J) as Hok.
    rewrite Ej in Hok. exact Hok.
  - assert (ends_used (pre ++ [(true, s1)])) as He by (by apply ends_used_snoc).
    rewrite (proj2 (Z.eqb_neq _ bp)) by (pose proof (Hend He); unfold bp; lia).
    pose proof (free_linked h _ s post p r1 _ _ Hsp Hmp He ltac:(lia) ltac:(lia) Er Hc1 Hinc1 Hb Hhp J) as Hok.
    rewrite Ej in Hok. exact Hok.
  - destruct (Hfree pre s1 eq_refl) as (-> & -> & Hps). rewrite Hps, removelast_last. unfold sized in Hsp. apply Forall_app in Hsp as [Hsp Hs1'].
    apply Forall_inv in Hs1'. cbn in Hs1'.
    assert (bp = start + HDR * total pre + HDR * s1) as Ebp by (unfold bp; rewrite total_app; cbn [total]; lia).
    clearbody bp. rewrite total_app in Ht, Hbrk. cbn [total] in Ht, Hbrk.
    rewrite <- Ebp, Z.eqb_refl. rewrite headers_app in Hhp. apply Forall_app in Hhp as [Hhp _]. rewrite Ebp in J |- *.
    pose proof (free_joined h pre s1 s post _ _ Hsp Hs1' Hmp ltac:(lia) ltac:(lia) Hc1 Hb Hhp J) as Hok. rewrite Ej in Hok. exact Hok.
Qed.

(** *** Taking a segment *)

(** The segment [s] between [pre] and [post] gives up its last [n] units. *)
Definition carve (pre : list seg) (s n : Z) (post : list seg) : list seg :=
  pre ++ (if s =? n then [(true, n)] else [(false, s - n); (true, n)]) ++ post.

(** The two ways [malloc] takes a block: the whole segment, or its tail. *)
Definition take_whole (h : heap) (q p : Z) : heap := Heap (fupdz (h_ptr h) q (h_ptr h p)) (h_size h) q (h_brk h) (h_grant h).
Definition take_tail (h : heap) (q p s n : Z) : heap :=
  Heap (h_ptr h) (fupdz (fupdz (h_size h) p (s - n)) (p + HDR * (s - n)) n) q (h_brk h) (h_grant h).

Lemma carve_ok h pre s n post r1 q (p := start + HDR * total pre) :
  heap_ok h (pre ++ (false, s) :: post) → 1 <= n <= s → base :: frees start pre = r1 ++ [q] →
  heap_ok (if s =? n then take_whole h q p else take_tail h q p s n) (carve pre s n post).
Proof.
  intros [Hs Hm Ht Hbrk Hc Hb Hh Hf] Hn Er. unfold sized in Hs. apply Forall_app in Hs as [Hsp Hs]. inversion Hs as [|? ? Hs1 Hspo]; subst. cbn in Hs1.
  pose proof (sized_total pre Hsp) as Htp. pose proof (sized_total post Hspo) as Htq. rewrite total_app in Ht, Hbrk. cbn [total] in Ht, Hbrk.
  rewrite headers_app in Hh. fold p in Hh. cbn [headers] in Hh. apply Forall_app in Hh as [Hhp Hh]. inversion Hh as [|? ? Hhb Hhq]; subst. cbn in Hhb.
  assert (frees start (pre ++ (false, s) :: post) = frees start pre ++ p :: frees (p + HDR * s) post) as Ef by (rewrite frees_app; reflexivity).
  rewrite Ef, app_comm_cons, Er in Hc.
  apply merged_app in Hm as [Hm1 Hm2]. apply merged_snoc in Hm1 as [Hm1 He]. apply merged_cons in Hm2 as [Hm2 Hu].
  assert (q ∈ base :: frees start pre) as Hq by (rewrite Er; apply elem_of_app; right; by left).
  assert (∀ x, x ∈ base :: frees start pre → x < p) as Hlt.
  { intros x Hx. apply elem_of_cons in Hx as [->|Hx]; [unfold p, HDR; lia|]. apply frees_lt in Hx; [fold p in Hx; lia|done]. }
  assert (∀ x, x ∈ frees (p + HDR * s) post → p < x) as Hgt by (intros x Hx; apply frees_lt in Hx; [unfold HDR in *; lia|done]).
  unfold carve. destruct (Z.eqb_spec s n) as [->|Hne].
  - assert (base :: frees start (pre ++ [(true, n)] ++ post) = r1 ++ q :: frees (p + HDR * n) post) as Ef2.
    { rewrite frees_app, app_comm_cons, Er, <- app_assoc. reflexivity. }
    split; cbn [h_brk h_ptr h_size h_freep take_whole].
    + unfold sized. apply Forall_app. split; [done|constructor; [done|done]].
    + cbn [app]. apply merged_app. rewrite merged_snoc, merged_cons. auto.
    + rewrite total_app. cbn [app total]. lia.
    + rewrite total_app. cbn [app total]. rewrite Hbrk. lia.
    + rewrite Ef2. rewrite <- app_assoc in Hc. cbn [app] in Hc. apply chain_app in Hc as [Hc1 Hc2]. cbn [chain head] in Hc2.
      assert (inc (r1 ++ [q])) as Hi by (rewrite <- Er; by apply ring_inc). pose proof (inc_snoc_notin r1 q Hi) as Hq1.
      apply chain_app. split; [by apply chain_upd|]. cbn [chain]. rewrite fupdz_eq. destruct Hc2 as (_ & Hp & Hc2). split; [exact Hp|].
      apply chain_upd; [|done]. intros Hx. specialize (Hgt _ Hx). specialize (Hlt _ Hq). lia.
    + done.
    + rewrite headers_app. apply Forall_app. split; [done|]. fold p. by constructor.
    + rewrite elem_of_cons in Hq |- *. destruct Hq as [->|Hq]; [by left|right]. rewrite frees_app. apply elem_of_app. by left.
  - assert (p + HDR * (s - n) + HDR * n = p + HDR * s) as Ea by (unfold HDR; lia).
    split; cbn [h_brk h_ptr h_size h_freep take_tail].
    + unfold sized. apply Forall_app. split; [done|]. constructor; [cbn; lia|]. constructor; [cbn; lia|done].
    + cbn [app]. apply merged_app. rewrite merged_snoc, !merged_cons. cbn. auto.
    + rewrite total_app. cbn [app total]. lia.
    + rewrite total_app. cbn [app total]. rewrite Hbrk. lia.
    + rewrite frees_app. fold p. cbn [app frees]. rewrite Ea, app_comm_cons, Er. exact Hc.
    + assert (base < p) by (apply Hlt; by left). rewrite !fupdz_ne by (unfold HDR; lia). done.
    + rewrite headers_app. apply Forall_app. fold p. cbn [app headers]. rewrite Ea. split; [|constructor; [|constructor]].
      * apply (sizes_ext (h_size h)); [done..|]. intros x Hx. fold p in Hx. rewrite !fupdz_ne by (unfold HDR; lia). done.
      * cbn. rewrite fupdz_ne, fupdz_eq by (unfold HDR; lia). done.
      * apply fupdz_eq.
      * apply (sizes_ext (h_size h)); [done..|]. intros x Hx. rewrite !fupdz_ne by (unfold HDR in *; lia). done.
    + rewrite elem_of_cons in Hq |- *. destruct Hq as [->|Hq]; [by left|right]. rewrite frees_app. apply elem_of_app. by left.
Qed.

(** *** The search of [malloc] *)

Lemma nodup_split (x : Z) l1 : ∀ l2 k1 k2, NoDup (l1 ++ x :: l2) → l1 ++ x :: l2 = k1 ++ x :: k2 → l1 = k1.
Proof.
  induction l1 as [|a l1 IH]; intros l2 [|b k1] k2 Hn E; cbn in *; [done| | |].
  - injection E as <- ->. apply NoDup_cons in Hn as [Hn _]. exfalso. apply Hn, elem_of_app. right. by left.
  - injection E as -> <-. apply NoDup_cons in Hn as [Hn _]. exfalso. apply Hn, elem_of_app. right. by left.
  - injection E as -> E. apply NoDup_cons in Hn as [_ Hn]. f_equal. by eapply IH.
Qed.

(** Only the predecessor points to an address of the ring. *)
Lemma ring_pred h r1 q' x r2 q : chain (h_ptr h) (r1 ++ q' :: x :: r2) base → NoDup (r1 ++ q' :: x :: r2) → x ≠ base →
  q ∈ r1 ++ q' :: x :: r2 → h_ptr h q = x → q = q'.
Proof.
  intros Hc Hn Hx Hq Ep. apply list_elem_of_split in Hq as (c & d & E). rewrite E in Hc. apply chain_app in Hc as [_ Hc].
  cbn [chain] in Hc. destruct Hc as [Hc _]. rewrite Ep in Hc. destruct d as [|y d]; [done|]. cbn in Hc. change (id y) with y in Hc. subst y.
  assert (r1 ++ [q'] = c ++ [q]) as Es.
  { apply (nodup_split x _ r2 _ d).
    - rewrite <- app_assoc. exact Hn.
    - rewrite <- !app_assoc. exact E. }
  by apply app_inj_tail in Es as [_ ->].
Qed.

Lemma malloc_walk F h n e o : ∀ k q, chain (h_ptr h) (q :: o) e → Forall (λ x, x ≠ h_freep h ∧ h_size h x < n) o →
  ∃ q', malloc_loop F (length o + k) n q (default e (head o)) (Thread [] h) = malloc_loop F k n q' e (Thread [] h) ∧ q' ∈ q :: o ∧ h_ptr h q' = e.
Proof.
  induction o as [|x o IH]; intros k q Hc Ho.
  - exists q. split; [done|]. split; [by left|]. apply Hc.
  - inversion Ho as [|? ? [Hx Hs] Ho2]; subst. cbn [chain] in Hc. destruct Hc as [Hq Hc]. destruct (IH k x Hc Ho2) as (q' & E & Hin & Hp).
    exists q'. split; [|split; [by right|done]]. rewrite <- E. cbn [length Nat.add head]. change (default e (Some x)) with x.
    cbn [malloc_loop]. unfold size_of, ptr_of. kstep. cbn [st]. rewrite (proj2 (Z.leb_gt n (h_size h x))) by lia. repeat kstep. cbn [st].
    rewrite (proj2 (Z.eqb_neq x (h_freep h))) by done. kstep. cbn [st]. cbn [chain] in Hc. by rewrite (proj1 Hc).
Qed.

(** The block is found. *)
Lemma malloc_found F k h n q p : 1 <= n <= h_size h p → h_size h p < 2 ^ 27 → let s := h_size h p in
  malloc_loop F (S k) n q p (Thread [] h) =
  Ok (p + HDR * (s - n) + HDR) (Thread [] (if s =? n then take_whole h q p else take_tail h q p s n)).
Proof.
  intros Hn Hs s. cbn [malloc_loop]. unfold size_of, ptr_of, set_ptr, set_freep, set_size. kstep. cbn [st]. fold s. rewrite (proj2 (Z.leb_le n s)) by (unfold s; lia).
  destruct (Z.eqb_spec s n) as [->|Hne].
  - repeat kstep. unfold ret. cbn [held st h_ptr h_size h_freep h_brk h_grant]. rewrite Z.sub_diag, Z.mul_0_r, Z.add_0_r. done.
  - repeat kstep. unfold ret. cbn [held st h_ptr h_size h_freep h_brk h_grant]. rewrite fupdz_eq, !u32_small by (unfold s in *; lia). done.
Qed.

Lemma frees_split a l x : x ∈ frees a l → ∃ pre s post, l = pre ++ (false, s) :: post ∧ x = a + HDR * total pre.
Proof.
  revert a. induction l as [|[u s] l IH]; intros a; cbn; [by intros ?%not_elem_of_nil|]. rewrite elem_of_app. intros [Hx|Hx].
  - destruct u; [by apply not_elem_of_nil in Hx|]. apply list_elem_of_singleton in Hx as ->. exists [], s, l. split; [done|cbn; lia].
  - destruct (IH _ Hx) as (pre & s' & post & -> & ->). exists ((u, s) :: pre), s', post. split; [done|]. cbn. lia.
Qed.

Definition fits (l : list seg) (n : Z) : Prop := ∃ s, (false, s) ∈ l ∧ n <= s.

#[local] Instance fits_dec l n : Decision (fits l n).
Proof.
  destruct (decide (Exists (λ x : seg, x.1 = false ∧ n <= x.2) l)) as [H|H].
  - left. apply Exists_exists in H as ([u s] & Hin & Hu & Hs). cbn in Hu. subst. by exists s.
  - right. intros (s & Hin & Hs). apply H, Exists_exists. by exists (false, s).
Defined.

Lemma fits_header h l n : heap_ok h l → 1 <= n → fits l n ↔ ∃ x, x ∈ base :: frees start l ∧ n <= h_size h x.
Proof.
  intros Hok Hn. split.
  - intros (s & Hin & Hs). apply list_elem_of_split in Hin as (pre & post & ->). exists (start + HDR * total pre). split.
    + right. rewrite frees_app. apply elem_of_app. right. by left.
    + pose proof (ho_sizes _ _ Hok) as Hh. rewrite headers_app in Hh. apply Forall_app in Hh as [_ Hh]. inversion Hh as [|? ? Hx _]; subst. cbn in Hx. lia.
  - intros (x & Hx & Hs). apply elem_of_cons in Hx as [->|Hx]; [rewrite (ho_base _ _ Hok) in Hs; lia|].
    apply frees_split in Hx as (pre & s & post & -> & ->). exists s. split; [apply elem_of_app; right; by left|].
    pose proof (ho_sizes _ _ Hok) as Hh. rewrite headers_app in Hh. apply Forall_app in Hh as [_ Hh]. inversion Hh as [|? ? Hx _]; subst. cbn in Hx. lia.
Qed.

(** From [freep] the search goes round the ring once. *)
Lemma ring_round h l : heap_ok h l → ∃ o, chain (h_ptr h) (h_freep h :: o) (h_freep h) ∧ h_freep h ∉ o ∧
  base :: frees start l ≡ₚ h_freep h :: o.
Proof.
  intros Hok. pose proof (ho_chain _ _ Hok) as Hc. pose proof (inc_nodup _ (ring_inc l (ho_sized _ _ Hok))) as Hn.
  destruct (list_elem_of_split _ _ (ho_freep _ _ Hok)) as (a & b & E). rewrite E in Hc, Hn.
  assert (base :: frees start l ≡ₚ h_freep h :: b ++ a) as Hperm by (rewrite E; rewrite (Permutation_app_comm a); done).
  exists (b ++ a). apply chain_app in Hc as [Hc1 Hc2]. split; [|split; [|done]].
  - change (h_freep h :: b ++ a) with ((h_freep h :: b) ++ a). destruct a as [|y a].
    + rewrite app_nil_r. injection E as E _. rewrite E in Hc2. exact Hc2.
    + injection E as <- _. apply chain_app. split; [done|done].
  - assert (NoDup (h_freep h :: b ++ a)) as Hn2 by (by rewrite <- Hperm, E). by apply NoDup_cons in Hn2 as [? _].
Qed.

Lemma malloc_fit F k h l n : heap_ok h l → 1 <= n → fits l n → (length l + 2 <= k)%nat →
  ∃ pre s post h', l = pre ++ (false, s) :: post ∧ n <= s ∧ heap_ok h' (carve pre s n post) ∧ h_grant h' = h_grant h ∧
    malloc_loop F k n (h_freep h) (h_ptr h (h_freep h)) (Thread [] h) = Ok (start + HDR * (total pre + s - n) + HDR) (Thread [] h').
Proof.
  intros Hok Hn Hfit Hk. destruct (ring_round h l Hok) as (o & Hc & Hfo & Hperm).
  assert (length o <= length l)%nat as Hlen.
  { apply Permutation_length in Hperm. cbn in Hperm. pose proof (frees_length start l). lia. }
  assert (∃ o1 x, chain (h_ptr h) (h_freep h :: o1) x ∧ Forall (λ x, x ≠ h_freep h ∧ h_size h x < n) o1 ∧ n <= h_size h x ∧
    x ∈ base :: frees start l ∧ (length o1 <= length o)%nat ∧ (∀ y, y ∈ o1 → y ∈ o) ∧ h_ptr h (h_freep h) = default x (head o1)) as
    (o1 & x & Hc1 & Ho1 & Hx & Hxr & Hl1 & Hsub & Hhd).
  { destruct (decide (Exists (λ x, n <= h_size h x) o)) as [He|He].
    - assert (∃ o1 x o2, o = o1 ++ x :: o2 ∧ n <= h_size h x ∧ Forall (λ x, h_size h x < n) o1) as (o1 & x & o2 & -> & Hx & Ho1).
      { clear -He. induction o as [|y o IH]; [by apply Exists_nil in He|]. destruct (decide (n <= h_size h y)); [by exists [], y, o|].
        apply Exists_cons in He as [?|He]; [lia|]. destruct (IH He) as (o1 & x & o2 & -> & Hx & Ho1). exists (y :: o1), x, o2.
        split; [done|]. split; [done|]. constructor; [lia|done]. }
      exists o1, x. change (h_freep h :: o1 ++ x :: o2) with ((h_freep h :: o1) ++ x :: o2) in Hc. apply chain_app in Hc as [Hc1 _].
      split; [done|]. split; [|split; [done|split; [|split; [rewrite length_app; lia|split; [|apply Hc1]]]]].
      + apply Forall_forall. intros y Hy. rewrite Forall_forall in Ho1. split; [|by apply Ho1]. intros ->. apply Hfo, elem_of_app. by left.
      + rewrite Hperm. right. apply elem_of_app. right. by left.
      + intros y Hy. apply elem_of_app. by left.
    - exists o, (h_freep h). split; [done|]. split; [|split; [|split; [rewrite Hperm; by left|split; [done|split; [done|apply Hc]]]]].
      + apply Forall_forall. intros y Hy. split; [by intros ->|]. apply not_Exists_Forall in He; [|apply _]. rewrite Forall_forall in He. specialize (He y Hy). cbn in He. lia.
      + apply (fits_header h l n Hok Hn) in Hfit as (y & Hy & Hs). rewrite Hperm in Hy. apply elem_of_cons in Hy as [->|Hy]; [done|].
        exfalso. apply He, Exists_exists. by exists y. }
  destruct (malloc_walk F h n x o1 (S (k - length o1 - 1)) (h_freep h) Hc1 Ho1) as (q & Ew & Hq & Hqx).
  assert (x ≠ base) as Hxb by (intros ->; rewrite (ho_base _ _ Hok) in Hx; lia).
  apply elem_of_cons in Hxr as [?|Hxr]; [done|]. apply frees_split in Hxr as (pre & s & post & -> & Ex).
  assert (h_size h x = s) as Hs.
  { pose proof (ho_sizes _ _ Hok) as Hh. rewrite headers_app in Hh. apply Forall_app in Hh as [_ Hh]. inversion Hh as [|? ? Hy _]; subst. exact Hy. }
  destruct (exists_last (l := base :: frees start pre)) as (r1 & q' & Er); [done|].
  assert (base :: frees start (pre ++ (false, s) :: post) = r1 ++ q' :: x :: frees (x + HDR * s) post) as Ering.
  { rewrite frees_app, app_comm_cons, Er, <- app_assoc, <- Ex. reflexivity. }
  assert (q = q') as ->.
  { apply (ring_pred h r1 q' x (frees (x + HDR * s) post)); try done; rewrite <- ?Ering; [apply (ho_chain _ _ Hok)|apply inc_nodup, ring_inc, (ho_sized _ _ Hok)|].
    rewrite Hperm. apply elem_of_cons in Hq as [->|Hq]; [by left|right; by apply Hsub]. }
  pose proof (ho_total _ _ Hok) as Ht. rewrite total_app in Ht. cbn [total] in Ht.
  pose proof (ho_sized _ _ Hok) as Hsz. unfold sized in Hsz. apply Forall_app in Hsz as [Hsz1 Hsz2]. inversion Hsz2 as [|? ? _ Hsz3]; subst.
  pose proof (sized_total pre Hsz1). pose proof (sized_total post Hsz3).
  eexists pre, _, post, _. split; [reflexivity|]. split; [exact Hx|]. split; [by apply (carve_ok h pre _ n post r1 q' Hok)|].
  split; [by destruct (_ =? n)|]. rewrite Hhd. replace k with (length o1 + S (k - length o1 - 1))%nat by lia. rewrite Ew.
  rewrite malloc_found by lia. f_equal. lia.
Qed.

(** *** Blocks in use *)

Fixpoint used (a : Z) (l : list seg) : list (Z * Z) :=
  match l with [] => [] | (u, s) :: l => (if (u : bool) then [(a, s)] else []) ++ used (a + HDR * s) l end.

Lemma used_app a l1 l2 : used a (l1 ++ l2) = used a l1 ++ used (a + HDR * total l1) l2.
Proof.
  revert a. induction l1 as [|[u s] l1 IH]; intros a; cbn; [f_equal; lia|]. rewrite IH, <- app_assoc. do 3 f_equal. lia.
Qed.

Lemma used_split a l x s : (x, s) ∈ used a l → ∃ pre post, l = pre ++ (true, s) :: post ∧ x = a + HDR * total pre.
Proof.
  revert a. induction l as [|[u s'] l IH]; intros a; cbn; [by intros ?%not_elem_of_nil|]. rewrite elem_of_app. intros [Hx|Hx].
  - destruct u; [|by apply not_elem_of_nil in Hx]. apply list_elem_of_singleton in Hx as [= -> ->]. exists [], l. split; [done|cbn; lia].
  - destruct (IH _ Hx) as (pre & post & -> & ->). exists ((u, s') :: pre), post. split; [done|]. cbn. lia.
Qed.

Lemma carve_used pre s n post : used start (carve pre s n post) ≡ₚ
  (start + HDR * (total pre + s - n), n) :: used start (pre ++ (false, s) :: post).
Proof.
  unfold carve. rewrite !used_app. rewrite Permutation_middle. apply Permutation_app_head. cbn [used app].
  destruct (Z.eqb_spec s n) as [->|Hne]; cbn [used app].
  - replace (start + HDR * total pre) with (start + HDR * (total pre + n - n)) by lia. cbn [total]. rewrite Z.add_0_r. done.
  - cbn [total]. replace (start + HDR * total pre + HDR * (s - n)) with (start + HDR * (total pre + s - n)) by lia.
    replace (start + HDR * total pre + HDR * (s - n + (n + 0))) with (start + HDR * total pre + HDR * s) by lia. done.
Qed.

Lemma join_right_used a s post : used (a + HDR * (join_right s post).1) (join_right s post).2 = used (a + HDR * s) post ∧
  (join_right s post).1 + total (join_right s post).2 = s + total post.
Proof.
  destruct post as [|[[] s2] post]; cbn [join_right fst snd used app total]; [done|done|]. split; [f_equal; lia|lia].
Qed.

Lemma release_used pre s post : used start (pre ++ (true, s) :: post) ≡ₚ (start + HDR * total pre, s) :: used start (release pre s post) ∧
  total (release pre s post) = total (pre ++ (true, s) :: post).
Proof.
  unfold release. destruct (join_right_used (start + HDR * total pre) s post) as [Hu Ht]. destruct (join_right s post) as [s' post']. cbn [fst snd] in *.
  rewrite used_app, total_app. cbn [used app total]. rewrite <- Permutation_middle.
  destruct pre as [|[u s1] pre _] using rev_ind; [|rewrite last_snoc, removelast_last; destruct u].
  - cbn [last app used total] in *. replace (start + HDR * 0) with start in * by lia. rewrite Hu. split; [done|lia].
  - rewrite (used_app start (pre ++ [(true, s1)]) ((false, s') :: post')), (total_app (pre ++ [(true, s1)]) ((false, s') :: post')). cbn [used app total]. rewrite Hu. split; [done|lia].
  - rewrite !used_app, !total_app in *. cbn [used app total] in *. rewrite app_nil_r. rewrite <- Hu.
    replace (start + HDR * total pre + HDR * (s1 + s')) with (start + HDR * (total pre + (s1 + 0)) + HDR * s') by lia. split; [done|lia].
Qed.

(** *** [morecore] and [malloc] *)

Definition grow (n : Z) : Z := if n <? 4096 then 4096 else n.

Lemma morecore_run F h l n : heap_ok h l → 1 <= n → total l + grow n < 2 ^ 27 → (2 * (3 + length l) < F)%nat →
  match h_grant h with
  | true :: g => ∃ h', morecore F n (Thread [] h) = Ok (h_freep h') (Thread [] h') ∧ heap_ok h' (release l (grow n) []) ∧ h_grant h' = g
  | g => ∃ h', morecore F n (Thread [] h) = Ok 0 (Thread [] h') ∧ heap_ok h' l ∧ h_grant h' = tail g
  end.
Proof.
  intros Hok Hn Ht Hf. pose proof (ho_sized _ _ Hok) as Hs. pose proof (sized_total l Hs) as Ht0.
  assert (1 <= grow n) as Hg by (unfold grow; destruct (n <? 4096); lia).
  assert (s32 (u64 (grow n * HDR)) = grow n * HDR) as Es by (unfold HDR; rewrite u64_small by lia; apply signed_small; lia).
  assert (∀ g, heap_ok (Heap (h_ptr h) (h_size h) (h_freep h) (h_brk h) g) l) as Hsame by (intros g; destruct Hok; by split).
  unfold morecore, sbrk. fold (grow n). cbv zeta. rewrite Es. rewrite (proj2 (Z.ltb_ge (grow n * HDR) 0)) by (unfold HDR; lia).
  destruct (h_grant h) as [|[] g] eqn:Eg.
  - eexists. split; [|split; [apply (Hsame [])|done]]. repeat kstep. cbn [st]. rewrite Eg. repeat kstep. rewrite Eg. cbn [st]. done.
  - set (h1 := Heap (h_ptr h) (fupdz (h_size h) (h_brk h) (u32 (grow n))) (h_freep h) (h_brk h + grow n * HDR) g).
    pose proof (ho_brk _ _ Hok) as Hbrk.
    assert (heap_ok h1 (l ++ [(true, grow n)])) as Hok1.
    { destruct Hok as [H1 H2 H3 H4 H5 H6 H7 H8]. unfold h1. rewrite u32_small by lia. split; cbn [h_brk h_ptr h_size h_freep].
      - unfold sized. apply Forall_app. split; [done|by constructor].
      - apply merged_snoc. auto.
      - rewrite total_app. cbn. lia.
      - rewrite total_app. cbn. unfold HDR in *. lia.
      - rewrite frees_app. cbn. by rewrite app_nil_r.
      - rewrite fupdz_ne; [done|]. unfold HDR in *. lia.
      - rewrite headers_app. apply Forall_app. split.
        + apply (sizes_ext (h_size h)); [done..|]. intros x Hx. rewrite fupdz_ne; [done|]. lia.
        + constructor; [|constructor]. cbn. rewrite <- H4. apply fupdz_eq.
      - rewrite frees_app. cbn. by rewrite app_nil_r. }
    destruct (free_run F h1 l (grow n) [] Hok1) as (h' & E & Hok' & Hgr).
    { rewrite length_app. cbn. lia. }
    exists h'. split; [|split; [done|by rewrite Hgr]]. repeat kstep. cbn [st]. rewrite Eg. repeat kstep. cbn [st].
    rewrite (proj2 (Z.eqb_neq (h_brk h) (-1))) by (unfold HDR in *; lia). unfold set_size. kstep. cbn [held st h_ptr h_size h_freep h_brk h_grant].
    fold h1. rewrite Hbrk. rewrite (bind_Ok _ _ _ _ _ E). done.
  - eexists. split; [|split; [apply (Hsame g)|done]]. repeat kstep. cbn [st]. rewrite Eg. repeat kstep. rewrite Eg. cbn [st]. done.
Qed.

Lemma release_fits l g n : n <= g → sized l → fits (release l g []) n.
Proof.
  intros Hg Hs. unfold release. cbn [join_right]. destruct l as [|[u s1] l _] using rev_ind; [|rewrite last_snoc, removelast_last; destruct u].
  - exists g. split; [by left|done].
  - exists g. split; [apply elem_of_app; right; by left|done].
  - unfold sized in Hs. apply Forall_app in Hs as [_ Hs]. inversion Hs; subst. cbn in *. exists (s1 + g). split; [apply elem_of_app; right; by left|lia].
Qed.

Lemma malloc_grows F k h l n : heap_ok h l → 1 <= n → ¬ fits l n → total l + grow n < 2 ^ 27 → (2 * (length l + 4) < F)%nat → (2 * length l + 8 <= k)%nat →
  ∃ h', match h_grant h with
  | true :: g => ∃ pre s post, release l (grow n) [] = pre ++ (false, s) :: post ∧ n <= s ∧ heap_ok h' (carve pre s n post) ∧ h_grant h' = g ∧
      malloc_loop F k n (h_freep h) (h_ptr h (h_freep h)) (Thread [] h) = Ok (start + HDR * (total pre + s - n) + HDR) (Thread [] h')
  | _ => heap_ok h' l ∧ malloc_loop F k n (h_freep h) (h_ptr h (h_freep h)) (Thread [] h) = Ok 0 (Thread [] h')
  end.
Proof.
  intros Hok Hn Hfit Ht HF Hk. destruct (ring_round h l Hok) as (o & Hc & Hfo & Hperm).
  assert (length o <= length l)%nat as Hlen.
  { apply Permutation_length in Hperm. cbn in Hperm. pose proof (frees_length start l). lia. }
  assert (∀ x, x ∈ h_freep h :: o → h_size h x < n) as Hsmall.
  { intros x Hx. destruct (decide (n <= h_size h x)); [|lia]. exfalso. apply Hfit, (fits_header h l n Hok Hn). exists x. by rewrite Hperm. }
  assert (Forall (λ x, x ≠ h_freep h ∧ h_size h x < n) o) as Ho.
  { apply Forall_forall. intros x Hx. split; [by intros ->|]. apply Hsmall. by right. }
  destruct (malloc_walk F h n (h_freep h) o (S (k - length o - 1)) (h_freep h) Hc Ho) as (q & Ew & _ & _).
  assert (h_ptr h (h_freep h) = default (h_freep h) (head o)) as Eo by apply Hc.
  pose proof (morecore_run F h l n Hok Hn Ht ltac:(lia)) as Hmc.
  assert (∀ k, malloc_loop F (S k) n q (h_freep h) (Thread [] h) = (let! p := morecore F n in
    if p =? 0 then ret 0 else let! n' := ptr_of p in malloc_loop F k n p n') (Thread [] h)) as Estep.
  { intros k'. cbn [malloc_loop]. unfold size_of. kstep. cbn [st]. rewrite (proj2 (Z.leb_gt n _)) by (apply Hsmall; by left).
    kstep. cbn [st]. by rewrite Z.eqb_refl. }
  rewrite Eo. replace k with (length o + S (k - length o - 1))%nat by lia. rewrite Ew, Estep.
  destruct (h_grant h) as [|[] g].
  - destruct Hmc as (h' & E & Hok' & _). exists h'. split; [done|]. rewrite (bind_Ok _ _ _ _ _ E). done.
  - destruct Hmc as (h1 & E & Hok1 & Hg). rewrite (bind_Ok _ _ _ _ _ E).
    assert (length (release l (grow n) []) <= S (length l))%nat as Hlr.
    { clear. unfold release. cbn [join_right]. destruct l as [|[u s1] l _] using rev_ind; [cbn; lia|].
      rewrite last_snoc, removelast_last. destruct u; rewrite ?length_app; cbn; lia. }
    destruct (malloc_fit F (k - length o - 1) h1 _ n Hok1 Hn) as (pre & s & post & h' & El & Hs & Hok' & Hg' & Em).
    { apply release_fits; [unfold grow; destruct (Z.ltb_spec n 4096); lia|apply (ho_sized _ _ Hok)]. }
    { lia. }
    exists h', pre, s, post. split; [done|]. split; [done|]. split; [done|]. split; [congruence|].
    assert (h_freep h1 ≠ 0) as Hf0.
    { pose proof (ho_freep _ _ Hok1) as Hf. apply elem_of_cons in Hf as [->|Hf]; [lia|]. apply frees_lt in Hf; [lia|apply (ho_sized _ _ Hok1)]. }
    rewrite (proj2 (Z.eqb_neq _ 0)) by done. unfold ptr_of. kstep. cbn [st]. exact Em.
  - destruct Hmc as (h' & E & Hok' & _). exists h'. split; [done|]. rewrite (bind_Ok _ _ _ _ _ E). done.
Qed.

(** Blocks one after the other, inside the memory of the allocator. *)
Definition apart (l : list (Z * Z)) (brk : Z) : Prop :=
  StronglySorted (λ x y, x.1 + HDR * x.2 <= y.1) l ∧ Forall (λ x, start <= x.1 ∧ x.1 + HDR * x.2 <= brk) l.

Lemma used_apart h l : heap_ok h l → apart (used start l) (h_brk h).
Proof.
  intros Hok. rewrite (ho_brk _ _ Hok). pose proof (ho_sized _ _ Hok) as Hs. unfold apart.
  assert (∀ a, StronglySorted (λ x y, x.1 + HDR * x.2 <= y.1) (used a l) ∧ Forall (λ x, a <= x.1 ∧ x.1 + HDR * x.2 <= a + HDR * total l) (used a l)) as H; [|apply H].
  clear Hok. induction Hs as [|[u s] l Hs Hl IH]; intros a; cbn [used total]; [split; constructor|]. destruct (IH (a + HDR * s)) as [H1 H2].
  pose proof (sized_total l Hl). cbn in Hs. split.
  - destruct u; [|exact H1]. constructor; [exact H1|]. eapply Forall_impl; [exact H2|]. intros x Hx. cbn in *. lia.
  - apply Forall_app. split; [destruct u; repeat constructor; cbn; unfold HDR in *; lia|]. eapply Forall_impl; [exact H2|]. intros x Hx. cbn in *. unfold HDR in *. lia.
Qed.

(** The first call finds the static data zero. *)
Definition fresh (h : heap) : Prop := h_freep h = 0 ∧ h_brk h = start.

Lemma fresh_ok h : fresh h → heap_ok (Heap (fupdz (h_ptr h) base base) (fupdz (h_size h) base 0) base (h_brk h) (h_grant h)) [].
Proof.
  intros [_ Hb]. split; cbn [h_brk h_ptr h_size h_freep]; try done.
  - constructor.
  - rewrite Hb. cbn. lia.
  - cbn. by rewrite fupdz_eq.
  - apply fupdz_eq.
  - by left.
Qed.

Lemma units_small nbytes : 0 <= nbytes < 2 ^ 31 → units nbytes = (nbytes + 15) / 16 + 1 ∧ 1 <= units nbytes ∧ nbytes <= HDR * (units nbytes - 1).
Proof.
  intros Hn. unfold units, HDR. replace (nbytes + 16 - 1) with (nbytes + 15) by lia.
  pose proof (Z.div_mod (nbytes + 15) 16 ltac:(lia)). pose proof (Z.mod_pos_bound (nbytes + 15) 16 ltac:(lia)).
  rewrite u32_small by lia. lia.
Qed.

Definition heap_rep (h : heap) (l : list seg) : Prop := heap_ok h l ∨ (fresh h ∧ l = []).

(** What a call of [malloc] promises. *)
Record malloced (h : heap) (l : list seg) (nbytes a : Z) (h' : heap) (l' : list seg) : Prop := {
  ma_ok : heap_ok h' l';
  ma_apart : apart (used start l') (h_brk h');
  ma_result :
    (a = 0 ∧ l' = l ∧ ¬ fits l (units nbytes) ∧ head (h_grant h) ≠ Some true) ∨
    (start < a ∧ nbytes <= HDR * (units nbytes - 1) ∧ used start l' ≡ₚ (a - HDR, units nbytes) :: used start l ∧
     (h_brk h' = h_brk h ∨ ¬ fits l (units nbytes) ∧ h_brk h' = h_brk h + HDR * grow (units nbytes))) }.

Lemma malloc_ok F h l nbytes : heap_ok h l → 0 <= nbytes < 2 ^ 31 → total l + grow (units nbytes) < 2 ^ 27 → (2 * length l + 8 < F)%nat →
  ∃ a h' l', malloc_loop F F (units nbytes) (h_freep h) (h_ptr h (h_freep h)) (Thread [] h) = Ok a (Thread [] h') ∧ malloced h l nbytes a h' l'.
Proof.
  intros Hok Hn Ht HF. destruct (units_small nbytes Hn) as (_ & Hu & Hle). set (n := units nbytes) in *.
  assert (∀ pre s post : list seg, sized (pre ++ post) → 0 <= total pre) as Hp by (intros pre s post Hs; unfold sized in Hs; apply Forall_app in Hs as [Hs _]; by apply sized_total).
  destruct (decide (fits l n)) as [Hf|Hf].
  - destruct (malloc_fit F F h l n Hok Hu Hf ltac:(lia)) as (pre & s & post & h' & El & Hs & Hok' & _ & Em). subst l. do 3 eexists. split; [exact Em|].
    pose proof (ho_sized _ _ Hok) as Hsz. specialize (Hp pre post ((false, s) :: post) Hsz).
    split; [exact Hok'|by apply used_apart|right]. fold n. split; [unfold HDR; lia|]. split; [done|]. split.
    + rewrite carve_used. apply Permutation_cons; [f_equal; lia|done].
    + left. rewrite (ho_brk _ _ Hok), (ho_brk _ _ Hok'). unfold carve. rewrite !total_app. destruct (Z.eqb_spec s n); cbn [total]; lia.
  - destruct (malloc_grows F F h l n Hok Hu Hf Ht ltac:(lia) ltac:(lia)) as (h' & Hg).
    destruct (h_grant h) as [|[] g] eqn:Eg.
    + destruct Hg as [Hok' Em]. do 3 eexists. split; [exact Em|]. split; [exact Hok'|by apply used_apart|left]. by rewrite Eg.
    + destruct Hg as (pre & s & post & El & Hs & Hok' & _ & Em). do 3 eexists. split; [exact Em|].
      pose proof (ho_sized _ _ Hok') as Hsz. unfold carve in Hsz. specialize (Hp pre post _ Hsz).
      assert (total (release l (grow n) []) = total l + grow n ∧ used start (release l (grow n) []) = used start l) as [Htr Hur].
      { unfold release. cbn [join_right]. destruct l as [|[u s1] l' _] using rev_ind; [by cbn; rewrite Z.add_0_r|].
        rewrite last_snoc, removelast_last. destruct u; rewrite ?total_app, ?used_app; cbn [used total app]; rewrite ?app_nil_r; split; (done || lia). }
      rewrite El in Htr, Hur.
      split; [exact Hok'|by apply used_apart|right]. fold n. split; [unfold HDR; lia|]. split; [done|]. split.
      * rewrite carve_used, Hur. apply Permutation_cons; [f_equal; lia|done].
      * right. split; [done|]. rewrite (ho_brk _ _ Hok), (ho_brk _ _ Hok'). unfold carve. rewrite !total_app in *. cbn [total] in Htr.
        destruct (Z.eqb_spec s n); cbn [app total]; lia.
    + destruct Hg as [Hok' Em]. do 3 eexists. split; [exact Em|]. split; [exact Hok'|by apply used_apart|left]. by rewrite Eg.
Qed.


(** C20: [free] returns the block and forgets nothing.  Freeing a block in use ends, takes
    exactly this block out of the blocks in use, and leaves every unit of the memory in
    a block in use or in a free segment; no two free segments are side by side, so that
    when nothing is in use any more the whole memory is one free segment again. *)
Theorem free_correct F h l x s : heap_ok h l → (x, s) ∈ used start l → (2 * length l + 4 < F)%nat →
  ∃ h' l', free F (x + HDR) (Thread [] h) = Ok tt (Thread [] h') ∧ heap_ok h' l' ∧
    used start l ≡ₚ (x, s) :: used start l' ∧ apart (used start l') (h_brk h') ∧ h_brk h' = h_brk h ∧
    (used start l' = [] → l' = [(false, total l)]).
Proof.
  intros Hok Hx HF. apply used_split in Hx as (pre & post & -> & ->). destruct (free_run F h pre s post Hok ltac:(lia)) as (h' & E & Hok' & _).
  destruct (release_used pre s post) as [Hu Ht]. exists h', (release pre s post). split; [done|]. split; [done|]. split; [done|]. split; [by apply used_apart|].
  split; [by rewrite (ho_brk _ _ Hok), (ho_brk _ _ Hok'), Ht|]. intros Hn. rewrite <- Ht.
  assert (1 <= total (release pre s post)) as Hpos.
  { rewrite Ht, total_app. pose proof (ho_sized _ _ Hok) as Hs. unfold sized in Hs. apply Forall_app in Hs as [H1 H2]. inversion H2; subst.
    pose proof (sized_total pre H1). pose proof (sized_total post ltac:(done)). cbn in *. lia. }
  pose proof (ho_merged _ _ Hok') as Hm. clear -Hn Hm Hpos. destruct (release pre s post) as [|[[] s1] [|[[] s2] l]]; cbn in *; try done.
  f_equal. f_equal. lia.
Qed.
End Heap.

(** ** A session *)

(** The data segment, the end of memory and the memory the kernel still has. *)
Definition heap0 : heap := Heap (λ _, 0) (λ _, 0) 0 0x4000 [true; false].

Definition run_heap {A} (m : M heap A) (h : heap) : option (A * heap) := match m (Thread [] h) with Ok a t => Some (a, st t) | _ => None end.


Lemma free_correct_witness :
  ∃ a h1 l1 h' l', malloc 0x3000 40 100 (Thread [] heap0) = Ok a (Thread [] h1) ∧ heap_ok 0x3000 0x4000 h1 l1 ∧
    free 40 a (Thread [] h1) = Ok tt (Thread [] h') ∧ heap_ok 0x3000 0x4000 h' l' ∧ used 0x4000 l' = [].
Proof.
  destruct (malloc_ok 0x3000 0x4000 ltac:(lia) ltac:(lia) 40 _ [] 100 (fresh_ok 0x3000 0x4000 heap0 (conj eq_refl eq_refl))
    ltac:(lia) eq_refl ltac:(cbn; lia)) as (a & h1 & l1 & E & [H1 _ H3]).
  assert (malloc 0x3000 40 100 (Thread [] heap0) = Ok a (Thread [] h1)) as Em by (rewrite <- E; reflexivity).
  assert (a ≠ 0) as Ha.
  { intros ->. assert (match malloc 0x3000 40 100 (Thread [] heap0) with Ok a _ => a | _ => 0 end = 0x4000 + 16 * (4096 - 8) + 16) as Hc by (vm_compute; reflexivity).
    rewrite Em in Hc. discriminate Hc. }
  destruct H3 as [[? _]|(_ & _ & Hp & _)]; [done|]. cbn [used] in Hp. apply Permutation_singleton_r in Hp.
  assert (length l1 <= 3)%nat as Hlen.
  { pose proof (ho_merged _ _ _ _ H1) as Hm. clear -Hp Hm. destruct l1 as [|[[] ?] [|[[] ?] [|[[] ?] [|[[] ?] l]]]]; cbn in *; try lia; done. }
  destruct (free_correct 0x3000 0x4000 ltac:(lia) 40 h1 l1 (a - HDR) (units 100) H1) as (h' & l' & Ef & H2 & Hp2 & _).
  - rewrite Hp. by left.
  - lia.
  - replace (a - HDR + HDR) with a in Ef by lia. exists a, h1, l1, h', l'. split; [exact Em|]. split; [exact H1|]. split; [exact Ef|]. split; [exact H2|].
    rewrite Hp in Hp2. apply Permutation_length in Hp2. cbn in Hp2. destruct (used 0x4000 l'); [done|discriminate Hp2].
Defined.
