(* ===== verification/Utils.v ===== *)
(** * The user programs

    cat.c, wc.c, echo.c, ls.c, ln.c, rm.c, mkdir.c, touch.c, chmod.c, kill.c, init.c,
    zombie.c, clear.c, exit.c, ps.c, menu.c and the main functions of grep.c, sort.c, head.c and
    tail.c, as programs that make system calls.  A main function gets its arguments
    without [argv[0]]; the loops that the input bounds have fuel. *)

From S2P Require Import Prelude CString Param FsDisk Fs Kernel Printf Grep Sort User Sh.

(** ** cat.c *)

Fixpoint cat (fuel : nat) (fd : Z) : prog unit :=
  match fuel with
  | O => Stuck
  | S fuel =>
      do! r := sys (U_read fd 512) in
      match r with
      | None =>
          fprintf 2 "cat: read error
" [] >>>
          Exit 1
      | Some [] => Ret tt
      | Some buf =>
          do! w := sys (U_write 1 buf) in
          if negb (w =? Z.of_nat (length buf)) then
            fprintf 2 "cat: write error
" [] >>>
            Exit 1
          else cat fuel fd
      end
  end.

Fixpoint cat_files (fuel : nat) (args : list (list Z)) : prog unit :=
  match args with
  | [] => Ret tt
  | a :: args =>
      do! fd := sys (U_open a O_RDONLY) in
      if fd <? 0 then
        fprintf 2 "cat: cannot open %s
" [VStr (Some a)] >>>
        Exit 1
      else
        cat fuel fd >>>
        sys (U_close fd) >>>
        cat_files fuel args
  end.

Definition cat_main (fuel : nat) (args : list (list Z)) : prog unit :=
  match args with
  | [] => cat fuel 0 >>> Exit 0
  | _ => cat_files fuel args >>> Exit 0
  end.

(** ** wc.c *)

Record counts := Counts { c_l : Z; c_w : Z; c_c : Z; c_inword : bool }.

Definition blanks : list Z := [32; 13; 9; 10; 11].

(** One byte; [strchr(" \r\t\n\v", buf[i])]. *)
Definition wc_byte (s : counts) (x : Z) : counts :=
  let c := s32 (c_c s + 1) in
  let l := if x =? 10 then s32 (c_l s + 1) else c_l s in
  if strchr blanks x then Counts l (c_w s) c false
  else if negb (c_inword s) then Counts l (s32 (c_w s + 1)) c true
  else Counts l (c_w s) c (c_inword s).

Fixpoint wc_loop (fuel : nat) (fd : Z) (s : counts) : prog counts :=
  match fuel with
  | O => Stuck
  | S fuel =>
      do! r := sys (U_read fd 512) in
      match r with
      | None =>
          printf "wc: read error
" [] >>>
          Exit 1
      | Some [] => Ret s
      | Some buf => wc_loop fuel fd (foldl wc_byte s buf)
      end
  end.

Definition wc (fuel : nat) (fd : Z) (name : list Z) : prog unit :=
  do! s := wc_loop fuel fd (Counts 0 0 0 false) in
  printf "%d %d %d %s
" [VWord (c_l s); VWord (c_w s); VWord (c_c s); VStr (Some name)].

Fixpoint wc_files (fuel : nat) (args : list (list Z)) : prog unit :=
  match args with
  | [] => Ret tt
  | a :: args =>
      do! fd := sys (U_open a O_RDONLY) in
      if fd <? 0 then
        printf "wc: cannot open %s
" [VStr (Some a)] >>>
        Exit 1
      else
        wc fuel fd a >>>
        sys (U_close fd) >>>
        wc_files fuel args
  end.

Definition wc_main (fuel : nat) (args : list (list Z)) : prog unit :=
  match args with
  | [] => wc fuel 0 [] >>> Exit 0
  | _ => wc_files fuel args >>> Exit 0
  end.

(** ** grep.c: the loops over [read] and [write] *)

Fixpoint grep_write (fuel : nat) (pattern p : list Z) : prog (list Z) :=
  match fuel with
  | O => Ret p
  | S fuel =>
      match strchr_nl p with
      | None => Ret p
      | Some (line, rest) =>
          (if match_ pattern line then sys (U_write 1 (line ++ [nl])) >>> Ret tt else Ret tt) >>>
          grep_write fuel pattern rest
      end
  end.

Fixpoint grep_prog (fuel : nat) (pattern : list Z) (fd : Z) (buf : list Z) : prog unit :=
  match fuel with
  | O => Stuck
  | S fuel =>
      do! r := sys (U_read fd (BUFSIZE - Z.of_nat (length buf) - 1)) in
      match r with
      | None | Some [] => Ret tt
      | Some data =>
          let buf := buf ++ data in
          do! buf := grep_write (S (length buf)) pattern buf in
          grep_prog fuel pattern fd buf
      end
  end.

Fixpoint grep_files (fuel : nat) (pattern : list Z) (args : list (list Z)) : prog unit :=
  match args with
  | [] => Ret tt
  | a :: args =>
      do! fd := sys (U_open a O_RDONLY) in
      if fd <? 0 then
        printf "grep: cannot open %s
" [VStr (Some a)] >>>
        Exit 1
      else
        grep_prog fuel pattern fd [] >>>
        sys (U_close fd) >>>
        grep_files fuel pattern args
  end.

Definition grep_main (fuel : nat) (args : list (list Z)) : prog unit :=
  match args with
  | [] =>
      fprintf 2 "usage: grep pattern [file ...]
" [] >>>
      Exit 1
  | [pattern] => grep_prog fuel pattern 0 [] >>> Exit 0
  | pattern :: args => grep_files fuel pattern args >>> Exit 0
  end.

(** ** sort.c, head.c, tail.c *)

Definition or_stuck {A} (x : option A) : prog A := match x with Some a => Ret a | None => Stuck end.

(** [while(read(fd, &buf, 1) == 1)]; what is read goes where [readlines_loop] puts it. *)
Fixpoint readlines_prog (fuel : nat) (fd : Z) (rows : list (list Z)) (cur : list Z) : prog (list (list Z)) :=
  match fuel with
  | O => Stuck
  | S fuel =>
      do! r := sys (U_read fd 1) in
      match r with
      | Some [c] =>
          if c =? nl then
            let rows := rows ++ [cur] in
            if MAXLINES <=? Z.of_nat (length rows) then or_stuck (finish_lines rows cur)
            else readlines_prog fuel fd rows []
          else readlines_prog fuel fd rows (if Z.of_nat (length cur) <? MAXLEN - 1 then cur ++ [c] else cur)
      | _ => or_stuck (finish_lines rows cur)
      end
  end.

(** [printf("%s\n", line);] for each of the lines. *)
Fixpoint print_lines (ls : list (list Z)) : prog unit :=
  match ls with
  | [] => Ret tt
  | l :: ls =>
      printf "%s
" [VStr (Some l)] >>>
      print_lines ls
  end.

Definition sort_prog (fuel : nat) (args : list (list Z)) : prog unit :=
  do! fd := match args with [] => Ret 0 | a :: _ => sys (U_open a O_RDONLY) end in
  if fd <? 0 then
    fprintf 2 "sort: cannot open %s
" [VStr (head args)] >>>
    Exit 1
  else
    do! rows := readlines_prog fuel fd [] [] in
    do! lines := or_stuck (qsort (S (length rows)) 0 (Z.of_nat (length rows) - 1) (texts rows)) in
    print_lines lines >>>
    sys (U_close fd) >>>
    Exit 0.

(** head and tail differ in the lines they print and in their messages. *)
Definition slice_prog (name : string) (pick : Z → list (list Z) → list (list Z)) (fuel : nat) (args : list (list Z)) : prog unit :=
  match args with
  | [] =>
      fprintf 2 ("Usage: " ++ name ++ " [-n] file
") [] >>>
      Exit 1
  | a :: rest =>
      let go (n fd : Z) :=
        if fd <? 0 then
          fprintf 2 (name ++ ": cannot open %s
") [VStr (Some a)] >>>
          Exit 1
        else
          do! rows := readlines_prog fuel fd [] [] in
          print_lines (pick n rows) >>>
          sys (U_close fd) >>>
          Exit 0 in
      if default 0 (head a) =? chr "-" then
        let n := atoi (tail a) in
        match rest with
        | [] =>
            fprintf 2 (name ++ ": missing file operand
") [] >>>
            Exit 1
        | b :: _ => do! fd := sys (U_open b O_RDONLY) in go n fd
        end
      else do! fd := sys (U_open a O_RDONLY) in go 10 fd
  end.

Definition head_lines (n : Z) (rows : list (list Z)) : list (list Z) :=
  let nlines := Z.of_nat (length rows) in
  take (Z.to_nat (if n <? nlines then n else nlines)) (texts rows).
Definition tail_lines (n : Z) (rows : list (list Z)) : list (list Z) :=
  let nlines := Z.of_nat (length rows) in
  drop (Z.to_nat (if nlines <? n then 0 else nlines - n)) (texts rows).

Definition head_prog : nat → list (list Z) → prog unit := slice_prog "head" head_lines.
Definition tail_prog : nat → list (list Z) → prog unit := slice_prog "tail" tail_lines.

(** ** echo.c *)

(** An argument between double quotes is printed without them.  A single quote
    character is both the first and the last: it is overwritten by the NUL, and [printf]
    starts behind it. *)
Definition echo_arg (a : list Z) : prog unit :=
  if (default 0 (head a) =? 34) && (default 0 (last a) =? 34) then
    if (length a =? 1)%nat then Stuck
    else printf "%s" [VStr (Some (removelast (tail a)))]
  else printf "%s" [VStr (Some a)].

Fixpoint echo_args (args : list (list Z)) : prog unit :=
  match args with
  | [] => Ret tt
  | a :: args =>
      echo_arg a >>>
      (if bool_decide (args = []) then Ret tt else printf " " []) >>>
      echo_args args
  end.

Definition echo_main (args : list (list Z)) : prog unit :=
  match args with
  | [] =>
      printf "
" [] >>>
      Exit 0
  | _ =>
      echo_args args >>>
      printf "
" [] >>>
      Exit 0
  end.

(** ** ls.c *)

(** The part of a path after its last slash, padded with blanks if it is shorter than
    [DIRSIZ]. *)
Definition fmtname (path : list Z) : list Z :=
  let p := rev (take_while (λ c, negb (c =? slash)) (rev path)) in
  if DIRSIZ <=? Z.of_nat (length p) then p
  else p ++ replicate (Z.to_nat DIRSIZ - length p) 32.

(** [struct stat] as [fstat] gives it: the type, the inode number, the size. *)
Definition ls_line (long_listing : bool) (path : list Z) (st : list Z) : prog unit :=
  if long_listing then
    printf "%s %d %d %ld
" [VStr (Some (fmtname path)); VWord (default 0 (st !! 2%nat)); VWord (default 0 (st !! 1%nat)); VWord (default 0 (st !! 4%nat))]
  else
    printf "%s
" [VStr (Some (fmtname path))].

(** [while(read(fd, &de, sizeof(de)) == sizeof(de))]; [dir] is the path with its slash. *)
Fixpoint ls_loop (fuel : nat) (long_listing : bool) (fd : Z) (dir : list Z) : prog unit :=
  match fuel with
  | O => Stuck
  | S fuel =>
      do! r := sys (U_read fd DIRENT_SIZE) in
      match r with
      | Some de =>
          if Z.of_nat (length de) =? DIRENT_SIZE then
            if de_inum de =? 0 then ls_loop fuel long_listing fd dir
            else
              let buf := dir ++ upto_nul (de_name de) in
              do! st := stat buf in
              (match st with
               | None => printf "ls: cannot stat %s
" [VStr (Some buf)]
               | Some st => ls_line long_listing buf st
               end) >>>
              ls_loop fuel long_listing fd dir
          else Ret tt
      | None => Ret tt
      end
  end.

Definition ls (fuel : nat) (path : list Z) (long_listing : bool) : prog unit :=
  do! fd := sys (U_open path O_RDONLY) in
  if fd <? 0 then
    fprintf 2 "ls: cannot open %s
" [VStr (Some path)]
  else
    do! r := sys (U_fstat fd) in
    match r with
    | None =>
        fprintf 2 "ls: cannot stat %s
" [VStr (Some path)] >>>
        sys (U_close fd) >>>
        Ret tt
    | Some st =>
        let type := default 0 (st !! 2%nat) in
        (if type =? T_FILE then ls_line long_listing path st
         else if type =? T_DIR then
           if 512 <? Z.of_nat (length path) + 1 + DIRSIZ + 1 then printf "ls: path too long
" []
           else ls_loop fuel long_listing fd (path ++ [slash])
         else Ret tt) >>>
        sys (U_close fd) >>>
        Ret tt
    end.

Fixpoint ls_args (fuel : nat) (long_listing : bool) (args : list (list Z)) : prog unit :=
  match args with
  | [] => Ret tt
  | a :: args => ls fuel a long_listing >>> ls_args fuel long_listing args
  end.

Definition ls_main (fuel : nat) (args : list (list Z)) : prog unit :=
  let '(long_listing, args) :=
    match args with
    | a :: rest => if strcmp a (str "-l") =? 0 then (true, rest) else (false, args)
    | [] => (false, [])
    end in
  match args with
  | [] => ls fuel (str ".") long_listing >>> Exit 0
  | _ => ls_args fuel long_listing args >>> Exit 0
  end.

(** ** ln.c, rm.c, mkdir.c, touch.c *)

Definition ln_main (args : list (list Z)) : prog unit :=
  match args with
  | [old; new] =>
      do! r := sys (U_link old new) in
      (if r <? 0 then
         fprintf 2 "link %s %s: failed
" [VStr (Some old); VStr (Some new)]
       else Ret tt) >>>
      Exit 0
  | _ =>
      fprintf 2 "Usage: ln old new
" [] >>>
      Exit 1
  end.

(** A call for every argument, up to the first one that fails. *)
Fixpoint each_until (call : list Z → call Z) (msg : string) (args : list (list Z)) : prog unit :=
  match args with
  | [] => Ret tt
  | a :: args =>
      do! r := sys (call a) in
      if r <? 0 then fprintf 2 msg [VStr (Some a)]
      else each_until call msg args
  end.

Definition rm_main (args : list (list Z)) : prog unit :=
  match args with
  | [] =>
      fprintf 2 "Usage: rm files...
" [] >>>
      Exit 1
  | _ =>
      each_until U_unlink "rm: %s failed to delete
" args >>>
      Exit 0
  end.

Definition mkdir_main (args : list (list Z)) : prog unit :=
  match args with
  | [] =>
      fprintf 2 "Usage: mkdir files...
" [] >>>
      Exit 1
  | _ =>
      each_until U_mkdir "mkdir: %s failed to create
" args >>>
      Exit 0
  end.

Fixpoint touch_files (args : list (list Z)) : prog unit :=
  match args with
  | [] => Ret tt
  | a :: args =>
      do! fd := sys (U_open a (Z.lor O_CREATE O_RDWR)) in
      if fd <? 0 then
        fprintf 2 "touch: cannot create %s
" [VStr (Some a)] >>>
        Exit 1
      else
        sys (U_close fd) >>>
        touch_files args
  end.

Definition touch_main (args : list (list Z)) : prog unit :=
  match args with
  | [] =>
      fprintf 2 "Usage: touch file...
" [] >>>
      Exit 1
  | _ => touch_files args >>> Exit 0
  end.

(** ** chmod.c, kill.c *)

(** The mode as an octal number. *)
Fixpoint octal (p : list Z) (mode : Z) : option Z :=
  match p with
  | [] => Some mode
  | c :: p => if (c <? chr "0") || (chr "7" <? c) then None else octal p (s32 (mode * 8 + (c - chr "0")))
  end.

Definition chmod_main (args : list (list Z)) : prog unit :=
  match args with
  | [m; file] =>
      match octal m 0 with
      | None =>
          fprintf 2 "chmod: invalid mode
" [] >>>
          Exit 1
      | Some mode =>
          do! r := sys (U_chmod file mode) in
          if r <? 0 then
            fprintf 2 "chmod: %s failed to change mode
" [VStr (Some file)] >>>
            Exit 1
          else Exit 0
      end
  | _ =>
      fprintf 2 "Usage: chmod mode file
" [] >>>
      Exit 1
  end.

Fixpoint kill_args (args : list (list Z)) : prog unit :=
  match args with
  | [] => Ret tt
  | a :: args => sys (U_kill (atoi a)) >>> kill_args args
  end.

Definition kill_main (args : list (list Z)) : prog unit :=
  match args with
  | [] =>
      fprintf 2 "usage: kill pid...
" [] >>>
      Exit 1
  | _ => kill_args args >>> Exit 0
  end.

(** ** init.c *)

(** Waits for the shell [pid]. *)
Fixpoint init_wait (fuel : nat) (pid : Z) : prog unit :=
  match fuel with
  | O => Stuck
  | S fuel =>
      do! wpid := sys U_wait in
      if wpid =? pid then Ret tt
      else if wpid <? 0 then
        printf "init: wait returned an error
" [] >>>
        Exit 1
      else init_wait fuel pid
  end.

Fixpoint init_loop (fuel : nat) : prog unit :=
  match fuel with
  | O => Stuck
  | S fuel =>
      printf "init: starting sh
" [] >>>
      do! pid := sys U_fork in
      if pid <? 0 then
        printf "init: fork failed
" [] >>>
        Exit 1
      else if pid =? 0 then
        sys (U_exec (str "sh") [str "sh"]) >>>
        printf "init: exec sh failed
" [] >>>
        Exit 1
      else
        init_wait fuel pid >>>
        init_loop fuel
  end.

(** The device number is [CONSOLE]. *)
Definition init_main (fuel : nat) : prog unit :=
  do! fd := sys (U_open (str "console") O_RDWR) in
  (if fd <? 0 then
     sys (U_mknod (str "console") 1 0) >>>
     sys (U_open (str "console") O_RDWR) >>>
     Ret tt
   else Ret tt) >>>
  sys (U_dup 0) >>>
  sys (U_dup 0) >>>
  init_loop fuel.

(** ** zombie.c, clear.c, exit.c *)

Definition zombie_main : prog unit :=
  do! pid := sys U_fork in
  (if 0 <? pid then sys (U_sleep 5) >>> Ret tt else Ret tt) >>>
  Exit 0.

Definition clear_main : prog unit :=
  sys (U_write 1 ([27] ++ str "[2J" ++ [27] ++ str "[H")) >>>
  Exit 0.

Definition exit_main : prog unit :=
  sys U_exit_qemu >>>
  Exit 0.

(** ** ps.c *)

Definition ps_state (state : Z) : string :=
  if state =? 0 then "UNUSED  "
  else if state =? 1 then "SLEEPING"
  else if state =? 2 then "RUNNABLE"
  else if state =? 3 then "RUNNING "
  else if state =? 4 then "ZOMBIE  "
  else "UNKNOWN ".

Fixpoint ps_lines (stats : list (Z * Z * Z * list Z)) : prog unit :=
  match stats with
  | [] => Ret tt
  | (pid, state, memory, name) :: stats =>
      printf "%d	%s	%dK	%s
" [VWord pid; VStr (Some (str (ps_state state))); VWord (memory / 1024); VStr (Some (upto_nul name))] >>>
      ps_lines stats
  end.

Definition ps_main : prog unit :=
  do! r := sys (U_getprocs NPROC) in
  match r with
  | None =>
      fprintf 2 "ps: impossible de récupérer les infos des processus
" [] >>>
      Exit 1
  | Some stats =>
      printf "PID	STATE		MEM	NAME
" [] >>>
      ps_lines stats >>>
      Exit 0
  end.

(** ** menu.c *)

Definition spaces (n : Z) : prog unit := puts 1 (replicate (Z.to_nat n) 32).
Definition print_list (fmt : list Z) (args : list varg) : prog unit := vprintf 1 fmt args.
Definition esc (s : string) : list Z := [27] ++ str s.

Definition print_separator : prog unit :=
  print_list (esc "[1;34m+=====================================================+" ++ esc "[0m" ++ [10]) [].

(** [(50 - len) / 2] rounds towards zero. *)
Definition print_title (title : list Z) : prog unit :=
  let len := Z.of_nat (length title) in
  let padding := Z.quot (50 - len) 2 in
  print_list (esc "[1;34m||" ++ esc "[0m") [] >>>
  spaces padding >>>
  print_list (esc "[1;36m%s" ++ esc "[0m") [VStr (Some title)] >>>
  spaces (50 - len - padding) >>>
  print_list (esc "[1;34m||" ++ esc "[0m" ++ [10]) [].

Definition print_option (num : Z) (option : string) : prog unit :=
  print_list (esc "[1;34m||" ++ esc "[0m " ++ esc "[1;33m%d." ++ esc "[0m " ++ esc "[1;32m%s" ++ esc "[0m") [VWord num; VStr (Some (str option))] >>>
  spaces (45 - Z.of_nat (length (str option))) >>>
  print_list (esc "[1;34m||" ++ esc "[0m" ++ [10]) [].

Definition print_menu : prog unit :=
  print_separator >>>
  print_title (str "XV6 Shell Menu") >>>
  print_separator >>>
  print_option 1 "List Files (ls)" >>>
  print_option 2 "List Files Detailed (ls -l)" >>>
  print_option 3 "Create File (touch)" >>>
  print_option 4 "Change Permissions (chmod)" >>>
  print_option 5 "Run Script (source)" >>>
  print_option 6 "Clear Screen (clear)" >>>
  print_option 7 "Show Processes (ps)" >>>
  print_option 8 "Create Directory (mkdir)" >>>
  print_option 9 "Sort File Content (sort)" >>>
  print_option 10 "Show File Head (head)" >>>
  print_option 11 "Show File Tail (tail)" >>>
  print_option 12 "Exit" >>>
  print_separator.

(** [if (fork() == 0) { exec(...); exit(0); } wait(0);] *)
Definition menu_run (argv : list (list Z)) : prog unit :=
  do! pid := sys U_fork in
  if pid =? 0 then sys (U_exec (default [] (head argv)) argv) >>> Exit 0
  else sys U_wait >>> Ret tt.

Definition menu_say (s : string) : prog unit := print_list (esc "[1;32m" ++ str s ++ esc "[0m" ++ [10]) [].

Definition menu_ask (s : string) (max : Z) : prog (list Z) :=
  print_list (esc "[1;35m" ++ str s ++ esc "[0m ") [] >>>
  do! l := gets max in
  Ret (upto_nul l).

Definition menu_choice (choice : Z) : prog unit :=
  if choice =? 1 then menu_say "Executing 'ls'..." >>> menu_run [str "ls"]
  else if choice =? 2 then menu_say "Executing 'ls -l'..." >>> menu_run [str "ls"; str "-l"]
  else if choice =? 3 then
    do! filename := menu_ask "Enter file name:" 100 in
    menu_run [str "touch"; filename]
  else if choice =? 4 then
    do! chmod_file := menu_ask "Enter file name:" 100 in
    do! mode := menu_ask "Enter mode (e.g., 755):" 10 in
    menu_run [str "chmod"; mode; chmod_file]
  else if choice =? 5 then
    do! script := menu_ask "Enter script name:" 100 in
    menu_run [str "source"; script]
  else if choice =? 6 then menu_run [str "clear"]
  else if choice =? 7 then menu_say "Executing 'ps'..." >>> menu_run [str "ps"]
  else if choice =? 8 then
    do! dirname := menu_ask "Enter directory name:" 100 in
    menu_run [str "mkdir"; dirname]
  else if choice =? 9 then
    do! sort_file := menu_ask "Enter file name to sort:" 100 in
    menu_run [str "sort"; sort_file]
  else if choice =? 10 then
    do! head_file := menu_ask "Enter file name for head:" 100 in
    menu_run [str "head"; head_file]
  else if choice =? 11 then
    do! tail_file := menu_ask "Enter file name for tail:" 100 in
    menu_run [str "tail"; tail_file]
  else if choice =? 12 then
    print_list (esc "[1;31mExiting..." ++ esc "[0m" ++ [10]) [] >>>
    Exit 0
  else print_list (esc "[1;31mInvalid choice. Please try again." ++ esc "[0m" ++ [10]) [].

Fixpoint menu_main (fuel : nat) : prog unit :=
  match fuel with
  | O => Stuck
  | S fuel =>
      print_menu >>>
      do! input := menu_ask "Enter your choice:" 10 in
      menu_choice (atoi input) >>>
      print_list ([10] ++ esc "[1;35mPress Enter to continue..." ++ esc "[0m") [] >>>
      gets 10 >>>
      menu_main fuel
  end.
