(* ===== verification/UtilsRun.v ===== *)
(** * What the user programs compute

    The programs run on a process that has files to read, descriptors 1 and 2 to write
    to, and a kernel that decides how much each [read] gives: their output against
    functions of the whole input. *)

From stdpp Require Import gmap.
From S2P Require Import Prelude CString Param FsDisk Fs Kernel Printf Grep Sort User Sh Utils.

(** ** The process and its files *)

Record io := Io { io_files : gmap (list Z) (list Z); io_fds : gmap Z (list Z); io_sizes : list nat; io_out : list Z; io_err : list Z }.

(** The descriptors that are free are those with no file, 1 and 2 apart. *)
Definition io_free (w : io) : option Z :=
  snd <$> list_find (λ i, io_fds w !! i = None ∧ i ≠ 1 ∧ i ≠ 2) (seqZ 0 NOFILE).

(** A call, and what it does; [None] is a call outside of this model. *)
Definition io_call {R} (c : call R) (w : io) : option (R * io) :=
  match c with
  | U_read fd n =>
      match io_fds w !! fd with
      | None => Some (None, w)
      | Some rest =>
          let k := Z.to_nat (read_size (io_sizes w) n) in
          Some (Some (take k rest), Io (io_files w) (<[fd := drop k rest]> (io_fds w)) (tail (io_sizes w)) (io_out w) (io_err w))
      end
  | U_write fd bs =>
      if fd =? 1 then Some (Z.of_nat (length bs), Io (io_files w) (io_fds w) (io_sizes w) (io_out w ++ bs) (io_err w))
      else if fd =? 2 then Some (Z.of_nat (length bs), Io (io_files w) (io_fds w) (io_sizes w) (io_out w) (io_err w ++ bs))
      else Some (-1, w)
  | U_open path mode =>
      match io_files w !! path, io_free w with
      | Some data, Some fd => Some (fd, Io (io_files w) (<[fd := data]> (io_fds w)) (io_sizes w) (io_out w) (io_err w))
      | _, _ => Some (-1, w)
      end
  | U_close fd => Some (0, Io (io_files w) (delete fd (io_fds w)) (io_sizes w) (io_out w) (io_err w))
  | _ => None
  end.

Inductive result (A : Type) := Done (a : A) | Exited (status : Z) | Undefined.
Arguments Done {A} _.
Arguments Exited {A} _.
Arguments Undefined {A}.

Fixpoint run {A} (p : prog A) (w : io) : result A * io :=
  match p with
  | Ret a => (Done a, w)
  | Exit s => (Exited s, w)
  | Stuck => (Undefined, w)
  | Sys c k => match io_call c w with Some (r, w) => run (k r) w | None => (Undefined, w) end
  end.

Lemma run_bind {A C} (p : prog A) (k : A → prog C) w :
  run (pbind p k) w = match run p w with (Done a, w) => run (k a) w | (Exited s, w) => (Exited s, w) | (Undefined, w) => (Undefined, w) end.
Proof.
  revert w; induction p as [a|s| |R c f IH]; intros w; cbn [pbind run]; try done. destruct (io_call c w) as [[r w']|]; [apply IH|done].
Qed.

Definition with_out (o : list Z) (w : io) : io := Io (io_files w) (io_fds w) (io_sizes w) (io_out w ++ o) (io_err w).
Definition with_err (o : list Z) (w : io) : io := Io (io_files w) (io_fds w) (io_sizes w) (io_out w) (io_err w ++ o).
Definition with_fd (fd : Z) (rest : list Z) (sizes : list nat) (w : io) : io :=
  Io (io_files w) (<[fd := rest]> (io_fds w)) sizes (io_out w) (io_err w).

Lemma with_out_out a b w : with_out b (with_out a w) = with_out (a ++ b) w.
Proof. unfold with_out. cbn. by rewrite (assoc_L (++)). Qed.
Lemma with_out_nil w : with_out [] w = w.
Proof. destruct w. unfold with_out. cbn. by rewrite app_nil_r. Qed.

(** ** Formatted output *)

(** The bytes that [vprintf] writes. *)
Fixpoint uformat_loop (fuel : nat) (fmt : list Z) (args : list varg) : option (list Z) :=
  match fuel with
  | O => None
  | S fuel =>
      match fmt with
      | [] => Some []
      | c :: fmt =>
          if negb (c =? chr "%") then app [c] <$> uformat_loop fuel fmt args
          else
            match fmt with
            | [] => Some []
            | _ =>
                match uformat_one fmt args with
                | None => None
                | Some (o, fmt, args) => app o <$> uformat_loop fuel fmt args
                end
            end
      end
  end.
Definition uformat (fmt : list Z) (args : list varg) : option (list Z) := uformat_loop (S (length fmt)) fmt args.

Definition writes_to (fd : Z) (o : list Z) (w : io) : io := if fd =? 1 then with_out o w else with_err o w.

Lemma writes_to_app fd a b w : writes_to fd b (writes_to fd a w) = writes_to fd (a ++ b) w.
Proof. unfold writes_to. destruct (fd =? 1); unfold with_out, with_err; cbn; by rewrite (assoc_L (++)). Qed.
Lemma writes_to_nil fd w : writes_to fd [] w = w.
Proof. unfold writes_to. destruct w, (fd =? 1); unfold with_out, with_err; cbn; by rewrite app_nil_r. Qed.

Lemma run_putc fd c w : fd = 1 ∨ fd = 2 → run (putc fd c) w = (Done tt, writes_to fd [c] w).
Proof. by intros [-> | ->]. Qed.

Lemma run_puts fd cs w : fd = 1 ∨ fd = 2 → run (puts fd cs) w = (Done tt, writes_to fd cs w).
Proof.
  intros Hfd. revert w; induction cs as [|c cs IH]; intros w; cbn [puts]; [by rewrite writes_to_nil|].
  by rewrite run_bind, run_putc, IH, writes_to_app by done.
Qed.

Lemma run_vprintf_loop fd fuel : fd = 1 ∨ fd = 2 → ∀ fmt args w o, uformat_loop fuel fmt args = Some o →
  run (vprintf_loop fuel fd fmt args) w = (Done tt, writes_to fd o w).
Proof.
  intros Hfd. induction fuel as [|fuel IH]; intros fmt args w o Ho; [done|]. cbn [uformat_loop vprintf_loop] in *.
  destruct fmt as [|c fmt]; [injection Ho as <-; by rewrite writes_to_nil|]. destruct (negb (c =? chr "%")).
  - destruct (uformat_loop fuel fmt args) as [o'|] eqn:E; [|done]. injection Ho as <-.
    by rewrite run_bind, run_putc, (IH _ _ _ _ E), writes_to_app by done.
  - destruct fmt as [|c' fmt]; [injection Ho as <-; by rewrite writes_to_nil|]. destruct (uformat_one _ _) as [[[o1 fmt1] args1]|]; [|done].
    destruct (uformat_loop fuel fmt1 args1) as [o'|] eqn:E; [|done]. injection Ho as <-. by rewrite run_bind, run_puts, (IH _ _ _ _ E), writes_to_app by done.
Qed.

Lemma run_printf fmt args w o : uformat (str fmt) args = Some o → run (printf fmt args) w = (Done tt, with_out o w).
Proof. intros Ho. apply (run_vprintf_loop 1); [by left|exact Ho]. Qed.
Lemma run_fprintf fmt args w o : uformat (str fmt) args = Some o → run (fprintf 2 fmt args) w = (Done tt, with_err o w).
Proof. intros Ho. apply (run_vprintf_loop 2); [by right|exact Ho]. Qed.

(** ** Reading *)

Lemma read_size_pos sizes n : 0 < n → 0 < read_size sizes n.
Proof. intros Hn. unfold read_size. destruct sizes; lia. Qed.

Lemma run_read {A} fd n rest w (k : option (list Z) → prog A) : io_fds w !! fd = Some rest →
  run (pbind (sys (U_read fd n)) k) w =
    (let m := Z.to_nat (read_size (io_sizes w) n) in run (k (Some (take m rest))) (with_fd fd (drop m rest) (tail (io_sizes w)) w)).
Proof. intros Hr. rewrite run_bind. cbn [sys run io_call]. by rewrite Hr. Qed.

Lemma with_fd_fd fd a s b s' w : with_fd fd b s' (with_fd fd a s w) = with_fd fd b s' w.
Proof. unfold with_fd. cbn. by rewrite insert_insert_eq. Qed.
Lemma with_fd_id fd a w : io_fds w !! fd = Some a → with_fd fd a (io_sizes w) w = w.
Proof. intros H. destruct w. unfold with_fd. cbn in *. by rewrite insert_id. Qed.
Lemma with_fd_out fd a s o w : with_fd fd a s (with_out o w) = with_out o (with_fd fd a s w).
Proof. done. Qed.
Lemma with_fd_lookup fd a s w : io_fds (with_fd fd a s w) !! fd = Some a.
Proof. apply lookup_insert_eq. Qed.

(** The free descriptor of a process that has its standard input. *)
Definition ready (w : io) : Prop := is_Some (io_fds w !! 0) ∧ io_fds w !! 3 = None.

Lemma ready_free w : ready w → io_free w = Some 3.
Proof.
  intros [[i Hi] H3]. unfold io_free. change (seqZ 0 NOFILE) with ([0; 1; 2] ++ 3 :: seqZ 4 12).
  rewrite (list_find_app_r); [|by apply list_find_None; repeat constructor; intros (? & ? & ?); congruence]. cbn [list_find].
  by rewrite decide_True by done.
Qed.

Lemma run_open {A} a mode data w (k : Z → prog A) : ready w → io_files w !! a = Some data →
  run (pbind (sys (U_open a mode)) k) w = run (k 3) (with_fd 3 data (io_sizes w) w).
Proof. intros Hr Hd. rewrite run_bind. cbn [sys run io_call]. by rewrite Hd, ready_free. Qed.

Lemma run_open_none {A} a mode w (k : Z → prog A) : io_files w !! a = None →
  run (pbind (sys (U_open a mode)) k) w = run (k (-1)) w.
Proof. intros Hd. rewrite run_bind. cbn [sys run io_call]. by rewrite Hd. Qed.

Lemma run_close {A} rest sizes w (k : Z → prog A) : io_fds w !! 3 = None →
  run (pbind (sys (U_close 3)) k) (with_fd 3 rest sizes w) = run (k 0) (Io (io_files w) (io_fds w) sizes (io_out w) (io_err w)).
Proof. intros Hd. rewrite run_bind. cbn [sys run io_call with_fd io_files io_fds io_sizes io_out io_err]. by rewrite delete_insert_id. Qed.

(** A loop that reads has come to the end of the descriptor. *)
Definition at_end (fd : Z) (w w' : io) : Prop := ∃ sizes, w' = with_fd fd [] sizes w.

(** The first [read] of what is left: nothing, or a piece that is not empty. *)
Lemma read_piece sizes n (rest : list Z) : 0 < n →
  let m := Z.to_nat (read_size sizes n) in
  (rest = [] ∧ take m rest = []) ∨ (take m rest ≠ [] ∧ (length (drop m rest) < length rest)%nat).
Proof.
  intros Hn m. pose proof (read_size_pos sizes n Hn) as Hp. destruct rest as [|x rest]; [left; by rewrite take_nil|right].
  assert (0 < m)%nat by lia. destruct m as [|m]; [lia|]. cbn [take drop length]. rewrite length_drop. split; [done|lia].
Qed.

(** ** cat *)

Lemma run_cat fuel fd : ∀ data w, io_fds w !! fd = Some data → (length data < fuel)%nat →
  ∃ sizes, run (cat fuel fd) w = (Done tt, with_out data (with_fd fd [] sizes w)).
Proof.
  induction fuel as [|fuel IH]; intros data w Hd Hf; [lia|]. cbn [cat]. rewrite (run_read fd 512 data) by done. cbv zeta.
  destruct (read_piece (io_sizes w) 512 data ltac:(lia)) as [[-> ->]|[Hne Hlt]].
  - exists (tail (io_sizes w)). by rewrite drop_nil, with_out_nil.
  - set (m := Z.to_nat _) in *. destruct (take m data) as [|x bs] eqn:E; [done|]. rewrite <- E. clear Hne.
    rewrite run_bind. cbn [sys run io_call Z.eqb Pos.eqb]. rewrite Z.eqb_refl. cbn [negb]. cbv iota.
    change (Io _ _ _ _ _) with (with_out (take m data) (with_fd fd (drop m data) (tail (io_sizes w)) w)).
    destruct (IH (drop m data) (with_out (take m data) (with_fd fd (drop m data) (tail (io_sizes w)) w))) as (sizes & Er); [apply with_fd_lookup|lia|].
    exists sizes. rewrite Er, with_fd_out, with_fd_fd, with_out_out, take_drop. done.
Qed.

(** The files that [main] reads, and the first argument that is none. *)
Fixpoint inputs (files : gmap (list Z) (list Z)) (args : list (list Z)) : list (list Z * list Z) * option (list Z) :=
  match args with
  | [] => ([], None)
  | a :: args =>
      match files !! a with
      | None => ([], Some a)
      | Some data => let '(l, e) := inputs files args in ((a, data) :: l, e)
      end
  end.

(** The process after all of [files] are closed: only the descriptors' sizes are used up. *)
Definition same_process (w w' : io) : Prop := io_files w' = io_files w ∧ io_fds w' = io_fds w.

Section files.
Context (body : nat → Z → list Z → prog unit) (out : list Z → list Z → list Z) (cannot : list Z → prog unit) (good : list Z → Prop).

Fixpoint over_files (fuel : nat) (args : list (list Z)) : prog unit :=
  match args with
  | [] => Ret tt
  | a :: args =>
      do! fd := sys (U_open a O_RDONLY) in
      if fd <? 0 then cannot a
      else
        body fuel fd a >>>
        sys (U_close fd) >>>
        over_files fuel args
  end.

(** A main function that runs [body] on its files one after the other. *)
Lemma run_over_files fuel : (∀ fd name data w, io_fds w !! fd = Some data → (length data < fuel)%nat → good data →
    ∃ sizes rest, run (body fuel fd name) w = (Done tt, with_out (out name data) (with_fd fd rest sizes w))) →
  ∀ args w, ready w → (∀ a data, a ∈ args → io_files w !! a = Some data → (length data < fuel)%nat ∧ good data) →
  let '(l, e) := inputs (io_files w) args in
  ∃ w', same_process w w' ∧ io_out w' = io_out w ++ concat ((λ p, out p.1 p.2) <$> l) ∧ io_err w' = io_err w ∧
    run (over_files fuel args) w = match e with None => (Done tt, w') | Some a => run (cannot a) w' end.
Proof.
  intros Hbody args. induction args as [|a args IH]; intros w Hw Hlen; cbn [inputs].
  - exists w. cbn [fmap list_fmap concat]. by rewrite app_nil_r.
  - destruct (io_files w !! a) as [data|] eqn:Ha.
    + destruct (Hlen a data (list_elem_of_here _ _) Ha) as [L1 L2]. cbn [over_files]. destruct (inputs (io_files w) args) as [l e] eqn:Ei.
      destruct (Hbody 3 a data (with_fd 3 data (io_sizes w) w) (with_fd_lookup _ _ _ _) L1 L2) as (sizes & rest & Eb).
      set (w1 := Io (io_files w) (io_fds w) sizes (io_out w ++ out a data) (io_err w)).
      assert (∀ (k : prog unit), run (body fuel 3 a >>> (sys (U_close 3) >>> k)) (with_fd 3 data (io_sizes w) w) = run k w1) as Estep.
      { intros k. rewrite run_bind, Eb, with_fd_fd. rewrite <- with_fd_out. by rewrite run_close by apply Hw. }
      specialize (IH w1 Hw (λ b d Hb, Hlen b d (list_elem_of_further _ _ _ Hb))). cbn [w1 io_files] in IH. rewrite Ei in IH. destruct IH as (w' & [S1 S2] & O & R & E).
      exists w'. split; [by split|]. split; [by rewrite O; cbn [w1 io_out fmap list_fmap concat fst snd]; rewrite (assoc_L (++))|]. split; [done|].
      rewrite (run_open a O_RDONLY data) by done. change (3 <? 0) with false. cbv iota. by rewrite Estep.
    + exists w. cbn [fmap list_fmap concat over_files]. rewrite app_nil_r. split; [done|]. split; [done|]. split; [done|]. by rewrite run_open_none.
Qed.
End files.

(** ** wc *)

(** The words of a text: its pieces between blanks that are not empty. *)
Fixpoint pieces_at (sep : Z → bool) (l : list Z) : list (list Z) :=
  match l with
  | [] => [[]]
  | c :: l =>
      if sep c then [] :: pieces_at sep l
      else match pieces_at sep l with p :: ps => (c :: p) :: ps | [] => [[c]] end
  end.
Definition words (l : list Z) : list (list Z) := filter (λ p, p ≠ []) (pieces_at (strchr blanks) l).
Definition newlines (l : list Z) : list Z := filter (λ x, x = 10) l.

Lemma pieces_at_cons sep l : ∃ p ps, pieces_at sep l = p :: ps.
Proof.
  induction l as [|c l (p & ps & IH)]; cbn; [eauto|]. destruct (sep c); [eauto|]. rewrite IH. eauto.
Qed.

(** The words that begin in [l], when a word is open before it or not. *)
Definition starts_in (inword : bool) (l : list Z) : Z :=
  Z.of_nat (length (words l)) - (if inword && negb (bool_decide (default [] (head (pieces_at (strchr blanks) l)) = [])) then 1 else 0).

Lemma starts_in_cons b c l : starts_in b (c :: l) =
  (if strchr blanks c then starts_in false l else (if b then 0 else 1) + starts_in true l).
Proof.
  unfold starts_in, words. cbn [pieces_at]. destruct (pieces_at_cons (strchr blanks) l) as (p & ps & ->). destruct (strchr blanks c).
  - rewrite (filter_cons_False _ []) by tauto. cbn. by rewrite andb_false_r.
  - rewrite !filter_cons, decide_True by done. cbn [head default negb andb bool_decide length]. rewrite bool_decide_false by done.
    destruct (decide (p ≠ [])) as [Hp|Hp]; destruct b; cbn [andb negb length]; [rewrite bool_decide_false by done|rewrite bool_decide_false by done|rewrite bool_decide_true by (destruct p; [done|by destruct Hp])|rewrite bool_decide_true by (destruct p; [done|by destruct Hp])]; cbn [negb length]; lia.
Qed.

Lemma starts_in_range b l : 0 <= starts_in b l <= Z.of_nat (length l).
Proof.
  revert b; induction l as [|c l IH]; intros b; [by destruct b|]. rewrite starts_in_cons. cbn [length].
  pose proof (IH false). pose proof (IH true). destruct (strchr blanks c), b; lia.
Qed.

(** The counters after a text, as long as they fit an [int]. *)
Lemma wc_fold l : ∀ s, 0 <= c_l s <= c_c s → 0 <= c_w s <= c_c s → c_c s + Z.of_nat (length l) < 2 ^ 31 →
  let s' := foldl wc_byte s l in
  c_l s' = c_l s + Z.of_nat (length (newlines l)) ∧ c_w s' = c_w s + starts_in (c_inword s) l ∧ c_c s' = c_c s + Z.of_nat (length l).
Proof.
  induction l as [|c l IH]; intros s Hl Hw Hc; cbn [foldl length] in *; cbv zeta.
  - assert (starts_in (c_inword s) [] = 0) as -> by by destruct (c_inword s). change (newlines []) with (@nil Z). cbn [length]. lia.
  - assert (c_c (wc_byte s c) = c_c s + 1) as E3 by (unfold wc_byte; destruct (strchr _ _), (c_inword s); cbn; apply signed_small; lia).
    assert (c_l (wc_byte s c) = c_l s + (if c =? 10 then 1 else 0)) as E1.
    { unfold wc_byte. destruct (strchr _ _), (c_inword s), (c =? 10); cbn; unfold s32; rewrite ?signed_small; lia. }
    assert (c_w (wc_byte s c) = c_w s + (if strchr blanks c then 0 else if c_inword s then 0 else 1) ∧ c_inword (wc_byte s c) = negb (strchr blanks c)) as [E2 E4].
    { unfold wc_byte. destruct (strchr _ _), (c_inword s) eqn:Ei; cbn; unfold s32; rewrite ?Ei, ?signed_small; split; (done || lia). }
    destruct (IH (wc_byte s c)) as (H1 & H2 & H3).
    { rewrite E1, E3. destruct (c =? 10); lia. }
    { rewrite E2, E3. destruct (strchr _ _), (c_inword s); lia. }
    { rewrite E3. lia. }
    rewrite H1, H2, H3, E1, E2, E3, E4, starts_in_cons. unfold newlines. rewrite filter_cons. split; [|split; [|lia]].
    + destruct (Z.eqb_spec c 10) as [->|Hne]; [rewrite decide_True by done; cbn [length]; lia|rewrite decide_False by done; lia].
    + destruct (strchr blanks c); cbn [negb]; [lia|]. destruct (c_inword s); lia.
Qed.

Lemma run_wc_loop fuel fd : ∀ data w s, io_fds w !! fd = Some data → (length data < fuel)%nat →
  ∃ sizes, run (wc_loop fuel fd s) w = (Done (foldl wc_byte s data), with_fd fd [] sizes w).
Proof.
  induction fuel as [|fuel IH]; intros data w s Hd Hf; [lia|]. cbn [wc_loop]. rewrite (run_read fd 512 data) by done. cbv zeta.
  destruct (read_piece (io_sizes w) 512 data ltac:(lia)) as [[-> ->]|[Hne Hlt]].
  - exists (tail (io_sizes w)). by rewrite drop_nil.
  - set (m := Z.to_nat _) in *. destruct (take m data) as [|x bs] eqn:E; [done|]. rewrite <- E. clear Hne.
    destruct (IH (drop m data) (with_fd fd (drop m data) (tail (io_sizes w)) w) (foldl wc_byte s (take m data))) as (sizes & Er); [apply with_fd_lookup|lia|].
    exists sizes. rewrite Er, with_fd_fd, <- foldl_app, take_drop. done.
Qed.

Lemma uformat_wc l w c name : uformat (str "%d %d %d %s
") [VWord l; VWord w; VWord c; VStr (Some name)] =
  Some (uprintint l 10 true ++ [32] ++ uprintint w 10 true ++ [32] ++ uprintint c 10 true ++ [32] ++ name ++ [10]).
Proof. reflexivity. Qed.

(** The line of wc for a text. *)
Definition wc_line (name data : list Z) : list Z :=
  uprintint (Z.of_nat (length (newlines data))) 10 true ++ [32] ++ uprintint (Z.of_nat (length (words data))) 10 true ++ [32] ++
  uprintint (Z.of_nat (length data)) 10 true ++ [32] ++ name ++ [10].

Lemma run_wc fuel fd name data w : io_fds w !! fd = Some data → (length data < fuel)%nat → Z.of_nat (length data) < 2 ^ 31 →
  ∃ sizes, run (wc fuel fd name) w = (Done tt, with_out (wc_line name data) (with_fd fd [] sizes w)).
Proof.
  intros Hd Hf Hl. destruct (run_wc_loop fuel fd data w (Counts 0 0 0 false) Hd Hf) as (sizes & E). exists sizes. unfold wc. rewrite run_bind, E.
  rewrite (run_printf _ _ _ _ (uformat_wc _ _ _ name)). destruct (wc_fold data (Counts 0 0 0 false)) as (H1 & H2 & H3); [cbn; lia..|].
  rewrite H1, H2, H3. cbn [c_l c_w c_c c_inword Z.add]. unfold wc_line, starts_in. cbn [andb]. by rewrite Z.sub_0_r.
Qed.

(** The numbers in the line are decimal numerals. *)
Lemma uprintint_parse n : 0 <= n < 2 ^ 31 → parse 10 (uprintint n 10 true) = n.
Proof.
  intros Hn. unfold uprintint, s32. rewrite signed_small by lia. rewrite (proj2 (Z.ltb_ge n 0)) by lia. cbn [andb]. cbv iota. rewrite u32_small, app_nil_r by lia.
  assert (∀ fuel x, 0 <= x → udigits_loop fuel x 10 = digits_loop fuel x 10) as E.
  { induction fuel as [|fuel IH]; intros x Hx; [done|]. cbn [udigits_loop digits_loop]. pose proof (Z.mod_pos_bound x 10 ltac:(lia)) as Hm.
    rewrite IH by (apply Z.div_pos; lia). assert (udigits !! Z.to_nat (x mod 10) = digits !! Z.to_nat (x mod 10)) as ->; [|done].
    assert (forallb (λ i, bool_decide (udigits !! i = digits !! i)) (seq 0 10) = true) as Hall by (vm_compute; reflexivity).
    rewrite forallb_forall in Hall. apply (bool_decide_eq_true_1 (udigits !! Z.to_nat (x mod 10) = _)). apply Hall, in_seq. lia. }
  rewrite E by lia. destruct (digits_loop_spec 10 ltac:(lia) 32 n) as (Hv & Hc & Hl & _); [split; [lia|]; change (10 ^ Z.of_nat 32) with (10 ^ 32); lia|lia|].
  unfold parse. rewrite <- numeral_rev in Hv. destruct (rev (digits_loop 32 n 10)) as [|c r] eqn:Er.
  { apply (f_equal length) in Er. rewrite length_rev in Er. cbn [length] in Er. lia. }
  assert (c ∈ digits_loop 32 n 10) as Hin by (apply list_elem_of_In, in_rev; rewrite Er; by left).
  by rewrite (proj2 (Z.eqb_neq _ _) (Forall_elem _ _ _ Hc Hin)).
Qed.

(** ** grep *)

Lemma run_grep_write fuel pattern : ∀ p w,
  run (grep_write fuel pattern p) w = (Done (grep_lines fuel pattern p).2, with_out (grep_lines fuel pattern p).1 w).
Proof.
  induction fuel as [|fuel IH]; intros p w; cbn [grep_write grep_lines]; [by rewrite with_out_nil|].
  destruct (strchr_nl p) as [[line rest]|]; [|by rewrite with_out_nil]. specialize (IH rest). destruct (grep_lines fuel pattern rest) as [o r].
  rewrite run_bind. destruct (match_ pattern line).
  - rewrite run_bind. cbn [sys run io_call Z.eqb Pos.eqb]. rewrite IH. cbn [fst snd].
    change (Io _ _ _ _ _) with (with_out (line ++ [nl]) w). by rewrite with_out_out.
  - cbn [run]. by rewrite IH.
Qed.

Lemma run_grep_prog fuel pattern fd : ∀ buf inp w, io_fds w !! fd = Some inp → (length inp < fuel)%nat →
  ∃ sizes rest, run (grep_prog fuel pattern fd buf) w = (Done tt, with_out (grep_loop fuel (io_sizes w) pattern buf inp) (with_fd fd rest sizes w)).
Proof.
  induction fuel as [|fuel IH]; intros buf inp w Hd Hf; [lia|]. cbn [grep_prog grep_loop]. rewrite (run_read fd _ inp) by done. cbv zeta.
  set (n := read_size (io_sizes w) (BUFSIZE - Z.of_nat (length buf) - 1)) in *. destruct (take (Z.to_nat n) inp) as [|x data] eqn:E.
  - exists (tail (io_sizes w)), (drop (Z.to_nat n) inp). by rewrite with_out_nil.
  - rewrite run_bind, run_grep_write. destruct (grep_lines _ _ _) as [o r] eqn:El. cbn [fst snd].
    destruct (IH r (drop (Z.to_nat n) inp) (with_out o (with_fd fd (drop (Z.to_nat n) inp) (tail (io_sizes w)) w))) as (sizes & rest & Er).
    { apply with_fd_lookup. }
    { rewrite length_drop. destruct (Z.to_nat n) eqn:En; [by rewrite take_0 in E|]. destruct inp; [done|]. cbn [length] in *. lia. }
    exists sizes, rest. rewrite Er. cbn [with_out with_fd io_sizes]. rewrite with_fd_out, with_fd_fd, with_out_out. done.
Qed.

(** ** sort, head and tail *)

Lemma run_or_stuck {A} (x : option A) w : run (or_stuck x) w = (match x with Some a => Done a | None => Undefined end, w).
Proof. by destruct x. Qed.

Lemma run_readlines fuel fd : ∀ inp rows cur w, io_fds w !! fd = Some inp → (length inp < fuel)%nat →
  ∃ sizes rest, run (readlines_prog fuel fd rows cur) w =
    (match readlines_loop inp rows cur with Some l => Done l | None => Undefined end, with_fd fd rest sizes w).
Proof.
  induction fuel as [|fuel IH]; intros inp rows cur w Hd Hf; [lia|]. cbn [readlines_prog]. rewrite (run_read fd 1 inp) by done. cbv zeta.
  assert (Z.to_nat (read_size (io_sizes w) 1) = 1%nat) as -> by (unfold read_size; destruct (io_sizes w); lia).
  destruct inp as [|c inp]; cbn [take drop readlines_loop].
  - exists (tail (io_sizes w)), []. apply run_or_stuck.
  - cbn [length] in Hf. set (w1 := with_fd fd inp (tail (io_sizes w)) w).
    assert (∀ rows cur, ∃ sizes rest, run (readlines_prog fuel fd rows cur) w1 =
      (match readlines_loop inp rows cur with Some l => Done l | None => Undefined end, with_fd fd rest sizes w)) as IH'.
    { intros rows' cur'. destruct (IH inp rows' cur' w1) as (sizes & rest & E); [apply with_fd_lookup|lia|]. exists sizes, rest. rewrite E. unfold w1. by rewrite with_fd_fd. }
    destruct (c =? nl); [|apply IH']. destruct (MAXLINES <=? _); [|apply IH'].
    exists (tail (io_sizes w)), inp. apply run_or_stuck.
Qed.

Lemma uformat_line l : uformat (str "%s
") [VStr (Some l)] = Some (l ++ [10]).
Proof. reflexivity. Qed.

Lemma run_print_lines ls : ∀ w, run (print_lines ls) w = (Done tt, with_out (concat (println <$> ls)) w).
Proof.
  induction ls as [|l ls IH]; intros w; cbn [print_lines]; [by rewrite with_out_nil|].
  rewrite run_bind, (run_printf _ _ _ _ (uformat_line l)), IH, with_out_out. done.
Qed.

(** ** The programs *)

(** The message of a program that cannot open the file [a], on descriptor 1 or 2. *)
Lemma run_cannot (fd : Z) (msg : string) a o w : uformat (str msg) [VStr (Some a)] = Some o → fd = 1 ∨ fd = 2 →
  run (fprintf fd msg [VStr (Some a)] >>> Exit (A := unit) 1) w = (Exited 1, writes_to fd o w).
Proof. intros Ho Hfd. rewrite run_bind. unfold fprintf, vprintf. by rewrite (run_vprintf_loop fd _ Hfd _ _ _ _ Ho). Qed.

(** How a program that runs over its files ends. *)
Definition ends {A} (r : result A * io) (w w' : io) (outs : list Z) (e : option (list Z)) (fd : Z) (msg : list Z → list Z) : Prop :=
  same_process w w' ∧
  match e with
  | None => r = (Exited 0, w') ∧ io_out w' = io_out w ++ outs ∧ io_err w' = io_err w
  | Some a => r = (Exited 1, w') ∧ io_out w' = io_out w ++ outs ++ (if fd =? 1 then msg a else []) ∧ io_err w' = io_err w ++ (if fd =? 1 then [] else msg a)
  end.

Lemma main_over_files body out good fuel args w fd (s : string) msg : fd = 1 ∨ fd = 2 →
  (∀ a, uformat (str s) [VStr (Some a)] = Some (msg a)) →
  (∀ fd name data w, io_fds w !! fd = Some data → (length data < fuel)%nat → good data →
    ∃ sizes rest, run (body fuel fd name) w = (Done tt, with_out (out name data) (with_fd fd rest sizes w))) →
  ready w → (∀ a data, a ∈ args → io_files w !! a = Some data → (length data < fuel)%nat ∧ good data) →
  let '(l, e) := inputs (io_files w) args in
  ∃ w', ends (run (over_files body (λ a, fprintf fd s [VStr (Some a)] >>> Exit 1) fuel args >>> Exit (A := unit) 0) w) w w'
    (concat ((λ p, out p.1 p.2) <$> l)) e fd msg.
Proof.
  intros Hfd Hmsg Hbody Hw Hlen.
  pose proof (run_over_files body out (λ a, fprintf fd s [VStr (Some a)] >>> Exit 1) good fuel Hbody args w Hw Hlen) as H.
  destruct (inputs (io_files w) args) as [l e]. destruct H as (w1 & [S1 S2] & O & R & E). rewrite run_bind, E. destruct e as [a|].
  - rewrite (run_cannot fd s a (msg a)) by done. exists (writes_to fd (msg a) w1). unfold writes_to.
    destruct Hfd as [-> | ->]; cbn [Z.eqb Pos.eqb]; (split; [by split|]); cbn [with_out with_err io_out io_err]; rewrite ?app_nil_r, O, R, <- ?(assoc_L (++)); done.
  - exists w1. by split; [split|].
Qed.

Lemma cat_over fuel args : cat_files fuel args =
  over_files (λ f fd _, cat f fd) (λ a, fprintf 2 "cat: cannot open %s
" [VStr (Some a)] >>> Exit 1) fuel args.
Proof. induction args as [|a args IH]; [done|]. cbn [cat_files over_files]. by rewrite IH. Qed.

Lemma wc_over fuel args : wc_files fuel args =
  over_files wc (λ a, fprintf 1 "wc: cannot open %s
" [VStr (Some a)] >>> Exit 1) fuel args.
Proof. induction args as [|a args IH]; [done|]. cbn [wc_files over_files]. by rewrite IH. Qed.

Lemma grep_over fuel re args : grep_files fuel re args =
  over_files (λ f fd _, grep_prog f re fd []) (λ a, fprintf 1 "grep: cannot open %s
" [VStr (Some a)] >>> Exit 1) fuel args.
Proof. induction args as [|a args IH]; [done|]. cbn [grep_files over_files]. by rewrite IH. Qed.

(** cat writes its files one after the other.  However the kernel splits the
    files into [read]s, the program writes their bytes in the order of the arguments,
    up to the first one that cannot be opened, for which it says so and exits with 1. *)
Theorem cat_correct fuel args w : args ≠ [] → ready w →
  (∀ a data, a ∈ args → io_files w !! a = Some data → (length data < fuel)%nat) →
  let '(l, e) := inputs (io_files w) args in
  ∃ w', ends (run (cat_main fuel args) w) w w' (concat (snd <$> l)) e 2 (λ a, str "cat: cannot open " ++ a ++ [10]).
Proof.
  intros Hne Hw Hlen. pose proof (main_over_files (λ f fd _, cat f fd) (λ _ data, data) (λ _, True) fuel args w 2 "cat: cannot open %s
" (λ a, str "cat: cannot open " ++ a ++ [10])) as H.
  assert (cat_main fuel args = (cat_files fuel args >>> Exit 0)) as -> by by destruct args.
  rewrite cat_over. apply H; try done; [by right| |intros a data Ha Hd; split; [by apply (Hlen a)|done]].
  intros fd name data w1 Hd Hf _. destruct (run_cat fuel fd data w1 Hd Hf) as (sizes & E). by exists sizes, [].
Qed.

(** Wc counts.  For files of fewer than 2^31 bytes, and however the kernel splits them
    into [read]s, the program writes for each file a line with the number of its newlines,
    of its words (the non-empty pieces between blanks) and of its bytes, in decimal, and
    its name, up to the first file that cannot be opened. *)
Theorem wc_correct fuel args w : args ≠ [] → ready w →
  (∀ a data, a ∈ args → io_files w !! a = Some data → (length data < fuel)%nat ∧ Z.of_nat (length data) < 2 ^ 31) →
  (let '(l, e) := inputs (io_files w) args in
   ∃ w', ends (run (wc_main fuel args) w) w w' (concat ((λ p, wc_line p.1 p.2) <$> l)) e 1 (λ a, str "wc: cannot open " ++ a ++ [10])) ∧
  ∀ n, 0 <= n < 2 ^ 31 → parse 10 (uprintint n 10 true) = n.
Proof.
  intros Hne Hw Hlen. split; [|apply uprintint_parse].
  pose proof (main_over_files wc wc_line (λ data, Z.of_nat (length data) < 2 ^ 31) fuel args w 1 "wc: cannot open %s
" (λ a, str "wc: cannot open " ++ a ++ [10])) as H.
  assert (wc_main fuel args = (wc_files fuel args >>> Exit 0)) as -> by by destruct args.
  rewrite wc_over. apply H; try done; [by left|].
  intros fd name data w1 Hd Hf Hs. destruct (run_wc fuel fd name data w1 Hd Hf Hs) as (sizes & E). by exists sizes, [].
Qed.

(** C37: grep writes the matching lines of its files.  However the kernel splits the files
    into [read]s, the program writes, file after file up to the first one that cannot be
    opened, exactly the lines that end with a newline and match the pattern, in order and
    whole, provided no line has a NUL or is longer than 1022 bytes.  (A last line without
    its newline is not looked at.) *)
Theorem grep_main_correct fuel re args w : args ≠ [] → ready w →
  (∀ a data, a ∈ args → io_files w !! a = Some data → (length data < fuel)%nat ∧ no_nul data ∧ short data) →
  let '(l, e) := inputs (io_files w) args in
  ∃ w', ends (run (grep_main fuel (re :: args)) w) w w'
    (concat ((λ p, concat ((λ x, x ++ [nl]) <$> filter (λ x, match_ re x = true) (split_lines p.2).1)) <$> l))
    e 1 (λ a, str "grep: cannot open " ++ a ++ [10]).
Proof.
  intros Hne Hw Hlen. pose proof (main_over_files (λ f fd _, grep_prog f re fd []) (λ _ data, matching re (split_lines data).1) (λ data, no_nul data ∧ short data)
    fuel args w 1 "grep: cannot open %s
" (λ a, str "grep: cannot open " ++ a ++ [10])) as H.
  assert (grep_main fuel (re :: args) = (grep_files fuel re args >>> Exit 0)) as -> by by destruct args.
  rewrite grep_over. apply H; try done; [by left|].
  intros fd name data w1 Hd Hf [Hn Hs]. destruct (run_grep_prog fuel re fd [] data w1 Hd Hf) as (sizes & rest & E). exists sizes, rest. rewrite E.
  by rewrite (grep_loop_run re fuel _ [] data) by done.
Qed.

(** C38: sort terminates and sorts.  For a file of fewer than 1000 lines the recursion of
    [qsort] ends, with no more nested calls than there are lines, and the program writes
    the lines of the file, each cut at 99 bytes (and at a NUL), all of them and each as
    often as it occurs, in the order of [strcmp], and exits with 0. *)
Theorem sort_prog_correct fuel a data w : ready w → io_files w !! a = Some data → (length data < fuel)%nat →
  Forall is_byte data → Z.of_nat (length (split_lines data).1) < MAXLINES →
  ∃ w' l, run (sort_prog fuel [a]) w = (Exited 0, w') ∧ same_process w w' ∧ io_err w' = io_err w ∧
    io_out w' = io_out w ++ concat (println <$> l) ∧ l ≡ₚ texts (cut <$> lines_of data) ∧ sorted_lines l.
Proof.
  intros Hw Ha Hf Hb Hn. assert (readlines data = Some (cut <$> lines_of data)) as Er by (apply (readlines_run data [] []); done).
  destruct (qsort_all _ (texts_lines data _ Hb Er)) as (l & E & Hp & Hs). unfold texts in E at 1. rewrite length_fmap in E.
  assert (length (texts (cut <$> lines_of data)) = length (cut <$> lines_of data)) as El by apply length_fmap. rewrite El in E.
  unfold sort_prog. rewrite (run_open a O_RDONLY data) by done. change (3 <? 0) with false. cbv iota.
  destruct (run_readlines fuel 3 data [] [] (with_fd 3 data (io_sizes w) w)) as (sizes & rest & E1); [apply with_fd_lookup|done|].
  change (readlines_loop data [] []) with (readlines data) in E1. rewrite Er in E1.
  rewrite run_bind, E1, with_fd_fd, run_bind, run_or_stuck, E, run_bind, run_print_lines, <- with_fd_out, run_close by apply Hw.
  eexists _, l. split; [reflexivity|]. by split; [split|].
Qed.

(** The first lines and the last lines. *)
Lemma head_tail_run (name : string) pick fuel n a b data rows w :
  ready w → io_files w !! b = Some data → (length data < fuel)%nat → readlines data = Some rows →
  (a = str "-" ++ n) → 
  ∃ w', run (slice_prog name pick fuel [a; b]) w = (Exited 0, w') ∧ same_process w w' ∧ io_err w' = io_err w ∧
    io_out w' = io_out w ++ concat (println <$> pick (atoi n) rows).
Proof.
  intros Hw Hb Hf Er ->. unfold slice_prog. cbn [str fmap list_fmap app head default tail]. change (_ =? chr "-") with true. cbv iota.
  rewrite (run_open b O_RDONLY data) by done. change (3 <? 0) with false. cbv iota.
  destruct (run_readlines fuel 3 data [] [] (with_fd 3 data (io_sizes w) w)) as (sizes & rest & E1); [apply with_fd_lookup|done|].
  change (readlines_loop data [] []) with (readlines data) in E1. rewrite Er in E1.
  rewrite run_bind, E1, with_fd_fd, run_bind, run_print_lines, <- with_fd_out, run_close by apply Hw.
  eexists. split; [reflexivity|]. by split; [split|].
Qed.

(** head and tail print what [head_main] and [tail_main] say. *)
Lemma head_tail_correct fuel n b data w : ready w → io_files w !! b = Some data → (length data < fuel)%nat → ∀ oh ot,
  head_main (atoi n) data = Some oh → tail_main (atoi n) data = Some ot →
  (∃ w', run (head_prog fuel [str "-" ++ n; b]) w = (Exited 0, w') ∧ io_out w' = io_out w ++ oh) ∧
  ∃ w', run (tail_prog fuel [str "-" ++ n; b]) w = (Exited 0, w') ∧ io_out w' = io_out w ++ ot.
Proof.
  intros Hw Hb Hf oh ot Hh Ht. unfold head_main in Hh. unfold tail_main in Ht. destruct (readlines data) as [rows|] eqn:Er; [|done]. injection Hh as <-. injection Ht as <-.
  destruct (head_tail_run "head" head_lines fuel n (str "-" ++ n) b data rows w Hw Hb Hf Er eq_refl) as (w1 & E1 & _ & _ & O1).
  destruct (head_tail_run "tail" tail_lines fuel n (str "-" ++ n) b data rows w Hw Hb Hf Er eq_refl) as (w2 & E2 & _ & _ & O2).
  split; [exists w1|exists w2]; by split.
Qed.

(** ** Instances *)

Definition demo_files : gmap (list Z) (list Z) := {[ str "a" := str "one two" ++ [nl] ++ str "three"; str "b" := str "two" ++ [nl] ++ str "four" ++ [nl] ]}.
Definition demo : io := Io demo_files {[ 0 := [] ]} [2%nat; 0%nat; 5%nat] [] [].

Lemma demo_ready : ready demo.
Proof. split; [by eexists|done]. Qed.

Lemma demo_short a data : io_files demo !! a = Some data → (length data < 30)%nat ∧ no_nul data ∧ short data.
Proof.
  intros H. assert (data = str "one two" ++ [nl] ++ str "three" ∨ data = str "two" ++ [nl] ++ str "four" ++ [nl]) as [-> | ->].
  { cbn [demo io_files] in H. unfold demo_files in H. apply lookup_insert_Some in H as [[_ <-]|[_ H]]; [by left|]. apply lookup_singleton_Some in H as [_ <-]. by right. }
  - split; [vm_compute; lia|]. split; [vm_compute; repeat constructor; discriminate|]. split; vm_compute; repeat constructor.
  - split; [vm_compute; lia|]. split; [vm_compute; repeat constructor; discriminate|]. split; vm_compute; repeat constructor.
Qed.

Lemma cat_correct_witness :
  ∃ w, run (cat_main 30 [str "a"; str "b"; str "c"]) demo = (Exited 1, w) ∧
    io_out w = str "one two" ++ [nl] ++ str "threetwo" ++ [nl] ++ str "four" ++ [nl] ∧ io_err w = str "cat: cannot open c" ++ [nl].
Proof.
  destruct (cat_correct 30 [str "a"; str "b"; str "c"] demo ltac:(done) demo_ready) as (w & _ & E & O & R);
    [intros a data _ H; apply (demo_short _ _ H)|]. exists w. split; [exact E|]. split; [rewrite O; vm_compute; reflexivity|rewrite R; vm_compute; reflexivity].
Defined.

Lemma wc_correct_witness :
  ∃ w, run (wc_main 30 [str "a"; str "b"]) demo = (Exited 0, w) ∧ io_out w = str "1 3 13 a" ++ [nl] ++ str "2 2 9 b" ++ [nl].
Proof.
  destruct (wc_correct 30 [str "a"; str "b"] demo ltac:(done) demo_ready) as [(w & _ & E & O & _) _].
  - intros a data _ H. destruct (demo_short _ _ H). split; [done|]. lia.
  - exists w. split; [exact E|]. rewrite O. vm_compute. reflexivity.
Defined.

Lemma grep_main_correct_witness :
  ∃ w, run (grep_main 30 [str "o$"; str "a"; str "b"]) demo = (Exited 0, w) ∧ io_out w = str "one two" ++ [nl] ++ str "two" ++ [nl].
Proof.
  destruct (grep_main_correct 30 (str "o$") [str "a"; str "b"] demo ltac:(done) demo_ready) as (w & _ & E & O & _);
    [intros a data _ H; apply (demo_short _ _ H)|]. exists w. split; [exact E|]. rewrite O. vm_compute. reflexivity.
Defined.

Lemma sort_prog_correct_witness :
  ∃ w l, run (sort_prog 30 [str "a"]) demo = (Exited 0, w) ∧ io_out w = concat (println <$> l) ∧
    l ≡ₚ [str "one two"; str "three"] ∧ sorted_lines l.
Proof.
  destruct (sort_prog_correct 30 (str "a") (str "one two" ++ [nl] ++ str "three") demo demo_ready) as (w & l & E & _ & _ & O & Hp & Hs).
  - reflexivity.
  - vm_compute. lia.
  - vm_compute. repeat constructor; discriminate.
  - vm_compute. reflexivity.
  - exists w, l. split; [exact E|]. split; [exact O|]. split; [exact Hp|exact Hs].
Defined.
