(* ===== verification/Boot.v ===== *)
(** * start.c, main.c, plic.c and the registers of riscv.h

    The way from machine mode to [main], the order in which the harts come up, and the
    interrupt controller.  A control register is a cell of the hart's state; [sstatus] and
    [sie] are the views of [mstatus] and [mie] that the architecture gives to supervisor
    mode.  Which bits of the delegation registers a hart implements is up to the hart. *)

From S2P Require Import Prelude Param Riscv.

(** ** Registers *)

Inductive reg :=
  | mhartid | mstatus | mepc | medeleg | mideleg | mie | sip | menvcfg | mcounteren | stimecmp | time | pmpaddr0 | pmpcfg0
  | satp | stvec | sepc | scause | stval | tp | sp | ra.

#[global] Instance reg_eq_dec : EqDecision reg.
Proof. solve_decision. Defined.

(** A hart: its registers, its mode (0 user, 1 supervisor, 3 machine), its next
    instruction. *)
Record csr := Csr { c_reg : reg → Z; c_priv : Z; c_pc : Z }.

Definition csrr (r : reg) : M csr Z := gets (λ c, c_reg c r).
Definition setr (r : reg) (x : Z) (c : csr) : csr := Csr (λ r', if decide (r' = r) then u64 x else c_reg c r') (c_priv c) (c_pc c).
Definition csrw (r : reg) (x : Z) : M csr unit := modify (setr r x).

Definition r_mhartid : M csr Z := csrr mhartid.
Definition r_mstatus : M csr Z := csrr mstatus.
Definition w_mstatus (x : Z) : M csr unit := csrw mstatus x.
Definition w_mepc (x : Z) : M csr unit := csrw mepc x.
Definition r_mie : M csr Z := csrr mie.
Definition w_mie (x : Z) : M csr unit := csrw mie x.
Definition r_menvcfg : M csr Z := csrr menvcfg.
Definition w_menvcfg (x : Z) : M csr unit := csrw menvcfg x.
Definition r_mcounteren : M csr Z := csrr mcounteren.
Definition w_mcounteren (x : Z) : M csr unit := csrw mcounteren x.
Definition r_stimecmp : M csr Z := csrr stimecmp.
Definition w_stimecmp (x : Z) : M csr unit := csrw stimecmp x.
Definition r_time : M csr Z := csrr time.
Definition w_pmpaddr0 (x : Z) : M csr unit := csrw pmpaddr0 x.
Definition w_pmpcfg0 (x : Z) : M csr unit := csrw pmpcfg0 x.
Definition r_satp : M csr Z := csrr satp.
Definition w_satp (x : Z) : M csr unit := csrw satp x.
Definition r_stvec : M csr Z := csrr stvec.
Definition w_stvec (x : Z) : M csr unit := csrw stvec x.
Definition r_sepc : M csr Z := csrr sepc.
Definition w_sepc (x : Z) : M csr unit := csrw sepc x.
Definition r_scause : M csr Z := csrr scause.
Definition r_stval : M csr Z := csrr stval.
Definition r_sip : M csr Z := csrr sip.
Definition w_sip (x : Z) : M csr unit := csrw sip x.
Definition r_tp : M csr Z := csrr tp.
Definition w_tp (x : Z) : M csr unit := csrw tp x.
Definition r_sp : M csr Z := csrr sp.
Definition r_ra : M csr Z := csrr ra.
Definition r_medeleg : M csr Z := csrr medeleg.
Definition r_mideleg : M csr Z := csrr mideleg.

(** Bits the architecture makes visible in [sstatus]. *)
Definition SSTATUS_VIEW : Z := 0x80000003000DE762.

Definition r_sstatus : M csr Z := gets (λ c, Z.land (c_reg c mstatus) SSTATUS_VIEW).
Definition w_sstatus (x : Z) : M csr unit :=
  let! m := r_mstatus in
  w_mstatus (Z.lor (Z.ldiff m SSTATUS_VIEW) (Z.land (u64 x) SSTATUS_VIEW)).

Definition intr_on : M csr unit :=
  let! x := r_sstatus in
  w_sstatus (Z.lor x SSTATUS_SIE).
Definition intr_off : M csr unit :=
  let! x := r_sstatus in
  w_sstatus (Z.land x (Z.lnot SSTATUS_SIE)).
Definition intr_get : M csr bool :=
  let! x := r_sstatus in
  ret (negb (Z.land x SSTATUS_SIE =? 0)).

Definition cpuid : M csr Z :=
  let! x := r_tp in
  ret (s32 x).

(** ** start.c *)

Section Start.
(** The bits of [medeleg] and [mideleg] that can be set. *)
Context (deleg_exc deleg_int : Z).

Definition w_medeleg (x : Z) : M csr unit := csrw medeleg (Z.land x deleg_exc).
Definition w_mideleg (x : Z) : M csr unit := csrw mideleg (Z.land x deleg_int).

(** Supervisor mode sees the interrupts that are delegated to it. *)
Definition r_sie : M csr Z := gets (λ c, Z.land (c_reg c mie) (c_reg c mideleg)).
Definition w_sie (x : Z) : M csr unit :=
  let! d := r_mideleg in
  let! m := r_mie in
  w_mie (Z.lor (Z.ldiff m d) (Z.land (u64 x) d)).

(** The instruction: to the mode in [MPP], at [mepc]; [MIE] takes the value of [MPIE],
    which is set, and [MPP] becomes user mode. *)
Definition mret : M csr unit :=
  let! m := r_mstatus in
  let mpie := Z.shiftl (Z.b2z (Z.testbit m 7)) 3 in
  w_mstatus (Z.lor (Z.ldiff m (Z.lor MSTATUS_MPP_MASK (Z.shiftl 1 3))) (Z.lor (Z.shiftl 1 7) mpie)) ;;;
  modify (λ c, Csr (c_reg c) (Z.shiftr (Z.land m MSTATUS_MPP_MASK) 11) (c_reg c mepc)).

Definition timerinit : M csr unit :=
  let! x := r_mie in
  w_mie (Z.lor x MIE_STIE) ;;;
  let! x := r_menvcfg in
  w_menvcfg (Z.lor x (Z.shiftl 1 63)) ;;;
  let! x := r_mcounteren in
  w_mcounteren (Z.lor x 2) ;;;
  let! t := r_time in
  w_stimecmp (t + 1000000).

(** [main] is the address of the function. *)
Definition start (main : Z) : M csr unit :=
  let! x := r_mstatus in
  let x := Z.land x (Z.lnot MSTATUS_MPP_MASK) in
  let x := Z.lor x MSTATUS_MPP_S in
  w_mstatus x ;;;
  w_mepc main ;;;
  w_satp 0 ;;;
  w_medeleg 0xffff ;;;
  w_mideleg 0xffff ;;;
  let! x := r_sie in
  w_sie (Z.lor x (Z.lor SIE_SEIE (Z.lor SIE_STIE SIE_SSIE))) ;;;
  w_pmpaddr0 0x3fffffffffffff ;;;
  w_pmpcfg0 0xf ;;;
  timerinit ;;;
  let! id := r_mhartid in
  w_tp (s32 id) ;;;
  mret.
End Start.

(** ** What the harts do once they are in [main] *)

(** [w_satp] between two flushes of the TLB, which the model does not have. *)
Definition kvminithart (kernel_pagetable : Z) : M csr unit := w_satp (MAKE_SATP kernel_pagetable).
Definition trapinithart (kernelvec : Z) : M csr unit := w_stvec kernelvec.

(** ** plic.c, on its memory-mapped registers *)

Definition mmio : Type := Z → Z.
Definition writel (a v : Z) : M mmio unit := modify (λ m, fupdz m a (u32 v)).
Definition readl (a : Z) : M mmio Z := gets (λ m, m a).

Definition plicinit : M mmio unit :=
  writel (PLIC + UART0_IRQ * 4) 1 ;;;
  writel (PLIC + VIRTIO0_IRQ * 4) 1.
Definition plicinithart (hart : Z) : M mmio unit :=
  writel (PLIC_SENABLE hart) (Z.lor (Z.shiftl 1 UART0_IRQ) (Z.shiftl 1 VIRTIO0_IRQ)) ;;;
  writel (PLIC_SPRIORITY hart) 0.
Definition plic_claim (hart : Z) : M mmio Z :=
  let! irq := readl (PLIC_SCLAIM hart) in
  ret (s32 irq).
Definition plic_complete (hart irq : Z) : M mmio unit := writel (PLIC_SCLAIM hart) irq.

(** ** main.c: the order in which the harts come up *)

Inductive init :=
  | I_consoleinit | I_printfinit | I_printf (fmt : string) | I_kinit | I_kvminit | I_kvminithart | I_procinit | I_trapinit | I_trapinithart
  | I_plicinit | I_plicinithart | I_binit | I_iinit | I_fileinit | I_virtio_disk_init | I_userinit.

Inductive instr := Call (f : init) | SetStarted | AwaitStarted | Scheduler.

Definition boot_calls : list init :=
  [I_consoleinit; I_printfinit; I_printf "\n"; I_printf "xv6 kernel is booting\n"; I_printf "\n"; I_kinit; I_kvminit; I_kvminithart; I_procinit; I_trapinit; I_trapinithart;
   I_plicinit; I_plicinithart; I_binit; I_iinit; I_fileinit; I_virtio_disk_init; I_userinit].
Definition hart_calls : list init := [I_printf "hart %d starting\n"; I_kvminithart; I_trapinithart; I_plicinithart].

(** [main] on the hart [id]; the fences order [started] with the calls. *)
Definition main (id : nat) : list instr :=
  match id with
  | O => (Call <$> boot_calls) ++ [SetStarted; Scheduler]
  | S _ => [AwaitStarted] ++ (Call <$> hart_calls) ++ [Scheduler]
  end.

(** [started], how far each hart is, and the calls in the order they were made. *)
Record machine := Machine { m_started : bool; m_at : nat → nat; m_calls : list (nat * init) }.

Definition fupdn (f : nat → nat) (i v : nat) : nat → nat := λ j, if decide (j = i) then v else f j.

(** A step of the hart [id]; a hart in [scheduler] takes no more. *)
Definition boot_step (id : nat) (m : machine) : option machine :=
  let next := fupdn (m_at m) id (S (m_at m id)) in
  match main id !! m_at m id with
  | None | Some Scheduler => None
  | Some (Call f) => Some (Machine (m_started m) next (m_calls m ++ [(id, f)]))
  | Some SetStarted => Some (Machine true next (m_calls m))
  | Some AwaitStarted => if m_started m then Some (Machine (m_started m) next (m_calls m)) else Some m
  end.

Definition power_up : machine := Machine false (λ _, 0%nat) [].

Inductive reachable : machine → Prop :=
  | reach_start : reachable power_up
  | reach_step m id m' : reachable m → boot_step id m = Some m' → reachable m'.

(** ** Coming up *)

Definition calls_of (id : nat) (m : machine) : list init := snd <$> filter (λ p, p.1 = id) (m_calls m).

Definition own_calls (id : nat) : list init := match id with O => boot_calls | S _ => hart_calls end.

(** The calls a hart has made when it is at the instruction [k]. *)
Definition made (id k : nat) : list init := take (match id with O => k | S _ => k - 1 end) (own_calls id).

Record boot_inv (m : machine) : Prop := {
  bi_calls : ∀ id, calls_of id m = made id (m_at m id);
  bi_started : m_started m = true → (19 <= m_at m 0)%nat;
  bi_late : ∀ id, (1 <= m_at m (S id))%nat → m_started m = true;
  bi_order : ∀ i id f, m_calls m !! i = Some (S id, f) → snd <$> filter (λ p, p.1 = 0%nat) (take i (m_calls m)) = boot_calls }.

Lemma main_call id k f : main id !! k = Some (Call f) → made id (S k) = made id k ++ [f] ∧ ((k < 18)%nat ∨ ∃ j, id = S j ∧ (1 <= k)%nat).
Proof.
  intros H. destruct id as [|id]; unfold main, made, own_calls in *.
  - assert ((k < 18)%nat) as Hk.
    { apply lookup_lt_Some in H as Hl. cbn in Hl. do 18 (destruct k as [|k]; [lia|]). destruct k as [|[|k]]; done. }
    split; [|by left]. rewrite lookup_app_l, list_lookup_fmap in H by (rewrite length_fmap; cbn; lia).
    destruct (boot_calls !! k) as [g|] eqn:E; [|done]. injection H as ->. by apply take_S_r.
  - destruct k as [|k]; [done|]. split; [|right; exists id; split; [done|lia]]. cbn [app lookup list_lookup] in H.
    replace (S (S k) - 1)%nat with (S (S k - 1)) by lia. replace (S k - 1)%nat with k by lia.
    change (((Call <$> hart_calls) ++ [Scheduler]) !! k = Some (Call f)) in H.
    do 4 (destruct k as [|k]; [by injection H as <-|]). destruct k; done.
Qed.

Lemma calls_snoc id id' f m : snd <$> filter (λ p, p.1 = id) (m_calls m ++ [(id', f)]) = calls_of id m ++ (if decide (id' = id) then [f] else []).
Proof. unfold calls_of. rewrite filter_app, fmap_app. f_equal. rewrite filter_cons. cbn [fst]. by destruct (decide (id' = id)). Qed.

Lemma boot_inv_step m id m' : boot_inv m → boot_step id m = Some m' → boot_inv m'.
Proof.
  intros [I1 I2 I3 I4]. unfold boot_step. destruct (main id !! m_at m id) as [[f| | |]|] eqn:E; try done.
  - destruct (main_call _ _ _ E) as [Hm Hk]. intros [= <-]. split; cbn [m_calls m_at m_started calls_of].
    + intros j. unfold calls_of. cbn [m_calls]. rewrite calls_snoc, I1. unfold fupdn. destruct (decide (j = id)) as [->|Hj]; [by rewrite decide_True|].
      rewrite decide_False by done. by rewrite app_nil_r.
    + intros Hs. specialize (I2 Hs). unfold fupdn. destruct (decide (0%nat = id)) as [<-|]; lia.
    + intros j Hj. unfold fupdn in Hj. destruct (decide (S j = id)) as [<-|]; [|by apply (I3 j)].
      destruct Hk as [Hk|(j' & Ej & Hk)]; [|by apply (I3 j)]. destruct (m_at m (S j)) as [|k] eqn:Ek; [done|]. apply (I3 j). lia.
    + intros i j g Hi. destruct (decide (i < length (m_calls m))%nat) as [Hlt|Hge].
      * rewrite lookup_app_l in Hi by done. rewrite take_app_le by lia. by apply (I4 i j g).
      * rewrite lookup_app_r in Hi by lia. apply list_lookup_singleton_Some in Hi as [Hi [= -> _]]. rewrite take_app_ge by lia. replace (i - length (m_calls m))%nat with 0%nat by lia.
        rewrite take_0, app_nil_r. change (calls_of 0 m = boot_calls). rewrite I1. unfold made. cbn [own_calls]. apply take_ge.
        assert (m_started m = true) as Hs. { apply (I3 j). destruct (m_at m (S j)) as [|k] eqn:Ek; [done|lia]. }
        specialize (I2 Hs). cbn. lia.
  - intros [= <-]. assert (id = 0%nat ∧ m_at m 0 = 18%nat) as [-> H0].
    { destruct id as [|id]; unfold main in E.
      - split; [done|]. destruct (m_at m 0) as [|k]; [done|]. do 17 (destruct k as [|k]; [done|]). destruct k as [|[|k]]; done.
      - destruct (m_at m (S id)) as [|k]; [done|]. do 4 (destruct k as [|k]; [done|]). destruct k as [|k]; done. }
    split; cbn [m_calls m_at m_started].
    + intros j. change (calls_of j (Machine true _ (m_calls m))) with (calls_of j m). rewrite I1. unfold fupdn. destruct (decide (j = 0%nat)) as [->|]; [|done].
      unfold made. cbn [own_calls]. rewrite !take_ge; [done|cbn; lia|cbn; lia].
    + intros _. unfold fupdn. rewrite decide_True by done. lia.
    + intros. done.
    + exact I4.
  - assert (∃ j, id = S j ∧ m_at m id = 0%nat) as (j & -> & H0).
    { destruct id as [|id]; unfold main in E.
      - destruct (m_at m 0) as [|k]; [done|]. do 17 (destruct k as [|k]; [done|]). destruct k as [|[|k]]; done.
      - exists id. split; [done|]. destruct (m_at m (S id)) as [|k]; [done|]. do 4 (destruct k as [|k]; [done|]). destruct k as [|k]; done. }
    destruct (m_started m) eqn:Hs; intros [= <-]; [|by split; rewrite ?Hs].
    split; cbn [m_calls m_at m_started].
    + intros i. change (calls_of i (Machine true _ (m_calls m))) with (calls_of i m). rewrite I1. unfold fupdn. destruct (decide (i = S j)) as [->|]; [|done].
      unfold made. by rewrite H0.
    + intros _. unfold fupdn. rewrite decide_False by done. by apply I2.
    + done.
    + exact I4.
Qed.

Lemma boot_reachable m : reachable m → boot_inv m.
Proof.
  induction 1 as [|m id m' _ IH Hs]; [|by eapply boot_inv_step].
  split; cbn; [|done|lia|done]. intros [|id]; done.
Qed.


(** Two harts: hart 1 starts to wait first. *)
Definition run_harts (order : list nat) (m : machine) : machine := foldl (λ m id, default m (boot_step id m)) m order.

Lemma run_harts_reachable order : ∀ m, reachable m → reachable (run_harts order m).
Proof.
  induction order as [|id order IH]; intros m Hm; [done|]. cbn. apply IH. destruct (boot_step id m) eqn:E; [by eapply reach_step|done].
Qed.


(** ** From machine mode to [main] *)

(** What entry 0 of the physical memory protection lets supervisor mode do with the
    address [a]: in the mode TOR it covers the addresses below [4 * pmpaddr0]. *)
Definition pmp_allows (c : csr) (a : Z) : Prop :=
  Z.land (Z.shiftr (c_reg c pmpcfg0) 3) 3 = 1 ∧ 0 <= a < 4 * c_reg c pmpaddr0 ∧
  Z.land (c_reg c pmpcfg0) 7 = 7.

Lemma testbit_u64 x i : 0 <= i → Z.testbit (u64 x) i = Z.testbit x i && (i <? 64).
Proof. intros Hi. unfold u64. destruct (Z.ltb_spec i 64); [by rewrite Z.mod_pow2_bits_low, andb_true_r by lia|by rewrite Z.mod_pow2_bits_high, andb_false_r by lia]. Qed.

Lemma testbit_shl1 k i : 0 <= k → Z.testbit (Z.shiftl 1 k) i = (i =? k).
Proof. intros Hk. rewrite Z.shiftl_1_l. destruct (Z.eqb_spec i k) as [->|Hne]; [by apply Z.pow2_bits_true|by apply Z.pow2_bits_false]. Qed.

Lemma testbit_mpp i : Z.testbit MSTATUS_MPP_MASK i = (i =? 11) || (i =? 12).
Proof.
  assert (MSTATUS_MPP_MASK = Z.lor (Z.shiftl 1 11) (Z.shiftl 1 12)) as -> by reflexivity. by rewrite Z.lor_spec, !testbit_shl1.
Qed.

Lemma mpp_set x : Z.land (u64 (Z.lor (Z.land x (Z.lnot MSTATUS_MPP_MASK)) MSTATUS_MPP_S)) MSTATUS_MPP_MASK = MSTATUS_MPP_S.
Proof.
  apply Z.bits_inj'. intros i Hi. rewrite Z.land_spec, testbit_u64, Z.lor_spec, Z.land_spec, Z.lnot_spec, testbit_mpp by done.
  unfold MSTATUS_MPP_S. rewrite testbit_shl1 by done. destruct (Z.eqb_spec i 11) as [->|]; [by rewrite andb_false_r|].
  destruct (Z.eqb_spec i 12) as [->|]; [by rewrite andb_false_r|]. by rewrite andb_false_r.
Qed.

Lemma testbit_mstatus x p i : 0 <= i < 64 → i ∉ [3; 7; 11; 12] →
  Z.testbit (u64 (Z.lor (Z.ldiff (u64 (Z.lor (Z.land x (Z.lnot MSTATUS_MPP_MASK)) MSTATUS_MPP_S)) (Z.lor MSTATUS_MPP_MASK (Z.shiftl 1 3)))
    (Z.lor (Z.shiftl 1 7) (Z.shiftl (Z.b2z p) 3)))) i = Z.testbit x i.
Proof.
  intros Hi Hne. rewrite !elem_of_cons in Hne. rewrite testbit_u64, !Z.lor_spec, Z.ldiff_spec, testbit_u64, !Z.lor_spec, Z.land_spec, Z.lnot_spec, testbit_mpp by lia.
  unfold MSTATUS_MPP_S. rewrite !testbit_shl1, Z.shiftl_spec, (proj2 (Z.ltb_lt i 64)) by lia.
  rewrite (proj2 (Z.eqb_neq i 11)), (proj2 (Z.eqb_neq i 12)), (proj2 (Z.eqb_neq i 3)), (proj2 (Z.eqb_neq i 7)) by tauto.
  assert (Z.testbit (Z.b2z p) (i - 3) = false) as ->.
  { destruct (decide (i < 3)); [apply Z.testbit_neg_r; lia|]. destruct p; [|apply Z.testbit_0_l]. change (Z.b2z true) with (2 ^ 0). apply Z.pow2_bits_false. lia. }
  cbn [orb negb andb]. by rewrite ?andb_true_r, ?orb_false_r, ?andb_true_r.
Qed.

Lemma setr_eq r x c : c_reg (setr r x c) r = u64 x.
Proof. cbn. by rewrite decide_True. Qed.
Lemma setr_ne r r' x c : r' ≠ r → c_reg (setr r x c) r' = c_reg c r'.
Proof. intros H. cbn. by rewrite decide_False. Qed.
Lemma bind_csrr {A} r (k : Z → M csr A) h c : bind (csrr r) k (Thread h c) = k (c_reg c r) (Thread h c).
Proof. done. Qed.
Lemma bind_csrw {A} r x (k : M csr A) h c : bind (csrw r x) (λ _, k) (Thread h c) = k (Thread h (setr r x c)).
Proof. done. Qed.
Lemma bind_gets {A B} (f : csr → A) (k : A → M csr B) h c : bind (gets f) k (Thread h c) = k (f c) (Thread h c).
Proof. done. Qed.

(** What a register holds after some writes. *)
Ltac regs := repeat (rewrite setr_eq || rewrite setr_ne by discriminate).

(** [start] hands over to [main] in supervisor mode: without paging, with the exceptions
    and interrupts delegated that the hart lets delegate, the three supervisor interrupts
    enabled, all of physical memory but its last four bytes accessible, the first timer
    interrupt set up, and the hart's number in [tp]. *)
Lemma start_run deleg_exc deleg_int main h c : 0 <= main < 2 ^ 64 → 0 <= deleg_exc → 0 <= deleg_int →
  (∀ i, i ∈ [1; 5; 9] → Z.testbit deleg_int i = true) →
  ∃ c', start deleg_exc deleg_int main (Thread h c) = Ok tt (Thread h c') ∧
    c_priv c' = 1 ∧ c_pc c' = main ∧ c_reg c' satp = 0 ∧
    c_reg c' medeleg = Z.land 0xffff deleg_exc ∧ c_reg c' mideleg = Z.land 0xffff deleg_int ∧
    (∀ i, i ∈ [1; 5; 9] → Z.testbit (c_reg c' mideleg) i = true ∧ Z.testbit (c_reg c' mie) i = true) ∧
    (∀ a, 0 <= a < 2 ^ 56 - 4 → pmp_allows c' a) ∧
    c_reg c' tp = u64 (s32 (c_reg c mhartid)) ∧
    c_reg c' stimecmp = u64 (c_reg c time + 1000000) ∧ Z.testbit (c_reg c' menvcfg) 63 = true ∧ Z.testbit (c_reg c' mcounteren) 1 = true ∧
    ∀ i, 0 <= i < 64 → i ∉ [3; 7; 11; 12] → Z.testbit (c_reg c' mstatus) i = Z.testbit (c_reg c mstatus) i.
Proof.
  intros Hmain He Hd Hint.
  set (x := c_reg c mstatus). set (m1 := u64 (Z.lor (Z.land x (Z.lnot MSTATUS_MPP_MASK)) MSTATUS_MPP_S)).
  set (d := u64 (Z.land 0xffff deleg_int)). set (sie := Z.lor SIE_SEIE (Z.lor SIE_STIE SIE_SSIE)). set (e := c_reg c mie).
  set (e1 := Z.lor (Z.ldiff e d) (Z.land (u64 (Z.lor (Z.land e d) sie)) d)).
  set (c1 := setr tp (s32 (c_reg c mhartid)) (setr stimecmp (c_reg c time + 1000000) (setr mcounteren (Z.lor (c_reg c mcounteren) 2)
    (setr menvcfg (Z.lor (c_reg c menvcfg) (Z.shiftl 1 63)) (setr mie (Z.lor (u64 e1) MIE_STIE) (setr pmpcfg0 0xf (setr pmpaddr0 0x3fffffffffffff
    (setr mie e1 (setr mideleg (Z.land 0xffff deleg_int) (setr medeleg (Z.land 0xffff deleg_exc) (setr satp 0 (setr mepc main
    (setr mstatus (Z.lor (Z.land x (Z.lnot MSTATUS_MPP_MASK)) MSTATUS_MPP_S) c))))))))))))).
  set (m2 := Z.lor (Z.ldiff m1 (Z.lor MSTATUS_MPP_MASK (Z.shiftl 1 3))) (Z.lor (Z.shiftl 1 7) (Z.shiftl (Z.b2z (Z.testbit m1 7)) 3))).
  exists (Csr (c_reg (setr mstatus m2 c1)) (Z.shiftr (Z.land m1 MSTATUS_MPP_MASK) 11) (c_reg (setr mstatus m2 c1) mepc)). split.
  { unfold start, timerinit, mret, w_sie, r_sie, w_mstatus, r_mstatus, w_mepc, w_satp, w_medeleg, w_mideleg, r_mideleg, r_mie, w_mie, w_pmpaddr0, w_pmpcfg0,
      r_menvcfg, w_menvcfg, r_mcounteren, w_mcounteren, r_time, w_stimecmp, r_mhartid, w_tp.
    repeat (rewrite bind_assoc || rewrite bind_csrr || rewrite bind_csrw || rewrite bind_gets); unfold modify; cbn [held st]. regs. fold x m1 d e. fold sie. fold e1. fold c1.
    reflexivity. }
  cbn [c_reg c_priv c_pc]. subst c1. regs. fold m1 d.
  assert (∀ z, 0 <= z → 0 <= Z.land 65535 z < 2 ^ 64) as Hu.
  { intros z Hz. split; [apply Z.land_nonneg; lia|]. change 65535 with (Z.ones 16). rewrite Z.land_comm, Z.land_ones by lia.
    pose proof (Z.mod_pos_bound z (2 ^ 16) ltac:(lia)). lia. }
  pose proof (Hu _ He) as He1. pose proof (Hu _ Hd) as Hd1.
  split; [subst m1; by rewrite mpp_set|]. split; [by apply u64_small|]. split; [done|]. split; [by apply u64_small|]. split; [by apply u64_small|].
  split.
  { intros i Hi. specialize (Hint i Hi). assert (0 <= i < 16) as Hr by (rewrite !elem_of_cons, elem_of_nil in Hi; lia).
    assert (Z.testbit d i = true) as Ht.
    { subst d. rewrite u64_small by done. rewrite Z.land_spec, Hint. change 65535 with (Z.ones 16). by rewrite Z.ones_spec_low by lia. }
    assert (Z.testbit sie i = true) as Hs.
    { subst sie. unfold SIE_SEIE, SIE_STIE, SIE_SSIE. rewrite !Z.lor_spec, !testbit_shl1 by lia. rewrite !elem_of_cons, elem_of_nil in Hi. destruct Hi as [->|[->|[->|[]]]]; done. }
    split; [done|]. subst e1. rewrite testbit_u64, Z.lor_spec, testbit_u64, Z.lor_spec, Z.land_spec, testbit_u64, !Z.lor_spec, Ht, Hs by lia.
    rewrite (proj2 (Z.ltb_lt i 64)) by lia. by rewrite !orb_true_r. }
  split.
  { intros a Ha. unfold pmp_allows. cbn [c_reg]. regs. split; [reflexivity|]. split; [|reflexivity].
    change (u64 0x3fffffffffffff) with 0x3fffffffffffff. lia. }
  split; [done|]. split; [done|]. split; [by rewrite testbit_u64, Z.lor_spec, testbit_shl1, orb_true_r by lia|].
  split; [by rewrite testbit_u64, Z.lor_spec, orb_true_r by lia|].
  intros i Hi Hne. by apply testbit_mstatus.
Qed.

(** ** The interrupts the PLIC hands out *)

(** The interrupt [irq] reaches supervisor mode of [hart]: it is enabled there and its
    priority is above the hart's threshold. *)
Definition delivers (m : mmio) (hart irq : Z) : bool :=
  Z.testbit (m (PLIC_SENABLE hart)) irq && (m (PLIC_SPRIORITY hart) <? m (PLIC + irq * 4)).

(** The harts of the list initialise their side one after the other. *)
Definition plic_harts (harts : list Z) : M mmio unit := foldr (λ hart k, plicinithart hart ;;; k) (ret tt) harts.

Definition plic_rel (harts : list Z) (m m' : mmio) : Prop :=
  (∀ h, 0 <= h < NCPU → m' (PLIC_SENABLE h) = if decide (h ∈ harts) then 1026 else m (PLIC_SENABLE h)) ∧
  (∀ h, 0 <= h < NCPU → m' (PLIC_SPRIORITY h) = if decide (h ∈ harts) then 0 else m (PLIC_SPRIORITY h)) ∧
  ∀ irq, 0 <= irq < 1024 → m' (PLIC + irq * 4) = m (PLIC + irq * 4).

Ltac plic_regs := unfold PLIC_SENABLE, PLIC_SPRIORITY, PLIC, NCPU in *; unfold fupdz;
  repeat match goal with |- context [?a =? ?b] => destruct (Z.eqb_spec a b); try lia end.

Lemma plicinithart_rel hart h m : 0 <= hart < NCPU → ∃ m', plicinithart hart (Thread h m) = Ok tt (Thread h m') ∧ plic_rel [hart] m m'.
Proof.
  intros Hh. exists (fupdz (fupdz m (PLIC_SENABLE hart) 1026) (PLIC_SPRIORITY hart) 0). split; [reflexivity|]. split; [|split].
  - intros h' Hh'. destruct (decide (h' ∈ [hart])) as [->%list_elem_of_singleton|Hn]; [by plic_regs|]. rewrite list_elem_of_singleton in Hn. by plic_regs.
  - intros h' Hh'. destruct (decide (h' ∈ [hart])) as [->%list_elem_of_singleton|Hn]; [by plic_regs|]. rewrite list_elem_of_singleton in Hn. by plic_regs.
  - intros irq Hirq. by plic_regs.
Qed.

Lemma plic_harts_rel harts h : ∀ m, Forall (λ x, 0 <= x < NCPU) harts → ∃ m', plic_harts harts (Thread h m) = Ok tt (Thread h m') ∧ plic_rel harts m m'.
Proof.
  induction harts as [|x harts IH]; intros m Hf; [by exists m|]. inversion_clear Hf as [|?? Hx Hf'].
  destruct (plicinithart_rel x h m Hx) as (m1 & E1 & R1 & R2 & R3). destruct (IH m1 Hf') as (m2 & E2 & S1 & S2 & S3).
  exists m2. split; [by unfold plic_harts; cbn [foldr]; unfold bind; rewrite E1|]. split; [|split].
  - intros h' Hh'. rewrite S1, R1 by done. repeat case_decide; set_solver.
  - intros h' Hh'. rewrite S2, R2 by done. repeat case_decide; set_solver.
  - intros irq Hirq. by rewrite S3, R3.
Qed.

(** After [plicinit] and [plicinithart] of some harts, on a PLIC that was reset, exactly
    the interrupts of the serial port and of the disk reach exactly these harts. *)
Lemma plic_delivers harts h : Forall (λ x, 0 <= x < NCPU) harts →
  ∃ m, (plicinit ;;; plic_harts harts) (Thread h (λ _, 0)) = Ok tt (Thread h m) ∧
    ∀ hart irq, 0 <= hart < NCPU → 0 <= irq < 32 →
      delivers m hart irq = bool_decide (hart ∈ harts ∧ (irq = UART0_IRQ ∨ irq = VIRTIO0_IRQ)).
Proof.
  intros Hf. set (m0 := fupdz (fupdz (λ _, 0) (PLIC + UART0_IRQ * 4) 1) (PLIC + VIRTIO0_IRQ * 4) 1).
  destruct (plic_harts_rel harts h m0 Hf) as (m & E & R1 & R2 & R3). exists m. split; [exact E|]. intros hart irq Hh Hi.
  unfold delivers. rewrite R1, R2, R3 by lia. destruct (decide (hart ∈ harts)) as [Hin|Hn].
  - assert (m0 (PLIC + irq * 4) = if decide (irq = UART0_IRQ ∨ irq = VIRTIO0_IRQ) then 1 else 0) as ->.
    { subst m0. unfold UART0_IRQ, VIRTIO0_IRQ. case_decide as Hd; by plic_regs. }
    assert (Z.testbit 1026 irq = bool_decide (irq = UART0_IRQ ∨ irq = VIRTIO0_IRQ)) as ->.
    { unfold UART0_IRQ, VIRTIO0_IRQ. change 1026 with (Z.lor (Z.shiftl 1 10) (Z.shiftl 1 1)). rewrite Z.lor_spec, !testbit_shl1 by lia.
      destruct (Z.eqb_spec irq 10), (Z.eqb_spec irq 1); case_bool_decide; naive_solver lia. }
    repeat case_bool_decide; case_decide; naive_solver.
  - assert (m0 (PLIC_SENABLE hart) = 0) as ->. { subst m0. unfold UART0_IRQ, VIRTIO0_IRQ. by plic_regs. }
    rewrite Z.testbit_0_l. case_bool_decide; naive_solver.
Qed.
